(* ===== verification/_CoqProject ===== *)
-Q . S2P
Prelude.v
Float64.v
Models.v
Scoring.v
Gate.v
GateSafety.v
GateLLM.v
Canonical.v
PolicyDigest.v
Lifecycle.v
Unpack.v
Adapter.v
BlobStore.v
Json.v
JsonText.v
PyText.v
Airlock.v
JsonRead.v
Regex.v
Sessions.v
Limits.v
Cron.v
AuditChain.v
Ports.v
Inventory.v
GateService.v
Relay.v
Reconcile.v
Readback.v
Package.v
Logging.v
Orchestration.v
EngineRunner.v
EngineHealth.v
Reviews.v
Worker.v
Reeval.v
Policy.v
Access.v
Login.v
Accounts.v
Keyword.v
Detectors.v
TextDetectors.v
McpConfig.v
Timeouts.v
Aig.v
Retention.v
EngineOutput.v
PinnedDns.v
WorkerTick.v
PolicyWorkflow.v
Pipeline.v
Market.v
ScanViews.v
GateRoutes.v
Intel.v
Reports.v
Submit.v
Console.v
