(* ===== verification/Prelude.v ===== *)
(** * skillscan: a verification development

    skillscan admits third-party "skills" (packages of instructions and code for
    agents) into a marketplace.  A submitted package is content-addressed, scanned
    by several engines, scored, and given a verdict PASS, REVIEW or BLOCK; people
    review, waive and change policy under separation of duties; a worker moves
    each skill through its lifecycle according to the verdicts.  This library models
    the decision kernel and the services around it, as they are written, and proves
    the invariants the sources name INV-1 to INV-12 as far as they concern this code.

    ** How the parts interact

    A submission ([orchestration.service.submit_scan]) hashes the package
    ([canonical.content_hash]), the toolchain and the policy into a cache key and
    creates at most one job for it.  Engines run elsewhere and leave one result blob
    each.  The collector reads the blobs back through the findings schema
    ([orchestration.aggregate], [schemas.findings]), aggregates them
    ([scoring.aggregate]), stores the result, and in a second transaction asks the gate
    ([gate.service.decide_and_record], [skillscan_core.gate.decide]) for a verdict, which is
    signed, stored, announced in an outbox and audited; a third transaction marks the
    job decided.  A scan that cannot be scored is dead-lettered to a forced BLOCK.
    Reviewers turn a REVIEW verdict into PASS or BLOCK ([gate.reviews]).  The worker
    ([worker.sync_lifecycle_tick]) applies verdicts to the inventory's event log
    ([inventory.service], [inventory.lifecycle]).  The policy comes from YAML
    ([gate.policy]) and changes through proposals ([gate.policy_workflow]).

    ** Files

    Kernel, [src/libs/skillscan_core/] (pure):
    - [Prelude.v]: the error monad [result], sorting as Python's [sorted] does it, the
      boolean order classes [TotalPreB] and [AntisymB] through which all sorting lemmas
      are stated, string order, [join].
    - [Float64.v]: Python floats: values and comparisons, binary64 rounding and the
      four operations, [round].
    - [Models.v] ([models.py]): enumerations, dataclasses as records, constructors'
      checks as fallible constructor functions.
    - [Scoring.v] ([scoring.py]): [evaluate_findings], [_dedup], [aggregate],
      [security_score].
    - [Gate.v] ([gate.py]): [_classify] and [decide] (here [gate_decide]), the shared
      lemmas and sample scans.  [GateSafety.v]: INV-1, 3, 4, 5, 8 from the engines'
      results to the verdict.  [GateLLM.v]: INV-2.
    - [Canonical.v] ([canonical.py]): the hashed bytes of packages, toolchains and cache
      keys.  [PolicyDigest.v] ([models.py]): the policy's part of the cache key.

    Services, [src/apps/monolith/] and [src/libs/]:
    - [Lifecycle.v] ([inventory/lifecycle.py], [ownership.py], [orchestration/drift.py]): the
      transition table and the ownership, supersession and drift rules.
    - [Json.v], [JsonText.v], [PyText.v], [JsonRead.v]: JSON values and their canonical text,
      the text functions of Python the code uses (decoding, splitting, number syntax), and
      [json.loads].  [Regex.v]: the part of [re] the code uses, as a backtracking matcher
      with its reference semantics.
    - [Airlock.v] ([common/airlock.py]): the two streams and their entries down to the bytes.
      [BlobStore.v] ([common/blobstore.py], [gateway/infra_router.py], the probe loop of
      [main.py]): the file store, the probe that it is shared, and readiness.  [Logging.v]
      ([common/log.py]): what is redacted before it is logged.
    - [Inventory.v] ([inventory/service.py], [router.py], the inventory transaction of
      [gateway/router.py]): skills, versions, baselines and the event log.
    - [GateService.v] ([gate/service.py], [models.py]): recording verdicts, waivers.
    - [Readback.v] ([schemas/findings.py], [orchestration/aggregate.py]): the trust
      boundary to the engines.
    - [Orchestration.v] ([orchestration/service.py], [models.py], the message and key
      formats of [common/airlock.py] and [common/blobstore.py]): the pipeline, one function
      per transaction, and the whole functions composed from them.  [Pipeline.v]: those
      transactions as a step relation on a system with pending continuations, and the same
      with manual review ([live_step]).
    - [EngineHealth.v] ([orchestration/engine_health.py], [admin/engine_registry.py]):
      health windows and the coverage of a scan.
    - [Reviews.v] ([gate/reviews.py], [reviews_router.py]): manual review, and the steps
      of gate's tables.  [GateRoutes.v] ([gate/router.py], [reviews_router.py]): the
      allowlist's routes and the review queue.
    - [Worker.v], [WorkerTick.v] ([worker.py], [sandbox_engines.py], [engine_names.py]): the
      lifecycle tick and the steps of the inventory; the requeue sweep, which engines are
      waited for, the tick and the loop.
    - [Policy.v] ([gate/policy.py]) and [PolicyWorkflow.v] ([gate/policy_workflow.py],
      [worker.py]): policy parsing, proposals, promotion and reload.
    - [AuditChain.v] ([audit/]): the hash-chained ledger and its drainer.
    - [Ports.v], [Relay.v] ([ports/marketplace.py], [integration_relay/]): the outbox's
      relay to the marketplace and the SIEM, through the interface of the ports.
    - [Reeval.v], [Reconcile.v] ([reeval/], the push webhook of [gateway/router.py]):
      staleness and rescans; reconciliation with the marketplace's listing.
    - [Market.v], [Submit.v] ([marketplace_api/], [gateway/router.py]): the marketplace's
      view of a skill; the two doors for submissions.  [ScanViews.v] ([gateway/router.py],
      [common/sarif.py]): reading, listing and exporting scans.
    - [Limits.v] ([redis_window_counter.py], [ratelimit.py], [local_auth.py]): rate limits and
      lockouts.  [Cron.v], [Reports.v] ([reporting/], [worker.py]): report schedules, the
      report templates and their exports.  [Intel.v] ([intel/], [intel_sync/sync.py],
      [common/signing.py]): the indicators of compromise, their import and their matcher.
      [Retention.v] ([orchestration/retention.py]): pruning telemetry.

    Identity, [gateway/auth/] and [admin/]:
    - [Sessions.v] ([redis_session.py]): the session store.  [Access.v] ([dependencies.py],
      [session.py], [rbac.py], [m2m.py], [middleware.py]): from a request to an identity, roles
      and CSRF.  [Login.v] ([login_router.py], [oidc.py], [saml.py], [breakglass.py]): logins and
      logouts as a step relation.  [Accounts.v] ([accounts_service.py], [password.py], the
      account routes): local accounts and the group-role map.  [Console.v]
      ([inventory/router.py], [admin/router.py], [engine_registry.py], [floor.py]): assigning
      owners, switching engines, the health page, the policy routes.
    - [PinnedDns.v] ([common/pinned_dns.py], [config.py]): endpoints that must stay internal.

    Engines, [src/services/engine_runner/] and [skillscan_core/engines.py]:
    - [Unpack.v] ([normalizer.py]): hardened unpacking.  [Package.v] ([skill_package.py]): the
      package root and its manifest.  [Adapter.v] ([adapters/base.py]): materialising a package
      and running an engine on it.  [EngineRunner.v] ([worker.py], the engine worker of
      [orchestration/service.py]): consuming scan jobs.  [Timeouts.v] ([timeouts.py]).
    - [Keyword.v] ([engines.py]), [Detectors.v] ([detectors/file_type.py],
      [skill_permissions.py], [common/frontmatter.py]), [TextDetectors.v] ([crypto_weak.py],
      [toctou.py], [pii.py] and the two Chinese prompt detectors), [McpConfig.v]
      ([mcp_config.py]): engines of the repository's own.  [EngineOutput.v]
      ([adapters/bandit.py], [skillspector.py], [osv.py], [yara.py]), [Aig.v] ([adapters/aig.py]):
      reading the reports of the vendored ones.

    Modules named [...Samples] hold concrete scans, tables and runs: they witness the
    hypotheses of the theorems, and a few evaluate the model on chosen inputs.

    ** What the theorems show

    - Verdicts, from the engines' results through [aggregate] to [gate_decide]: a
      required engine without a usable result fails the scan closed
      ([fail_closed_end_to_end]); hard gates block whatever is waived
      ([hard_gate_unwaivable]); the trifecta blocks, also past the cap
      ([trifecta_blocks]); a flood never passes ([flood_never_passes]); LLM findings only
      escalate ([llm_only_escalates]); waivers do only what they may
      ([waivers_are_limited]); what a PASS means in terms of the reports
      ([pass_certificate]).
    - Scoring: deduplication keeps a strongest representative ([dedup_sound]), the cap
      and deduplication do not lower the severity ([aggregate_severity_full]), scores stay
      in the verdict's band ([score_orders_verdicts]), and exactly when aggregation
      raises ([aggregate_raises_iff]).
    - Identity: the hashed bytes determine the package, the toolchain and the policy's
      meaning ([content_preimage_iff], [toolchain_preimage_iff],
      [adjudication_semantics_iff]), accepted paths stay inside the package
      ([accepted_path_confined]), and policies with the same digest text decide alike
      ([same_semantics_same_decision]).
    - Trust boundary: only a valid blob counts; every other one reads as an unusable
      result, and reading raises only when the store does or the engine has no name
      ([load_engine_result_fail_closed], [required_ok_iff_trusted_blobs],
      [stored_findings_roundtrip]).
    - Pipeline, under every interleaving and crash: [pipeline_invariant],
      [verdicts_are_final], and with reviewers at work between the steps
      ([live_ok_reachable]); the whole ticks are sequences of the steps
      ([ticks_refine_steps]); a scored scan that lost its gate transaction stays
      undecided ([scored_scan_is_never_resumed]).
    - Gate's tables: [recorded_verdicts_are_announced], [settled_verdicts_are_final],
      [review_separation_of_duties], [active_waivers_have_four_eyes].
    - Inventory: the event log under whole transactions in any order
      ([event_log_is_sound]) and under overlapping ones, which read snapshots that others
      outdate ([log_survives_overlap]); [inventory_is_append_only], [lifecycle_gates],
      [tick_settles_waiting_skills]; a bulk assignment takes exactly the unowned skills
      ([bulk_assignment_takes_only_the_unowned]).
    - Console: no switch reaches an engine of the floor ([switches_never_reach_the_floor]),
      what is listed can be switched ([listed_engines_can_be_switched]), reasons shown for
      silent engines yield to evidence ([attributions_yield_to_evidence]), and the answer to
      an approval is what happened ([approval_reply_is_what_happened]).
    - Policy: [parse_gate_policy_exact], [tier_direction_is_semantic],
      [running_policy_has_four_eyes].
    - Audit and relay: the ledger is linear, tamper-evident behind its first row (whose
      hashes are covered, whose text is not recomputed), and drained
      ([audit_ledger_is_linear], [ledger_is_tamper_evident], [drain_chains_the_backlog]); one
      relay pass delivers each pending event once ([relay_is_one_pass]) and its SIEM lines
      cannot be forged ([siem_line_is_safe]).
    - Packages and engines: accepted uploads are confined and bounded
      ([accepted_upload_is_hardened]), the workers and the engines see the files that were
      submitted ([workers_see_the_submission], [engine_scans_the_file_set]), no job is lost
      between the floor's and the sandbox's consumers ([no_scan_job_is_lost],
      [queued_jobs_are_requeued]) and what is reported is what is
      scored ([reported_results_are_scored]); keywords, executables and permissions are found
      exactly ([keyword_reported_iff], [executables_are_critical],
      [no_permission_finding_iff]) and reports are read completely or not at all
      ([bandit_report_is_complete], [osv_drops_no_vulnerability], [usable_run_has_a_report],
      [well_formed_reports_are_read]).
    - Text and configuration detectors: the matcher finds a word exactly when the pattern
      describes one ([search_iff]); weak hashes, overrides and MCP servers are reported
      exactly when the text has them ([weak_hash_reported_iff], [override_reported_iff],
      [mcp_silent_iff], [passed_servers_are_plain]); evidence discloses only the shape of
      personal data ([pii_discloses_only_shape], [ssn_blocks]).
    - Indicators: only vouched packages apply, they only accumulate, and a file with an
      imported hash never passes ([only_vouched_packages_apply],
      [indicators_only_accumulate], [digest_tracks_indicators],
      [imported_hash_never_passes]).
    - Streams and store: entries are read as they were written ([scan_job_roundtrip],
      [result_roundtrip], [bad_timing_is_ignored]) and none is lost ([no_entry_is_lost]); blobs
      are read back ([blob_roundtrip]); a confirmed share is shared and a live peer is seen
      ([confirmed_means_shared], [live_peer_is_seen]).
    - Reports and logs: exports read back and account for every entry
      ([exported_report_reads_back], [trend_accounts_for_all], [bare_date_covers_the_day],
      [pdf_cap_is_announced], [granted_waiver_is_reported]); secrets under their keys and
      credentials in URLs do not reach the log ([mapping_is_redacted],
      [url_credentials_are_removed]), loggers have a level of their own
      ([loggers_are_explicit]); the model-only engine talks to the checked endpoint and its
      findings are marked ([aig_talks_to_the_checked_endpoint],
      [aig_findings_are_the_models]).
    - The marketplace: "safe" means scanned and passed, or approved by a reviewer
      ([market_safe_means_scanned]), answers
      have only the contract's fields ([market_answer_is_whitelisted]), refused submissions
      leave nothing ([refused_submissions_leave_nothing]), listings are judged by the verdict
      in force ([reconcile_is_standing], [poll_takes_down_the_unvouched]).
    - Identity: who counts as an administrator ([admin_routes_need_an_admin]), CSRF
      ([forged_writes_are_refused]), sessions ([sessions_come_from_logins],
      [one_login_per_arming]), accounts ([an_admin_remains]), lockouts
      ([basic_attempts_are_bounded]); a pinned host never leads outside
      ([pinned_hosts_stay_internal], [configured_endpoints_stay_internal]).
    - Console: a scan is read by its submitters and reviewers alone
      ([scan_reads_are_scoped]), lists are complete and agree with the detail
      ([list_pages_are_complete], [list_agrees_with_detail]), SARIF is faithful
      ([sarif_is_faithful]), waivers come from the right people
      ([waivers_are_granted_by_the_right_people]), the review queue's flags match what a
      decision would do ([queue_flags_are_honest]).
    - Operations: schedules, retention, timeouts, rate limits ([valid_cron_is_standard],
      [retention_pass], [timeouts_apply_exactly], [window_admits_its_budget]).
    - Limits of the code, each proved on the same definitions:
      [rejected_review_is_never_applied], [auto_approved_is_never_applied],
      [rejection_can_be_overwritten], [stale_tick_publishes_over_running_scan],
      [concurrent_transitions_can_cross], [waived_finding_masks_lost_signal],
      [skill_scoped_waivers_are_inert], [later_approval_is_reverted],
      [late_rejection_disowns_the_running_policy],
      [infinite_expiry_is_permanent], [one_arming_can_grant_two_logins],
      [admins_can_lock_each_other_out], [package_forges_the_report],
      [failing_step_starves_the_rest], [hard_gate_waiver_is_inert],
      [pages_can_miss_a_scan], [unreadable_result_strands_others], [unseen_shells],
      [unreadable_config_hides_servers], [card_before_digits_is_missed],
      [nul_hides_a_number], [accent_shadows_an_indicator], [domains_are_matched_whole],
      [failing_probe_keeps_ready], [nan_is_a_peer_for_ever], [pending_can_be_negative],
      [password_with_slash_is_logged], [unredacted_values], [exception_text_is_logged].

    ** Conventions

    - An exception is [Err e].  A database transaction is a function on the tables it
      touches: [Err] leaves the tables of the caller, which is the rollback.  Where a
      function opens several transactions, each is its own definition; where a
      transaction reads a row without a lock and later writes, and a claim is about
      concurrency, it is split at the read ([review_plan]/[review_commit],
      [pending_moves]/[apply_move], the rows read by [row_read] of [PolicyWorkflow.v], the
      steps of [Worker.v] and its [overlap_step], where a transaction works on an old
      snapshot).  Tables with a key
      are [gmap]s, append-only logs are lists with the newest row first; unique indexes
      are checks that raise.
    - Strings are Rocq strings holding UTF-8 bytes and are compared exactly; paths, which
      the code handles by code point, are lists of code points.  The database's
      collation, which compares some columns more coarsely, is a parameter where it decides
      who may read or review a scan ([Collation], [is_scan_submitter]) and which indicators
      coincide ([Intel.v]); other columns are compared exactly.
    - Database clocks are [Z] (seconds); waiver expiry and [now] of the gate are
      numbers as Python compares them ([pyfloat], [Q]).  Integers are Python's, hence [Z],
      with the column and struct bounds where the code has them.
    - Recursion is structural, or has fuel that is enough: [drop_spaces] of [Lifecycle.v]
      ([str.strip]) has the length of the string in bytes and drops at least one each round;
      the repetitions of [Regex.v] have the length of the text that is left and each turn
      consumes some ([m_complete] says that no match is missed); the pattern reader has
      four times the pattern's length and every pattern in use is read; [JsonRead.v] has
      twice the length of the text and one more, which [read_value_fuel] shows to be
      enough.
      The cap of 5000 findings, the delivery limit and the score bands are the
      source's constants; the cap is an argument of [aggregate] as in the source, so the
      kernel's theorems hold for every cap.
    - Parameters stand for code that is not in the repository or is only called:
      SHA-256, HMAC and scrypt, Unicode NFC, [math.exp], [repr], the verdict signer and its
      token id, pydantic's and YAML's readers (pydantic's law is [accepts_results]), [datetime] conversion, tar and zip parsing,
      the engines' subprocesses, the marketplace, the identity provider's and DNS's answers.
      The pipeline's files take the tar packer and the reader of a skill's declared name as
      parameters; [Unpack.v] and [Package.v] define them.  The theorems hold for all of
      them; where a law is needed it is a named hypothesis with an instance among the
      samples (the laws of [repr] are [repr_laws], with an instance in [DigestSamples]).

    ** Not modelled, and why

    The HTTP framework, the database, S3 and syslog connections, and the identity
    libraries' cryptography are libraries; Redis appears as the commands the code sends to
    it.  The rendering of a PDF page, the vendored scanners and the verdict signer (Vault)
    are outside the repository.  Process wiring ([main.py], [runtime.py], the settings of
    [engine_runner/main.py]), metrics, connection factories, file owners and mode bits of
    the blob store, and the command lines of four of the five vendored engines are glue
    without a contract of their own to state.  Migrations are DDL: their unique keys appear
    as checks.  Scripts for deployment and corpus import are run by hand and are not part
    of the system that decides. *)

From stdpp Require Export base gmap sets list strings sorting.

(** ** Fallible code

    Python code that may raise is a value of [result E A]: [Err e] is the
    exception [e] reaching the caller, [Ok a] the normal return. *)
Inductive result (E A : Type) : Type :=
| Ok (a : A)
| Err (e : E).
Global Arguments Ok {E A} a.
Global Arguments Err {E A} e.

#[export] Instance result_ret {E} : MRet (result E) := fun A a => Ok a.
#[export] Instance result_bind {E} : MBind (result E) :=
  fun A B f m => match m with Ok a => f a | Err e => Err e end.
#[export] Instance result_fmap {E} : FMap (result E) :=
  fun A B f m => match m with Ok a => Ok (f a) | Err e => Err e end.

(** [guard_err b e]: the Python statement [if not b: raise e]. *)
Definition guard_err {E} (b : bool) (e : E) : result E unit :=
  if b then Ok () else Err e.

Definition is_ok {E A} (m : result E A) : bool :=
  match m with Ok _ => true | Err _ => false end.

Lemma bind_Ok {E A B} (m : result E A) (f : A → result E B) b :
  m ≫= f = Ok b ↔ ∃ a, m = Ok a ∧ f a = Ok b.
Proof. destruct m as [a|e]; split; [by eauto|by intros (?&[= ->]&?)|done|by intros (?&?&?)]. Qed.

Lemma guard_err_Ok {E} b (e : E) u : guard_err b e = Ok u ↔ b = true.
Proof. destruct b, u; naive_solver. Qed.

(** Peels every [bind] and [guard_err] of a successful run into the
    boolean facts the code tested on the way. *)
Ltac ok_inv :=
  repeat match goal with
  | H : _ ≫= _ = Ok _ |- _ => apply bind_Ok in H; destruct H as (? & ? & ?)
  | H : guard_err _ _ = Ok _ |- _ => apply guard_err_Ok in H
  | H : Ok _ = Ok _ |- _ => injection H as H; subst
  | H : mret _ = Ok _ |- _ => injection H as H; subst
  | H : Err _ = Ok _ |- _ => discriminate H
  end.

(** Booleans met in guards, turned into propositions. *)
Ltac bool_prop :=
  repeat match goal with
  | H : _ && _ = true |- _ => apply andb_true_iff in H; destruct H
  | H : _ || _ = false |- _ => apply orb_false_iff in H; destruct H
  | H : negb _ = true |- _ => apply negb_true_iff in H
  | H : negb _ = false |- _ => apply negb_false_iff in H
  | H : bool_decide _ = true |- _ => apply bool_decide_eq_true in H
  | H : bool_decide _ = false |- _ => apply bool_decide_eq_false in H
  end.

(** The string tests of the source, as (dis)equalities. *)
Ltac str_prop :=
  repeat match goal with
  | H : String.eqb _ _ = true |- _ => apply String.eqb_eq in H
  | H : String.eqb _ _ = false |- _ => apply String.eqb_neq in H
  end.

(** Closed decidable goals, by evaluation. *)
Ltac by_compute :=
  match goal with |- ?P => exact (bool_decide_unpack P I) end.

(** ** Lists *)

Lemma forallb_true {A} (p : A → bool) l : forallb p l = true ↔ ∀ x, x ∈ l → p x = true.
Proof. rewrite forallb_forall. by setoid_rewrite <-list_elem_of_In. Qed.

Lemma forallb_false {A} (p : A → bool) l : forallb p l = false ↔ ∃ x, x ∈ l ∧ p x = false.
Proof.
  induction l as [|y l IH]; simpl.
  { split; [done|]. by intros (x & ?%elem_of_nil & _). }
  rewrite andb_false_iff, IH. setoid_rewrite elem_of_cons. naive_solver.
Qed.

Lemma existsb_true {A} (p : A → bool) l : existsb p l = true ↔ ∃ x, x ∈ l ∧ p x = true.
Proof. rewrite existsb_exists. by setoid_rewrite <-list_elem_of_In. Qed.

Lemma existsb_false {A} (p : A → bool) l : existsb p l = false ↔ ∀ x, x ∈ l → p x = false.
Proof.
  rewrite <-not_true_iff_false, existsb_true. split.
  - intros H x Hx. destruct (p x) eqn:E; [|done]. exfalso. apply H. eauto.
  - intros H (x & Hx & E). rewrite H in E; done.
Qed.

Lemma elem_of_filterb {A} (p : A → bool) (l : list A) x : x ∈ base.filter p l ↔ x ∈ l ∧ p x = true.
Proof. rewrite list_elem_of_filter, Is_true_true. tauto. Qed.

Lemma filterb_cons {A} (p : A → bool) (x : A) l :
  base.filter p (x :: l) = if p x then x :: base.filter p l else base.filter p l.
Proof. rewrite filter_cons. by destruct (p x). Qed.

Lemma filterb_id {A} (p : A → bool) (l : list A) : (∀ x, x ∈ l → p x = true) → base.filter p l = l.
Proof.
  induction l as [|x l IH]; intros H; [done|].
  rewrite filter_cons, decide_True by (apply Is_true_true, H; left).
  f_equal. apply IH. intros y Hy. apply H. by right.
Qed.

(** Translating a list element by element. *)
Lemma mapM_member {A B} (g : A → option B) l ys x : mapM g l = Some ys → x ∈ l → ∃ y, g x = Some y ∧ y ∈ ys.
Proof.
  intros H%mapM_Some (i & Hi)%list_elem_of_lookup. destruct (Forall2_lookup_l _ _ _ _ _ H Hi) as (y & Hy & E).
  exists y. split; [done|]. by eapply list_elem_of_lookup_2.
Qed.

Lemma mapM_source {A B} (g : A → option B) l ys y : mapM g l = Some ys → y ∈ ys → ∃ x, g x = Some y ∧ x ∈ l.
Proof.
  intros H%mapM_Some (i & Hi)%list_elem_of_lookup. destruct (Forall2_lookup_r _ _ _ _ _ H Hi) as (x & Hx & E).
  exists x. split; [done|]. by eapply list_elem_of_lookup_2.
Qed.

Lemma filter_ext_in {A} (P Q : A → Prop) `{∀ x, Decision (P x), ∀ x, Decision (Q x)} (l : list A) :
  (∀ x, x ∈ l → P x ↔ Q x) → base.filter P l = base.filter Q l.
Proof.
  induction l as [|x l IH]; intros H1; [done|]. rewrite !filter_cons, IH by set_solver.
  assert (P x ↔ Q x) by set_solver. by do 2 case_decide; try tauto.
Qed.

Lemma app_sep_inj {A} (l1 l2 r1 r2 : list A) x :
  x ∉ l1 → x ∉ l2 → l1 ++ x :: r1 = l2 ++ x :: r2 → l1 = l2 ∧ r1 = r2.
Proof.
  revert l2. induction l1 as [|y l1 IH]; intros [|z l2] H1 H2 E; cbn in E; simplify_eq; [done|set_solver..|].
  destruct (IH l2) as [-> ->]; set_solver.
Qed.

Lemma NoDup_fmap_filter {A B} (f : A → B) (P : A → Prop) `{∀ x, Decision (P x)} (l : list A) :
  NoDup (f <$> l) → NoDup (f <$> base.filter P l).
Proof.
  induction l as [|x l IH]; [done|]. rewrite fmap_cons, NoDup_cons, filter_cons. intros [Hx Hl].
  case_decide; [|auto]. rewrite fmap_cons. constructor; [|auto].
  intros (y & Hy & [_ Hin]%list_elem_of_filter)%list_elem_of_fmap. apply Hx, list_elem_of_fmap. eauto.
Qed.

Lemma size_list_to_set_le (l : list string) : (size (list_to_set l : gset string) <= length l)%nat.
Proof.
  induction l as [|x l IH]; cbn [list_to_set length]; [by rewrite size_empty|].
  rewrite size_union_alt, size_singleton.
  assert (size (list_to_set l ∖ {[x]} : gset string) <= size (list_to_set l : gset string))%nat; [|lia].
  apply subseteq_size. set_solver.
Qed.

Lemma Forall2_transport {A B} (R : A → B → Prop) (P : A → Prop) (Q : B → Prop) l l' :
  Forall2 R l l' → (∀ x y, R x y → P x ↔ Q y) → (∀ x, x ∈ l → P x) ↔ (∀ y, y ∈ l' → Q y).
Proof. intros H HR. rewrite <-!Forall_forall. induction H as [|x y l l' Hxy _ IH]; [done|]. rewrite !Forall_cons, IH. by rewrite (HR x y). Qed.

Lemma first_split {A} (P : A → Prop) `{∀ x, Decision (P x)} (l : list A) x :
  x ∈ l → P x → ∃ l1 y l2, l = l1 ++ y :: l2 ∧ P y ∧ Forall (λ z, ¬ P z) l1.
Proof.
  induction l as [|y l IH]; [by intros ?%elem_of_nil|]. intros Hin Hx. destruct (decide (P y)) as [Hy|Hy].
  - by exists [], y, l.
  - destruct IH as (l1 & z & l2 & -> & Hz & Hl1); [set_solver|done|]. exists (y :: l1), z, l2. auto.
Qed.

Lemma filterb_nil {A} (p : A → bool) (l : list A) : (∀ x, x ∈ l → p x = false) → base.filter p l = [].
Proof.
  induction l as [|x l IH]; intros H; [done|].
  rewrite filter_cons, decide_False by (rewrite Is_true_true, H; [done|left]).
  apply IH. intros y Hy. apply H. by right.
Qed.

Lemma filterb_comm {A} (p q : A → bool) (l : list A) :
  base.filter p (base.filter q l) = base.filter q (base.filter p l).
Proof.
  induction l as [|x l IH]; [done|].
  rewrite (filter_cons q), (filter_cons p x).
  repeat case_decide; rewrite ?filter_cons; repeat case_decide; naive_solver congruence.
Qed.

(** ** Total preorders as boolean functions

    What Python's [sort(key=...)] needs of the comparison of keys. *)
Class TotalPreB {A} (le : A → A → bool) : Prop := {
  leB_total : ∀ x y, le x y = false → le y x = true;
  leB_trans : ∀ x y z, le x y = true → le y z = true → le x z = true;
}.

Class AntisymB {A} (le : A → A → bool) : Prop :=
  leB_antisym : ∀ x y, le x y = true → le y x = true → x = y.

Lemma leB_refl {A} (le : A → A → bool) `{!TotalPreB le} x : le x x = true.
Proof. destruct (le x x) eqn:E; [done|]. by apply leB_total in E as E'; congruence. Qed.

(** Comparing by a key: [sort(key=f)]. *)
Definition le_key {A B} (le : B → B → bool) (f : A → B) (x y : A) : bool := le (f x) (f y).

#[export] Instance le_key_total {A B} (le : B → B → bool) (f : A → B) :
  TotalPreB le → TotalPreB (le_key le f).
Proof.
  intros HP; split; unfold le_key; intros *; [apply leB_total|apply leB_trans].
Qed.

#[export] Instance Zleb_total : TotalPreB Z.leb.
Proof. split; intros *; rewrite ?Z.leb_le, ?Z.leb_gt; lia. Qed.
#[export] Instance Zleb_antisym : AntisymB Z.leb.
Proof. intros x y. rewrite !Z.leb_le. lia. Qed.

#[export] Instance Zgeb_total : TotalPreB (λ a b, Z.leb b a).
Proof. split; intros *; rewrite ?Z.leb_le, ?Z.leb_gt; lia. Qed.
#[export] Instance Zgeb_antisym : AntisymB (λ a b, Z.leb b a).
Proof. intros x y. rewrite !Z.leb_le. lia. Qed.

(** Lexicographic comparison of pairs, as Python compares tuples. *)
Definition le_pair {A B} (leA : A → A → bool) (leB : B → B → bool) (p q : A * B) : bool :=
  leA p.1 q.1 && (negb (leA q.1 p.1) || leB p.2 q.2).

#[export] Instance le_pair_total {A B} (leA : A → A → bool) (leB : B → B → bool) :
  TotalPreB leA → TotalPreB leB → TotalPreB (le_pair leA leB).
Proof.
  intros HA HB; split; intros *; unfold le_pair.
  - destruct (leA x.1 y.1) eqn:E1, (leA y.1 x.1) eqn:E2; simpl; try done.
    + apply leB_total.
    + apply leB_total in E1. congruence.
  - intros [Hxy Hxy']%andb_true_iff [Hyz Hyz']%andb_true_iff.
    rewrite (leB_trans (le:=leA) _ _ _ Hxy Hyz); simpl.
    destruct (leA z.1 x.1) eqn:E; simpl; [|done].
    rewrite (leB_trans (le:=leA) _ _ _ Hyz E) in Hxy'.
    rewrite (leB_trans (le:=leA) _ _ _ E Hxy) in Hyz'. simpl in *.
    by eapply leB_trans.
Qed.

#[export] Instance le_pair_antisym {A B} (leA : A → A → bool) (leB : B → B → bool) :
  AntisymB leA → AntisymB leB → AntisymB (le_pair leA leB).
Proof.
  intros HA HB [x1 x2] [y1 y2]; unfold le_pair; simpl.
  intros [H1 H1']%andb_true_iff [H2 H2']%andb_true_iff.
  rewrite H1, H2 in *. simpl in *. f_equal; [by apply HA|by apply HB].
Qed.

(** ** Stable sorting

    Python's [sorted] and [list.sort] are stable; the model is the stable
    insertion sort, so the two agree on lists with tied keys too. *)
Section sort.
Context {A : Type} (le : A → A → bool).

Fixpoint insert_sorted (x : A) (l : list A) : list A :=
  match l with
  | [] => [x]
  | y :: l' => if le x y then x :: l else y :: insert_sorted x l'
  end.

Definition sort_by (l : list A) : list A := foldr insert_sorted [] l.

Definition sortedB : list A → Prop := StronglySorted (λ x y, le x y = true).

Lemma insert_sorted_perm x l : insert_sorted x l ≡ₚ x :: l.
Proof.
  induction l as [|y l IH]; simpl; [done|].
  destruct (le x y); [done|]. rewrite IH. apply Permutation_swap.
Qed.

Lemma sort_by_perm l : sort_by l ≡ₚ l.
Proof. induction l as [|x l IH]; simpl; [done|]. by rewrite insert_sorted_perm, IH. Qed.

Lemma elem_of_sort_by x l : x ∈ sort_by l ↔ x ∈ l.
Proof. by rewrite sort_by_perm. Qed.

Lemma length_sort_by l : length (sort_by l) = length l.
Proof. apply Permutation_length, sort_by_perm. Qed.

Context `{!TotalPreB le}.

Lemma insert_sorted_sorted x l : sortedB l → sortedB (insert_sorted x l).
Proof.
  unfold sortedB. induction 1 as [|y l Hl IH Hy]; simpl; [by repeat constructor|].
  destruct (le x y) eqn:E.
  - constructor; [by constructor|]. constructor; [done|].
    eapply Forall_impl; [exact Hy|]. intros z Hz. by eapply leB_trans.
  - constructor; [done|]. apply leB_total in E.
    rewrite Forall_forall in Hy |- *. intros z Hz.
    rewrite insert_sorted_perm in Hz. apply elem_of_cons in Hz as [->|]; auto.
Qed.

Lemma sort_by_sorted l : sortedB (sort_by l).
Proof. induction l; simpl; [constructor|by apply insert_sorted_sorted]. Qed.

Lemma insert_sorted_filter (P : A → bool) x l :
  sortedB l →
  base.filter P (insert_sorted x l) =
  if P x then insert_sorted x (base.filter P l) else base.filter P l.
Proof.
  induction 1 as [|y l Hl IH Hy]; simpl.
  - rewrite filter_cons, filter_nil. destruct (P x) eqn:Hx; by case_decide; try done; simplify_eq/=; rewrite ?Hx in *.
  - destruct (le x y) eqn:E.
    + rewrite filter_cons. destruct (P x) eqn:Hx.
      * rewrite decide_True by done.
        assert (Hall : Forall (λ z, le x z = true) (base.filter P (y :: l))).
        { apply Forall_forall. intros z Hz%list_elem_of_filter.
          destruct Hz as [_ [->|Hz]%elem_of_cons]; [done|].
          rewrite Forall_forall in Hy. eapply leB_trans; [done|by apply Hy]. }
        destruct (base.filter P (y :: l)) as [|z l']; simpl; [done|].
        by rewrite (Forall_inv Hall).
      * by destruct (decide _) as [[]|].
    + rewrite !filter_cons. destruct (P y) eqn:Hy'; simpl.
      * rewrite IH. destruct (P x) eqn:Hx; simpl; [|done].
        by rewrite E.
      * apply IH.
Qed.

Lemma sortedB_filter (P : A → Prop) `{∀ x, Decision (P x)} l : sortedB l → sortedB (base.filter P l).
Proof.
  induction 1 as [|x l Hs IH Hall]; [constructor|]. rewrite filter_cons. case_decide; [|done].
  constructor; [done|]. rewrite Forall_forall in Hall |- *. intros y [_ Hy]%list_elem_of_filter. auto.
Qed.

(** Stability: sorting commutes with every filter. *)
Lemma sort_by_filter (P : A → bool) l :
  base.filter P (sort_by l) = sort_by (base.filter P l).
Proof.
  induction l as [|x l IH]; simpl; [done|].
  rewrite insert_sorted_filter by apply sort_by_sorted.
  rewrite filter_cons, IH. destruct (P x); by rewrite ?decide_True, ?decide_False by done.
Qed.

Lemma sorted_perm_eq `{!AntisymB le} l1 l2 :
  sortedB l1 → sortedB l2 → l1 ≡ₚ l2 → l1 = l2.
Proof.
  intros H1 H2.
  apply (StronglySorted_unique_strong (λ x y, le x y = true)); [|done..].
  intros x y _ _. apply leB_antisym.
Qed.

(** Under a total order the result does not depend on the input's order. *)
Lemma sort_by_perm_eq `{!AntisymB le} l1 l2 : l1 ≡ₚ l2 → sort_by l1 = sort_by l2.
Proof.
  intros HP. apply sorted_perm_eq; try apply sort_by_sorted.
  by rewrite !sort_by_perm.
Qed.

Lemma sort_by_id l : sortedB l → sort_by l = l.
Proof.
  unfold sortedB. induction 1 as [|x l Hl IH Hx]; simpl; [done|]. rewrite IH.
  destruct l as [|y l]; simpl; [done|]. by rewrite (Forall_inv Hx).
Qed.
End sort.

(** ** Strings

    A Python [str] that the code only compares, sorts, joins or stores is a
    Rocq [string] holding its UTF-8 bytes: byte-wise comparison of UTF-8 is
    code-point comparison, which is how Python orders strings. *)
Definition str_le : string → string → bool := String.leb.

Lemma string_compare_lt_trans s1 s2 s3 :
  String.compare s1 s2 = Lt → String.compare s2 s3 = Lt → String.compare s1 s3 = Lt.
Proof.
  revert s2 s3. induction s1 as [|a s1 IH]; intros [|b s2] [|c s3]; simpl; try done.
  unfold Ascii.compare.
  destruct (N.compare_spec (Ascii.N_of_ascii a) (Ascii.N_of_ascii b)) as [E1|E1|E1]; try done;
  destruct (N.compare_spec (Ascii.N_of_ascii b) (Ascii.N_of_ascii c)) as [E2|E2|E2]; try done;
  destruct (N.compare_spec (Ascii.N_of_ascii a) (Ascii.N_of_ascii c)) as [E3|E3|E3]; try done;
  try lia. apply IH.
Qed.

#[export] Instance str_le_total : TotalPreB str_le.
Proof.
  split; unfold str_le.
  - intros x y H. destruct (String.leb_total x y); congruence.
  - intros x y z. unfold String.leb.
    destruct (String.compare x y) eqn:E1; [|..|done]; intros _;
    destruct (String.compare y z) eqn:E2; [..|done| | |done]; intros _;
    repeat match goal with H : String.compare _ _ = Eq |- _ =>
      apply String.compare_eq_iff in H; subst end;
    try by rewrite ?E1, ?E2.
    + by rewrite (proj2 (String.compare_eq_iff z z)) || (destruct (String.compare z z) eqn:E; try done;
        pose proof (String.compare_antisym z z); rewrite E in *; done).
    + by rewrite (string_compare_lt_trans x y z).
Qed.

#[export] Instance str_le_antisym : AntisymB str_le.
Proof. intros x y. apply String.leb_antisym. Qed.

(** [sorted(s)] of a set of strings. *)
Definition sorted_set (s : gset string) : list string := sort_by str_le (elements s).

Lemma elem_of_sorted_set x s : x ∈ sorted_set s ↔ x ∈ s.
Proof. unfold sorted_set. by rewrite elem_of_sort_by, elem_of_elements. Qed.

Lemma sorted_set_nil s : sorted_set s = [] ↔ s = ∅.
Proof.
  split.
  - intros H. apply set_eq. intros x. rewrite <-elem_of_sorted_set, H. set_solver.
  - intros ->. reflexivity.
Qed.

(** [sep.join(l)]. *)
Fixpoint join (sep : string) (l : list string) : string :=
  match l with
  | [] => ""
  | [x] => x
  | x :: l' => x +:+ sep +:+ join sep l'
  end.

(** ** Reading strings back *)

Lemma app_assoc_s (a b c : string) : (a +:+ b) +:+ c = a +:+ (b +:+ c).
Proof. induction a as [|x a IH]; [done|]. exact (f_equal (String x) IH). Qed.

Lemma app_nil_s (a : string) : a +:+ "" = a.
Proof. induction a as [|x a IH]; [done|]. exact (f_equal (String x) IH). Qed.

(** Two texts without the delimiters [c] and [d] that run up to one of them. *)
Lemma delimited (good : Ascii.ascii → bool) (a b x y : string) c d :
  forallb good (String.list_ascii_of_string a) = true →
  forallb good (String.list_ascii_of_string b) = true →
  good c = false → good d = false →
  a +:+ String c x = b +:+ String d y → a = b ∧ c = d ∧ x = y.
Proof.
  intros Ha Hb Hc Hd. revert b Hb. induction a as [|h a IH]; intros [|h' b] Hb E; cbn in *.
  - by injection E.
  - injection E as -> ->. apply andb_true_iff in Hb as [? _]. congruence.
  - injection E as -> _. apply andb_true_iff in Ha as [? _]. congruence.
  - apply andb_true_iff in Ha as [_ Ha]. apply andb_true_iff in Hb as [_ Hb]. injection E as -> E.
    by destruct (IH Ha b Hb E) as (-> & -> & ->).
Qed.

Lemma list_ascii_app a b :
  String.list_ascii_of_string (a +:+ b) = String.list_ascii_of_string a ++ String.list_ascii_of_string b.
Proof. induction a as [|x a IH]; [done|]. exact (f_equal (cons x) IH). Qed.

Lemma app_inj_length (a b x y : string) :
  String.length a = String.length b → a +:+ x = b +:+ y → a = b ∧ x = y.
Proof.
  revert b. induction a as [|c a IH]; intros [|d b] Hl E; try discriminate Hl; [done|].
  injection E as -> E. injection Hl as Hl. by destruct (IH b Hl E) as [-> ->].
Qed.

(** Sorting by a key commutes with a map that keeps the keys. *)
Lemma sort_by_key_map {A B K} (le : K → K → bool) (ka : A → K) (kb : B → K) (f : A → B) l :
  (∀ x, kb (f x) = ka x) → sort_by (le_key le kb) (map f l) = map f (sort_by (le_key le ka) l).
Proof.
  intros Hk. induction l as [|x l IH]; [done|]. cbn [map sort_by foldr].
  change (foldr (insert_sorted (le_key le kb)) [] (map f l)) with (sort_by (le_key le kb) (map f l)).
  rewrite IH. change (foldr (insert_sorted (le_key le ka)) [] l) with (sort_by (le_key le ka) l).
  generalize (sort_by (le_key le ka) l). intros l'. induction l' as [|y l' IH']; [done|].
  cbn [map insert_sorted]. unfold le_key at 1 3. rewrite !Hk. destruct (le (ka x) (ka y)); [done|].
  cbn [map]. by rewrite IH'.
Qed.

Lemma map_bind {A B C} (g : B → C) (f : A → list B) l : map g (x ← l; f x) = x ← l; map g (f x).
Proof. induction l as [|x l IH]; [done|]. cbn [mbind list_bind]. by rewrite map_app, IH. Qed.

(** ** Counting by a key *)

Section counting.
Context {A K : Type} `{EqDecision K} (key : A → K).

Lemma count_one (x : K) ks : NoDup ks → x ∈ ks → sum_list (map (λ k, if decide (x = k) then 1 else 0)%nat ks) = 1%nat.
Proof.
  assert (∀ ks, (x ∉ ks) → sum_list (map (λ k, if decide (x = k) then 1 else 0)%nat ks) = 0%nat) as H0.
  { clear. induction ks as [|s ks IH]; [done|]. intros [Hne Hn]%not_elem_of_cons. cbn. rewrite decide_False by done. by apply IH. }
  induction 1 as [|s ks Hs Hnd IH]; [by intros ?%elem_of_nil|]. cbn. intros [->|Hin]%elem_of_cons.
  - rewrite decide_True by done. by rewrite H0.
  - rewrite decide_False by (intros ->; done). by apply IH.
Qed.

(** The sizes of the classes of a list add up to its length. *)
Lemma counts_add_up (l : list A) ks :
  NoDup ks → (∀ a, a ∈ l → key a ∈ ks) →
  sum_list (map (λ k, length (base.filter (λ a, key a = k) l)) ks) = length l.
Proof.
  intros Hnd. induction l as [|a l IH]; intros Hall; [clear; cbn; induction ks as [|k ks IHk]; [done|exact IHk]|].
  assert (∀ ks', sum_list (map (λ k, length (base.filter (λ a, key a = k) (a :: l))) ks') =
    sum_list (map (λ k, if decide (key a = k) then 1 else 0) ks') +
    sum_list (map (λ k, length (base.filter (λ a, key a = k) l)) ks'))%nat as ->.
  { clear. induction ks' as [|k ks' IH]; [done|]. cbn [map sum_list fmap list_fmap]. rewrite IH, filter_cons.
    destruct (decide (key a = k)); cbn [length]; unfold id; lia. }
  rewrite count_one, IH; [done|set_solver|done|]. apply Hall. by left.
Qed.
End counting.

Lemma in_take {A} n (l : list A) x : x ∈ take n l → x ∈ l.
Proof. intros Hx. rewrite <-(take_drop n l). apply elem_of_app. by left. Qed.

(** A key without duplicates determines its element. *)
Lemma key_inj {A B} (f : A → B) l x y : NoDup (map f l) → x ∈ l → y ∈ l → f x = f y → x = y.
Proof.
  intros Hnd [i Hi]%list_elem_of_lookup_1 [j Hj]%list_elem_of_lookup_1 E. assert (i = j) as ->; [|congruence].
  eapply NoDup_lookup; [exact Hnd|..]; change (map f l) with (f <$> l); rewrite list_lookup_fmap; [by rewrite Hi|by rewrite Hj, E].
Qed.
