(* ===== verification/Float64.v ===== *)
(** * Python floats

    [pyfloat] is the value set of a Python [float] as far as comparisons see
    it: finite values (exact rationals: every finite double is one), the two
    infinities and NaN, with IEEE comparisons.  [rnd64] is IEEE 754 rounding to
    the nearest binary64 value, ties to even, gradual underflow included, and
    [fadd], [fsub], [fmul], [fdiv] are the arithmetic operations on finite
    doubles, each the rounded exact result.  Overflow to infinity is not part of
    [rnd64]: the only arithmetic in the modelled code is the score, whose
    operands are bounded by 350 times the number of findings.

    The lemmas are what the score's theorems use: rounding is monotone and
    leaves representable values alone, and [round_half_even], Python's [round],
    is monotone. *)

From S2P Require Import Prelude.
From Stdlib Require Import QArith Qround Qpower Lqa ZArith Lia.
Local Open Scope Q_scope.

(** ** Comparison *)

Inductive pyfloat : Type :=
| Fin (q : Q)
| Inf (negative : bool)
| NaN.

(** [a <= b] on floats; every comparison with NaN is false. *)
Definition fle (a b : pyfloat) : bool :=
  match a, b with
  | Fin x, Fin y => Qle_bool x y
  | Inf true, (Fin _ | Inf _) => true
  | Fin _, Inf n => negb n
  | Inf false, Inf n => negb n
  | _, _ => false
  end.

Definition qle : Q → Q → bool := Qle_bool.
Definition qlt (x y : Q) : bool := negb (Qle_bool y x).

Lemma qle_iff x y : qle x y = true ↔ x <= y.
Proof. apply Qle_bool_iff. Qed.

Lemma qle_false x y : qle x y = false ↔ y < x.
Proof.
  rewrite <-not_true_iff_false, qle_iff. split; [apply Qnot_le_lt|apply Qlt_not_le].
Qed.

Lemma qlt_iff x y : qlt x y = true ↔ x < y.
Proof. unfold qlt. rewrite negb_true_iff. apply qle_false. Qed.

Lemma qlt_false x y : qlt x y = false ↔ y <= x.
Proof. unfold qlt. rewrite negb_false_iff. apply qle_iff. Qed.

#[export] Instance qle_total : TotalPreB qle.
Proof.
  split.
  - intros x y. rewrite qle_false, qle_iff. lra.
  - intros x y z. rewrite !qle_iff. lra.
Qed.

#[export] Instance qle_proper : Proper (Qeq ==> Qeq ==> eq) qle.
Proof. intros x x' Hx y y' Hy. apply eq_true_iff_eq. by rewrite !qle_iff, Hx, Hy. Qed.

(** ** Rounding *)

(** Python's [round(x)] with no digits: nearest integer, ties to even. *)
Definition round_half_even (q : Q) : Z :=
  let f := Qfloor q in
  let r := q - inject_Z f in
  if qlt r (1#2) then f
  else if qlt (1#2) r then (f + 1)%Z
  else if Z.even f then f else (f + 1)%Z.

(** The binade of a positive rational: [2^k <= q < 2^(k+1)]. *)
Definition qlog2 (q : Q) : Z :=
  let a := (Z.log2 (Qnum q) - Z.log2 (Zpos (Qden q)))%Z in
  if qle ((2#1) ^ a) q then a else (a - 1)%Z.

(** Exponent of the last binary64 digit at the magnitude of [q]. *)
Definition ulp_exp (q : Q) : Z := Z.max (qlog2 q - 52) (-1074).

Definition rnd_pos (q : Q) : Q :=
  let e := ulp_exp q in
  inject_Z (round_half_even (q / (2#1) ^ e)) * (2#1) ^ e.

Definition rnd64 (q : Q) : Q :=
  if qlt 0 q then Qred (rnd_pos q)
  else if qlt q 0 then Qred (- rnd_pos (- q))
  else 0.

Definition fadd (x y : Q) : Q := rnd64 (x + y).
Definition fsub (x y : Q) : Q := rnd64 (x - y).
Definition fmul (x y : Q) : Q := rnd64 (x * y).
Definition fdiv (x y : Q) : Q := rnd64 (x / y).

Example rnd64_tenth : Qeq_bool (rnd64 (1#10)) (3602879701896397 # 36028797018963968) = true.
Proof. reflexivity. Qed.

(** 0.1 + 0.2 is the famous double above 0.3. *)
Example fadd_tenths : qlt (rnd64 (3#10)) (fadd (rnd64 (1#10)) (rnd64 (2#10))) = true.
Proof. reflexivity. Qed.

(** ** Lemmas on rounding to an integer *)

Lemma round_half_even_spec q :
  q - (1#2) <= inject_Z (round_half_even q) <= q + (1#2).
Proof.
  unfold round_half_even. pose proof (Qfloor_le q) as Hf. pose proof (Qlt_floor q) as Hc.
  rewrite inject_Z_plus in Hc.
  destruct (qlt _ (1#2)) eqn:E1; [apply qlt_iff in E1; lra|apply qlt_false in E1].
  destruct (qlt (1#2) _) eqn:E2;
    [apply qlt_iff in E2; rewrite inject_Z_plus; change (inject_Z 1) with 1 in *; lra|].
  apply qlt_false in E2. change (inject_Z 1) with 1 in *.
  destruct (Z.even _); rewrite ?inject_Z_plus; change (inject_Z 1) with 1; lra.
Qed.

(** On equal floors the fraction decides; on different floors an integer
    separates the two results. *)
Lemma round_half_even_mono x y : x <= y → (round_half_even x <= round_half_even y)%Z.
Proof.
  intros Hxy. pose proof (Qfloor_resp_le x y Hxy) as Hf.
  assert (Hb : ∀ q, (Qfloor q <= round_half_even q <= Qfloor q + 1)%Z).
  { intros q. unfold round_half_even. repeat (case_match; try lia). }
  destruct (decide (Qfloor x = Qfloor y)) as [E|E]; [|pose proof (Hb x); pose proof (Hb y); lia].
  unfold round_half_even. rewrite <-E.
  destruct (qlt (x - _) (1#2)) eqn:E1.
  { repeat (case_match; try lia). }
  apply qlt_false in E1.
  destruct (qlt (y - _) (1#2)) eqn:E2; [apply qlt_iff in E2; lra|].
  destruct (qlt (1#2) (x - _)) eqn:E3.
  - apply qlt_iff in E3. destruct (qlt (1#2) (y - _)) eqn:E4; [lia|apply qlt_false in E4; lra].
  - repeat (case_match; try lia).
Qed.

Lemma round_half_even_Z z : round_half_even (inject_Z z) = z.
Proof.
  unfold round_half_even. rewrite Qfloor_Z.
  destruct (qlt _ _) eqn:E; [done|]. apply qlt_false in E. lra.
Qed.

#[export] Instance round_half_even_proper : Proper (Qeq ==> eq) round_half_even.
Proof. intros x y Hxy. apply Z.le_antisymm; apply round_half_even_mono; lra. Qed.

(** ** Lemmas on binades *)

Lemma two_pow_pos e : 0 < (2#1) ^ e.
Proof. apply Qpower_0_lt. lra. Qed.

Lemma two_pow_le a b : (a <= b)%Z → (2#1) ^ a <= (2#1) ^ b.
Proof. intros. apply Qpower_le_compat_l; [done|lra]. Qed.

Lemma two_pow_lt_inv a b : (2#1) ^ a < (2#1) ^ b → (a < b)%Z.
Proof.
  intros H. destruct (Z_lt_le_dec a b) as [|Hb]; [done|].
  apply two_pow_le in Hb. lra.
Qed.

Lemma two_pow_plus a b : (2#1) ^ (a + b) == (2#1) ^ a * (2#1) ^ b.
Proof. apply Qpower_plus. lra. Qed.

Lemma two_pow_Z n : (0 <= n)%Z → inject_Z (2 ^ n) == (2#1) ^ n.
Proof. intros. by rewrite Zpower_Qpower. Qed.

Lemma log2_bounds p : (2#1) ^ (Z.log2 (Zpos p)) <= inject_Z (Zpos p) < (2#1) ^ (Z.log2 (Zpos p) + 1).
Proof.
  pose proof (Z.log2_spec (Zpos p) eq_refl) as [H1 H2].
  pose proof (Z.log2_nonneg (Zpos p)).
  rewrite <-!two_pow_Z by lia. rewrite <-Zle_Qle, <-Zlt_Qlt.
  by rewrite Z.add_1_r.
Qed.

Lemma qlog2_spec q : 0 < q → (2#1) ^ (qlog2 q) <= q < (2#1) ^ (qlog2 q + 1).
Proof.
  destruct q as [[|n|n] d]; intros Hq; try (unfold Qlt in Hq; simpl in Hq; lia).
  set (a := (Z.log2 (Zpos n) - Z.log2 (Zpos d))%Z).
  pose proof (log2_bounds n) as [Hn1 Hn2]. pose proof (log2_bounds d) as [Hd1 Hd2].
  assert (Hq' : Zpos n # d == inject_Z (Zpos n) / inject_Z (Zpos d)) by apply Qmake_Qdiv.
  assert (Hd : 0 < inject_Z (Zpos d)) by done.
  assert (Hlo : (2#1) ^ (a - 1) <= Zpos n # d).
  { rewrite Hq'. apply Qle_shift_div_l; [done|].
    eapply Qle_trans; [|exact Hn1].
    replace (Z.log2 (Z.pos n)) with ((a - 1) + (Z.log2 (Zpos d) + 1))%Z by lia.
    rewrite two_pow_plus. apply Qmult_le_l; [apply two_pow_pos|lra]. }
  assert (Hhi : Zpos n # d < (2#1) ^ (a + 1)).
  { rewrite Hq'. apply Qlt_shift_div_r; [done|].
    eapply Qlt_le_trans; [exact Hn2|].
    replace (Z.log2 (Z.pos n) + 1)%Z with ((a + 1) + Z.log2 (Zpos d))%Z by lia.
    rewrite two_pow_plus. apply Qmult_le_l; [apply two_pow_pos|lra]. }
  unfold qlog2. cbn [Qnum Qden]. fold a.
  destruct (qle _ _) eqn:E.
  - apply qle_iff in E. done.
  - apply qle_false in E. replace (a - 1 + 1)%Z with a by lia. done.
Qed.

Lemma qlog2_mono x y : 0 < x → x <= y → (qlog2 x <= qlog2 y)%Z.
Proof.
  intros Hx Hxy. pose proof (qlog2_spec x Hx) as [H1 _].
  pose proof (qlog2_spec y ltac:(lra)) as [_ H2].
  apply Z.lt_succ_r. apply two_pow_lt_inv. unfold Z.succ. lra.
Qed.

(** ** [rnd64] is monotone *)

Lemma scale_le x y e : x <= y → x / (2#1) ^ e <= y / (2#1) ^ e.
Proof.
  intros. unfold Qdiv. apply Qmult_le_compat_r; [done|].
  apply Qlt_le_weak, Qinv_lt_0_compat, two_pow_pos.
Qed.

Lemma unscale_le m n e : (m <= n)%Z → inject_Z m * (2#1) ^ e <= inject_Z n * (2#1) ^ e.
Proof.
  intros. apply Qmult_le_compat_r; [by rewrite <-Zle_Qle|].
  apply Qlt_le_weak, two_pow_pos.
Qed.

Lemma rnd_pos_below q : 0 < q → rnd_pos q <= (2#1) ^ (ulp_exp q + 53).
Proof.
  intros Hq. unfold rnd_pos. set (e := ulp_exp q).
  pose proof (qlog2_spec q Hq) as [_ Hlt].
  assert (Hs : q / (2#1) ^ e <= inject_Z (2 ^ 53)).
  { apply Qle_shift_div_r; [apply two_pow_pos|].
    rewrite two_pow_Z by lia. rewrite <-two_pow_plus.
    eapply Qle_trans; [apply Qlt_le_weak, Hlt|].
    apply two_pow_le. unfold e, ulp_exp. lia. }
  apply round_half_even_mono in Hs. rewrite round_half_even_Z in Hs.
  rewrite Z.add_comm, two_pow_plus, <-(two_pow_Z 53) by lia. by apply unscale_le.
Qed.

Lemma rnd_pos_above q : 0 < q → (-1074 < ulp_exp q)%Z →
  (2#1) ^ (ulp_exp q + 52) <= rnd_pos q.
Proof.
  intros Hq He. unfold rnd_pos. set (e := ulp_exp q) in *.
  pose proof (qlog2_spec q Hq) as [Hge _].
  assert (Hs : inject_Z (2 ^ 52) <= q / (2#1) ^ e).
  { apply Qle_shift_div_l; [apply two_pow_pos|].
    rewrite two_pow_Z by lia. rewrite <-two_pow_plus.
    eapply Qle_trans; [|exact Hge]. apply two_pow_le. unfold e, ulp_exp in *. lia. }
  apply round_half_even_mono in Hs. rewrite round_half_even_Z in Hs.
  rewrite Z.add_comm, two_pow_plus, <-(two_pow_Z 52) by lia. by apply unscale_le.
Qed.

Lemma rnd_pos_mono x y : 0 < x → x <= y → rnd_pos x <= rnd_pos y.
Proof.
  intros Hx Hxy. pose proof (qlog2_mono x y Hx Hxy) as Hl.
  assert (He : (ulp_exp x <= ulp_exp y)%Z) by (unfold ulp_exp; lia).
  destruct (decide (ulp_exp x = ulp_exp y)) as [E|E].
  - unfold rnd_pos. rewrite <-E. by apply unscale_le, round_half_even_mono, scale_le.
  - eapply Qle_trans; [by apply rnd_pos_below|].
    eapply Qle_trans; [|apply rnd_pos_above; [lra|unfold ulp_exp in *; lia]].
    apply two_pow_le. lia.
Qed.

Lemma rnd_pos_nonneg q : 0 < q → 0 <= rnd_pos q.
Proof.
  intros Hq. unfold rnd_pos. apply Qmult_le_0_compat; [|apply Qlt_le_weak, two_pow_pos].
  change 0 with (inject_Z 0). rewrite <-Zle_Qle, <-(round_half_even_Z 0).
  apply round_half_even_mono. change (inject_Z 0) with 0.
  apply Qle_shift_div_l; [apply two_pow_pos|]. lra.
Qed.

Lemma rnd64_mono x y : x <= y → rnd64 x <= rnd64 y.
Proof.
  intros Hxy. unfold rnd64.
  destruct (qlt 0 x) eqn:Ex; [apply qlt_iff in Ex|apply qlt_false in Ex].
  - rewrite (proj2 (qlt_iff 0 y)) by lra. setoid_rewrite Qred_correct. by apply rnd_pos_mono.
  - destruct (qlt 0 y) eqn:Ey; [apply qlt_iff in Ey|apply qlt_false in Ey].
    + pose proof (rnd_pos_nonneg y Ey).
      destruct (qlt x 0) eqn:Ex'; [apply qlt_iff in Ex'|by rewrite Qred_correct].
      pose proof (rnd_pos_nonneg (- x) ltac:(lra)). rewrite !Qred_correct. lra.
    + destruct (qlt x 0) eqn:Ex'; [apply qlt_iff in Ex'|apply qlt_false in Ex'].
      * pose proof (rnd_pos_nonneg (- x) ltac:(lra)).
        destruct (qlt y 0) eqn:Ey'; [apply qlt_iff in Ey'|apply qlt_false in Ey'].
        -- pose proof (rnd_pos_mono (-y) (-x) ltac:(lra) ltac:(lra)).
           rewrite !Qred_correct. lra.
        -- rewrite Qred_correct. lra.
      * by rewrite (proj2 (qlt_false y 0)) by lra.
Qed.

#[export] Instance rnd64_proper : Proper (Qeq ==> Qeq) rnd64.
Proof. intros x y Hxy. apply Qle_antisym; apply rnd64_mono; lra. Qed.

Lemma Qred_rnd64 x : Qred (rnd64 x) = rnd64 x.
Proof.
  unfold rnd64. destruct (qlt 0 x); [apply Qred_complete, Qred_correct|].
  destruct (qlt x 0); [apply Qred_complete, Qred_correct|reflexivity].
Qed.

(** Rounding returns reduced fractions, so equal numbers round to the same one. *)
Lemma rnd64_eq x y : x == y → rnd64 x = rnd64 y.
Proof.
  intros Hxy. rewrite <-(Qred_rnd64 x), <-(Qred_rnd64 y).
  apply Qred_complete. by apply rnd64_proper.
Qed.

(** Small integers are representable, so rounding keeps them. *)
Lemma rnd_pos_int z : (0 < z <= 2 ^ 53)%Z → rnd_pos (inject_Z z) == inject_Z z.
Proof.
  intros Hz. assert (Hq : 0 < inject_Z z) by (change 0 with (inject_Z 0); rewrite <-Zlt_Qlt; lia).
  pose proof (qlog2_spec _ Hq) as [Hlo Hhi].
  assert (He : (ulp_exp (inject_Z z) <= 1)%Z).
  { assert (Hk : (qlog2 (inject_Z z) < 54)%Z); [|unfold ulp_exp; lia].
    apply two_pow_lt_inv. eapply Qle_lt_trans; [exact Hlo|].
    rewrite <-two_pow_Z, <-Zlt_Qlt by lia. lia. }
  unfold rnd_pos. set (e := ulp_exp (inject_Z z)) in *.
  assert (Hint : ∃ n, inject_Z z == inject_Z n * (2#1) ^ e).
  { destruct (Z_le_gt_dec e 0) as [He0|He0].
    - exists (z * 2 ^ (- e))%Z. rewrite inject_Z_mult, two_pow_Z by lia.
      rewrite <-Qmult_assoc, <-two_pow_plus. rewrite Z.add_opp_diag_l. simpl. ring.
    - assert (E1 : e = 1%Z) by lia.
      assert (Hk : (53 <= qlog2 (inject_Z z))%Z) by (unfold e, ulp_exp in E1; lia).
      apply two_pow_le in Hk. rewrite <-(two_pow_Z 53) in Hk by lia.
      assert (z = 2 ^ 53)%Z as ->.
      { apply Z.le_antisymm; [lia|]. rewrite Zle_Qle. lra. }
      exists (2 ^ 52)%Z. by rewrite E1. }
  destruct Hint as [n Hn].
  assert (Hdiv : inject_Z z / (2#1) ^ e == inject_Z n).
  { rewrite Hn. field. pose proof (two_pow_pos e). lra. }
  by rewrite Hdiv, round_half_even_Z.
Qed.

Lemma rnd64_int z : (0 <= z <= 2 ^ 53)%Z → rnd64 (inject_Z z) == inject_Z z.
Proof.
  intros Hz. unfold rnd64. destruct (decide (z = 0%Z)) as [->|]; [done|].
  rewrite (proj2 (qlt_iff 0 _)).
  - rewrite Qred_correct. apply rnd_pos_int. lia.
  - change 0 with (inject_Z 0). rewrite <-Zlt_Qlt. lia.
Qed.

Lemma rnd64_nonneg q : 0 <= q → 0 <= rnd64 q.
Proof. intros H. rewrite <-(rnd64_int 0) by lia. by apply rnd64_mono. Qed.

Create HintDb float64.
#[export] Hint Resolve rnd64_mono rnd64_nonneg two_pow_pos : float64.
