(* ===== verification/Models.v ===== *)
(** * The kernel's domain models (src/libs/skillscan_core/models.py)

    The enumerations, the frozen dataclasses as records, and their
    [__post_init__] checks as constructor functions that return [Err] where the
    Python constructor raises.  A record value is an object that was
    constructed; the [*_ok] invariants say what its constructor guarantees. *)

From S2P Require Import Prelude Float64.
From Stdlib Require Import QArith Lqa ZArith Lia.
Local Open Scope Z_scope.

(** ** Enumerations *)

Inductive Severity := NONE | LOW | MEDIUM | HIGH | CRITICAL.
Inductive Verdict := PASS | REVIEW | BLOCK.
Inductive TrustTier := INTERNAL | PARTNER | PUBLIC.
Inductive DetectionCategory :=
| INSTRUCTION | CODE | DATA_CREDENTIAL | NETWORK_INTEL
| PERMISSION | FILE_PACKAGE | SUPPLY_CHAIN | BUNDLED_COMPONENT.
Inductive EngineCapability :=
| STATIC | SEMANTIC_LLM | THREAT_INTEL | DYNAMIC_SANDBOX | SCA | FILE_COMPLIANCE.
Inductive EngineStatus := OK | PARTIAL | ERROR | TIMEOUT.
Inductive ScanMode := MODE_STATIC | MODE_DYNAMIC.
Inductive TrifectaSignal := PRIVATE_DATA_ACCESS | UNTRUSTED_INPUT | EXTERNAL_EGRESS.

#[export] Instance Severity_eq_dec : EqDecision Severity.
Proof. solve_decision. Defined.
#[export] Instance Verdict_eq_dec : EqDecision Verdict.
Proof. solve_decision. Defined.
#[export] Instance TrustTier_eq_dec : EqDecision TrustTier.
Proof. solve_decision. Defined.
#[export] Instance DetectionCategory_eq_dec : EqDecision DetectionCategory.
Proof. solve_decision. Defined.
#[export] Instance EngineCapability_eq_dec : EqDecision EngineCapability.
Proof. solve_decision. Defined.
#[export] Instance EngineStatus_eq_dec : EqDecision EngineStatus.
Proof. solve_decision. Defined.
#[export] Instance TrifectaSignal_eq_dec : EqDecision TrifectaSignal.
Proof. solve_decision. Defined.

#[export] Instance TrifectaSignal_countable : Countable TrifectaSignal.
Proof.
  refine (inj_countable
    (λ s, match s with PRIVATE_DATA_ACCESS => 0 | UNTRUSTED_INPUT => 1 | EXTERNAL_EGRESS => 2 end%nat)
    (λ n, match n with 0 => Some PRIVATE_DATA_ACCESS | 1 => Some UNTRUSTED_INPUT
          | 2 => Some EXTERNAL_EGRESS | _ => None end%nat) _).
  by intros [].
Defined.

Definition Severity_all : list Severity := [NONE; LOW; MEDIUM; HIGH; CRITICAL].
Definition TrustTier_all : list TrustTier := [INTERNAL; PARTNER; PUBLIC].

(** [IntEnum] values, which comparisons and [max] use. *)
Definition sev_val (s : Severity) : Z :=
  match s with NONE => 0 | LOW => 1 | MEDIUM => 2 | HIGH => 3 | CRITICAL => 4 end.
Definition verdict_val (v : Verdict) : Z :=
  match v with PASS => 0 | REVIEW => 1 | BLOCK => 2 end.

Definition sev_name (s : Severity) : string :=
  match s with
  | NONE => "NONE" | LOW => "LOW" | MEDIUM => "MEDIUM" | HIGH => "HIGH" | CRITICAL => "CRITICAL"
  end.
Definition verdict_name (v : Verdict) : string :=
  match v with PASS => "PASS" | REVIEW => "REVIEW" | BLOCK => "BLOCK" end.

(** [StrEnum] values. *)
Definition tier_value (t : TrustTier) : string :=
  match t with INTERNAL => "internal" | PARTNER => "partner" | PUBLIC => "public" end.
Definition category_value (c : DetectionCategory) : string :=
  match c with
  | INSTRUCTION => "instruction" | CODE => "code" | DATA_CREDENTIAL => "data_credential"
  | NETWORK_INTEL => "network_intel" | PERMISSION => "permission"
  | FILE_PACKAGE => "file_package" | SUPPLY_CHAIN => "supply_chain"
  | BUNDLED_COMPONENT => "bundled_component"
  end.
Definition status_value (s : EngineStatus) : string :=
  match s with OK => "ok" | PARTIAL => "partial" | ERROR => "error" | TIMEOUT => "timeout" end.

(** [TrustTier(s)], [Severity[s]], [Verdict[s]]: by value and by name. *)
Definition tier_of_value (s : string) : option TrustTier :=
  list_find (λ t, tier_value t = s) TrustTier_all ≫= λ p, Some p.2.
Definition sev_of_name (s : string) : option Severity :=
  list_find (λ t, sev_name t = s) Severity_all ≫= λ p, Some p.2.
Definition verdict_of_name (s : string) : option Verdict :=
  list_find (λ t, verdict_name t = s) [PASS; REVIEW; BLOCK] ≫= λ p, Some p.2.

Definition sev_le (a b : Severity) : bool := sev_val a <=? sev_val b.
Definition sev_lt (a b : Severity) : bool := sev_val a <? sev_val b.
Definition verdict_le (a b : Verdict) : bool := verdict_val a <=? verdict_val b.

(** Python's [max(a, b)] and [min(a, b)]: the first argument wins ties. *)
Definition sev_max (a b : Severity) : Severity := if sev_lt a b then b else a.
Definition sev_min (a b : Severity) : Severity := if sev_lt b a then b else a.
Definition verdict_max (a b : Verdict) : Verdict := if verdict_le b a then a else b.

Definition ALL_TRIFECTA_SIGNALS : gset TrifectaSignal :=
  {[ PRIVATE_DATA_ACCESS; UNTRUSTED_INPUT; EXTERNAL_EGRESS ]}.

(** ** Finding *)

Record Finding := mkFinding {
  rule_id : string;
  test_item_id : string;
  category : DetectionCategory;
  title : string;
  severity : Severity;
  confidence : Q;
  source_engine : string;
  source_capability : EngineCapability;
  trifecta_signals : gset TrifectaSignal;
  file_path : option string;
  start_line : option Z;
  snippet_hash : option string;
  evidence_redacted : string;
}.

Inductive FindingError :=
| FE_rule_id_empty | FE_confidence_range | FE_severity_none | FE_snippet_not_hex.

Definition hex_chars : list Ascii.ascii := String.list_ascii_of_string "0123456789abcdef".

Definition is_hex_digest (s : string) : bool :=
  negb (String.eqb s "") &&
  forallb (λ c, bool_decide (c ∈ hex_chars)) (String.list_ascii_of_string s).

(** [Finding.__post_init__]: the checks in the order the code makes them.  The
    confidence arrives as any float and is stored only when it is in [0,1]. *)
Definition Finding_new (rule_id test_item_id : string) (category : DetectionCategory)
    (title : string) (severity : Severity) (confidence : pyfloat)
    (source_engine : string) (source_capability : EngineCapability)
    (trifecta_signals : gset TrifectaSignal) (file_path : option string)
    (start_line : option Z) (snippet_hash : option string)
    (evidence_redacted : string) : result FindingError Finding :=
  _ ← guard_err (negb (String.eqb rule_id "")) FE_rule_id_empty;
  _ ← guard_err (fle (Fin 0) confidence && fle confidence (Fin 1)) FE_confidence_range;
  _ ← guard_err (sev_le LOW severity) FE_severity_none;
  _ ← guard_err (match snippet_hash with None => true | Some h => is_hex_digest h end)
        FE_snippet_not_hex;
  match confidence with
  | Fin c => Ok (mkFinding rule_id test_item_id category title severity c source_engine
                   source_capability trifecta_signals file_path start_line snippet_hash
                   evidence_redacted)
  | _ => Err FE_confidence_range
  end.

Definition is_llm_sourced (f : Finding) : bool :=
  bool_decide (source_capability f = SEMANTIC_LLM).

Definition DedupKey : Type := string * option string * option Z * DetectionCategory.

Definition dedup_key (f : Finding) : DedupKey :=
  (rule_id f, file_path f, start_line f, category f).

(** What a constructed [Finding] guarantees. *)
Definition Finding_ok (f : Finding) : Prop :=
  rule_id f ≠ "" ∧ (0 <= confidence f)%Q ∧ (confidence f <= 1)%Q ∧ severity f ≠ NONE ∧
  (∀ h, snippet_hash f = Some h → is_hex_digest h = true).

(** ** Engines *)

Record EngineMetadata := mkEngineMetadata {
  em_name : string;
  em_version : string;
  em_ruleset_digest : string;
  em_capabilities : list EngineCapability;
  em_requires_network : bool;
  em_requires_llm : bool;
  em_deterministic : bool;
}.

Inductive EngineMetadataError := EM_name_empty | EM_version_empty | EM_requires_network.

Definition EngineMetadata_new (name version ruleset_digest : string)
    (caps : list EngineCapability) (requires_network requires_llm deterministic : bool)
    : result EngineMetadataError EngineMetadata :=
  _ ← guard_err (negb (String.eqb name "")) EM_name_empty;
  _ ← guard_err (negb (String.eqb version "")) EM_version_empty;
  _ ← guard_err (negb requires_network) EM_requires_network;
  Ok (mkEngineMetadata name version ruleset_digest caps requires_network requires_llm
        deterministic).

Record EngineResult := mkEngineResult {
  er_engine : EngineMetadata;
  er_findings : list Finding;
  er_status : EngineStatus;
  er_scan_mode : ScanMode;
  er_llm_used : bool;
  er_error : option string;
}.

(** [EngineResult.usable]: OK and PARTIAL only. *)
Definition usable (r : EngineResult) : bool :=
  match er_status r with OK | PARTIAL => true | ERROR | TIMEOUT => false end.

(** ** Scan result *)

Record ScanResult := mkScanResult {
  sr_content_hash : string;
  sr_severity : Severity;
  sr_confidence_at_max : Q;
  sr_trifecta_present : bool;
  sr_hard_gate_hits : list string;
  sr_findings : list Finding;
  sr_engine_provenance : list (string * string * string);
  sr_findings_capped : bool;
  sr_required_ok : bool;
  sr_missing_or_failed_required : list string;
  sr_findings_total : Z;
  sr_dedup_collision_rule_ids : gset string;
}.

(** ** Category weights *)

Record CategoryWeights := mkCategoryWeights {
  w_instruction : Q;
  w_code : Q;
  w_data_credential : Q;
  w_network_intel : Q;
  w_permission : Q;
  w_file_package : Q;
  w_supply_chain : Q;
  w_bundled_component : Q;
}.

Definition MAX_CATEGORY_WEIGHT : Q := 10.

(** A value passed for a weight: a number, or something [isinstance] refuses
    ([bool] included). *)
Inductive PyWeight := WNum (w : pyfloat) | WOther.

(** The body of the loop of [CategoryWeights.__post_init__] for one field. *)
Definition check_weight (raw : PyWeight) : option Q :=
  match raw with
  | WNum (Fin q) => if qle 0 q && qle q MAX_CATEGORY_WEIGHT then Some q else None
  | _ => None
  end.

(** The constructor, the field at which the first bad value is found being the
    error. *)
Definition CategoryWeights_new (i c d n p f s b : PyWeight) : result string CategoryWeights :=
  let field (name : string) (w : PyWeight) : result string Q :=
    match check_weight w with Some q => Ok q | None => Err name end in
  i ← field "instruction" i; c ← field "code" c; d ← field "data_credential" d;
  n ← field "network_intel" n; p ← field "permission" p; f ← field "file_package" f;
  s ← field "supply_chain" s; b ← field "bundled_component" b;
  Ok (mkCategoryWeights i c d n p f s b).

Definition CategoryWeights_default : CategoryWeights := mkCategoryWeights 1 1 1 1 1 1 1 1.

Definition for_category (w : CategoryWeights) (c : DetectionCategory) : Q :=
  match c with
  | INSTRUCTION => w_instruction w
  | CODE => w_code w
  | DATA_CREDENTIAL => w_data_credential w
  | NETWORK_INTEL => w_network_intel w
  | PERMISSION => w_permission w
  | FILE_PACKAGE => w_file_package w
  | SUPPLY_CHAIN => w_supply_chain w
  | BUNDLED_COMPONENT => w_bundled_component w
  end.

Definition CategoryWeights_ok (w : CategoryWeights) : Prop :=
  ∀ c, (0 <= for_category w c)%Q ∧ (for_category w c <= MAX_CATEGORY_WEIGHT)%Q.

(** ** Gate policy *)

Record GatePolicy := mkGatePolicy {
  version : string;
  required_engines : gset string;
  hard_gate_rules : gset string;
  review_confidence : Q;
  block_on_severity : Severity;
  review_on_severity : Severity;
  tier_block_overrides : list (TrustTier * Severity);
  allowlistable_max_severity : Severity;
  fail_closed_verdict : Verdict;
  category_weights : CategoryWeights;
}.

Inductive GatePolicyError :=
| GP_version_empty | GP_review_confidence | GP_threshold_none | GP_fail_closed_pass
| GP_override_loosens.

(** [GatePolicy.__post_init__]. *)
Definition GatePolicy_new (version : string) (required_engines hard_gate_rules : gset string)
    (review_confidence : pyfloat) (block_on_severity review_on_severity : Severity)
    (tier_block_overrides : list (TrustTier * Severity)) (allowlistable_max_severity : Severity)
    (fail_closed_verdict : Verdict) (category_weights : CategoryWeights)
    : result GatePolicyError GatePolicy :=
  _ ← guard_err (negb (String.eqb version "")) GP_version_empty;
  _ ← guard_err (fle (Fin 0) review_confidence && fle review_confidence (Fin 1))
        GP_review_confidence;
  _ ← guard_err (negb (sev_lt block_on_severity LOW || sev_lt review_on_severity LOW))
        GP_threshold_none;
  _ ← guard_err (negb (bool_decide (fail_closed_verdict = PASS))) GP_fail_closed_pass;
  _ ← guard_err (forallb (λ ts, sev_le ts.2 block_on_severity) tier_block_overrides)
        GP_override_loosens;
  match review_confidence with
  | Fin rc => Ok (mkGatePolicy version required_engines hard_gate_rules rc block_on_severity
                    review_on_severity tier_block_overrides allowlistable_max_severity
                    fail_closed_verdict category_weights)
  | _ => Err GP_review_confidence
  end.

Definition GatePolicy_ok (p : GatePolicy) : Prop :=
  version p ≠ "" ∧ (0 <= review_confidence p)%Q ∧ (review_confidence p <= 1)%Q ∧
  block_on_severity p ≠ NONE ∧ review_on_severity p ≠ NONE ∧ fail_closed_verdict p ≠ PASS ∧
  (∀ t s, (t, s) ∈ tier_block_overrides p → sev_le s (block_on_severity p) = true).

(** [GatePolicy.block_threshold]. *)
Definition block_threshold (p : GatePolicy) (tier : TrustTier) : Severity :=
  match base.filter (λ ts : TrustTier * Severity, ts.1 = tier) (tier_block_overrides p) with
  | [] => block_on_severity p
  | ts :: rest => foldl sev_min ts.2 rest.*2
  end.

(** ** Allowlist *)

Record AllowlistEntry := mkAllowlistEntry {
  ae_scope_type : string;
  ae_scope_value : string;
  ae_rule_id : string;
  ae_expires_at : pyfloat;
  ae_approved_by : string;
  ae_requested_by : string;
  ae_reason : string;
}.

Definition VALID_ALLOWLIST_SCOPE_TYPES : list string :=
  ["content_hash"; "skill_id"; "rule_global"].

Inductive AllowlistEntryError :=
| AE_missing_party | AE_same_party | AE_expiry | AE_scope_type | AE_scope_value | AE_rule_id.

(** [AllowlistEntry.__post_init__]; [expires_at <= 0] is false of NaN. *)
Definition AllowlistEntry_new (scope_type scope_value rule_id : string) (expires_at : pyfloat)
    (approved_by requested_by reason : string) : result AllowlistEntryError AllowlistEntry :=
  _ ← guard_err (negb (String.eqb approved_by "" || String.eqb requested_by ""))
        AE_missing_party;
  _ ← guard_err (negb (String.eqb approved_by requested_by)) AE_same_party;
  _ ← guard_err (negb (fle expires_at (Fin 0))) AE_expiry;
  _ ← guard_err (bool_decide (scope_type ∈ VALID_ALLOWLIST_SCOPE_TYPES)) AE_scope_type;
  _ ← guard_err (String.eqb scope_type "rule_global" || negb (String.eqb scope_value ""))
        AE_scope_value;
  _ ← guard_err (negb (String.eqb rule_id "")) AE_rule_id;
  Ok (mkAllowlistEntry scope_type scope_value rule_id expires_at approved_by requested_by reason).

(** [AllowlistEntry.is_active]. *)
Definition is_active (e : AllowlistEntry) (now : Q) (content_hash : string)
    (skill_id : option string) : bool :=
  if fle (ae_expires_at e) (Fin now) then false
  else if String.eqb (ae_scope_type e) "content_hash" then
    String.eqb (ae_scope_value e) content_hash
  else if String.eqb (ae_scope_type e) "skill_id" then
    match skill_id with None => false | Some s => String.eqb (ae_scope_value e) s end
  else String.eqb (ae_scope_type e) "rule_global".

Definition waives (e : AllowlistEntry) (f : Finding) : bool :=
  String.eqb (ae_rule_id e) (rule_id f).

(** ** Verdict result *)

Record VerdictResult := mkVerdictResult {
  vr_verdict : Verdict;
  vr_reasons : list string;
  vr_policy_version : string;
  vr_effective_severity : Severity;
  vr_trifecta_present : bool;
  vr_hard_gate_hits : list string;
  vr_fail_closed : bool;
  vr_score : Z;
}.

(** ** Lemmas *)

Lemma sev_le_total a b : sev_le a b = false → sev_le b a = true.
Proof. by destruct a, b. Qed.
Lemma sev_le_trans a b c : sev_le a b = true → sev_le b c = true → sev_le a c = true.
Proof. by destruct a, b, c. Qed.
Lemma sev_le_antisym a b : sev_le a b = true → sev_le b a = true → a = b.
Proof. by destruct a, b. Qed.

#[export] Instance sev_le_totalpre : TotalPreB sev_le.
Proof. split; [apply sev_le_total|apply sev_le_trans]. Qed.
#[export] Instance sev_le_antisymb : AntisymB sev_le.
Proof. intros a b. apply sev_le_antisym. Qed.

Lemma sev_lt_le a b : sev_lt a b = negb (sev_le b a).
Proof. by destruct a, b. Qed.

Lemma verdict_le_trans a b c :
  verdict_le a b = true → verdict_le b c = true → verdict_le a c = true.
Proof. by destruct a, b, c. Qed.
Lemma verdict_max_ub_l a b : verdict_le a (verdict_max a b) = true.
Proof. by destruct a, b. Qed.
Lemma verdict_max_ub_r a b : verdict_le b (verdict_max a b) = true.
Proof. by destruct a, b. Qed.
Lemma verdict_max_lub a b c :
  verdict_le a c = true → verdict_le b c = true → verdict_le (verdict_max a b) c = true.
Proof. by destruct a, b, c. Qed.

Lemma foldl_sev_min_le l s : sev_le (foldl sev_min s l) s = true.
Proof.
  revert s. induction l as [|x l IH]; intros s; simpl; [by destruct s|].
  eapply sev_le_trans; [apply IH|]. by destruct s, x.
Qed.

(** Overrides only tighten: no tier blocks later than the base threshold. *)
Lemma block_threshold_le p t :
  GatePolicy_ok p → sev_le (block_threshold p t) (block_on_severity p) = true.
Proof.
  intros (_ & _ & _ & _ & _ & _ & Hov). unfold block_threshold.
  destruct (base.filter _ _) as [|[t' s] l] eqn:E; [apply leB_refl; apply _|].
  eapply sev_le_trans; [apply foldl_sev_min_le|]. simpl. apply (Hov t').
  assert (H : (t', s) ∈ base.filter (λ ts : TrustTier * Severity, ts.1 = t) (tier_block_overrides p))
    by (rewrite E; left).
  by apply list_elem_of_filter in H as [_ H].
Qed.

Lemma block_threshold_critical p t : sev_le (block_threshold p t) CRITICAL = true.
Proof. by destruct (block_threshold p t). Qed.

Create HintDb kernel.
#[export] Hint Resolve sev_le_trans verdict_le_trans verdict_max_ub_l verdict_max_ub_r
  block_threshold_critical : kernel.

(** ** What the constructors guarantee *)

Lemma Finding_new_ok r ti c tt s cf e cap sg fp sl sh ev f :
  Finding_new r ti c tt s cf e cap sg fp sl sh ev = Ok f → Finding_ok f.
Proof.
  unfold Finding_new. intros H. ok_inv. destruct cf; ok_inv. bool_prop. str_prop.
  unfold Finding_ok; split_and!; simpl; [done|by apply Qle_bool_iff..|by intros ->|].
  by intros h ->.
Qed.

Lemma GatePolicy_new_ok v re hg rc b r ov am fc w p :
  GatePolicy_new v re hg rc b r ov am fc w = Ok p → GatePolicy_ok p.
Proof.
  unfold GatePolicy_new. intros H. ok_inv. destruct rc; ok_inv. bool_prop. str_prop.
  unfold GatePolicy_ok; split_and!; simpl;
    [done|by apply Qle_bool_iff..|by intros ->|by intros ->|done|].
  intros t s Hts. eapply forallb_true in Hts; [|done]. done.
Qed.

Lemma AllowlistEntry_new_ok st sv r ex ap rq rs e :
  AllowlistEntry_new st sv r ex ap rq rs = Ok e →
  ae_approved_by e ≠ ae_requested_by e ∧ ae_approved_by e ≠ "" ∧ ae_requested_by e ≠ "" ∧
  ae_scope_type e ∈ VALID_ALLOWLIST_SCOPE_TYPES ∧ ae_rule_id e ≠ "".
Proof. unfold AllowlistEntry_new. intros H. ok_inv. bool_prop. str_prop. done. Qed.

(** The columns that [AllowlistEntry.__post_init__] accepts, its expiry apart. *)
Definition waiver_fields_ok (st sv r ap rq : string) : Prop :=
  ap ≠ "" ∧ rq ≠ "" ∧ ap ≠ rq ∧ st ∈ VALID_ALLOWLIST_SCOPE_TYPES ∧
  (st = "rule_global" ∨ sv ≠ "") ∧ r ≠ "".

Lemma AllowlistEntry_new_iff st sv r ex ap rq rs e :
  AllowlistEntry_new st sv r ex ap rq rs = Ok e ↔
  waiver_fields_ok st sv r ap rq ∧ fle ex (Fin 0) = false ∧
  e = mkAllowlistEntry st sv r ex ap rq rs.
Proof.
  unfold AllowlistEntry_new, waiver_fields_ok. split.
  - intros H. ok_inv. bool_prop. str_prop. split_and!; try done.
    match goal with H : _ || _ = true |- _ => apply orb_true_iff in H as [?|?] end; bool_prop; str_prop; auto.
  - intros ((H1 & H2 & H3 & H4 & H5 & H6) & H7 & ->).
    apply String.eqb_neq in H1, H2, H3, H6. rewrite H1, H2, H3, H6, H7.
    rewrite (bool_decide_true _ H4). destruct H5 as [->|H5%String.eqb_neq]; [done|].
    by rewrite H5, orb_true_r.
Qed.

Lemma EngineMetadata_new_ok n v d c nw l dt m :
  EngineMetadata_new n v d c nw l dt = Ok m → em_requires_network m = false.
Proof. unfold EngineMetadata_new. intros H. ok_inv. by bool_prop. Qed.

(** The kernel's value objects enforce their invariants at construction: a
    [Finding] that exists has a rule id, a confidence in [0,1] (never NaN), a
    severity of at least LOW and a snippet hash that is lowercase hex or absent; a
    [GatePolicy] never fails closed to PASS and its tier overrides only tighten;
    an [AllowlistEntry] has two different people on it and a valid scope; an
    [EngineMetadata] never needs the network. *)
Theorem constructors_enforce_invariants :
  (∀ r ti c ti' s cf e cap sg fp sl sh ev f,
     Finding_new r ti c ti' s cf e cap sg fp sl sh ev = Ok f → Finding_ok f) ∧
  (∀ v re hg rc b r ov am fc w p,
     GatePolicy_new v re hg rc b r ov am fc w = Ok p → GatePolicy_ok p) ∧
  (∀ i c d n q f s b w, CategoryWeights_new i c d n q f s b = Ok w → CategoryWeights_ok w) ∧
  (∀ st sv r ex ap rq rs e,
     AllowlistEntry_new st sv r ex ap rq rs = Ok e →
     ae_approved_by e ≠ ae_requested_by e ∧ ae_approved_by e ≠ "" ∧ ae_requested_by e ≠ "" ∧
     ae_scope_type e ∈ VALID_ALLOWLIST_SCOPE_TYPES ∧ ae_rule_id e ≠ "") ∧
  (∀ n v d c nw l dt m, EngineMetadata_new n v d c nw l dt = Ok m → em_requires_network m = false).
Proof.
  split_and!.
  - apply Finding_new_ok.
  - apply GatePolicy_new_ok.
  - intros * H. unfold CategoryWeights_new in H. ok_inv.
    assert (Hw : ∀ raw q, check_weight raw = Some q → (0 <= q)%Q ∧ (q <= MAX_CATEGORY_WEIGHT)%Q).
    { intros [[]|] q' Hq; simpl in Hq; try done. destruct (_ && _) eqn:E; [|done].
      simplify_eq. bool_prop. by rewrite <-!qle_iff. }
    repeat match goal with H : match check_weight ?w with _ => _ end = Ok _ |- _ =>
      destruct (check_weight w) eqn:?; ok_inv end.
    intros []; simpl; by eapply Hw.
  - apply AllowlistEntry_new_ok.
  - apply EngineMetadata_new_ok.
Qed.

(** The kernel's "no permanent waivers" check does not exclude one: an entry whose
    expiry is the float infinity (or NaN) is constructed without error and is
    active at every time, since the check only refuses [expires_at <= 0]. *)
Theorem infinite_expiry_is_permanent ex :
  ex = Inf false ∨ ex = NaN →
  ∃ e, AllowlistEntry_new "rule_global" "" "rule" ex "alice" "bob" "" = Ok e ∧
       ∀ now content_hash skill_id, is_active e now content_hash skill_id = true.
Proof. intros [->| ->]; eexists; split; try reflexivity; done. Qed.

Lemma infinite_expiry_witness :
  ∃ e, AllowlistEntry_new "rule_global" "" "rule" (Inf false) "alice" "bob" "" = Ok e ∧
       is_active e 1000000 "h" None = true.
Proof.
  destruct (infinite_expiry_is_permanent (Inf false)) as (e & He & Hact); [by left|].
  exists e. split; [exact He|apply Hact].
Defined.
