(* ===== verification/Scoring.v ===== *)
(** * Aggregation and scoring (src/libs/skillscan_core/scoring.py)

    [evaluate_findings], [_dedup], [aggregate] and [security_score] as the code
    has them.  [_dedup] sorts tuples whose [file_path] and [start_line] may be
    [None]: Python raises [TypeError] when it compares [None] with a value, so
    [dedup] and [aggregate] are fallible. *)

From S2P Require Import Prelude Float64 Models.
From Stdlib Require Import QArith Qabs Lqa ZArith Lia.
Local Open Scope Z_scope.

(** ** [evaluate_findings] *)

(** [max(iterable, default=d)]: the first of the maximal elements. *)
Definition py_max {A} (le : A → A → bool) (d : A) (l : list A) : A :=
  match l with
  | [] => d
  | x :: l' => foldl (λ m y, if le y m then m else y) x l'
  end.

Definition counted (min_confidence : Q) (l : list Finding) : list Finding :=
  base.filter (λ f, qle min_confidence (confidence f)) l.

Definition max_severity (l : list Finding) : Severity := py_max sev_le NONE (severity <$> l).

Definition confidence_at (s : Severity) (l : list Finding) : Q :=
  py_max qle 0%Q (confidence <$> base.filter (λ f, severity f = s) l).

Definition signals (l : list Finding) : gset TrifectaSignal :=
  foldl (λ acc f, acc ∪ trifecta_signals f) ∅ l.

Definition trifecta_of (l : list Finding) : bool :=
  bool_decide (ALL_TRIFECTA_SIGNALS ⊆ signals l).

(** INV-4: [if trifecta_present and severity < CRITICAL: severity = CRITICAL]. *)
Definition uplift (trifecta : bool) (s : Severity) : Severity :=
  if trifecta && sev_lt s CRITICAL then CRITICAL else s.

Definition hard_hits (rules : gset string) (l : list Finding) : gset string :=
  list_to_set (rule_id <$> base.filter (λ f, rule_id f ∈ rules) l).

Definition evaluate_findings (findings : list Finding) (min_confidence : Q)
    (hard_gate_rules : gset string) : Severity * Q * bool * list string :=
  let hard_gate_hits := sorted_set (hard_hits hard_gate_rules findings) in
  let cnt := counted min_confidence findings in
  let severity := max_severity cnt in
  let confidence_at_max := confidence_at severity cnt in
  let trifecta_present := trifecta_of cnt in
  (uplift trifecta_present severity, confidence_at_max, trifecta_present, hard_gate_hits).

(** ** [_dedup] *)

#[export] Instance DetectionCategory_countable : Countable DetectionCategory.
Proof.
  refine (inj_countable
    (λ c, match c with INSTRUCTION => 0 | CODE => 1 | DATA_CREDENTIAL => 2 | NETWORK_INTEL => 3
          | PERMISSION => 4 | FILE_PACKAGE => 5 | SUPPLY_CHAIN => 6 | BUNDLED_COMPONENT => 7 end%nat)
    (λ n, match n with 0 => Some INSTRUCTION | 1 => Some CODE | 2 => Some DATA_CREDENTIAL
          | 3 => Some NETWORK_INTEL | 4 => Some PERMISSION | 5 => Some FILE_PACKAGE
          | 6 => Some SUPPLY_CHAIN | 7 => Some BUNDLED_COMPONENT | _ => None end%nat) _).
  by intros [].
Defined.

Definition PartKey : Type := DedupKey * bool.

Definition part_key (f : Finding) : PartKey := (dedup_key f, is_llm_sourced f).

(** [(f.severity, f.confidence)], compared as Python compares tuples. *)
Definition rank (f : Finding) : Severity * Q := (severity f, confidence f).
Definition rank_le : Severity * Q → Severity * Q → bool := le_pair sev_le qle.
Definition rank_gt (f g : Finding) : bool := negb (rank_le (rank f) (rank g)).

(** One iteration of the loop over the findings: the dict [best] and the set
    [collided_rule_ids]. *)
Definition dedup_step (acc : gmap PartKey Finding * gset string) (f : Finding)
    : gmap PartKey Finding * gset string :=
  let '(best, collided) := acc in
  match best !! part_key f with
  | None => (<[part_key f := f]> best, collided)
  | Some current =>
      (if rank_gt f current then <[part_key f := f]> best else best, {[rule_id f]} ∪ collided)
  end.

Definition opt_le {A} (le : A → A → bool) (a b : option A) : bool :=
  match a, b with
  | None, _ => true
  | Some _, None => false
  | Some x, Some y => le x y
  end.

(** The order on keys that compare at all. *)
Definition key_le : PartKey → PartKey → bool :=
  le_pair
    (le_pair (le_pair (le_pair str_le (opt_le str_le)) (opt_le Z.leb)) (le_key str_le category_value))
    implb.

Definition same_shape {A} (a b : option A) : bool :=
  match a, b with None, None | Some _, Some _ => true | _, _ => false end.

(** Whether [<] on the two keys returns instead of raising [TypeError]: the
    first differing components must not be [None] against a value. *)
Definition comparable (k1 k2 : PartKey) : bool :=
  let '(r1, p1, l1, _, _) := k1 in
  let '(r2, p2, l2, _, _) := k2 in
  negb (String.eqb r1 r2) ||
  (same_shape p1 p2 && (negb (bool_decide (p1 = p2)) || same_shape l1 l2)).

Global Arguments comparable : simpl never.
Global Arguments part_key : simpl never.

Inductive TypeError := none_compared_with_value.

(** [_dedup].  The keys of [best] are distinct, and a comparison sort compares
    every two elements that end up adjacent, so the sort raises exactly when
    some two keys do not compare: keys of one [rule_id] (of one [rule_id] and
    [file_path]) are adjacent in any order, and somewhere among them [None]
    meets a value. *)
Definition dedup (findings : list Finding) : result TypeError (list Finding * gset string) :=
  let '(best, collided) := foldl dedup_step (∅, ∅) findings in
  let values := (map_to_list best).*2 in
  if forallb (λ f, forallb (λ g, comparable (part_key f) (part_key g)) values) values
  then Ok (sort_by (le_key key_le part_key) values, collided)
  else Err none_compared_with_value.

(** ** [aggregate] *)

(** [sort(key=lambda f: (-int(f.severity), -f.confidence))]. *)
Definition worst_first : Finding → Finding → bool :=
  le_key (le_pair (flip sev_le) (flip qle)) rank.

Definition prov_le : string * string * string → string * string * string → bool :=
  le_pair (le_pair str_le str_le) str_le.

Definition provenance (m : EngineMetadata) : string * string * string :=
  (em_name m, em_version m, em_ruleset_digest m).

Definition safe_results (rs : list EngineResult) : list EngineResult :=
  base.filter (λ r, negb (em_requires_network (er_engine r))) rs.

Definition usable_results (rs : list EngineResult) : list EngineResult :=
  base.filter usable (safe_results rs).

(** [{r.engine.name for r in safe_results if r.usable}]. *)
Definition present_and_usable (rs : list EngineResult) : gset string :=
  list_to_set ((em_name ∘ er_engine) <$> usable_results rs).

Definition missing_or_failed (rs : list EngineResult) (policy : GatePolicy) : list string :=
  sorted_set (required_engines policy ∖ present_and_usable rs).

(** Every finding of every usable result, worst first: the pre-cap set. *)
Definition all_findings (rs : list EngineResult) : list Finding :=
  sort_by worst_first (usable_results rs ≫= er_findings).

(** [all_findings[:max_findings] if findings_capped else all_findings]. *)
Definition capped_findings (max_findings : nat) (all : list Finding) : list Finding :=
  if bool_decide (max_findings < length all)%nat then take max_findings all else all.

Definition aggregate (content_hash : string) (rs : list EngineResult) (policy : GatePolicy)
    (min_confidence : Q) (max_findings : nat) : result TypeError ScanResult :=
  let missing := missing_or_failed rs policy in
  let required_ok := bool_decide (missing = []) in
  let all := all_findings rs in
  let pre_cap_hard_gate_hits := hard_hits (hard_gate_rules policy) all in
  let pre_cap_trifecta_present := trifecta_of (counted min_confidence all) in
  let findings_total := length all in
  let findings_capped := bool_decide (max_findings < findings_total)%nat in
  '(deduped, collided_rule_ids) ← dedup (capped_findings max_findings all);
  let '(severity, confidence_at_max, trifecta_postcap, hard_gate_hits_postcap) :=
    evaluate_findings deduped min_confidence (hard_gate_rules policy) in
  let final_hard_gate_hits :=
    sorted_set (pre_cap_hard_gate_hits ∪ list_to_set hard_gate_hits_postcap) in
  let final_trifecta_present := pre_cap_trifecta_present || trifecta_postcap in
  Ok (mkScanResult content_hash (uplift final_trifecta_present severity) confidence_at_max
        final_trifecta_present final_hard_gate_hits deduped
        (sort_by prov_le ((provenance ∘ er_engine) <$> safe_results rs))
        findings_capped required_ok missing (Z.of_nat findings_total) collided_rule_ids).

(** ** [security_score] *)

Definition SCORE_BAND (v : Verdict) : Z * Z :=
  match v with BLOCK => (0, 39) | REVIEW => (40, 74) | PASS => (75, 100) end.

Definition SEVERITY_PENALTY_WEIGHT (s : Severity) : Q :=
  match s with NONE => 0 | LOW => 3 | MEDIUM => 8 | HIGH => 18 | CRITICAL => 35 end%Q.

Definition Qabs_le (x y : Q) : bool := qle (Qabs x) (Qabs y).

(** The float loop of CPython's [sum] (3.12 and later): Neumaier's compensated
    summation.  [acc] is the running sum and [c] the compensation. *)
Fixpoint neumaier (acc c : Q) (l : list Q) : Q :=
  match l with
  | [] => if Qeq_bool c 0 then acc else fadd acc c
  | x :: l' =>
      let t := fadd acc x in
      let c' := if Qabs_le x acc then fadd c (fadd (fsub acc t) x)
                else fadd c (fadd (fsub x t) acc) in
      neumaier t c' l'
  end.

(** [sum(l)] of floats: the start value is the integer [0], so the first float
    becomes the running sum as it is. *)
Definition py_sum (l : list Q) : Q :=
  match l with [] => 0%Q | x :: l' => neumaier x 0 l' end.

Definition penalty_term (w : CategoryWeights) (f : Finding) : Q :=
  fmul (fmul (SEVERITY_PENALTY_WEIGHT (severity f)) (confidence f)) (for_category w (category f)).

Section score.
  (** [math.exp]: the C library's exponential on doubles. *)
Variable exp64 : Q → Q.

Definition security_score (verdict : Verdict) (findings : list Finding) (pin_to_floor : bool)
    (weights : CategoryWeights) : Z :=
  let '(band_min, band_max) := SCORE_BAND verdict in
  if pin_to_floor then band_min else
  let raw_penalty := py_sum (penalty_term weights <$> findings) in
  let band_width := band_max - band_min in
  if band_width <=? 0 then band_min else
  let bw := inject_Z band_width in
  let penalty := fmul bw (fsub 1 (exp64 (fdiv (- raw_penalty) bw))) in
  Z.max band_min (Z.min band_max (round_half_even (fsub (inject_Z band_max) penalty))).
End score.

(** ** Lemmas on [evaluate_findings] *)

Section py_max.
Context {A : Type} (le : A → A → bool) `{!TotalPreB le}.

Lemma foldl_max_ub l x :
  le x (foldl (λ m y, if le y m then m else y) x l) = true ∧
  ∀ y, y ∈ l → le y (foldl (λ m y, if le y m then m else y) x l) = true.
Proof.
  revert x. induction l as [|z l IH]; intros x; simpl.
  { split; [apply leB_refl; apply _|set_solver]. }
  destruct (le z x) eqn:E.
  - destruct (IH x) as [H1 H2]. split; [done|].
    intros y [->|Hy]%elem_of_cons; [by eapply leB_trans|auto].
  - apply leB_total in E. destruct (IH z) as [H1 H2]. split; [by eapply leB_trans|].
    intros y [->|Hy]%elem_of_cons; auto.
Qed.

Lemma foldl_max_in l x : foldl (λ m y, if le y m then m else y) x l ∈ x :: l.
Proof.
  revert x. induction l as [|z l IH]; intros x; simpl; [left|].
  destruct (le z x).
  - destruct (proj1 (elem_of_cons _ _ _) (IH x)) as [->|H]; [left|by do 2 right].
  - right. apply IH.
Qed.

Lemma py_max_ub d l y : y ∈ l → le y (py_max le d l) = true.
Proof.
  destruct l as [|x l]; simpl; [set_solver|].
  destruct (foldl_max_ub l x) as [H1 H2]. intros [->|Hy]%elem_of_cons; auto.
Qed.

Lemma py_max_in d l : l ≠ [] → py_max le d l ∈ l.
Proof. destruct l; [done|]. intros _. apply foldl_max_in. Qed.
End py_max.

Lemma max_severity_ub l f : f ∈ l → sev_le (severity f) (max_severity l) = true.
Proof. intros. apply py_max_ub; [apply _|]. by apply list_elem_of_fmap_2. Qed.

Lemma max_severity_lub l s :
  (∀ f, f ∈ l → sev_le (severity f) s = true) → sev_le (max_severity l) s = true.
Proof.
  intros H. unfold max_severity. destruct l as [|f l]; [by destruct s|].
  assert (Hin : py_max sev_le NONE (severity <$> f :: l) ∈ severity <$> f :: l)
    by by apply py_max_in.
  apply list_elem_of_fmap in Hin as (g & -> & Hg). auto.
Qed.

Lemma max_severity_mono l1 l2 : l1 ⊆ l2 → sev_le (max_severity l1) (max_severity l2) = true.
Proof. intros H. apply max_severity_lub. intros f Hf. apply max_severity_ub, H, Hf. Qed.

Lemma max_severity_attained l : l ≠ [] → ∃ f, f ∈ l ∧ severity f = max_severity l.
Proof.
  intros Hl. assert (Hin : max_severity l ∈ severity <$> l).
  { apply py_max_in. by destruct l. }
  apply list_elem_of_fmap in Hin as (f & Hf & ?). eauto.
Qed.

Lemma elem_of_signals x l : x ∈ signals l ↔ ∃ f, f ∈ l ∧ x ∈ trifecta_signals f.
Proof.
  unfold signals.
  assert (H : ∀ acc, x ∈ foldl (λ acc f, acc ∪ trifecta_signals f) acc l ↔
                     x ∈ acc ∨ ∃ f, f ∈ l ∧ x ∈ trifecta_signals f).
  { induction l as [|g l IH]; intros acc; simpl; [set_solver|]. rewrite IH. set_solver. }
  rewrite H. set_solver.
Qed.

Lemma signals_mono l1 l2 : l1 ⊆ l2 → signals l1 ⊆ signals l2.
Proof. intros H x. rewrite !elem_of_signals. intros (f & ? & ?). exists f. auto. Qed.

Lemma trifecta_of_mono l1 l2 : l1 ⊆ l2 → trifecta_of l1 = true → trifecta_of l2 = true.
Proof.
  unfold trifecta_of. rewrite !bool_decide_eq_true. intros H%signals_mono. set_solver.
Qed.

Lemma elem_of_counted c l f : f ∈ counted c l ↔ f ∈ l ∧ qle c (confidence f) = true.
Proof. unfold counted. rewrite list_elem_of_filter, Is_true_true. tauto. Qed.

Lemma counted_mono c l1 l2 : l1 ⊆ l2 → counted c l1 ⊆ counted c l2.
Proof. intros H f. rewrite !elem_of_counted. intros [? ?]. auto. Qed.

(** At the default threshold every constructed finding counts. *)
Lemma counted_zero l : Forall Finding_ok l → counted 0 l = l.
Proof.
  unfold counted. induction 1 as [|f l (_ & Hc & _) _ IH]; [done|].
  rewrite filter_cons, decide_True, IH; [done|].
  apply Is_true_true, qle_iff. lra.
Qed.

Lemma elem_of_hard_hits rules l r :
  r ∈ hard_hits rules l ↔ r ∈ rules ∧ ∃ f, f ∈ l ∧ rule_id f = r.
Proof.
  unfold hard_hits. rewrite elem_of_list_to_set, list_elem_of_fmap.
  setoid_rewrite list_elem_of_filter. naive_solver.
Qed.

Lemma hard_hits_mono rules l1 l2 : l1 ⊆ l2 → hard_hits rules l1 ⊆ hard_hits rules l2.
Proof. intros H r. rewrite !elem_of_hard_hits. intros (? & f & ? & ?). eauto. Qed.

Lemma uplift_ge t s : sev_le s (uplift t s) = true.
Proof. by destruct t, s. Qed.

Lemma uplift_true s : uplift true s = CRITICAL.
Proof. by destruct s. Qed.

Lemma uplift_mono t1 t2 s1 s2 :
  (t1 = true → t2 = true) → sev_le s1 s2 = true → sev_le (uplift t1 s1) (uplift t2 s2) = true.
Proof. destruct t1, t2, s1, s2; naive_solver. Qed.

#[export] Hint Resolve max_severity_ub uplift_ge : kernel.

(** ** Lemmas on [_dedup] *)

#[export] Instance rank_le_total : TotalPreB rank_le.
Proof. apply le_pair_total; apply _. Qed.

Lemma rank_gt_true f g : rank_gt f g = true → rank_le (rank g) (rank f) = true.
Proof. unfold rank_gt. intros H%negb_true_iff. by apply leB_total. Qed.

Lemma rank_gt_false f g : rank_gt f g = false → rank_le (rank f) (rank g) = true.
Proof. unfold rank_gt. by intros H%negb_false_iff. Qed.

Lemma rank_le_severity f g : rank_le (rank f) (rank g) = true → sev_le (severity f) (severity g) = true.
Proof. unfold rank_le, le_pair; simpl. by intros [? _]%andb_true_iff. Qed.

Definition dedup_run (l : list Finding) : gmap PartKey Finding * gset string :=
  foldl dedup_step (∅, ∅) l.

Lemma dedup_run_snoc l f : dedup_run (l ++ [f]) = dedup_step (dedup_run l) f.
Proof. unfold dedup_run. by rewrite foldl_app. Qed.

(** What the dict [best] and the set [collided_rule_ids] hold after the loop has
    consumed [l]. *)
Record dedup_inv (l : list Finding) (best : gmap PartKey Finding) (coll : gset string) : Prop := {
  di_key : ∀ k f, best !! k = Some f → part_key f = k;
  di_in : ∀ k f, best !! k = Some f → f ∈ l;
  di_best : ∀ k f, best !! k = Some f → ∀ g, g ∈ l → part_key g = k → rank_le (rank g) (rank f) = true;
  di_total : ∀ f, f ∈ l → is_Some (best !! part_key f);
  di_coll : ∀ r, r ∈ coll → ∃ f, f ∈ l ∧ rule_id f = r;
  di_lost : ∀ k f g, best !! k = Some f → g ∈ l → part_key g = k → g ≠ f → rule_id g ∈ coll;
}.

Lemma part_key_rule f g : part_key f = part_key g → rule_id f = rule_id g.
Proof. by intros [=]. Qed.

Lemma snoc_elem (l : list Finding) f g : g ∈ l ++ [f] ↔ g ∈ l ∨ g = f.
Proof. by rewrite elem_of_app, list_elem_of_singleton. Qed.

(** The new finding takes its key. *)
Lemma dedup_inv_take l best coll coll' f :
  dedup_inv l best coll → coll ⊆ coll' →
  (∀ r, r ∈ coll' → r ∈ coll ∨ r = rule_id f) →
  (∀ g, g ∈ l → part_key g = part_key f →
     rank_le (rank g) (rank f) = true ∧ rule_id f ∈ coll') →
  dedup_inv (l ++ [f]) (<[part_key f := f]> best) coll'.
Proof.
  intros IH Hsub Hnew Hdom. split.
  - intros k g [[<- <-]|[? ?]]%lookup_insert_Some; [done|by eapply di_key].
  - intros k g [[<- <-]|[? ?]]%lookup_insert_Some; apply snoc_elem; [by right|left].
    by eapply di_in.
  - intros k g [[<- <-]|[? ?]]%lookup_insert_Some h [Hh| ->]%snoc_elem Hk.
    + by apply Hdom.
    + apply leB_refl; apply _.
    + by eapply di_best.
    + congruence.
  - intros g Hg. rewrite lookup_insert_is_Some.
    destruct (decide (part_key f = part_key g)); [by left|right]. split; [done|].
    apply snoc_elem in Hg as [Hg| ->]; [by eapply di_total|done].
  - intros r [Hr| ->]%Hnew; [|exists f; by rewrite snoc_elem; auto].
    destruct (di_coll _ _ _ IH _ Hr) as (g & ? & ?). exists g. rewrite snoc_elem. auto.
  - intros k g h [[<- <-]|[? ?]]%lookup_insert_Some [Hh| ->]%snoc_elem Hk Hne; try done.
    + rewrite (part_key_rule _ _ Hk). by eapply Hdom.
    + apply Hsub. by eapply di_lost.
Qed.

(** The incumbent keeps its key, and the collision is recorded. *)
Lemma dedup_inv_keep l best coll f cur :
  dedup_inv l best coll → best !! part_key f = Some cur → rank_le (rank f) (rank cur) = true →
  dedup_inv (l ++ [f]) best ({[rule_id f]} ∪ coll).
Proof.
  intros IH Hcur Hle. split.
  - by eapply di_key.
  - intros. apply snoc_elem; left. by eapply di_in.
  - intros k g Hg h [Hh| ->]%snoc_elem Hk; [by eapply di_best|by simplify_eq].
  - intros g [Hg| ->]%snoc_elem; [by eapply di_total|by rewrite Hcur].
  - intros r [->%elem_of_singleton|Hr]%elem_of_union; [exists f; by rewrite snoc_elem; auto|].
    destruct (di_coll _ _ _ IH _ Hr) as (g & ? & ?). exists g. rewrite snoc_elem. auto.
  - intros k g h Hg [Hh| ->]%snoc_elem Hk Hne; apply elem_of_union;
      [right; by eapply di_lost|left; by apply elem_of_singleton].
Qed.

Lemma dedup_run_inv l : dedup_inv l (dedup_run l).1 (dedup_run l).2.
Proof.
  induction l as [|f l IH] using rev_ind.
  { split; simpl; try (intros *; rewrite lookup_empty); try done; intros *; by intros ?%elem_of_nil. }
  rewrite dedup_run_snoc. destruct (dedup_run l) as [best coll]; simpl in IH |- *.
  destruct (best !! part_key f) as [cur|] eqn:Ecur; simpl.
  - destruct (rank_gt f cur) eqn:Egt.
    + apply rank_gt_true in Egt. apply (dedup_inv_take _ _ coll); [done|set_solver|set_solver|].
      intros g Hg Hk. split; [|set_solver].
      eapply leB_trans; [by eapply (di_best _ _ _ IH)|done].
    + apply rank_gt_false in Egt. by eapply dedup_inv_keep.
  - apply (dedup_inv_take _ _ coll); [done|done|by left|].
    intros g Hg Hk. destruct (di_total _ _ _ IH _ Hg) as [? Hs]. rewrite Hk in Hs. congruence.
Qed.

(** Reading a successful [dedup] back: survivors are the values of [best]. *)
Lemma dedup_Ok l d c :
  dedup l = Ok (d, c) →
  c = (dedup_run l).2 ∧ d ≡ₚ (map_to_list (dedup_run l).1).*2 ∧
  (∀ f, f ∈ d ↔ (dedup_run l).1 !! part_key f = Some f).
Proof.
  unfold dedup. fold (dedup_run l). pose proof (dedup_run_inv l) as Hinv.
  destruct (dedup_run l) as [best coll]; simpl in *.
  destruct (forallb _ _); [|done]. intros [= <- <-]. split; [done|]. split.
  - apply sort_by_perm.
  - intros f. rewrite elem_of_sort_by, list_elem_of_fmap. split.
    + intros ([k g] & -> & Hg%elem_of_map_to_list). simpl.
      by rewrite (di_key _ _ _ Hinv _ _ Hg).
    + intros Hf. exists (part_key f, f). split; [done|]. by apply elem_of_map_to_list.
Qed.

Section dedup_spec.
Context (l d : list Finding) (c : gset string) (Hd : dedup l = Ok (d, c)).

Lemma dedup_subset : d ⊆ l.
Proof.
  intros f Hf. apply dedup_Ok in Hd as (_ & _ & Hin).
  eapply di_in; [apply dedup_run_inv|by apply Hin].
Qed.

(** Every finding is represented by a survivor of its own key and of the same
    provenance class (LLM or not) that ranks at least as high. *)
Lemma dedup_represented f : f ∈ l → ∃ g, g ∈ d ∧ part_key g = part_key f ∧
  rank_le (rank f) (rank g) = true.
Proof.
  intros Hf. pose proof (dedup_run_inv l) as Hinv. apply dedup_Ok in Hd as (_ & _ & Hin).
  destruct (di_total _ _ _ Hinv _ Hf) as [g Hg].
  pose proof (di_key _ _ _ Hinv _ _ Hg) as Hk. exists g. split; [|split].
  - apply Hin. by rewrite Hk.
  - done.
  - by eapply (di_best _ _ _ Hinv).
Qed.

Lemma dedup_unique f g : f ∈ d → g ∈ d → part_key f = part_key g → f = g.
Proof.
  apply dedup_Ok in Hd as (_ & _ & Hin). rewrite !Hin. intros H1 H2 E. rewrite E in H1. congruence.
Qed.

(** A finding that did not survive left its [rule_id] in the collision set. *)
Lemma dedup_lost f : f ∈ l → f ∉ d → rule_id f ∈ c.
Proof.
  intros Hf Hn. pose proof (dedup_run_inv l) as Hinv. apply dedup_Ok in Hd as (-> & _ & Hin).
  destruct (di_total _ _ _ Hinv _ Hf) as [g Hg].
  eapply (di_lost _ _ _ Hinv); [exact Hg|done|done|]. intros ->. apply Hn. by apply Hin.
Qed.

Lemma dedup_max_severity : max_severity d = max_severity l.
Proof.
  apply sev_le_antisym; [apply max_severity_mono, dedup_subset|].
  apply max_severity_lub. intros f Hf.
  destruct (dedup_represented f Hf) as (g & Hg & _ & Hr).
  eapply sev_le_trans; [by apply rank_le_severity|by apply max_severity_ub].
Qed.

Lemma dedup_hard_hits rules : hard_hits rules d = hard_hits rules l.
Proof.
  apply set_eq. intros r. rewrite !elem_of_hard_hits. split; intros (? & f & Hf & <-); split; try done.
  - exists f. split; [by apply dedup_subset|done].
  - destruct (dedup_represented f Hf) as (g & Hg & Hk & _). exists g. split; [done|].
    by apply part_key_rule.
Qed.
End dedup_spec.

(** ** Lemmas on [aggregate] *)

#[export] Instance worst_first_total : TotalPreB worst_first.
Proof.
  apply le_key_total, le_pair_total; split; unfold flip; intros x y.
  - apply sev_le_total.
  - intros z ? ?. by eapply sev_le_trans.
  - by intros H%leB_total.
  - intros z ? ?. by eapply leB_trans.
Qed.

Lemma worst_first_severity f g : worst_first f g = true → sev_le (severity g) (severity f) = true.
Proof. unfold worst_first, le_key, le_pair, flip; simpl. by intros [? _]%andb_true_iff. Qed.

Lemma elem_of_all_findings rs f :
  f ∈ all_findings rs ↔ ∃ r, r ∈ usable_results rs ∧ f ∈ er_findings r.
Proof. unfold all_findings. rewrite elem_of_sort_by, list_elem_of_bind. naive_solver. Qed.

Lemma elem_of_usable_results rs r :
  r ∈ usable_results rs ↔
  r ∈ rs ∧ em_requires_network (er_engine r) = false ∧ usable r = true.
Proof.
  unfold usable_results, safe_results. rewrite !list_elem_of_filter, !Is_true_true, negb_true_iff.
  tauto.
Qed.

Lemma capped_subset n l : capped_findings n l ⊆ l.
Proof. unfold capped_findings. case_bool_decide; [apply subseteq_take|done]. Qed.

Lemma capped_id n l : (length l ≤ n)%nat → capped_findings n l = l.
Proof. intros. unfold capped_findings. by rewrite bool_decide_false by lia. Qed.

(** Sorting worst first, the cap cannot lower the maximal severity. *)
Lemma capped_max_severity n l :
  (0 < n)%nat → sortedB worst_first l → max_severity (capped_findings n l) = max_severity l.
Proof.
  intros Hn Hs. apply sev_le_antisym; [apply max_severity_mono, capped_subset|].
  unfold capped_findings. case_bool_decide; [|apply leB_refl; apply _].
  destruct l as [|f l]; [simpl in *; lia|]. destruct n as [|n]; [lia|]. simpl.
  apply max_severity_lub. intros g Hg. apply sev_le_trans with (severity f);
    [|apply max_severity_ub; left].
  apply elem_of_cons in Hg as [->|Hg]; [apply leB_refl; apply _|].
  apply worst_first_severity. inversion Hs as [|? ? ? Hall]; subst.
  rewrite Forall_forall in Hall. by apply Hall.
Qed.

(** The fields of an aggregated result, each as one expression of the input. *)
Record aggregated (content_hash : string) (rs : list EngineResult) (policy : GatePolicy)
    (min_confidence : Q) (max_findings : nat) (sr : ScanResult) : Prop := {
  ag_hash : sr_content_hash sr = content_hash;
  ag_dedup : dedup (capped_findings max_findings (all_findings rs)) =
             Ok (sr_findings sr, sr_dedup_collision_rule_ids sr);
  ag_trifecta : sr_trifecta_present sr = trifecta_of (counted min_confidence (all_findings rs));
  ag_severity : sr_severity sr =
    uplift (sr_trifecta_present sr) (max_severity (counted min_confidence (sr_findings sr)));
  ag_hard : sr_hard_gate_hits sr = sorted_set (hard_hits (hard_gate_rules policy) (all_findings rs));
  ag_capped : sr_findings_capped sr = bool_decide (max_findings < length (all_findings rs))%nat;
  ag_total : sr_findings_total sr = Z.of_nat (length (all_findings rs));
  ag_missing : sr_missing_or_failed_required sr = missing_or_failed rs policy;
  ag_required : sr_required_ok sr = bool_decide (missing_or_failed rs policy = []);
}.

Lemma aggregate_Ok ch rs p mc mf sr :
  aggregate ch rs p mc mf = Ok sr → aggregated ch rs p mc mf sr.
Proof.
  unfold aggregate. destruct (dedup _) as [[d c]|] eqn:Ed; [|done]. simpl. intros [= <-].
  assert (Hsub : d ⊆ all_findings rs).
  { etrans; [by eapply dedup_subset|apply capped_subset]. }
  assert (Hpost : trifecta_of (counted mc d) = true →
                  trifecta_of (counted mc (all_findings rs)) = true).
  { by apply trifecta_of_mono, counted_mono. }
  split; simpl; try done.
  - destruct (trifecta_of (counted mc d)); [by rewrite Hpost|by rewrite orb_false_r].
  - destruct (trifecta_of (counted mc d)) eqn:E; simpl; rewrite ?orb_true_r, ?orb_false_r, ?uplift_true.
    + done.
    + f_equal.
  - f_equal. apply set_eq. intros r.
    rewrite elem_of_union, elem_of_list_to_set, elem_of_sorted_set. split; [|by left].
    intros [?|H]; [done|]. by eapply hard_hits_mono.
Qed.

Lemma missing_iff rs p : missing_or_failed rs p = [] ↔ required_engines p ⊆ present_and_usable rs.
Proof.
  unfold missing_or_failed. rewrite sorted_set_nil. split.
  - intros H x Hx. destruct (decide (x ∈ present_and_usable rs)) as [|Hn]; [done|].
    assert (Hd : x ∈ required_engines p ∖ present_and_usable rs) by by apply elem_of_difference.
    rewrite H in Hd. by apply not_elem_of_empty in Hd.
  - apply subseteq_empty_difference_L.
Qed.

Lemma missing_some rs p :
  missing_or_failed rs p ≠ [] ↔ ∃ e, e ∈ required_engines p ∧ e ∉ present_and_usable rs.
Proof.
  setoid_rewrite <-elem_of_difference. unfold missing_or_failed.
  setoid_rewrite <-elem_of_sorted_set. destruct (sorted_set _) as [|e l].
  - split; [done|]. by intros (e & ?%elem_of_nil).
  - split; [|done]. intros _. exists e. left.
Qed.

Lemma elem_of_present rs n :
  n ∈ present_and_usable rs ↔ ∃ r, r ∈ usable_results rs ∧ em_name (er_engine r) = n.
Proof.
  unfold present_and_usable. rewrite elem_of_list_to_set, list_elem_of_fmap. naive_solver.
Qed.

(** ** Properties of aggregation *)

(** At the default confidence threshold, neither the flood cap nor
    deduplication loses severity: the severity [aggregate] reports is the maximal
    severity over every finding of every usable engine result, raised to CRITICAL
    when the three trifecta signals occur together anywhere in that full set. *)
Theorem aggregate_severity_full ch rs p mf sr :
  Forall Finding_ok (all_findings rs) → (0 < mf)%nat →
  aggregate ch rs p 0 mf = Ok sr →
  sr_severity sr = uplift (trifecta_of (all_findings rs)) (max_severity (all_findings rs)).
Proof.
  intros Hok Hmf Ha%aggregate_Ok. pose proof (ag_dedup _ _ _ _ _ _ Ha) as Hd.
  assert (Hok' : Forall Finding_ok (sr_findings sr)).
  { rewrite Forall_forall in Hok |- *. intros f Hf. apply Hok.
    eapply capped_subset, dedup_subset; eauto. }
  rewrite (ag_severity _ _ _ _ _ _ Ha), (ag_trifecta _ _ _ _ _ _ Ha), !counted_zero by done.
  by rewrite (dedup_max_severity _ _ _ Hd), capped_max_severity by (done || apply sort_by_sorted; apply _).
Qed.

(** [_dedup] keeps exactly one finding per (dedup key, LLM-sourced) pair, every
    input finding is represented by a survivor of its own key and its own
    provenance class that ranks at least as high in (severity, confidence), and
    whatever was dropped left its [rule_id] in the collision set.  In particular
    an LLM finding never replaces a deterministic one. *)
Theorem dedup_sound l d c :
  dedup l = Ok (d, c) →
  d ⊆ l ∧
  (∀ f g, f ∈ d → g ∈ d → part_key f = part_key g → f = g) ∧
  (∀ f, f ∈ l → ∃ g, g ∈ d ∧ dedup_key g = dedup_key f ∧ is_llm_sourced g = is_llm_sourced f ∧
                     rank_le (rank f) (rank g) = true) ∧
  (∀ f, f ∈ l → f ∉ d → rule_id f ∈ c).
Proof.
  intros Hd. split; [by eapply dedup_subset|]. split; [by eapply dedup_unique|]. split.
  - intros f Hf. destruct (dedup_represented _ _ _ Hd f Hf) as (g & Hg & Hk & Hr).
    injection Hk as H1 H2 H3 H4 Hl. exists g. unfold dedup_key. rewrite H1, H2, H3, H4. auto.
  - by eapply dedup_lost.
Qed.

(** [aggregate] raises [TypeError] exactly when, among the findings that survive
    the cap, two share a [rule_id] while one has a [file_path] and the other has
    [None] (or share both and differ that way in [start_line]): the final sort
    compares [None] with a value.  No other input makes it raise. *)
Theorem aggregate_raises_iff ch rs p mc mf :
  aggregate ch rs p mc mf = Err none_compared_with_value ↔
  ∃ f g, f ∈ capped_findings mf (all_findings rs) ∧ g ∈ capped_findings mf (all_findings rs) ∧
         comparable (part_key f) (part_key g) = false.
Proof.
  set (l := capped_findings mf (all_findings rs)).
  unfold aggregate. fold l. pose proof (dedup_run_inv l) as Hinv.
  assert (Hval : ∀ f, f ∈ (map_to_list (dedup_run l).1).*2 ↔ (dedup_run l).1 !! part_key f = Some f).
  { intros f. rewrite list_elem_of_fmap. split.
    - intros ([k g] & -> & Hg%elem_of_map_to_list). simpl. by rewrite (di_key _ _ _ Hinv _ _ Hg).
    - intros Hf. exists (part_key f, f). by rewrite elem_of_map_to_list. }
  unfold dedup. fold (dedup_run l). destruct (dedup_run l) as [best coll]; simpl in *.
  set (vals := (map_to_list best).*2) in *.
  destruct (forallb _ vals) eqn:E; split; try done.
  - intros (f & g & Hf & Hg & Hc). rewrite forallb_true in E.
    destruct (di_total _ _ _ Hinv _ Hf) as [f' Hf'], (di_total _ _ _ Hinv _ Hg) as [g' Hg'].
    pose proof (di_key _ _ _ Hinv _ _ Hf') as Kf. pose proof (di_key _ _ _ Hinv _ _ Hg') as Kg.
    rewrite <-Kf, <-Kg in *. apply Hval in Hf', Hg'.
    specialize (E f' Hf'). rewrite forallb_true in E. rewrite E in Hc; done.
  - intros _. apply forallb_false in E as (f & Hf%Hval & E).
    apply forallb_false in E as (g & Hg%Hval & E).
    exists f, g. split_and!; [by eapply di_in|by eapply di_in|done].
Qed.

(** ** Properties of the score *)

Section score_properties.
Variable exp64 : Q → Q.

Lemma security_score_in_band v fs pin w :
  (SCORE_BAND v).1 ≤ security_score exp64 v fs pin w ≤ (SCORE_BAND v).2.
Proof. unfold security_score. destruct v, pin; simpl; lia. Qed.

(** The score never contradicts the verdict: whatever the findings, the weights
    and the pinning, a stricter verdict scores strictly lower, and every score is
    in its verdict's band of [0, 100]. *)
Theorem score_orders_verdicts v1 v2 fs1 fs2 pin1 pin2 w1 w2 :
  0 ≤ security_score exp64 v1 fs1 pin1 w1 ≤ 100 ∧
  (verdict_le v1 v2 = false →
   security_score exp64 v1 fs1 pin1 w1 < security_score exp64 v2 fs2 pin2 w2).
Proof.
  pose proof (security_score_in_band v1 fs1 pin1 w1). pose proof (security_score_in_band v2 fs2 pin2 w2).
  destruct v1, v2; simpl in *; split; (done || lia).
Qed.

Hypothesis exp64_mono : ∀ x y, (x <= y)%Q → (exp64 x <= exp64 y)%Q.
Hypothesis exp64_zero : ∀ x, (x == 0)%Q → (exp64 x == 1)%Q.

Lemma penalty_term_mono w f g :
  CategoryWeights_ok w → Finding_ok f → category f = category g →
  sev_le (severity f) (severity g) = true → (confidence f <= confidence g)%Q →
  (penalty_term w f <= penalty_term w g)%Q.
Proof.
  intros Hw (_ & Hf & _) Hcat Hs Hc. unfold penalty_term, fmul. rewrite <-Hcat.
  destruct (Hw (category f)) as [Hw0 _]. apply rnd64_mono.
  apply Qmult_le_compat_r; [|done]. apply rnd64_mono.
  assert (Hsev : (0 <= SEVERITY_PENALTY_WEIGHT (severity f))%Q ∧
                 (SEVERITY_PENALTY_WEIGHT (severity f) <= SEVERITY_PENALTY_WEIGHT (severity g))%Q).
  { destruct (severity f), (severity g); try done; simpl; lra. }
  destruct Hsev as [H0 H1].
  apply Qle_trans with (SEVERITY_PENALTY_WEIGHT (severity f) * confidence g)%Q.
  - rewrite !(Qmult_comm (SEVERITY_PENALTY_WEIGHT _)). by apply Qmult_le_compat_r.
  - apply Qmult_le_compat_r; [done|]. lra.
Qed.

(** The score as a function of the raw penalty falls as the penalty grows. *)
Lemma score_of_penalty_antitone (bw bmax x y : Q) :
  (0 < bw)%Q → (x <= y)%Q →
  (round_half_even (fsub bmax (fmul bw (fsub 1 (exp64 (fdiv (- y) bw))))) <=
   round_half_even (fsub bmax (fmul bw (fsub 1 (exp64 (fdiv (- x) bw))))))%Z.
Proof.
  intros Hbw Hxy. apply round_half_even_mono. unfold fsub at 1 3. apply rnd64_mono.
  apply Qplus_le_compat; [apply Qle_refl|]. apply Qopp_le_compat. unfold fmul. apply rnd64_mono.
  rewrite !(Qmult_comm bw). apply Qmult_le_compat_r; [|lra].
  unfold fsub. apply rnd64_mono. apply Qplus_le_compat; [apply Qle_refl|].
  apply Qopp_le_compat, exp64_mono. unfold fdiv. apply rnd64_mono. unfold Qdiv.
  apply Qmult_le_compat_r; [lra|]. apply Qlt_le_weak, Qinv_lt_0_compat. lra.
Qed.

(** Within one verdict, a package whose only finding is more severe or more
    confident (same category) never scores higher: the double-precision penalty
    arithmetic is monotone.  The hypotheses on [exp64] are that C's [exp] is
    monotone. *)
Theorem score_single_antitone v w f g :
  CategoryWeights_ok w → Finding_ok f → category f = category g →
  sev_le (severity f) (severity g) = true → (confidence f <= confidence g)%Q →
  security_score exp64 v [g] false w ≤ security_score exp64 v [f] false w.
Proof.
  intros Hw Hf Hcat Hs Hc. pose proof (penalty_term_mono w f g Hw Hf Hcat Hs Hc) as Hp.
  unfold security_score. destruct v; cbn -[fmul fsub fdiv Z.max Z.min penalty_term];
    apply Z.max_le_compat_l, Z.min_le_compat_l, score_of_penalty_antitone; done.
Qed.

(** A PASS verdict over no findings scores exactly 100, and any verdict that is
    pinned scores exactly the floor of its band; [exp64_zero] is C's [exp(0) = 1]. *)
Theorem score_extremes v fs w :
  security_score exp64 PASS [] false w = 100 ∧
  security_score exp64 v fs true w = (SCORE_BAND v).1.
Proof.
  split; [|by destruct v].
  unfold security_score; cbn -[fmul fsub fdiv Z.max Z.min].
  assert (He : (exp64 (fdiv (-0) (inject_Z 25)) == 1)%Q).
  { apply exp64_zero. reflexivity. }
  assert (Hp : (fmul (inject_Z 25) (fsub 1 (exp64 (fdiv (- 0) (inject_Z 25)))) == 0)%Q).
  { unfold fmul, fsub. rewrite He. reflexivity. }
  unfold fsub at 1. rewrite Hp. reflexivity.
Qed.
End score_properties.
