(* ===== verification/Gate.v ===== *)
(** * The gate decision (src/libs/skillscan_core/gate.py)

    [decide] is [gate_decide] here ([decide] is stdpp's).  Its local functions
    are the definitions of section [decide]; [gate_decide] is the whole function,
    branch by branch.  The theorems are the kernel's security invariants: INV-1
    (fail closed), INV-2 (LLM findings only escalate), INV-3 (hard gates are not
    waivable), INV-4 (the trifecta blocks), INV-5 (a flood never passes) and the
    effect of waivers, each stated end to end on [aggregate] followed by
    [gate_decide]. *)

From S2P Require Import Prelude Float64 Models Scoring.
From Stdlib Require Import QArith Lqa ZArith Lia.
Local Open Scope Z_scope.

(** ** [_classify] *)

Definition classify (severity : Severity) (confidence : Q) (policy : GatePolicy)
    (tier : TrustTier) : Verdict :=
  if sev_le (block_threshold policy tier) severity then BLOCK
  else if sev_le (review_on_severity policy) severity then REVIEW
  else if sev_le LOW severity && qlt confidence (review_confidence policy) then REVIEW
  else PASS.

Section decide.
Variable exp64 : Q → Q.
Variables (scan_result : ScanResult) (policy : GatePolicy) (trust_tier : TrustTier).
Variables (allowlist : list AllowlistEntry) (now : Q) (min_confidence : Q).
Variable skill_id : option string.

Definition entry_active (entry : AllowlistEntry) : bool :=
  is_active entry now (sr_content_hash scan_result) skill_id.

(** [_rule_id_actively_waived]. *)
Definition rule_id_actively_waived (r : string) : bool :=
  if bool_decide (r ∈ hard_gate_rules policy) then false
  else existsb (λ entry, String.eqb (ae_rule_id entry) r && entry_active entry) allowlist.

(** [_dedup_collisions_fully_waived]. *)
Definition dedup_collisions_fully_waived : bool :=
  if bool_decide (sr_dedup_collision_rule_ids scan_result = ∅) then false
  else forallb rule_id_actively_waived (elements (sr_dedup_collision_rule_ids scan_result)).

(** [_is_waived]. *)
Definition is_waived (f : Finding) : bool :=
  if bool_decide (rule_id f ∈ hard_gate_rules policy) then false
  else if sev_lt (allowlistable_max_severity policy) (severity f) then false
  else existsb (λ entry, waives entry f && entry_active entry) allowlist.

Definition effective : list Finding :=
  base.filter (λ f, negb (is_waived f)) (sr_findings scan_result).

Definition non_llm_effective : list Finding :=
  base.filter (λ f, negb (is_llm_sourced f)) effective.

(** [frozenset(hard_gate_hits) | recomputed_hard_gate]. *)
Definition combined_hard_gate : gset string :=
  list_to_set (sr_hard_gate_hits scan_result) ∪
  hard_hits (hard_gate_rules policy) (sr_findings scan_result).

(** What the recomputation over the unwaived findings lost. *)
Definition trifecta_lost : bool :=
  let '(_, _, trif_unwaived, _) :=
    evaluate_findings (sr_findings scan_result) min_confidence (hard_gate_rules policy) in
  sr_trifecta_present scan_result && negb trif_unwaived.

Definition severity_lost : bool :=
  let '(sev_unwaived, _, _, _) :=
    evaluate_findings (sr_findings scan_result) min_confidence (hard_gate_rules policy) in
  sev_lt sev_unwaived (sr_severity scan_result).

Definition dedup_signal_restored : bool :=
  (trifecta_lost || severity_lost) && negb dedup_collisions_fully_waived.

(** [if dedup_signal_restored: ...]: the severity and trifecta of the effective
    set, with what deduplication lost put back. *)
Definition restore (sev_all : Severity) (trif_all : bool) : Severity * bool :=
  if dedup_signal_restored then
    let trif := if trifecta_lost then true else trif_all in
    let sev := if severity_lost then sev_max sev_all (sr_severity scan_result) else sev_all in
    (uplift trif sev, trif)
  else (sev_all, trif_all).

Definition gate_decide : VerdictResult :=
  let weights := category_weights policy in
  if negb (sr_required_ok scan_result) then
    let verdict := fail_closed_verdict policy in
    mkVerdictResult verdict
      ["fail_closed:required_engine_missing_or_failed:" +:+
       join "," (sr_missing_or_failed_required scan_result)]
      (version policy) (sr_severity scan_result) (sr_trifecta_present scan_result)
      (sr_hard_gate_hits scan_result) true
      (security_score exp64 verdict (sr_findings scan_result) true weights)
  else if negb (bool_decide (combined_hard_gate = ∅)) then
    mkVerdictResult BLOCK
      ["hard_gate_hit:" +:+ join "," (sorted_set combined_hard_gate)]
      (version policy) (sr_severity scan_result) (sr_trifecta_present scan_result)
      (sorted_set combined_hard_gate) false
      (security_score exp64 BLOCK (sr_findings scan_result) true weights)
  else
    let '(sev_all0, conf_all, trif_all0, _) :=
      evaluate_findings effective min_confidence (hard_gate_rules policy) in
    let '(sev_non_llm, conf_non_llm, _, _) :=
      evaluate_findings non_llm_effective min_confidence (hard_gate_rules policy) in
    let '(sev_all, trif_all) := restore sev_all0 trif_all0 in
    let verdict_all := classify sev_all conf_all policy trust_tier in
    let verdict_non_llm := classify sev_non_llm conf_non_llm policy trust_tier in
    let verdict0 := verdict_max verdict_all verdict_non_llm in
    let reasons0 :=
      ["severity_all=" +:+ sev_name sev_all; "severity_non_llm=" +:+ sev_name sev_non_llm] ++
      (if dedup_signal_restored then ["dedup_collision_signal_restored_from_scan_result"] else []) in
    let forced := sr_findings_capped scan_result && bool_decide (verdict0 = PASS) in
    let verdict := if forced then REVIEW else verdict0 in
    let reasons := reasons0 ++ (if forced then ["findings_capped_forces_review"] else []) in
    let pin_to_floor := negb (bool_decide (verdict = PASS)) && bool_decide (effective = []) in
    mkVerdictResult verdict reasons (version policy) sev_all trif_all [] false
      (security_score exp64 verdict effective pin_to_floor weights).
End decide.

(** ** Lemmas *)

(** The components of [evaluate_findings]. *)
Definition sev_of (mc : Q) (l : list Finding) : Severity :=
  uplift (trifecta_of (counted mc l)) (max_severity (counted mc l)).
Definition conf_of (mc : Q) (l : list Finding) : Q :=
  confidence_at (max_severity (counted mc l)) (counted mc l).

Lemma classify_mono s1 s2 c1 c2 p t :
  sev_le s1 s2 = true → (c2 <= c1)%Q → verdict_le (classify s1 c1 p t) (classify s2 c2 p t) = true.
Proof.
  intros Hs Hc. unfold classify.
  destruct (sev_le (block_threshold p t) s1) eqn:E1.
  { by rewrite (sev_le_trans _ _ _ E1 Hs). }
  destruct (sev_le (block_threshold p t) s2); [by repeat case_match|].
  destruct (sev_le (review_on_severity p) s1) eqn:E2.
  { by rewrite (sev_le_trans _ _ _ E2 Hs). }
  destruct (sev_le (review_on_severity p) s2); [by repeat case_match|].
  destruct (sev_le LOW s1) eqn:E3; simpl; [|by repeat case_match].
  rewrite (sev_le_trans _ _ _ E3 Hs); simpl.
  destruct (qlt c1 _) eqn:E4; [|by repeat case_match]. apply qlt_iff in E4.
  by rewrite (proj2 (qlt_iff c2 _)) by lra.
Qed.

Lemma classify_critical c p t : classify CRITICAL c p t = BLOCK.
Proof. unfold classify. by rewrite block_threshold_critical. Qed.

Lemma classify_pass s c p t :
  classify s c p t = PASS →
  sev_le (block_threshold p t) s = false ∧ sev_le (review_on_severity p) s = false.
Proof. unfold classify. repeat case_match; naive_solver. Qed.

Section decide_lemmas.
Context (sr : ScanResult) (p : GatePolicy) (t : TrustTier).
Context (al : list AllowlistEntry) (now mc : Q) (sid : option string).

Local Abbreviation eff := (effective sr p al now sid).
Local Abbreviation restored := (dedup_signal_restored sr p al now mc sid).
Local Abbreviation restore' := (restore sr p al now mc sid).

Definition verdict_adjudicated : Verdict :=
  verdict_max
    (classify (restore' (sev_of mc eff) (trifecta_of (counted mc eff))).1 (conf_of mc eff) p t)
    (classify (sev_of mc (non_llm_effective sr p al now sid))
       (conf_of mc (non_llm_effective sr p al now sid)) p t).

Lemma elem_of_effective f : f ∈ eff ↔ f ∈ sr_findings sr ∧ is_waived sr p al now sid f = false.
Proof. unfold effective. rewrite list_elem_of_filter, Is_true_true, negb_true_iff. tauto. Qed.

Lemma restore_ge s tr : sev_le s (restore' s tr).1 = true.
Proof.
  unfold restore. destruct restored; simpl; [|apply leB_refl; apply _].
  eapply sev_le_trans; [|apply uplift_ge]. destruct severity_lost; [|apply leB_refl; apply _].
  by destruct s, (sr_severity sr).
Qed.

Lemma restore_trifecta s : (restore' s true).1 = if restored then CRITICAL else s.
Proof.
  unfold restore. destruct restored; simpl; [|done]. by destruct trifecta_lost; rewrite uplift_true.
Qed.

Context (exp64 : Q → Q).
Local Abbreviation dec := (gate_decide exp64 sr p t al now mc sid).

(** The three branches of [decide]. *)
Lemma gate_decide_fail_closed :
  sr_required_ok sr = false →
  vr_verdict dec = fail_closed_verdict p ∧ vr_fail_closed dec = true ∧
  vr_effective_severity dec = sr_severity sr.
Proof. intros H. unfold gate_decide. by rewrite H. Qed.

Lemma gate_decide_hard_gate :
  sr_required_ok sr = true → combined_hard_gate sr p ≠ ∅ →
  vr_verdict dec = BLOCK ∧ vr_fail_closed dec = false ∧ vr_effective_severity dec = sr_severity sr.
Proof. intros H1 H2. unfold gate_decide. rewrite H1, bool_decide_false by done. done. Qed.

Lemma gate_decide_adjudicated :
  sr_required_ok sr = true → combined_hard_gate sr p = ∅ →
  vr_verdict dec =
    (if sr_findings_capped sr && bool_decide (verdict_adjudicated = PASS) then REVIEW
     else verdict_adjudicated) ∧
  vr_fail_closed dec = false ∧
  vr_effective_severity dec = (restore' (sev_of mc eff) (trifecta_of (counted mc eff))).1.
Proof.
  intros H1 H2. unfold gate_decide. rewrite H1, bool_decide_true by done. simpl.
  fold (sev_of mc eff) (conf_of mc eff). unfold verdict_adjudicated.
  by destruct (restore' _ _).
Qed.

Lemma gate_decide_fail_closed_iff : vr_fail_closed dec = negb (sr_required_ok sr).
Proof.
  destruct (sr_required_ok sr) eqn:E; [|by destruct gate_decide_fail_closed as (_ & -> & _)].
  destruct (decide (combined_hard_gate sr p = ∅)) as [H|H].
  - by destruct (gate_decide_adjudicated E H) as (_ & -> & _).
  - by destruct (gate_decide_hard_gate E H) as (_ & -> & _).
Qed.

(** Every branch but an uncapped adjudication to PASS refuses PASS. *)
Lemma gate_decide_pass :
  fail_closed_verdict p ≠ PASS → vr_verdict dec = PASS →
  sr_required_ok sr = true ∧ combined_hard_gate sr p = ∅ ∧ sr_findings_capped sr = false ∧
  verdict_adjudicated = PASS.
Proof.
  intros Hfc Hv. destruct (sr_required_ok sr) eqn:E1;
    [|by destruct (gate_decide_fail_closed E1) as (H & _); congruence].
  destruct (decide (combined_hard_gate sr p = ∅)) as [E2|E2];
    [|by destruct (gate_decide_hard_gate E1 E2) as (H & _); congruence].
  destruct (gate_decide_adjudicated E1 E2) as (H & _). rewrite Hv in H.
  destruct (sr_findings_capped sr); simpl in H; [by case_bool_decide|done].
Qed.

(** The verdict is at least what the adjudication of the effective findings
    says, in every branch but the fail-closed one. *)
Lemma gate_decide_ge v :
  sr_required_ok sr = true → verdict_le v verdict_adjudicated = true →
  verdict_le v (vr_verdict dec) = true.
Proof.
  intros H1 Hv. destruct (decide (combined_hard_gate sr p = ∅)) as [H|H].
  - destruct (gate_decide_adjudicated H1 H) as (-> & _).
    destruct (sr_findings_capped sr); simpl; [|done].
    case_bool_decide as E; [|done]. rewrite E in Hv. by destruct v.
  - destruct (gate_decide_hard_gate H1 H) as (-> & _). by destruct v.
Qed.
End decide_lemmas.

(** An active allowlist entry names the rule [r]. *)
Definition active_waiver (al : list AllowlistEntry) (now : Q) (ch : string) (sid : option string)
    (r : string) : bool :=
  existsb (λ e, String.eqb (ae_rule_id e) r && is_active e now ch sid) al.

Lemma is_waived_spec sr p al now sid f :
  is_waived sr p al now sid f = true ↔
  (rule_id f ∉ hard_gate_rules p) ∧
  sev_le (severity f) (allowlistable_max_severity p) = true ∧
  active_waiver al now (sr_content_hash sr) sid (rule_id f) = true.
Proof.
  unfold is_waived, active_waiver, waives, entry_active.
  case_bool_decide; [split; [done|by intros (? & _)]|].
  rewrite sev_lt_le. destruct (sev_le _ _); simpl; [naive_solver|].
  split; [done|by intros (_ & ? & _)].
Qed.

Lemma not_waived sr p al now sid f :
  active_waiver al now (sr_content_hash sr) sid (rule_id f) = false →
  is_waived sr p al now sid f = false.
Proof. intros H. apply not_true_iff_false. rewrite is_waived_spec. intros (_ & _ & ?). congruence. Qed.

Lemma collisions_not_waived sr p al now sid :
  (∀ r, r ∈ sr_dedup_collision_rule_ids sr → active_waiver al now (sr_content_hash sr) sid r = false) →
  dedup_collisions_fully_waived sr p al now sid = false.
Proof.
  intros H. unfold dedup_collisions_fully_waived. case_bool_decide as E; [done|].
  apply set_choose_L in E as [r Hr]. apply forallb_false. exists r.
  split; [by apply elem_of_elements|]. unfold rule_id_actively_waived.
  case_bool_decide; [done|]. by apply H.
Qed.

Section end_to_end.
Context (exp64 : Q → Q) (ch : string) (rs : list EngineResult) (p : GatePolicy) (t : TrustTier).
Context (al : list AllowlistEntry) (now mc : Q) (mf : nat) (sid : option string) (sr : ScanResult).
Context (Hagg : aggregate ch rs p mc mf = Ok sr).

Lemma aggregated_collision r :
  r ∈ sr_dedup_collision_rule_ids sr → ∃ f, f ∈ all_findings rs ∧ rule_id f = r.
Proof.
  apply aggregate_Ok in Hagg as Ha. pose proof (ag_dedup _ _ _ _ _ _ Ha) as Hd.
  apply dedup_Ok in Hd as (-> & _ & _). intros Hr.
  destruct (di_coll _ _ _ (dedup_run_inv _) _ Hr) as (f & Hf & <-).
  exists f. split; [by eapply capped_subset|done].
Qed.

Lemma aggregated_subset : sr_findings sr ⊆ all_findings rs.
Proof.
  apply aggregate_Ok in Hagg as Ha. pose proof (ag_dedup _ _ _ _ _ _ Ha) as Hd.
  etrans; [by eapply dedup_subset|apply capped_subset].
Qed.

Lemma aggregated_combined_hard_gate :
  combined_hard_gate sr p = hard_hits (hard_gate_rules p) (all_findings rs).
Proof.
  apply aggregate_Ok in Hagg as Ha. unfold combined_hard_gate. rewrite (ag_hard _ _ _ _ _ _ Ha).
  apply set_eq. intros r. rewrite elem_of_union, elem_of_list_to_set, elem_of_sorted_set.
  split; [|by left]. intros [?|H]; [done|]. eapply hard_hits_mono; [apply aggregated_subset|done].
Qed.

(** No waiver in sight: the whole recorded trifecta reaches the verdict. *)
Lemma trifecta_blocks_aux mc' :
  (∀ f, f ∈ all_findings rs → active_waiver al now ch sid (rule_id f) = false) →
  sr_trifecta_present sr = true →
  (restore sr p al now mc' sid (sev_of mc' (effective sr p al now sid))
     (trifecta_of (counted mc' (effective sr p al now sid)))).1 = CRITICAL.
Proof.
  intros Hnw Htr. pose proof (aggregate_Ok _ _ _ _ _ _ Hagg) as Ha.
  pose proof (ag_hash _ _ _ _ _ _ Ha) as Hch.
  assert (Heff : effective sr p al now sid = sr_findings sr).
  { unfold effective. apply filterb_id. intros f Hf. apply negb_true_iff, not_waived.
    rewrite Hch. by apply Hnw, aggregated_subset. }
  destruct (trifecta_of (counted mc' (sr_findings sr))) eqn:Et.
  - rewrite Heff, Et. unfold sev_of. rewrite Et, uplift_true, restore_trifecta. by destruct (dedup_signal_restored _ _ _ _ _ _).
  - assert (Hl : trifecta_lost sr p mc' = true).
    { unfold trifecta_lost. cbn. by rewrite Htr, Et. }
    unfold restore, dedup_signal_restored. rewrite Hl. cbn.
    rewrite collisions_not_waived; [by rewrite uplift_true|].
    intros r Hr. rewrite Hch. destruct (aggregated_collision r Hr) as (f & Hf & <-). by apply Hnw.
Qed.
End end_to_end.

(** ** Sample scans

    Concrete engine results and a policy, for the evaluated examples and the
    witnesses of the theorems. *)
Module Samples.

(** A step function in place of C's [exp]: 1 at and above 0, 0 below. *)
Definition exp_step (q : Q) : Q := if qle 0 q then 1%Q else 0%Q.

Definition finding (rule : string) (sev : Severity) (conf : Q) (llm : bool)
    (sig : gset TrifectaSignal) (path : option string) : Finding :=
  mkFinding rule "GEN-01" CODE "t" sev conf "engine" (if llm then SEMANTIC_LLM else STATIC)
    sig path None None "".

Definition engine (name : string) (status : EngineStatus) (fs : list Finding) : EngineResult :=
  mkEngineResult (mkEngineMetadata name "1" "d" [STATIC] false false true) fs status MODE_STATIC
    false None.

Definition policy : GatePolicy :=
  mkGatePolicy "v1" {["floor"]} {["hard"]} (6#10) CRITICAL HIGH [(PUBLIC, HIGH)] HIGH BLOCK
    CategoryWeights_default.

Definition waiver (rule : string) : AllowlistEntry :=
  mkAllowlistEntry "rule_global" "" rule (Fin 100) "alice" "bob" "".

Definition scan (rs : list EngineResult) (cap : nat) : result TypeError ScanResult :=
  aggregate "h" rs policy 0 cap.

Definition scanned (rs : list EngineResult) (cap : nat) : ScanResult :=
  match scan rs cap with
  | Ok sr => sr
  | Err _ => mkScanResult "" NONE 0 false [] [] [] false false [] 0 ∅
  end.

Definition verdict (rs : list EngineResult) (cap : nat) (t : TrustTier) (al : list AllowlistEntry)
    : Verdict := vr_verdict (gate_decide exp_step (scanned rs cap) policy t al 0 0 None).

Lemma policy_ok : GatePolicy_ok policy.
Proof.
  split_and!; try done. intros t s Hts. apply list_elem_of_singleton in Hts. by inversion Hts.
Qed.

(** A clean scan passes, a HIGH finding is reviewed internally and blocks for the
    public tier, a missing floor engine fails closed. *)
Example sample_verdicts :
  verdict [engine "floor" OK []] 5000 INTERNAL [] = PASS ∧
  verdict [engine "floor" OK [finding "r" HIGH (9#10) false ∅ None]] 5000 INTERNAL [] = REVIEW ∧
  verdict [engine "floor" OK [finding "r" HIGH (9#10) false ∅ None]] 5000 PUBLIC [] = BLOCK ∧
  verdict [engine "floor" OK [finding "r" HIGH (9#10) false ∅ None]] 5000 PUBLIC [waiver "r"] = PASS ∧
  verdict [engine "floor" TIMEOUT []] 5000 INTERNAL [] = BLOCK ∧
  verdict [engine "floor" OK [finding "hard" LOW (9#10) false ∅ None]] 5000 INTERNAL [waiver "hard"] = BLOCK.
Proof. vm_compute. tauto. Qed.
End Samples.

(** ** Witnesses for the properties of [scoring.py] *)

Module ScoringSamples.
Import Samples.

Lemma exp_step_mono x y : (x <= y)%Q → (exp_step x <= exp_step y)%Q.
Proof.
  intros Hxy. unfold exp_step. destruct (qle 0 x) eqn:E, (qle 0 y) eqn:E'; try by apply Qle_bool_iff.
  apply qle_iff in E. apply qle_false in E'. exfalso.
  apply (Qlt_not_le y 0 E'). eapply Qle_trans; eauto.
Qed.

Lemma exp_step_zero x : (x == 0)%Q → (exp_step x == 1)%Q.
Proof.
  intros Hx. unfold exp_step. destruct (qle 0 x) eqn:E; [reflexivity|]. exfalso.
  apply qle_false in E. apply (Qlt_not_eq _ _ E). exact Hx.
Qed.

Definition weak : Finding := finding "r" LOW (5#10) false ∅ None.
Definition strong : Finding := finding "r" HIGH (9#10) false ∅ None.
Definition mixed : list EngineResult := [engine "floor" OK [weak; strong]].

Lemma aggregate_severity_full_witness : sr_severity (scanned mixed 1) = HIGH.
Proof.
  rewrite (aggregate_severity_full "h" mixed policy 1 (scanned mixed 1)).
  - vm_compute. reflexivity.
  - repeat constructor; vm_compute; done.
  - lia.
  - vm_compute. reflexivity.
Defined.

Lemma dedup_sound_witness : ∃ g, g ∈ [strong] ∧ rank_le (rank weak) (rank g) = true.
Proof.
  destruct (dedup_sound [weak; strong] [strong] {["r"]}) as (_ & _ & H & _); [vm_compute; reflexivity|].
  destruct (H weak) as (g & Hg & _ & _ & Hr); [left|]. by exists g.
Defined.

Lemma score_single_antitone_witness :
  security_score exp_step REVIEW [strong] false CategoryWeights_default
  ≤ security_score exp_step REVIEW [weak] false CategoryWeights_default.
Proof.
  apply (score_single_antitone exp_step exp_step_mono);
    [by intros []|split_and!; done|reflexivity|reflexivity|by apply Qle_bool_iff].
Defined.

Lemma score_extremes_witness :
  security_score exp_step PASS [] false CategoryWeights_default = 100 ∧
  security_score exp_step BLOCK [strong] true CategoryWeights_default = 0.
Proof. apply (score_extremes exp_step exp_step_zero BLOCK). Defined.
End ScoringSamples.
