(* ===== verification/GateSafety.v ===== *)
(** * The kernel's security invariants, end to end

    Each property runs [aggregate] on arbitrary engine results and [gate_decide]
    on what it returns, as [orchestration.service] and [gate.service] do, and
    states one of the invariants the sources name INV-1 to INV-5 and INV-8.  The
    closing section holds the concrete scans that witness the hypotheses. *)

From S2P Require Import Prelude Float64 Models Scoring Gate.
From Stdlib Require Import QArith Lqa ZArith Lia.
Local Open Scope Z_scope.

Section invariants.
Context (exp64 : Q → Q) (ch : string) (rs : list EngineResult) (p : GatePolicy) (t : TrustTier).
Context (al : list AllowlistEntry) (now mc mc' : Q) (mf : nat) (sid : option string).
Context (sr : ScanResult).

Local Abbreviation dec := (gate_decide exp64 sr p t al now mc' sid).

(** C2: INV-1, end to end.  The verdict is marked fail-closed exactly when some
    required engine has no usable result (missing, ERROR, TIMEOUT, or refused for
    needing the network), and then it is the policy's fail-closed verdict, never
    PASS, and scores the floor of its band. *)
Theorem fail_closed_end_to_end :
  GatePolicy_ok p → aggregate ch rs p mc mf = Ok sr →
  (vr_fail_closed dec = true ↔
   ∃ e, e ∈ required_engines p ∧
        ∀ r, r ∈ rs → em_name (er_engine r) = e →
             usable r = false ∨ em_requires_network (er_engine r) = true) ∧
  (vr_fail_closed dec = true →
   vr_verdict dec = fail_closed_verdict p ∧ vr_verdict dec ≠ PASS ∧
   vr_score dec = (SCORE_BAND (vr_verdict dec)).1).
Proof.
  intros (_ & _ & _ & _ & _ & Hfc & _) Hagg. pose proof (aggregate_Ok _ _ _ _ _ _ Hagg) as Ha.
  rewrite gate_decide_fail_closed_iff, negb_true_iff. split.
  - rewrite (ag_required _ _ _ _ _ _ Ha), bool_decide_eq_false.
    change (¬ missing_or_failed rs p = []) with (missing_or_failed rs p ≠ []). rewrite missing_some.
    apply exist_proper; intros e. apply and_iff_compat_l. rewrite elem_of_present. split.
    + intros Hn r Hr <-. destruct (usable r) eqn:Eu; [right|by left].
      destruct (em_requires_network (er_engine r)) eqn:En; [done|]. destruct Hn.
      exists r. by rewrite elem_of_usable_results.
    + intros Hall (r & (Hr & Hn & Hu)%elem_of_usable_results & <-).
      destruct (Hall r Hr eq_refl); congruence.
  - intros H. destruct (gate_decide_fail_closed sr p t al now mc' sid exp64 H) as (E & _ & _).
    rewrite E. split_and!; [done|done|]. rewrite <-E. unfold gate_decide. rewrite H. simpl.
    by destruct (fail_closed_verdict p).
Qed.

(** A usable engine's finding under a hard gate reaches the gate. *)
Lemma hard_gate_combined r f :
  aggregate ch rs p mc mf = Ok sr → r ∈ rs → usable r = true → em_requires_network (er_engine r) = false →
  f ∈ er_findings r → rule_id f ∈ hard_gate_rules p → combined_hard_gate sr p ≠ ∅.
Proof.
  intros Hagg Hr Hu Hn Hf Hrule. rewrite (aggregated_combined_hard_gate _ _ _ _ _ _ Hagg). intros E.
  assert (Hin : rule_id f ∈ hard_hits (hard_gate_rules p) (all_findings rs)); [|by rewrite E in Hin].
  apply elem_of_hard_hits. split; [done|]. exists f. rewrite elem_of_all_findings. split; [|done].
  exists r. by rewrite elem_of_usable_results.
Qed.

(** What a verdict of BLOCK comes to once the required engines are looked at. *)
Definition blocked_or_closed : Verdict :=
  if decide (required_engines p ⊆ present_and_usable rs) then BLOCK else fail_closed_verdict p.

Lemma blocked_or_closed_spec :
  aggregate ch rs p mc mf = Ok sr → blocked_or_closed = if sr_required_ok sr then BLOCK else fail_closed_verdict p.
Proof.
  intros Hagg. rewrite (ag_required _ _ _ _ _ _ (aggregate_Ok _ _ _ _ _ _ Hagg)). unfold blocked_or_closed.
  case_decide as H; [rewrite bool_decide_true by by apply missing_iff|rewrite bool_decide_false by by rewrite missing_iff]; done.
Qed.

Lemma blocked_never_passes : GatePolicy_ok p → blocked_or_closed ≠ PASS.
Proof. intros (_ & _ & _ & _ & _ & Hfc & _). unfold blocked_or_closed. by case_decide. Qed.

Lemma combined_hard_gate_blocks :
  combined_hard_gate sr p ≠ ∅ → vr_verdict dec = if sr_required_ok sr then BLOCK else fail_closed_verdict p.
Proof.
  intros Hc. destruct (sr_required_ok sr) eqn:E.
  - destruct (gate_decide_hard_gate sr p t al now mc' sid exp64 E Hc) as (-> & _). done.
  - destruct (gate_decide_fail_closed sr p t al now mc' sid exp64 E) as (-> & _). done.
Qed.

Lemma blocked_unless_closed :
  GatePolicy_ok p → vr_verdict dec = (if sr_required_ok sr then BLOCK else fail_closed_verdict p) →
  vr_verdict dec ≠ PASS ∧ (sr_required_ok sr = true → vr_verdict dec = BLOCK).
Proof. intros (_ & _ & _ & _ & _ & Hfc & _) ->. by destruct (sr_required_ok sr). Qed.

(** C1: INV-3, end to end.  Suppose aggregation accepts the engines' results under a valid
    policy, and a usable engine that does not require the network reports a finding whose
    rule is a hard gate of the policy.  Then the verdict is BLOCK when every required engine
    reported usably, and the policy's fail-closed verdict otherwise; it is PASS in neither
    case, whatever the tier, the allowlist, the two confidence thresholds, the flood cap
    and deduplication. *)
Theorem hard_gate_unwaivable r f :
  GatePolicy_ok p → aggregate ch rs p mc mf = Ok sr →
  r ∈ rs → usable r = true → em_requires_network (er_engine r) = false →
  f ∈ er_findings r → rule_id f ∈ hard_gate_rules p →
  vr_verdict dec = (if decide (required_engines p ⊆ present_and_usable rs) then BLOCK else fail_closed_verdict p) ∧
  vr_verdict dec ≠ PASS.
Proof.
  intros Hp Hagg Hr Hu Hn Hf Hrule. assert (E : vr_verdict dec = blocked_or_closed).
  { rewrite (blocked_or_closed_spec Hagg). eapply combined_hard_gate_blocks, hard_gate_combined; eauto. }
  split; [exact E|]. rewrite E. by apply blocked_never_passes.
Qed.

(** C4: INV-5, end to end.  When the engines report more findings than the cap, the
    verdict is never PASS, whatever the policy, tier, allowlist and thresholds. *)
Theorem flood_never_passes :
  GatePolicy_ok p → aggregate ch rs p mc mf = Ok sr →
  (mf < length (all_findings rs))%nat → vr_verdict dec ≠ PASS.
Proof.
  intros (_ & _ & _ & _ & _ & Hfc & _) Hagg Hlen. pose proof (aggregate_Ok _ _ _ _ _ _ Hagg) as Ha.
  pose proof (ag_capped _ _ _ _ _ _ Ha) as Hcap. rewrite bool_decide_true in Hcap by done.
  intros Hpass. apply gate_decide_pass in Hpass as (_ & _ & Hc & _); [congruence|done].
Qed.

(** The verdict once the trifecta is present and nothing of the scan is waived. *)
Lemma trifecta_verdict :
  aggregate ch rs p mc mf = Ok sr →
  (∀ f, f ∈ all_findings rs → active_waiver al now ch sid (rule_id f) = false) →
  sr_trifecta_present sr = true →
  vr_effective_severity dec = CRITICAL ∧ vr_verdict dec = if sr_required_ok sr then BLOCK else fail_closed_verdict p.
Proof.
  intros Hagg Hnw Htr. pose proof (aggregate_Ok _ _ _ _ _ _ Hagg) as Ha.
  assert (Hsev : sr_severity sr = CRITICAL).
  { by rewrite (ag_severity _ _ _ _ _ _ Ha), Htr, uplift_true. }
  destruct (sr_required_ok sr) eqn:E;
    [|by destruct (gate_decide_fail_closed sr p t al now mc' sid exp64 E) as (-> & _ & ->)].
  destruct (decide (combined_hard_gate sr p = ∅)) as [H|H];
    [|by destruct (gate_decide_hard_gate sr p t al now mc' sid exp64 E H) as (-> & _ & ->)].
  destruct (gate_decide_adjudicated sr p t al now mc' sid exp64 E H) as (-> & _ & ->).
  pose proof (trifecta_blocks_aux ch rs p al now mc mf sid sr Hagg mc' Hnw Htr) as Hres.
  unfold verdict_adjudicated. rewrite Hres, classify_critical.
  destruct (classify _ _ _ _), (sr_findings_capped sr); done.
Qed.

(** C6: INV-4, end to end.  Suppose aggregation accepts the engines' results under a valid
    policy, the three trifecta signals occur together among the findings of the usable
    engines that reach the confidence threshold (before the cap and before deduplication),
    and no active waiver names a rule of the scan.  Then the effective severity is CRITICAL,
    and the verdict is BLOCK at every tier when every required engine reported usably and
    the policy's fail-closed verdict otherwise; it is PASS in neither case. *)
Theorem trifecta_blocks :
  GatePolicy_ok p → aggregate ch rs p mc mf = Ok sr →
  (∀ f, f ∈ all_findings rs → active_waiver al now ch sid (rule_id f) = false) →
  ALL_TRIFECTA_SIGNALS ⊆ signals (counted mc (all_findings rs)) →
  vr_effective_severity dec = CRITICAL ∧
  vr_verdict dec = (if decide (required_engines p ⊆ present_and_usable rs) then BLOCK else fail_closed_verdict p) ∧
  vr_verdict dec ≠ PASS.
Proof.
  intros Hp Hagg Hnw Htri. destruct (trifecta_verdict Hagg Hnw) as [Hs Hv].
  { rewrite (ag_trifecta _ _ _ _ _ _ (aggregate_Ok _ _ _ _ _ _ Hagg)). by apply bool_decide_eq_true. }
  rewrite <- (blocked_or_closed_spec Hagg) in Hv. split_and!; [exact Hs|exact Hv|]. rewrite Hv. by apply blocked_never_passes.
Qed.

(** A finding that is not waived is below both thresholds when the scan passes. *)
Lemma passed_finding_below f :
  GatePolicy_ok p → Forall Finding_ok (all_findings rs) → aggregate ch rs p 0 mf = Ok sr →
  vr_verdict (gate_decide exp64 sr p t al now 0 sid) = PASS →
  f ∈ all_findings rs → active_waiver al now ch sid (rule_id f) = false →
  sev_le (block_threshold p t) (severity f) = false ∧ sev_le (review_on_severity p) (severity f) = false.
Proof.
  intros (_ & _ & _ & _ & _ & Hfc & _) Hok Hagg Hpass Hf Hnw.
  pose proof (aggregate_Ok _ _ _ _ _ _ Hagg) as Ha.
  apply gate_decide_pass in Hpass as (_ & _ & Hcap & Hv); [|done].
  rewrite (ag_capped _ _ _ _ _ _ Ha), bool_decide_eq_false in Hcap.
  pose proof (ag_dedup _ _ _ _ _ _ Ha) as Hd. rewrite capped_id in Hd by lia.
  destruct (dedup_represented _ _ _ Hd f Hf) as (g & Hg & Hk & Hr).
  assert (Hge : g ∈ effective sr p al now sid).
  { apply elem_of_effective. split; [done|]. apply not_waived.
    by rewrite (ag_hash _ _ _ _ _ _ Ha), (part_key_rule _ _ Hk). }
  set (e := effective sr p al now sid) in *.
  assert (Hcl : classify (restore sr p al now 0 sid (sev_of 0 e) (trifecta_of (counted 0 e))).1
                  (conf_of 0 e) p t = PASS).
  { unfold verdict_adjudicated in Hv. fold e in Hv. by destruct (classify _ _ _ _), (classify _ _ _ _). }
  apply classify_pass in Hcl as [Hb Hrv].
  assert (Hs : sev_le (severity f) (restore sr p al now 0 sid (sev_of 0 e) (trifecta_of (counted 0 e))).1 = true).
  { eapply sev_le_trans; [by apply rank_le_severity|]. eapply sev_le_trans; [|apply restore_ge].
    unfold sev_of. eapply sev_le_trans; [|apply uplift_ge]. apply max_severity_ub.
    rewrite counted_zero; [done|]. rewrite Forall_forall in Hok |- *. intros x Hx. apply Hok.
    apply (aggregated_subset _ _ _ _ _ _ Hagg). by apply elem_of_effective in Hx as [? _]. }
  split; apply not_true_iff_false; intros Hle.
  - rewrite (sev_le_trans _ _ _ Hle Hs) in Hb. done.
  - rewrite (sev_le_trans _ _ _ Hle Hs) in Hrv. done.
Qed.

(** C7: What a PASS certifies, when aggregation accepts the engines' results under a valid
    policy at the production threshold ([min_confidence = 0]): every required engine
    reported usably, also when nothing was found; the findings did not exceed the cap; and
    no finding of a usable engine is under a hard gate, and each one that no active waiver
    names is below the tier's block threshold and below the review threshold. *)
Theorem pass_certificate :
  GatePolicy_ok p → Forall Finding_ok (all_findings rs) → aggregate ch rs p 0 mf = Ok sr →
  vr_verdict (gate_decide exp64 sr p t al now 0 sid) = PASS →
  (∀ e, e ∈ required_engines p →
     ∃ r, r ∈ rs ∧ em_name (er_engine r) = e ∧ usable r = true ∧ em_requires_network (er_engine r) = false) ∧
  (length (all_findings rs) ≤ mf)%nat ∧
  ∀ f, f ∈ all_findings rs →
    (rule_id f ∉ hard_gate_rules p) ∧
    (active_waiver al now ch sid (rule_id f) = false →
     sev_le (block_threshold p t) (severity f) = false ∧
     sev_le (review_on_severity p) (severity f) = false).
Proof.
  intros Hp Hok Hagg Hpass. pose proof (aggregate_Ok _ _ _ _ _ _ Hagg) as Ha.
  pose proof (λ f, passed_finding_below f Hp Hok Hagg Hpass) as Hbelow. destruct Hp as (_ & _ & _ & _ & _ & Hfc & _).
  apply gate_decide_pass in Hpass as (E & H & Hcap & _); [|done].
  rewrite (ag_capped _ _ _ _ _ _ Ha), bool_decide_eq_false in Hcap.
  rewrite (ag_required _ _ _ _ _ _ Ha) in E. split_and!.
  - apply bool_decide_eq_true, missing_iff in E. intros e He.
    apply E, elem_of_present in He as (r & (? & ? & ?)%elem_of_usable_results & <-). by exists r.
  - lia.
  - intros f Hf. split; [|by apply Hbelow]. intros Hr. rewrite (aggregated_combined_hard_gate _ _ _ _ _ _ Hagg) in H.
    assert (Hin : rule_id f ∈ hard_hits (hard_gate_rules p) (all_findings rs))
      by (apply elem_of_hard_hits; eauto). rewrite H in Hin. set_solver.
Qed.
End invariants.

(** ** Waivers and the recorded score *)

Section waivers.
Context (exp64 : Q → Q) (sr : ScanResult) (p : GatePolicy) (t : TrustTier).
Context (al : list AllowlistEntry) (now mc : Q) (sid : option string).

Local Abbreviation active := (λ e, is_active e now (sr_content_hash sr) sid).

Lemma existsb_active (q : AllowlistEntry → bool) :
  existsb (λ e, q e && active e) (base.filter active al) = existsb (λ e, q e && active e) al.
Proof.
  apply eq_true_iff_eq. rewrite !existsb_true. setoid_rewrite elem_of_filterb.
  split; intros (e & He & H); exists e; [tauto|].
  split; [|done]. apply andb_true_iff in H as [_ H]. done.
Qed.

Lemma is_waived_active f :
  is_waived sr p (base.filter active al) now sid f = is_waived sr p al now sid f.
Proof. unfold is_waived, entry_active. by rewrite existsb_active. Qed.

Lemma effective_active :
  effective sr p (base.filter active al) now sid = effective sr p al now sid.
Proof. unfold effective. apply list_filter_iff. intros f. by rewrite is_waived_active. Qed.

Lemma restored_active :
  dedup_signal_restored sr p (base.filter active al) now mc sid =
  dedup_signal_restored sr p al now mc sid.
Proof.
  unfold dedup_signal_restored, dedup_collisions_fully_waived. do 2 f_equal.
  case_bool_decide; [done|]. apply eq_true_iff_eq. rewrite !forallb_true.
  unfold rule_id_actively_waived, entry_active. by setoid_rewrite existsb_active.
Qed.

Lemma gate_decide_active :
  gate_decide exp64 sr p t al now mc sid =
  gate_decide exp64 sr p t (base.filter active al) now mc sid.
Proof.
  unfold gate_decide, non_llm_effective, restore. by rewrite !effective_active, !restored_active.
Qed.

(** C8: INV-8.  An entry that has expired at [now], or whose scope is another package
    or skill, changes nothing of the decision; and a finding leaves the scored set
    only for an entry that names its rule, is unexpired and in scope, while the
    rule is no hard gate and the severity is within the policy's waivable limit. *)
Theorem waivers_are_limited :
  gate_decide exp64 sr p t al now mc sid =
  gate_decide exp64 sr p t (base.filter active al) now mc sid ∧
  (∀ f, f ∈ sr_findings sr → (f ∉ effective sr p al now sid) →
     (rule_id f ∉ hard_gate_rules p) ∧
     sev_le (severity f) (allowlistable_max_severity p) = true ∧
     ∃ e, e ∈ al ∧ ae_rule_id e = rule_id f ∧ fle (ae_expires_at e) (Fin now) = false ∧
          (ae_scope_type e = "content_hash" → ae_scope_value e = sr_content_hash sr) ∧
          (ae_scope_type e = "skill_id" → Some (ae_scope_value e) = sid)).
Proof.
  split.
  - apply gate_decide_active.
  - intros f Hf Hn.
    assert (Hw : is_waived sr p al now sid f = true).
    { destruct (is_waived _ _ _ _ _ _) eqn:E; [done|]. destruct Hn. by apply elem_of_effective. }
    apply is_waived_spec in Hw as (Hh & Hs & Hw). split; [done|]. split; [done|].
    apply existsb_true in Hw as (e & He & [Hr%String.eqb_eq Ha]%andb_true_iff).
    exists e. unfold is_active in Ha. destruct (fle _ _); [done|]. split_and!; try done.
    + intros E. rewrite E in Ha. by apply String.eqb_eq in Ha.
    + intros E. rewrite E in Ha. simpl in Ha. destruct sid; [|done]. by apply String.eqb_eq in Ha as ->.
Qed.

(** The recorded score is always in the recorded verdict's band, and a verdict
    other than PASS that has nothing left to score (fail-closed, hard gate, or
    every visible finding waived) records exactly the floor of its band. *)
Theorem decision_score_consistent :
  let vr := gate_decide exp64 sr p t al now mc sid in
  ((SCORE_BAND (vr_verdict vr)).1 ≤ vr_score vr ≤ (SCORE_BAND (vr_verdict vr)).2) ∧
  (vr_verdict vr ≠ PASS →
   sr_required_ok sr = false ∨ combined_hard_gate sr p ≠ ∅ ∨ effective sr p al now sid = [] →
   vr_score vr = (SCORE_BAND (vr_verdict vr)).1).
Proof.
  cbn zeta. unfold gate_decide.
  destruct (sr_required_ok sr) eqn:E; simpl.
  2: { split; [apply security_score_in_band|]. intros _ _. by destruct (fail_closed_verdict p). }
  case_bool_decide as Hc; simpl.
  2: { split; [apply (security_score_in_band exp64 BLOCK)|done]. }
  destruct (restore _ _ _ _ _ _ _ _) as [s tr]. simpl. split; [apply security_score_in_band|].
  intros Hv Hcase.
  assert (He : effective sr p al now sid = []) by (destruct Hcase as [?|[?|?]]; [discriminate|contradiction|done]).
  match goal with H : ?v ≠ PASS |- _ => set (w := v) in *; clearbody w end.
  rewrite (bool_decide_false (w = PASS)), He by done. by destruct w.
Qed.
End waivers.

(** ** Witnesses *)

Module SafetySamples.
Import Samples.

Definition no_floor : list EngineResult := [engine "floor" TIMEOUT []; engine "other" OK []].

Lemma fail_closed_end_to_end_witness :
  vr_verdict (gate_decide exp_step (scanned no_floor 5000) policy PUBLIC [] 0 0 None) ≠ PASS.
Proof.
  apply (fail_closed_end_to_end exp_step "h" no_floor policy PUBLIC [] 0 0 0 5000 None
           (scanned no_floor 5000) policy_ok); vm_compute; reflexivity.
Defined.

Definition hard_scan : list EngineResult :=
  [engine "floor" OK [finding "hard" LOW (1#10) false ∅ None]].

Lemma hard_gate_unwaivable_witness :
  vr_verdict (gate_decide exp_step (scanned hard_scan 5000) policy INTERNAL [waiver "hard"] 0 (5#10) None)
  ≠ PASS.
Proof.
  apply (hard_gate_unwaivable exp_step "h" hard_scan policy INTERNAL [waiver "hard"] 0 0 (5#10) 5000
           None (scanned hard_scan 5000)
           (engine "floor" OK [finding "hard" LOW (1#10) false ∅ None])
           (finding "hard" LOW (1#10) false ∅ None) policy_ok);
    [vm_compute; reflexivity|left|reflexivity|reflexivity|left|]. vm_compute. reflexivity.
Defined.

Definition flood : list EngineResult :=
  [engine "floor" OK [finding "a" LOW (9#10) false ∅ None; finding "b" LOW (9#10) false ∅ None]].

Lemma flood_never_passes_witness :
  vr_verdict (gate_decide exp_step (scanned flood 1) policy INTERNAL [waiver "a"] 0 0 None) ≠ PASS.
Proof.
  apply (flood_never_passes exp_step "h" flood policy INTERNAL [waiver "a"] 0 0 0 1 None
           (scanned flood 1) policy_ok); [vm_compute; reflexivity|].
  apply Nat.ltb_lt. vm_compute. reflexivity.
Defined.

Definition trifecta_scan : list EngineResult :=
  [engine "floor" OK
     [finding "a" LOW (9#10) false {[PRIVATE_DATA_ACCESS]} None;
      finding "b" LOW (9#10) false {[UNTRUSTED_INPUT; EXTERNAL_EGRESS]} None]].

Lemma trifecta_blocks_witness :
  vr_verdict (gate_decide exp_step (scanned trifecta_scan 1) policy INTERNAL [waiver "z"] 0 0 None)
  = BLOCK.
Proof.
  apply (trifecta_blocks exp_step "h" trifecta_scan policy INTERNAL [waiver "z"] 0 0 0 1 None
           (scanned trifecta_scan 1) policy_ok).
  - vm_compute. reflexivity.
  - apply Forall_forall. vm_compute. repeat constructor.
  - intros []; vm_compute; done.
Defined.

Definition mild_scan : list EngineResult :=
  [engine "floor" OK [finding "a" MEDIUM (9#10) false ∅ None]].

Lemma pass_certificate_witness :
  sev_le (review_on_severity policy) MEDIUM = false.
Proof.
  destruct (pass_certificate exp_step "h" mild_scan policy PUBLIC [] 0 5000 None (scanned mild_scan 5000) policy_ok)
    as (_ & _ & H).
  - constructor; [|constructor]. split_and!; done.
  - vm_compute. reflexivity.
  - vm_compute. reflexivity.
  - apply (H (finding "a" MEDIUM (9#10) false ∅ None)); [left|reflexivity].
Defined.
End SafetySamples.
