(* ===== verification/GateLLM.v ===== *)
(** * INV-2: findings of LLM engines only escalate

    The comparison is between a scan and the same scan with one more engine
    result, all of whose findings are LLM-sourced.  Deduplication partitions by
    provenance and sorting is stable, so the deterministic part of the bigger scan
    is the smaller scan, list for list; [gate_decide] then takes the stricter of
    the full set and that part.  The second half of the file shows the one place
    where the argument needs waivers to stay away: a scan on which a waived finding
    hides that deduplication lost a trifecta signal. *)

From S2P Require Import Prelude Float64 Models Scoring Gate.
From Stdlib Require Import QArith Lqa ZArith Lia.
Local Open Scope Z_scope.

(** ** The order on dedup keys *)

#[export] Instance opt_le_total {A} (le : A → A → bool) : TotalPreB le → TotalPreB (opt_le le).
Proof.
  intros H. split.
  - intros [x|] [y|]; simpl; try done. apply leB_total.
  - intros [x|] [y|] [z|]; simpl; try done. apply leB_trans.
Qed.

#[export] Instance opt_le_antisym {A} (le : A → A → bool) : AntisymB le → AntisymB (opt_le le).
Proof. intros H [x|] [y|]; simpl; try done. intros ? ?. f_equal. by apply H. Qed.

#[export] Instance implb_total : TotalPreB implb.
Proof. split; [by intros [] []|by intros [] [] []]. Qed.
#[export] Instance implb_antisym : AntisymB implb.
Proof. by intros [] []. Qed.

#[export] Instance category_le_antisym : AntisymB (le_key str_le category_value).
Proof. intros x y H1 H2. pose proof (str_le_antisym _ _ H1 H2) as E. by destruct x, y. Qed.

#[export] Instance key_le_total : TotalPreB key_le.
Proof. unfold key_le. apply _. Qed.
#[export] Instance key_le_antisym : AntisymB key_le.
Proof. unfold key_le. apply _. Qed.

(** ** Deduplication treats the two provenance classes separately *)

Lemma dedup_run_class l (k : PartKey) :
  (dedup_run l).1 !! k = (dedup_run (base.filter (λ f, eqb (is_llm_sourced f) k.2) l)).1 !! k.
Proof.
  induction l as [|f l IH] using rev_ind; [done|].
  rewrite filter_app, dedup_run_snoc, filter_cons, filter_nil.
  destruct (dedup_run l) as [best coll]. simpl in IH.
  destruct (eqb (is_llm_sourced f) k.2) eqn:Eb.
  - rewrite decide_True by done. rewrite dedup_run_snoc.
    destruct (dedup_run (base.filter _ l)) as [best' coll']; simpl in *.
    destruct (decide (part_key f = k)) as [->|Hne].
    + rewrite IH. destruct (best' !! k) as [cur|] eqn:Ec; simpl.
      * destruct (rank_gt f cur); simpl; [by rewrite !lookup_insert_eq|by rewrite IH].
      * by rewrite !lookup_insert_eq.
    + repeat case_match; simpl; rewrite ?lookup_insert_ne; done.
  - rewrite decide_False by (by intros []). rewrite app_nil_r, <-IH. simpl.
    apply eqb_false_iff in Eb.
    assert (Hn : part_key f ≠ k) by (intros <-; by apply Eb).
    repeat case_match; simpl; rewrite ?lookup_insert_ne; done.
Qed.

Lemma filter_sorted {A} (le : A → A → bool) (P : A → bool) l :
  sortedB le l → sortedB le (base.filter P l).
Proof.
  unfold sortedB. induction 1 as [|x l Hl IH Hx]; [constructor|].
  rewrite filter_cons. case_decide; [|done]. constructor; [done|].
  rewrite Forall_forall in Hx |- *. intros y Hy%elem_of_filterb. by apply Hx, Hy.
Qed.

Lemma dedup_sorted l d c : dedup l = Ok (d, c) → sortedB (le_key key_le part_key) d.
Proof.
  unfold dedup. destruct (foldl _ _ l) as [best coll]. destruct (forallb _ _); [|done].
  intros [= <- _]. apply sort_by_sorted. apply _.
Qed.

Lemma dedup_NoDup l d c : dedup l = Ok (d, c) → NoDup d.
Proof.
  intros (_ & Hp & _)%dedup_Ok. rewrite Hp.
  pose proof (dedup_run_inv l) as Hinv. destruct (dedup_run l) as [best coll]; simpl in *.
  apply (NoDup_fmap_1 part_key).
  assert (E : part_key <$> (map_to_list best).*2 = (map_to_list best).*1).
  { rewrite <-list_fmap_compose. apply list_fmap_ext. intros i [k f] Hi. simpl.
    eapply di_key; [exact Hinv|]. apply elem_of_map_to_list. by eapply list_elem_of_lookup_2. }
  rewrite E. apply NoDup_fst_map_to_list.
Qed.

(** The deterministic survivors are the survivors of the deterministic
    findings. *)
Lemma dedup_deterministic l d c l0 d0 c0 :
  dedup l = Ok (d, c) → dedup l0 = Ok (d0, c0) →
  base.filter (λ f, eqb (is_llm_sourced f) false) l = l0 →
  base.filter (λ f, eqb (is_llm_sourced f) false) d = d0.
Proof.
  intros Hd Hd0 Hl.
  assert (Hdet0 : ∀ f, f ∈ d0 → is_llm_sourced f = false).
  { intros f Hf%(dedup_subset _ _ _ Hd0). rewrite <-Hl in Hf.
    by apply elem_of_filterb in Hf as [_ ?%eqb_prop]. }
  assert (Hin : ∀ f, f ∈ base.filter (λ f, eqb (is_llm_sourced f) false) d ↔ f ∈ d0).
  { intros f. rewrite elem_of_filterb.
    pose proof (dedup_Ok _ _ _ Hd) as (_ & _ & H1). pose proof (dedup_Ok _ _ _ Hd0) as (_ & _ & H0).
    rewrite H1, H0. split.
    - intros [Hf E%eqb_prop]. rewrite dedup_run_class in Hf. change (part_key f).2 with (is_llm_sourced f) in Hf.
      by rewrite E, Hl in Hf.
    - intros Hf. assert (E : is_llm_sourced f = false) by (apply Hdet0, H0, Hf).
      rewrite dedup_run_class. change (part_key f).2 with (is_llm_sourced f). by rewrite E, Hl. }
  assert (HNd : NoDup (base.filter (λ f, eqb (is_llm_sourced f) false) d))
    by (apply NoDup_filter; by eapply dedup_NoDup).
  apply (StronglySorted_unique_strong (λ x y, le_key key_le part_key x y = true)).
  - intros x y Hx Hy H1 H2. apply (dedup_unique _ _ _ Hd0); [by apply Hin|exact Hy|].
    apply (leB_antisym (le:=key_le)); [exact H1|exact H2].
  - apply filter_sorted. by eapply dedup_sorted.
  - by eapply dedup_sorted.
  - apply NoDup_Permutation; [done|by eapply dedup_NoDup|exact Hin].
Qed.

(** ** One more engine result, all LLM-sourced *)

Lemma usable_results_app rs rs' :
  usable_results (rs ++ rs') = usable_results rs ++ usable_results rs'.
Proof. unfold usable_results, safe_results. by rewrite !filter_app. Qed.

Lemma all_findings_deterministic rs r :
  (∀ f, f ∈ all_findings rs → is_llm_sourced f = false) →
  (∀ f, f ∈ er_findings r → is_llm_sourced f = true) →
  base.filter (λ f, eqb (is_llm_sourced f) false) (all_findings (rs ++ [r])) = all_findings rs.
Proof.
  intros Hdet Hllm. unfold all_findings in *. rewrite sort_by_filter by apply _. f_equal.
  rewrite usable_results_app, bind_app, filter_app.
  rewrite filterb_id, filterb_nil; [by rewrite app_nil_r| |].
  - intros f (r' & Hf & Hr)%list_elem_of_bind. apply elem_of_usable_results in Hr as (Hr & _).
    apply list_elem_of_singleton in Hr as ->. by rewrite (Hllm f Hf).
  - intros f Hf. rewrite Hdet; [done|]. by apply elem_of_sort_by.
Qed.

Lemma all_findings_app_subset rs rs' : all_findings rs ⊆ all_findings (rs ++ rs').
Proof.
  intros f (r & Hr & Hf)%elem_of_all_findings. apply elem_of_all_findings. exists r.
  rewrite usable_results_app, elem_of_app. auto.
Qed.

Lemma restored_trifecta ch rs p mc mf sr al now sid :
  aggregate ch rs p mc mf = Ok sr → dedup_signal_restored sr p al now mc sid = true →
  sr_trifecta_present sr = true.
Proof.
  intros Ha%aggregate_Ok. unfold dedup_signal_restored, trifecta_lost, severity_lost. cbn.
  rewrite (ag_severity _ _ _ _ _ _ Ha). destruct (sr_trifecta_present sr); [done|]. simpl.
  rewrite sev_lt_le, uplift_ge by done. done.
Qed.

Section llm.
Context (exp64 : Q → Q) (ch : string) (rs : list EngineResult) (r : EngineResult).
Context (p : GatePolicy) (t : TrustTier) (al : list AllowlistEntry) (now mc : Q) (mf : nat).
Context (sid : option string) (sr sr' : ScanResult).
Context (Hdet : ∀ f, f ∈ all_findings rs → is_llm_sourced f = false).
Context (Hllm : ∀ f, f ∈ er_findings r → is_llm_sourced f = true).
Context (Hlen : (length (all_findings (rs ++ [r])) ≤ mf)%nat).
Context (Hagg : aggregate ch rs p mc mf = Ok sr).
Context (Hagg' : aggregate ch (rs ++ [r]) p mc mf = Ok sr').

Lemma llm_length : (length (all_findings rs) ≤ mf)%nat.
Proof.
  rewrite <-(all_findings_deterministic rs r Hdet Hllm).
  etrans; [apply length_filter|exact Hlen].
Qed.

Lemma llm_deterministic_part :
  base.filter (λ f, negb (is_llm_sourced f)) (sr_findings sr') = sr_findings sr.
Proof.
  apply aggregate_Ok in Hagg as Ha. apply aggregate_Ok in Hagg' as Ha'.
  pose proof (ag_dedup _ _ _ _ _ _ Ha) as Hd. pose proof (ag_dedup _ _ _ _ _ _ Ha') as Hd'.
  rewrite capped_id in Hd by apply llm_length. rewrite capped_id in Hd' by done.
  rewrite <-(dedup_deterministic _ _ _ _ _ _ Hd' Hd (all_findings_deterministic rs r Hdet Hllm)).
  apply list_filter_iff. intros f. by destruct (is_llm_sourced f).
Qed.

Lemma llm_non_llm_effective :
  non_llm_effective sr' p al now sid = effective sr p al now sid.
Proof.
  apply aggregate_Ok in Hagg as Ha. apply aggregate_Ok in Hagg' as Ha'.
  unfold non_llm_effective, effective. rewrite filterb_comm, llm_deterministic_part.
  unfold is_waived, entry_active. by rewrite (ag_hash _ _ _ _ _ _ Ha), (ag_hash _ _ _ _ _ _ Ha').
Qed.

Lemma base_non_llm_effective : non_llm_effective sr p al now sid = effective sr p al now sid.
Proof.
  unfold non_llm_effective. apply filterb_id. intros f (Hf & _)%elem_of_effective.
  rewrite Hdet; [done|]. by apply (aggregated_subset _ _ _ _ _ _ Hagg).
Qed.

Lemma llm_adjudicated_ge :
  dedup_signal_restored sr p al now mc sid = false ∨
  (∀ f, f ∈ all_findings (rs ++ [r]) → active_waiver al now ch sid (rule_id f) = false) →
  verdict_le (verdict_adjudicated sr p t al now mc sid) (verdict_adjudicated sr' p t al now mc sid) = true.
Proof.
  intros Hcase. destruct (dedup_signal_restored sr p al now mc sid) eqn:Er.
  - destruct Hcase as [|Hnw]; [done|].
    assert (Htr : sr_trifecta_present sr' = true).
    { pose proof (restored_trifecta _ _ _ _ _ _ _ _ _ Hagg Er) as H.
      apply aggregate_Ok in Hagg as Ha. apply aggregate_Ok in Hagg' as Ha'.
      rewrite (ag_trifecta _ _ _ _ _ _ Ha) in H. rewrite (ag_trifecta _ _ _ _ _ _ Ha').
      eapply trifecta_of_mono; [|exact H]. apply counted_mono, all_findings_app_subset. }
    unfold verdict_adjudicated at 2.
    rewrite (trifecta_blocks_aux _ _ _ al now _ _ sid _ Hagg' mc Hnw Htr), classify_critical.
    by destruct (verdict_adjudicated _ _ _ _ _ _ _), (classify _ _ _ _).
  - unfold verdict_adjudicated. rewrite llm_non_llm_effective, base_non_llm_effective.
    unfold restore at 1. rewrite Er. simpl.
    eapply verdict_le_trans; [|apply verdict_max_ub_r].
    apply verdict_max_lub; by destruct (classify _ _ _ _).
Qed.

(** An engine the policy does not require leaves a fail-closed scan fail-closed. *)
Lemma llm_closed_both :
  sr_required_ok sr = false → em_name (er_engine r) ∉ required_engines p →
  verdict_le (vr_verdict (gate_decide exp64 sr p t al now mc sid))
             (vr_verdict (gate_decide exp64 sr' p t al now mc sid)) = true.
Proof.
  intros E Hnr. assert (E' : sr_required_ok sr' = false).
  { apply aggregate_Ok in Hagg as Ha. apply aggregate_Ok in Hagg' as Ha'.
    rewrite (ag_required _ _ _ _ _ _ Ha), bool_decide_eq_false, missing_iff in E.
    rewrite (ag_required _ _ _ _ _ _ Ha'), bool_decide_eq_false, missing_iff. intros H. apply E.
    intros e He. destruct (proj1 (elem_of_present _ _) (H e He)) as (r' & Hr & <-). apply elem_of_present. exists r'.
    rewrite usable_results_app, elem_of_app in Hr. destruct Hr as [?|Hr]; [done|].
    apply elem_of_usable_results in Hr as (->%list_elem_of_singleton & _). done. }
  destruct (gate_decide_fail_closed sr p t al now mc sid exp64 E) as (-> & _).
  destruct (gate_decide_fail_closed sr' p t al now mc sid exp64 E') as (-> & _). by destruct (fail_closed_verdict p).
Qed.

(** C5: INV-2, end to end.  Take engine results without LLM-sourced findings and add one
    result all of whose findings are LLM-sourced, aggregation accepting both and the flood
    cap not being reached.  If every required engine had already reported usably, or the
    added engine is not a required one, and if no active waiver names a rule of the larger
    scan, or deduplication had lost no signal of the smaller one, then the verdict does
    not go down.  (An LLM engine that the policy requires can lift a fail-closed verdict by
    reporting; a waived LLM finding can hide a signal that deduplication lost, see
    [waived_finding_masks_lost_signal].) *)
Theorem llm_only_escalates :
  sr_required_ok sr = true ∨ em_name (er_engine r) ∉ required_engines p →
  dedup_signal_restored sr p al now mc sid = false ∨
  (∀ f, f ∈ all_findings (rs ++ [r]) → active_waiver al now ch sid (rule_id f) = false) →
  verdict_le (vr_verdict (gate_decide exp64 sr p t al now mc sid))
             (vr_verdict (gate_decide exp64 sr' p t al now mc sid)) = true.
Proof.
  intros Hreq Hcase. apply aggregate_Ok in Hagg as Ha. apply aggregate_Ok in Hagg' as Ha'.
  assert (Hreq' : sr_required_ok sr = true → sr_required_ok sr' = true).
  { clear Hreq. intros Hreq. rewrite (ag_required _ _ _ _ _ _ Ha), bool_decide_eq_true, missing_iff in Hreq.
    rewrite (ag_required _ _ _ _ _ _ Ha'), bool_decide_eq_true, missing_iff.
    intros e (r' & Hr & <-)%Hreq%elem_of_present. apply elem_of_present. exists r'.
    rewrite usable_results_app, elem_of_app. auto. }
  destruct (sr_required_ok sr) eqn:Hrq; [clear Hreq; specialize (Hreq' eq_refl); rename Hrq into Hreq|].
  2: { destruct Hreq as [|Hnr]; [done|]. apply llm_closed_both; [done|done..]. }
  destruct (decide (combined_hard_gate sr p = ∅)) as [Hc|Hc].
  - apply gate_decide_ge; [done|].
    destruct (gate_decide_adjudicated sr p t al now mc sid exp64 Hreq Hc) as (-> & _).
    rewrite (ag_capped _ _ _ _ _ _ Ha), bool_decide_false by (pose proof llm_length; lia).
    by apply llm_adjudicated_ge.
  - destruct (gate_decide_hard_gate sr' p t al now mc sid exp64 Hreq') as (-> & _);
      [|by destruct (vr_verdict _)].
    rewrite (aggregated_combined_hard_gate _ _ _ _ _ _ Hagg').
    rewrite (aggregated_combined_hard_gate _ _ _ _ _ _ Hagg) in Hc.
    apply set_choose_L in Hc as [x Hx].
    eapply hard_hits_mono in Hx; [|apply (all_findings_app_subset rs [r])]. set_solver.
Qed.
End llm.

(** ** Witness and limit of the property *)

Module LLMSamples.
Import Samples.

(** A deterministic scan in which deduplication drops the only finding with the
    private-data signal: rule A fired twice at one place. *)
Definition deterministic : list EngineResult :=
  [engine "floor" OK
     [finding "A" MEDIUM (7#10) false {[PRIVATE_DATA_ACCESS]} (Some "x");
      finding "A" MEDIUM (9#10) false ∅ (Some "x");
      finding "B" MEDIUM (9#10) false {[UNTRUSTED_INPUT]} (Some "x");
      finding "C" MEDIUM (9#10) false {[EXTERNAL_EGRESS]} (Some "x")]].

(** An LLM engine that reports rule W, which carries the signal that was lost. *)
Definition llm_result : EngineResult :=
  engine "llm" OK [finding "W" LOW (9#10) true {[PRIVATE_DATA_ACCESS]} None].

Lemma llm_only_escalates_witness :
  verdict_le (verdict deterministic 5000 INTERNAL [])
             (verdict (deterministic ++ [llm_result]) 5000 INTERNAL []) = true.
Proof.
  apply (llm_only_escalates exp_step "h" deterministic llm_result policy INTERNAL [] 0 0 5000 None
           (scanned deterministic 5000) (scanned (deterministic ++ [llm_result]) 5000)).
  - apply Forall_forall. vm_compute. repeat constructor.
  - apply Forall_forall. vm_compute. repeat constructor.
  - apply Nat.leb_le. vm_compute. reflexivity.
  - vm_compute. reflexivity.
  - vm_compute. reflexivity.
  - left. vm_compute. reflexivity.
  - right. intros f _. reflexivity.
Defined.

(** The limit of INV-2 and INV-4 under waivers.  On the scan [deterministic] the
    gate notices that deduplication lost a trifecta signal and blocks.  Adding one
    LLM finding of a waived rule that carries the lost signal makes the unwaived
    recomputation complete again, so nothing is restored, while the waived finding
    itself does not count: the verdict falls from BLOCK to PASS. *)
Theorem waived_finding_masks_lost_signal :
  verdict deterministic 5000 INTERNAL [waiver "W"] = BLOCK ∧
  verdict (deterministic ++ [llm_result]) 5000 INTERNAL [waiver "W"] = PASS.
Proof. vm_compute. done. Qed.
End LLMSamples.
