(* ===== verification/Canonical.v ===== *)
(** * Content-addressed hashing: [libs/skillscan_core/canonical.py]

    The preimages that the kernel hashes, byte by byte: length-prefixed chunks,
    the path checks, the manifest of a package, the toolchain digest and the
    cache key.  SHA-256 and Unicode NFC are parameters ([sha256], [nfc]): the
    theorems are about the bytes that are hashed, so they need no hypothesis on
    [sha256].  A path is the list of its code points, since the code indexes and
    splits it by code point; other strings hold their UTF-8 bytes. *)

From S2P Require Import Prelude Models.
Open Scope string_scope.
Open Scope list_scope.
Open Scope Z_scope.

Abbreviation bytes := (list Z).
Abbreviation points := (list Z).

Inductive CanonicalError :=
| nul_byte
| absolute_path
| drive_letter
| illegal_segment
| empty_file_set
| duplicate_path
| unicode_encode_error
| struct_error.

(** ** Encoders *)

(** [struct.pack] of one big-endian unsigned field of [n] bytes. *)
Fixpoint be_bytes (n : nat) (v : Z) : bytes :=
  match n with
  | O => []
  | S n' => be_bytes n' (v / 256) ++ [v mod 256]
  end.

Definition struct_pack (n : nat) (v : Z) : result CanonicalError bytes :=
  _ ← guard_err ((0 <=? v) && (v <? 256 ^ Z.of_nat n)) struct_error;
  Ok (be_bytes n v).

(** [str.encode("utf-8")]: lone surrogates do not encode. *)
Definition scalar (c : Z) : bool :=
  ((0 <=? c) && (c <? 55296)) || ((57344 <=? c) && (c <? 1114112)).

Definition utf8_char (c : Z) : bytes :=
  if c <? 128 then [c]
  else if c <? 2048 then [192 + c / 64; 128 + c mod 64]
  else if c <? 65536 then [224 + c / 4096; 128 + (c / 64) mod 64; 128 + c mod 64]
  else [240 + c / 262144; 128 + (c / 4096) mod 64; 128 + (c / 64) mod 64; 128 + c mod 64].

Fixpoint utf8 (s : points) : result CanonicalError bytes :=
  match s with
  | [] => Ok []
  | c :: s' => _ ← guard_err (scalar c) unicode_encode_error; b ← utf8 s'; Ok (utf8_char c ++ b)
  end.

(** The bytes of a string that is stored as its UTF-8 encoding. *)
Definition str_bytes (s : string) : bytes :=
  map (λ a, Z.of_N (Ascii.N_of_ascii a)) (String.list_ascii_of_string s).

Definition _CONTENT_HASH_DOMAIN : bytes := str_bytes "skillscan.content_hash.v1" ++ [10].
Definition _TOOLCHAIN_DIGEST_DOMAIN : bytes := str_bytes "skillscan.toolchain_digest.v1" ++ [10].
Definition _CACHE_KEY_DOMAIN : bytes := str_bytes "skillscan.cache_key.v1" ++ [10].

(** [_encode_chunk]. *)
Definition _encode_chunk (data : bytes) : result CanonicalError bytes :=
  len ← struct_pack 8 (Z.of_nat (length data)); Ok (len ++ data).

(** [str.split(sep)] for a one-character separator: never the empty list. *)
Fixpoint split_on (sep : Z) (s : points) : list points :=
  match s with
  | [] => [[]]
  | c :: s' =>
      if c =? sep then [] :: split_on sep s'
      else match split_on sep s' with
           | [] => [[c]]
           | seg :: segs => (c :: seg) :: segs
           end
  end.

Definition slash : Z := 47.
Definition backslash : Z := 92.
Definition colon : Z := 58.
Definition dot : Z := 46.

(** [segment in ("", ".", "..")]. *)
Definition illegal (segment : points) : bool :=
  bool_decide (segment = []) || bool_decide (segment = [dot]) || bool_decide (segment = [dot; dot]).

Section canonical.
Variable nfc : points → points.
Variable sha256 : bytes → string.

Fixpoint check_segments (segments : list points) : result CanonicalError unit :=
  match segments with
  | [] => Ok ()
  | segment :: rest =>
      _ ← guard_err (negb (illegal segment)) illegal_segment;
      _ ← guard_err (negb (existsb illegal (split_on backslash segment))) illegal_segment;
      check_segments rest
  end.

(** [_validate_and_normalize_path]. *)
Definition _validate_and_normalize_path (path : points) : result CanonicalError points :=
  _ ← guard_err (negb (bool_decide (0 ∈ path))) nul_byte;
  let normalized := nfc path in
  _ ← guard_err (negb (bool_decide (head normalized = Some slash))) absolute_path;
  _ ← guard_err (negb (bool_decide (normalized !! 1%nat = Some colon))) drive_letter;
  _ ← check_segments (split_on slash normalized);
  Ok normalized.

(** A file of a package: path, permission bits, contents. *)
Definition Entry : Type := points * Z * bytes.

Definition entry_path (e : Entry) : points := e.1.1.

(** The loop that validates, normalises and rejects duplicate paths. *)
Fixpoint collect (entries : list Entry) (seen_paths : gset points) (acc : list Entry)
    : result CanonicalError (list Entry) :=
  match entries with
  | [] => Ok acc
  | (path, mode, data) :: rest =>
      normalized_path ← _validate_and_normalize_path path;
      _ ← guard_err (negb (bool_decide (normalized_path ∈ seen_paths))) duplicate_path;
      collect rest ({[normalized_path]} ∪ seen_paths)
        (acc ++ [(normalized_path, Z.land mode 4095, data)])
  end.

(** Python compares strings by code point. *)
Fixpoint points_le (s t : points) : bool :=
  match s, t with
  | [], _ => true
  | _ :: _, [] => false
  | a :: s', b :: t' => (a <? b) || ((a =? b) && points_le s' t')
  end.

Definition encode_entry (e : Entry) : result CanonicalError bytes :=
  p ← utf8 (entry_path e); p' ← _encode_chunk p;
  m ← struct_pack 4 e.1.2;
  d ← _encode_chunk e.2;
  Ok (p' ++ m ++ d).

Fixpoint encode_entries (l : list Entry) : result CanonicalError bytes :=
  match l with
  | [] => Ok []
  | e :: l' => b ← encode_entry e; bs ← encode_entries l'; Ok (b ++ bs)
  end.

(** What [content_hash] feeds to the hasher. *)
Definition content_preimage (files : list Entry) : result CanonicalError bytes :=
  _ ← guard_err (negb (bool_decide (files = []))) empty_file_set;
  normalized_entries ← collect files ∅ [];
  body ← encode_entries (sort_by (le_key points_le entry_path) normalized_entries);
  Ok (_CONTENT_HASH_DOMAIN ++ body).

Definition content_hash (files : list Entry) : result CanonicalError string :=
  sha256 <$> content_preimage files.

(** [f"{m.name}@{m.version}#{m.ruleset_digest}"]. *)
Definition identity_of (m : EngineMetadata) : string :=
  em_name m +:+ "@" +:+ em_version m +:+ "#" +:+ em_ruleset_digest m.

Fixpoint encode_chunks (l : list bytes) : result CanonicalError bytes :=
  match l with
  | [] => Ok []
  | c :: l' => b ← _encode_chunk c; bs ← encode_chunks l'; Ok (b ++ bs)
  end.

Definition toolchain_preimage (ms : list EngineMetadata) (policy_version prompt_version : string)
    : result CanonicalError bytes :=
  let identities := sort_by str_le (map identity_of ms) in
  body ← encode_chunks (map str_bytes (identities ++ [policy_version; prompt_version]));
  Ok (_TOOLCHAIN_DIGEST_DOMAIN ++ body).

Definition toolchain_digest (ms : list EngineMetadata) (policy_version prompt_version : string)
    : result CanonicalError string :=
  sha256 <$> toolchain_preimage ms policy_version prompt_version.

Definition cache_preimage (content_hash_value toolchain_digest_value : string)
    : result CanonicalError bytes :=
  body ← _encode_chunk (str_bytes (content_hash_value +:+ "::" +:+ toolchain_digest_value));
  Ok (_CACHE_KEY_DOMAIN ++ body).

Definition cache_key (content_hash_value toolchain_digest_value : string)
    : result CanonicalError string :=
  sha256 <$> cache_preimage content_hash_value toolchain_digest_value.
End canonical.

(** ** The encoders are injective and prefix-free *)

(** [lia] with quotients and remainders by constants. *)
Ltac dlia := Z.to_euclidean_division_equations; lia.

Lemma length_be_bytes n v : length (be_bytes n v) = n.
Proof. revert v. induction n as [|n IH]; intros v; simpl; [done|]. rewrite length_app, IH. simpl. lia. Qed.

Lemma be_bytes_inj n v w :
  0 ≤ v < 256 ^ Z.of_nat n → 0 ≤ w < 256 ^ Z.of_nat n → be_bytes n v = be_bytes n w → v = w.
Proof.
  revert v w. induction n as [|n IH]; intros v w Hv Hw; simpl; [lia|].
  intros [Hd Hm]%app_inj_tail. rewrite Nat2Z.inj_succ, Z.pow_succ_r in Hv, Hw by lia.
  assert (v / 256 = w / 256) by (apply IH; [dlia..|done]).
  rewrite (Z.div_mod v 256), (Z.div_mod w 256) by lia. congruence.
Qed.

Lemma struct_pack_inv n v b : struct_pack n v = Ok b → b = be_bytes n v ∧ 0 ≤ v < 256 ^ Z.of_nat n.
Proof. unfold struct_pack. intros H. ok_inv. bool_prop. split; [done|lia]. Qed.

Lemma struct_pack_prefix n v w b c r r' :
  struct_pack n v = Ok b → struct_pack n w = Ok c → b ++ r = c ++ r' → v = w ∧ r = r'.
Proof.
  intros [-> Hv]%struct_pack_inv [-> Hw]%struct_pack_inv H.
  apply app_inj_1 in H as [Hb ->]; [|by rewrite !length_be_bytes].
  split; [|done]. by eapply be_bytes_inj.
Qed.

Lemma utf8_char_prefix c d r r' :
  scalar c = true → scalar d = true → utf8_char c ++ r = utf8_char d ++ r' → c = d ∧ r = r'.
Proof.
  unfold scalar, utf8_char. intros Hc Hd.
  repeat (case_match; simpl); intros H'; simplify_eq; split; try done; dlia.
Qed.

Lemma utf8_inj s t b : utf8 s = Ok b → utf8 t = Ok b → s = t.
Proof.
  revert t b. induction s as [|c s IH]; intros [|d t] b Hs Ht; simpl in *; ok_inv; [done| | |].
  - unfold utf8_char in *. repeat case_match; discriminate.
  - unfold utf8_char in *. repeat case_match; discriminate.
  - match goal with H : utf8_char _ ++ _ = utf8_char _ ++ _ |- _ =>
      apply utf8_char_prefix in H as [-> ->]; [|done..] end.
    f_equal. by eapply IH.
Qed.

Lemma _encode_chunk_prefix x y b c r r' :
  _encode_chunk x = Ok b → _encode_chunk y = Ok c → b ++ r = c ++ r' → x = y ∧ r = r'.
Proof.
  unfold _encode_chunk. intros Hx Hy H. ok_inv. rewrite <-!app_assoc in H.
  match goal with H1 : struct_pack _ _ = _, H2 : struct_pack _ _ = _ |- _ =>
    destruct (struct_pack_prefix _ _ _ _ _ _ _ H1 H2 H) as [Hl H'] || 
    destruct (struct_pack_prefix _ _ _ _ _ _ _ H2 H1 H) as [Hl H'] end.
  apply app_inj_1 in H'; [done|lia].
Qed.

Lemma _encode_chunk_nonempty x b : _encode_chunk x = Ok b → b ≠ [].
Proof.
  unfold _encode_chunk. intros H. ok_inv.
  match goal with H : struct_pack _ _ = _ |- _ => apply struct_pack_inv in H as [-> _] end.
  intros E%(f_equal length). rewrite length_app, length_be_bytes in E. simpl in E. lia.
Qed.

(** A sequence of prefix-free, non-empty codewords has one reading. *)
Lemma encode_seq_inj {A} (enc : A → result CanonicalError bytes)
    (encs : list A → result CanonicalError bytes) :
  encs [] = Ok [] →
  (∀ x l, encs (x :: l) = (b ← enc x; bs ← encs l; Ok (b ++ bs))) →
  (∀ x b, enc x = Ok b → b ≠ []) →
  (∀ x y b c r r', enc x = Ok b → enc y = Ok c → b ++ r = c ++ r' → x = y ∧ r = r') →
  ∀ l l' b, encs l = Ok b → encs l' = Ok b → l = l'.
Proof.
  intros Hnil Hcons Hne Hpre l. induction l as [|x l IH]; intros [|y l'] b H H'.
  - done.
  - rewrite Hnil in H. injection H as <-. rewrite Hcons in H'.
    apply bind_Ok in H' as (c & Hc & (cs & _ & [= E])%bind_Ok).
    apply app_eq_nil in E as [-> _]. by edestruct Hne.
  - rewrite Hnil in H'. injection H' as <-. rewrite Hcons in H.
    apply bind_Ok in H as (c & Hc & (cs & _ & [= E])%bind_Ok).
    apply app_eq_nil in E as [-> _]. by edestruct Hne.
  - rewrite Hcons in H, H'. ok_inv.
    match goal with E : ?b1 ++ ?r1 = ?b2 ++ ?r2, E1 : enc x = _, E2 : enc y = _ |- _ =>
      destruct (Hpre _ _ _ _ _ _ E2 E1 E) as [-> ->] || destruct (Hpre _ _ _ _ _ _ E1 E2 E) as [-> ->]
    end.
    f_equal. by eapply IH.
Qed.

Lemma encode_entry_prefix e e' b c r r' :
  encode_entry e = Ok b → encode_entry e' = Ok c → b ++ r = c ++ r' → e = e' ∧ r = r'.
Proof.
  unfold encode_entry. destruct e as [[p m] d], e' as [[p' m'] d']. unfold entry_path; simpl.
  intros He He' H. ok_inv. rewrite <-!app_assoc in H.
  repeat match goal with
  | H1 : _encode_chunk ?x = Ok ?b, H2 : _encode_chunk ?y = Ok ?c, E : ?b ++ _ = ?c ++ _ |- _ =>
      destruct (_encode_chunk_prefix _ _ _ _ _ _ H1 H2 E) as [? ?]; clear E; subst
  | H1 : struct_pack _ ?x = Ok ?b, H2 : struct_pack _ ?y = Ok ?c, E : ?b ++ _ = ?c ++ _ |- _ =>
      destruct (struct_pack_prefix _ _ _ _ _ _ _ H1 H2 E) as [? ?]; clear E; subst
  | H1 : utf8 p = Ok ?b, H2 : utf8 p' = Ok ?b |- _ =>
      pose proof (utf8_inj _ _ _ H1 H2); clear H1; subst
  end.
  done.
Qed.

Lemma encode_entry_nonempty e b : encode_entry e = Ok b → b ≠ [].
Proof.
  unfold encode_entry. intros H. ok_inv. intros [-> _]%app_eq_nil.
  eapply _encode_chunk_nonempty; [|reflexivity]. eassumption.
Qed.

Lemma encode_entries_inj l l' b : encode_entries l = Ok b → encode_entries l' = Ok b → l = l'.
Proof.
  apply (encode_seq_inj encode_entry); [done|done| |].
  - apply encode_entry_nonempty.
  - apply encode_entry_prefix.
Qed.

Lemma encode_chunks_inj l l' b : encode_chunks l = Ok b → encode_chunks l' = Ok b → l = l'.
Proof.
  apply (encode_seq_inj _encode_chunk); [done|done| |].
  - apply _encode_chunk_nonempty.
  - apply _encode_chunk_prefix.
Qed.

(** ** Order on paths *)

#[export] Instance points_le_total : TotalPreB points_le.
Proof.
  split.
  - intros s. induction s as [|a s IH]; intros [|b t]; simpl; try done.
    destruct (Z.ltb_spec a b), (Z.eqb_spec a b); simpl; try done.
    + intros Hs%IH. subst. rewrite Z.eqb_refl, Hs. apply orb_true_r.
    + intros _. rewrite (proj2 (Z.ltb_lt b a)); [done|lia].
  - intros s. induction s as [|a s IH]; intros [|b t] [|c u]; simpl; try done.
    intros H1%orb_true_iff H2%orb_true_iff. apply orb_true_iff.
    rewrite !andb_true_iff in *. rewrite !Z.ltb_lt, !Z.eqb_eq in *.
    destruct H1 as [?|[??]], H2 as [?|[??]]; try (left; lia). right. split; [lia|]. by eapply IH.
Qed.

#[export] Instance points_le_antisym : AntisymB points_le.
Proof.
  intros s. induction s as [|a s IH]; intros [|b t]; simpl; try done.
  intros H1%orb_true_iff H2%orb_true_iff. rewrite !andb_true_iff, !Z.ltb_lt, !Z.eqb_eq in *.
  destruct H1 as [?|[??]], H2 as [?|[??]]; try lia. subst. f_equal. by apply IH.
Qed.

(** ** What is hashed, and which files are accepted *)

Section manifest.
Variable nfc : points → points.

(** The entry that [content_hash] binds for a given file. *)
Definition norm_entry (e : Entry) : Entry := (nfc (entry_path e), Z.land e.1.2 4095, e.2).

Definition accepted_path (path : points) : Prop :=
  (0 ∉ path) ∧ head (nfc path) ≠ Some slash ∧ nfc path !! 1%nat ≠ Some colon ∧
  (∀ segment, segment ∈ split_on slash (nfc path) →
    illegal segment = false ∧ ∀ sub, sub ∈ split_on backslash segment → illegal sub = false).

Lemma check_segments_Ok l u :
  check_segments l = Ok u ↔
  ∀ segment, segment ∈ l →
    illegal segment = false ∧ ∀ sub, sub ∈ split_on backslash segment → illegal sub = false.
Proof.
  destruct u. induction l as [|seg l IH]; simpl; [split; [set_solver|done]|].
  rewrite bind_Ok. setoid_rewrite bind_Ok. setoid_rewrite guard_err_Ok. setoid_rewrite IH.
  setoid_rewrite negb_true_iff. setoid_rewrite existsb_false. split.
  - intros (_ & Hi & _ & Hs & Hl) segment [->|?]%elem_of_cons; [done|by apply Hl].
  - intros H. exists (). destruct (H seg) as [? ?]; [left|]. split; [done|]. exists (). split; [done|].
    intros segment ?. apply H. by right.
Qed.

Lemma validate_Ok path q :
  _validate_and_normalize_path nfc path = Ok q ↔ q = nfc path ∧ accepted_path path.
Proof.
  unfold _validate_and_normalize_path, accepted_path.
  split.
  - intros H. ok_inv. bool_prop. rewrite check_segments_Ok in *. auto.
  - intros (-> & H1 & H2 & H3 & H4). rewrite !bool_decide_false by done. simpl.
    by rewrite (proj2 (check_segments_Ok _ ()) H4).
Qed.

Lemma collect_Ok es seen acc out :
  collect nfc es seen acc = Ok out ↔
  out = acc ++ (norm_entry <$> es) ∧ Forall (λ e, accepted_path (entry_path e)) es ∧
  NoDup (((λ e, nfc (entry_path e)) <$> es)) ∧ (∀ e, e ∈ es → nfc (entry_path e) ∉ seen).
Proof.
  revert seen acc. induction es as [|[[p m] d] es IH]; intros seen acc; simpl.
  - rewrite app_nil_r. split; [intros [= ->]|intros (-> & _)]; [|done].
    split_and!; [done|constructor|constructor|set_solver].
  - rewrite bind_Ok. setoid_rewrite validate_Ok. setoid_rewrite bind_Ok. setoid_rewrite guard_err_Ok.
    setoid_rewrite IH. rewrite Forall_cons, NoDup_cons.
    setoid_rewrite negb_true_iff. setoid_rewrite bool_decide_eq_false.
    setoid_rewrite list_elem_of_fmap. setoid_rewrite elem_of_cons.
    unfold norm_entry, entry_path; simpl. setoid_rewrite <-app_assoc. split.
    + intros (q & [-> Hp] & _ & Hq & -> & Hes & Hnd & Hs). split_and!; try done.
      * intros (e & He & Hin). apply (Hs e Hin). set_solver.
      * intros e [->|He]; [done|]. pose proof (Hs e He). set_solver.
    + intros (-> & [Hp Hes] & [Hnin Hnd] & Hs). exists (nfc p). split; [done|]. exists ().
      split_and!; try done.
      * apply (Hs (p, m, d)). by left.
      * intros e He [Hq%elem_of_singleton|?]%elem_of_union; [|by eapply (Hs e); auto].
        apply Hnin. by exists e.
Qed.

Definition accepted (files : list Entry) : Prop :=
  files ≠ [] ∧ Forall (λ e, accepted_path (entry_path e)) files ∧
  NoDup ((λ e, nfc (entry_path e)) <$> files).

Lemma content_preimage_Ok files b :
  content_preimage nfc files = Ok b ↔
  accepted files ∧ ∃ body, b = _CONTENT_HASH_DOMAIN ++ body ∧
    encode_entries (sort_by (le_key points_le entry_path) (norm_entry <$> files)) = Ok body.
Proof.
  unfold content_preimage, accepted. rewrite bind_Ok. setoid_rewrite bind_Ok.
  setoid_rewrite collect_Ok. setoid_rewrite guard_err_Ok. setoid_rewrite negb_true_iff.
  setoid_rewrite bool_decide_eq_false. split.
  - intros (_ & Hne & l & (-> & Hf & Hn & _) & Hb). ok_inv. eauto 10.
  - intros ((Hne & Hf & Hn) & body & -> & Hb). exists (). split; [done|].
    exists (norm_entry <$> files). split; [|by rewrite Hb]. split_and!; [done..|set_solver].
Qed.

(** Distinct normalised paths: sorting by path alone is sorting by a total order. *)
Lemma sort_entries_perm l l' :
  l ≡ₚ l' → NoDup (entry_path <$> l) →
  sort_by (le_key points_le entry_path) l = sort_by (le_key points_le entry_path) l'.
Proof.
  intros HP Hnd.
  apply (StronglySorted_unique_strong (λ x y, le_key points_le entry_path x y = true));
    [|apply sort_by_sorted; apply _..|by rewrite !sort_by_perm].
  intros x y Hx Hy H1 H2. rewrite elem_of_sort_by in Hx, Hy. rewrite <-HP in Hy.
  assert (E : entry_path x = entry_path y) by by apply points_le_antisym.
  clear -Hnd Hx Hy E. induction l as [|e l IH]; [by apply elem_of_nil in Hx|].
  simpl in Hnd. apply NoDup_cons in Hnd as [Hn Hnd]. rewrite list_elem_of_fmap in Hn.
  apply elem_of_cons in Hx as [->|Hx], Hy as [->|Hy]; eauto; destruct Hn; eauto.
Qed.

Lemma norm_paths (files : list Entry) : entry_path <$> (norm_entry <$> files) = ((λ e, nfc (entry_path e)) <$> files).
Proof. by rewrite <-list_fmap_compose. Qed.

(** C15: INV-6.  The hashed bytes determine the package exactly: two accepted file
    sets have the same preimage if and only if they are the same manifest (paths
    after NFC, the twelve permission bits, contents byte for byte) up to the order
    of the files.  So equal content hashes of different packages are a SHA-256
    collision between these two preimages. *)
Theorem content_preimage_iff files files' b b' :
  content_preimage nfc files = Ok b → content_preimage nfc files' = Ok b' →
  b = b' ↔ (norm_entry <$> files) ≡ₚ (norm_entry <$> files').
Proof.
  intros (Hacc & body & -> & Hb)%content_preimage_Ok (Hacc' & body' & -> & Hb')%content_preimage_Ok.
  split.
  - intros H%app_inv_head. subst body'.
    pose proof (encode_entries_inj _ _ _ Hb Hb') as E.
    by rewrite <-(sort_by_perm (le_key points_le entry_path)), E, sort_by_perm.
  - intros HP. rewrite (sort_entries_perm _ _ HP) in Hb by (rewrite norm_paths; apply Hacc).
    congruence.
Qed.

(** Joining a relative path below a directory: [..] climbs, [.] and empty
    components stay. *)
Definition resolve_step (dir : list points) (seg : points) : list points :=
  if bool_decide (seg = [dot; dot]) then removelast dir
  else if bool_decide (seg = []) || bool_decide (seg = [dot]) then dir
  else dir ++ [seg].

Lemma resolve_legal segs dir :
  (∀ seg, seg ∈ segs → illegal seg = false) → foldl resolve_step dir segs = dir ++ segs.
Proof.
  revert dir. induction segs as [|seg segs IH]; intros dir H; simpl; [by rewrite app_nil_r|].
  assert (Hs : illegal seg = false) by (apply H; left).
  unfold illegal in Hs. bool_prop. unfold resolve_step at 2. rewrite !bool_decide_false by done. simpl.
  rewrite IH; [by rewrite <-app_assoc|]. intros ??. apply H. by right.
Qed.

(** INV-6.  An accepted path stays inside the directory it is unpacked to, for a
    consumer that separates components by [/] and also for one that splits at
    backslashes: resolving it below any directory appends its components, each of
    them non-empty and neither [.] nor [..], and never climbs; it is neither
    absolute nor drive-letter prefixed. *)
Theorem accepted_path_confined path p :
  _validate_and_normalize_path nfc path = Ok p →
  head p ≠ Some slash ∧ p !! 1%nat ≠ Some colon ∧
  ∀ dir, foldl resolve_step dir (split_on slash p) = dir ++ split_on slash p ∧
    let pieces := split_on slash p ≫= split_on backslash in
    foldl resolve_step dir pieces = dir ++ pieces ∧ ∀ s, s ∈ pieces → s ≠ [].
Proof.
  intros [-> (_ & Hh & Hc & Hseg)]%validate_Ok. split; [done|]. split; [done|]. intros dir.
  assert (Hp : ∀ s, s ∈ split_on slash (nfc path) ≫= split_on backslash → illegal s = false).
  { intros s (seg & Hs & Hin)%list_elem_of_bind. by apply (Hseg seg). }
  split; [apply resolve_legal; naive_solver|]. cbv zeta. split; [by apply resolve_legal|].
  intros s Hs%Hp. unfold illegal in Hs. bool_prop. done.
Qed.

Variable sha256 : bytes → string.

(** The content hash does not depend on the order in which the files are given,
    and neither does whether the package is accepted. *)
Theorem content_hash_order_independent files files' h :
  files ≡ₚ files' → content_hash nfc sha256 files = Ok h → content_hash nfc sha256 files' = Ok h.
Proof.
  intros HP. unfold content_hash.
  destruct (content_preimage nfc files) as [b|] eqn:E; [|done]. intros [= <-].
  apply content_preimage_Ok in E as ((Hne & Hf & Hn) & body & -> & Hb).
  erewrite (proj2 (content_preimage_Ok files' (_CONTENT_HASH_DOMAIN ++ body))); [done|].
  split; [split_and!|].
  - intros ->. by apply Hne, Permutation_nil_r.
  - by rewrite <-HP.
  - by rewrite <-HP.
  - exists body. split; [done|]. rewrite <-Hb. f_equal. symmetry. apply sort_entries_perm.
    + by rewrite HP.
    + by rewrite norm_paths.
Qed.
End manifest.

(** ** Toolchain digest and cache key *)

Lemma str_bytes_inj s t : str_bytes s = str_bytes t → s = t.
Proof.
  unfold str_bytes. revert t. induction s as [|a s IH]; intros [|b t] H; simpl in *; try done.
  injection H as Hab Hst. apply IH in Hst as ->. f_equal.
  rewrite <-(Ascii.ascii_N_embedding a), <-(Ascii.ascii_N_embedding b). f_equal. lia.
Qed.

#[export] Instance str_bytes_Inj : Inj eq eq str_bytes := str_bytes_inj.

Lemma toolchain_preimage_Ok ms pv pr b :
  toolchain_preimage ms pv pr = Ok b → ∃ body, b = _TOOLCHAIN_DIGEST_DOMAIN ++ body ∧
    encode_chunks (str_bytes <$> (sort_by str_le (identity_of <$> ms) ++ [pv; pr])) = Ok body.
Proof. intros (body & Hb & H)%bind_Ok. exists body. split; [congruence|done]. Qed.

Lemma cache_preimage_Ok c t b :
  cache_preimage c t = Ok b → ∃ body, b = _CACHE_KEY_DOMAIN ++ body ∧
    _encode_chunk (str_bytes c ++ colon :: colon :: str_bytes t) = Ok body.
Proof.
  intros (body & Hb & H)%bind_Ok. exists body. split; [congruence|].
  rewrite <-Hb. f_equal. clear. unfold str_bytes. induction c as [|a c IH]; simpl; [done|by rewrite IH].
Qed.

(** Under one toolchain digest the hashed bytes determine the content hash. *)
Lemma cache_preimage_content c c' t b : cache_preimage c t = Ok b → cache_preimage c' t = Ok b → c = c'.
Proof.
  intros (x & -> & Hx)%cache_preimage_Ok (y & E & Hy)%cache_preimage_Ok. apply app_inv_head in E as <-.
  destruct (_encode_chunk_prefix _ _ x x [] [] Hx Hy eq_refl) as [E _].
  by apply app_inv_tail, str_bytes_inj in E.
Qed.

(** INV-7.  The toolchain digest's preimage determines the multiset of engine
    identities, the policy version and the prompt version, and nothing else: a
    change of any of them changes the hashed bytes, a change of the engines' order
    does not. *)
Theorem toolchain_preimage_iff ms ms' pv pv' pr pr' b b' :
  toolchain_preimage ms pv pr = Ok b → toolchain_preimage ms' pv' pr' = Ok b' →
  b = b' ↔ (identity_of <$> ms) ≡ₚ (identity_of <$> ms') ∧ pv = pv' ∧ pr = pr'.
Proof.
  intros (x & -> & Hx)%toolchain_preimage_Ok (y & -> & Hy)%toolchain_preimage_Ok. split.
  - intros <-%app_inv_head. pose proof (encode_chunks_inj _ _ _ Hx Hy) as E.
    apply (inj (fmap str_bytes)) in E.
    change [pv; pr] with ([pv] ++ [pr]) in E. change [pv'; pr'] with ([pv'] ++ [pr']) in E.
    rewrite !app_assoc in E. apply app_inj_tail in E as [E ->]. apply app_inj_tail in E as [E ->].
    split; [|done]. by rewrite <-(sort_by_perm str_le (identity_of <$> ms)), E, sort_by_perm.
  - intros (HP & -> & ->). rewrite (sort_by_perm_eq str_le _ _ HP) in Hx. congruence.
Qed.

(** For content hashes, which are hex and so contain no colon, the cache key's
    preimage determines both the content hash and the toolchain digest; and the
    three kinds of digest never share a preimage. *)
Theorem cache_key_binding nfc c c' t t' b b' :
  colon ∉ str_bytes c → colon ∉ str_bytes c' →
  cache_preimage c t = Ok b → cache_preimage c' t' = Ok b' →
  (b = b' → c = c' ∧ t = t') ∧
  (∀ files, content_preimage nfc files ≠ Ok b) ∧
  (∀ ms pv pr, toolchain_preimage ms pv pr ≠ Ok b) ∧
  (∀ files ms pv pr x, content_preimage nfc files = Ok x → toolchain_preimage ms pv pr ≠ Ok x).
Proof.
  intros Hc Hc' (x & -> & Hx)%cache_preimage_Ok (y & -> & Hy)%cache_preimage_Ok. split_and!.
  - intros <-%app_inv_head. destruct (_encode_chunk_prefix _ _ _ _ [] [] Hx Hy eq_refl) as [Hs _].
    apply app_sep_inj in Hs as [Hcc Htt]; [|done..].
    injection Htt as Htt. split; by apply str_bytes_inj.
  - by intros files (_ & body & [=] & _)%content_preimage_Ok.
  - by intros ms pv pr (body & [=] & _)%toolchain_preimage_Ok.
  - by intros files ms pv pr z (_ & body & -> & _)%content_preimage_Ok (body' & [=] & _)%toolchain_preimage_Ok.
Qed.

(** ** Witnesses *)

Module CanonicalSamples.

(** NFC is the identity on ASCII; any function will do for the digest. *)
Definition ascii_nfc (s : points) : points := s.
Definition no_hash (b : bytes) : string := "".

(** "a/b" and "c". *)
Definition f1 : Entry := ([97; 47; 98], 33188, [1; 2]).
Definition f2 : Entry := ([99], 420, []).

Definition preimage_of (l : list Entry) : bytes :=
  match content_preimage ascii_nfc l with Ok b => b | Err _ => [] end.

Lemma content_preimage_iff_witness :
  preimage_of [f1; f2] = preimage_of [f2; f1] ∧ preimage_of [f1; f2] ≠ preimage_of [f1].
Proof.
  split.
  - apply (content_preimage_iff ascii_nfc [f1; f2] [f2; f1]); [vm_compute; reflexivity..|].
    apply Permutation_swap.
  - intros E. apply (content_preimage_iff ascii_nfc [f1; f2] [f1]) in E;
      [|vm_compute; reflexivity..].
    by apply Permutation_length in E.
Defined.

Lemma content_hash_order_independent_witness :
  content_hash ascii_nfc no_hash [f2; f1] = Ok "".
Proof.
  apply (content_hash_order_independent ascii_nfc no_hash [f1; f2]).
  - apply Permutation_swap.
  - vm_compute. reflexivity.
Defined.

Lemma accepted_path_confined_witness :
  foldl resolve_step [[120]] (split_on slash [97; 47; 98]) = [[120]; [97]; [98]].
Proof.
  destruct (accepted_path_confined ascii_nfc [97; 47; 98] [97; 47; 98]) as (_ & _ & H);
    [vm_compute; reflexivity|].
  apply (H [[120]]).
Defined.

(** "../x" is refused, with either separator. *)
Example traversal_refused :
  _validate_and_normalize_path ascii_nfc [46; 46; 47; 120] = Err illegal_segment ∧
  _validate_and_normalize_path ascii_nfc [46; 46; 92; 120] = Err illegal_segment ∧
  _validate_and_normalize_path ascii_nfc [47; 120] = Err absolute_path ∧
  _validate_and_normalize_path ascii_nfc [67; 58; 120] = Err drive_letter.
Proof. vm_compute. tauto. Qed.

Definition m1 : EngineMetadata := mkEngineMetadata "static" "1" "d1" [STATIC] false false true.
Definition m2 : EngineMetadata := mkEngineMetadata "yara" "2" "d2" [STATIC] false false true.

Definition tool_of (ms : list EngineMetadata) (pv : string) : bytes :=
  match toolchain_preimage ms pv "none" with Ok b => b | Err _ => [] end.

Lemma toolchain_preimage_iff_witness :
  tool_of [m1; m2] "v1" = tool_of [m2; m1] "v1" ∧ tool_of [m1] "v1" ≠ tool_of [m1] "v2".
Proof.
  split.
  - apply (toolchain_preimage_iff [m1; m2] [m2; m1] "v1" "v1" "none" "none");
      [vm_compute; reflexivity..|].
    split; [apply Permutation_swap|done].
  - intros E. apply (toolchain_preimage_iff [m1] [m1] "v1" "v2" "none" "none") in E;
      [|vm_compute; reflexivity..].
    by destruct E as (_ & ? & _).
Defined.

Lemma cache_key_binding_witness :
  cache_preimage "ab" "cd" ≠ cache_preimage "ab" "ce".
Proof.
  destruct (cache_preimage "ab" "cd") as [b|] eqn:E; [|by vm_compute in E].
  destruct (cache_preimage "ab" "ce") as [b'|] eqn:E'; [|by vm_compute in E'].
  intros [= H].
  assert (Hn : colon ∉ str_bytes "ab") by (vm_compute; by intros [?|[?|?%elem_of_nil]%elem_of_cons]%elem_of_cons).
  destruct (cache_key_binding ascii_nfc "ab" "ab" "cd" "ce" b b' Hn Hn E E') as [Hb _].
  by destruct (Hb H) as [_ ?].
Defined.
End CanonicalSamples.
