(* ===== verification/PolicyDigest.v ===== *)
(** * The policy's digest

    [libs/skillscan_core/models.py]: [_canonical_policy_term],
    [GatePolicy.adjudication_semantics] and [GatePolicy.cache_policy_version], the
    policy identity that enters the toolchain digest and so the cache key (INV-7).
    CPython's [repr] of a string and of a float are parameters, with the laws of
    [repr_laws]; SHA-256 is a parameter.  A float is its value, a rational, and for a zero
    also its sign: [-0.0] equals [0.0] and passes every range check, but prints
    differently.  The sign of the zero a policy holds under a field is [zeros field]. *)

From S2P Require Import Prelude Float64 Models Scoring Gate Canonical.
From Stdlib Require Import QArith Ascii.
Open Scope string_scope.
Open Scope list_scope.
Open Scope Z_scope.

Definition newline : string := String (Ascii.ascii_of_nat 10) "".
Definition _POLICY_SEMANTICS_DOMAIN : string := "skillscan.gate_policy.adjudication_semantics.v1".

Definition weight_items (w : CategoryWeights) : list (string * Q) :=
  [("instruction", w_instruction w); ("code", w_code w); ("data_credential", w_data_credential w);
   ("network_intel", w_network_intel w); ("permission", w_permission w);
   ("file_package", w_file_package w); ("supply_chain", w_supply_chain w);
   ("bundled_component", w_bundled_component w)].

(** [CategoryWeights.non_default_items]. *)
Definition non_default_items (w : CategoryWeights) : list (string * Q) :=
  base.filter (λ nv : string * Q, Qeq_bool nv.2 1 = false) (weight_items w).

Section digest.
Variable repr_str : string → string.
(** [repr_float negative q]: the sign matters for zero only. *)
Variable repr_float : bool → Q → string.
Variable sha256 : list Z → string.

(** [_canonical_policy_term], one definition per type it is called on. *)
Definition severity_term (s : Severity) : string := "Severity." +:+ sev_name s.
Definition verdict_term (v : Verdict) : string := "Verdict." +:+ verdict_name v.
Definition set_term (s : gset string) : string :=
  "{" +:+ join "," (sort_by str_le (map repr_str (elements s))) +:+ "}".
Definition item_term (zeros : string → bool) (nv : string * Q) : string :=
  nv.1 +:+ "=" +:+ repr_float (zeros nv.1) nv.2.
Definition weights_term (zeros : string → bool) (w : CategoryWeights) : string :=
  "cw(" +:+ join "," (map (item_term zeros) (non_default_items w)) +:+ ")".
Definition pair_term (ab : string * string) : string :=
  "[" +:+ join "," [repr_str ab.1; repr_str ab.2] +:+ "]".

(** [sorted((tier.value, threshold.name) for tier in TrustTier)]. *)
Definition tier_pairs (p : GatePolicy) : list (string * string) :=
  sort_by (le_pair str_le str_le)
    (map (λ t, (tier_value t, sev_name (block_threshold p t))) TrustTier_all).
Definition tiers_term (p : GatePolicy) : string := "[" +:+ join "," (map pair_term (tier_pairs p)) +:+ "]".

Definition adjudication_semantics (zeros : string → bool) (p : GatePolicy) : string :=
  _POLICY_SEMANTICS_DOMAIN +:+ newline +:+
  join newline
    ["required_engines=" +:+ set_term (required_engines p);
     "hard_gate_rules=" +:+ set_term (hard_gate_rules p);
     "review_confidence=" +:+ repr_float (zeros "review_confidence") (review_confidence p);
     "block_on_severity=" +:+ severity_term (block_on_severity p);
     "review_on_severity=" +:+ severity_term (review_on_severity p);
     "tier_block_overrides=" +:+ tiers_term p;
     "allowlistable_max_severity=" +:+ severity_term (allowlistable_max_severity p);
     "fail_closed_verdict=" +:+ verdict_term (fail_closed_verdict p);
     "category_weights=" +:+ weights_term zeros (category_weights p)].

Definition cache_policy_version (zeros : string → bool) (p : GatePolicy) : string :=
  version p +:+ "+p1:" +:+ sha256 (str_bytes (adjudication_semantics zeros p)).

(** ** What the digest must distinguish *)

(** Two policies that cannot be told apart by any adjudication. *)
Definition same_adjudication (p q : GatePolicy) : Prop :=
  required_engines p = required_engines q ∧ hard_gate_rules p = hard_gate_rules q ∧
  (review_confidence p == review_confidence q)%Q ∧
  block_on_severity p = block_on_severity q ∧ review_on_severity p = review_on_severity q ∧
  (∀ t, block_threshold p t = block_threshold q t) ∧
  allowlistable_max_severity p = allowlistable_max_severity q ∧
  fail_closed_verdict p = fail_closed_verdict q ∧
  (∀ c, for_category (category_weights p) c == for_category (category_weights q) c)%Q.

(** The zeros of the two policies carry the same signs. *)
Definition same_zeros (zp : string → bool) (p : GatePolicy) (zq : string → bool) (q : GatePolicy) : Prop :=
  ((review_confidence p == 0)%Q → (review_confidence q == 0)%Q → zp "review_confidence" = zq "review_confidence") ∧
  ∀ c, (for_category (category_weights p) c == 0)%Q → (for_category (category_weights q) c == 0)%Q →
       zp (category_value c) = zq (category_value c).

Definition float_char (c : Ascii.ascii) : bool :=
  negb (bool_decide (c ∈ String.list_ascii_of_string ("," +:+ ")" +:+ newline))).

(** What the code relies on of [repr]: a string's is quoted, so it ends where its
    closing quote is; a float's has no comma, parenthesis or newline; both determine
    the value, and equal floats print alike unless they are zeros of different signs. *)
Record repr_laws : Prop := {
  rl_str : ∀ a b x y, repr_str a +:+ x = repr_str b +:+ y → a = b ∧ x = y;
  rl_quote : ∀ a, ∃ r, repr_str a = String "'"%char r ∨ repr_str a = String (Ascii.ascii_of_nat 34) r;
  rl_chars : ∀ s q, forallb float_char (String.list_ascii_of_string (repr_float s q)) = true;
  rl_float : ∀ s p t q, repr_float s p = repr_float t q ↔ (p == q)%Q ∧ ((p == 0)%Q → s = t);
}.

(** ** Reading the string back *)

(** Comma-separated items without commas or closing parentheses, up to the parenthesis. *)
Lemma join_items_inj l1 l2 :
  Forall (λ s, s ≠ "" ∧ forallb float_char (String.list_ascii_of_string s) = true) l1 →
  Forall (λ s, s ≠ "" ∧ forallb float_char (String.list_ascii_of_string s) = true) l2 →
  join "," l1 +:+ ")" = join "," l2 +:+ ")" → l1 = l2.
Proof.
  intros H1. revert l2. induction H1 as [|a l1 [Ha Hga] _ IH]; intros l2 H2 E.
  - destruct H2 as [|b l2 [Hb Hgb] _]; [done|]. exfalso. destruct b as [|h b]; [done|].
    cbn in Hgb. apply andb_true_iff in Hgb as [Hh _]. destruct l2; cbn in E; injection E as <- _; by vm_compute in Hh.
  - destruct H2 as [|b l2 [Hb Hgb] H2].
    { exfalso. destruct a as [|h a]; [done|]. cbn in Hga. apply andb_true_iff in Hga as [Hh _].
      destruct l1; cbn in E; injection E as -> _; by vm_compute in Hh. }
    assert (Hc : ∀ l, ∃ c x, (∀ s, join "," (s :: l) +:+ ")" = s +:+ String c x) ∧ float_char c = false ∧
      match l with [] => c = ")"%char | _ => c = ","%char ∧ x = join "," l +:+ ")" end).
    { intros [|s' l].
      - by exists ")"%char, "".
      - exists ","%char, (join "," (s' :: l) +:+ ")"). split_and!; [|by vm_compute|done..].
        intros s. change (join "," (s :: s' :: l)) with (s +:+ "," +:+ join "," (s' :: l)).
        by rewrite !app_assoc_s. }
    destruct (Hc l1) as (c1 & x1 & Ex1 & Hg1 & Hl1). destruct (Hc l2) as (c2 & x2 & Ex2 & Hg2 & Hl2).
    rewrite Ex1, Ex2 in E. destruct (delimited float_char _ _ _ _ _ _ Hga Hgb Hg1 Hg2 E) as (-> & -> & ->).
    f_equal. destruct l1 as [|a1 l1], l2 as [|b2 l2]; [done|..].
    + destruct Hl2 as [-> _]. discriminate Hl1.
    + destruct Hl1 as [-> _]. discriminate Hl2.
    + destruct Hl1 as [_ Hl1], Hl2 as [_ Hl2]. apply IH; [done|]. by rewrite <-Hl1, <-Hl2.
Qed.

Section laws.
Context (Hlaws : repr_laws).

Lemma repr_not_brace a x y : repr_str a +:+ x ≠ "}" +:+ y.
Proof. destruct (rl_quote Hlaws a) as (r & [-> | ->]); done. Qed.

Lemma join_reprs_inj l1 l2 x y :
  join "," (map repr_str l1) +:+ "}" +:+ x = join "," (map repr_str l2) +:+ "}" +:+ y → l1 = l2 ∧ x = y.
Proof.
  assert (Hc : ∀ s l z, join "," (map repr_str (s :: l)) +:+ "}" +:+ z =
    repr_str s +:+ match l with [] => "}" +:+ z | _ => "," +:+ join "," (map repr_str l) +:+ "}" +:+ z end).
  { intros s [|s' l] z; [done|]. cbn [map].
    change (join "," (repr_str s :: repr_str s' :: map repr_str l))
      with (repr_str s +:+ "," +:+ join "," (repr_str s' :: map repr_str l)). by rewrite !app_assoc_s. }
  revert l2. induction l1 as [|a l1 IH]; intros [|b l2] E.
  - split; [done|]. by apply (inj (String.append "}")) in E.
  - rewrite Hc in E. symmetry in E. by apply repr_not_brace in E.
  - rewrite Hc in E. by apply repr_not_brace in E.
  - rewrite !Hc in E. apply (rl_str Hlaws) in E as [-> E].
    destruct l1 as [|a1 l1], l2 as [|b2 l2]; [|discriminate E..|].
    + apply (inj (String.append "}")) in E as ->. done.
    + apply (inj (String.append ",")), IH in E as [-> ->]. done.
Qed.

Lemma set_term_inj S T x y : set_term S +:+ x = set_term T +:+ y → S = T ∧ x = y.
Proof.
  assert (Hp : ∀ X : gset string, ∃ l : list string,
    sort_by str_le (map repr_str (elements X)) = map repr_str l ∧ ∀ s, s ∈ l ↔ s ∈ X).
  { intros X. pose proof (sort_by_perm str_le (map repr_str (elements X))) as P.
    apply Permutation_map_inv in P as (l & E & P). exists l. split; [done|]. intros s.
    rewrite <-P. apply elem_of_elements. }
  unfold set_term. destruct (Hp S) as (lS & -> & HS), (Hp T) as (lT & -> & HT).
  rewrite !app_assoc_s. intros E. apply (inj (String.append "{")) in E.
  apply join_reprs_inj in E as [-> ->]. split; [|done]. apply set_eq. intros s. by rewrite <-HS, <-HT.
Qed.

Lemma repr_float_line s t p q x y :
  repr_float s p +:+ newline +:+ x = repr_float t q +:+ newline +:+ y → ((p == q)%Q ∧ ((p == 0)%Q → s = t)) ∧ x = y.
Proof.
  assert (Hn : float_char (Ascii.ascii_of_nat 10) = false) by (vm_compute; reflexivity).
  intros E. destruct (delimited float_char (repr_float s p) (repr_float t q) x y _ _ (rl_chars Hlaws s p)
    (rl_chars Hlaws t q) Hn Hn E) as (Er & _ & ->). split; [|done]. by apply (rl_float Hlaws).
Qed.

Lemma severity_line_inj a b x y :
  severity_term a +:+ newline +:+ x = severity_term b +:+ newline +:+ y → a = b ∧ x = y.
Proof. by destruct a, b; intros [=]; subst. Qed.

Lemma verdict_line_inj a b x y :
  verdict_term a +:+ newline +:+ x = verdict_term b +:+ newline +:+ y → a = b ∧ x = y.
Proof. by destruct a, b; intros [=]; subst. Qed.

Lemma tier_pairs_eq p :
  tier_pairs p = map (λ t, (tier_value t, sev_name (block_threshold p t))) TrustTier_all.
Proof. by unfold tier_pairs. Qed.

Lemma sev_name_inj a b : sev_name a = sev_name b → a = b.
Proof. by destruct a, b. Qed.

Lemma tiers_term_inj p q x y :
  tiers_term p +:+ x = tiers_term q +:+ y → (∀ t, block_threshold p t = block_threshold q t) ∧ x = y.
Proof.
  unfold tiers_term. rewrite !tier_pairs_eq. cbn [map TrustTier_all tier_value].
  cbn [join]. unfold pair_term. cbn [join fst snd]. rewrite !app_assoc_s. intros E.
  repeat first [apply (inj (String.append "[")) in E|apply (inj (String.append ",")) in E
    |apply (inj (String.append "]")) in E
    |match type of E with repr_str ?a +:+ _ = repr_str ?b +:+ _ =>
       let H := fresh "H" in apply (rl_str Hlaws) in E as [H E] end].
  split; [|done]. repeat match goal with H : sev_name _ = sev_name _ |- _ => apply sev_name_inj in H end.
  by intros [].
Qed.

Lemma weight_items_names w n v : (n, v) ∈ weight_items w → n ∈ (weight_items CategoryWeights_default).*1.
Proof.
  unfold weight_items. rewrite !elem_of_cons, elem_of_nil. cbn. rewrite !elem_of_cons, elem_of_nil.
  intuition congruence.
Qed.

Lemma weight_items_key w n v v' : (n, v) ∈ weight_items w → (n, v') ∈ weight_items w → v = v'.
Proof. unfold weight_items. rewrite !elem_of_cons, !elem_of_nil. intuition congruence. Qed.

Lemma weight_items_category w c : (category_value c, for_category w c) ∈ weight_items w.
Proof. unfold weight_items. rewrite !elem_of_cons. destruct c; cbn; tauto. Qed.

Definition name_char (c : Ascii.ascii) : bool := float_char c && negb (Ascii.eqb c "="%char).

Lemma names_ok n :
  n ∈ (weight_items CategoryWeights_default).*1 →
  n ≠ "" ∧ forallb name_char (String.list_ascii_of_string n) = true.
Proof. cbn. rewrite !elem_of_cons, elem_of_nil. intuition (subst; done). Qed.

Lemma item_term_ok z w nv :
  nv ∈ weight_items w →
  item_term z nv ≠ "" ∧ forallb float_char (String.list_ascii_of_string (item_term z nv)) = true.
Proof.
  destruct nv as [n v]. intros [Hn Hg]%weight_items_names%names_ok. unfold item_term. cbn [fst snd]. split.
  - by destruct n.
  - rewrite !list_ascii_app, !forallb_app, (rl_chars Hlaws _ v), andb_true_r.
    apply forallb_true. intros c Hc.
    rewrite forallb_true in Hg. apply Hg in Hc. by apply andb_true_iff in Hc as [? _].
Qed.

Lemma item_term_inj z z' n v n' v' :
  n ∈ (weight_items CategoryWeights_default).*1 → n' ∈ (weight_items CategoryWeights_default).*1 →
  item_term z (n, v) = item_term z' (n', v') → n = n' ∧ (v == v')%Q ∧ ((v == 0)%Q → z n = z' n).
Proof.
  intros [_ H]%names_ok [_ H']%names_ok E. unfold item_term in E. cbn [fst snd] in E.
  assert (Hc : name_char "="%char = false) by (vm_compute; reflexivity).
  destruct (delimited name_char n n' _ _ _ _ H H' Hc Hc E) as (-> & _ & Er).
  split; [done|]. by apply (rl_float Hlaws) in Er.
Qed.

(** One policy's weight for a category that the other policy prints alike. *)
Lemma weights_transfer z z' p q c :
  map (item_term z) (non_default_items p) = map (item_term z') (non_default_items q) →
  Qeq_bool (for_category p c) 1 = false →
  (for_category p c == for_category q c)%Q ∧ ((for_category p c == 0)%Q → z (category_value c) = z' (category_value c)).
Proof.
  intros E H. pose proof (weight_items_category p c) as Hp. pose proof (weight_items_category q c) as Hq.
  assert (Hin : item_term z (category_value c, for_category p c) ∈ map (item_term z') (non_default_items q)).
  { rewrite <-E. apply list_elem_of_fmap_2. apply list_elem_of_filter. by split. }
  apply list_elem_of_fmap in Hin as ([n v] & En & [_ Hin]%list_elem_of_filter).
  apply item_term_inj in En as (<- & Hv & Hz); [|by eapply weight_items_names..].
  split; [|done]. rewrite Hv. by rewrite (weight_items_key q _ _ _ Hin Hq).
Qed.

Lemma weights_term_inj z z' p q :
  weights_term z p = weights_term z' q →
  ∀ c, (for_category p c == for_category q c)%Q ∧ ((for_category p c == 0)%Q → z (category_value c) = z' (category_value c)).
Proof.
  unfold weights_term. intros E c. apply (inj (String.append "cw(")) in E.
  assert (Hok : ∀ z w, Forall (λ s, s ≠ "" ∧ forallb float_char (String.list_ascii_of_string s) = true)
                       (map (item_term z) (non_default_items w))).
  { intros z0 w. apply Forall_forall. intros s (nv & -> & [_ Hnv]%list_elem_of_filter)%list_elem_of_fmap.
    by eapply item_term_ok. }
  apply join_items_inj in E; [|apply Hok..].
  destruct (Qeq_bool (for_category p c) 1) eqn:Ep; [|by apply weights_transfer].
  apply Qeq_bool_iff in Ep. split; [|intros H0; by rewrite Ep in H0].
  destruct (Qeq_bool (for_category q c) 1) eqn:Eq; [apply Qeq_bool_iff in Eq; by rewrite Ep, Eq|].
  symmetry. by apply (weights_transfer z' z q p).
Qed.

Lemma weights_term_eq z z' p q :
  (∀ c, (for_category p c == for_category q c)%Q ∧ ((for_category p c == 0)%Q → z (category_value c) = z' (category_value c))) →
  weights_term z p = weights_term z' q.
Proof.
  intros H. assert (HF : Forall2 (λ a b : string * Q, a.1 = b.1 ∧ (a.2 == b.2)%Q ∧ ((a.2 == 0)%Q → z a.1 = z' a.1)) (weight_items p) (weight_items q)).
  { unfold weight_items. repeat constructor; cbn;
      first [apply (H INSTRUCTION)|apply (H CODE)|apply (H DATA_CREDENTIAL)|apply (H NETWORK_INTEL)
            |apply (H PERMISSION)|apply (H FILE_PACKAGE)|apply (H SUPPLY_CHAIN)|apply (H BUNDLED_COMPONENT)]. }
  unfold weights_term, non_default_items. do 3 f_equal.
  induction HF as [|[n v] [n' v'] l l' (Hn & Hv & Hz) _ IH]; [done|]. cbn in Hn, Hv, Hz. subst n'.
  rewrite !filter_cons. cbn [snd].
  assert (Eb : Qeq_bool v 1 = Qeq_bool v' 1) by (apply eq_true_iff_eq; rewrite !Qeq_bool_iff; by rewrite Hv).
  rewrite <-Eb. case_decide; [|done]. cbn [map]. rewrite IH. f_equal. unfold item_term; cbn [fst snd].
  by rewrite (proj2 (rl_float Hlaws (z n) v (z' n) v') (conj Hv Hz)).
Qed.

(** C14: INV-7.  The policy's digest binds exactly what adjudication reads: two policies
    have the same [adjudication_semantics], the text that is hashed into the cache
    key, if and only if they agree on the required engines, the hard gates, the
    confidence and severity thresholds, the block threshold of every tier, the
    waivable severity, the fail-closed verdict and every category weight, whatever
    the order, duplicates or spelling they were written with, and a zero that both hold
    has the same sign in both: policies that differ in the sign of a zero decide alike
    and have different digests, which costs a cache hit.  (Of [repr] it uses that a
    string's and a float's determine the value, that a float's has no separator in it,
    and that equal floats print alike except zeros of different signs.) *)
Theorem adjudication_semantics_iff zp p zq q :
  adjudication_semantics zp p = adjudication_semantics zq q ↔ same_adjudication p q ∧ same_zeros zp p zq q.
Proof.
  unfold adjudication_semantics, same_zeros. split.
  - intros E. do 2 apply (inj (String.append _)) in E. cbn [join] in E. rewrite !app_assoc_s in E.
    apply (inj (String.append _)), set_term_inj in E as [H1 E].
    apply (inj (String.append _)), (inj (String.append _)), set_term_inj in E as [H2 E].
    apply (inj (String.append _)), (inj (String.append _)), repr_float_line in E as [[H3 Hz] E].
    apply (inj (String.append _)), severity_line_inj in E as [H4 E].
    apply (inj (String.append _)), severity_line_inj in E as [H5 E].
    apply (inj (String.append _)), tiers_term_inj in E as [H6 E].
    apply (inj (String.append _)), (inj (String.append _)), severity_line_inj in E as [H7 E].
    apply (inj (String.append _)), verdict_line_inj in E as [H8 E].
    apply (inj (String.append _)) in E. pose proof (weights_term_inj _ _ _ _ E) as Hw.
    repeat split; try done; [intros c; by destruct (Hw c)|by auto|intros c H0 _; by apply Hw].
  - intros [(H1 & H2 & H3 & H4 & H5 & H6 & H7 & H8 & H9) [Hz Hw]].
    assert (Ht : tiers_term p = tiers_term q).
    { unfold tiers_term. rewrite !tier_pairs_eq. cbn [map TrustTier_all]. by rewrite !H6. }
    assert (Hf : repr_float (zp "review_confidence") (review_confidence p) = repr_float (zq "review_confidence") (review_confidence q)).
    { apply (rl_float Hlaws). split; [done|]. intros H0. apply Hz; [done|]. by rewrite <- H3. }
    rewrite H1, H2, Hf, H4, H5, Ht, H7, H8, (weights_term_eq zp zq (category_weights p) (category_weights q)); [done|].
    intros c. split; [done|]. intros H0. apply Hw; [done|]. by rewrite <- H9.
Qed.
End laws.
End digest.

(** ** Equal digests decide alike *)

Section decisions.
Context (exp64 : Q → Q) (p q : GatePolicy) (Hpq : same_adjudication p q).

Lemma classify_same s c t : classify s c p t = classify s c q t.
Proof.
  destruct Hpq as (_ & _ & Hc & _ & Hr & Hb & _). unfold classify. rewrite (Hb t), Hr.
  assert (E : qlt c (review_confidence p) = qlt c (review_confidence q)).
  { apply eq_true_iff_eq. rewrite !qlt_iff. by rewrite Hc. }
  by rewrite E.
Qed.

Lemma security_score_same v fs pin :
  security_score exp64 v fs pin (category_weights p) = security_score exp64 v fs pin (category_weights q).
Proof.
  assert (E : penalty_term (category_weights p) <$> fs = penalty_term (category_weights q) <$> fs).
  { apply list_fmap_ext. intros i f _. unfold penalty_term. apply rnd64_eq.
    destruct Hpq as (_ & _ & _ & _ & _ & _ & _ & _ & Hw). by rewrite Hw. }
  unfold security_score. by rewrite E.
Qed.

Lemma aggregate_same ch rs mc mf : aggregate ch rs p mc mf = aggregate ch rs q mc mf.
Proof. destruct Hpq as (H1 & H2 & _). unfold aggregate, missing_or_failed. by rewrite H1, H2. Qed.

Lemma effective_same sr al now sid : effective sr p al now sid = effective sr q al now sid.
Proof.
  destruct Hpq as (_ & H2 & _ & _ & _ & _ & H7 & _). unfold effective, is_waived. by rewrite H2, H7.
Qed.

Lemma restore_same sr al now mc sid s t :
  restore sr p al now mc sid s t = restore sr q al now mc sid s t ∧
  dedup_signal_restored sr p al now mc sid = dedup_signal_restored sr q al now mc sid.
Proof.
  destruct Hpq as (_ & H2 & _).
  unfold restore, dedup_signal_restored, dedup_collisions_fully_waived, rule_id_actively_waived,
    trifecta_lost, severity_lost. by rewrite H2.
Qed.

(** A cached verdict is the verdict.  Two policies with the same adjudication
    semantics aggregate every scan alike and decide it alike: same verdict, reasons,
    severity, trifecta, hard-gate hits, fail-closed mark and score, for every tier,
    allowlist and time; only the recorded policy version may differ. *)
Theorem same_semantics_same_decision ch rs mf sr t al now sid :
  aggregate ch rs p 0 mf = aggregate ch rs q 0 mf ∧
  let a := gate_decide exp64 sr p t al now 0 sid in
  let b := gate_decide exp64 sr q t al now 0 sid in
  a = mkVerdictResult (vr_verdict b) (vr_reasons b) (version p) (vr_effective_severity b)
        (vr_trifecta_present b) (vr_hard_gate_hits b) (vr_fail_closed b) (vr_score b).
Proof.
  split; [apply aggregate_same|]. cbn zeta. unfold gate_decide, non_llm_effective.
  rewrite !effective_same, !security_score_same.
  destruct Hpq as (_ & H2 & _ & _ & _ & _ & _ & H8 & _).
  unfold combined_hard_gate. rewrite H2, H8.
  destruct (negb (sr_required_ok sr)); [by rewrite ?security_score_same|].
  destruct (negb _); [by rewrite ?security_score_same|].
  destruct (evaluate_findings _ _ _) as [[[s1 c1] t1] h1]. destruct (evaluate_findings _ _ _) as [[[s2 c2] t2] h2].
  destruct (restore_same sr al now 0 sid s1 t1) as [-> ->].
  destruct (restore _ _ _ _ _ _ _ _) as [s3 t3]. by rewrite !classify_same, ?security_score_same.
Qed.
End decisions.

(** ** A [repr] that satisfies the laws *)

Module DigestSamples.
Import Samples.

(** Single quotes, with quotes and backslashes escaped. *)
Fixpoint escape (s : string) : string :=
  match s with
  | "" => "'"
  | String c s' =>
      if Ascii.eqb c "'"%char || Ascii.eqb c "\"%char then String "\"%char (String c (escape s'))
      else String c (escape s')
  end.
Definition quote (s : string) : string := String "'"%char (escape s).

Fixpoint digits (n : positive) : string :=
  match n with xH => "h" | xO n' => String "0"%char (digits n') | xI n' => String "1"%char (digits n') end.
Definition integer (z : Z) : string :=
  match z with Z0 => "z" | Zpos n => String "p"%char (digits n) | Zneg n => String "n"%char (digits n) end.
Definition fraction (q : Q) : string := integer (Qnum (Qred q)) +:+ "/" +:+ digits (Qden (Qred q)).

Lemma escape_inj a b x y : escape a +:+ x = escape b +:+ y → a = b ∧ x = y.
Proof.
  revert b. induction a as [|c a IH]; intros [|d b].
  - intros E. by injection E.
  - cbn. destruct (Ascii.eqb d "'"%char) eqn:Eq; cbn; [discriminate|].
    destruct (Ascii.eqb d "\"%char) eqn:Es; cbn; [discriminate|]. intros [= <- _]. by vm_compute in Eq.
  - cbn. destruct (Ascii.eqb c "'"%char) eqn:Eq; cbn; [discriminate|].
    destruct (Ascii.eqb c "\"%char) eqn:Es; cbn; [discriminate|]. intros [= -> _]. by vm_compute in Eq.
  - cbn. destruct (Ascii.eqb c "'"%char) eqn:Eq, (Ascii.eqb c "\"%char) eqn:Es,
      (Ascii.eqb d "'"%char) eqn:Eq', (Ascii.eqb d "\"%char) eqn:Es'; cbn; intros E; injection E;
      intros; subst; try discriminate;
      match goal with H : _ = escape b +:+ y |- _ => apply IH in H as [-> ->]; done end.
Qed.

Lemma digits_chars n : forallb float_char (String.list_ascii_of_string (digits n)) = true.
Proof. induction n as [n IH|n IH|]; cbn; [by rewrite IH..|done]. Qed.

Lemma digits_inj m n : digits m = digits n → m = n.
Proof.
  revert n. induction m as [m IH|m IH|]; intros []; try discriminate; [..|done];
    intros E; injection E as E; f_equal; by apply IH.
Qed.

Definition digit_char (c : Ascii.ascii) : bool := negb (Ascii.eqb c "/"%char).

Lemma digits_digit n : forallb digit_char (String.list_ascii_of_string (digits n)) = true.
Proof. induction n as [n IH|n IH|]; cbn; [by rewrite IH..|done]. Qed.

Lemma integer_digit z : forallb digit_char (String.list_ascii_of_string (integer z)) = true.
Proof. destruct z; cbn; [done|by rewrite digits_digit..]. Qed.

Lemma integer_inj y z : integer y = integer z → y = z.
Proof. destruct y, z; try discriminate; [done|..]; intros E; injection E as E; f_equal; by apply digits_inj. Qed.

Lemma fraction_value p q : fraction p = fraction q ↔ (p == q)%Q.
Proof.
  unfold fraction. split.
  - intros E. assert (Hc : digit_char "/"%char = false) by reflexivity.
    destruct (delimited digit_char _ _ _ _ _ _ (integer_digit (Qnum (Qred p))) (integer_digit (Qnum (Qred q)))
      Hc Hc E) as (E1%integer_inj & _ & E2%digits_inj).
    rewrite <-(Qred_correct p), <-(Qred_correct q). destruct (Qred p), (Qred q). cbn in *. by subst.
  - intros E. by rewrite (Qred_complete _ _ E).
Qed.

(** With a minus before a negative zero. *)
Definition signed_fraction (negative : bool) (q : Q) : string :=
  if negative && Qeq_bool q 0 then String "-"%char (fraction q) else fraction q.

Lemma fraction_no_minus q : ∃ c r, fraction q = String c r ∧ c ≠ "-"%char.
Proof. unfold fraction. destruct (Qnum (Qred q)); cbn; eauto. Qed.

Lemma sample_laws : repr_laws quote signed_fraction.
Proof.
  split.
  - intros a b x y E. injection E as E. by apply escape_inj.
  - intros a. eexists. by left.
  - intros s q. assert (H : forallb float_char (String.list_ascii_of_string (fraction q)) = true).
    { unfold fraction. rewrite !list_ascii_app, !forallb_app, digits_chars.
      destruct (Qnum (Qred q)); cbn; [done|by rewrite digits_chars..]. }
    unfold signed_fraction. destruct (s && _); [cbn; by rewrite H|done].
  - intros s p t q. unfold signed_fraction. rewrite <- fraction_value.
    destruct (fraction_no_minus p) as (cp & rp & Ep & Hp), (fraction_no_minus q) as (cq & rq & Eq & Hq).
    destruct (s && Qeq_bool p 0) eqn:Es, (t && Qeq_bool q 0) eqn:Et.
    + apply andb_true_iff in Es as [-> _], Et as [-> _]. split; [intros [= ->]; done|intros [-> _]; done].
    + split; [rewrite Eq; intros [= <-]; done|]. intros [E H]. apply andb_true_iff in Es as [-> Ez%Qeq_bool_iff].
      rewrite <- (H Ez) in Et. cbn in Et. apply fraction_value in E. rewrite E in Ez. apply Qeq_bool_iff in Ez. congruence.
    + split; [rewrite Ep; intros [= ->]; done|]. intros [E H]. apply andb_true_iff in Et as [-> Ez%Qeq_bool_iff].
      apply fraction_value in E. rewrite <- E in Ez. rewrite (H Ez) in Es. cbn in Es. apply Qeq_bool_iff in Ez. congruence.
    + split; [|by intros [? _]]. intros E. split; [done|]. intros Ez. apply fraction_value in E. assert (Ez' := Ez). rewrite E in Ez'.
      apply Qeq_bool_iff in Ez, Ez'. rewrite Ez, andb_true_r in Es. rewrite Ez', andb_true_r in Et. congruence.
Qed.

(** The same policy with a duplicated, looser-ordered override list. *)
Definition reordered : GatePolicy :=
  mkGatePolicy "v1" {["floor"]} {["hard"]} (12#20) CRITICAL HIGH
    [(PUBLIC, CRITICAL); (PUBLIC, HIGH); (INTERNAL, CRITICAL)] HIGH BLOCK CategoryWeights_default.

Lemma adjudication_semantics_iff_witness : same_adjudication policy reordered.
Proof.
  apply (adjudication_semantics_iff quote signed_fraction sample_laws (λ _, false) policy (λ _, true) reordered).
  vm_compute. reflexivity.
Defined.

Lemma policy_reordered : same_adjudication policy reordered.
Proof. unfold same_adjudication. split_and!; try done; by intros []. Qed.

Lemma same_semantics_same_decision_witness :
  vr_verdict (gate_decide exp_step (scanned [engine "floor" OK []] 10) policy PUBLIC [] 0 0 None) =
  vr_verdict (gate_decide exp_step (scanned [engine "floor" OK []] 10) reordered PUBLIC [] 0 0 None).
Proof.
  destruct (same_semantics_same_decision exp_step policy reordered policy_reordered "h" [] 10
              (scanned [engine "floor" OK []] 10) PUBLIC [] 0 None) as [_ E].
  exact (f_equal vr_verdict E).
Defined.
End DigestSamples.
