(* ===== verification/Lifecycle.v ===== *)
(** * The skill lifecycle and skill ownership: pure rules

    [apps/monolith/modules/inventory/lifecycle.py] (the state machine a skill moves
    through and which queued reviews are still actionable),
    [inventory/ownership.py] (who may write, read or be given a skill) and
    [orchestration/drift.py]'s comparison.  States are the strings the code
    stores; an unknown state is an error value. *)

From S2P Require Import Prelude.
Open Scope string_scope.
Open Scope list_scope.

(** ** [lifecycle.py] *)

Definition VALID_TRANSITIONS : list (string * list string) :=
  [("submitted", ["scanning"]);
   ("scanning", ["published"; "review_pending"; "retired"; "blocked"]);
   ("review_pending", ["published"; "retired"; "submitted"]);
   ("published", ["quarantined"; "retired"; "submitted"]);
   ("quarantined", ["published"; "retired"]);
   ("blocked", ["scanning"; "retired"; "submitted"]);
   ("retired", [])].

Definition ALL_STATES : list string := VALID_TRANSITIONS.*1.

Definition REVIEW_ACTIONABLE_STATE : string := "review_pending".

(** [VALID_TRANSITIONS[from_state]]. *)
Definition targets_from (from_state : string) : list string :=
  match find (λ kv, String.eqb kv.1 from_state) VALID_TRANSITIONS with
  | Some kv => kv.2
  | None => []
  end.

Record LifecyclePosition := mkLifecyclePosition {
  lp_skill_id : string;
  lp_state : string;
  lp_content_hash : option string;
}.

Definition pending_review_is_superseded (position : option LifecyclePosition)
    (review_content_hash : string) : bool :=
  match position with
  | None => false
  | Some p =>
      negb (String.eqb (lp_state p) REVIEW_ACTIONABLE_STATE &&
            bool_decide (lp_content_hash p = Some review_content_hash))
  end.

Inductive InvalidTransitionError :=
| unknown_target (to_state : string)
| first_event_not_submitted (to_state : string)
| unknown_source (from_state : string)
| cannot_transition (from_state to_state : string).

Definition validate_transition (from_state : option string) (to_state : string)
    : result InvalidTransitionError unit :=
  _ ← guard_err (bool_decide (to_state ∈ ALL_STATES)) (unknown_target to_state);
  match from_state with
  | None => guard_err (String.eqb to_state "submitted") (first_event_not_submitted to_state)
  | Some from =>
      _ ← guard_err (bool_decide (from ∈ ALL_STATES)) (unknown_source from);
      guard_err (bool_decide (to_state ∈ targets_from from)) (cannot_transition from to_state)
  end.

(** ** [ownership.py] *)

Definition MAX_OWNER_LENGTH : nat := 255.

Inductive SkillOwnershipError := no_recorded_owner | registered_to_another_identity.

Definition authorize_skill_write (recorded_owner : option string) (actor : string)
    (actor_is_admin : bool) : result SkillOwnershipError unit :=
  if actor_is_admin then Ok ()
  else match recorded_owner with
       | None => Err no_recorded_owner
       | Some owner => guard_err (String.eqb owner actor) registered_to_another_identity
       end.

Definition authorize_skill_read (recorded_owner : option string) (actor : string)
    : result SkillOwnershipError unit :=
  match recorded_owner with
  | None => Err no_recorded_owner
  | Some owner => guard_err (String.eqb owner actor) registered_to_another_identity
  end.

(** *** Whitespace and length of a UTF-8 encoded string *)

Definition byte_of (a : Ascii.ascii) : N := Ascii.N_of_ascii a.

(** Is the head of [l] one of Python's whitespace characters, and what follows it? *)
Definition space_head (l : list N) : option (list N) :=
  match l with
  | (b :: l')%N =>
      if ((9 <=? b) && (b <=? 13) || (28 <=? b) && (b <=? 32))%N then Some l'
      else match l with
      | (194 :: c :: l'')%N => if ((c =? 133) || (c =? 160))%N then Some l'' else None
      | (225 :: 154 :: 128 :: l'')%N => Some l''
      | (226 :: 128 :: c :: l'')%N =>
          if ((128 <=? c) && (c <=? 138) || (c =? 168) || (c =? 169) || (c =? 175))%N
          then Some l'' else None
      | (226 :: 129 :: 159 :: l'')%N => Some l''
      | (227 :: 128 :: 128 :: l'')%N => Some l''
      | _ => None
      end
  | [] => None
  end.

(** The same for the last character, on the reversed bytes. *)
Definition space_head_rev (l : list N) : option (list N) :=
  match l with
  | (b :: l')%N =>
      if ((9 <=? b) && (b <=? 13) || (28 <=? b) && (b <=? 32))%N then Some l'
      else match l with
      | (c :: 194 :: l'')%N => if ((c =? 133) || (c =? 160))%N then Some l'' else None
      | (128 :: 154 :: 225 :: l'')%N => Some l''
      | (c :: 128 :: 226 :: l'')%N =>
          if ((128 <=? c) && (c <=? 138) || (c =? 168) || (c =? 169) || (c =? 175))%N
          then Some l'' else None
      | (159 :: 129 :: 226 :: l'')%N => Some l''
      | (128 :: 128 :: 227 :: l'')%N => Some l''
      | _ => None
      end
  | [] => None
  end.

(** Drops characters while [head] recognises one; the fuel is the length. *)
Fixpoint drop_spaces (head : list N → option (list N)) (fuel : nat) (l : list N) : list N :=
  match fuel with
  | O => l
  | S fuel' => match head l with Some l' => drop_spaces head fuel' l' | None => l end
  end.

(** [s.strip()]. *)
Definition strip (s : string) : string :=
  let b := map byte_of (String.list_ascii_of_string s) in
  let l := drop_spaces space_head (length b) b in
  let r := rev (drop_spaces space_head_rev (length l) (rev l)) in
  String.string_of_list_ascii (map Ascii.ascii_of_N r).

(** [len(s)]: the code points, i.e. the bytes that do not continue one. *)
Definition py_len (s : string) : nat :=
  length (base.filter (λ a, ((128 <=? byte_of a) && (byte_of a <? 192))%N = false)
            (String.list_ascii_of_string s)).

Inductive OwnerError := owner_empty | owner_too_long | owner_conflict.

Definition normalize_owner (new_owner : string) : result OwnerError string :=
  let normalized := strip new_owner in
  _ ← guard_err (negb (String.eqb normalized "")) owner_empty;
  _ ← guard_err (Nat.leb (py_len normalized) MAX_OWNER_LENGTH) owner_too_long;
  Ok normalized.

Definition validate_owner_assignment (recorded_owner : option string) (new_owner : string)
    (expect_unowned : bool) : result OwnerError string :=
  normalized ← normalize_owner new_owner;
  _ ← guard_err (negb (expect_unowned && bool_decide (recorded_owner ≠ None))) owner_conflict;
  Ok normalized.

(** ** [drift.py] *)

Record DriftResult := mkDriftResult {
  has_baseline : bool;
  drifted : bool;
  baseline_content_hash : option string;
}.

Definition is_drift (baseline : option string) (current_content_hash : string) : bool :=
  match baseline with
  | None => false
  | Some h => negb (String.eqb h current_content_hash)
  end.

(** ** Lemmas *)

Lemma targets_from_cases f t :
  t ∈ targets_from f →
  (f, t) ∈ [("submitted", "scanning"); ("scanning", "published"); ("scanning", "review_pending");
            ("scanning", "retired"); ("scanning", "blocked"); ("review_pending", "published");
            ("review_pending", "retired"); ("review_pending", "submitted");
            ("published", "quarantined"); ("published", "retired"); ("published", "submitted");
            ("quarantined", "published"); ("quarantined", "retired"); ("blocked", "scanning");
            ("blocked", "retired"); ("blocked", "submitted")].
Proof.
  unfold targets_from, VALID_TRANSITIONS. cbn [find fst snd].
  repeat match goal with |- context [String.eqb ?s f] =>
    destruct (String.eqb_spec s f) as [<-|];
      [cbn [snd]; rewrite !elem_of_cons, !elem_of_nil; intuition (subst; auto 20)|] end.
  intros []%elem_of_nil.
Qed.

Lemma validate_from f t u : validate_transition (Some f) t = Ok u ↔ t ∈ targets_from f.
Proof.
  unfold validate_transition. destruct u. split.
  - intros H. ok_inv. by bool_prop.
  - intros H. pose proof (targets_from_cases _ _ H) as Hc.
    assert (Hin : f ∈ ALL_STATES ∧ t ∈ ALL_STATES).
    { rewrite !elem_of_cons, elem_of_nil in Hc.
      unfold ALL_STATES, VALID_TRANSITIONS; simpl.
      repeat destruct Hc as [[= -> ->]|Hc]; try done; rewrite !elem_of_cons; auto 10. }
    destruct Hin as [Hf Ht]. by rewrite !bool_decide_true by done.
Qed.

Lemma validate_genesis t u : validate_transition None t = Ok u ↔ t = "submitted".
Proof.
  unfold validate_transition. destruct u. split.
  - intros H. ok_inv. by str_prop.
  - by intros ->.
Qed.

(** The history of one skill, oldest first: every event was validated against
    the state before it. *)
Fixpoint valid_path (from : option string) (l : list string) : bool :=
  match l with
  | [] => true
  | to :: l' => is_ok (validate_transition from to) && valid_path (Some to) l'
  end.

Lemma valid_path_app from l1 l2 :
  valid_path from (l1 ++ l2) =
  valid_path from l1 && valid_path (match last l1 with Some s => Some s | None => from end) l2.
Proof.
  revert from. induction l1 as [|s l1 IH]; intros from; simpl; [done|].
  rewrite IH, andb_assoc. f_equal. rewrite last_cons. by destruct (last l1).
Qed.

Lemma valid_path_cons from s l :
  valid_path from (s :: l) = true ↔
  validate_transition from s = Ok () ∧ valid_path (Some s) l = true.
Proof.
  simpl. rewrite andb_true_iff. destruct (validate_transition from s) as [[]|]; naive_solver.
Qed.

Lemma valid_path_split from l1 s l2 :
  valid_path from (l1 ++ s :: l2) = true → valid_path (Some s) l2 = true.
Proof. rewrite valid_path_app. intros [_ H]%andb_true_iff. by apply valid_path_cons in H as [_ ?]. Qed.

(** States that cannot reach [published] without [scanning] in between. *)
Definition must_scan (s : string) : Prop := s = "blocked" ∨ s = "submitted" ∨ s = "retired".

Lemma must_scan_path s l l' :
  must_scan s → valid_path (Some s) (l ++ "published" :: l') = true → "scanning" ∈ l.
Proof.
  revert s. induction l as [|t l IH]; intros s Hs H; simpl app in H;
    apply valid_path_cons in H as [Ht%validate_from%targets_from_cases H];
    rewrite !elem_of_cons, elem_of_nil in Ht.
  - destruct Hs as [->|[->| ->]]; intuition congruence.
  - destruct (decide (t = "scanning")) as [->|Hn]; [left|]. right. apply (IH t); [|done].
    unfold must_scan. destruct Hs as [->|[->| ->]]; intuition congruence.
Qed.

(** The gates of the lifecycle, over every history the rules accept: a skill
    that was blocked, or submitted anew, is not published again without a scan in
    between; a quarantined skill can only be restored or retired, never
    resubmitted; a skill whose scan is in flight cannot be resubmitted; and
    retirement is final. *)
Theorem lifecycle_gates l1 s l2 :
  valid_path None (l1 ++ s :: l2) = true →
  ((s = "blocked" ∨ s = "submitted") → ∀ m l3, l2 = m ++ "published" :: l3 → "scanning" ∈ m) ∧
  (s = "quarantined" → ∀ t, head l2 = Some t → t = "published" ∨ t = "retired") ∧
  (s = "scanning" → head l2 ≠ Some "submitted") ∧
  (s = "retired" → l2 = []).
Proof.
  intros H%valid_path_split.
  assert (Hnext : ∀ t, head l2 = Some t → t ∈ targets_from s).
  { intros t Ht. destruct l2 as [|t' l2]; [done|]. simplify_eq/=.
    apply (valid_path_cons (Some s)) in H as [Hv _]. by apply validate_from in Hv. }
  split_and!.
  - intros Hs m l3 ->. eapply must_scan_path; [|exact H]. unfold must_scan. tauto.
  - intros -> t Ht%Hnext%targets_from_cases.
    rewrite !elem_of_cons, elem_of_nil in Ht. intuition congruence.
  - intros -> Ht%Hnext%targets_from_cases.
    rewrite !elem_of_cons, elem_of_nil in Ht. intuition congruence.
  - intros ->. destruct l2 as [|t l2]; [done|]. exfalso.
    specialize (Hnext t eq_refl). apply targets_from_cases in Hnext.
    rewrite !elem_of_cons, elem_of_nil in Hnext. intuition congruence.
Qed.

Lemma lifecycle_gates_witness : "scanning" ∈ ["submitted"; "scanning"].
Proof.
  destruct (lifecycle_gates ["submitted"; "scanning"] "blocked"
              ["submitted"; "scanning"; "published"]) as (H & _); [vm_compute; reflexivity|].
  exact (H (or_introl eq_refl) ["submitted"; "scanning"] [] eq_refl).
Defined.

(** Owner rules.  A non-admin may write a registered skill only as its recorded
    owner and an unowned one not at all; reading has no admin override; an
    assignment stores a non-empty identity of at most 255 characters and, when
    the caller expects the skill to be unowned, refuses one that has an owner. *)
Theorem ownership_rules owner actor admin new expect n :
  (authorize_skill_write owner actor admin = Ok () ↔ admin = true ∨ owner = Some actor) ∧
  (authorize_skill_read owner actor = Ok () ↔ owner = Some actor) ∧
  (validate_owner_assignment owner new expect = Ok n →
     n = strip new ∧ n ≠ "" ∧ (py_len n ≤ MAX_OWNER_LENGTH)%nat ∧ (expect = true → owner = None)).
Proof.
  split_and!.
  - unfold authorize_skill_write. destruct admin; [naive_solver|]. destruct owner as [o|]; [|naive_solver].
    rewrite guard_err_Ok, String.eqb_eq. naive_solver.
  - unfold authorize_skill_read. destruct owner as [o|]; [|naive_solver].
    rewrite guard_err_Ok, String.eqb_eq. naive_solver.
  - unfold validate_owner_assignment, normalize_owner. intros H. ok_inv. bool_prop. str_prop.
    split_and!; try done; [by apply Nat.leb_le|].
    intros ->. simpl in *. bool_prop. by apply dec_stable.
Qed.
