(* ===== verification/Unpack.v ===== *)
(** * Hardened unpacking: [services/engine_runner/normalizer.py]

    The one place where uploaded bytes become a file set: the member-path rules,
    the bounds of the tar path, the bounded zip-to-tar transcode in front of it,
    the dispatch on magic bytes, and [_pack_tar]
    ([orchestration/service.py]), which writes the artifact the workers unpack
    again.  The formats themselves are CPython's [tarfile], [zipfile] and zlib:
    [TarFormat] and [ZipFormat] are what the code calls of them, an archive
    being what the library reads out of it, exceptions included; [TarLaws] is
    the documented behaviour of [tarfile] the theorems rely on.  Paths are code
    points and contents bytes, as in [Canonical]. *)

From Stdlib Require Import QArith.
From S2P Require Import Prelude Float64 Models Canonical.
Open Scope string_scope.
Open Scope list_scope.
Open Scope Z_scope.

Definition MAX_ARCHIVE_BYTES : Z := 50 * 1024 * 1024.
Definition MAX_SINGLE_FILE_BYTES : Z := 20 * 1024 * 1024.
Definition MAX_TOTAL_UNCOMPRESSED_BYTES : Z := 200 * 1024 * 1024.
Definition MAX_ENTRY_COUNT : Z := 5000.
Definition MAX_COMPRESSION_RATIO : Z := 100.
Definition MAX_PATH_DEPTH : Z := 20.

(** The reasons an archive is refused for. *)
Inductive UnpackReason :=
| nul_in_path | absolute_member | path_too_deep | illegal_member_segment | path_reduces_to_nothing
| empty_archive | archive_too_large | not_a_tar_archive | too_many_entries | link_entry
| declared_too_large | too_large_while_reading | total_too_large | ratio_too_high
| no_regular_files | duplicate_entries | file_and_directory
| no_end_record | spanned_archive | encrypted_entry | non_regular_entry | not_a_zip_archive | empty_zip.

(** [UnpackRejected] with its reason, or an exception of the archive libraries
    that reaches the caller as it is. *)
Inductive UnpackError := Rejected (why : UnpackReason) | Raised.

(** [sep.join]. *)
Fixpoint join_on (sep : Z) (l : list points) : points :=
  match l with
  | [] => []
  | [p] => p
  | p :: l' => p ++ sep :: join_on sep l'
  end.

(** The loop over the segments of a member name. *)
Fixpoint clean_segments (segments : list points) : result UnpackError (list points) :=
  match segments with
  | [] => Ok []
  | segment :: rest =>
      if bool_decide (segment = [dot]) then clean_segments rest else
      _ ← guard_err (negb (bool_decide (segment = []) || bool_decide (segment = [dot; dot])))
            (Rejected illegal_member_segment);
      _ ← guard_err (negb (existsb illegal (split_on backslash segment))) (Rejected illegal_member_segment);
      cleaned ← clean_segments rest;
      Ok (segment :: cleaned)
  end.

Definition _canonicalize_member_path (name : points) : result UnpackError points :=
  _ ← guard_err (negb (bool_decide (0 ∈ name))) (Rejected nul_in_path);
  _ ← guard_err (negb (bool_decide (head name = Some slash))) (Rejected absolute_member);
  let segments := split_on slash name in
  _ ← guard_err (Z.of_nat (length segments) <=? MAX_PATH_DEPTH) (Rejected path_too_deep);
  cleaned ← clean_segments segments;
  _ ← guard_err (negb (bool_decide (cleaned = []))) (Rejected path_reduces_to_nothing);
  Ok (join_on slash cleaned).

(** ** Tar archives *)

(** What [extractfile] and [read] give: no file object, an exception, or the
    bytes of the member. *)
Inductive Content := no_file_object | content_raises | content (data : bytes).

(** [TarInfo]: [REGTYPE] and the like, [SYMTYPE], [LNKTYPE], or another type. *)
Inductive MemberType := regular_member | symlink_member | hardlink_member | other_member.

Record TarMember := mkTarMember {
  tm_name : points;
  tm_type : MemberType;
  tm_size : Z;
  tm_mode : Z;
  tm_content : Content;
}.

(** [tarfile.open] raises [TarError]; it or [getmembers] raises anything else;
    or the members are listed. *)
Inductive TarReading := tar_error | tar_raises | tar_members (members : list TarMember).

(** A [TarInfo] that is written, with its data. *)
Record TarInfo := mkTarInfo {
  ti_name : points;
  ti_mode : Z;
  ti_mtime : Z;
  ti_data : bytes;
}.

Class TarFormat : Type := {
  tar_read : bytes → TarReading;
  tar_write : list TarInfo → bytes;
}.

Definition size_of (b : bytes) : Z := Z.of_nat (length b).

(** [extracted.read(n)]. *)
Fixpoint read_at_most (n : Z) (l : bytes) : bytes :=
  match l with
  | [] => []
  | b :: l' => if n <=? 0 then [] else b :: read_at_most (n - 1) l'
  end.

(** [total / compressed > MAX_COMPRESSION_RATIO], in binary64. *)
Definition ratio_exceeds (total compressed : Z) : bool :=
  qlt (inject_Z MAX_COMPRESSION_RATIO) (fdiv (inject_Z total) (inject_Z compressed)).

Definition is_link (m : TarMember) : bool :=
  match tm_type m with symlink_member | hardlink_member => true | _ => false end.
Definition is_file (m : TarMember) : bool :=
  match tm_type m with regular_member => true | _ => false end.

(** The loop of [unpack_hardened]. *)
Fixpoint unpack_members (members : list TarMember) (total : Z) (files : list Entry)
    : result UnpackError (Z * list Entry) :=
  match members with
  | [] => Ok (total, files)
  | member :: rest =>
      canonical_name ← _canonicalize_member_path (tm_name member);
      _ ← guard_err (negb (is_link member)) (Rejected link_entry);
      if negb (is_file member) then unpack_members rest total files else
      _ ← guard_err (tm_size member <=? MAX_SINGLE_FILE_BYTES) (Rejected declared_too_large);
      match tm_content member with
      | no_file_object => unpack_members rest total files
      | content_raises => Err Raised
      | content available =>
          let data := read_at_most (MAX_SINGLE_FILE_BYTES + 1) available in
          _ ← guard_err (size_of data <=? MAX_SINGLE_FILE_BYTES) (Rejected too_large_while_reading);
          let total := total + size_of data in
          _ ← guard_err (total <=? MAX_TOTAL_UNCOMPRESSED_BYTES) (Rejected total_too_large);
          unpack_members rest total (files ++ [(canonical_name, Z.land (tm_mode member) 4095, data)])
      end
  end.

(** ["/".join(parts[:depth])] for every depth below the path's own. *)
Definition ancestors (path : points) : list points :=
  let parts := split_on slash path in
  map (λ depth, join_on slash (take depth parts)) (seq 1 (length parts - 1)).

(** The checks on the whole file set. *)
Definition check_files (files : list Entry) : result UnpackError (list Entry) :=
  _ ← guard_err (negb (bool_decide (files = []))) (Rejected no_regular_files);
  let paths := map entry_path files in
  _ ← guard_err (bool_decide (NoDup paths)) (Rejected duplicate_entries);
  _ ← guard_err (negb (existsb (λ path, existsb (λ a, bool_decide (a ∈ paths)) (ancestors path)) paths))
        (Rejected file_and_directory);
  Ok files.

Definition check_archive_size (archive_bytes : bytes) : result UnpackError unit :=
  _ ← guard_err (negb (size_of archive_bytes =? 0)) (Rejected empty_archive);
  guard_err (size_of archive_bytes <=? MAX_ARCHIVE_BYTES) (Rejected archive_too_large).

Section tar.
Context `{TarFormat}.

Definition unpack_hardened (archive_bytes : bytes) : result UnpackError (list Entry) :=
  _ ← check_archive_size archive_bytes;
  match tar_read archive_bytes with
  | tar_error => Err (Rejected not_a_tar_archive)
  | tar_raises => Err Raised
  | tar_members members =>
      _ ← guard_err (Z.of_nat (length members) <=? MAX_ENTRY_COUNT) (Rejected too_many_entries);
      '(total_uncompressed, files) ← unpack_members members 0 [];
      _ ← guard_err (negb (ratio_exceeds total_uncompressed (size_of archive_bytes))) (Rejected ratio_too_high);
      check_files files
  end.

(** [orchestration.service._pack_tar]: the artifact of a scan. *)
Definition _pack_tar (files : list Entry) : bytes :=
  tar_write (map (λ e, mkTarInfo (entry_path e) (Z.land e.1.2 4095) 0 e.2) files).
End tar.

(** ** Zip archives *)

(** [zf.open(info).read(n)]: the bytes, one of [_ZIP_PARSE_ERRORS], or another
    exception. *)
Inductive ZipContent := zip_data (data : bytes) | zip_data_error | zip_data_raises.

Record ZipInfo := mkZipInfo {
  zi_filename : points;
  zi_flag_bits : Z;
  zi_external_attr : Z;
  zi_file_size : Z;
  zi_mtime : option Z;  (** [time.mktime(date_time)], [None] when it raises *)
  zi_content : ZipContent;
}.

(** [ZipFile(...)] raises one of [_ZIP_PARSE_ERRORS], another exception, or
    lists its entries. *)
Inductive ZipReading := zip_error | zip_raises | zip_entries (entries : list ZipInfo).

Class ZipFormat : Type := zip_read : bytes → ZipReading.

Definition ZIP_MAGIC_PREFIXES : list bytes := [[80; 75; 3; 4]; [80; 75; 5; 6]; [80; 75; 7; 8]].
Definition _EOCD_SIGNATURE : bytes := [80; 75; 5; 6].
Definition _EOCD_SIZE : Z := 22.

(** [bytes.startswith]. *)
Fixpoint starts_with (prefix b : bytes) : bool :=
  match prefix, b with
  | [], _ => true
  | x :: prefix', y :: b' => (x =? y) && starts_with prefix' b'
  | _ :: _, [] => false
  end.

(** [zip_bytes.rfind(_EOCD_SIGNATURE)]: the bytes from the last occurrence on. *)
Fixpoint rfind (signature b : bytes) : option bytes :=
  match b with
  | [] => if starts_with signature [] then Some [] else None
  | _ :: b' =>
      match rfind signature b' with
      | Some tail => Some tail
      | None => if starts_with signature b then Some b else None
      end
  end.

(** [struct.unpack_from("<H", b, i)], inside the record. *)
Definition le_half (b : bytes) (i : nat) : Z := nth i b 0 + 256 * nth (S i) b 0.

Definition _read_zip_end_record (zip_bytes : bytes) : result UnpackError (Z * Z * Z) :=
  match rfind _EOCD_SIGNATURE zip_bytes with
  | None => Err (Rejected no_end_record)
  | Some tail =>
      _ ← guard_err (_EOCD_SIZE <=? size_of tail) (Rejected no_end_record);
      Ok (le_half tail 4, le_half tail 6, le_half tail 10)
  end.

Definition S_IFMT (mode : Z) : Z := Z.land mode 61440.
Definition S_IFREG : Z := 32768.
Definition S_IFDIR : Z := 16384.

(** [info.is_dir()]. *)
Definition is_dir (name : points) : bool := bool_decide (last name = Some slash).

Definition unix_mode (info : ZipInfo) : Z := Z.land (Z.shiftr (zi_external_attr info) 16) 65535.

(** The [TarInfo] a zip entry becomes. *)
Definition tarinfo_of (info : ZipInfo) (data : bytes) : TarInfo :=
  let mode := Z.land (unix_mode info) 511 in
  mkTarInfo (zi_filename info) (if mode =? 0 then 420 else mode) (default 0 (zi_mtime info)) data.

(** The loop of [_transcode_zip]; [out] are the members written so far. *)
Fixpoint transcode_entries (compressed_size : Z) (entries : list ZipInfo) (total : Z) (out : list TarInfo)
    : result UnpackError (list TarInfo) :=
  match entries with
  | [] => Ok out
  | info :: rest =>
      _ ← guard_err (Z.land (zi_flag_bits info) 1 =? 0) (Rejected encrypted_entry);
      if is_dir (zi_filename info) then transcode_entries compressed_size rest total out else
      let fmt := S_IFMT (unix_mode info) in
      if negb (fmt =? 0) && negb (fmt =? S_IFREG) then
        if fmt =? S_IFDIR then transcode_entries compressed_size rest total out
        else Err (Rejected non_regular_entry)
      else
      _ ← guard_err (negb (bool_decide (0 ∈ zi_filename info))) (Rejected nul_in_path);
      _ ← guard_err (zi_file_size info <=? MAX_SINGLE_FILE_BYTES) (Rejected declared_too_large);
      match zi_content info with
      | zip_data_error => Err (Rejected not_a_zip_archive)
      | zip_data_raises => Err Raised
      | zip_data available =>
          let data := read_at_most (MAX_SINGLE_FILE_BYTES + 1) available in
          _ ← guard_err (size_of data <=? MAX_SINGLE_FILE_BYTES) (Rejected too_large_while_reading);
          let total := total + size_of data in
          _ ← guard_err (total <=? MAX_TOTAL_UNCOMPRESSED_BYTES) (Rejected total_too_large);
          _ ← guard_err (negb (ratio_exceeds total compressed_size)) (Rejected ratio_too_high);
          transcode_entries compressed_size rest total (out ++ [tarinfo_of info data])
      end
  end.

Section zip.
Context `{TarFormat, ZipFormat}.

Definition _transcode_zip (zip_bytes : bytes) : result UnpackError bytes :=
  match zip_read zip_bytes with
  | zip_error => Err (Rejected not_a_zip_archive)
  | zip_raises => Err Raised
  | zip_entries entries =>
      _ ← guard_err (Z.of_nat (length entries) <=? MAX_ENTRY_COUNT) (Rejected too_many_entries);
      out ← transcode_entries (size_of zip_bytes) entries 0 [];
      _ ← guard_err (negb (bool_decide (out = []))) (Rejected empty_zip);
      Ok (tar_write out)
  end.

Definition zip_to_tar_bytes (zip_bytes : bytes) : result UnpackError bytes :=
  _ ← check_archive_size zip_bytes;
  '(this_disk, cd_disk, declared_entries) ← _read_zip_end_record zip_bytes;
  _ ← guard_err ((this_disk =? 0) && (cd_disk =? 0)) (Rejected spanned_archive);
  _ ← guard_err (declared_entries <=? MAX_ENTRY_COUNT) (Rejected too_many_entries);
  _transcode_zip zip_bytes.

Definition unpack_package_archive (archive_bytes : bytes) : result UnpackError (list Entry) :=
  if existsb (λ p, starts_with p archive_bytes) ZIP_MAGIC_PREFIXES
  then tar ← zip_to_tar_bytes archive_bytes; unpack_hardened tar
  else unpack_hardened archive_bytes.
End zip.

(** ** Splitting and joining paths *)

Lemma filter_all {A} (P : A → Prop) `{∀ x, Decision (P x)} (l : list A) :
  (∀ x, x ∈ l → P x) → base.filter P l = l.
Proof.
  induction l as [|x l IH]; [done|]. intros Hl. rewrite filter_cons, decide_True by (apply Hl; left).
  f_equal. apply IH. intros ??. apply Hl. by right.
Qed.

Lemma split_on_ne sep s : split_on sep s ≠ [].
Proof. destruct s as [|c s]; simpl; [done|]. case_match; [done|]. by case_match. Qed.

Lemma split_on_no_sep sep s seg : seg ∈ split_on sep s → sep ∉ seg.
Proof.
  revert seg. induction s as [|c s IH]; intros seg; simpl; [intros ->%list_elem_of_singleton; set_solver|].
  destruct (Z.eqb_spec c sep) as [->|Hc].
  - intros [->|?]%elem_of_cons; [set_solver|auto].
  - destruct (split_on sep s) as [|x l] eqn:E; [by apply split_on_ne in E|].
    intros [->|?]%elem_of_cons; [|by apply IH; right]. pose proof (IH x ltac:(left)). set_solver.
Qed.

Lemma split_on_app sep a b : split_on sep (a ++ sep :: b) = split_on sep a ++ split_on sep b.
Proof.
  induction a as [|c a IH]; simpl; [by rewrite Z.eqb_refl|].
  rewrite IH. destruct (Z.eqb_spec c sep); [done|].
  destruct (split_on sep a) eqn:E; [by apply split_on_ne in E|done].
Qed.

Lemma split_on_single sep s : sep ∉ s → split_on sep s = [s].
Proof.
  induction s as [|c s IH]; simpl; [done|]. intros [Hc Hs]%not_elem_of_cons.
  rewrite (proj2 (Z.eqb_neq _ _)), IH by done. done.
Qed.

Lemma join_on_cons sep p l : l ≠ [] → join_on sep (p :: l) = p ++ sep :: join_on sep l.
Proof. by destruct l. Qed.

Lemma join_on_app sep l l' : l ≠ [] → l' ≠ [] → join_on sep (l ++ l') = join_on sep l ++ sep :: join_on sep l'.
Proof.
  induction l as [|p l IH]; [done|]. intros _ Hl'. destruct l as [|q l].
  - simpl app. by rewrite join_on_cons.
  - change ((p :: q :: l) ++ l') with (p :: (q :: l) ++ l').
    rewrite (join_on_cons sep p ((q :: l) ++ l')), (join_on_cons sep p (q :: l)), IH by done.
    by rewrite <-app_assoc.
Qed.

Lemma split_join sep l : l ≠ [] → Forall (λ p, sep ∉ p) l → split_on sep (join_on sep l) = l.
Proof.
  induction l as [|p l IH]; [done|]. intros _ [Hp Hl]%Forall_cons. destruct l as [|q l].
  - by apply split_on_single.
  - rewrite join_on_cons, split_on_app, split_on_single, IH by done. done.
Qed.

Lemma join_split sep s : join_on sep (split_on sep s) = s.
Proof.
  induction s as [|c s IH]; simpl; [done|]. destruct (Z.eqb_spec c sep) as [->|Hc].
  - by rewrite join_on_cons, IH by apply split_on_ne.
  - destruct (split_on sep s) as [|x l] eqn:E; [by apply split_on_ne in E|].
    destruct l; simpl in *; congruence.
Qed.

(** The ancestors of a path are its directory prefixes. *)
Lemma elem_of_ancestors a p : a ∈ ancestors p ↔ ∃ rest, p = a ++ slash :: rest.
Proof.
  unfold ancestors. rewrite list_elem_of_In, in_map_iff. setoid_rewrite in_seq. split.
  - intros (d & <- & Hd). exists (join_on slash (drop d (split_on slash p))).
    rewrite <-(join_split slash p) at 1. rewrite <-(take_drop d (split_on slash p)) at 1.
    apply join_on_app; intros E%(f_equal length); rewrite ?length_take, ?length_drop in E; simpl in E; lia.
  - intros (rest & ->). exists (length (split_on slash a)). rewrite split_on_app, take_app_length, join_split.
    split; [done|]. rewrite length_app.
    destruct (split_on slash a) eqn:Ea; [by apply split_on_ne in Ea|].
    destruct (split_on slash rest) eqn:Er; [by apply split_on_ne in Er|]. simpl. lia.
Qed.

(** ** Canonical member paths *)

(** No empty, [.] or [..] piece, at slashes or at backslashes. *)
Definition legal_segment (seg : points) : Prop := ∀ sub, sub ∈ split_on backslash seg → illegal sub = false.

Definition canonical_path (p : points) : Prop :=
  (0 ∉ p) ∧ Z.of_nat (length (split_on slash p)) ≤ MAX_PATH_DEPTH ∧
  ∀ seg, seg ∈ split_on slash p → legal_segment seg.

Lemma legal_segment_whole seg : legal_segment seg → illegal seg = false.
Proof.
  intros H. unfold illegal. destruct (decide (seg = [])) as [->|H0].
  { specialize (H [] ltac:(left)). discriminate. }
  destruct (decide (seg = [dot])) as [->|H1]; [specialize (H [dot] ltac:(left)); discriminate|].
  destruct (decide (seg = [dot; dot])) as [->|H2]; [specialize (H [dot; dot] ltac:(left)); discriminate|].
  by rewrite !bool_decide_false by done.
Qed.

Lemma legal_segment_ne seg : legal_segment seg → seg ≠ [] ∧ seg ≠ [dot] ∧ seg ≠ [dot; dot].
Proof. intros H%legal_segment_whole. unfold illegal in H. by bool_prop. Qed.

Lemma clean_segments_Ok l c :
  clean_segments l = Ok c ↔
  c = base.filter (λ seg, seg ≠ [dot]) l ∧ ∀ seg, seg ∈ l → seg ≠ [dot] → legal_segment seg.
Proof.
  revert c. induction l as [|seg l IH]; intros c.
  - simpl. split; [intros [= <-]; set_solver|by intros [-> _]].
  - simpl clean_segments. rewrite filter_cons. destruct (decide (seg = [dot])) as [->|Hs].
    + rewrite (bool_decide_true (_ = _)), IH, decide_False by naive_solver.
      split; intros [-> H]; (split; [done|]); [|set_solver].
      intros seg [->|?]%elem_of_cons ?; [done|by apply H].
    + rewrite (bool_decide_false (seg = [dot])), decide_True by done. split.
      * intros H. ok_inv. bool_prop. rewrite IH in *. destruct_and!. subst. split; [done|].
        intros seg' [->|?]%elem_of_cons ?; [|by eauto]. unfold legal_segment. by apply existsb_false.
      * intros [-> H]. assert (Hl : legal_segment seg) by (apply H; [left|done]).
        destruct (legal_segment_ne _ Hl) as (? & ? & ?). rewrite !bool_decide_false by done. simpl.
        rewrite (proj2 (existsb_false _ _)) by done. simpl.
        erewrite (proj2 (IH _)); [done|]. split; [done|]. intros ????. apply H; [by right|done].
Qed.

(** A canonical path is what the rules leave alone; what they return is one. *)
Lemma canonicalize_fixed p : canonical_path p → _canonicalize_member_path p = Ok p.
Proof.
  intros (H0 & Hd & Hs). unfold _canonicalize_member_path.
  rewrite (bool_decide_false (0 ∈ p)) by done. simpl.
  assert (Hh : head p ≠ Some slash).
  { destruct p as [|c p]; [done|]. intros [= ->]. specialize (Hs [] ltac:(simpl; left)).
    by destruct (legal_segment_ne _ Hs). }
  rewrite bool_decide_false by done. simpl. rewrite (proj2 (Z.leb_le _ _)) by done. simpl.
  assert (E : base.filter (λ seg, seg ≠ [dot]) (split_on slash p) = split_on slash p).
  { apply filter_all. intros seg Hseg. by destruct (legal_segment_ne _ (Hs _ Hseg)) as (_ & ? & _). }
  rewrite (proj2 (clean_segments_Ok _ (split_on slash p))) by (split; [done|auto]). simpl.
  rewrite (bool_decide_false (split_on _ _ = [])) by apply split_on_ne. simpl. by rewrite join_split.
Qed.

Lemma elem_of_join_on c sep l : c ∈ join_on sep l → c = sep ∨ ∃ p, p ∈ l ∧ c ∈ p.
Proof.
  induction l as [|p l IH]; [set_solver|]. destruct l as [|q l]; [set_solver|].
  rewrite join_on_cons by done. rewrite elem_of_app, elem_of_cons. set_solver.
Qed.

Lemma split_on_sub c sep s seg : seg ∈ split_on sep s → c ∈ seg → c ∈ s.
Proof.
  revert seg. induction s as [|d s IH]; intros seg; simpl; [intros ->%list_elem_of_singleton; done|].
  case_match.
  - intros [->|?]%elem_of_cons; [set_solver|]. right. eauto.
  - destruct (split_on sep s) as [|x l] eqn:E; [by apply split_on_ne in E|].
    intros [->|?]%elem_of_cons; [|right; eapply IH; [by right|done]].
    intros [->|?]%elem_of_cons; [left|right]. eapply IH; [by left|done].
Qed.

Lemma canonicalize_Ok name p :
  _canonicalize_member_path name = Ok p →
  canonical_path p ∧ p = join_on slash (base.filter (λ seg, seg ≠ [dot]) (split_on slash name)).
Proof.
  unfold _canonicalize_member_path. intros H. ok_inv. bool_prop.
  match goal with H : clean_segments _ = _ |- _ => apply clean_segments_Ok in H as [-> Hl] end.
  set (c := base.filter _ _) in *. split; [|done].
  assert (Hc : ∀ seg, seg ∈ c → seg ∈ split_on slash name ∧ legal_segment seg).
  { intros seg [? ?]%list_elem_of_filter. auto. }
  assert (Hj : split_on slash (join_on slash c) = c).
  { apply split_join; [done|]. apply Forall_forall. intros seg [Hin _]%Hc. by eapply split_on_no_sep. }
  split_and!.
  - intros [?|(seg & [Hseg _]%Hc & Hin)]%elem_of_join_on; [done|]. pose proof (split_on_sub _ _ _ _ Hseg Hin). done.
  - rewrite Hj. pose proof (length_filter (λ seg, seg ≠ [dot]) (split_on slash name)) as Hlen. subst c. lia.
  - rewrite Hj. intros seg Hs. by apply Hc.
Qed.

(** ** Bounds *)

Lemma size_of_nonneg b : 0 ≤ size_of b.
Proof. unfold size_of. lia. Qed.

(** A bounded read that stays under the bound has read everything. *)
Lemma read_at_most_whole n b : size_of (read_at_most (n + 1) b) ≤ n → read_at_most (n + 1) b = b.
Proof.
  revert n. induction b as [|x b IH]; intros n; simpl; [done|].
  destruct (Z.leb_spec (n + 1) 0); intros Hs; [unfold size_of in Hs; simpl in Hs; lia|].
  replace (n + 1 - 1) with (n - 1 + 1) in * by lia. f_equal. apply IH.
  unfold size_of in *. simpl in Hs. lia.
Qed.

Lemma read_at_most_id n b : size_of b ≤ n → read_at_most (n + 1) b = b.
Proof.
  revert n. induction b as [|x b IH]; intros n Hs; simpl; [done|]. unfold size_of in *. simpl in Hs.
  rewrite (proj2 (Z.leb_gt _ _)) by lia. f_equal. replace (n + 1 - 1) with (n - 1 + 1) by lia. apply IH. lia.
Qed.

(** The ratio test is exact for every archive the size test lets through: the
    rounding of the quotient never hides an excess. *)
Lemma ratio_exceeds_iff total compressed :
  0 ≤ total → 0 < compressed ≤ MAX_ARCHIVE_BYTES →
  ratio_exceeds total compressed = true ↔ MAX_COMPRESSION_RATIO * compressed < total.
Proof.
  intros Ht [Hc Hm]. unfold ratio_exceeds, fdiv. rewrite qlt_iff.
  assert (Hq : (0 < inject_Z compressed)%Q) by (change 0%Q with (inject_Z 0); by rewrite <-Zlt_Qlt).
  split.
  - intros Hlt. apply Z.nle_gt. intros Hle. apply Qlt_not_le in Hlt. apply Hlt.
    rewrite <-(rnd64_int MAX_COMPRESSION_RATIO) by (vm_compute; split; congruence).
    apply rnd64_mono, Qle_shift_div_r; [done|]. by rewrite <-inject_Z_mult, <-Zle_Qle.
  - intros Hlt. apply (Qlt_le_trans _ (rnd64 (inject_Z 100 + (1 # 67108864))%Q)); [reflexivity|].
    apply rnd64_mono, Qle_shift_div_l; [done|].
    assert (E : ((1 # 67108864) * inject_Z compressed <= 1)%Q).
    { unfold Qle, Qmult, inject_Z. simpl. unfold MAX_ARCHIVE_BYTES in Hm. lia. }
    rewrite Qmult_plus_distr_l. apply (Qle_trans _ (inject_Z (100 * compressed) + 1)%Q).
    + rewrite inject_Z_mult. by apply Qplus_le_r.
    + change 1%Q with (inject_Z 1). rewrite <-inject_Z_plus, <-Zle_Qle.
      unfold MAX_COMPRESSION_RATIO in Hlt. lia.
Qed.

Definition total_size (files : list Entry) : Z := foldr (λ e n, size_of e.2 + n) 0 files.

Lemma total_size_app l l' : total_size (l ++ l') = total_size l + total_size l'.
Proof. induction l as [|e l IH]; simpl; lia. Qed.

Lemma total_size_nonneg l : 0 ≤ total_size l.
Proof. induction l as [|e l IH]; simpl; [done|]. pose proof (size_of_nonneg e.2). lia. Qed.

(** The file a member stands for: its canonical path, its permission bits, its
    whole content; [None] for a directory or a device. *)
Definition member_entry (m : TarMember) : option Entry :=
  match is_file m, _canonicalize_member_path (tm_name m), tm_content m with
  | true, Ok p, content data => Some (p, Z.land (tm_mode m) 4095, data)
  | _, _, _ => None
  end.

(** A member the loop lets through. *)
Record member_ok (m : TarMember) : Prop := {
  mk_path : is_ok (_canonicalize_member_path (tm_name m)) = true;
  mk_link : is_link m = false;
  mk_size : is_file m = true → tm_size m ≤ MAX_SINGLE_FILE_BYTES;
  mk_read : is_file m = true → tm_content m ≠ content_raises;
  mk_data : is_file m = true → ∀ data, tm_content m = content data → size_of data ≤ MAX_SINGLE_FILE_BYTES;
}.

Lemma entries_cons m ms :
  omap member_entry (m :: ms) = option_list (member_entry m) ++ omap member_entry ms.
Proof. simpl. by destruct (member_entry m). Qed.

(** The loop accepts exactly the member lists whose members are fine and whose
    contents stay within the total; it returns every regular member, whole and
    in order. *)
Lemma unpack_members_Ok ms total files out :
  unpack_members ms total files = Ok out ↔
  Forall member_ok ms ∧ out = (total + total_size (omap member_entry ms), files ++ omap member_entry ms) ∧
  (omap member_entry ms ≠ [] → total + total_size (omap member_entry ms) ≤ MAX_TOTAL_UNCOMPRESSED_BYTES).
Proof.
  revert total files out. induction ms as [|m ms IH]; intros total files out.
  { simpl. rewrite Z.add_0_r, app_nil_r. split; [intros [= <-]; done|by intros (_ & -> & _)]. }
  simpl unpack_members. rewrite Forall_cons, entries_cons.
  destruct (_canonicalize_member_path (tm_name m)) as [p|e] eqn:Ep; simpl;
    [|split; [done|intros ([[Hp _ _ _ _] _] & _); by rewrite Ep in Hp]].
  destruct (is_link m) eqn:El; simpl; [split; [done|intros ([[_ Hl _ _ _] _] & _); congruence]|].
  destruct (is_file m) eqn:Ef; simpl.
  2:{ rewrite IH. assert (Hm : member_ok m) by (split; rewrite ?Ep; congruence || done).
      assert (E : member_entry m = None) by (unfold member_entry; by rewrite Ef). rewrite E. naive_solver. }
  destruct (Z.leb_spec (tm_size m) MAX_SINGLE_FILE_BYTES) as [Hs|Hs]; simpl;
    [|split; [done|intros ([[_ _ Hk _ _] _] & _); specialize (Hk Ef); lia]].
  destruct (tm_content m) as [| |data] eqn:Ec.
  - rewrite IH. assert (Hm : member_ok m) by (split; rewrite ?Ep, ?Ec; congruence || done).
    assert (E : member_entry m = None) by (unfold member_entry; by rewrite Ef, Ep, Ec). rewrite E. naive_solver.
  - split; [done|]. intros ([[_ _ _ Hk _] _] & _). by destruct (Hk Ef).
  - assert (E : member_entry m = Some (p, Z.land (tm_mode m) 4095, data))
      by (unfold member_entry; by rewrite Ef, Ep, Ec).
    rewrite E. simpl. split.
    + intros H. ok_inv. bool_prop. rewrite !Z.leb_le in *.
      pose proof (read_at_most_whole _ _ ltac:(eassumption)) as Er. rewrite Er in *.
      rewrite IH in *. destruct_and!. subst. split; [|split].
      * split; [|done]. split; rewrite ?Ep, ?Ec; try done. by intros _ ? [= <-].
      * by rewrite <-app_assoc, Z.add_assoc.
      * intros _. destruct (omap member_entry ms) eqn:Eo; [simpl; lia|].
        match goal with H : _ ≠ [] → _ |- _ => specialize (H ltac:(done)); simpl in *; lia end.
    + intros ([[_ _ _ _ Hd] Hms] & -> & Ht). specialize (Hd Ef _ Ec). specialize (Ht ltac:(done)).
      rewrite read_at_most_id by done. pose proof (total_size_nonneg (omap member_entry ms)).
      rewrite !(proj2 (Z.leb_le _ _)) by lia. simpl. rewrite IH, <-app_assoc, Z.add_assoc.
      split_and!; [done|done|lia].
Qed.

(** ** What the archive libraries promise *)

(** How [tarfile] reads back a member it wrote. *)
Definition member_of (i : TarInfo) : TarMember :=
  mkTarMember (ti_name i) regular_member (size_of (ti_data i)) (ti_mode i) (content (ti_data i)).

(** The members the code writes: no NUL, encodable, not the spelling of a
    directory, permission bits only. *)
Definition writable (i : TarInfo) : Prop :=
  (0 ∉ ti_name i) ∧ Forall (λ c, scalar c = true) (ti_name i) ∧ last (ti_name i) ≠ Some slash ∧
  0 ≤ ti_mode i < 4096.

Definition data_size (infos : list TarInfo) : Z := foldr (λ i n, size_of (ti_data i) + n) 0 infos.

(** Writing an uncompressed tar and reading it back gives the members, and the
    archive holds their data. *)
Class TarLaws `{TarFormat} : Prop := {
  tar_roundtrip infos : Forall writable infos → tar_read (tar_write infos) = tar_members (map member_of infos);
  tar_holds infos : 0 < size_of (tar_write infos) ∧ data_size infos ≤ size_of (tar_write infos);
}.

(** Zip names are decoded from UTF-8 or CP437. *)
Class ZipLaws `{ZipFormat} : Prop :=
  zip_names b entries : zip_read b = zip_entries entries →
    Forall (λ i, Forall (λ c, scalar c = true) (zi_filename i)) entries.

(** ** The file sets that come out *)

Record hardened (files : list Entry) : Prop := {
  hd_ne : files ≠ [];
  hd_count : Z.of_nat (length files) ≤ MAX_ENTRY_COUNT;
  hd_path e : e ∈ files → canonical_path (entry_path e);
  hd_mode (e : Entry) : e ∈ files → 0 ≤ e.1.2 < 4096;
  hd_size (e : Entry) : e ∈ files → size_of e.2 ≤ MAX_SINGLE_FILE_BYTES;
  hd_total : total_size files ≤ MAX_TOTAL_UNCOMPRESSED_BYTES;
  hd_distinct : NoDup (map entry_path files);
  hd_tree e e' rest : e ∈ files → e' ∈ files → entry_path e' ≠ entry_path e ++ slash :: rest;
}.

Lemma check_files_Ok files out :
  check_files files = Ok out ↔
  out = files ∧ files ≠ [] ∧ NoDup (map entry_path files) ∧
  ∀ e e' rest, e ∈ files → e' ∈ files → entry_path e' ≠ entry_path e ++ slash :: rest.
Proof.
  unfold check_files. rewrite bind_Ok. setoid_rewrite guard_err_Ok. setoid_rewrite bind_Ok.
  setoid_rewrite guard_err_Ok. setoid_rewrite bind_Ok. setoid_rewrite guard_err_Ok.
  setoid_rewrite negb_true_iff. setoid_rewrite bool_decide_eq_false. setoid_rewrite bool_decide_eq_true.
  setoid_rewrite existsb_false. setoid_rewrite existsb_false. setoid_rewrite elem_of_ancestors.
  setoid_rewrite bool_decide_eq_false. change (map entry_path files) with (entry_path <$> files).
  setoid_rewrite list_elem_of_fmap. split.
  - intros (_ & Hne & _ & Hnd & _ & Ht & [= <-]). split_and!; [done..|].
    intros e e' rest He He' E. eapply (Ht (entry_path e') ltac:(eauto) (entry_path e)); eauto.
  - intros (-> & Hne & Hnd & Ht). exists (). split; [done|]. exists (). split; [done|]. exists (). split; [|done].
    intros p (e' & -> & He') a (rest & E) (e & -> & He). exact (Ht e e' rest He He' E).
Qed.

Lemma length_omap_le {A B} (f : A → option B) l : (length (omap f l) <= length l)%nat.
Proof.
  induction l as [|x l IH]; simpl; [done|]. destruct (f x); simpl; [apply le_n_S|apply Nat.le_le_succ_r]; exact IH.
Qed.

Lemma land_12_bound m : 0 ≤ Z.land m 4095 < 4096.
Proof. change 4095 with (Z.ones 12). rewrite Z.land_ones by done. apply Z.mod_pos_bound. done. Qed.

Lemma land_12_id m : 0 ≤ m < 4096 → Z.land m 4095 = m.
Proof. intros ?. change 4095 with (Z.ones 12). rewrite Z.land_ones by done. by apply Z.mod_small. Qed.

Lemma check_archive_size_Ok b u : check_archive_size b = Ok u ↔ 0 < size_of b ≤ MAX_ARCHIVE_BYTES.
Proof.
  unfold check_archive_size. rewrite bind_Ok. setoid_rewrite guard_err_Ok.
  setoid_rewrite negb_true_iff. setoid_rewrite Z.eqb_neq. setoid_rewrite Z.leb_le. pose proof (size_of_nonneg b). split; [intros (_ & ? & ?); lia|].
  intros ?. exists (). lia.
Qed.

Lemma member_entry_Some m e :
  member_ok m → member_entry m = Some e →
  canonical_path (entry_path e) ∧ 0 ≤ e.1.2 < 4096 ∧ size_of e.2 ≤ MAX_SINGLE_FILE_BYTES.
Proof.
  intros [_ _ _ _ Hd]. unfold member_entry. destruct (is_file m); [|done].
  destruct (_canonicalize_member_path (tm_name m)) as [p|] eqn:Ep; [|done].
  destruct (tm_content m) as [| |data] eqn:Ec; [done..|]. intros [= <-].
  split_and!; [by apply canonicalize_Ok in Ep as [? _]|apply land_12_bound..|by eapply Hd].
Qed.

Section unpacking.
Context `{TarFormat}.

Lemma unpack_hardened_Ok a files :
  unpack_hardened a = Ok files ↔
  ∃ members, tar_read a = tar_members members ∧ 0 < size_of a ≤ MAX_ARCHIVE_BYTES ∧
    Z.of_nat (length members) ≤ MAX_ENTRY_COUNT ∧ Forall member_ok members ∧
    files = omap member_entry members ∧ total_size files ≤ MAX_TOTAL_UNCOMPRESSED_BYTES ∧
    total_size files ≤ MAX_COMPRESSION_RATIO * size_of a ∧ check_files files = Ok files.
Proof.
  unfold unpack_hardened. rewrite bind_Ok. setoid_rewrite check_archive_size_Ok. split.
  - intros (_ & Hs & H1). destruct (tar_read a) as [| |members]; [done..|]. exists members.
    apply bind_Ok in H1 as (_ & Hc%guard_err_Ok & H1). apply bind_Ok in H1 as ([t fs] & Hm & H1).
    apply bind_Ok in H1 as (_ & Hr%guard_err_Ok & Hf).
    apply unpack_members_Ok in Hm as (Hok & [= -> ->] & Ht). simpl in *.
    pose proof (proj1 (check_files_Ok _ _) Hf) as (-> & Hne & _).
    apply negb_true_iff, not_true_iff_false in Hr. rewrite ratio_exceeds_iff in Hr by (apply total_size_nonneg || done).
    apply Z.leb_le in Hc. specialize (Ht Hne). split_and!; done || lia.
  - intros (members & -> & Hs & Hc & Hok & -> & Ht & Hr & Hf). exists (). split; [done|].
    rewrite (proj2 (Z.leb_le _ _)) by done. simpl.
    rewrite (proj2 (unpack_members_Ok members 0 [] _) (conj Hok (conj eq_refl (λ _, Ht)))). simpl.
    rewrite (proj2 (negb_true_iff _)); [done|]. apply not_true_iff_false.
    rewrite ratio_exceeds_iff by (apply total_size_nonneg || done). lia.
Qed.

Lemma unpack_hardened_sound a files :
  unpack_hardened a = Ok files → hardened files ∧ total_size files ≤ MAX_COMPRESSION_RATIO * size_of a.
Proof.
  intros (ms & _ & _ & Hc & Hok & -> & Ht & Hr & (_ & Hne & Hnd & Htree)%check_files_Ok)%unpack_hardened_Ok.
  assert (He : ∀ e, e ∈ omap member_entry ms → ∃ m, member_ok m ∧ member_entry m = Some e).
  { intros e (m & Hm & E)%list_elem_of_omap. exists m. split; [|done]. by eapply Forall_forall in Hok. }
  split; [|done]. split; try done.
  - pose proof (length_omap_le member_entry ms). lia.
  - intros e (m & Hm & E)%He. by eapply member_entry_Some.
  - intros e (m & Hm & E)%He. by eapply member_entry_Some.
  - intros e (m & Hm & E)%He. by eapply member_entry_Some.
Qed.
End unpacking.

(** ** The zip transcode *)

(** What the loop writes: names taken over verbatim, nothing a tar could read
    back differently. *)
Definition transcoded (entries : list ZipInfo) (i : TarInfo) : Prop :=
  (0 ∉ ti_name i) ∧ last (ti_name i) ≠ Some slash ∧ 0 ≤ ti_mode i < 4096 ∧
  ∃ info, info ∈ entries ∧ ti_name i = zi_filename info.

Lemma tarinfo_mode info data : 0 ≤ ti_mode (tarinfo_of info data) < 4096.
Proof.
  unfold tarinfo_of. simpl. change 511 with (Z.ones 9). rewrite Z.land_ones by done.
  pose proof (Z.mod_pos_bound (unix_mode info) (2 ^ 9) ltac:(done)). case_match; lia.
Qed.

Lemma transcode_entries_Ok compressed entries total out res :
  0 < compressed ≤ MAX_ARCHIVE_BYTES → 0 ≤ total ≤ MAX_COMPRESSION_RATIO * compressed →
  transcode_entries compressed entries total out = Ok res →
  ∃ new, res = out ++ new ∧ Forall (transcoded entries) new ∧
    total + data_size new ≤ MAX_COMPRESSION_RATIO * compressed.
Proof.
  intros Hc. revert total out. induction entries as [|info rest IH]; intros total out Ht Hres; simpl in Hres.
  { injection Hres as <-. exists []. rewrite app_nil_r. simpl. split_and!; [done|constructor|lia]. }
  assert (Hw : ∀ new, Forall (transcoded rest) new → Forall (transcoded (info :: rest)) new).
  { intros new Hf. eapply Forall_impl; [exact Hf|]. intros i (? & ? & ? & j & ? & ?). unfold transcoded.
    split_and!; [done|done|lia|lia|]. exists j. split; [by right|done]. }
  assert (Hskip : transcode_entries compressed rest total out = Ok res →
    ∃ new, res = out ++ new ∧ Forall (transcoded (info :: rest)) new ∧
      total + data_size new ≤ MAX_COMPRESSION_RATIO * compressed).
  { intros (new & -> & Hn & Hd)%IH; [|done]. exists new. auto. }
  apply bind_Ok in Hres as (_ & _ & Hres).
  destruct (is_dir (zi_filename info)) eqn:Ed; [by apply Hskip|].
  destruct (negb _ && negb _); [destruct (_ =? S_IFDIR); [by apply Hskip|done]|].
  apply bind_Ok in Hres as (_ & Hn%guard_err_Ok & Hres). apply bind_Ok in Hres as (_ & _ & Hres).
  destruct (zi_content info) as [available| |]; [|done..].
  set (data := read_at_most _ available) in *. cbv zeta in Hres.
  apply bind_Ok in Hres as (_ & _ & Hres). apply bind_Ok in Hres as (_ & _ & Hres).
  apply bind_Ok in Hres as (_ & Hr%guard_err_Ok & Hres). pose proof (size_of_nonneg data) as Hd0.
  apply negb_true_iff, not_true_iff_false in Hr. rewrite ratio_exceeds_iff in Hr by lia.
  apply IH in Hres as (new & -> & Hnew & Hd); [|lia].
  exists (tarinfo_of info data :: new). rewrite <-app_assoc. split_and!; [done| |simpl; lia].
  constructor; [|by apply Hw]. unfold is_dir in Ed. bool_prop. pose proof (tarinfo_mode info data).
  split_and!; [done|done|lia|lia|]. exists info. split; [left|done].
Qed.

Lemma data_size_entries infos :
  Forall member_ok (map member_of infos) →
  total_size (omap member_entry (map member_of infos)) = data_size infos.
Proof.
  induction infos as [|i infos IH]; [done|]. intros [[Hp _ _ _ _] Hi]%Forall_cons.
  simpl map. rewrite entries_cons, total_size_app, (IH Hi). simpl. unfold member_entry. simpl in *.
  destruct (_canonicalize_member_path (ti_name i)); [simpl; lia|done].
Qed.

Lemma omap_entries_length infos :
  Forall member_ok (map member_of infos) → length (omap member_entry (map member_of infos)) = length infos.
Proof.
  induction infos as [|i infos IH]; [done|]. intros [[Hp _ _ _ _] Hi]%Forall_cons.
  simpl map. rewrite entries_cons, length_app, (IH Hi). unfold member_entry. simpl in *.
  by destruct (_canonicalize_member_path (ti_name i)).
Qed.

Section uploads.
Context `{TarFormat, !TarLaws, ZipFormat, !ZipLaws}.

Lemma zip_to_tar_bytes_Ok a tar :
  zip_to_tar_bytes a = Ok tar →
  0 < size_of a ≤ MAX_ARCHIVE_BYTES ∧
  ∃ infos, tar = tar_write infos ∧ tar_read tar = tar_members (map member_of infos) ∧
    data_size infos ≤ MAX_COMPRESSION_RATIO * size_of a.
Proof.
  unfold zip_to_tar_bytes, _transcode_zip. intros Hz.
  apply bind_Ok in Hz as (_ & Hs%check_archive_size_Ok & Hz). split; [done|].
  apply bind_Ok in Hz as ([[this_disk cd_disk] declared] & _ & Hz).
  apply bind_Ok in Hz as (_ & _ & Hz). apply bind_Ok in Hz as (_ & _ & Hz).
  destruct (zip_read a) as [| |entries] eqn:Ez; [done..|]. pose proof (zip_names a entries Ez) as Hnames.
  apply bind_Ok in Hz as (_ & _ & Hz). apply bind_Ok in Hz as (infos & Hi & Hz).
  apply bind_Ok in Hz as (_ & _ & [= <-]).
  apply transcode_entries_Ok in Hi as (new & -> & Hn & Hd);
    [|done|unfold MAX_COMPRESSION_RATIO; lia]. simpl in *. exists new. split; [done|]. split; [|done].
  apply tar_roundtrip, (Forall_impl _ _ _ Hn). intros i (? & ? & ? & info & Hin & E).
  unfold writable. eapply Forall_forall in Hnames; [|done]. rewrite E in *. split_and!; [done|done|done|lia|lia].
Qed.

Lemma zip_upload_sound a files :
  (tar ← zip_to_tar_bytes a; unpack_hardened tar) = Ok files →
  hardened files ∧ size_of a ≤ MAX_ARCHIVE_BYTES ∧ total_size files ≤ MAX_COMPRESSION_RATIO * size_of a ∧
  total_size files ≤ MAX_ARCHIVE_BYTES.
Proof.
  intros (tar & (Hs & infos & -> & Hread & Hd)%zip_to_tar_bytes_Ok & Hu)%bind_Ok.
  pose proof (unpack_hardened_sound _ _ Hu) as [Hh _]. split; [done|].
  apply unpack_hardened_Ok in Hu as (ms & Hms & Hsz & _ & Hok & -> & _).
  rewrite Hread in Hms. injection Hms as <-. rewrite (data_size_entries _ Hok).
  pose proof (tar_holds infos) as [_ ?]. lia.
Qed.

Lemma upload_sound a files :
  unpack_package_archive a = Ok files →
  hardened files ∧ 0 < size_of a ≤ MAX_ARCHIVE_BYTES ∧ total_size files ≤ MAX_COMPRESSION_RATIO * size_of a ∧
  (existsb (λ p, starts_with p a) ZIP_MAGIC_PREFIXES = true → total_size files ≤ MAX_ARCHIVE_BYTES).
Proof.
  unfold unpack_package_archive. destruct (existsb _ _); intros Hu.
  - pose proof Hu as (tar & (Hs & _)%zip_to_tar_bytes_Ok & _)%bind_Ok.
    apply zip_upload_sound in Hu as (? & ? & ? & ?). auto.
  - pose proof (unpack_hardened_sound _ _ Hu) as [? ?].
    apply unpack_hardened_Ok in Hu as (? & _ & Hs & _). split_and!; done || lia.
Qed.

(** C25: An upload that is accepted, tar or zip, yields a file set the rest of the
    system can take: at most 5000 files, each at most 20 MiB, 200 MiB together and
    at most 100 times the size of the upload, which is at most 50 MiB (a zip
    expands to at most 50 MiB); paths that are distinct, that never name a file and
    one of its directories at once, that are relative, at most 20 segments deep,
    free of NUL and of empty, [.] and [..] pieces at slashes and at backslashes, so
    that resolving one below any directory stays below it. *)
Theorem accepted_upload_is_hardened a files :
  unpack_package_archive a = Ok files →
  hardened files ∧ 0 < size_of a ≤ MAX_ARCHIVE_BYTES ∧ total_size files ≤ MAX_COMPRESSION_RATIO * size_of a ∧
  (existsb (λ p, starts_with p a) ZIP_MAGIC_PREFIXES = true → total_size files ≤ MAX_ARCHIVE_BYTES) ∧
  ∀ e dir, e ∈ files →
    foldl resolve_step dir (split_on slash (entry_path e)) = dir ++ split_on slash (entry_path e).
Proof.
  intros (Hh & ? & ? & ?)%upload_sound. split_and!; [done|lia|lia|done|done|].
  intros e dir He. apply resolve_legal. intros seg Hseg. apply legal_segment_whole.
  by eapply (hd_path _ Hh e He).
Qed.
End uploads.

(** ** What the workers unpack *)

Definition scalar_paths (files : list Entry) : Prop :=
  Forall (λ e, Forall (λ c, scalar c = true) (entry_path e)) files.

Lemma last_split_on sep s : last s = Some sep → [] ∈ split_on sep s.
Proof.
  intros (s' & ->)%last_Some. rewrite split_on_app. apply elem_of_app. right. simpl. left.
Qed.

Lemma canonical_path_last p : canonical_path p → last p ≠ Some slash.
Proof. intros (_ & _ & Hs) Hl. apply last_split_on, Hs, legal_segment_ne in Hl. naive_solver. Qed.

(** The [TarInfo] of a file, as [_pack_tar] writes it. *)
Definition packed (e : Entry) : TarInfo := mkTarInfo (entry_path e) (Z.land e.1.2 4095) 0 e.2.

Lemma packed_entry e :
  canonical_path (entry_path e) → 0 ≤ e.1.2 < 4096 → member_entry (member_of (packed e)) = Some e.
Proof.
  intros Hp Hm. unfold member_entry, packed. simpl. rewrite canonicalize_fixed by done.
  destruct e as [[p m] d]; simpl in *. rewrite (land_12_id m) by done. by rewrite land_12_id by done.
Qed.

Section artifacts.
Context `{TarFormat, !TarLaws}.

Lemma repacked_members files :
  hardened files → Forall member_ok (map member_of (map packed files)) ∧
  omap member_entry (map member_of (map packed files)) = files.
Proof.
  intros Hh.
  assert (Hf : ∀ e, e ∈ files → canonical_path (entry_path e) ∧ 0 ≤ e.1.2 < 4096 ∧ size_of e.2 ≤ MAX_SINGLE_FILE_BYTES).
  { intros e He. split; [|split]; by apply Hh. }
  clear Hh. induction files as [|e files IH]; [done|].
  destruct (Hf e ltac:(left)) as (Hp & Hm & Hs). destruct IH as [IH1 IH2]; [intros ??; apply Hf; by right|].
  simpl map. rewrite entries_cons, packed_entry, IH2 by done. split; [|done]. constructor; [|done].
  split; [simpl; by rewrite (canonicalize_fixed (entry_path e) Hp)|done|done|done|]. by intros _ ? [= <-].
Qed.

Lemma tar_read_packed files :
  hardened files → scalar_paths files → tar_read (_pack_tar files) = tar_members (map member_of (map packed files)).
Proof.
  intros Hh Hs. apply tar_roundtrip, Forall_map, Forall_forall. intros e He.
  eapply Forall_forall in Hs; [|done]. pose proof (hd_path _ Hh e He) as Hp.
  split_and!; [by apply Hp|done|by apply canonical_path_last|apply land_12_bound..].
Qed.

Lemma data_size_packed files : data_size (map packed files) = total_size files.
Proof. induction files as [|e files IH]; simpl; [done|]. by rewrite IH. Qed.

Lemma unpack_packed files :
  hardened files → scalar_paths files →
  unpack_hardened (_pack_tar files) =
    if size_of (_pack_tar files) <=? MAX_ARCHIVE_BYTES then Ok files else Err (Rejected archive_too_large).
Proof.
  intros Hh Hs. pose proof (tar_holds (map packed files)) as [Hpos Hd]. change (tar_write (map packed files)) with (_pack_tar files) in *.
  destruct (Z.leb_spec (size_of (_pack_tar files)) MAX_ARCHIVE_BYTES) as [Hle|Hgt].
  - pose proof (repacked_members files Hh) as [Hok Ho]. rewrite data_size_packed in Hd.
    apply unpack_hardened_Ok. exists (map member_of (map packed files)). split; [by apply tar_read_packed|].
    rewrite Ho, !length_map. pose proof (total_size_nonneg files). destruct Hh.
    split_and!; try done; try (unfold MAX_COMPRESSION_RATIO; lia). by apply check_files_Ok.
  - unfold unpack_hardened, check_archive_size. rewrite (proj2 (Z.eqb_neq _ _)) by lia. simpl.
    by rewrite (proj2 (Z.leb_gt _ _)).
Qed.
End artifacts.

Section pipeline.
Context `{TarFormat, !TarLaws, ZipFormat, !ZipLaws}.

(** The workers see what was submitted.  The artifact that [submit_scan] stores
    for an accepted upload is unpacked by every worker to exactly the accepted file
    set, paths, permission bits, contents and order, unless the artifact, which is
    not compressed, is itself larger than 50 MiB: then every worker refuses it, and
    that is the case for every accepted file set of more than 50 MiB. *)
Theorem workers_see_the_submission a files :
  unpack_package_archive a = Ok files → scalar_paths files →
  unpack_hardened (_pack_tar files) =
    (if size_of (_pack_tar files) <=? MAX_ARCHIVE_BYTES then Ok files else Err (Rejected archive_too_large)) ∧
  (MAX_ARCHIVE_BYTES < total_size files → unpack_hardened (_pack_tar files) = Err (Rejected archive_too_large)).
Proof.
  intros Hh%upload_sound Hs. destruct Hh as [Hh _]. pose proof (unpack_packed files Hh Hs) as E. split; [done|]. intros Hlt. rewrite E.
  pose proof (tar_holds (map packed files)) as [_ Hd]. rewrite data_size_packed in Hd.
  change (tar_write (map packed files)) with (_pack_tar files) in *. by rewrite (proj2 (Z.leb_gt _ _)) by lia.
Qed.
End pipeline.

(** ** Which of them can be hashed *)

Section hashing.
Variable nfc : points → points.

(** Paths in normal form that encode, of a length a machine can hold. *)
Definition plain_path (p : points) : Prop :=
  nfc p = p ∧ Forall (λ c, scalar c = true) p ∧ Z.of_nat (length p) < 2 ^ 60.

Lemma utf8_char_length c : (length (utf8_char c) <= 4)%nat.
Proof. unfold utf8_char. repeat case_match; simpl; lia. Qed.

Lemma utf8_scalar p : Forall (λ c, scalar c = true) p → ∃ b, utf8 p = Ok b ∧ (length b <= 4 * length p)%nat.
Proof.
  induction 1 as [|c p Hc _ (b & Hb & Hl)]; [by exists []|]. simpl. rewrite Hc, Hb. simpl.
  eexists. split; [done|]. rewrite length_app. pose proof (utf8_char_length c). lia.
Qed.

Lemma encode_chunk_Ok d : size_of d < 2 ^ 64 → ∃ b, _encode_chunk d = Ok b.
Proof.
  intros Hd. unfold _encode_chunk, struct_pack. unfold size_of in Hd.
  rewrite (proj2 (Z.leb_le _ _)), (proj2 (Z.ltb_lt _ _)) by (simpl; lia). simpl. eauto.
Qed.

Lemma encode_entries_Ok l : (∀ e, e ∈ l → ∃ b, encode_entry e = Ok b) → ∃ b, encode_entries l = Ok b.
Proof.
  induction l as [|e l IH]; [by eexists|]. intros Hl. simpl.
  destruct (Hl e ltac:(left)) as [b ->], IH as [bs ->]; [intros ??; apply Hl; by right|]. eexists. done.
Qed.

Lemma encode_plain (e : Entry) :
  plain_path (entry_path e) → 0 ≤ e.1.2 < 4096 → size_of e.2 ≤ MAX_SINGLE_FILE_BYTES →
  ∃ b, encode_entry e = Ok b.
Proof.
  intros (_ & Hsc & Hlen) Hm Hs. unfold encode_entry. destruct (utf8_scalar _ Hsc) as (p & -> & Hp). simpl.
  destruct (encode_chunk_Ok p) as [p' ->]; [unfold size_of; lia|]. simpl.
  unfold struct_pack. rewrite (proj2 (Z.leb_le _ _)), (proj2 (Z.ltb_lt _ _)) by (simpl; lia). simpl.
  destruct (encode_chunk_Ok e.2) as [d ->]; [unfold MAX_SINGLE_FILE_BYTES in Hs; lia|]. simpl. eauto.
Qed.

Lemma hashable_iff files :
  hardened files → Forall (λ e, plain_path (entry_path e)) files →
  is_ok (content_preimage nfc files) = true ↔ ∀ e, e ∈ files → entry_path e !! 1%nat ≠ Some colon.
Proof.
  intros Hh Hp. rewrite Forall_forall in Hp.
  assert (Hnorm : norm_entry nfc <$> files = files).
  { rewrite <-(list_fmap_id files) at 2. apply list_fmap_ext. intros i [[p m] d] He%list_elem_of_lookup_2. unfold norm_entry, entry_path. simpl.
    destruct (Hp _ He) as [Hn _]. pose proof (hd_mode _ Hh _ He) as Hm. simpl in *. unfold entry_path in Hn.
    simpl in Hn. by rewrite Hn, land_12_id. }
  split.
  - destruct (content_preimage nfc files) as [b|] eqn:E; [|done]. intros _.
    apply content_preimage_Ok in E as ((_ & Ha & _) & _). intros e He. rewrite Forall_forall in Ha.
    destruct (Ha e He) as (_ & _ & Hc & _). by rewrite (proj1 (Hp e He)) in Hc.
  - intros Hc. destruct (encode_entries_Ok (sort_by (le_key points_le entry_path) files)) as [body Hb].
    { intros e He%elem_of_sort_by. apply encode_plain; [by apply Hp|by apply Hh..]. }
    erewrite (proj2 (content_preimage_Ok nfc files _)); [done|]. split.
    + split_and!; [apply Hh| |].
      * apply Forall_forall. intros e He. pose proof (hd_path _ Hh e He) as (H0 & _ & Hs).
        unfold accepted_path. rewrite (proj1 (Hp e He)). split_and!; [done| |by apply Hc|].
        -- intros Hhd. destruct (entry_path e) as [|c p] eqn:Ee; [done|]. injection Hhd as ->.
           specialize (Hs [] ltac:(simpl; left)). by destruct (legal_segment_ne _ Hs).
        -- intros seg Hseg. split; [by apply legal_segment_whole, Hs|by apply Hs].
      * pose proof (norm_paths nfc files) as E. rewrite Hnorm in E. rewrite <-E. apply Hh.
    + exists body. by rewrite Hnorm.
Qed.

Context `{TarFormat, !TarLaws, ZipFormat, !ZipLaws}.

(** Which accepted uploads [content_hash] takes.  For an accepted upload whose
    paths are in normal form and encodable, hashing the file set succeeds exactly
    when no path has a colon as its second character: every other rule of the
    content hash (NUL, absolute paths, illegal segments at slashes and backslashes,
    duplicates, the empty package, the field widths) is already enforced by the
    unpacker, and this one is not. *)
Theorem accepted_upload_hashable_iff a files :
  unpack_package_archive a = Ok files → Forall (λ e, plain_path (entry_path e)) files →
  is_ok (content_preimage nfc files) = true ↔ ∀ e, e ∈ files → entry_path e !! 1%nat ≠ Some colon.
Proof. intros [Hh _]%upload_sound. by apply hashable_iff. Qed.
End hashing.

Module UnpackSamples.

(** ** A tar format in which the laws hold

    Members are serialised as one number, in digits 2 and 3 after a 1; zeros in
    front stand for the data.  Bytes that start with 31, the gzip magic, are read
    by [gz], which the laws leave free. *)

Fixpoint digits (p : positive) : bytes :=
  match p with xH => [] | xO p' => 2 :: digits p' | xI p' => 3 :: digits p' end.

Fixpoint undigits (b : bytes) : option positive :=
  match b with
  | [] => Some xH
  | d :: b' => p ← undigits b'; Some (if d =? 2 then xO p else xI p)
  end.

Lemma undigits_digits p : undigits (digits p) = Some p.
Proof. induction p as [p IH|p IH|]; simpl; by rewrite ?IH. Qed.

Definition info_tuple (i : TarInfo) : points * Z * Z * bytes := (ti_name i, ti_mode i, ti_mtime i, ti_data i).
Definition tuple_info (x : points * Z * Z * bytes) : TarInfo := mkTarInfo x.1.1.1 x.1.1.2 x.1.2 x.2.

Fixpoint toy_parse (b : bytes) : option (list (points * Z * Z * bytes)) :=
  match b with
  | [] => None
  | d :: b' => if d =? 0 then toy_parse b' else if d =? 1 then undigits b' ≫= decode else None
  end.

Definition toy_read (gz : bytes → TarReading) (b : bytes) : TarReading :=
  if starts_with [31] b then gz b
  else match toy_parse b with
       | Some l => tar_members (map member_of (map tuple_info l))
       | None => tar_error
       end.

Definition toy_write (infos : list TarInfo) : bytes :=
  repeat 0 (Z.to_nat (data_size infos)) ++ 1 :: digits (encode (map info_tuple infos)).

Definition toy (gz : bytes → TarReading) : TarFormat := {| tar_read := toy_read gz; tar_write := toy_write |}.

Lemma toy_parse_zeros n b : toy_parse (repeat 0 n ++ b) = toy_parse b.
Proof. by induction n. Qed.

Lemma data_size_nonneg infos : 0 ≤ data_size infos.
Proof. induction infos as [|i l IH]; simpl; [done|]. pose proof (size_of_nonneg (ti_data i)). lia. Qed.

Lemma toy_laws gz : @TarLaws (toy gz).
Proof.
  split; intros infos; simpl.
  - intros _. unfold toy_read, toy_write.
    assert (Hs : starts_with [31] (repeat 0 (Z.to_nat (data_size infos)) ++ 1 :: digits (encode (map info_tuple infos))) = false)
      by by destruct (Z.to_nat (data_size infos)).
    rewrite Hs, toy_parse_zeros. simpl. rewrite undigits_digits. simpl. rewrite decode_encode.
    do 2 f_equal. rewrite map_map. rewrite <-(map_id infos) at 2. apply map_ext. by intros [].
  - unfold toy_write, size_of. rewrite length_app, repeat_length. simpl. pose proof (data_size_nonneg infos). lia.
Qed.

(** ** Uploads *)

Definition no_gz (b : bytes) : TarReading := tar_error.

(** A zip with one directory and one file, [a/./b] of mode 0755. *)
Definition zip_sample : bytes :=
  [80; 75; 3; 4] ++ _EOCD_SIGNATURE ++ [0; 0; 0; 0; 2; 0; 2; 0; 0; 0; 0; 0; 0; 0; 0; 0; 0; 0].
Definition zip_file : ZipInfo :=
  mkZipInfo [97; 47; 46; 47; 98] 0 (Z.shiftl 493 16) 2 (Some 315532800) (zip_data [1; 2]).
Definition zip_listing : list ZipInfo := [mkZipInfo [97; 47] 0 0 0 None (zip_data []); zip_file].
Definition toy_zip (b : bytes) : ZipReading :=
  if bool_decide (b = zip_sample) then zip_entries zip_listing else zip_error.

Lemma toy_zip_laws : @ZipLaws toy_zip.
Proof.
  intros b entries. unfold zip_read, toy_zip. case_bool_decide; [|done]. intros [= <-].
  repeat constructor.
Qed.

Definition unpacked : list Entry := [([97; 47; 98], 493, [1; 2])].

Lemma zip_sample_unpacks : unpack_package_archive (H := toy no_gz) (H0 := toy_zip) zip_sample = Ok unpacked.
Proof. vm_compute. reflexivity. Qed.

Lemma accepted_upload_is_hardened_witness :
  unpack_package_archive (H := toy no_gz) (H0 := toy_zip) zip_sample = Ok unpacked ∧
  hardened unpacked ∧ total_size unpacked ≤ MAX_ARCHIVE_BYTES.
Proof.
  split; [exact zip_sample_unpacks|].
  destruct (@accepted_upload_is_hardened _ (toy_laws no_gz) _ toy_zip_laws _ _ zip_sample_unpacks)
    as (Hh & _ & _ & Hz & _).
  split; [exact Hh|by apply Hz].
Defined.

Lemma workers_see_the_submission_witness :
  unpack_hardened (H := toy no_gz) (_pack_tar (H := toy no_gz) unpacked) = Ok unpacked.
Proof.
  destruct (@workers_see_the_submission _ (toy_laws no_gz) _ toy_zip_laws _ _ zip_sample_unpacks) as [E _].
  - repeat constructor.
  - rewrite E. vm_compute. reflexivity.
Defined.

Definition id_nfc (p : points) : points := p.

Lemma accepted_upload_hashable_iff_witness : is_ok (content_preimage id_nfc unpacked) = true.
Proof.
  apply (@accepted_upload_hashable_iff id_nfc _ (toy_laws no_gz) _ toy_zip_laws _ _ zip_sample_unpacks).
  - repeat constructor.
  - intros e ->%list_elem_of_singleton. done.
Defined.

(** ** Uploads that the code does not handle as documented *)

Definition regular (name : points) (data : bytes) : TarMember :=
  mkTarMember name regular_member (size_of data) 420 (content data).

(** A file named [C:x] is unpacked, and then cannot be hashed. *)
Example drive_path_unpacks_and_does_not_hash :
  let tar := toy (λ _, tar_members [regular [67; 58; 120] [1]]) in
  unpack_package_archive (H := tar) (H0 := toy_zip) [31; 139] = Ok [([67; 58; 120], 420, [1])] ∧
  content_preimage id_nfc [([67; 58; 120], 420, [1])] = Err drive_letter.
Proof. split; vm_compute; reflexivity. Qed.

(** A compressed tar that ends early makes [getmembers] raise [EOFError], and an
    LZMA entry of a zip that is corrupt makes [read] raise [LZMAError]: neither
    becomes [UnpackRejected]. *)
Example library_exceptions_escape :
  unpack_package_archive (H := toy (λ _, tar_raises)) (H0 := toy_zip) [31; 139] = Err Raised ∧
  unpack_package_archive (H := toy no_gz)
    (H0 := λ _, zip_entries [mkZipInfo [97] 0 0 2 None zip_data_raises]) zip_sample = Err Raised.
Proof. split; vm_compute; reflexivity. Qed.

Lemma bytes_of_size n : 0 ≤ n → ∃ b : bytes, size_of b = n.
Proof. intros Hn. exists (repeat 0 (Z.to_nat n)). unfold size_of. rewrite repeat_length. lia. Qed.

Definition three_files (data : bytes) : list Entry := [([97], 420, data); ([98], 420, data); ([99], 420, data)].
Definition three_members (data : bytes) : list TarMember := [regular [97] data; regular [98] data; regular [99] data].

Lemma three_files_entries data : omap member_entry (three_members data) = three_files data.
Proof. reflexivity. Qed.

(** Three files of 20000000 bytes in a compressed tar of 600001 bytes. *)
Lemma three_files_unpack data upload :
  size_of data = 20000000 → size_of upload = 600000 →
  unpack_package_archive (H := toy (λ _, tar_members (three_members data))) (H0 := toy_zip) (31 :: upload) =
    Ok (three_files data).
Proof.
  intros Hd Hu. unfold unpack_package_archive. simpl existsb. cbv iota.
  assert (Hs : size_of (31 :: upload) = 600001) by (unfold size_of in *; simpl length; lia).
  assert (Ht : total_size (three_files data) = 60000000) by (unfold three_files; simpl; lia).
  apply (@unpack_hardened_Ok (toy _)). exists (three_members data). rewrite Hs, three_files_entries, Ht.
  split; [done|]. split; [by unfold MAX_ARCHIVE_BYTES|]. split; [done|]. split.
  - repeat constructor; simpl; try done; try (by intros _ ? [= <-]; rewrite Hd);
      intros _; by rewrite Hd.
  - split; [done|]. split; [done|]. split; [done|].
    apply check_files_Ok. split; [done|]. split; [done|]. split; [simpl map; by_compute|].
    intros e e' rest He He'. unfold three_files in He, He'. rewrite !elem_of_cons, elem_of_nil in He, He'.
    destruct_or?; subst; done.
Qed.

(** A package can be accepted and then refused by every worker: an upload of
    600001 bytes that holds three files of 20000000 bytes passes the unpacker, which
    allows 200 MiB, and hashes; the artifact written for it exceeds the 50 MiB that
    the workers' own unpacking allows, so each of them dead-letters the scan as a
    rejected archive. *)
Theorem accepted_package_is_refused_by_the_workers :
  ∃ gz a files,
    unpack_package_archive (H := toy gz) (H0 := toy_zip) a = Ok files ∧
    is_ok (content_preimage id_nfc files) = true ∧
    unpack_hardened (H := toy gz) (_pack_tar (H := toy gz) files) = Err (Rejected archive_too_large).
Proof.
  destruct (bytes_of_size 20000000) as [data Hd]; [done|]. destruct (bytes_of_size 600000) as [upload Hu]; [done|].
  pose proof (three_files_unpack data upload Hd Hu) as Hun.
  assert (Hh : hardened (three_files data)).
  { by eapply (@upload_sound _ (toy_laws _) _ toy_zip_laws) in Hun as [? _]. }
  eexists _, _, _. split; [exact Hun|]. split.
  - apply (hashable_iff id_nfc _ Hh).
    + repeat constructor.
    + intros e He. unfold three_files in He. rewrite !elem_of_cons, elem_of_nil in He. destruct_or?; by subst.
  - rewrite (@unpack_packed _ (toy_laws _) _ Hh) by repeat constructor.
    pose proof (tar_holds (TarLaws := toy_laws (λ _, tar_members (three_members data))) (map packed (three_files data))) as [_ Hsz].
    rewrite data_size_packed in Hsz. rewrite (proj2 (Z.leb_gt _ _)); [done|].
    eapply Z.lt_le_trans; [|exact Hsz]. unfold three_files. simpl. rewrite Hd. done.
Qed.
End UnpackSamples.
