(* ===== verification/Adapter.v ===== *)
(** * Running one engine: [services/engine_runner/adapters/base.py]

    [SubprocessEngineAdapter.analyze]: the file set written below a fresh
    temporary directory, the engine run on it under what is left of the scan's
    deadline, and every way this can end.  The directory is a finite map from
    paths, as lists of components below it, to nodes; [fits] says which paths
    the filesystem takes at all.  The subprocess and the output parser of a
    concrete engine are parameters. *)

From S2P Require Import Prelude Float64 Models Canonical Unpack.
From Stdlib Require Import QArith.
Open Scope string_scope.
Open Scope list_scope.
Open Scope Z_scope.

(** [{path: data for path, _mode, data in ...}]: the paths are distinct, so the
    dict has the items of the list, in its order. *)
Definition Files : Type := list (points * bytes).
Definition files_of (entries : list Entry) : Files := map (λ e, (entry_path e, e.2)) entries.

Inductive Node := Dir | File (data : bytes).
Abbreviation Tree := (gmap (list points) Node).

Inductive Materialized := escaped (path : points) | fs_raises | materialized (tree : Tree).

(** [(target_dir / path).resolve()], in a directory without links. *)
Definition dest_of (target : list points) (path : points) : list points :=
  foldl resolve_step (if bool_decide (head path = Some slash) then [] else target) (split_on slash path).

(** The directories [mkdir(parents=True)] makes on the way to a file. *)
Definition parents (rel : list points) : list (list points) :=
  map (λ depth, take depth rel) (seq 1 (length rel - 1)).

Definition mkdir_parents (rel : list points) (t : Tree) : option Tree :=
  if existsb (λ p, match t !! p with Some (File _) => true | _ => false end) (parents rel) then None
  else Some (foldr (λ p t, <[p := Dir]> t) t (parents rel)).

Section adapter.
Variable target : list points.
Variable fits : list points → bool.

Definition write_file (rel : list points) (data : bytes) (t : Tree) : option Tree :=
  if negb (fits rel) then None else
  t ← mkdir_parents rel t;
  if bool_decide (rel = []) then None else
  match t !! rel with Some Dir => None | _ => Some (<[rel := File data]> t) end.

(** The loop over the files. *)
Fixpoint materialize (files : Files) (t : Tree) : Materialized :=
  match files with
  | [] => materialized t
  | (path, data) :: rest =>
      let dest := dest_of target path in
      if negb (bool_decide (target `prefix_of` dest)) then escaped path else
      match write_file (drop (length target) dest) data t with
      | None => fs_raises
      | Some t' => materialize rest t'
      end
  end.

(** ** [analyze] *)

(** What [subprocess.run] does, and what the parser makes of a completed run. *)
Inductive Run := run_timed_out | run_os_error (text : string) | run_value_error (text : string)
               | run_completed (returncode : Z).
Inductive Parsed := parsed (findings : list Finding) | nothing_in_scope (text : string) | parse_raises (text : string).

Variable run : Tree → Q → Run.
Variable parse_output : Tree → Z → Files → Parsed.

Record Adapter := mkAdapter {
  ad_metadata : EngineMetadata;
  ad_argv0 : string;
  ad_timeout_s : Q;
  ad_treat_nonzero_exit_as_error : bool;
}.

Variable py_repr : points → string.
Variable float_text : Q → string.
Variable int_text : Z → string.

Definition _unusable (ad : Adapter) (status : EngineStatus) (reason : string) : EngineResult :=
  mkEngineResult (ad_metadata ad) [] status MODE_STATIC false (Some reason).

Definition _nothing_in_scope (ad : Adapter) (reason : string) : EngineResult :=
  mkEngineResult (ad_metadata ad) [] PARTIAL MODE_STATIC false (Some reason).

(** The seconds the subprocess gets; [None] when the deadline has passed. *)
Definition relative_timeout (ad : Adapter) (deadline : option Q) (now : Q) : option Q :=
  match deadline with
  | None => Some (ad_timeout_s ad)
  | Some d =>
      let remaining := fsub d now in
      if qle remaining 0 then None
      else Some (if qlt remaining (ad_timeout_s ad) then remaining else ad_timeout_s ad)
  end.

(** [None]: an exception of the filesystem leaves the method. *)
Definition analyze (ad : Adapter) (files : Files) (deadline : option Q) (now : Q) : option EngineResult :=
  match relative_timeout ad deadline now with
  | None => Some (_unusable ad TIMEOUT "deadline already passed")
  | Some timeout =>
      match materialize files ∅ with
      | escaped path => Some (_unusable ad ERROR ("refusing to materialize escaping path: " +:+ py_repr path))
      | fs_raises => None
      | materialized tree =>
          match run tree timeout with
          | run_timed_out => Some (_unusable ad TIMEOUT (ad_argv0 ad +:+ " exceeded " +:+ float_text timeout +:+ "s"))
          | run_os_error text => Some (_unusable ad ERROR ("failed to start " +:+ ad_argv0 ad +:+ ": " +:+ text))
          | run_value_error text => Some (_unusable ad ERROR ("endpoint re-validation failed: " +:+ text))
          | run_completed returncode =>
              if negb (returncode =? 0) && ad_treat_nonzero_exit_as_error ad
              then Some (_unusable ad ERROR (ad_argv0 ad +:+ " exited " +:+ int_text returncode))
              else match parse_output tree returncode files with
                   | nothing_in_scope text => Some (_nothing_in_scope ad text)
                   | parse_raises text => Some (_unusable ad ERROR ("output parse failed: " +:+ text))
                   | parsed findings =>
                       Some (mkEngineResult (ad_metadata ad) findings OK MODE_STATIC (em_requires_llm (ad_metadata ad)) None)
                   end
          end
      end
  end.

(** ** The tree is the file set *)

(** A tree that holds these files and the directories above them, nothing else. *)
Definition holds (files : list Entry) (t : Tree) : Prop :=
  (∀ p d, t !! p = Some (File d) ↔ ∃ e, e ∈ files ∧ p = split_on slash (entry_path e) ∧ d = e.2) ∧
  (∀ p, t !! p = Some Dir ↔ p ≠ [] ∧ ∃ e rest, e ∈ files ∧ split_on slash (entry_path e) = p ++ rest ∧ rest ≠ []).

Lemma elem_of_parents p rel : p ∈ parents rel ↔ p ≠ [] ∧ ∃ rest, rel = p ++ rest ∧ rest ≠ [].
Proof.
  unfold parents. rewrite list_elem_of_In, in_map_iff. setoid_rewrite in_seq. split.
  - intros (d & <- & Hd). split; [|exists (drop d rel); split; [by rewrite take_drop|]];
      intros E%(f_equal length); rewrite ?length_take, ?length_drop in E; simpl in E; lia.
  - intros (Hp & rest & -> & Hr). exists (length p). rewrite take_app_length, length_app. split; [done|].
    destruct p, rest; simpl in *; try done. lia.
Qed.

Lemma mkdir_parents_Some rel t :
  (∀ p d, p ∈ parents rel → t !! p ≠ Some (File d)) →
  ∃ t', mkdir_parents rel t = Some t' ∧ ∀ p, t' !! p = if bool_decide (p ∈ parents rel) then Some Dir else t !! p.
Proof.
  intros H. unfold mkdir_parents. rewrite (proj2 (existsb_false _ _)).
  2:{ intros p Hp. destruct (t !! p) as [[|d]|] eqn:E; try done. by destruct (H p d Hp). }
  eexists. split; [done|]. intros p. clear H. induction (parents rel) as [|q l IH]; simpl; [done|].
  destruct (decide (p = q)) as [->|Hq].
  - rewrite lookup_insert_eq, bool_decide_true by left. done.
  - rewrite lookup_insert_ne, IH by done. rewrite (bool_decide_ext (p ∈ l) (p ∈ q :: l)); [done|set_solver].
Qed.

Lemma split_on_prefix a b :
  (∃ rest, split_on slash b = split_on slash a ++ rest ∧ rest ≠ []) ↔ ∃ r, b = a ++ slash :: r.
Proof.
  split.
  - intros (rest & E & Hr). exists (join_on slash rest). rewrite <-(join_split slash b), E.
    rewrite join_on_app, join_split by (apply split_on_ne || done). done.
  - intros (r & ->). exists (split_on slash r). split; [apply split_on_app|apply split_on_ne].
Qed.

Lemma write_file_holds (all done_ : list Entry) (e : Entry) t :
  hardened all → (∀ x, x ∈ done_ → x ∈ all) → e ∈ all → e ∉ done_ → NoDup (map entry_path (done_ ++ [e])) →
  fits (split_on slash (entry_path e)) = true → holds done_ t →
  ∃ t', write_file (split_on slash (entry_path e)) e.2 t = Some t' ∧ holds (done_ ++ [e]) t'.
Proof.
  intros Hh Hsub He Hn Hnd Hfit [Hfile Hdir]. set (rel := split_on slash (entry_path e)) in *.
  assert (Hrel : rel ≠ []) by apply split_on_ne.
  assert (Hpar : ∀ p d, p ∈ parents rel → t !! p ≠ Some (File d)).
  { intros p d (_ & rest & E & Hr)%elem_of_parents (x & Hx & -> & _)%Hfile.
    destruct (proj1 (split_on_prefix (entry_path x) (entry_path e))) as [r E']; [by exists rest|].
    by apply (hd_tree _ Hh x e r); auto. }
  destruct (mkdir_parents_Some rel t Hpar) as (t1 & Hmk & Hl1).
  assert (Hself : rel ∉ parents rel).
  { intros (_ & rest & E & Hr)%elem_of_parents. apply (f_equal length) in E. rewrite length_app in E.
    destruct rest; [done|]. simpl in E. lia. }
  assert (Hfresh : t1 !! rel = None).
  { rewrite Hl1, bool_decide_false by done. destruct (t !! rel) as [[|d]|] eqn:E; [| |done].
    - apply Hdir in E as (_ & x & rest & Hx & E & Hr).
      destruct (proj1 (split_on_prefix (entry_path e) (entry_path x))) as [r E']; [by exists rest|].
      by destruct (hd_tree _ Hh e x r); auto.
    - apply Hfile in E as (x & Hx & E & _). apply (f_equal (join_on slash)) in E. unfold rel in E.
      rewrite !join_split in E. rewrite map_app in Hnd. apply NoDup_app in Hnd as (_ & Hd & _).
      destruct (Hd (entry_path e)); [|by left]. rewrite E. by apply (list_elem_of_fmap_2 entry_path). }
  exists (<[rel := File e.2]> t1). split.
  { unfold write_file. rewrite Hfit, Hmk. simpl. rewrite bool_decide_false by done. by rewrite Hfresh. }
  split.
  - intros p d. destruct (decide (p = rel)) as [->|Hp].
    + rewrite lookup_insert_eq. split; [intros [= <-]; exists e; set_solver|].
      intros (x & [Hx| ->%list_elem_of_singleton]%elem_of_app & E & ->); [|done].
      assert (Hc : t !! rel = Some (File x.2)) by (apply Hfile; eauto).
      rewrite Hl1, bool_decide_false in Hfresh by done. congruence.
    + rewrite lookup_insert_ne, Hl1 by done. split.
      * case_bool_decide; [done|]. intros (x & Hx & -> & ->)%Hfile. exists x. set_solver.
      * intros (x & [Hx| ->%list_elem_of_singleton]%elem_of_app & -> & ->); [|done].
        rewrite bool_decide_false; [apply Hfile; eauto|]. intros Hin. by eapply Hpar, Hfile; eauto.
  - intros p. destruct (decide (p = rel)) as [->|Hp].
    + rewrite lookup_insert_eq. split; [done|]. intros (_ & x & rest & Hx & E & Hr). exfalso.
      destruct (proj1 (split_on_prefix (entry_path e) (entry_path x))) as [r E']; [by exists rest|].
      apply (hd_tree _ Hh e x r); [done| |done]. set_solver.
    + rewrite lookup_insert_ne, Hl1 by done. case_bool_decide as Hin.
      * split; [intros _|done]. apply elem_of_parents in Hin as (? & rest & E & Hr). split; [done|].
        exists e, rest. split_and!; [set_solver|done..].
      * rewrite Hdir. split; intros (Hp' & x & rest & Hx & E & Hr); (split; [done|]); exists x, rest.
        { split_and!; [set_solver|done..]. }
        apply elem_of_app in Hx as [?| ->%list_elem_of_singleton]; [done|]. destruct Hin. apply elem_of_parents. eauto.
Qed.

Lemma dest_of_canonical p : canonical_path p → dest_of target p = target ++ split_on slash p.
Proof.
  intros (_ & _ & Hs). unfold dest_of. rewrite bool_decide_false.
  - apply resolve_legal. intros seg Hseg. by apply legal_segment_whole, Hs.
  - intros Hh. destruct p as [|c p]; [done|]. injection Hh as ->.
    specialize (Hs [] ltac:(simpl; left)). by destruct (legal_segment_ne _ Hs).
Qed.

Lemma materialize_cons (e : Entry) rest t :
  canonical_path (entry_path e) →
  materialize (files_of (e :: rest)) t =
    match write_file (split_on slash (entry_path e)) e.2 t with
    | None => fs_raises
    | Some t' => materialize (files_of rest) t'
    end.
Proof.
  intros Hp. simpl. rewrite dest_of_canonical by done.
  rewrite bool_decide_true by by apply prefix_app_r. simpl. by rewrite drop_app_length.
Qed.

Definition fitting (e : Entry) : bool := fits (split_on slash (entry_path e)).

Lemma materialize_rest (all done_ rest : list Entry) t :
  hardened all → all = done_ ++ rest → holds done_ t →
  (forallb fitting rest = true → ∃ t', materialize (files_of rest) t = materialized t' ∧ holds all t') ∧
  (forallb fitting rest = false → materialize (files_of rest) t = fs_raises).
Proof.
  intros Hh. revert done_ t. induction rest as [|e rest IH]; intros done_ t Hall Ht.
  { rewrite app_nil_r in Hall. subst done_. split; [|done]. intros _. by exists t. }
  assert (He : e ∈ all) by (rewrite Hall; set_solver).
  rewrite materialize_cons by by apply Hh. simpl forallb.
  assert (Hnd : NoDup (map entry_path (done_ ++ e :: rest))) by (rewrite <-Hall; apply Hh).
  replace (done_ ++ e :: rest) with ((done_ ++ [e]) ++ rest) in * by by rewrite <-app_assoc.
  destruct (fitting e) eqn:Ef; simpl.
  - destruct (write_file_holds all done_ e t) as (t' & -> & Ht'); try done.
    + intros x Hx. rewrite Hall. set_solver.
    + intros Hin. rewrite !map_app in Hnd. apply NoDup_app in Hnd as [Hnd _].
      apply NoDup_app in Hnd as (_ & Hd & _). destruct (Hd (entry_path e)); [|by left].
      by apply (list_elem_of_fmap_2 entry_path).
    + rewrite map_app in Hnd. by apply NoDup_app in Hnd as [? _].
    + by apply (IH (done_ ++ [e])).
  - split; [done|]. intros _. unfold write_file. unfold fitting in Ef. by rewrite Ef.
Qed.

Lemma holds_empty : holds [] ∅.
Proof.
  split; intros p; [intros d|]; rewrite lookup_empty; (split; [done|]).
  - intros (e & He & _). by apply elem_of_nil in He.
  - intros (_ & e & rest & He & _). by apply elem_of_nil in He.
Qed.

Lemma materialize_hardened files :
  hardened files →
  if forallb fitting files then ∃ t, materialize (files_of files) ∅ = materialized t ∧ holds files t
  else materialize (files_of files) ∅ = fs_raises.
Proof.
  intros Hh. destruct (materialize_rest files [] files ∅ Hh eq_refl holds_empty) as [H1 H2].
  destruct (forallb fitting files); auto.
Qed.

Lemma relative_timeout_bound ad deadline now timeout :
  relative_timeout ad deadline now = Some timeout →
  (timeout <= ad_timeout_s ad)%Q ∧ ∀ d, deadline = Some d → (timeout <= fsub d now)%Q.
Proof.
  unfold relative_timeout. destruct deadline as [d|]; [|intros [= <-]; split; [apply Qle_refl|done]].
  destruct (qle _ _); [done|]. destruct (qlt _ _) eqn:E; intros [= <-].
  - apply qlt_iff in E. split; [by apply Qlt_le_weak|]. intros ? [= <-]. apply Qle_refl.
  - apply qlt_false in E. split; [apply Qle_refl|]. by intros ? [= <-].
Qed.

(** An engine that answers has scanned the file set.  On a hardened file set the
    adapter materializes a tree whose regular files are exactly the set, with the
    directories above them and nothing else, whatever the order of the entries; a
    usable result comes from a completed run on that tree, within the engine's own
    timeout and what was left of the deadline, and carries exactly the findings the
    parser read from that run; an unusable result carries none; and the method
    raises exactly when the filesystem refuses one of the paths. *)
Theorem engine_scans_the_file_set ad files deadline now :
  hardened files →
  match analyze ad (files_of files) deadline now with
  | None => relative_timeout ad deadline now ≠ None ∧ ∃ e, e ∈ files ∧ fitting e = false
  | Some r =>
      er_engine r = ad_metadata ad ∧
      if usable r then
        ∃ tree timeout returncode,
          holds files tree ∧ relative_timeout ad deadline now = Some timeout ∧
          (timeout <= ad_timeout_s ad)%Q ∧ (∀ d, deadline = Some d → (timeout <= fsub d now)%Q) ∧
          run tree timeout = run_completed returncode ∧
          (returncode = 0 ∨ ad_treat_nonzero_exit_as_error ad = false) ∧
          match parse_output tree returncode (files_of files) with
          | parsed findings => er_status r = OK ∧ er_findings r = findings
          | nothing_in_scope _ => er_status r = PARTIAL ∧ er_findings r = []
          | parse_raises _ => False
          end
      else er_findings r = []
  end.
Proof.
  intros Hh. unfold analyze. destruct (relative_timeout ad deadline now) as [timeout|] eqn:Et; [|done].
  pose proof (materialize_hardened files Hh) as Hm. destruct (forallb fitting files) eqn:Ef.
  - destruct Hm as (tree & -> & Ht). destruct (run tree timeout) as [| | |returncode] eqn:Er; try done.
    destruct (negb (returncode =? 0) && ad_treat_nonzero_exit_as_error ad) eqn:Ec; [done|].
    assert (Hrc : returncode = 0 ∨ ad_treat_nonzero_exit_as_error ad = false).
    { apply andb_false_iff in Ec as [Hz%negb_false_iff%Z.eqb_eq|?]; auto. }
    destruct (relative_timeout_bound _ _ _ _ Et) as [H1 H2].
    destruct (parse_output tree returncode (files_of files)) as [findings|text|text] eqn:Ep; [| |done];
      (split; [done|]); exists tree, timeout, returncode; rewrite Ep; split_and!; done.
  - rewrite Hm. split; [done|]. by apply forallb_false in Ef.
Qed.
End adapter.

Module AdapterSamples.
Import UnpackSamples.

Definition tmp : list points := [[116; 109; 112]].

(** Linux: no component of more than 255 bytes; for ASCII names, characters. *)
Definition name_max (rel : list points) : bool := forallb (λ c, Z.of_nat (length c) <=? 255) rel.

Definition grep_engine : Adapter :=
  mkAdapter (mkEngineMetadata "grep" "1" "d" [STATIC] false false true) "grep" (60 # 1) true.

Definition clean_run (t : Tree) (timeout : Q) : Run := run_completed 0.
Definition counted (t : Tree) (returncode : Z) (files : Files) : Parsed :=
  if bool_decide (size t = 2%nat) then parsed [] else parse_raises "unexpected tree".
Definition no_points (p : points) : string := "".
Definition no_q (q : Q) : string := "".
Definition no_z (z : Z) : string := "".

Lemma unpacked_hardened : hardened unpacked.
Proof. by eapply (@upload_sound _ (toy_laws no_gz) _ toy_zip_laws), zip_sample_unpacks. Qed.

Definition scanned : option EngineResult :=
  analyze tmp name_max clean_run counted no_points no_q no_z grep_engine (files_of unpacked) (Some (100 # 1)%Q) (70 # 1)%Q.

Lemma engine_scans_the_file_set_witness :
  (er_status <$> scanned = Some OK) ∧
  ∃ tree timeout returncode, holds unpacked tree ∧ (timeout <= 60)%Q ∧ clean_run tree timeout = run_completed returncode.
Proof.
  split; [vm_compute; reflexivity|].
  pose proof (engine_scans_the_file_set tmp name_max clean_run counted no_points no_q no_z grep_engine unpacked
    (Some (100 # 1)%Q) (70 # 1)%Q unpacked_hardened) as H.
  destruct (analyze _ _ _ _ _ _ _ _ _ _ _) as [r|] eqn:E; [|vm_compute in E; discriminate].
  destruct H as [_ H]. assert (Hu : usable r = true) by (vm_compute in E; injection E as <-; reflexivity).
  rewrite Hu in H. destruct H as (tree & timeout & rc & Ht & _ & Hle & _ & Hrun & _). eauto 10.
Defined.

(** A file name of 300 characters is a canonical path, and no file set that has
    one is ever analyzed: each attempt leaves the method with an [OSError]. *)
Example long_names_raise :
  let name := repeat 97 300 in
  _canonicalize_member_path name = Ok name ∧
  analyze tmp name_max clean_run counted no_points no_q no_z grep_engine [(name, [1])] None 0%Q = None.
Proof. split; vm_compute; reflexivity. Qed.
End AdapterSamples.
