(* ===== verification/BlobStore.v ===== *)
(** * The blob store and its share probe: [libs/common/blobstore.py]

    Artifacts and findings travel between the monolith and the engine runner as files of
    one store.  [LocalFilesystemBlobStore] maps keys to paths below its root; the share
    probe lets each process find out whether the other looks at the same store, and
    [/readyz] ([gateway/infra_router.py]) reports what it found.  A store is a tree as in
    Adapter.v; [fits] says which paths the filesystem takes, [unlinks] which files it lets
    the process remove.  Ownership and mode bits are not modelled.  The text of a float
    and its reading are parameters. *)

From S2P Require Import Prelude Float64 Canonical Unpack Adapter.
From Stdlib Require Import QArith Lqa.
Open Scope string_scope.
Open Scope list_scope.
Open Scope Z_scope.

(** ** Keys *)

(** [Path(key).parts] of a relative key. *)
Definition path_parts (key : points) : list points := base.filter (λ c, c ≠ [] ∧ c ≠ [dot]) (split_on slash key).

(** The path below the root; [None] is the [ValueError]. *)
Definition _path_for (key : points) : option (list points) :=
  if bool_decide (head key = Some slash) || bool_decide ([dot; dot] ∈ path_parts key) then None else Some (path_parts key).

(** ** The interface *)

(** What [share_probe] needs of a store.  [None] of a write is an exception; a failing
    read and a failing removal are caught where they are made. *)
Class ShareProbeStore (S : Type) := {
  ps_put : points → bytes → S → option S;
  ps_get : points → S → option bytes;
  ps_list_prefix : points → S → list points;
  ps_delete : points → S → S;
}.

Definition PROBE_PREFIX : points := str_bytes "_probe".
Definition probe_key (identity : points) : points := PROBE_PREFIX ++ slash :: identity.

Definition safe_char (c : Z) : bool :=
  ((65 <=? c) && (c <=? 90)) || ((97 <=? c) && (c <=? 122)) || ((48 <=? c) && (c <=? 57)) || bool_decide (c ∈ [46; 95; 45]).

(** [not identity or identity in {".", ".."} or _UNSAFE_IDENTITY_CHARS.search(identity)] does not hold. *)
Definition file_name_safe (identity : points) : bool :=
  negb (bool_decide (identity ∈ [[]; [dot]; [dot; dot]])) && forallb safe_char identity.

(** What a store promises about the files below [_probe]: [probe_file] is the content
    under a name, and stays what it is but for the named file. *)
Class ShareProbeLaws (S : Type) `{ShareProbeStore S} := {
  ps_ok : S → Prop;
  probe_file : S → points → option bytes;
  law_put s s' identity data :
    ps_ok s → file_name_safe identity = true → ps_put (probe_key identity) data s = Some s' →
    ps_ok s' ∧ ∀ n, probe_file s' n = if bool_decide (n = identity) then Some data else probe_file s n;
  law_list s key :
    ps_ok s → key ∈ ps_list_prefix PROBE_PREFIX s → ∃ n, key = probe_key n ∧ (slash ∉ n) ∧ is_Some (probe_file s n);
  law_listed s n : ps_ok s → is_Some (probe_file s n) → probe_key n ∈ ps_list_prefix PROBE_PREFIX s;
  law_get s n : ps_ok s → slash ∉ n → ps_get (probe_key n) s = probe_file s n;
  law_delete s n :
    ps_ok s → slash ∉ n → ps_ok (ps_delete (probe_key n) s) ∧
    ∀ n', probe_file (ps_delete (probe_key n) s) n' = probe_file s n' ∨
          n' = n ∧ probe_file (ps_delete (probe_key n) s) n' = None;
}.

(** ** [LocalFilesystemBlobStore] *)

Inductive PutOutcome := put_ok (t : Tree) | put_value_error | put_os_error | put_never_returns.
Inductive GetOutcome := blob (data : bytes) | BlobNotFoundError | get_value_error.

Section local.
Variable fits : list points → bool.
Variable unlinks : list points → bool.

(** [_mkdir_shared] climbs from the parent of the path to the root: from the root itself
    it climbs for ever.  A failing write may leave directories behind; no file changes. *)
Definition put (key : points) (data : bytes) (t : Tree) : PutOutcome :=
  match _path_for key with
  | None => put_value_error
  | Some [] => put_never_returns
  | Some rel => match write_file fits rel data t with Some t => put_ok t | None => put_os_error end
  end.

Definition get_blob (key : points) (t : Tree) : GetOutcome :=
  match _path_for key with
  | None => get_value_error
  | Some rel => match t !! rel with Some (File data) => blob data | _ => BlobNotFoundError end
  end.

Definition blob_exists (key : points) (t : Tree) : option bool :=
  rel ← _path_for key; Some (match t !! rel with Some (File _) => true | _ => false end).

(** The files below a directory, as keys. *)
Definition files_below (base : list points) (t : Tree) : list points :=
  omap (λ e : list points * Node, match e.2 with File _ => if bool_decide (base `prefix_of` e.1) then Some (join_on slash e.1) else None | Dir => None end)
    (map_to_list t).

Definition list_prefix (prefix : points) (t : Tree) : option (list points) :=
  base ← _path_for prefix;
  Some (match base, t !! base with
        | [], _ | _, Some Dir => sort_by points_le (files_below base t)
        | _, _ => []
        end).

(** [unlink(missing_ok=True)]: [None] when it raises. *)
Definition delete_blob (key : points) (t : Tree) : option Tree :=
  rel ← _path_for key;
  match t !! rel with
  | Some (File _) => if unlinks rel then Some (base.delete rel t) else None
  | Some Dir => None
  | None => if bool_decide (rel = []) || existsb (λ p, match t !! p with Some (File _) => true | _ => false end) (parents rel) then None else Some t
  end.

#[export] Instance local_probe_store : ShareProbeStore Tree := {|
  ps_put key data t := match put key data t with put_ok t => Some t | _ => None end;
  ps_get key t := match get_blob key t with blob data => Some data | _ => None end;
  ps_list_prefix prefix t := default [] (list_prefix prefix t);
  ps_delete key t := default t (delete_blob key t);
|}.
End local.

(** ** The probe *)

Definition SHARE_PROBE_TTL_S : Q := 300.
Definition SHARE_PROBE_GRACE_S : Q := 60.
Definition MONOLITH_PROBE_ROLE : points := str_bytes "monolith".
Definition ENGINE_RUNNER_PROBE_ROLE : points := str_bytes "engine-runner".

Definition dashed (c : Z) : Z := if safe_char c then c else 45.
Definition edge (c : Z) : bool := (c =? 45) || (c =? 46).
Fixpoint lstrip_edges (s : points) : points := match s with c :: s' => if edge c then lstrip_edges s' else s | [] => [] end.
(** [.strip("-.")] *)
Definition strip_edges (s : points) : points := reverse (lstrip_edges (reverse (lstrip_edges s))).

Definition probe_identity (role instance : points) : points :=
  let safe := strip_edges (dashed <$> (role ++ 45 :: instance)) in
  take 120 (match safe with [] => role | _ => safe end).

Record ShareProbeResult := mkShareProbeResult {
  spr_identity : points;
  spr_peers : gset points;
  spr_expired : gset points;
}.

Section probe.
Variable repr_float : Q → bytes.
(** [float(data.decode("utf-8").strip())]; [None] when any of it raises. *)
Variable read_float : bytes → option pyfloat.

(** [now - written > ttl_s] *)
Definition expired (now ttl_s : Q) (written : pyfloat) : bool :=
  match written with
  | Fin w => qlt ttl_s (fsub now w)
  | Inf negative => negative
  | NaN => false
  end.

Section store.
Context {St : Type} `{ShareProbeStore St}.

Definition after_slash (key : points) : points := default [] (last (split_on slash key)).

Definition probe_one (identity : points) (now ttl_s : Q) (acc : gset points * gset points * St) (key : points)
    : gset points * gset points * St :=
  let '(peers, gone, s) := acc in
  let name := after_slash key in
  if bool_decide (name = identity) then acc else
  match ps_get key s ≫= read_float with
  | None => acc
  | Some written =>
      if expired now ttl_s written then (peers, gone ∪ {[name]}, ps_delete key s) else (peers ∪ {[name]}, gone, s)
  end.

(** [None]: it raises. *)
Definition share_probe (identity : points) (now ttl_s : Q) (s : St) : option (ShareProbeResult * St) :=
  if file_name_safe identity then
    s ← ps_put (probe_key identity) (repr_float now) s;
    let '(peers, gone, s) := foldl (probe_one identity now ttl_s) (∅, ∅, s) (ps_list_prefix PROBE_PREFIX s) in
    Some (mkShareProbeResult identity peers gone, s)
  else None.

(** *** The monitor *)

Record ShareStatus := mkShareStatus {
  ss_ready : bool;
  ss_peers : gset points;
  ss_in_grace : bool;
  ss_checked_at : option Q;
  ss_changed : bool;
}.

Record ShareProbeMonitor := mkShareProbeMonitor {
  _identity : points;
  _peer_prefix : points;
  _started_at : Q;
  _grace_s : Q;
  _ttl_s : Q;
  _status : ShareStatus;
}.

Definition new_monitor (identity peer_role : points) (started_at grace_s ttl_s : Q) : ShareProbeMonitor :=
  mkShareProbeMonitor identity (peer_role ++ [45]) started_at grace_s ttl_s (mkShareStatus true ∅ true None false).

(** [check(now)], with the monitor and the store after it. *)
Definition check (mon : ShareProbeMonitor) (now : Q) (s : St) : option (ShareProbeMonitor * St) :=
  '(result, s) ← share_probe (_identity mon) now (_ttl_s mon) s;
  let peers := base.filter (λ p, _peer_prefix mon `prefix_of` p) (spr_peers result) in
  let in_grace := qlt (fsub now (_started_at mon)) (_grace_s mon) in
  let ready := negb (bool_decide (peers = ∅)) || in_grace in
  let status := mkShareStatus ready peers in_grace (Some now)
    (bool_decide (ss_checked_at (_status mon) = None) || negb (Bool.eqb ready (ss_ready (_status mon)))) in
  Some (mkShareProbeMonitor (_identity mon) (_peer_prefix mon) (_started_at mon) (_grace_s mon) (_ttl_s mon) status, s).

(** One turn of [_run_share_probe_loop]: a probe that raises is logged. *)
Definition probe_turn (mon : ShareProbeMonitor) (now : Q) (s : St) : ShareProbeMonitor * St :=
  match check mon now s with Some r => r | None => (mon, s) end.
End store.

(** What [log_share_status] writes. *)
Inductive ShareLog := log_not_shared | log_confirmed | log_nothing.
Definition log_share_status (status : ShareStatus) : ShareLog :=
  if negb (ss_ready status) then log_not_shared
  else if negb (bool_decide (ss_peers status = ∅)) && ss_changed status then log_confirmed
  else log_nothing.

(** [GET /readyz]: the status code and the checks; an exception of a dependency is [None]. *)
Definition readyz (redis : option bool) (orchestration_db : option unit) (share_monitor : option ShareProbeMonitor)
    : Z * list (string * bool) :=
  let checks := [("redis", default false redis); ("orchestration_db", bool_decide (orchestration_db ≠ None))] ++
                match share_monitor with Some mon => [("blobstore_shared", ss_ready (_status mon))] | None => [] end in
  (if forallb snd checks then 200 else 503, checks).
End probe.

(** ** Blobs are kept *)

Lemma mkdir_parents_lookup rel t t' p :
  mkdir_parents rel t = Some t' → t' !! p = if bool_decide (p ∈ parents rel) then Some Dir else t !! p.
Proof.
  unfold mkdir_parents. destruct (existsb _ _); [done|]. intros [= <-]. induction (parents rel) as [|q l IH]; [done|]. cbn [foldr].
  destruct (decide (p = q)) as [->|Hne].
  - rewrite lookup_insert_eq, bool_decide_true by by left. done.
  - rewrite lookup_insert_ne, IH by done. by rewrite (bool_decide_ext (p ∈ q :: l) (p ∈ l)) by (rewrite elem_of_cons; naive_solver).
Qed.

Lemma parents_not_file rel t t' p :
  mkdir_parents rel t = Some t' → p ∈ parents rel → ∀ d, t !! p ≠ Some (File d).
Proof.
  unfold mkdir_parents. destruct (existsb _ _) eqn:E; [done|]. intros _ Hp d Hd. apply not_true_iff_false in E. apply E.
  apply existsb_exists. exists p. split; [by apply list_elem_of_In|]. by rewrite Hd.
Qed.

Section kept.
Context (fits : list points → bool).

(** The file is written, and every other path holds the file it held. *)
Lemma write_file_lookup rel data t t' :
  write_file fits rel data t = Some t' →
  t' !! rel = Some (File data) ∧ ∀ p d, p ≠ rel → t' !! p = Some (File d) ↔ t !! p = Some (File d).
Proof.
  unfold write_file. destruct (negb _); [done|]. intros (t1 & Hm & E)%bind_Some. case_bool_decide as Hrel; [done|].
  assert (t' = <[rel := File data]> t1) as -> by (destruct (t1 !! rel) as [[]|]; by simplify_eq).
  split; [apply lookup_insert_eq|]. intros p d Hp. rewrite lookup_insert_ne by done. rewrite (mkdir_parents_lookup _ _ _ _ Hm).
  case_bool_decide as Hin; [|done]. pose proof (parents_not_file _ _ _ _ Hm Hin d). naive_solver.
Qed.

Lemma write_file_dirs rel data t t' p :
  write_file fits rel data t = Some t' → p ∈ parents rel → t' !! p = Some Dir.
Proof.
  unfold write_file. destruct (negb _); [done|]. intros (t1 & Hm & E)%bind_Some Hp. case_bool_decide as Hrel; [done|].
  assert (t' = <[rel := File data]> t1) as -> by (destruct (t1 !! rel) as [[]|]; by simplify_eq).
  assert (p ≠ rel).
  { intros ->. apply elem_of_parents in Hp as (_ & rest & E' & Hr). apply (f_equal length) in E'. rewrite length_app in E'.
    destruct rest; [done|]. cbn in E'. lia. }
  rewrite lookup_insert_ne by done. rewrite (mkdir_parents_lookup _ _ _ _ Hm). by rewrite bool_decide_true.
Qed.

(** the store keeps what it is given.  A blob that was written is read back as it is
    under every spelling of its key, every key that names another path reads as before,
    and the path has no component that could lead out of the store's directory. *)
Theorem blob_roundtrip key data t t' :
  put fits key data t = put_ok t' →
  (∀ key', _path_for key' = _path_for key → get_blob key' t' = blob data) ∧
  (∀ key', _path_for key' ≠ _path_for key → get_blob key' t' = get_blob key' t) ∧
  (∀ rel, _path_for key = Some rel → Forall (λ c, c ≠ [] ∧ c ≠ [dot] ∧ c ≠ [dot; dot] ∧ slash ∉ c) rel).
Proof.
  unfold put. destruct (_path_for key) as [rel|] eqn:Ek; [|done]. destruct (decide (rel = [])) as [->|Hne]; [done|].
  replace (match rel with [] => put_never_returns | _ => _ end)
    with (match write_file fits rel data t with Some t => put_ok t | None => put_os_error end) by by destruct rel.
  destruct (write_file fits rel data t) as [t1|] eqn:E; [|done]. intros [= <-].
  apply write_file_lookup in E as [Hw Ho]. split_and!.
  - intros key' Hk. unfold get_blob. rewrite Hk. by rewrite Hw.
  - intros key' Hk. unfold get_blob. destruct (_path_for key') as [p|]; [|done]. assert (p ≠ rel) as Hp by congruence.
    destruct (t1 !! p) as [[|d]|] eqn:E1; destruct (t !! p) as [[|d']|] eqn:E2; try done.
    + apply Ho in E2; [|done]. congruence.
    + pose proof (proj1 (Ho p d Hp) E1). congruence.
    + pose proof (proj1 (Ho p d Hp) E1). congruence.
    + pose proof (proj1 (Ho p d Hp) E1). congruence.
    + apply Ho in E2; [|done]. congruence.
  - intros ? [= <-]. unfold _path_for in Ek. destruct (_ || _) eqn:Eb; [done|]. injection Ek as <-.
    apply orb_false_iff in Eb as [_ Hdd%bool_decide_eq_false]. rewrite Forall_forall. intros x Hx.
    pose proof Hx as [[H1 H2] H3]%list_elem_of_filter. split_and!; [done|done|by intros ->|by eapply split_on_no_sep].
Qed.
End kept.

(** ** The local store keeps the interface's promises *)

Definition good_name (n : points) : Prop := (slash ∉ n) ∧ n ≠ [] ∧ n ≠ [dot] ∧ n ≠ [dot; dot].

Lemma safe_good n : file_name_safe n = true → good_name n.
Proof.
  unfold file_name_safe, good_name. rewrite andb_true_iff, negb_true_iff, bool_decide_eq_false. intros [Hn Hs].
  rewrite !not_elem_of_cons in Hn. destruct Hn as (? & ? & ? & _). split_and!; [|done..].
  intros Hc. rewrite forallb_forall in Hs. apply list_elem_of_In, Hs in Hc. by vm_compute in Hc.
Qed.

Lemma split_probe_key n : slash ∉ n → split_on slash (probe_key n) = [PROBE_PREFIX; n].
Proof.
  intros Hn. unfold probe_key. rewrite split_on_app, (split_on_single _ n) by done. by vm_compute (split_on slash PROBE_PREFIX).
Qed.

Lemma path_for_probe n : good_name n → _path_for (probe_key n) = Some [PROBE_PREFIX; n].
Proof.
  intros (Hn & H1 & H2 & H3). assert (path_parts (probe_key n) = [PROBE_PREFIX; n]) as E.
  { unfold path_parts. rewrite split_probe_key by done. rewrite filter_cons_True by done. by rewrite filter_cons_True. }
  unfold _path_for. rewrite E. rewrite (bool_decide_false ([dot; dot] ∈ _)); [done|].
  rewrite !elem_of_cons. by intros [?|[?|?%elem_of_nil]].
Qed.

(** The files below [_probe] are direct children of a directory, with usable names. *)
Definition probe_dir_ok (t : Tree) : Prop :=
  ∀ p d, t !! p = Some (File d) → [PROBE_PREFIX] `prefix_of` p → t !! [PROBE_PREFIX] = Some Dir ∧ ∃ n, p = [PROBE_PREFIX; n] ∧ good_name n.

Definition tree_probe_file (t : Tree) (n : points) : option bytes :=
  match t !! [PROBE_PREFIX; n] with Some (File d) => Some d | _ => None end.

Lemma probe_file_good t n : probe_dir_ok t → is_Some (tree_probe_file t n) → good_name n ∧ t !! [PROBE_PREFIX] = Some Dir.
Proof.
  intros Hok [d Hd]. unfold tree_probe_file in Hd. destruct (t !! [PROBE_PREFIX; n]) as [[|d']|] eqn:E; try done.
  destruct (Hok _ _ E) as (Hdir & n' & [= <-] & Hg); [by exists [n]|done].
Qed.

(** A name that is no file's: its path is the directory itself, refused, or empty. *)
Lemma bad_name_no_file t n : probe_dir_ok t → ¬ good_name n → tree_probe_file t n = None.
Proof. intros Hok Hn. destruct (tree_probe_file t n) eqn:E; [|done]. exfalso. apply Hn. by eapply probe_file_good. Qed.

Lemma not_file_here t d : probe_dir_ok t → t !! [PROBE_PREFIX] ≠ Some (File d).
Proof. intros Hok E. destruct (Hok _ _ E) as (E' & _); [by exists []|]. congruence. Qed.

Lemma path_for_bad n : slash ∉ n → ¬ good_name n → _path_for (probe_key n) = Some [PROBE_PREFIX] ∨ _path_for (probe_key n) = None.
Proof.
  intros Hn Hb. unfold _path_for, path_parts. rewrite split_probe_key by done. rewrite filter_cons_True by done.
  destruct (decide (n = [])) as [->|H1]; [by left; vm_compute|]. destruct (decide (n = [dot])) as [->|H2]; [by left; vm_compute|].
  destruct (decide (n = [dot; dot])) as [->|H3]; [by right; vm_compute|]. by destruct Hb.
Qed.

Lemma get_probe t n : probe_dir_ok t → slash ∉ n → (match get_blob (probe_key n) t with blob d => Some d | _ => None end) = tree_probe_file t n.
Proof.
  intros Hok Hn. unfold get_blob. destruct (decide (good_name n)) as [Hg|Hb].
  - rewrite path_for_probe by done. unfold tree_probe_file. by destruct (t !! _) as [[]|].
  - rewrite (bad_name_no_file t n) by done. destruct (path_for_bad n Hn Hb) as [-> | ->]; [|done].
    destruct (t !! [PROBE_PREFIX]) as [[|d]|] eqn:E; [done| |done]. by apply not_file_here in E.
Qed.

Section laws.
Context (fits unlinks : list points → bool).

Lemma put_probe t t' n data :
  probe_dir_ok t → file_name_safe n = true → put fits (probe_key n) data t = put_ok t' →
  probe_dir_ok t' ∧ ∀ n', tree_probe_file t' n' = if bool_decide (n' = n) then Some data else tree_probe_file t n'.
Proof.
  intros Hok Hs%safe_good. unfold put. rewrite path_for_probe by done.
  destruct (write_file fits [PROBE_PREFIX; n] data t) as [t1|] eqn:E; [|done]. intros [= <-].
  pose proof (write_file_lookup _ _ _ _ _ E) as [Hw Ho].
  assert (Hdir : t1 !! [PROBE_PREFIX] = Some Dir) by (eapply write_file_dirs; [exact E|]; by left). split.
  - intros p d Hp Hpre. split; [done|]. destruct (decide (p = [PROBE_PREFIX; n])) as [->|Hne]; [by exists n|].
    apply Ho in Hp; [|done]. by destruct (Hok _ _ Hp Hpre) as [_ ?].
  - intros n'. unfold tree_probe_file. case_bool_decide as Hn; [subst; by rewrite Hw|].
    assert ([PROBE_PREFIX; n'] ≠ [PROBE_PREFIX; n]) as Hne by congruence.
    destruct (t1 !! [PROBE_PREFIX; n']) as [[|d]|] eqn:E1; destruct (t !! [PROBE_PREFIX; n']) as [[|d']|] eqn:E2; try done.
    + apply (Ho _ d' Hne) in E2. congruence.
    + pose proof (proj1 (Ho _ d Hne) E1). congruence.
    + pose proof (proj1 (Ho _ d Hne) E1). congruence.
    + pose proof (proj1 (Ho _ d Hne) E1). congruence.
    + apply (Ho _ d' Hne) in E2. congruence.
Qed.

Lemma elem_of_files_below base t key :
  key ∈ files_below base t ↔ ∃ p d, t !! p = Some (File d) ∧ base `prefix_of` p ∧ key = join_on slash p.
Proof.
  unfold files_below. rewrite list_elem_of_omap. split.
  - intros ([p nd] & Hin%elem_of_map_to_list & E). cbn in E. destruct nd as [|d]; [done|]. case_bool_decide; [|done]. injection E as <-. by exists p, d.
  - intros (p & d & Hp & Hb & ->). exists (p, File d). split; [by apply elem_of_map_to_list|]. cbn. by rewrite bool_decide_true.
Qed.

Lemma join_probe n : join_on slash [PROBE_PREFIX; n] = probe_key n.
Proof. done. Qed.

Lemma elem_of_probe_list t key :
  probe_dir_ok t → key ∈ default [] (list_prefix PROBE_PREFIX t) ↔ ∃ n, key = probe_key n ∧ is_Some (tree_probe_file t n).
Proof.
  intros Hok. assert (_path_for PROBE_PREFIX = Some [PROBE_PREFIX]) as E by (vm_compute; reflexivity).
  unfold list_prefix. rewrite E. cbn [mbind option_bind default]. split.
  - intros Hk. assert (key ∈ files_below [PROBE_PREFIX] t) as (p & d & Hp & Hb & ->)%elem_of_files_below.
    { destruct (t !! [PROBE_PREFIX]) as [[|]|]; [|by apply elem_of_nil in Hk..]. by rewrite sort_by_perm in Hk. }
    destruct (Hok _ _ Hp Hb) as (_ & n & -> & _). exists n. split; [done|]. unfold tree_probe_file. by rewrite Hp.
  - intros (n & -> & Hn). destruct (probe_file_good _ _ Hok Hn) as [_ Hdir]. rewrite Hdir, sort_by_perm.
    apply elem_of_files_below. unfold tree_probe_file in Hn. destruct (t !! [PROBE_PREFIX; n]) as [[|d]|] eqn:En; [by destruct Hn..| |by destruct Hn].
    exists [PROBE_PREFIX; n], d. split; [done|]. split; [by exists [n]|done].
Qed.

Lemma delete_probe t n :
  probe_dir_ok t → slash ∉ n →
  probe_dir_ok (default t (delete_blob unlinks (probe_key n) t)) ∧
  ∀ n', tree_probe_file (default t (delete_blob unlinks (probe_key n) t)) n' = tree_probe_file t n' ∨
        n' = n ∧ tree_probe_file (default t (delete_blob unlinks (probe_key n) t)) n' = None.
Proof.
  intros Hok Hn. assert (Hsame : probe_dir_ok t ∧ ∀ n', tree_probe_file t n' = tree_probe_file t n' ∨ n' = n ∧ tree_probe_file t n' = None) by auto.
  unfold delete_blob. destruct (decide (good_name n)) as [Hg|Hb].
  - rewrite path_for_probe by done. cbn [mbind option_bind]. destruct (t !! [PROBE_PREFIX; n]) as [[|d]|] eqn:E; [done| |by destruct (_ || _)].
    destruct (unlinks _); [|done]. cbn [default]. unfold id. split.
    + intros p d' [Hne Hp]%lookup_delete_Some Hpre. destruct (Hok _ _ Hp Hpre) as [Hdir Hn']. split; [|done].
      rewrite lookup_delete_ne; [done|]. done.
    + intros n'. unfold tree_probe_file. destruct (decide (n' = n)) as [->|Hne]; [right; by rewrite lookup_delete_eq|left].
      rewrite lookup_delete_ne; [done|congruence].
  - destruct (path_for_bad n Hn Hb) as [-> | ->]; [|done]. cbn [mbind option_bind].
    destruct (t !! [PROBE_PREFIX]) as [[|d]|] eqn:E; [done| |by destruct (_ || _)]. by apply not_file_here in E.
Qed.

#[export] Instance local_probe_laws : @ShareProbeLaws Tree (local_probe_store fits unlinks).
Proof.
  refine (@Build_ShareProbeLaws Tree (local_probe_store fits unlinks) probe_dir_ok tree_probe_file _ _ _ _ _);
    cbn [ps_put ps_get ps_list_prefix ps_delete local_probe_store].
  - intros s s' n data Hok Hs E. destruct (put fits (probe_key n) data s) as [s1| | |] eqn:Ep; try done. injection E as <-.
    by eapply put_probe.
  - intros s key Hok (n & -> & Hn)%elem_of_probe_list; [|done]. exists n. split; [done|]. split; [|done].
    by destruct (probe_file_good _ _ Hok Hn) as [[? _] _].
  - intros s n Hok Hn. apply elem_of_probe_list; [done|]. by exists n.
  - intros s n Hok Hn. by apply get_probe.
  - intros s n Hok Hn. by apply delete_probe.
Defined.
End laws.

(** ** What the probe sees *)

Section seen.
Context (repr_float : Q → bytes) (read_float : bytes → option pyfloat).
Context {St : Type} `{ShareProbeLaws St}.

Local Abbreviation share_probe := (share_probe repr_float read_float).
Local Abbreviation check := (check repr_float read_float).

(** What the file of a name says at a time. *)
Definition says (s : St) (n : points) (written : pyfloat) : Prop := probe_file s n ≫= read_float = Some written.

Lemma after_slash_key n : slash ∉ n → after_slash (probe_key n) = n.
Proof. intros Hn. unfold after_slash. by rewrite split_probe_key. Qed.

(** The loop, over the keys it has been through. *)
Lemma probe_fold identity now ttl s1 keys :
  ps_ok s1 → (∀ k, k ∈ keys → ∃ n, k = probe_key n ∧ slash ∉ n) →
  let '(peers, gone, s) := foldl (probe_one read_float identity now ttl) (∅, ∅, s1) keys in
  ps_ok s ∧
  (∀ n, probe_file s n = probe_file s1 n ∨ n ∈ gone ∧ probe_file s n = None) ∧
  (∀ n, n ∈ gone ↔ (slash ∉ n) ∧ probe_key n ∈ keys ∧ n ≠ identity ∧ ∃ w, says s1 n w ∧ expired now ttl w = true) ∧
  (∀ n, n ∈ peers ↔ (slash ∉ n) ∧ probe_key n ∈ keys ∧ n ≠ identity ∧ ∃ w, says s1 n w ∧ expired now ttl w = false).
Proof.
  intros Hok. induction keys as [|k keys IH] using rev_ind; intros Hkeys.
  { cbn. split_and!; [done|by left|set_solver|set_solver]. }
  rewrite foldl_snoc. assert (Hk : ∀ k, k ∈ keys → ∃ n, k = probe_key n ∧ slash ∉ n) by (intros; apply Hkeys; set_solver).
  specialize (IH Hk). destruct (foldl _ _ keys) as [[peers gone] s]. destruct IH as (Hs & Hfile & Hgone & Hpeers).
  destruct (Hkeys k ltac:(set_solver)) as (n0 & -> & Hn0). 
  assert (Hinj : ∀ n, probe_key n = probe_key n0 ↔ n = n0).
  { intros n. split; [|by intros ->]. unfold probe_key. intros E. by apply app_inv_head in E as [= ->]. }
  assert (Hsnoc : ∀ n, probe_key n ∈ keys ++ [probe_key n0] ↔ probe_key n ∈ keys ∨ n = n0).
  { intros n. rewrite elem_of_app, list_elem_of_singleton, Hinj. done. }
  assert (Huniq : ∀ n w w', says s1 n w → says s1 n w' → w = w') by (unfold says; congruence).
  unfold probe_one at 1. rewrite after_slash_key by done. case_bool_decide as Hid.
  { subst n0. split_and!; [done|done|..]; intros n; rewrite Hsnoc; [rewrite Hgone|rewrite Hpeers]; naive_solver. }
  rewrite law_get by done. destruct (probe_file s n0 ≫= read_float) as [w|] eqn:Ew.
  - assert (Hw : says s1 n0 w).
    { unfold says. destruct (Hfile n0) as [<-|[_ E]]; [done|]. by rewrite E in Ew. }
    destruct (expired now ttl w) eqn:Ee.
    + destruct (law_delete s n0 Hs Hn0) as [Hs' Hdel]. split_and!; [done| | |].
      * intros n. rewrite elem_of_union, elem_of_singleton. destruct (Hdel n) as [->|[-> E]]; [|right; by split; [right|]].
        destruct (Hfile n) as [?|[? ?]]; [by left|right; by split; [left|]].
      * intros n. rewrite elem_of_union, elem_of_singleton, Hsnoc, Hgone. naive_solver.
      * intros n. rewrite Hsnoc, Hpeers. split; [naive_solver|]. intros (H1 & [H2| ->] & H3 & w' & Hw' & E); [by eauto 10|].
        rewrite (Huniq _ _ _ Hw Hw') in Ee. congruence.
    + split_and!; [done|done| |].
      * intros n. rewrite Hsnoc, Hgone. split; [naive_solver|]. intros (H1 & [H2| ->] & H3 & w' & Hw' & E); [by eauto 10|].
        rewrite (Huniq _ _ _ Hw Hw') in Ee. congruence.
      * intros n. rewrite elem_of_union, elem_of_singleton, Hsnoc, Hpeers. naive_solver.
  - assert (Hno : (∀ w, ¬ says s1 n0 w) ∨ n0 ∈ gone).
    { destruct (Hfile n0) as [E|[? _]]; [left|by right]. intros w Hw. unfold says in Hw. rewrite <-E in Hw. congruence. }
    split_and!; [done|done|..]; intros n; rewrite Hsnoc; [rewrite Hgone|rewrite Hpeers].
    + split; [naive_solver|]. intros (H1 & [H2| ->] & H3 & w' & Hw' & E); [by eauto 10|].
      destruct Hno as [Hno|Hin]; [by apply Hno in Hw'|]. apply Hgone in Hin as (_ & Hin & _). by eauto 10.
    + split; [naive_solver|]. intros (H1 & [H2| ->] & H3 & w' & Hw' & E); [by eauto 10|].
      destruct Hno as [Hno|Hin]; [by apply Hno in Hw'|]. apply Hgone in Hin as (_ & _ & _ & w & Hw & Ee).
      rewrite (Huniq _ _ _ Hw Hw') in Ee. congruence.
Qed.

(** The probe announces the process and sees exactly the other files that say a time
    within the bound; it changes no file but its own, and those it expires. *)
Lemma share_probe_spec identity now ttl s r s' :
  ps_ok s → share_probe identity now ttl s = Some (r, s') →
  ps_ok s' ∧ probe_file s' identity = Some (repr_float now) ∧
  (∀ n, n ∈ spr_peers r ↔ n ≠ identity ∧ ∃ w, says s n w ∧ expired now ttl w = false) ∧
  (∀ n, n ∈ spr_expired r ↔ n ≠ identity ∧ ∃ w, says s n w ∧ expired now ttl w = true) ∧
  (∀ n, n ≠ identity → probe_file s' n = probe_file s n ∨ n ∈ spr_expired r ∧ probe_file s' n = None).
Proof.
  intros Hok. unfold BlobStore.share_probe. destruct (file_name_safe identity) eqn:Hid; [|done].
  intros (s1 & Hput & E)%bind_Some. destruct (law_put _ _ _ _ Hok Hid Hput) as [Hok1 Hf1].
  pose proof (probe_fold identity now ttl s1 (ps_list_prefix PROBE_PREFIX s1) Hok1) as Hfold.
  destruct (foldl _ _ _) as [[peers gone] s2]. injection E as <- <-. cbn.
  destruct Hfold as (Hok2 & Hfile & Hgone & Hpeers).
  { intros k Hk. destruct (law_list _ _ Hok1 Hk) as (n & ? & ? & _). eauto. }
  assert (Hsays : ∀ n w, n ≠ identity → says s1 n w ↔ says s n w).
  { intros n w Hn. unfold says. by rewrite Hf1, bool_decide_false. }
  assert (Hlisted : ∀ n w, says s1 n w → (slash ∉ n) ∧ probe_key n ∈ ps_list_prefix PROBE_PREFIX s1).
  { intros n w (d & Hd & _)%bind_Some. pose proof (law_listed s1 n Hok1 ltac:(by eexists)) as Hl. split; [|done].
    destruct (law_list _ _ Hok1 Hl) as (n' & E & Hn' & _). unfold probe_key in E. by apply app_inv_head in E as [= ->]. }
  assert (∀ n b, (slash ∉ n) ∧ probe_key n ∈ ps_list_prefix PROBE_PREFIX s1 ∧ n ≠ identity ∧ (∃ w, says s1 n w ∧ expired now ttl w = b) ↔
                 n ≠ identity ∧ ∃ w, says s n w ∧ expired now ttl w = b) as Heq.
  { intros n b. split; [intros (_ & _ & Hn & w & Hw & E)|intros (Hn & w & Hw & E)]; [|apply Hsays in Hw; [|done]].
    - split; [done|]. exists w. by rewrite <-Hsays.
    - destruct (Hlisted n w Hw). eauto 10. }
  split_and!; [done| |intros n; by rewrite Hpeers, Heq|intros n; by rewrite Hgone, Heq|].
  - destruct (Hfile identity) as [->|[Hin _]]; [by rewrite Hf1, bool_decide_true|]. apply Hgone in Hin. naive_solver.
  - intros n Hn. destruct (Hfile n) as [->|?]; [left; by rewrite Hf1, bool_decide_false|by right].
Qed.

Lemma check_spec mon now s mon' s' :
  ps_ok s → check mon now s = Some (mon', s') →
  ps_ok s' ∧ probe_file s' (_identity mon) = Some (repr_float now) ∧
  (_identity mon', _peer_prefix mon', _started_at mon', _grace_s mon', _ttl_s mon') =
    (_identity mon, _peer_prefix mon, _started_at mon, _grace_s mon, _ttl_s mon) ∧
  ss_checked_at (_status mon') = Some now ∧
  ss_in_grace (_status mon') = qlt (fsub now (_started_at mon)) (_grace_s mon) ∧
  (ss_ready (_status mon') = true ↔
     ss_in_grace (_status mon') = true ∨
     ∃ n w, n ≠ _identity mon ∧ _peer_prefix mon `prefix_of` n ∧ says s n w ∧ expired now (_ttl_s mon) w = false) ∧
  (∀ n, n ≠ _identity mon → probe_file s' n = probe_file s n ∨
     ((∃ w, says s n w ∧ expired now (_ttl_s mon) w = true) ∧ probe_file s' n = None)).
Proof.
  intros Hok. unfold BlobStore.check. intros ([r s1] & Hp & [= <- <-])%bind_Some. cbn.
  destruct (share_probe_spec _ _ _ _ _ _ Hok Hp) as (H1 & H2 & H3 & H4 & H5). split_and!; try done.
  - rewrite orb_true_iff, negb_true_iff, bool_decide_eq_false. split.
    + intros [Hne|Hg]; [right|by left]. apply set_choose_L in Hne as [n Hn]. apply elem_of_filter in Hn as [Hpre Hn].
      apply H3 in Hn as (Hid & w & Hw & E). eauto 10.
    + intros [Hg|(n & w & Hid & Hpre & Hw & E)]; [by right|left]. intros Hemp.
      assert (n ∈ base.filter (λ p, _peer_prefix mon `prefix_of` p) (spr_peers r)) as Hin.
      { apply elem_of_filter. split; [done|]. apply H3. eauto. }
      rewrite Hemp in Hin. set_solver.
  - intros n Hn. destruct (H5 n Hn) as [?|[Hin ?]]; [by left|right]. apply H4 in Hin as (_ & ?). done.
Qed.
End seen.

(** ** Processes and stores *)

Section world.
Context (repr_float : Q → bytes) (read_float : bytes → option pyfloat).
(** [float(f"{t}")] is [t]. *)
Hypothesis read_repr : ∀ t, read_float (repr_float t) = Some (Fin t).
Context {St : Type} `{ShareProbeLaws St}.

Local Abbreviation check := (check repr_float read_float).
Local Abbreviation probe_turn := (probe_turn repr_float read_float).

(** Each process looks at one of the stores.  The log has what was announced where: it is
    no part of the program. *)
Record World := mkWorld {
  w_procs : list (nat * ShareProbeMonitor);
  w_stores : nat → St;
  w_log : list (nat * points * Q);
}.

Definition set_store (st : nat) (s : St) (stores : nat → St) : nat → St := λ k, if decide (k = st) then s else stores k.

Inductive world_step (w : World) : World → Prop :=
| step_probe i st mon now mon' s' :
    w_procs w !! i = Some (st, mon) → check mon now (w_stores w st) = Some (mon', s') →
    world_step w (mkWorld (<[i := (st, mon')]> (w_procs w)) (set_store st s' (w_stores w)) ((st, _identity mon, now) :: w_log w))
| step_probe_raises i st mon now :
    w_procs w !! i = Some (st, mon) → check mon now (w_stores w st) = None → world_step w w
(** Artifacts and findings. *)
| step_other st s' :
    ps_ok s' → (∀ n, probe_file s' n = probe_file (w_stores w st) n) →
    world_step w (mkWorld (w_procs w) (set_store st s' (w_stores w)) (w_log w)).

(** The stores have no probe files yet and no process has checked. *)
Definition fresh (w : World) : Prop :=
  (∀ st, ps_ok (w_stores w st) ∧ ∀ n, probe_file (w_stores w st) n = None) ∧ w_log w = [] ∧
  ∀ i st mon, w_procs w !! i = Some (st, mon) → ss_checked_at (_status mon) = None.

(** The status rests on an announcement in the same store. *)
Definition confirmed_by_log (log : list (nat * points * Q)) (st : nat) (mon : ShareProbeMonitor) (now : Q) : Prop :=
  ∃ n t, (st, n, t) ∈ log ∧ _peer_prefix mon `prefix_of` n ∧ (fsub now t <= _ttl_s mon)%Q.

Lemma not_expired now ttl t : expired now ttl (Fin t) = false → (fsub now t <= ttl)%Q.
Proof. cbn. rewrite qlt_false. done. Qed.

Record world_inv (w : World) : Prop := {
  inv_ok st : ps_ok (w_stores w st);
  inv_files st n d : probe_file (w_stores w st) n = Some d → ∃ t, d = repr_float t ∧ (st, n, t) ∈ w_log w;
  inv_log st n t : (st, n, t) ∈ w_log w → ∃ j mon, w_procs w !! j = Some (st, mon) ∧ _identity mon = n;
  inv_status i st mon now :
    w_procs w !! i = Some (st, mon) → ss_ready (_status mon) = true → ss_checked_at (_status mon) = Some now →
    (_grace_s mon <= fsub now (_started_at mon))%Q → confirmed_by_log (w_log w) st mon now;
}.

Lemma fresh_inv w : fresh w → world_inv w.
Proof.
  intros (Hs & Hlog & Hg). split.
  - intros st. apply Hs.
  - intros st n d Hd. by rewrite (proj2 (Hs st)) in Hd.
  - intros st n t Hin. rewrite Hlog in Hin. by apply elem_of_nil in Hin.
  - intros i st mon now Hm _ Hng. by rewrite (Hg _ _ _ Hm) in Hng.
Qed.

Lemma world_step_inv w w' : world_inv w → world_step w w' → world_inv w'.
Proof.
  intros [Hok Hfiles Hlog Hst] Hstep. destruct Hstep as [i st mon now mon' s' Hp Hc|i st mon now Hp Hc|st s' Hs' Hsame]; [|by split|].
  - destruct (check_spec _ _ _ _ _ _ _ (Hok st) Hc) as (Hs' & Hself & Hfix & Hat & Hgrace & Hready & Hothers). simplify_eq.
    split; cbn.
    + intros k. unfold set_store. by destruct (decide (k = st)).
    + intros k n d. unfold set_store. destruct (decide (k = st)) as [->|Hk].
      * destruct (decide (n = _identity mon)) as [->|Hn].
        -- rewrite Hself. intros [= <-]. exists now. split; [done|by left].
        -- destruct (Hothers n Hn) as [->|[_ E]]; [|by rewrite E]. intros (t & -> & Hin)%Hfiles. exists t. split; [done|by right].
      * intros (t & -> & Hin)%Hfiles. exists t. split; [done|by right].
    + assert (∀ j k m, w_procs w !! j = Some (k, m) → ∃ j' m', <[i := (st, mon')]> (w_procs w) !! j' = Some (k, m') ∧ _identity m' = _identity m) as Hkeep.
      { intros j k m Hj. destruct (decide (j = i)) as [->|Hne].
        - exists i, mon'. rewrite list_lookup_insert_eq by (by eapply lookup_lt_Some). by simplify_eq.
        - exists j, m. by rewrite list_lookup_insert_ne. }
      intros k n t [[= -> -> ->]|Hin]%elem_of_cons; [by eapply Hkeep|].
      destruct (Hlog _ _ _ Hin) as (j & m & Hj & <-). by eapply Hkeep.
    + intros j k m u Hj Hr Hu Hng. destruct (decide (j = i)) as [->|Hne].
      * rewrite list_lookup_insert_eq in Hj by (by eapply lookup_lt_Some). simplify_eq.
        apply Hready in Hr as [Hg|(n & w0 & Hn & Hpre & Hw & He)].
        { rewrite Hgrace in Hg. apply qlt_iff, Qlt_not_le in Hg. destruct Hg.
          match goal with E1 : _started_at _ = _, E2 : _grace_s _ = _ |- _ => rewrite <-E1, <-E2 end. congruence. }
        apply bind_Some in Hw as (d & Hd & Hr'). destruct (Hfiles _ _ _ Hd) as (t & -> & Hin).
        rewrite read_repr in Hr'. injection Hr' as <-. exists n, t. split; [by right|]. split; [congruence|].
        apply not_expired. congruence.
      * rewrite list_lookup_insert_ne in Hj by done. destruct (Hst _ _ _ _ Hj Hr Hu Hng) as (n & t & ? & ? & ?).
        exists n, t. split_and!; [by right|done|done].
  - split; cbn; [|..|by eauto].
    + intros k. unfold set_store. by destruct (decide (k = st)).
    + intros k n d. unfold set_store. destruct (decide (k = st)) as [->|]; [rewrite Hsame|]; apply Hfiles.
    + done.
Qed.

(** C40: No false confirmation.  Whatever processes probe whatever stores, in any order and
    on whatever clocks, starting without probe files and before any check: take a process
    whose status is ready and whose last check that did not raise was made at [now], at
    least the grace period after its start (float subtraction).  Then it shares its store
    with a process of the role it waits for, which announced itself in that store at a time
    [t] with [now - t] (float subtraction) no more than the time to live.  A process is
    ready before its first check and during its grace period whatever is in the store, and
    a check that raises leaves the status as it was, so a process whose checks all raise
    since then stays ready. *)
Theorem confirmed_means_shared w0 w i st mon now :
  fresh w0 → rtc world_step w0 w → w_procs w !! i = Some (st, mon) →
  ss_ready (_status mon) = true → ss_checked_at (_status mon) = Some now →
  (_grace_s mon <= fsub now (_started_at mon))%Q →
  ∃ j mon' t, w_procs w !! j = Some (st, mon') ∧ _peer_prefix mon `prefix_of` _identity mon' ∧
    (st, _identity mon', t) ∈ w_log w ∧ (fsub now t <= _ttl_s mon)%Q.
Proof.
  intros Hf Hr. assert (Hinv : world_inv w).
  { apply fresh_inv in Hf. clear -Hf Hr read_repr. induction Hr as [|w0 w1 w Hs _ IH]; [done|]. by apply IH, (world_step_inv w0). }
  intros Hp Hready Hat Hng. destruct (inv_status _ Hinv _ _ _ _ Hp Hready Hat Hng) as (n & t & Hin & Hpre & He).
  destruct (inv_log _ Hinv _ _ _ Hin) as (j & mon' & Hj & <-). by exists j, mon', t.
Qed.

(** A file that no clock in use would expire survives the turns of others. *)
Lemma file_survives n t turns s :
  ps_ok s → probe_file s n = Some (repr_float t) →
  Forall (λ x : ShareProbeMonitor * Q, _identity x.1 ≠ n ∧ expired x.2 (_ttl_s x.1) (Fin t) = false) turns →
  let s' := foldl (λ s x, (probe_turn x.1 x.2 s).2) s turns in ps_ok s' ∧ probe_file s' n = Some (repr_float t).
Proof.
  intros Hok Hf Hall. revert s Hok Hf. induction Hall as [|[m u] turns [Hid He] _ IH]; intros s Hok Hf; [done|]. cbn [foldl].
  apply IH; unfold BlobStore.probe_turn; cbn [fst snd] in *; destruct (check m u s) as [[m' s']|] eqn:E; cbn; try done;
    destruct (check_spec _ _ _ _ _ _ _ Hok E) as (Hs' & _ & _ & _ & _ & _ & Ho); [done|].
  destruct (Ho n ltac:(congruence)) as [->|[(w & Hw & Ew) _]]; [done|].
  unfold says in Hw. rewrite Hf in Hw. cbn in Hw. rewrite read_repr in Hw. injection Hw as <-. congruence.
Qed.

(** no false alarm.  Once a peer has announced itself at a time [t], then after any
    turns of other processes on the same store none of whose clocks is more than the time
    to live ahead of [t], a process that waits for that peer's role and whose own clock is
    not either finds it: its check, if it does not raise, reports ready. *)
Theorem live_peer_is_seen s n t turns mon now mon' s' :
  ps_ok s → probe_file s n = Some (repr_float t) →
  Forall (λ x : ShareProbeMonitor * Q, _identity x.1 ≠ n ∧ expired x.2 (_ttl_s x.1) (Fin t) = false) turns →
  _peer_prefix mon `prefix_of` n → n ≠ _identity mon → expired now (_ttl_s mon) (Fin t) = false →
  check mon now (foldl (λ s x, (probe_turn x.1 x.2 s).2) s turns) = Some (mon', s') →
  ss_ready (_status mon') = true.
Proof.
  intros Hok Hf Hall Hpre Hn He Hc. destruct (file_survives n t turns s Hok Hf Hall) as [Hok' Hf'].
  destruct (check_spec _ _ _ _ _ _ _ Hok' Hc) as (_ & _ & _ & _ & _ & Hr & _). apply Hr. right. exists n, (Fin t).
  split_and!; [done|done| |done]. unfold says. rewrite Hf'. cbn. by rewrite read_repr.
Qed.
End world.

(** ** Names *)

Definition rstrip_edges (s : points) : points := reverse (lstrip_edges (reverse s)).

Lemma lstrip_app a b : lstrip_edges (a ++ b) = if forallb edge a then lstrip_edges b else lstrip_edges a ++ b.
Proof. induction a as [|c a IH]; [done|]. cbn. destruct (edge c); [apply IH|done]. Qed.

Lemma forallb_reverse {A} (f : A → bool) l : forallb f (reverse l) = forallb f l.
Proof. induction l as [|x l IH]; [done|]. rewrite reverse_cons, forallb_app, IH. cbn. by rewrite andb_true_r, andb_comm. Qed.

Lemma rstrip_app a b : rstrip_edges (a ++ b) = if forallb edge b then rstrip_edges a else a ++ rstrip_edges b.
Proof.
  unfold rstrip_edges. rewrite reverse_app, lstrip_app, forallb_reverse. destruct (forallb edge b); [done|].
  by rewrite reverse_app, reverse_involutive.
Qed.

Lemma rstrip_sub s c : c ∈ rstrip_edges s → c ∈ s.
Proof.
  unfold rstrip_edges. rewrite elem_of_reverse, <-(elem_of_reverse c s). induction (reverse s) as [|x l IH]; [done|]. cbn.
  destruct (edge x); [intros ?%IH; by right|done].
Qed.

(** A role as the two processes use it. *)
Definition role_ok (role : points) : Prop :=
  forallb safe_char role = true ∧ (length role < 120)%nat ∧
  (∃ c rest, role = c :: rest ∧ edge c = false) ∧ (∃ rest c, role = rest ++ [c] ∧ edge c = false).

Lemma roles_ok : role_ok MONOLITH_PROBE_ROLE ∧ role_ok ENGINE_RUNNER_PROBE_ROLE.
Proof.
  split; (split; [reflexivity|]; split; [vm_compute; lia|]; split; [eexists _, _; split; reflexivity|]).
  - by exists (str_bytes "monolit"), 104.
  - by exists (str_bytes "engine-runne"), 114.
Qed.

Lemma identity_form role instance :
  role_ok role →
  probe_identity role instance =
  take 120 (if forallb edge (dashed <$> instance) then role else role ++ 45 :: rstrip_edges (dashed <$> instance)).
Proof.
  intros (Hsafe & _ & (c & rest & Hhead & Hc) & (rest' & d & Hlast & Hd)).
  assert (Hdash : dashed <$> role = role).
  { rewrite <-(list_fmap_id role) at 2. apply list_fmap_ext. intros i x Hx%list_elem_of_lookup_2. unfold dashed.
    rewrite forallb_forall in Hsafe. rewrite (Hsafe x); [done|by apply list_elem_of_In]. }
  assert (Hr : rstrip_edges role = role).
  { rewrite Hlast, rstrip_app. cbn [forallb]. rewrite Hd. cbn [andb]. unfold rstrip_edges. rewrite reverse_singleton.
    cbn [lstrip_edges]. rewrite Hd. by rewrite reverse_singleton. }
  unfold probe_identity, strip_edges. rewrite fmap_app, Hdash. change (dashed <$> 45 :: instance) with (dashed 45 :: (dashed <$> instance)).
  change (dashed 45) with 45. assert (lstrip_edges (role ++ 45 :: (dashed <$> instance)) = role ++ 45 :: (dashed <$> instance)) as ->
    by (rewrite Hhead; cbn [app lstrip_edges]; by rewrite Hc). fold (rstrip_edges (role ++ 45 :: (dashed <$> instance))). rewrite rstrip_app. cbn [forallb].
  change (edge 45) with true. cbn [andb]. destruct (forallb edge (dashed <$> instance)) eqn:E.
  - rewrite Hr. by destruct role.
  - change (45 :: (dashed <$> instance)) with ([45] ++ (dashed <$> instance)). rewrite rstrip_app, E. cbn [app].
    rewrite Hhead. done.
Qed.

(** a process's name is accepted by the probe, and it carries the role the other
    side looks for exactly when its instance name keeps some character that is neither
    replaced nor trimmed. *)
Theorem identity_carries_role role instance :
  role_ok role →
  file_name_safe (probe_identity role instance) = true ∧
  ((role ++ [45]) `prefix_of` probe_identity role instance ↔ ∃ c, c ∈ instance ∧ safe_char c = true ∧ edge c = false).
Proof.
  intros Hrole. rewrite identity_form by done. pose proof Hrole as (Hsafe & Hlen & (c & rest & Hhead & Hc) & _).
  assert (Hd : ∀ x, safe_char (dashed x) = true) by (intros x; unfold dashed; destruct (safe_char x) eqn:E; [done|reflexivity]).
  assert (Hk : forallb edge (dashed <$> instance) = false ↔ ∃ c, c ∈ instance ∧ safe_char c = true ∧ edge c = false).
  { rewrite <-not_true_iff_false, forallb_forall. split.
    - intros Hn. destruct (decide (Exists (λ c, safe_char c = true ∧ edge c = false) instance)) as [He|He];
        [by apply Exists_exists in He|].
      exfalso. apply Hn. intros x Hx%list_elem_of_In. apply list_elem_of_fmap in Hx as (y & -> & Hy). unfold dashed.
      destruct (safe_char y) eqn:Ey; [|done]. destruct (edge y) eqn:Ee; [done|]. destruct He. apply Exists_exists. by exists y.
    - intros (x & Hx & Hs & He) Hall. specialize (Hall (dashed x)). unfold dashed in Hall. rewrite Hs in Hall.
      rewrite Hall in He; [done|]. apply list_elem_of_In, list_elem_of_fmap. exists x. split; [|done]. unfold dashed. by rewrite Hs. }
  split.
  - unfold file_name_safe. apply andb_true_iff. split.
    + apply negb_true_iff, bool_decide_eq_false. destruct (forallb edge _); rewrite Hhead; cbn [take app].
      all: rewrite !elem_of_cons; intros [?|[[= ->]|[[= ->]|?%elem_of_nil]]]; try done.
      all: by rewrite Hc in *.
    + apply forallb_forall. intros x Hx%list_elem_of_In. apply (subseteq_take 120) in Hx.
      rewrite forallb_forall in Hsafe. destruct (forallb edge _); [by apply Hsafe, list_elem_of_In|].
      apply elem_of_app in Hx as [Hx|[->|Hx]%elem_of_cons]; [by apply Hsafe, list_elem_of_In|reflexivity|].
      apply rstrip_sub, list_elem_of_fmap in Hx as (y & -> & _). apply Hd.
  - rewrite <-Hk. destruct (forallb edge _).
    + split; [|done]. rewrite take_ge by lia. intros [k E]. apply (f_equal length) in E. rewrite !length_app in E. cbn in E. lia.
    + split; [done|]. intros _. rewrite take_app, (take_ge role) by lia.
      replace (120 - length role)%nat with (S (119 - length role)) by lia. cbn [take].
      exists (take (119 - length role) (rstrip_edges (dashed <$> instance))). by rewrite <-app_assoc.
Qed.

(** ** Examples *)

Module ProbeSamples.

Definition repr_q (t : Q) : bytes := [Qnum t; Zpos (Qden t)].
Definition read_q (b : bytes) : option pyfloat :=
  match b with [n; d] => Some (Fin (n # Z.to_pos d)) | [n] => Some NaN | _ => None end.

Lemma read_repr_q t : read_q (repr_q t) = Some (Fin t).
Proof. by destruct t. Qed.

Definition any_path (p : list points) : bool := true.
Definition no_path (p : list points) : bool := false.
#[local] Instance store : ShareProbeStore Tree := local_probe_store any_path any_path.
#[local] Instance store_laws : ShareProbeLaws Tree := local_probe_laws any_path any_path.

Definition web : ShareProbeMonitor :=
  new_monitor (probe_identity MONOLITH_PROBE_ROLE (str_bytes "web-1")) ENGINE_RUNNER_PROBE_ROLE 0 SHARE_PROBE_GRACE_S SHARE_PROBE_TTL_S.
Definition runner : ShareProbeMonitor :=
  new_monitor (probe_identity ENGINE_RUNNER_PROBE_ROLE (str_bytes "pod_7")) MONOLITH_PROBE_ROLE 0 SHARE_PROBE_GRACE_S SHARE_PROBE_TTL_S.

Definition turn (m : ShareProbeMonitor) (now : Q) (s : Tree) : ShareProbeMonitor * Tree := probe_turn repr_q read_q m now s.
Definition ready_of (r : ShareProbeMonitor * Tree) : bool := ss_ready (_status r.1).

Lemma turn_check m now s : from_option (λ _, true) false (check repr_q read_q m now s) = true → check repr_q read_q m now s = Some ((turn m now s).1, (turn m now s).2).
Proof. unfold turn, probe_turn. by destruct (check _ _ m now s) as [[m' s']|]. Qed.

(** Alone, a process is ready while its grace lasts and not after; with the other side in
    the same store it is; a file that has outlived its time does not count. *)
Example lifetimes :
  (ready_of (turn web 30 ∅), ready_of (turn web 60 ∅),
   ready_of (turn web 100 (turn runner 90 ∅).2), ready_of (turn web 500 (turn runner 90 ∅).2)) = (true, false, true, false).
Proof. vm_compute. reflexivity. Qed.

(** A probe that cannot write raises, and the loop leaves the status as it was: ready. *)
Example failing_probe_keeps_ready :
  let confirmed := (turn web 100 (turn runner 90 ∅).2).1 in
  let later := (@probe_turn repr_q read_q Tree (local_probe_store no_path any_path) confirmed 100000 ∅).1 in
  (ss_ready (_status later), (readyz (Some true) (Some ()) (Some later)).1) = (true, 200).
Proof. vm_compute. reflexivity. Qed.

(** A file that says [nan] is never expired. *)
Example nan_is_a_peer_for_ever :
  ready_of (turn web 100000 (default ∅ (ps_put (probe_key (str_bytes "engine-runner-x")) [0] ∅))) = true.
Proof. vm_compute. reflexivity. Qed.

(** The empty key names the store's own directory. *)
Example empty_key_never_returns : put any_path [] [1] ∅ = put_never_returns ∧ put any_path (str_bytes "./") [1] ∅ = put_never_returns.
Proof. split; vm_compute; reflexivity. Qed.

Definition key0 : points := str_bytes "findings/s//e.json".
Definition stored : Tree := match put any_path key0 [1; 2] ∅ with put_ok t => t | _ => ∅ end.

Lemma blob_roundtrip_witness : get_blob (str_bytes "findings/s/./e.json") stored = blob [1; 2].
Proof. apply (blob_roundtrip any_path key0 [1; 2] ∅ stored); vm_compute; reflexivity. Defined.

Definition after_runner : ShareProbeMonitor * Tree := turn runner 90 ∅.
Definition after_web : ShareProbeMonitor * Tree := turn web 100 after_runner.2.

Definition world0 : World (St := Tree) := mkWorld [(0%nat, web); (0%nat, runner)] (λ _, ∅) [].
Definition world1 : World := mkWorld [(0%nat, web); (0%nat, after_runner.1)] (set_store 0 after_runner.2 (λ _, ∅)) [(0%nat, _identity runner, 90%Q)].
Definition world2 : World :=
  mkWorld [(0%nat, after_web.1); (0%nat, after_runner.1)] (set_store 0 after_web.2 (w_stores world1))
    [(0%nat, _identity web, 100%Q); (0%nat, _identity runner, 90%Q)].

Lemma empty_ok : ps_ok (∅ : Tree).
Proof. intros p d E _. by rewrite lookup_empty in E. Qed.

Lemma world0_fresh : fresh world0.
Proof.
  split; [|split; [done|]].
  - intros st. split; [exact empty_ok|done].
  - intros i st mon E. destruct i as [|[|i]]; cbn in E; by simplify_eq.
Qed.

Lemma confirmed_means_shared_witness :
  ∃ j mon', w_procs world2 !! j = Some (0%nat, mon') ∧ _peer_prefix after_web.1 `prefix_of` _identity mon'.
Proof.
  destruct (confirmed_means_shared repr_q read_q read_repr_q world0 world2 0 0 after_web.1 100 world0_fresh) as (j & mon' & _ & H1 & H2 & _).
  - eapply rtc_l; [|eapply rtc_l; [|apply rtc_refl]].
    + apply (step_probe repr_q read_q world0 1 0 runner 90 after_runner.1 after_runner.2); [done|apply turn_check; vm_compute; reflexivity].
    + apply (step_probe repr_q read_q world1 0 0 web 100 after_web.1 after_web.2); [done|apply turn_check; vm_compute; reflexivity].
  - done.
  - vm_compute. reflexivity.
  - vm_compute. reflexivity.
  - apply Qle_bool_iff. vm_compute. reflexivity.
  - by exists j, mon'.
Defined.

Lemma live_peer_is_seen_witness : ss_ready (_status after_web.1) = true.
Proof.
  apply (live_peer_is_seen repr_q read_q read_repr_q after_runner.2 (_identity runner) 90 [] web 100 after_web.1 after_web.2).
  - refine (proj1 (check_spec repr_q read_q runner 90 ∅ after_runner.1 after_runner.2 empty_ok _)). apply turn_check. vm_compute. reflexivity.
  - vm_compute. reflexivity.
  - constructor.
  - apply (bool_decide_unpack _). vm_compute. exact I.
  - done.
  - vm_compute. reflexivity.
  - apply turn_check. vm_compute. reflexivity.
Defined.

Lemma identity_carries_role_witness : file_name_safe (probe_identity MONOLITH_PROBE_ROLE (str_bytes "../x")) = true.
Proof. apply (identity_carries_role MONOLITH_PROBE_ROLE (str_bytes "../x")). apply roles_ok. Defined.
End ProbeSamples.
