(* ===== verification/Json.v ===== *)
(** * JSON values and audit intents

    The payloads that the services write are Python dicts of JSON values.  Every
    module records what it did as a row of the [audit_intent] table, in the
    transaction of the change itself; the audit service later chains the rows. *)

From S2P Require Import Prelude.
From Stdlib Require Import QArith.
Open Scope string_scope.

Inductive json :=
| JNull
| JBool (b : bool)
| JNum (n : Z)
| JFloat (q : Q)
| JStr (s : string)
| JList (l : list json)
| JObj (fields : list (string * json)).

Definition JOpt (o : option string) : json :=
  match o with Some s => JStr s | None => JNull end.

(** [AuditIntentInsertOnly]: one row of [audit_intent]. *)
Record AuditIntent := mkAuditIntent {
  ai_operator : string;
  ai_action : string;
  ai_payload : json;
}.

#[export] Instance json_eq_dec : EqDecision json.
Proof.
  unfold EqDecision, Decision. fix F 1. decide equality.
  - apply bool_eq_dec.
  - apply Z.eq_dec.
  - decide equality; [apply Pos.eq_dec|apply Z.eq_dec].
  - apply String.eq_dec.
  - apply List.list_eq_dec, F.
  - apply List.list_eq_dec. decide equality. apply String.eq_dec.
Defined.

(** [payload[key]] on a dict. *)
Definition json_get (key : string) (j : json) : option json :=
  match j with JObj fields => snd <$> find (λ kv, String.eqb kv.1 key) fields | _ => None end.
