(* ===== verification/JsonText.v ===== *)
(** * JSON text

    What [json.dumps(value, sort_keys=True, separators=(",", ":"))] writes: the text
    that the audit chain hashes.  Strings are escaped to ASCII by code point, as
    Python does by default; integers are printed in decimal; [float.__repr__] is a
    parameter with the laws of [float_repr_laws].  The theorems of this file are
    helpers: the text determines the value up to key order. *)

From S2P Require Import Prelude Json Canonical.
From Stdlib Require Import QArith Ascii DecimalString DecimalZ ZArith Lia.
Open Scope string_scope.
Open Scope list_scope.
Open Scope Z_scope.

(** ** Strings *)

Definition cont (b : Z) : bool := (128 <=? b) && (b <? 192).

(** The code points of a string held as UTF-8.  A byte that is no part of a valid
    sequence stands for the lone surrogate that Python's [surrogateescape] gives it. *)
Fixpoint decode_utf8 (bs : list Z) : list Z :=
  match bs with
  | [] => []
  | b0 :: r0 =>
      let lone := 56320 + b0 in
      if b0 <? 128 then b0 :: decode_utf8 r0
      else match r0 with
      | [] => [lone]
      | b1 :: r1 =>
          if (194 <=? b0) && (b0 <? 224) && cont b1
          then (b0 - 192) * 64 + (b1 - 128) :: decode_utf8 r1
          else match r1 with
          | [] => lone :: decode_utf8 r0
          | b2 :: r2 =>
              let c := (b0 - 224) * 4096 + (b1 - 128) * 64 + (b2 - 128) in
              if (224 <=? b0) && (b0 <? 240) && cont b1 && cont b2 && (2048 <=? c) && scalar c
              then c :: decode_utf8 r2
              else match r2 with
              | [] => lone :: decode_utf8 r0
              | b3 :: r3 =>
                  let c := (b0 - 240) * 262144 + (b1 - 128) * 4096 + (b2 - 128) * 64 + (b3 - 128) in
                  if (240 <=? b0) && (b0 <? 245) && cont b1 && cont b2 && cont b3 && (65536 <=? c)
                     && scalar c
                  then c :: decode_utf8 r3
                  else lone :: decode_utf8 r0
              end
          end
      end
  end.

Definition code_points (s : string) : list Z := decode_utf8 (str_bytes s).

Definition quote : string := String (ascii_of_nat 34) "".
Definition escaped (c : ascii) : string := String "\" (String c "").

Definition hex_digits : list ascii := String.list_ascii_of_string "0123456789abcdef".
Definition hexd (i : Z) : ascii := nth (Z.to_nat i) hex_digits "0"%char.

(** [format(n, "04x")] for a 16-bit number. *)
Definition hex4 (n : Z) : string :=
  String (hexd (n / 4096)) (String (hexd ((n / 256) mod 16))
    (String (hexd ((n / 16) mod 16)) (String (hexd (n mod 16)) ""))).

(** [py_encode_basestring_ascii], one character. *)
Definition escape_point (c : Z) : string :=
  if c =? 34 then escaped (ascii_of_nat 34)
  else if c =? 92 then escaped "\"
  else if c =? 8 then escaped "b"
  else if c =? 12 then escaped "f"
  else if c =? 10 then escaped "n"
  else if c =? 13 then escaped "r"
  else if c =? 9 then escaped "t"
  else if (32 <=? c) && (c <=? 126) then String (ascii_of_N (Z.to_N c)) ""
  else if c <? 65536 then "\u" +:+ hex4 c
  else let n := c - 65536 in
       "\u" +:+ hex4 (55296 + n / 1024) +:+ "\u" +:+ hex4 (56320 + n mod 1024).

Fixpoint escape_points (l : list Z) : string :=
  match l with [] => "" | c :: l' => escape_point c +:+ escape_points l' end.

Definition dumps_str (s : string) : string := quote +:+ escape_points (code_points s) +:+ quote.

(** ** Numbers *)

(** [int.__repr__]. *)
Definition decimal (z : Z) : string := NilZero.string_of_int (Z.to_int z).

Definition number_char (c : ascii) : bool :=
  bool_decide (c ∈ String.list_ascii_of_string "0123456789+-.e").

Section dumps.
Variable repr_float : Q → string.

(** ** [canonical_json] *)

Fixpoint canonical_json (j : json) : string :=
  match j with
  | JNull => "null"
  | JBool b => if b then "true" else "false"
  | JNum n => decimal n
  | JFloat q => repr_float q
  | JStr s => dumps_str s
  | JList l => "[" +:+ join "," (map canonical_json l) +:+ "]"
  | JObj fields =>
      "{" +:+ join ","
        (map snd (sort_by (le_key str_le fst)
           (map (λ kv, match kv with (k, v) => (k, dumps_str k +:+ ":" +:+ canonical_json v) end) fields)))
      +:+ "}"
  end.

(** The value with its keys in order, and the text of a value as it stands. *)
Fixpoint sort_keys (j : json) : json :=
  match j with
  | JList l => JList (map sort_keys l)
  | JObj fields =>
      JObj (sort_by (le_key str_le fst) (map (λ kv, match kv with (k, v) => (k, sort_keys v) end) fields))
  | _ => j
  end.

Fixpoint text (j : json) : string :=
  match j with
  | JNull => "null"
  | JBool b => if b then "true" else "false"
  | JNum n => decimal n
  | JFloat q => repr_float q
  | JStr s => dumps_str s
  | JList l => "[" +:+ join "," (map text l) +:+ "]"
  | JObj fields =>
      "{" +:+ join "," (map (λ kv, match kv with (k, v) => dumps_str k +:+ ":" +:+ text v end) fields) +:+ "}"
  end.

(** Equal floats are one JSON value. *)
Fixpoint reduce (j : json) : json :=
  match j with
  | JFloat q => JFloat (Qred q)
  | JList l => JList (map reduce l)
  | JObj fields => JObj (map (λ kv, match kv with (k, v) => (k, reduce v) end) fields)
  | _ => j
  end.

(** The value as far as its canonical text shows it: keys in order, floats reduced. *)
Definition normal_form (j : json) : json := reduce (sort_keys j).

(** What [float.__repr__] of a finite float is known to be: a number's characters, a
    digit or a sign first, never an integer's text, and it determines the value. *)
Record float_repr_laws : Prop := {
  fr_chars : ∀ q, forallb number_char (String.list_ascii_of_string (repr_float q)) = true;
  fr_nonempty : ∀ q, repr_float q ≠ "";
  fr_not_int : ∀ q z, repr_float q ≠ decimal z;
  fr_value : ∀ p q, repr_float p = repr_float q → (p == q)%Q;
}.
End dumps.

(** ** Reading strings back *)

Lemma decode_encode_bytes s : Forall (λ b, 0 ≤ b < 256) (str_bytes s).
Proof.
  unfold str_bytes. apply Forall_forall. intros b (a & <- & _)%list_elem_of_In%in_map_iff.
  destruct a as [[] [] [] [] [] [] [] []]; vm_compute; split; congruence.
Qed.

Definition encode_point (c : Z) : list Z :=
  if (56448 <=? c) && (c <? 56576) then [c - 56320] else utf8_char c.

(** What [decode_utf8] yields: scalar values and the lone surrogates of stray bytes. *)
Definition is_point (c : Z) : bool := scalar c || ((56448 <=? c) && (c <? 56576)).

Lemma cont_iff b : cont b = true ↔ 128 ≤ b < 192.
Proof. unfold cont. rewrite andb_true_iff, Z.leb_le, Z.ltb_lt. done. Qed.

(** Comparisons of integers in the context, as propositions. *)
Ltac z_prop :=
  repeat match goal with
  | H : cont _ = true |- _ => apply cont_iff in H
  | H : _ && _ = true |- _ => apply andb_true_iff in H; destruct H
  | H : (_ <=? _) = true |- _ => apply Z.leb_le in H
  | H : (_ <=? _) = false |- _ => apply Z.leb_gt in H
  | H : (_ <? _) = true |- _ => apply Z.ltb_lt in H
  | H : (_ <? _) = false |- _ => apply Z.ltb_ge in H
  | H : (_ =? _) = true |- _ => apply Z.eqb_eq in H
  | H : (_ =? _) = false |- _ => apply Z.eqb_neq in H
  end.

Lemma lone_point b : 128 ≤ b < 256 → encode_point (56320 + b) = [b] ∧ is_point (56320 + b) = true.
Proof.
  intros H. unfold encode_point, is_point, scalar.
  rewrite (proj2 (Z.leb_le 56448 (56320 + b))), (proj2 (Z.ltb_lt (56320 + b) 56576)) by lia.
  split; [f_equal; lia|by rewrite orb_true_r].
Qed.

Lemma scalar_point c : scalar c = true → encode_point c = utf8_char c ∧ is_point c = true.
Proof.
  intros H. unfold encode_point, is_point. rewrite H. split; [|done].
  unfold scalar in H. apply orb_true_iff in H as [H|H]; z_prop;
    destruct (Z.leb_spec 56448 c); cbn; try done; try lia.
  by rewrite (proj2 (Z.ltb_ge c 56576)) by lia.
Qed.

Lemma two_point b0 b1 :
  194 ≤ b0 < 224 → 128 ≤ b1 < 192 →
  encode_point ((b0 - 192) * 64 + (b1 - 128)) = [b0; b1] ∧ is_point ((b0 - 192) * 64 + (b1 - 128)) = true.
Proof.
  intros H0 H1. destruct (scalar_point ((b0 - 192) * 64 + (b1 - 128))) as [E1 E2].
  { unfold scalar. apply orb_true_iff. left. apply andb_true_iff. rewrite Z.leb_le, Z.ltb_lt. lia. }
  split; [|done]. rewrite E1. unfold utf8_char.
  rewrite (proj2 (Z.ltb_ge _ 128)), (proj2 (Z.ltb_lt _ 2048)) by lia. repeat f_equal; dlia.
Qed.

Lemma three_point b0 b1 b2 (c := (b0 - 224) * 4096 + (b1 - 128) * 64 + (b2 - 128)) :
  224 ≤ b0 < 240 → 128 ≤ b1 < 192 → 128 ≤ b2 < 192 → 2048 ≤ c → scalar c = true →
  encode_point c = [b0; b1; b2] ∧ is_point c = true.
Proof.
  intros H0 H1 H2 Hc Hs. destruct (scalar_point c Hs) as [E1 E2]. split; [|done]. rewrite E1.
  unfold utf8_char. subst c. rewrite (proj2 (Z.ltb_ge _ 128)), (proj2 (Z.ltb_ge _ 2048)),
    (proj2 (Z.ltb_lt _ 65536)) by lia. repeat f_equal; dlia.
Qed.

Lemma four_point b0 b1 b2 b3
    (c := (b0 - 240) * 262144 + (b1 - 128) * 4096 + (b2 - 128) * 64 + (b3 - 128)) :
  240 ≤ b0 < 245 → 128 ≤ b1 < 192 → 128 ≤ b2 < 192 → 128 ≤ b3 < 192 → 65536 ≤ c → scalar c = true →
  encode_point c = [b0; b1; b2; b3] ∧ is_point c = true.
Proof.
  intros H0 H1 H2 H3 Hc Hs. destruct (scalar_point c Hs) as [E1 E2]. split; [|done]. rewrite E1.
  unfold utf8_char. subst c. rewrite (proj2 (Z.ltb_ge _ 128)), (proj2 (Z.ltb_ge _ 2048)),
    (proj2 (Z.ltb_ge _ 65536)) by lia. repeat f_equal; dlia.
Qed.

Lemma ascii_point b : 0 ≤ b < 128 → encode_point b = [b] ∧ is_point b = true.
Proof.
  intros H. destruct (scalar_point b) as [E1 E2].
  { unfold scalar. apply orb_true_iff. left. apply andb_true_iff. rewrite Z.leb_le, Z.ltb_lt. lia. }
  split; [|done]. rewrite E1. unfold utf8_char. by rewrite (proj2 (Z.ltb_lt b 128)) by lia.
Qed.

(** [decode_utf8] loses nothing. *)
Lemma decode_utf8_spec bs :
  Forall (λ b, 0 ≤ b < 256) bs →
  flat_map encode_point (decode_utf8 bs) = bs ∧ Forall (λ c, is_point c = true) (decode_utf8 bs).
Proof.
  induction bs as [bs IH] using (induction_ltof1 _ length). unfold ltof in IH. intros Hb.
  assert (Hstep : ∀ c pre rest, bs = pre ++ rest → pre ≠ [] →
    encode_point c = pre ∧ is_point c = true →
    flat_map encode_point (c :: decode_utf8 rest) = bs ∧
    Forall (λ c, is_point c = true) (c :: decode_utf8 rest)).
  { intros c pre rest -> Hp [E1 E2]. destruct (IH rest) as [H1 H2].
    - rewrite length_app. destruct pre; [done|]. simpl. lia.
    - by apply Forall_app in Hb as [_ Hb].
    - split; [|by constructor]. cbn [flat_map]. by rewrite E1, H1. }
  clear IH. destruct bs as [|b0 r0]; [done|].
  inversion Hb as [|? ? Hb0 Hr0]; subst. cbn [decode_utf8].
  destruct (b0 <? 128) eqn:E0; z_prop.
  { apply (Hstep _ [b0] r0); try done. apply ascii_point; lia. }
  assert (Hlone : ∀ r, r = r0 → flat_map encode_point (56320 + b0 :: decode_utf8 r) = b0 :: r0 ∧
    Forall (λ c, is_point c = true) (56320 + b0 :: decode_utf8 r)).
  { intros r ->. apply (Hstep _ [b0] r0); try done. apply lone_point. lia. }
  destruct r0 as [|b1 r1]; [by apply (Hlone [])|].
  destruct ((194 <=? b0) && (b0 <? 224) && cont b1) eqn:E1.
  { z_prop. apply (Hstep _ [b0; b1] r1); try done. apply two_point; lia. }
  destruct r1 as [|b2 r2]; [by apply Hlone|].
  destruct ((224 <=? b0) && (b0 <? 240) && cont b1 && cont b2 && _ && _) eqn:E2.
  { apply andb_true_iff in E2 as [E2 Hs]. z_prop. apply (Hstep _ [b0; b1; b2] r2); try done.
    apply three_point; try lia. done. }
  destruct r2 as [|b3 r3]; [by apply Hlone|].
  destruct ((240 <=? b0) && (b0 <? 245) && cont b1 && cont b2 && cont b3 && _ && _) eqn:E3; [|by apply Hlone].
  apply andb_true_iff in E3 as [E3 Hs]. z_prop. apply (Hstep _ [b0; b1; b2; b3] r3); try done.
  apply four_point; try lia. done.
Qed.

Lemma code_points_inj a b : code_points a = code_points b → a = b.
Proof.
  intros E. apply str_bytes_inj. unfold code_points in E.
  destruct (decode_utf8_spec _ (decode_encode_bytes a)) as [<- _].
  destruct (decode_utf8_spec _ (decode_encode_bytes b)) as [<- _]. by rewrite E.
Qed.

(** [data.decode("utf-8")], as code points. *)
Definition decode_points (data : bytes) : option points :=
  if forallb scalar (decode_utf8 data) then Some (decode_utf8 data) else None.

Lemma decode_utf8_char c rest : scalar c = true → decode_utf8 (utf8_char c ++ rest) = c :: decode_utf8 rest.
Proof.
  intros Hs. assert (Hr : 0 ≤ c < 55296 ∨ 57344 ≤ c < 1114112).
  { unfold scalar in Hs. apply orb_true_iff in Hs as [H|H]; z_prop; lia. }
  unfold utf8_char. destruct (Z.ltb_spec c 128) as [H1|H1]; [cbn; by rewrite (proj2 (Z.ltb_lt c 128)) by lia|].
  destruct (Z.ltb_spec c 2048) as [H2|H2].
  { cbn [app decode_utf8]. rewrite (proj2 (Z.ltb_ge _ 128)) by dlia.
    rewrite (proj2 (Z.leb_le 194 _)), (proj2 (Z.ltb_lt _ 224)), (proj2 (cont_iff _)) by dlia. cbn [andb]. f_equal. dlia. }
  destruct (Z.ltb_spec c 65536) as [H3|H3].
  { assert ((224 + c / 4096 - 224) * 4096 + (128 + (c / 64) mod 64 - 128) * 64 + (128 + c mod 64 - 128) = c) as E by dlia.
    cbn [app decode_utf8]. rewrite E, Hs. rewrite (proj2 (Z.ltb_ge _ 128)), (proj2 (Z.ltb_ge _ 224)) by dlia. rewrite andb_false_r. cbn [andb].
    by rewrite (proj2 (Z.leb_le 224 _)), (proj2 (Z.ltb_lt _ 240)), !(proj2 (cont_iff _)), (proj2 (Z.leb_le 2048 c)) by dlia. }
  assert ((240 + c / 262144 - 240) * 262144 + (128 + (c / 4096) mod 64 - 128) * 4096 + (128 + (c / 64) mod 64 - 128) * 64 + (128 + c mod 64 - 128) = c) as E by dlia.
  cbn [app decode_utf8]. rewrite E, Hs.
  rewrite (proj2 (Z.ltb_ge (240 + c / 262144) 128)), (proj2 (Z.ltb_ge (240 + c / 262144) 224)), (proj2 (Z.ltb_ge (240 + c / 262144) 240)) by dlia.
  rewrite !andb_false_r. cbn [andb].
  by rewrite (proj2 (Z.leb_le 240 (240 + c / 262144))), (proj2 (Z.ltb_lt (240 + c / 262144) 245)), (proj2 (cont_iff (128 + (c / 4096) mod 64))),
    (proj2 (cont_iff (128 + (c / 64) mod 64))), (proj2 (cont_iff (128 + c mod 64))), (proj2 (Z.leb_le 65536 c)) by dlia.
Qed.

(** What is encoded is decoded. *)
Lemma decode_points_utf8 s b : utf8 s = Ok b → decode_points b = Some s.
Proof.
  intros H. assert (decode_utf8 b = s ∧ forallb scalar s = true) as [E1 E2]; [|unfold decode_points; by rewrite E1, E2].
  revert b H. induction s as [|c s IH]; intros b H; cbn [utf8] in H; [by simplify_eq|].
  destruct (scalar c) eqn:Hc; [|done]. cbn in H. destruct (utf8 s) as [b'|] eqn:Hb; [|done]. cbn in H. simplify_eq.
  destruct (IH _ eq_refl) as [IH1 IH2]. rewrite decode_utf8_char by done. cbn [forallb]. by rewrite Hc, IH1, IH2.
Qed.

(** One escaped character read back. *)
Definition unhex (a : ascii) : Z := let n := Z.of_N (N_of_ascii a) in if n <? 58 then n - 48 else n - 87.

Definition read_hex4 (s : string) : option (Z * string) :=
  match s with
  | String a (String b (String c (String d r))) =>
      Some (unhex a * 4096 + unhex b * 256 + unhex c * 16 + unhex d, r)
  | _ => None
  end.

Definition read_point (s : string) : option (Z * string) :=
  match s with
  | String "\" (String "u" r) =>
      '(n, r1) ← read_hex4 r;
      if (55296 <=? n) && (n <? 56320) then
        match r1 with
        | String _ (String _ r2) => '(m, r3) ← read_hex4 r2; Some (65536 + (n - 55296) * 1024 + (m - 56320), r3)
        | _ => None
        end
      else Some (n, r1)
  | String "\" (String k r) =>
      Some (if Ascii.eqb k "b" then 8 else if Ascii.eqb k "f" then 12 else if Ascii.eqb k "n" then 10
            else if Ascii.eqb k "r" then 13 else if Ascii.eqb k "t" then 9
            else Z.of_N (N_of_ascii k), r)
  | String a r => Some (Z.of_N (N_of_ascii a), r)
  | "" => None
  end.

Lemma unhex_hexd i : 0 ≤ i < 16 → unhex (hexd i) = i.
Proof.
  intros H. assert (Hi : i = 0 ∨ i = 1 ∨ i = 2 ∨ i = 3 ∨ i = 4 ∨ i = 5 ∨ i = 6 ∨ i = 7 ∨ i = 8 ∨ i = 9 ∨
    i = 10 ∨ i = 11 ∨ i = 12 ∨ i = 13 ∨ i = 14 ∨ i = 15) by lia.
  by repeat (destruct Hi as [->|Hi]; [done|]); subst.
Qed.

Lemma read_hex4_hex4 n x : 0 ≤ n < 65536 → read_hex4 (hex4 n +:+ x) = Some (n, x).
Proof.
  intros H. cbv beta iota fix delta [String.append read_hex4 hex4]. rewrite !unhex_hexd by dlia. do 2 f_equal. dlia.
Qed.

Lemma read_escape_point c x : is_point c = true → read_point (escape_point c +:+ x) = Some (c, x).
Proof.
  intros Hp. unfold escape_point.
  destruct (c =? 34) eqn:E; [by apply Z.eqb_eq in E as ->|clear E].
  destruct (c =? 92) eqn:E92; [by apply Z.eqb_eq in E92 as ->|].
  destruct (c =? 8) eqn:E; [by apply Z.eqb_eq in E as ->|clear E].
  destruct (c =? 12) eqn:E; [by apply Z.eqb_eq in E as ->|clear E].
  destruct (c =? 10) eqn:E; [by apply Z.eqb_eq in E as ->|clear E].
  destruct (c =? 13) eqn:E; [by apply Z.eqb_eq in E as ->|clear E].
  destruct (c =? 9) eqn:E; [by apply Z.eqb_eq in E as ->|clear E].
  destruct ((32 <=? c) && (c <=? 126)) eqn:Ep.
  { z_prop. assert (En : Z.of_N (N_of_ascii (ascii_of_N (Z.to_N c))) = c).
    { rewrite N_ascii_embedding by lia. lia. }
    set (a := ascii_of_N (Z.to_N c)) in *. change (String a "" +:+ x) with (String a x).
    assert (Ha : a ≠ "\"%char) by (intros Ha; rewrite Ha in En; by vm_compute in En; lia).
    destruct a as [[] [] [] [] [] [] [] []]; cbn [read_point]; try (by rewrite En); congruence. }
  clear E92 Ep. assert (Hc : 0 ≤ c < 1114112 ∧ (c < 55296 ∨ 56320 ≤ c)).
  { unfold is_point, scalar in Hp. rewrite !orb_true_iff in Hp. destruct Hp as [[Hp|Hp]|Hp]; z_prop; lia. }
  destruct (c <? 65536) eqn:El; z_prop.
  - rewrite app_assoc_s. change (read_point ("\u" +:+ (hex4 c +:+ x))) with
      ('(n, r1) ← read_hex4 (hex4 c +:+ x);
       if (55296 <=? n) && (n <? 56320) then
         match r1 with
         | String _ (String _ r2) => '(m, r3) ← read_hex4 r2; Some (65536 + (n - 55296) * 1024 + (m - 56320), r3)
         | _ => None
         end
       else Some (n, r1)).
    rewrite read_hex4_hex4 by lia. cbn. destruct Hc as [_ [Hc|Hc]].
    + by rewrite (proj2 (Z.leb_gt 55296 c)) by lia.
    + by rewrite (proj2 (Z.ltb_ge c 56320)), andb_false_r by lia.
  - cbn zeta. rewrite !app_assoc_s. set (n := c - 65536).
    change (read_point ("\u" +:+ ?s)) with
      ('(n, r1) ← read_hex4 s;
       if (55296 <=? n) && (n <? 56320) then
         match r1 with
         | String _ (String _ r2) => '(m, r3) ← read_hex4 r2; Some (65536 + (n - 55296) * 1024 + (m - 56320), r3)
         | _ => None
         end
       else Some (n, r1)).
    rewrite read_hex4_hex4 by (subst n; dlia). cbn [mbind option_bind].
    rewrite (proj2 (Z.leb_le 55296 _)), (proj2 (Z.ltb_lt _ 56320)) by (subst n; dlia).
    cbn [andb]. cbv iota fix beta delta [String.append]. fold String.append. rewrite read_hex4_hex4 by (subst n; dlia). cbn [mbind option_bind].
    do 2 f_equal. subst n. dlia.
Qed.

Lemma escape_point_head c x : is_point c = true → ∃ a r, escape_point c +:+ x = String a r ∧ a ≠ ascii_of_nat 34.
Proof.
  intros Hp. pose proof (read_escape_point c x Hp) as Hr. unfold escape_point in *.
  repeat match goal with |- context [if ?b then _ else _] => destruct b eqn:? end;
    try (eexists _, _; split; [reflexivity|discriminate]).
  eexists _, _. split; [reflexivity|]. z_prop. intros E.
  assert (En : Z.of_N (N_of_ascii (ascii_of_N (Z.to_N c))) = c).
  { rewrite N_ascii_embedding by lia. lia. }
  rewrite E in En. vm_compute in En. lia.
Qed.

Lemma escape_points_inj l1 l2 x y :
  Forall (λ c, is_point c = true) l1 → Forall (λ c, is_point c = true) l2 →
  escape_points l1 +:+ quote +:+ x = escape_points l2 +:+ quote +:+ y → l1 = l2 ∧ x = y.
Proof.
  intros H1. revert l2. induction H1 as [|c l1 Hc _ IH]; intros l2 [|d l2' Hd Hl2] E;
    cbn [escape_points] in E; rewrite ?app_assoc_s in E.
  - injection E as E. done.
  - destruct (escape_point_head d (escape_points l2' +:+ quote +:+ y) Hd) as (a & r & Ea & Hq).
    rewrite Ea in E. injection E as <- _. by destruct Hq.
  - destruct (escape_point_head c (escape_points l1 +:+ quote +:+ x) Hc) as (a & r & Ea & Hq).
    rewrite Ea in E. injection E as -> _. by destruct Hq.
  - apply (f_equal read_point) in E. rewrite !read_escape_point in E by done. injection E as -> E.
    by destruct (IH l2' Hl2 E) as [-> ->].
Qed.

Lemma dumps_str_inj a b x y : dumps_str a +:+ x = dumps_str b +:+ y → a = b ∧ x = y.
Proof.
  unfold dumps_str. rewrite !app_assoc_s. intros E. injection E as E.
  apply escape_points_inj in E as [E ->]; [by apply code_points_inj in E as ->|..];
    apply decode_utf8_spec, decode_encode_bytes.
Qed.

(** ** Numbers *)

Lemma uint_chars d : forallb number_char (String.list_ascii_of_string (NilEmpty.string_of_uint d)) = true.
Proof. induction d; cbn [NilEmpty.string_of_uint String.list_ascii_of_string forallb]; rewrite ?IHd; done. Qed.

Lemma decimal_chars z : forallb number_char (String.list_ascii_of_string (decimal z)) = true.
Proof.
  unfold decimal, NilZero.string_of_int, NilZero.string_of_uint.
  destruct (Z.to_int z) as [d|d]; destruct d; try done;
    cbn [String.list_ascii_of_string forallb]; by rewrite uint_chars.
Qed.

(** The digits of an integer: no full stop, unlike a float's. *)
Definition int_char (c : ascii) : bool :=
  let n := Z.of_N (N_of_ascii c) in (n =? 45) || ((48 <=? n) && (n <=? 57)).

Lemma decimal_int_chars z : forallb int_char (String.list_ascii_of_string (decimal z)) = true.
Proof.
  assert (Hu : ∀ d, forallb int_char (String.list_ascii_of_string (NilEmpty.string_of_uint d)) = true).
  { intros d. induction d as [|d IH|d IH|d IH|d IH|d IH|d IH|d IH|d IH|d IH|d IH]; exact IH || done. }
  unfold decimal, NilZero.string_of_int, NilZero.string_of_uint.
  destruct (Z.to_int z) as [d|d]; destruct d; try done;
    cbn [String.list_ascii_of_string forallb]; by rewrite Hu.
Qed.

Lemma decimal_nonempty z : decimal z ≠ "".
Proof.
  unfold decimal, NilZero.string_of_int, NilZero.string_of_uint. by destruct (Z.to_int z) as [[]|[]].
Qed.

Lemma to_int_nonempty z : Z.to_int z ≠ Decimal.Pos Decimal.Nil ∧ Z.to_int z ≠ Decimal.Neg Decimal.Nil.
Proof. split; intros E; pose proof (of_to z) as Hz; rewrite E in Hz; cbn in Hz; subst; discriminate. Qed.

Lemma decimal_inj y z : decimal y = decimal z → y = z.
Proof.
  intros E. apply (f_equal NilZero.int_of_string) in E. unfold decimal in E.
  destruct (to_int_nonempty y), (to_int_nonempty z). rewrite !NilZero.isi in E by done.
  injection E as E. by apply to_int_inj.
Qed.

(** ** Values *)

Definition json_nested_ind (P : json → Prop) (Hnull : P JNull) (Hbool : ∀ b, P (JBool b))
    (Hnum : ∀ n, P (JNum n)) (Hfloat : ∀ q, P (JFloat q)) (Hstr : ∀ s, P (JStr s))
    (Hlist : ∀ l, Forall P l → P (JList l))
    (Hobj : ∀ fs, Forall (λ kv : string * json, P kv.2) fs → P (JObj fs)) : ∀ j, P j :=
  fix F j :=
    match j with
    | JNull => Hnull
    | JBool b => Hbool b
    | JNum n => Hnum n
    | JFloat q => Hfloat q
    | JStr s => Hstr s
    | JList l => Hlist l ((fix G l : Forall P l := match l with
        | [] => List.Forall_nil _
        | x :: l' => List.Forall_cons _ x l' (F x) (G l') end) l)
    | JObj fs => Hobj fs ((fix G fs : Forall (λ kv : string * json, P kv.2) fs := match fs with
        | [] => List.Forall_nil _
        | (k, v) :: fs' => List.Forall_cons (λ kv : string * json, P kv.2) (k, v) fs' (F v) (G fs') end) fs)
    end.

(** What may follow a value inside a text: nothing that continues a number. *)
Definition ends (x : string) : Prop :=
  match x with "" => True | String c _ => number_char c = false end.

(** Texts that run up to an end. *)
Lemma number_ends a b x y :
  forallb number_char (String.list_ascii_of_string a) = true →
  forallb number_char (String.list_ascii_of_string b) = true →
  ends x → ends y → a +:+ x = b +:+ y → a = b ∧ x = y.
Proof.
  intros Ha Hb Hx Hy. revert b Hb. induction a as [|c a IH]; intros [|d b] Hb E.
  - done.
  - change ("" +:+ x) with x in E. rewrite E in Hx. cbn in Hx, Hb. apply andb_true_iff in Hb as [? _]. congruence.
  - change ("" +:+ y) with y in E. rewrite <-E in Hy. cbn in Hy, Ha. apply andb_true_iff in Ha as [? _]. congruence.
  - injection E as -> E. cbn in Ha, Hb. apply andb_true_iff in Ha as [_ Ha], Hb as [_ Hb].
    by destruct (IH Ha b Hb E) as [-> ->].
Qed.

Lemma join_cons (s : string) x l : l ≠ [] → join s (x :: l) = x +:+ s +:+ join s l.
Proof. by destruct l. Qed.

(** Separated items up to a closing bracket, when each item can be told from what
    follows it. *)
Lemma join_inj {A B} (f : A → string) (g : A → B) (close : ascii) (l1 l2 : list A) x y :
  number_char close = false → close ≠ ","%char →
  (∀ a u, a ∈ l1 ++ l2 → ∃ c r, f a +:+ u = String c r ∧ c ≠ close) →
  (∀ a b u v, a ∈ l1 → ends u → ends v → f a +:+ u = f b +:+ v → g a = g b ∧ u = v) →
  join "," (map f l1) +:+ String close x = join "," (map f l2) +:+ String close y →
  map g l1 = map g l2 ∧ x = y.
Proof.
  intros Hn Hc Hhead Hinj. revert l2 Hhead.
  assert (Hrest : ∀ l z, ∃ u, (∀ s, join "," (s :: map f l) +:+ String close z = s +:+ u) ∧ ends u ∧
    ((l = [] ∧ u = String close z) ∨ (l ≠ [] ∧ u = String "," (join "," (map f l) +:+ String close z)))).
  { intros [|e l] z.
    - exists (String close z). split_and!; [done|done|by left].
    - exists ("," +:+ join "," (map f (e :: l)) +:+ String close z). split_and!; [|done|by right].
      intros s. rewrite join_cons, !app_assoc_s by done. done. }
  induction l1 as [|a l1 IH]; intros [|b l2] Hhead E; cbn [map] in E.
  - by injection E.
  - exfalso. destruct (Hrest l2 y) as (u & Eu & _). rewrite Eu in E.
    destruct (Hhead b u) as (c & r & Er & Hcc); [apply elem_of_app; right; left|].
    rewrite Er in E. injection E as <- _. done.
  - exfalso. destruct (Hrest l1 x) as (u & Eu & _). rewrite Eu in E.
    destruct (Hhead a u) as (c & r & Er & Hcc); [apply elem_of_app; left; left|].
    rewrite Er in E. injection E as -> _. done.
  - destruct (Hrest l1 x) as (u & Eu & Hu & Hu'). destruct (Hrest l2 y) as (v & Ev & Hv & Hv').
    rewrite Eu, Ev in E. destruct (Hinj a b u v) as [Eg Euv]; try done; [left|].
    subst v. cbn [map]. rewrite Eg.
    destruct Hu' as [[-> ->]|[Hl1 ->]], Hv' as [[-> Ev']|[Hl2 Ev']].
    + injection Ev' as ->. done.
    + injection Ev' as Hx _. by destruct Hc.
    + injection Ev' as Hx _. by destruct Hc.
    + injection Ev' as Ev'. destruct (IH) with (l2 := l2) as [-> ->]; try done.
      * intros a' b' u' v' Ha'. apply Hinj. by right.
      * intros a' u' Ha'. apply Hhead. set_solver.
Qed.

Section values.
Context (repr_float : Q → string) (Hlaws : float_repr_laws repr_float).

(** What a value's first character says of it. *)
Definition kind (j : json) : Z :=
  match j with
  | JNull => 0 | JBool _ => 1 | JNum _ | JFloat _ => 2 | JStr _ => 3 | JList _ => 4 | JObj _ => 5
  end.
Definition kind_char (c : ascii) : Z :=
  if number_char c then 2 else if Ascii.eqb c "n" then 0
  else if Ascii.eqb c "t" || Ascii.eqb c "f" then 1
  else if Ascii.eqb c "[" then 4 else if Ascii.eqb c "{" then 5 else 3.

Lemma number_head s x :
  s ≠ "" → forallb number_char (String.list_ascii_of_string s) = true →
  ∃ c r, s +:+ x = String c r ∧ kind_char c = 2.
Proof.
  destruct s as [|c s]; [done|]. intros _ H. cbn in H. apply andb_true_iff in H as [Hc _].
  exists c, (s +:+ x). split; [done|]. unfold kind_char. by rewrite Hc.
Qed.

Lemma text_head j x : ∃ c r, text repr_float j +:+ x = String c r ∧ kind_char c = kind j.
Proof.
  destruct j as [|[]|n|q|s|l|fs]; try (eexists _, _; split; [reflexivity|reflexivity]).
  - apply number_head; [apply decimal_nonempty|apply decimal_chars].
  - apply number_head; [apply (fr_nonempty _ Hlaws)|apply (fr_chars _ Hlaws)].
Qed.

Lemma head_not j x (close : ascii) :
  kind_char close = 3 → close ≠ ascii_of_nat 34 → ∃ c r, text repr_float j +:+ x = String c r ∧ c ≠ close.
Proof.
  intros Hk Hq. destruct (text_head j x) as (c & r & E & Hc). exists c, r. split; [done|].
  intros ->. destruct j; cbn in Hc; try congruence. cbn in E. unfold dumps_str in E.
  rewrite !app_assoc_s in E. by injection E.
Qed.

Definition field_text (kv : string * json) : string :=
  match kv with (k, v) => dumps_str k +:+ ":" +:+ text repr_float v end.
Definition field_reduce (kv : string * json) : string * json := match kv with (k, v) => (k, reduce v) end.

Lemma text_inj a : ∀ b x y,
  ends x → ends y → text repr_float a +:+ x = text repr_float b +:+ y → reduce a = reduce b ∧ x = y.
Proof.
  assert (Hnum : ∀ s t x y, ends x → ends y → text repr_float (JNum s) +:+ x = t +:+ y →
    forallb number_char (String.list_ascii_of_string t) = true → decimal s = t ∧ x = y).
  { intros s t x y Hx Hy E Ht. by apply number_ends in E; [|apply decimal_chars|..]. }
  induction a as [|p|n|q|s|l IH|fs IH] using json_nested_ind; intros b x y Hx Hy E;
    destruct (text_head b y) as (c' & r' & E' & Hk'); rewrite E' in E;
    destruct b as [|p'|n'|q'|s'|l'|fs']; cbn [kind] in Hk';
    match type of E with text _ ?a +:+ _ = _ =>
      destruct (text_head a x) as (c & r & E1 & Hk); rewrite E1 in E; cbn [kind] in Hk;
      injection E as -> ->; try congruence; rewrite <-E' in E1; clear E' Hk Hk' r' c' end.
  - by injection E1.
  - destruct p, p'; by injection E1.
  - destruct (Hnum _ _ _ _ Hx Hy E1 (decimal_chars n')) as [->%decimal_inj ->]. done.
  - destruct (Hnum _ _ _ _ Hx Hy E1 (fr_chars _ Hlaws q')) as [E _]. by destruct (fr_not_int _ Hlaws q' n).
  - symmetry in E1. destruct (Hnum _ _ _ _ Hy Hx E1 (fr_chars _ Hlaws q)) as [E _].
    by destruct (fr_not_int _ Hlaws q n').
  - apply number_ends in E1 as [E ->]; [|apply (fr_chars _ Hlaws)..|done|done].
    apply (fr_value _ Hlaws) in E. split; [|done]. cbn. f_equal. by apply Qred_complete.
  - by apply dumps_str_inj in E1 as [-> ->].
  - cbn [text] in E1. rewrite !app_assoc_s in E1. injection E1 as E.
    apply (join_inj _ reduce) in E as [E ->]; [by cbn; rewrite E|done|done| |].
    + intros a u _. by apply head_not.
    + intros a' b' u v Ha. rewrite Forall_forall in IH. by apply IH.
  - cbn [text] in E1. rewrite !app_assoc_s in E1. injection E1 as E.
    change (λ kv : string * json, let '(k, v) := kv in dumps_str k +:+ ":" +:+ text repr_float v)
      with field_text in E.
    apply (join_inj field_text field_reduce) in E as [E ->];
      [by change (JObj (map field_reduce fs) = JObj (map field_reduce fs') ∧ y = y); rewrite E|done|done| |].
    + intros [k v] u _. unfold field_text, dumps_str. rewrite !app_assoc_s.
      eexists _, _. split; [reflexivity|discriminate].
    + intros [k v] [k' v'] u u' Ha Hu Hu'. unfold field_text. rewrite !app_assoc_s.
      intros [-> Ev]%dumps_str_inj. injection Ev as Ev. rewrite Forall_forall in IH.
      destruct (IH _ Ha _ _ _ Hu Hu' Ev) as [Er ->]. cbn [snd] in Er. cbn. by rewrite Er.
Qed.

Lemma canonical_json_text j : canonical_json repr_float j = text repr_float (sort_keys j).
Proof.
  induction j as [| | | | |l IH|fs IH] using json_nested_ind; try done.
  - cbn. do 3 f_equal. rewrite map_map. by apply map_ext_Forall.
  - cbn. do 3 f_equal.
    change (λ kv : string * json, let '(k, v) := kv in dumps_str k +:+ ":" +:+ text repr_float v)
      with field_text.
    rewrite <-(map_map (λ kv : string * json, (kv.1, field_text kv)) snd).
    rewrite <-(sort_by_key_map str_le fst fst (λ kv : string * json, (kv.1, field_text kv))) by done.
    do 2 f_equal. rewrite map_map. apply map_ext_Forall. eapply Forall_impl; [exact IH|].
    intros [k v] Ev. cbn in *. by rewrite Ev.
Qed.

(** The canonical text determines the normal form. *)
Lemma canonical_json_inj a b :
  canonical_json repr_float a = canonical_json repr_float b → normal_form a = normal_form b.
Proof.
  rewrite !canonical_json_text. unfold normal_form. intros E.
  destruct (text_inj (sort_keys a) (sort_keys b) "" "") as [-> _]; try done. by rewrite !app_nil_s.
Qed.

Lemma canonical_json_obj fs : ∃ r, canonical_json repr_float (JObj fs) = String "{" r.
Proof. by eexists. Qed.
End values.

(** ** A [float.__repr__] that satisfies the laws *)

Module JsonSamples.
Definition fraction (q : Q) : string :=
  decimal (Qnum (Qred q)) +:+ "e" +:+ decimal (Zpos (Qden (Qred q))).

Definition int_char (c : ascii) : bool := negb (Ascii.eqb c "e").

Lemma decimal_int z : forallb int_char (String.list_ascii_of_string (decimal z)) = true.
Proof.
  assert (Hu : ∀ d, forallb int_char (String.list_ascii_of_string (NilEmpty.string_of_uint d)) = true).
  { induction d; cbn [NilEmpty.string_of_uint String.list_ascii_of_string forallb]; rewrite ?IHd; done. }
  unfold decimal, NilZero.string_of_int, NilZero.string_of_uint.
  destruct (Z.to_int z) as [d|d]; destruct d; try done;
    cbn [String.list_ascii_of_string forallb]; by rewrite Hu.
Qed.

Lemma fraction_laws : float_repr_laws fraction.
Proof.
  split.
  - intros q. unfold fraction. rewrite !list_ascii_app, !forallb_app, !decimal_chars. done.
  - intros q E. unfold fraction in E. destruct (decimal (Qnum (Qred q))) eqn:Ed; [by apply decimal_nonempty in Ed|done].
  - intros q z E. pose proof (decimal_int z) as Hz. rewrite <-E in Hz. unfold fraction in Hz.
    rewrite !list_ascii_app, !forallb_app in Hz. rewrite (andb_comm (forallb _ (String.list_ascii_of_string "e"))) in Hz.
    rewrite !andb_true_iff in Hz. destruct Hz as (_ & _ & Hz). by vm_compute in Hz.
  - intros p q E. unfold fraction in E. apply (delimited int_char) in E as (E1%decimal_inj & _ & E2%decimal_inj);
      [|apply decimal_int..|done|done].
    rewrite <-(Qred_correct p), <-(Qred_correct q). destruct (Qred p), (Qred q). cbn in *. by simplify_eq.
Qed.
End JsonSamples.
