(* ===== verification/PyText.v ===== *)
(** * Python text primitives

    What the services use of [str] and [int] on text that comes from outside: header
    values, cron fields, archive names.  A [string] is a sequence of characters below
    256, as an HTTP header value is after its latin-1 decoding. *)

From S2P Require Import Prelude JsonText.
From Stdlib Require Import QArith Ascii.
Open Scope string_scope.
Open Scope list_scope.
Open Scope Z_scope.

Definition code (c : ascii) : Z := Z.of_N (N_of_ascii c).

Definition is_ascii (s : string) : bool := forallb (λ c, code c <? 128) (String.list_ascii_of_string s).

(** [str.isspace] below 256. *)
Definition is_space (c : ascii) : bool :=
  let n := code c in
  ((9 <=? n) && (n <=? 13)) || ((28 <=? n) && (n <=? 32)) || (n =? 133) || (n =? 160).

Fixpoint lstrip (l : list ascii) : list ascii :=
  match l with
  | c :: l' => if is_space c then lstrip l' else l
  | [] => []
  end.

Definition strip (l : list ascii) : list ascii := rev (lstrip (rev (lstrip l))).

(** [str.split] without a separator: the runs of non-space characters; [cur] is the
    run being read, last character first. *)
Fixpoint words_from (cur : list ascii) (l : list ascii) : list (list ascii) :=
  let flush ws := match cur with [] => ws | _ => rev cur :: ws end in
  match l with
  | [] => flush []
  | c :: l' => if is_space c then flush (words_from [] l') else words_from (c :: cur) l'
  end.

Definition words (l : list ascii) : list (list ascii) := words_from [] l.

(** [str.split(sep)] for a one-character separator. *)
Fixpoint split_char (sep : ascii) (l : list ascii) : list (list ascii) :=
  match l with
  | [] => [[]]
  | c :: l' =>
      if Ascii.eqb c sep then [] :: split_char sep l'
      else match split_char sep l' with
           | w :: ws => (c :: w) :: ws
           | [] => [[c]]
           end
  end.

Definition is_digit (c : ascii) : bool := (48 <=? code c) && (code c <=? 57).

(** The digits of [int(text)]: single underscores may separate them. *)
Fixpoint read_digits (after_digit : bool) (acc : Z) (n : nat) (l : list ascii) : option (Z * nat) :=
  match l with
  | [] => if after_digit then Some (acc, n) else None
  | c :: l' =>
      if is_digit c then read_digits true (acc * 10 + (code c - 48)) (S n) l'
      else if Ascii.eqb c "_" && after_digit then read_digits false acc n l'
      else None
  end.

(** [sys.int_info.default_max_str_digits]. *)
Definition max_str_digits : Z := 4300.

(** [int(text)]; [None] is [ValueError]. *)
Definition py_int (s : list ascii) : option Z :=
  let t := strip s in
  let '(sign, body) :=
    match t with
    | c :: t' => if Ascii.eqb c "-" then (-1, t') else if Ascii.eqb c "+" then (1, t') else (1, t)
    | [] => (1, [])
    end in
  match read_digits false 0 0 body with
  | Some (v, n) => if Z.of_nat n <=? max_str_digits then Some (sign * v) else None
  | None => None
  end.

Example py_int_examples :
  map (λ s, py_int (String.list_ascii_of_string s)) ["12"; " -7 "; "1_0"; "1__0"; "_1"; "+"; ""; "1 2"; "0x1"]
  = [Some 12; Some (-7); Some 10; None; None; None; None; None; None].
Proof. reflexivity. Qed.

Example words_examples :
  map (map String.string_of_list_ascii) (map (λ s, words (String.list_ascii_of_string s)) ["0 6  * * 1"; ""; " a "; "ab"])
  = [["0"; "6"; "*"; "*"; "1"]; []; ["a"]; ["ab"]].
Proof. reflexivity. Qed.
