(* ===== verification/Airlock.v ===== *)
(** * The airlock's streams: [libs/common/airlock.py]

    The two Redis streams between the monolith and the engine runners, down to the bytes
    of their entries.  A stream keeps its entries in order; each consumer group has the
    position up to which it has been given entries and the entries it has been given and
    has not acknowledged, with their delivery counts.  The commands [XADD],
    [XGROUP CREATE], [XREADGROUP >], [XAUTOCLAIM], [XPENDING] and [XACK] are modelled as
    Redis documents them; the text of a float and its reading, and [int] of text outside
    ASCII, are parameters.  EngineRunner.v and Orchestration.v use the messages this file
    reads. *)

From S2P Require Import Prelude Float64 Canonical JsonText PyText Unpack.
From Stdlib Require Import QArith Ascii Decimal DecimalString DecimalZ.
Open Scope string_scope.
Open Scope list_scope.
Open Scope Z_scope.

(** ** Messages *)

Record ScanJobMessage := mkScanJobMessage {
  sj_message_id : points;
  sj_scan_id : points;
  sj_content_hash : points;
  sj_artifact_key : points;
  sj_deadline_epoch : pyfloat;
  sj_engines : list points;
}.

Record ResultMessage := mkResultMessage {
  rs_message_id : points;
  rs_scan_id : points;
  rs_findings_key : points;
  rs_engine : points;
  rs_status : points;
  rs_analyze_duration_ms : option Z;
}.

Definition ANALYZE_DURATION_MS_FIELD : points := str_bytes "analyze_duration_ms".

(** The fields of an entry, as bytes. *)
Definition Wire : Type := list (bytes * bytes).

Inductive AirlockError := KeyError (name : points) | UnicodeDecodeError | UnicodeEncodeError | float_error.

(** redis-py's encoding of a field mapping. *)
Fixpoint encode_fields (fields : list (points * points)) : result AirlockError Wire :=
  match fields with
  | [] => Ok []
  | (k, v) :: fields =>
      match utf8 k, utf8 v with
      | Ok k, Ok v => rest ← encode_fields fields; Ok ((k, v) :: rest)
      | _, _ => Err UnicodeEncodeError
      end
  end.

Definition _decode (value : bytes) : result AirlockError points :=
  match decode_points value with Some s => Ok s | None => Err UnicodeDecodeError end.

Fixpoint _decode_fields (fields : Wire) : result AirlockError (list (points * points)) :=
  match fields with
  | [] => Ok []
  | (k, v) :: fields => k ← _decode k; v ← _decode v; rest ← _decode_fields fields; Ok ((k, v) :: rest)
  end.

(** The value of a dict built from pairs: the last of a key. *)
Definition dict_get (name : points) (d : list (points * points)) : option points :=
  snd <$> find (λ kv, bool_decide (kv.1 = name)) (reverse d).
Definition index (name : points) (d : list (points * points)) : result AirlockError points :=
  match dict_get name d with Some v => Ok v | None => Err (KeyError name) end.

(** The outcome of a claim: the stream changes before the entries are read. *)
Inductive Claimed (A : Type) := claimed (messages : list A) | claim_raises (e : AirlockError) | no_group.
Arguments claimed {A} messages.
Arguments claim_raises {A} e.
Arguments no_group {A}.

Section wire.
Variable repr_float : pyfloat → points.
Variable read_float : points → option pyfloat.
(** [int] of text with characters outside ASCII. *)
Variable wide_int : points → option Z.

Definition int_of (text : points) : option Z :=
  if forallb (λ c, (0 <=? c) && (c <? 128)) text then py_int (map (λ c, ascii_of_N (Z.to_N c)) text) else wide_int text.

Definition comma : Z := 44.

(** *** Scan jobs *)

Definition scan_job_fields (scan_id content_hash artifact_key : points) (deadline_epoch : pyfloat) (engines : list points)
    : list (points * points) :=
  [(str_bytes "scan_id", scan_id); (str_bytes "content_hash", content_hash); (str_bytes "artifact_key", artifact_key);
   (str_bytes "deadline_epoch", repr_float deadline_epoch); (str_bytes "engines", join_on comma engines)].

Definition parse_scan_job (message_id : bytes) (fields : Wire) : result AirlockError ScanJobMessage :=
  decoded ← _decode_fields fields;
  message_id ← _decode message_id;
  scan_id ← index (str_bytes "scan_id") decoded;
  content_hash ← index (str_bytes "content_hash") decoded;
  artifact_key ← index (str_bytes "artifact_key") decoded;
  deadline ← index (str_bytes "deadline_epoch") decoded;
  deadline ← match read_float deadline with Some t => Ok t | None => Err float_error end;
  engines ← index (str_bytes "engines") decoded;
  Ok (mkScanJobMessage message_id scan_id content_hash artifact_key deadline
        (if bool_decide (engines = []) then [] else split_on comma engines)).

(** The first entry that cannot be read ends the batch. *)
Fixpoint parse_batch {A} (parse : bytes → Wire → result AirlockError A) (messages : list (bytes * Wire)) : result AirlockError (list A) :=
  match messages with
  | [] => Ok []
  | (message_id, fields) :: messages => a ← parse message_id fields; rest ← parse_batch parse messages; Ok (a :: rest)
  end.

Definition _parse_scan_jobs (messages : list (bytes * Wire)) : result AirlockError (list ScanJobMessage) :=
  parse_batch parse_scan_job messages.

(** *** Results *)

Definition result_fields (scan_id findings_key engine status : points) (analyze_duration_ms : option Z) : list (points * points) :=
  [(str_bytes "scan_id", scan_id); (str_bytes "findings_key", findings_key); (str_bytes "engine", engine); (str_bytes "status", status)] ++
  match analyze_duration_ms with Some n => [(ANALYZE_DURATION_MS_FIELD, str_bytes (JsonText.decimal n))] | None => [] end.

Definition _parse_analyze_duration_ms (decoded : list (points * points)) : option Z :=
  raw ← dict_get ANALYZE_DURATION_MS_FIELD decoded;
  value ← int_of raw;
  if value <? 0 then None else Some value.

Definition parse_result (message_id : bytes) (fields : Wire) : result AirlockError ResultMessage :=
  decoded ← _decode_fields fields;
  message_id ← _decode message_id;
  scan_id ← index (str_bytes "scan_id") decoded;
  findings_key ← index (str_bytes "findings_key") decoded;
  engine ← index (str_bytes "engine") decoded;
  status ← index (str_bytes "status") decoded;
  Ok (mkResultMessage message_id scan_id findings_key engine status (_parse_analyze_duration_ms decoded)).

Definition _parse_results (messages : list (bytes * Wire)) : result AirlockError (list ResultMessage) := parse_batch parse_result messages.

(** ** Streams *)

Record Pending := mkPending {
  pe_entry : bytes * Wire;
  pe_count : Z;
  pe_at : Z;
}.

(** [gr_given]: how many entries the group has been given. *)
Record GroupState := mkGroupState { gr_given : nat; gr_pending : list Pending }.

Record Stream := mkStream { st_entries : list (bytes * Wire); st_groups : gmap string GroupState }.

Definition with_group (group : string) (g : GroupState) (s : Stream) : Stream := mkStream (st_entries s) (<[group := g]> (st_groups s)).

(** [xgroup_create(id="0", mkstream=True)]; [BUSYGROUP] is swallowed. *)
Definition ensure_group (group : string) (s : Stream) : Stream :=
  match st_groups s !! group with
  | Some _ => s
  | None => with_group group (mkGroupState 0 []) s
  end.

Definition xadd (id : bytes) (fields : Wire) (s : Stream) : Stream := mkStream (st_entries s ++ [(id, fields)]) (st_groups s).

(** The identifier is the server's. *)
Definition produce_scan_job (id : bytes) (scan_id content_hash artifact_key : points) (deadline_epoch : pyfloat) (engines : list points)
    (s : Stream) : result AirlockError Stream :=
  w ← encode_fields (scan_job_fields scan_id content_hash artifact_key deadline_epoch engines); Ok (xadd id w s).

Definition produce_result (id : bytes) (scan_id findings_key engine status : points) (analyze_duration_ms : option Z)
    (s : Stream) : result AirlockError Stream :=
  w ← encode_fields (result_fields scan_id findings_key engine status analyze_duration_ms); Ok (xadd id w s).

(** [XREADGROUP ... >]; [None] is [NOGROUP]. *)
Definition xreadgroup (now : Z) (group : string) (count : nat) (s : Stream) : option (list (bytes * Wire) * Stream) :=
  g ← st_groups s !! group;
  let new := take count (drop (gr_given g) (st_entries s)) in
  Some (new, with_group group (mkGroupState (gr_given g + length new) (gr_pending g ++ map (λ e, mkPending e 1 now) new)) s).

(** [XAUTOCLAIM ... 0]: at most 100 entries, among the first 1000 pending. *)
Definition stale (now min_idle : Z) (g : GroupState) : list Pending :=
  take 100 (base.filter (λ p, min_idle ≤ now - pe_at p) (take 1000 (gr_pending g))).

Definition redelivered (now : Z) (ids : list bytes) (p : Pending) : Pending :=
  if bool_decide ((pe_entry p).1 ∈ ids) then mkPending (pe_entry p) (pe_count p + 1) now else p.

Definition xautoclaim (now : Z) (group : string) (min_idle : Z) (s : Stream) : option (list (bytes * Wire) * Stream) :=
  g ← st_groups s !! group;
  let old := stale now min_idle g in
  Some (map pe_entry old, with_group group (mkGroupState (gr_given g) (map (redelivered now (map (λ p, (pe_entry p).1) old)) (gr_pending g))) s).

Definition xack (group : string) (id : bytes) (s : Stream) : Stream :=
  match st_groups s !! group with
  | None => s
  | Some g => with_group group (mkGroupState (gr_given g) (base.filter (λ p, (pe_entry p).1 ≠ id) (gr_pending g))) s
  end.

(** [_delivery_count]. *)
Definition times_delivered (group : string) (id : bytes) (s : Stream) : Z :=
  match st_groups s !! group with
  | None => 0
  | Some g => from_option pe_count 0 (find (λ p, bool_decide ((pe_entry p).1 = id)) (gr_pending g))
  end.

Definition then_parse {A} (parse : list (bytes * Wire) → result AirlockError (list A)) (s : Stream)
    (r : option (list (bytes * Wire) * Stream)) : Claimed A * Stream :=
  match r with
  | None => (no_group, s)
  | Some (messages, s') => (match parse messages with Ok l => claimed l | Err e => claim_raises e end, s')
  end.

Definition claim_scan_jobs (now : Z) (group : string) (count : nat) (s : Stream) : Claimed ScanJobMessage * Stream :=
  then_parse _parse_scan_jobs s (xreadgroup now group count s).
Definition reclaim_stale_scan_jobs (now : Z) (group : string) (min_idle_ms : Z) (s : Stream) : Claimed ScanJobMessage * Stream :=
  then_parse _parse_scan_jobs s (xautoclaim now group min_idle_ms s).

Definition ORCHESTRATORS_GROUP : string := "orchestrators".
Definition WORKERS_GROUP : string := "workers".

Definition claim_results (now : Z) (count : nat) (s : Stream) : Claimed ResultMessage * Stream :=
  then_parse _parse_results s (xreadgroup now ORCHESTRATORS_GROUP count s).
Definition reclaim_stale_results (now min_idle_ms : Z) (s : Stream) : Claimed ResultMessage * Stream :=
  then_parse _parse_results s (xautoclaim now ORCHESTRATORS_GROUP min_idle_ms s).
Definition ack_result (message_id : points) (s : Stream) : Stream :=
  match utf8 message_id with Ok id => xack ORCHESTRATORS_GROUP id s | Err _ => s end.
Definition result_delivery_count (id : bytes) (s : Stream) : Z := times_delivered ORCHESTRATORS_GROUP id s.

(** The claims of one collector tick. *)
Definition tick_claims (now : Z) (count : nat) (reclaim_idle_ms : Z) (s : Stream) : Claimed ResultMessage * Stream :=
  match claim_results now count s with
  | (claimed fresh, s1) =>
      match reclaim_stale_results now reclaim_idle_ms s1 with
      | (claimed old, s2) => (claimed (fresh ++ old), s2)
      | r => r
      end
  | r => r
  end.
End wire.

(** ** The wire *)

Lemma decode_encoded s b : utf8 s = Ok b → _decode b = Ok s.
Proof. intros H%decode_points_utf8. unfold _decode. by rewrite H. Qed.

Lemma fields_decoded fields w : encode_fields fields = Ok w → _decode_fields w = Ok fields.
Proof.
  revert w. induction fields as [|[k v] fields IH]; intros w H; [cbn in H; by simplify_eq|]. cbn in H.
  destruct (utf8 k) as [k'|] eqn:Ek, (utf8 v) as [v'|] eqn:Ev; try done.
  destruct (encode_fields fields) as [w'|] eqn:Ew; [|done]. cbn in H. simplify_eq. cbn [_decode_fields].
  rewrite (decode_encoded _ _ Ek). cbn. rewrite (decode_encoded _ _ Ev). cbn. by rewrite (IH _ eq_refl).
Qed.

(** *** Decimal text *)

(** The value of more digits after [acc]. *)
Fixpoint digits_after (acc : Z) (d : uint) : Z :=
  match d with
  | Nil => acc
  | D0 d => digits_after (acc * 10) d | D1 d => digits_after (acc * 10 + 1) d | D2 d => digits_after (acc * 10 + 2) d
  | D3 d => digits_after (acc * 10 + 3) d | D4 d => digits_after (acc * 10 + 4) d | D5 d => digits_after (acc * 10 + 5) d
  | D6 d => digits_after (acc * 10 + 6) d | D7 d => digits_after (acc * 10 + 7) d | D8 d => digits_after (acc * 10 + 8) d
  | D9 d => digits_after (acc * 10 + 9) d
  end.

Lemma digits_after_pos d : ∀ p, digits_after (Zpos p) d = Zpos (Pos.of_uint_acc d p).
Proof. induction d; intros p; cbn [digits_after Pos.of_uint_acc]; [done|..]; rewrite <-IHd; f_equal; lia. Qed.

Lemma digits_after_zero d : digits_after 0 d = Z.of_uint d.
Proof. unfold Z.of_uint. induction d; cbn [digits_after Pos.of_uint]; [done|exact IHd|..]; exact (digits_after_pos d _). Qed.

Lemma read_digits_uint d : ∀ after acc n, (after = true ∨ d ≠ Nil) →
  read_digits after acc n (String.list_ascii_of_string (NilEmpty.string_of_uint d)) = Some (digits_after acc d, (n + nb_digits d)%nat).
Proof.
  induction d; intros after acc n Ha; cbn [NilEmpty.string_of_uint String.list_ascii_of_string digits_after nb_digits].
  { destruct Ha as [->|]; [|done]. cbn. by rewrite Nat.add_0_r. }
  all: (etransitivity; [apply IHd; by left|]);
    match goal with |- Some (digits_after (_ + ?y) _, ?n) = Some (_, ?k) =>
      let v := eval vm_compute in y in change y with v; replace n with k by lia; rewrite ?Z.add_0_r; reflexivity end.
Qed.

Lemma lstrip_none l : forallb (λ c, negb (is_space c)) l = true → lstrip l = l.
Proof. destruct l as [|c l]; [done|]. cbn. intros [Hc _]%andb_true_iff. by destruct (is_space c). Qed.

Lemma strip_none l : forallb (λ c, negb (is_space c)) l = true → strip l = l.
Proof.
  intros H. unfold strip. rewrite (lstrip_none l), (lstrip_none (List.rev l)), rev_involutive; [done|..|done].
  apply forallb_forall. intros c Hc%List.in_rev. rewrite forallb_forall in H. by apply H.
Qed.

(** Numbers in use are far below the limit on the digits of an integer. *)
Definition short (n : Z) : Prop := (nb_digits (N.to_uint (Z.to_N n)) <= 4300)%nat.

Lemma digit_head c l : is_digit c = true →
  match c :: l with
  | c :: l' => if Ascii.eqb c "-" then (-1, l') else if Ascii.eqb c "+" then (1, l') else (1, c :: l')
  | [] => (1, [])
  end = (1, c :: l).
Proof.
  intros H. cbv beta iota. destruct (Ascii.eqb_spec c "-") as [->|]; [by vm_compute in H|]. destruct (Ascii.eqb_spec c "+") as [->|]; [by vm_compute in H|done].
Qed.

Lemma py_int_decimal n : 0 ≤ n → short n → py_int (String.list_ascii_of_string (JsonText.decimal n)) = Some n.
Proof.
  intros Hn Hs. assert (Hd : N.to_uint (Z.to_N n) ≠ Nil).
  { destruct n as [|p|p]; [done| |lia]. apply DecimalPos.Unsigned.to_uint_nonnil. }
  assert (Ei : Z.to_int n = Pos (N.to_uint (Z.to_N n))) by (destruct n; [done|done|lia]).
  unfold JsonText.decimal. rewrite Ei. cbn [NilZero.string_of_int].
  assert (NilZero.string_of_uint (N.to_uint (Z.to_N n)) = NilEmpty.string_of_uint (N.to_uint (Z.to_N n))) as -> by by destruct (N.to_uint (Z.to_N n)).
  unfold py_int. rewrite strip_none.
  2: { clear. induction (N.to_uint (Z.to_N n)) as [|u IHu|u IHu|u IHu|u IHu|u IHu|u IHu|u IHu|u IHu|u IHu|u IHu]; [done|..]; exact IHu. }
  assert (Hr := read_digits_uint (N.to_uint (Z.to_N n)) false 0 0 (or_intror Hd)). rewrite digits_after_zero in Hr.
  assert (Hz : Z.of_uint (N.to_uint (Z.to_N n)) = n).
  { transitivity (Z.of_int (Z.to_int n)); [by rewrite Ei|apply DecimalZ.of_to]. }
  rewrite Hz in Hr. destruct (String.list_ascii_of_string (NilEmpty.string_of_uint (N.to_uint (Z.to_N n)))) as [|c l] eqn:El; [done|].
  rewrite digit_head.
  - rewrite Hr. cbn [Nat.add]. rewrite (proj2 (Z.leb_le _ _)) by (unfold short, max_str_digits in *; lia). by rewrite Z.mul_1_l.
  - destruct (N.to_uint (Z.to_N n)); cbn in El; simplify_eq; done.
Qed.

Lemma string_of_str_bytes s : map (λ c, ascii_of_N (Z.to_N c)) (str_bytes s) = String.list_ascii_of_string s.
Proof.
  unfold str_bytes. rewrite map_map. etransitivity; [apply map_ext|apply map_id]. intros a. by rewrite N2Z.id, ascii_N_embedding.
Qed.

Lemma decimal_ascii n : forallb (λ c, (0 <=? c) && (c <? 128)) (str_bytes (JsonText.decimal n)) = true.
Proof.
  apply forallb_forall. intros c (a & <- & Ha)%in_map_iff. pose proof (JsonText.decimal_int_chars n) as H.
  rewrite forallb_forall in H. apply H in Ha. unfold JsonText.int_char in Ha. cbn zeta in Ha.
  apply orb_true_iff in Ha. rewrite andb_true_iff, Z.eqb_eq, !Z.leb_le in Ha. apply andb_true_iff. rewrite Z.leb_le, Z.ltb_lt. lia.
Qed.

Lemma int_of_decimal wide_int n : 0 ≤ n → short n → int_of wide_int (str_bytes (JsonText.decimal n)) = Some n.
Proof. intros Hn Hs. unfold int_of. rewrite decimal_ascii, string_of_str_bytes. by apply py_int_decimal. Qed.

Section roundtrips.
Context (repr_float : pyfloat → points) (read_float : points → option pyfloat) (wide_int : points → option Z).
Hypothesis read_repr : ∀ x, read_float (repr_float x) = Some x.

(** a scan job is read as it was sent.  Whatever text the identifiers hold, an entry
    that was written is read back with the same fields, the engines in their order, as
    long as no engine's name has a comma and the list is not a single empty name. *)
Theorem scan_job_roundtrip id mid scan_id content_hash artifact_key deadline engines w :
  Forall (λ e, comma ∉ e) engines → engines ≠ [[]] →
  decode_points id = Some mid →
  encode_fields (scan_job_fields repr_float scan_id content_hash artifact_key deadline engines) = Ok w →
  parse_scan_job read_float id w = Ok (mkScanJobMessage mid scan_id content_hash artifact_key deadline engines).
Proof.
  intros He Hne Hid Hw%fields_decoded. unfold parse_scan_job. rewrite Hw. unfold _decode. rewrite Hid.
  assert (bool_decide (join_on comma engines = []) = bool_decide (engines = [])) as Hb.
  { apply bool_decide_ext. split; [|by intros ->]. intros E. destruct engines as [|[|c e] [|e' l]]; cbn in E; done. }
  cbn [mbind result_bind].
  rewrite (eq_refl : index (str_bytes "scan_id") (scan_job_fields repr_float scan_id content_hash artifact_key deadline engines) = Ok scan_id),
    (eq_refl : index (str_bytes "content_hash") (scan_job_fields repr_float scan_id content_hash artifact_key deadline engines) = Ok content_hash),
    (eq_refl : index (str_bytes "artifact_key") (scan_job_fields repr_float scan_id content_hash artifact_key deadline engines) = Ok artifact_key),
    (eq_refl : index (str_bytes "deadline_epoch") (scan_job_fields repr_float scan_id content_hash artifact_key deadline engines) = Ok (repr_float deadline)),
    (eq_refl : index (str_bytes "engines") (scan_job_fields repr_float scan_id content_hash artifact_key deadline engines) = Ok (join_on comma engines)).
  cbn [mbind result_bind]. rewrite read_repr. cbn [mbind result_bind]. rewrite Hb. f_equal. f_equal.
  clear Hb. case_bool_decide as E; [by rewrite E|by apply split_join].
Qed.

(** a result is read as it was sent.  An entry that was written is read back with the
    same fields; its time is the one that was measured, or absent when none was. *)
Theorem result_roundtrip id mid scan_id findings_key engine status ms w :
  (∀ n, ms = Some n → 0 ≤ n ∧ short n) →
  decode_points id = Some mid →
  encode_fields (result_fields scan_id findings_key engine status ms) = Ok w →
  parse_result wide_int id w = Ok (mkResultMessage mid scan_id findings_key engine status ms).
Proof.
  intros Hms Hid Hw%fields_decoded. unfold parse_result. rewrite Hw. unfold _decode. rewrite Hid. cbn [mbind result_bind].
  destruct ms as [n|].
  - destruct (Hms n eq_refl) as [Hn Hs].
    transitivity (Ok (mkResultMessage mid scan_id findings_key engine status
      (value ← int_of wide_int (str_bytes (JsonText.decimal n)); if value <? 0 then None else Some value)) : result AirlockError ResultMessage); [reflexivity|].
    rewrite int_of_decimal by done. cbn. by rewrite (proj2 (Z.ltb_ge n 0)).
  - reflexivity.
Qed.

(** timing never stops a result.  Whatever the time field of an entry holds, an entry
    with the four other fields is read; the time is a whole number of at least zero or
    absent, never an error. *)
Theorem bad_timing_is_ignored id mid scan_id findings_key engine status raw w :
  decode_points id = Some mid →
  encode_fields (result_fields scan_id findings_key engine status None ++ [(ANALYZE_DURATION_MS_FIELD, raw)]) = Ok w →
  ∃ ms, parse_result wide_int id w = Ok (mkResultMessage mid scan_id findings_key engine status ms) ∧
        ms = (n ← int_of wide_int raw; if n <? 0 then None else Some n).
Proof.
  intros Hid Hw%fields_decoded. unfold parse_result. rewrite Hw. unfold _decode. rewrite Hid. eexists. split; reflexivity.
Qed.
End roundtrips.

(** ** Delivery *)

(** A stream with what its groups have acknowledged. *)
Record Air := mkAir { air_stream : Stream; air_acked : gset (string * bytes) }.

Inductive air_step (a : Air) : Air → Prop :=
| air_add id w : air_step a (mkAir (xadd id w (air_stream a)) (air_acked a))
| air_ensure group : air_step a (mkAir (ensure_group group (air_stream a)) (air_acked a))
| air_claim now group count messages s' :
    xreadgroup now group count (air_stream a) = Some (messages, s') → air_step a (mkAir s' (air_acked a))
| air_reclaim now group min_idle messages s' :
    xautoclaim now group min_idle (air_stream a) = Some (messages, s') → air_step a (mkAir s' (air_acked a))
| air_ack group id : air_step a (mkAir (xack group id (air_stream a)) ({[ (group, id) ]} ∪ air_acked a)).

Definition accounted (entries : list (bytes * Wire)) (acked : gset (string * bytes)) (group : string) (g : GroupState) : Prop :=
  ∀ e, e ∈ take (gr_given g) entries → e ∈ map pe_entry (gr_pending g) ∨ (group, e.1) ∈ acked.

Definition air_inv (a : Air) : Prop :=
  ∀ group g, st_groups (air_stream a) !! group = Some g →
    (gr_given g <= length (st_entries (air_stream a)))%nat ∧ accounted (st_entries (air_stream a)) (air_acked a) group g.

Lemma take_upto {A} k n (l : list A) : take (k + length (take n (drop k l))) l = take k l ++ take n (drop k l).
Proof.
  rewrite <-take_take_drop. f_equal. rewrite length_take. destruct (decide (n <= length (drop k l))%nat).
  - by rewrite Nat.min_l.
  - rewrite Nat.min_r, !take_ge by lia. done.
Qed.

Lemma redelivered_entries now ids l : map pe_entry (map (redelivered now ids) l) = map pe_entry l.
Proof. rewrite map_map. apply map_ext. intros p. unfold redelivered. by case_bool_decide. Qed.

(** What one group does leaves the others as they are. *)
Lemma with_group_inv a group g s acked :
  s = with_group group g (air_stream a) → air_inv a → air_acked a ⊆ acked →
  (gr_given g <= length (st_entries (air_stream a)))%nat → accounted (st_entries (air_stream a)) acked group g →
  air_inv (mkAir s acked).
Proof.
  intros -> Hinv Hsub Hlen Hacc group' g'. cbn. intros [[<- <-]|[Hne E]]%lookup_insert_Some; [done|].
  destruct (Hinv _ _ E) as [Hl Ha]. split; [done|]. intros e He. destruct (Ha e He); [by left|right; set_solver].
Qed.

Lemma air_step_inv a a' : air_inv a → air_step a a' → air_inv a'.
Proof.
  intros Hinv [id w|group|now group count messages s' E|now group min_idle messages s' E|group id].
  - intros group g E. cbn in E. destruct (Hinv _ _ E) as [Hl Ha]. split; cbn; [rewrite length_app; lia|].
    intros e He. cbn in He. rewrite take_app_le in He by done. by apply Ha.
  - unfold ensure_group. destruct (st_groups (air_stream a) !! group) eqn:E; [by destruct a|].
    eapply with_group_inv; [done|done|done|cbn; lia|]. intros e He. cbn in He. by apply elem_of_nil in He.
  - unfold xreadgroup in E. destruct (st_groups (air_stream a) !! group) as [g|] eqn:Eg; [|done]. cbn in E. simplify_eq.
    destruct (Hinv _ _ Eg) as [Hl Ha]. eapply with_group_inv; [done|done|done|cbn; rewrite length_take, length_drop; lia|].
    intros e He. cbn [gr_given gr_pending] in *. rewrite take_upto in He. rewrite map_app, map_map, map_id.
    apply elem_of_app in He as [He|He]; [destruct (Ha e He); [left; set_solver|by right]|left; set_solver].
  - unfold xautoclaim in E. destruct (st_groups (air_stream a) !! group) as [g|] eqn:Eg; [|done]. cbn in E. simplify_eq.
    destruct (Hinv _ _ Eg) as [Hl Ha]. eapply with_group_inv; [done|done|done|done|]. intros e He. cbn [gr_given gr_pending] in *.
    rewrite redelivered_entries. by apply Ha.
  - unfold xack. destruct (st_groups (air_stream a) !! group) as [g|] eqn:Eg.
    + destruct (Hinv _ _ Eg) as [Hl Ha]. eapply with_group_inv; [done|done|set_solver|done|]. intros e He. cbn [gr_given gr_pending] in *.
      destruct (decide (e.1 = id)) as [<-|Hne]; [right; set_solver|]. destruct (Ha e He) as [Hp|]; [left|right; set_solver].
      apply list_elem_of_fmap in Hp as (p & -> & Hp). apply list_elem_of_fmap. exists p. split; [done|]. by apply list_elem_of_filter.
    + intros group' g' E. destruct (Hinv _ _ E) as [Hl Ha]. split; [done|]. intros e He. destruct (Ha e He); [by left|right; set_solver].
Qed.

(** no entry is lost.  Whatever is added, claimed, taken over and acknowledged, in any
    order and by any number of groups, every entry of the stream still waits for a group,
    or is pending there to be taken over, or was acknowledged by that group itself; a
    group that is created late starts with every entry waiting. *)
Theorem no_entry_is_lost a group g e :
  rtc air_step (mkAir (mkStream [] ∅) ∅) a →
  st_groups (ensure_group group (air_stream a)) !! group = Some g → e ∈ st_entries (air_stream a) →
  e ∈ drop (gr_given g) (st_entries (air_stream a)) ∨ e ∈ map pe_entry (gr_pending g) ∨ (group, e.1) ∈ air_acked a.
Proof.
  intros Hr Hg He. assert (Hinv : air_inv a).
  { refine (rtc_ind_r (λ a, air_inv a) _ _ _ a Hr); [intros ? ? E; cbn in E; by rewrite lookup_empty in E|]. intros ? ? _ Hs Hi. by eapply air_step_inv. }
  unfold ensure_group in Hg. destruct (st_groups (air_stream a) !! group) as [g'|] eqn:E.
  - rewrite E in Hg. simplify_eq. rewrite <-(take_drop (gr_given g) (st_entries (air_stream a))) in He.
    apply elem_of_app in He as [He|He]; [|by left]. right. by apply (Hinv _ _ E).
  - cbn in Hg. rewrite lookup_insert_eq in Hg. simplify_eq. by left.
Qed.

(** ** An entry that cannot be read *)

Lemma decode_points_inj a b s :
  Forall (λ x, 0 ≤ x < 256) a → Forall (λ x, 0 ≤ x < 256) b → decode_points a = Some s → decode_points b = Some s → a = b.
Proof.
  unfold decode_points. intros Ha Hb H1 H2. destruct (forallb scalar (decode_utf8 a)); [|done]. destruct (forallb scalar (decode_utf8 b)); [|done].
  simplify_eq. rewrite <-(proj1 (decode_utf8_spec a Ha)), <-(proj1 (decode_utf8_spec b Hb)). congruence.
Qed.

Section stuck.
Context (wide_int : points → option Z) (idle : Z).
Local Abbreviation parse := (parse_result wide_int).
Local Abbreviation ids := (map (λ p, (pe_entry p).1)).

Definition pending_of (s : Stream) : list Pending := from_option gr_pending [] (st_groups s !! ORCHESTRATORS_GROUP).

Definition ids_of (out : Claimed ResultMessage) : list points := match out with claimed l => map rs_message_id l | _ => [] end.

Lemma parsed_from messages l m : _parse_results wide_int messages = Ok l → m ∈ l →
  ∃ e, e ∈ messages ∧ parse e.1 e.2 = Ok m ∧ decode_points e.1 = Some (rs_message_id m).
Proof.
  unfold _parse_results. revert l. induction messages as [|[id w] messages IH]; intros l H Hm; cbn in H; [simplify_eq; by apply elem_of_nil in Hm|].
  destruct (parse id w) as [m'|] eqn:E; [|done]. cbn in H. destruct (parse_batch parse messages) as [l'|] eqn:E'; [|done]. cbn in H. simplify_eq.
  apply elem_of_cons in Hm as [->|Hm].
  - exists (id, w). split; [by left|]. split; [done|]. cbn. unfold parse_result in E. destruct (_decode_fields w) as [d|]; [|done]. cbn [mbind result_bind] in E.
    unfold _decode in E. destruct (decode_points id) as [mid|]; [|done]. cbn [mbind result_bind] in E.
    do 4 (apply bind_Ok in E as (? & _ & E)). by simplify_eq.
  - destruct (IH l' eq_refl Hm) as (e & He & ?). exists e. split; [by right|done].
Qed.

Lemma unreadable_raises messages e err : e ∈ messages → parse e.1 e.2 = Err err → ∃ err', _parse_results wide_int messages = Err err'.
Proof.
  unfold _parse_results. intros He Hp. induction messages as [|[id w] messages IH]; [by apply elem_of_nil in He|]. cbn [parse_batch].
  apply elem_of_cons in He as [->|He]; [cbn [fst snd] in Hp; rewrite Hp; by eexists|]. destruct (parse id w); [|by eexists].
  destruct (IH He) as [err' ->]. by eexists.
Qed.

(** [b] and [v] are pending with the same time of delivery; identifiers are unique. *)
Record together (b v : bytes * Wire) (s : Stream) : Prop := {
  tg_ids : NoDup (map fst (st_entries s));
  tg_bytes : ∀ e, e ∈ st_entries s → Forall (λ x, 0 ≤ x < 256) e.1;
  tg_pending : NoDup (ids (pending_of s));
  tg_given : ∀ g p, st_groups s !! ORCHESTRATORS_GROUP = Some g → p ∈ gr_pending g → pe_entry p ∈ take (gr_given g) (st_entries s);
  tg_same : ∃ pb pv, pb ∈ pending_of s ∧ pv ∈ pending_of s ∧ pe_entry pb = b ∧ pe_entry pv = v ∧ pe_at pb = pe_at pv;
}.

(** Ticks of collectors, which acknowledge only what they were handed, and producers. *)
Inductive collector_step (s : Stream) : Stream → Prop :=
| step_tick now count out s1 acks :
    tick_claims wide_int now count idle s = (out, s1) → (length (pending_of s1) <= 100)%nat → acks ⊆ ids_of out →
    collector_step s (foldr ack_result s1 acks)
| step_add id w : id ∉ map fst (st_entries s) → Forall (λ x, 0 ≤ x < 256) id → collector_step s (xadd id w s).

Context (b v : bytes * Wire).
Hypothesis unreadable : ∃ err, parse b.1 b.2 = Err err.

Definition others (messages : list (bytes * Wire)) : Prop := ∀ e, e ∈ messages → e.1 ≠ b.1 ∧ e.1 ≠ v.1.

Lemma together_group s : together b v s → ∃ g, st_groups s !! ORCHESTRATORS_GROUP = Some g ∧ pending_of s = gr_pending g.
Proof.
  intros [_ _ _ _ (pb & pv & Hb & _)]. unfold pending_of in *. destruct (st_groups s !! ORCHESTRATORS_GROUP) as [g|]; [by exists g|]. by apply elem_of_nil in Hb.
Qed.

Lemma pending_with g s : pending_of (with_group ORCHESTRATORS_GROUP g s) = gr_pending g.
Proof. unfold pending_of. cbn. by rewrite lookup_insert_eq. Qed.

Lemma together_in s : together b v s → b ∈ st_entries s ∧ v ∈ st_entries s.
Proof.
  intros Ht. destruct (together_group s Ht) as (g & Eg & Ep). destruct Ht as [_ _ _ Hgiven (pb & pv & Hb & Hv & <- & <- & _)].
  rewrite Ep in *. split; eapply in_take; eauto.
Qed.

(** New entries are not among those already given. *)
Lemma fresh_apart k n (l : list (bytes * Wire)) e e' : NoDup (map fst l) → e ∈ take n (drop k l) → e' ∈ take k l → e.1 ≠ e'.1.
Proof.
  intros Hnd He He' E. apply elem_of_take in He as (i & Hi & _). rewrite <-(take_drop k l), map_app in Hnd.
  apply NoDup_app in Hnd as (_ & Hdis & _). apply (Hdis e'.1); [by apply (list_elem_of_fmap_2 fst)|]. rewrite <-E.
  apply (list_elem_of_fmap_2 fst). by eapply list_elem_of_lookup_2.
Qed.

Lemma together_claim now count s messages s' :
  together b v s → xreadgroup now ORCHESTRATORS_GROUP count s = Some (messages, s') → together b v s' ∧ others messages.
Proof.
  intros Ht E. destruct (together_group s Ht) as (g & Eg & Ep). unfold xreadgroup in E. rewrite Eg in E. cbn in E. simplify_eq.
  destruct Ht as [Hids Hby Hnd Hgiven (pb & pv & Hb & Hv & Eb & Ev & Hat)]. rewrite Ep in *.
  assert (Hapart : ∀ e p, e ∈ take count (drop (gr_given g) (st_entries s)) → p ∈ gr_pending g → e.1 ≠ (pe_entry p).1).
  { intros e p He Hp. eapply fresh_apart; eauto. }
  split; [split|].
  - done.
  - done.
  - rewrite pending_with. cbn. rewrite map_app, map_map. apply NoDup_app. split_and!; [done| |].
    + intros i (p & -> & Hp)%list_elem_of_fmap (e & E & He)%list_elem_of_fmap. by eapply Hapart.
    + cbn. rewrite <-(take_drop (gr_given g) (st_entries s)), map_app in Hids. apply NoDup_app in Hids as (_ & _ & Hids).
      rewrite <-(take_drop count (drop _ _)), map_app in Hids. by apply NoDup_app in Hids as (? & _).
  - intros g' p E' Hp. cbn in E'. rewrite lookup_insert_eq in E'. simplify_eq. cbn in *. rewrite take_upto.
    apply elem_of_app in Hp as [Hp|Hp]; apply elem_of_app; [left; by eapply Hgiven|right]. by apply list_elem_of_fmap in Hp as (e & -> & He).
  - exists pb, pv. rewrite pending_with. cbn. set_solver.
  - intros e He. rewrite <-Eb, <-Ev. eauto.
Qed.

Lemma together_reclaim now s messages s' :
  together b v s → xautoclaim now ORCHESTRATORS_GROUP idle s = Some (messages, s') → (length (pending_of s') <= 100)%nat →
  together b v s' ∧ (b ∈ messages ∨ others messages).
Proof.
  intros Ht E Hlen. destruct (together_group s Ht) as (g & Eg & Ep). unfold xautoclaim in E. rewrite Eg in E. cbn in E. simplify_eq.
  destruct Ht as [Hids Hby Hnd Hgiven (pb & pv & Hb & Hv & Eb & Ev & Hat)]. rewrite Ep in *.
  rewrite pending_with in Hlen. cbn in Hlen. rewrite length_map in Hlen.
  assert (Hst : stale now idle g = base.filter (λ p, idle ≤ now - pe_at p) (gr_pending g)).
  { unfold stale. rewrite (take_ge (gr_pending g)) by lia. apply take_ge. etransitivity; [apply length_filter|]. lia. }
  assert (Hbatch : ∀ p, p ∈ gr_pending g → (pe_entry p).1 ∈ ids (stale now idle g) ↔ idle ≤ now - pe_at p).
  { intros p Hp. rewrite Hst. split.
    - intros (q & E & [Hq Hin]%list_elem_of_filter)%list_elem_of_fmap. assert (p = q) as ->; [|done].
      by apply (key_inj (λ p, (pe_entry p).1) (gr_pending g)).
    - intros Hi. apply (list_elem_of_fmap_2 (λ p, (pe_entry p).1)). by apply list_elem_of_filter. }
  split; [split|].
  - done.
  - done.
  - rewrite pending_with. cbn. rewrite <-map_map, redelivered_entries, map_map. done.
  - intros g' p E' Hp. cbn in E'. rewrite lookup_insert_eq in E'. simplify_eq. cbn in *.
    apply list_elem_of_fmap in Hp as (q & -> & Hq). unfold redelivered. case_bool_decide; exact (Hgiven g q Eg Hq).
  - exists (redelivered now (ids (stale now idle g)) pb), (redelivered now (ids (stale now idle g)) pv). rewrite pending_with. cbn.
    split_and!; [by apply (list_elem_of_fmap_2 (redelivered _ _))|by apply (list_elem_of_fmap_2 (redelivered _ _))|..];
      unfold redelivered; repeat case_bool_decide; try done; rewrite !Hbatch in * by done; rewrite ?Hat in *; naive_solver.
  - destruct (decide (idle ≤ now - pe_at pb)) as [Hi|Hi].
    + left. rewrite <-Eb. apply (list_elem_of_fmap_2 pe_entry). rewrite Hst. by apply list_elem_of_filter.
    + right. intros e (p & -> & Hp)%list_elem_of_fmap. apply (list_elem_of_fmap_2 (λ p, (pe_entry p).1)) in Hp. rewrite <-Eb, <-Ev.
      split; intros E; rewrite E in Hp; apply Hbatch in Hp; try done. by rewrite <-Hat in Hp.
Qed.

Lemma together_ack s id : together b v s → id ≠ b.1 → id ≠ v.1 → together b v (xack ORCHESTRATORS_GROUP id s).
Proof.
  intros Ht Hb Hv. destruct (together_group s Ht) as (g & Eg & Ep). unfold xack. rewrite Eg.
  destruct Ht as [Hids Hby Hnd Hgiven (pb & pv & Hpb & Hpv & Eb & Ev & Hat)]. rewrite Ep in *. split; [done|done|..].
  - rewrite pending_with. cbn. by apply NoDup_fmap_filter.
  - intros g' p E' Hp. cbn in E'. rewrite lookup_insert_eq in E'. simplify_eq. cbn in *. apply list_elem_of_filter in Hp as [_ Hp]. by eapply Hgiven.
  - exists pb, pv. rewrite pending_with. cbn. rewrite !list_elem_of_filter. naive_solver.
Qed.

(** What is handed out from other entries has other identifiers. *)
Lemma others_ids s messages l mid id :
  together b v s → others messages → (∀ e, e ∈ messages → e ∈ st_entries s) →
  _parse_results wide_int messages = Ok l → mid ∈ map rs_message_id l → utf8 mid = Ok id → id ≠ b.1 ∧ id ≠ v.1.
Proof.
  intros Ht Ho Hin Hp (m & -> & Hm)%list_elem_of_fmap Hid%decode_points_utf8. destruct (parsed_from _ _ _ Hp Hm) as (e & He & _ & Hd).
  destruct (together_in s Ht) as [Hb Hv]. pose proof (tg_bytes _ _ _ Ht) as Hby.
  split; intros ->; [destruct (proj1 (Ho e He))|destruct (proj2 (Ho e He))]; eapply decode_points_inj; eauto.
Qed.

Lemma together_tick now count s out s' :
  together b v s → tick_claims wide_int now count idle s = (out, s') → (length (pending_of s') <= 100)%nat →
  together b v s' ∧ ∀ mid id, mid ∈ ids_of out → utf8 mid = Ok id → id ≠ b.1 ∧ id ≠ v.1.
Proof.
  intros Ht E Hlen. unfold tick_claims, claim_results, then_parse in E. destruct (together_group s Ht) as (g & Eg & _).
  destruct (xreadgroup now ORCHESTRATORS_GROUP count s) as [[new s1]|] eqn:Er; [|unfold xreadgroup in Er; by rewrite Eg in Er].
  destruct (together_claim _ _ _ _ _ Ht Er) as [Ht1 Ho1].
  assert (Hin1 : ∀ e, e ∈ new → e ∈ st_entries s1).
  { intros e He. unfold xreadgroup in Er. rewrite Eg in Er. cbn in Er. simplify_eq. apply in_take in He. cbn. rewrite <-(take_drop (gr_given g) (st_entries s)). apply elem_of_app. by right. }
  destruct (_parse_results wide_int new) as [fresh|] eqn:Ef; [|simplify_eq; split; [done|]; intros ? ? []%elem_of_nil].
  unfold reclaim_stale_results, then_parse in E. destruct (together_group s1 Ht1) as (g1 & Eg1 & Ep1).
  destruct (xautoclaim now ORCHESTRATORS_GROUP idle s1) as [[old s2]|] eqn:Ea; [|unfold xautoclaim in Ea; by rewrite Eg1 in Ea].
  assert (s' = s2) as -> by by destruct (_parse_results wide_int old); simplify_eq.
  destruct (together_reclaim _ _ _ _ Ht1 Ea Hlen) as [Ht2 Ho2]. split; [done|].
  destruct (_parse_results wide_int old) as [l|] eqn:El; [|simplify_eq; intros ? ? []%elem_of_nil]. simplify_eq.
  destruct Ho2 as [Hb|Ho2].
  { destruct unreadable as [err Herr]. destruct (unreadable_raises _ _ _ Hb Herr) as [? Hr]. by rewrite Hr in El. }
  assert (Hin2 : ∀ e, e ∈ old → e ∈ st_entries s1).
  { intros e He. unfold xautoclaim in Ea. rewrite Eg1 in Ea. cbn in Ea. simplify_eq. apply list_elem_of_fmap in He as (p & -> & Hp).
    unfold stale in Hp. apply in_take, list_elem_of_filter in Hp as [_ Hp]. apply in_take in Hp. eapply in_take, (tg_given _ _ _ Ht1); eauto. }
  intros mid id Hmid Hid. cbn in Hmid. rewrite map_app in Hmid. apply elem_of_app in Hmid as [Hm|Hm].
  - by apply (others_ids s1 new fresh mid).
  - by apply (others_ids s1 old l mid).
Qed.

Lemma together_acks s acks : together b v s → (∀ mid id, mid ∈ acks → utf8 mid = Ok id → id ≠ b.1 ∧ id ≠ v.1) →
  together b v (foldr ack_result s acks).
Proof.
  intros Ht Ha. induction acks as [|mid acks IH]; [done|]. cbn. unfold ack_result at 1. destruct (utf8 mid) as [id|] eqn:E.
  - apply together_ack; [apply IH; intros; eapply Ha; [by right|done]|..]; by apply (Ha mid id); [left|].
  - apply IH. intros. eapply Ha; [by right|done].
Qed.

Lemma together_step s s' : together b v s → collector_step s s' → together b v s'.
Proof.
  intros Ht [now count out s1 acks E Hlen Hacks|id w Hid Hby].
  - destruct (together_tick _ _ _ _ _ Ht E Hlen) as [Ht1 Hout]. apply together_acks; [done|]. intros mid id Hm. apply Hout. by apply Hacks.
  - destruct Ht as [H1 H2 H3 H4 H5]. split; cbn.
    + rewrite map_app. apply NoDup_app. split_and!; [done| |apply NoDup_singleton]. intros x Hx ->%list_elem_of_singleton. done.
    + intros e [He| ->%list_elem_of_singleton]%elem_of_app; [by apply H2|done].
    + done.
    + intros g p E Hp. assert (Hin := H4 g p E Hp). destruct (decide (gr_given g <= length (st_entries s))%nat).
      * by rewrite take_app_le.
      * rewrite take_ge in Hin by lia. rewrite take_app_ge by lia. apply elem_of_app. by left.
    + done.
Qed.

(** an unreadable result takes others with it.  When an entry that cannot be read and
    another result are pending since the same tick, no later tick of any collector ever
    hands out the other one either, as long as no more than a hundred results are pending:
    each time the two become old enough they are taken over together and the tick raises. *)
Theorem unreadable_result_strands_others s s' now count out s1 mid :
  together b v s → rtc collector_step s s' →
  tick_claims wide_int now count idle s' = (out, s1) → (length (pending_of s1) <= 100)%nat →
  utf8 mid = Ok v.1 → mid ∉ ids_of out.
Proof.
  intros Ht Hr E Hlen Hmid Hin. assert (Ht' : together b v s').
  { clear -Ht Hr unreadable. induction Hr as [|s s1 s' Hs _ IH]; [done|]. by apply IH, (together_step s). }
  destruct (together_tick _ _ _ _ _ Ht' E Hlen) as [_ Hout]. by destruct (Hout mid v.1 Hin Hmid) as [_ []].
Qed.
End stuck.

(** ** Instances *)

Module AirlockSamples.
Definition repr (x : pyfloat) : points := match x with Fin q => [Qnum q; Zpos (Qden q)] | Inf n => [if n then 1 else 0] | NaN => [] end.
Definition read (s : points) : option pyfloat :=
  match s with [n; d] => Some (Fin (n # Z.to_pos d)) | [n] => Some (Inf (n =? 1)) | [] => Some NaN | _ => None end.
Lemma read_repr x : read (repr x) = Some x.
Proof. destruct x as [[n d]|[]|]; done. Qed.
Definition no_int (s : points) : option Z := None.

Definition t (s : string) : points := str_bytes s.
Definition wire_of (fields : list (points * points)) : Wire := match encode_fields fields with Ok w => w | Err _ => [] end.

Lemma scan_job_roundtrip_witness :
  parse_scan_job read (t "1-0") (wire_of (scan_job_fields repr (t "s1") (t "h") [233; 44] (Fin 300) [t "a"; t "b"])) =
  Ok (mkScanJobMessage (t "1-0") (t "s1") (t "h") [233; 44] (Fin 300) [t "a"; t "b"]).
Proof.
  apply (scan_job_roundtrip repr read read_repr); [|done|vm_compute; reflexivity|vm_compute; reflexivity].
  repeat constructor; apply (bool_decide_unpack _); vm_compute; exact I.
Defined.

Lemma result_roundtrip_witness :
  parse_result no_int (t "1-0") (wire_of (result_fields (t "s1") (t "k") (t "yara") (t "ok") (Some 1500))) =
  Ok (mkResultMessage (t "1-0") (t "s1") (t "k") (t "yara") (t "ok") (Some 1500)).
Proof.
  apply result_roundtrip; [|vm_compute; reflexivity|vm_compute; reflexivity].
  intros n [= <-]. split; [lia|]. apply (bool_decide_unpack _). vm_compute. exact I.
Defined.

Lemma bad_timing_is_ignored_witness :
  ∃ ms, parse_result no_int (t "1-0") (wire_of (result_fields (t "s1") (t "k") (t "yara") (t "ok") None ++ [(ANALYZE_DURATION_MS_FIELD, t "soon")])) =
        Ok (mkResultMessage (t "1-0") (t "s1") (t "k") (t "yara") (t "ok") ms) ∧ ms = None.
Proof.
  destruct (bad_timing_is_ignored no_int (t "1-0") (t "1-0") (t "s1") (t "k") (t "yara") (t "ok") (t "soon")
    (wire_of (result_fields (t "s1") (t "k") (t "yara") (t "ok") None ++ [(ANALYZE_DURATION_MS_FIELD, t "soon")]))) as (ms & H1 & H2);
    [vm_compute; reflexivity|vm_compute; reflexivity|]. exists ms. split; [exact H1|]. rewrite H2. vm_compute. reflexivity.
Defined.

(** What [int] takes: spaces, signs and underscores; a negative time is dropped. *)
Example timings :
  map (λ raw, _parse_analyze_duration_ms no_int [(ANALYZE_DURATION_MS_FIELD, t raw)]) ["1500"; " 1_500 "; "-1"; "1.5"; ""] =
  [Some 1500; Some 1500; None; None; None].
Proof. vm_compute. reflexivity. Qed.

(** A list with one empty name is read as no names, and a comma makes two of one. *)
Example engine_names_on_the_wire :
  (sj_engines <$> match parse_scan_job read (t "1-0") (wire_of (scan_job_fields repr [] [] [] NaN [[]])) with Ok m => Some m | Err _ => None end,
   sj_engines <$> match parse_scan_job read (t "1-0") (wire_of (scan_job_fields repr [] [] [] NaN [t "a,b"])) with Ok m => Some m | Err _ => None end) =
  (Some [], Some [t "a"; t "b"]).
Proof. vm_compute. reflexivity. Qed.

(** A group that comes late, and one entry. *)
Definition one : Stream := xadd (t "1-0") [] (ensure_group "workers" (mkStream [] ∅)).

Lemma no_entry_is_lost_witness : (t "1-0", []) ∈ drop 0 (st_entries one) ∨ (t "1-0", []) ∈ map pe_entry [] ∨ ("sandbox", t "1-0") ∈ (∅ : gset (string * bytes)).
Proof.
  apply (no_entry_is_lost (mkAir one ∅) "sandbox" (mkGroupState 0 [])).
  - eapply rtc_l; [apply (air_ensure _ "workers")|]. eapply rtc_l; [apply (air_add _ (t "1-0") [])|]. apply rtc_refl.
  - vm_compute. reflexivity.
  - by apply list_elem_of_singleton.
Defined.

(** A result without its fields, and a good one claimed with it. *)
Definition bad : bytes * Wire := (t "1-0", []).
Definition good : bytes * Wire := (t "2-0", wire_of (result_fields (t "s1") (t "k") (t "yara") (t "ok") None)).
Definition claimed_together : Stream :=
  mkStream [bad; good] {[ ORCHESTRATORS_GROUP := mkGroupState 2 [mkPending bad 1 0; mkPending good 1 0] ]}.

Lemma claimed_together_ok : together bad good claimed_together.
Proof.
  split.
  - apply (bool_decide_unpack _). vm_compute. exact I.
  - intros e He. cbn in He. assert (bool_decide (Forall (λ x, 0 ≤ x < 256) e.1) = true) as H%bool_decide_eq_true; [|done].
    apply elem_of_cons in He as [->|He]; [vm_compute; reflexivity|]. apply list_elem_of_singleton in He as ->. vm_compute. reflexivity.
  - apply (bool_decide_unpack _). vm_compute. exact I.
  - intros g p E Hp. vm_compute in E. injection E as <-. cbn in Hp |- *.
    apply elem_of_cons in Hp as [->|Hp]; [by left|]. apply list_elem_of_singleton in Hp as ->. right. by left.
  - exists (mkPending bad 1 0), (mkPending good 1 0). split_and!; try done; [by left|right; by left].
Qed.

Lemma unreadable_result_strands_others_witness :
  t "2-0" ∉ ids_of (tick_claims no_int 60000 20 60000 claimed_together).1.
Proof.
  apply (unreadable_result_strands_others no_int 60000 bad good (ex_intro _ _ eq_refl) claimed_together claimed_together 60000 20
           _ (tick_claims no_int 60000 20 60000 claimed_together).2 _ claimed_together_ok (rtc_refl _ _)).
  - apply surjective_pairing.
  - apply (bool_decide_unpack _). vm_compute. exact I.
  - vm_compute. reflexivity.
Defined.

(** The tick of the example raises, and so does the one that follows. *)
Example ticks_keep_raising :
  (tick_claims no_int 60000 20 60000 claimed_together).1 = claim_raises (KeyError (t "scan_id")) ∧
  (tick_claims no_int 120000 20 60000 (tick_claims no_int 60000 20 60000 claimed_together).2).1 = claim_raises (KeyError (t "scan_id")).
Proof. split; vm_compute; reflexivity. Qed.
End AirlockSamples.
