(* ===== verification/JsonRead.v ===== *)
(** * [json.loads]

    The reader of Python's standard library, on the code points of a text.  A string
    keeps the code points the text escapes, lone surrogates among them, and a float keeps
    its literal.  What the callers tell apart is whether it raised ([ValueError], which a
    malformed text and an integer of more than 4300 digits give, or [RecursionError]) or
    what it returned.  The nesting at which the interpreter gives up is a parameter. *)

From S2P Require Import Prelude Canonical PyText.
Open Scope list_scope.
Open Scope Z_scope.

Inductive value :=
| v_null
| v_bool (b : bool)
| v_int (n : Z)
| v_float (literal : points)
| v_str (s : points)
| v_list (l : list value)
| v_dict (fields : list (points * value)).

(** [type(v).__name__] *)
Definition type_name (v : value) : string :=
  match v with
  | v_null => "NoneType" | v_bool _ => "bool" | v_int _ => "int" | v_float _ => "float" | v_str _ => "str"
  | v_list _ => "list" | v_dict _ => "dict"
  end.

(** A dict in insertion order: assigning to a present key keeps its place. *)
Fixpoint assign {A} (key : points) (v : A) (fields : list (points * A)) : list (points * A) :=
  match fields with
  | [] => [(key, v)]
  | (k, w) :: rest => if bool_decide (k = key) then (key, v) :: rest else (k, w) :: assign key v rest
  end.

Definition lookup_field {A} (key : points) (fields : list (points * A)) : option A :=
  snd <$> find (λ kv, bool_decide (kv.1 = key)) fields.

(** [dict(pairs)] *)
Definition dict_of {A} (pairs : list (points * A)) : list (points * A) :=
  foldl (λ d kv, assign kv.1 kv.2 d) [] pairs.

(** ** Tokens *)

Fixpoint drop_prefix (p s : points) : option points :=
  match p, s with
  | [], _ => Some s
  | c :: p, d :: s => if c =? d then drop_prefix p s else None
  | _, [] => None
  end.

(** The next character, when it is [c]. *)
Definition expect (c : Z) (s : points) : option points := drop_prefix [c] s.
Arguments expect : simpl never.

Definition json_space (c : Z) : bool := bool_decide (c ∈ [32; 9; 10; 13]).

Fixpoint skip_space (s : points) : points :=
  match s with c :: rest => if json_space c then skip_space rest else s | [] => [] end.

Definition ascii_digit (c : Z) : bool := (48 <=? c) && (c <=? 57).

Definition hex_value (c : Z) : option Z :=
  if ascii_digit c then Some (c - 48)
  else if (97 <=? c) && (c <=? 102) then Some (c - 87)
  else if (65 <=? c) && (c <=? 70) then Some (c - 55)
  else None.

Definition read_hex (s : points) : option (Z * points) :=
  match s with
  | a :: b :: c :: d :: rest =>
      a ← hex_value a; b ← hex_value b; c ← hex_value c; d ← hex_value d;
      Some (((a * 16 + b) * 16 + c) * 16 + d, rest)
  | _ => None
  end.

Definition high_surrogate (c : Z) : bool := (55296 <=? c) && (c <=? 56319).
Definition low_surrogate (c : Z) : bool := (56320 <=? c) && (c <=? 57343).
Definition surrogate (c : Z) : bool := high_surrogate c || low_surrogate c.

(** The code point of an escape that is one character, and that of [\u] for four digits:
    the low half of a pair is taken with the high half. *)
Definition short_escape (c : Z) : option Z :=
  if bool_decide (c ∈ [34; 92; 47]) then Some c
  else if c =? 98 then Some 8 else if c =? 102 then Some 12 else if c =? 110 then Some 10
  else if c =? 114 then Some 13 else if c =? 116 then Some 9 else None.

Definition pair_with (c : Z) (s : points) : Z * points :=
  match drop_prefix [92; 117] s ≫= read_hex with
  | Some (d, rest) =>
      if high_surrogate c && low_surrogate d then (65536 + (c - 55296) * 1024 + (d - 56320), rest) else (c, s)
  | None => (c, s)
  end.

(** After the opening quote, up to the closing one.  [fuel] is at least the length. *)
Fixpoint read_string (fuel : nat) (s : points) : option (points * points) :=
  match fuel, s with
  | S fuel, c :: rest =>
      if c =? 34 then Some ([], rest)
      else if c =? 92 then
        match rest with
        | e :: rest' =>
            if e =? 117 then
              h ← read_hex rest'; let p := pair_with h.1 h.2 in
              r ← read_string fuel p.2; Some (p.1 :: r.1, r.2)
            else d ← short_escape e; r ← read_string fuel rest'; Some (d :: r.1, r.2)
        | [] => None
        end
      else if c <? 32 then None
      else r ← read_string fuel rest; Some (c :: r.1, r.2)
  | _, _ => None
  end.

Fixpoint take_digits (s : points) : points * points :=
  match s with
  | c :: rest => if ascii_digit c then let r := take_digits rest in (c :: r.1, r.2) else ([], s)
  | [] => ([], [])
  end.

(** [0] or a run of digits that does not start with it. *)
Definition read_integer (s : points) : option (points * points) :=
  match s with
  | c :: rest => if c =? 48 then Some ([48], rest) else if ascii_digit c then Some (take_digits s) else None
  | [] => None
  end.

Definition read_fraction (s : points) : points * points :=
  match expect 46 s with
  | Some rest => match take_digits rest with ([], _) => ([], s) | (ds, rest') => (46 :: ds, rest') end
  | None => ([], s)
  end.

Definition read_exponent (s : points) : points * points :=
  match s with
  | e :: rest =>
      if (e =? 69) || (e =? 101) then
        let '(sign, rest') :=
          match rest with c :: r => if (c =? 43) || (c =? 45) then ([c], r) else ([], rest) | [] => ([], rest) end in
        match take_digits rest' with ([], _) => ([], s) | (ds, rest'') => (e :: sign ++ ds, rest'') end
      else ([], s)
  | [] => ([], s)
  end.

Definition digits_value (ds : points) : Z := foldl (λ acc c, acc * 10 + (c - 48)) 0 ds.

Definition read_number (s : points) : option (value * points) :=
  let '(sign, rest) := match expect 45 s with Some rest => ([45], rest) | None => ([], s) end in
  '(int, rest) ← read_integer rest;
  let '(frac, rest) := read_fraction rest in
  let '(expo, rest) := read_exponent rest in
  match frac ++ expo with
  | [] =>
      if max_str_digits <? Z.of_nat (length int) then None
      else Some (v_int (match sign with [] => digits_value int | _ => - digits_value int end), rest)
  | _ => Some (v_float (sign ++ int ++ frac ++ expo), rest)
  end.

(** The constants, longest names first where one starts like a number. *)
Definition CONSTANTS : list (points * value) :=
  [(str_bytes "null", v_null); (str_bytes "true", v_bool true); (str_bytes "false", v_bool false);
   (str_bytes "NaN", v_float (str_bytes "NaN")); (str_bytes "Infinity", v_float (str_bytes "Infinity"));
   (str_bytes "-Infinity", v_float (str_bytes "-Infinity"))].

Fixpoint read_constant (table : list (points * value)) (s : points) : option (value * points) :=
  match table with
  | [] => None
  | (name, v) :: table => match drop_prefix name s with Some rest => Some (v, rest) | None => read_constant table s end
  end.

Definition read_scalar (s : points) : option (value * points) :=
  match read_constant CONSTANTS s with Some r => Some r | None => read_number s end.

(** ** Values

    [depth]: how many containers may still be opened.  [fuel] is at least twice the
    length of the text, plus one ([read_value_fuel]). *)
Fixpoint read_value (fuel depth : nat) (s : points) : option (value * points) :=
  match fuel, s with
  | S fuel, c :: rest =>
      if c =? 34 then r ← read_string (length rest) rest; Some (v_str r.1, r.2)
      else if c =? 91 then
        match depth with
        | O => None
        | S depth =>
            match expect 93 (skip_space rest) with
            | Some rest => Some (v_list [], rest)
            | None => r ← read_elements fuel depth (skip_space rest); Some (v_list r.1, r.2)
            end
        end
      else if c =? 123 then
        match depth with
        | O => None
        | S depth =>
            match expect 125 (skip_space rest) with
            | Some rest => Some (v_dict [], rest)
            | None => r ← read_members fuel depth (skip_space rest); Some (v_dict (dict_of r.1), r.2)
            end
        end
      else read_scalar s
  | _, _ => None
  end
with read_elements (fuel depth : nat) (s : points) : option (list value * points) :=
  match fuel with
  | O => None
  | S fuel =>
      r ← read_value fuel depth s;
      let rest := skip_space r.2 in
      match expect 93 rest with
      | Some rest => Some ([r.1], rest)
      | None =>
          rest ← expect 44 rest;
          rs ← read_elements fuel depth (skip_space rest); Some (r.1 :: rs.1, rs.2)
      end
  end
with read_members (fuel depth : nat) (s : points) : option (list (points * value) * points) :=
  match fuel with
  | O => None
  | S fuel =>
      rest ← expect 34 s;
      key ← read_string (length rest) rest;
      rest ← expect 58 (skip_space key.2);
      r ← read_value fuel depth (skip_space rest);
      let rest := skip_space r.2 in
      match expect 125 rest with
      | Some rest => Some ([(key.1, r.1)], rest)
      | None =>
          rest ← expect 44 rest;
          rs ← read_members fuel depth (skip_space rest); Some ((key.1, r.1) :: rs.1, rs.2)
      end
  end.

(** [json.loads(text)]: a byte order mark is refused, and nothing but space may follow. *)
Definition json_loads (limit : nat) (text : points) : option value :=
  if bool_decide (head text = Some 65279) then None
  else
    let s := skip_space text in
    r ← read_value (2 * length s + 1) limit s;
    match skip_space r.2 with [] => Some r.1 | _ => None end.

(** ** The fuel is enough *)

Lemma drop_prefix_length p s rest : drop_prefix p s = Some rest → length s = (length p + length rest)%nat.
Proof.
  revert s. induction p as [|c p IH]; intros [|d s] E; cbn in *; simplify_eq; try done.
  destruct (c =? d); [|done]. apply IH in E. lia.
Qed.

Lemma skip_space_length s : (length (skip_space s) <= length s)%nat.
Proof. induction s as [|c s IH]; cbn; [done|]. destruct (json_space c); cbn; lia. Qed.

Lemma read_hex_length s h : read_hex s = Some h → (length h.2 < length s)%nat.
Proof. unfold read_hex. intros. do 4 (destruct s as [|? s]; [done|]). simplify_option_eq. cbn. lia. Qed.

Lemma pair_with_length c s : (length (pair_with c s).2 <= length s)%nat.
Proof.
  unfold pair_with. destruct (drop_prefix _ s ≫= read_hex) as [[d rest]|] eqn:E; [|done].
  apply bind_Some in E as (s' & E1%drop_prefix_length & E2%read_hex_length). cbn in *. destruct (_ && _); cbn; lia.
Qed.

Lemma read_string_length fuel s r : read_string fuel s = Some r → (length r.2 < length s)%nat.
Proof.
  revert s r. induction fuel as [|fuel IH]; intros [|c s] r E; try done. cbn in E.
  destruct (c =? 34); [injection E as <-; cbn; lia|]. destruct (c =? 92).
  - destruct s as [|e s]; [done|]. destruct (e =? 117).
    + apply bind_Some in E as (h & Hh%read_hex_length & (r' & Hr%IH & [= <-])%bind_Some).
      pose proof (pair_with_length h.1 h.2). cbn in *. lia.
    + apply bind_Some in E as (d & _ & (r' & Hr%IH & [= <-])%bind_Some). cbn in *. lia.
  - destruct (c <? 32); [done|]. apply bind_Some in E as (r' & Hr%IH & [= <-]). cbn in *. lia.
Qed.

Lemma take_digits_length s : (length (take_digits s).2 <= length s)%nat.
Proof. induction s as [|c s IH]; cbn; [done|]. destruct (ascii_digit c); cbn; lia. Qed.

Lemma read_integer_length s r : read_integer s = Some r → (length r.2 <= length s)%nat.
Proof.
  unfold read_integer. destruct s as [|c s]; [done|]. destruct (c =? 48); [intros [= <-]; cbn; lia|].
  destruct (ascii_digit c) eqn:Ec; [|done]. intros [= <-]. apply (take_digits_length (c :: s)).
Qed.

Lemma read_fraction_length s : (length (read_fraction s).2 <= length s)%nat.
Proof.
  unfold read_fraction, expect. destruct (drop_prefix [46] s) as [rest|] eqn:E; [|done]. apply drop_prefix_length in E.
  pose proof (take_digits_length rest). destruct (take_digits rest) as [[|d ds] rest']; cbn in *; lia.
Qed.

Lemma read_exponent_length s : (length (read_exponent s).2 <= length s)%nat.
Proof.
  unfold read_exponent. destruct s as [|e s]; [done|]. destruct (_ || _); [|done].
  set (p := match s with [] => _ | _ :: _ => _ end). assert (length p.2 <= length s)%nat as Hp.
  { subst p. destruct s as [|c s]; [done|]. destruct (_ || _); cbn; lia. }
  destruct p as [sign rest]. cbn in Hp. pose proof (take_digits_length rest).
  destruct (take_digits rest) as [[|d ds] rest']; cbn in *; lia.
Qed.

Lemma read_number_length s r : read_number s = Some r → (length r.2 <= length s)%nat.
Proof.
  unfold read_number, expect. set (p := match drop_prefix [45] s with Some _ => _ | None => _ end).
  assert (length p.2 <= length s)%nat as Hp.
  { subst p. destruct (drop_prefix [45] s) as [rest|] eqn:E; [|done]. apply drop_prefix_length in E. cbn in *. lia. }
  destruct p as [sign s']. cbn in Hp. intros ([int rest] & Hi%read_integer_length & E)%bind_Some. cbn in Hi.
  pose proof (read_fraction_length rest). destruct (read_fraction rest) as [frac rest'].
  pose proof (read_exponent_length rest'). destruct (read_exponent rest') as [expo rest'']. cbn in *.
  destruct (frac ++ expo); [destruct (_ <? _); [done|]|]; injection E as <-; cbn; lia.
Qed.

Lemma read_scalar_length s r : read_scalar s = Some r → (length r.2 <= length s)%nat.
Proof.
  unfold read_scalar. destruct (read_constant CONSTANTS s) as [r'|] eqn:E; [|apply read_number_length]. intros [= <-].
  revert E. generalize CONSTANTS. intros table. induction table as [|[name v] table IH]; cbn; [done|].
  destruct (drop_prefix name s) as [rest|] eqn:E; [|done]. intros [= <-]. apply drop_prefix_length in E. cbn. lia.
Qed.

Ltac skip_space_fact s :=
  lazymatch goal with
  | _ : (length (skip_space s) <= length s)%nat |- _ => fail
  | _ => pose proof (skip_space_length s)
  end.

(** Facts on lengths gathered from every step that was taken. *)
Ltac json_lengths :=
  repeat match goal with
  | H : _ ≫= _ = Some _ |- _ => apply bind_Some in H as (? & ? & ?)
  | H : Some _ = Some _ |- _ => injection H as <-
  | H : None = Some _ |- _ => discriminate H
  | H : expect _ _ = Some _ |- _ => apply drop_prefix_length in H
  | H : read_string _ _ = Some _ |- _ => apply read_string_length in H
  | H : context [match expect ?c ?s with Some _ => _ | None => _ end] |- _ => destruct (expect c s) eqn:?
  | |- context [skip_space ?s] => skip_space_fact s
  | H : context [skip_space ?s] |- _ => skip_space_fact s
  end.

Lemma read_lengths fuel :
  (∀ depth s r, read_value fuel depth s = Some r → length r.2 <= length s)%nat ∧
  (∀ depth s r, read_elements fuel depth s = Some r → length r.2 <= length s)%nat ∧
  (∀ depth s r, read_members fuel depth s = Some r → length r.2 <= length s)%nat.
Proof.
  induction fuel as [|fuel (IHv & IHe & IHm)]; [done|].
  split_and!; intros depth s r E;
    [destruct s as [|c s]; [done|]; cbn in E;
     destruct (c =? 34); [|destruct (c =? 91); [|destruct (c =? 123); [|by apply read_scalar_length in E]]; (destruct depth as [|depth]; [done|])]
    |cbn in E|cbn in E]; json_lengths;
    repeat match goal with
    | H : read_value _ _ _ = Some _ |- _ => apply IHv in H
    | H : read_elements _ _ _ = Some _ |- _ => apply IHe in H
    | H : read_members _ _ _ = Some _ |- _ => apply IHm in H
    end; cbn in *; lia.
Qed.

(** The fuel that [json_loads] gives is enough: with any larger amount the reader returns
    the same. *)
Lemma read_value_fuel f g depth s :
  (2 * length s + 1 <= f)%nat → (2 * length s + 1 <= g)%nat → read_value f depth s = read_value g depth s.
Proof.
  assert (∀ f g,
    (∀ depth s, (2 * length s + 1 <= f)%nat → (2 * length s + 1 <= g)%nat → read_value f depth s = read_value g depth s) ∧
    (∀ depth s, (2 * length s + 2 <= f)%nat → (2 * length s + 2 <= g)%nat → read_elements f depth s = read_elements g depth s) ∧
    (∀ depth s, (2 * length s + 2 <= f)%nat → (2 * length s + 2 <= g)%nat → read_members f depth s = read_members g depth s))
    as H; [|intros; by apply H].
  clear. induction f as [|f IH]; intros [|g]; [split_and!; intros; lia..|]. destruct (IH g) as (IHv & IHe & IHm).
  split_and!; intros depth s Hf Hg.
  - destruct s as [|c s]; [done|]. cbn [read_value length] in *. pose proof (skip_space_length s).
    destruct (c =? 34); [done|]. destruct (c =? 91); [|destruct (c =? 123); [|done]]; (destruct depth as [|depth]; [done|]).
    + by rewrite (IHe depth (skip_space s)) by lia.
    + by rewrite (IHm depth (skip_space s)) by lia.
  - cbn [read_elements]. rewrite (IHv depth s) by lia. destruct (read_value g depth s) as [r|] eqn:E; [|done]. cbn [mbind option_bind].
    apply (proj1 (read_lengths g)) in E. destruct (expect 93 _); [done|].
    destruct (expect 44 _) as [rest|] eqn:E44; [|done]. cbn [mbind option_bind]. json_lengths. cbn in *.
    by rewrite (IHe depth (skip_space rest)) by lia.
  - cbn [read_members]. destruct (expect 34 s) as [s'|] eqn:E34; [|done]. cbn [mbind option_bind].
    destruct (read_string _ s') as [key|] eqn:Ekey; [|done]. cbn [mbind option_bind].
    destruct (expect 58 _) as [t|] eqn:E58; [|done]. cbn [mbind option_bind]. json_lengths. cbn in *.
    rewrite (IHv depth (skip_space t)) by lia. destruct (read_value g depth _) as [r|] eqn:E; [|done]. cbn [mbind option_bind].
    apply (proj1 (read_lengths g)) in E. destruct (expect 125 _); [done|].
    destruct (expect 44 _) as [rest|] eqn:E44; [|done]. cbn [mbind option_bind]. json_lengths. cbn in *.
    by rewrite (IHm depth (skip_space rest)) by lia.
Qed.

(** ** Dicts *)

Lemma lookup_assign {A} key k (v : A) fields :
  lookup_field key (assign k v fields) = if bool_decide (k = key) then Some v else lookup_field key fields.
Proof.
  unfold lookup_field. induction fields as [|[k' w] fields IH]; cbn.
  - by destruct (bool_decide (k = key)).
  - destruct (decide (k' = k)) as [->|Hk].
    + rewrite (bool_decide_true (k = k)) by done. cbn. by destruct (bool_decide (k = key)).
    + rewrite (bool_decide_false (k' = k)) by done. cbn. destruct (decide (k' = key)) as [->|Hkey].
      * rewrite (bool_decide_true (key = key)), (bool_decide_false (k = key)) by congruence. done.
      * by rewrite (bool_decide_false (k' = key)) by done.
Qed.
