(* ===== verification/Regex.v ===== *)
(** * Python's regular expressions

    What the detectors use of [re]: the syntax of their patterns, and the backtracking
    matcher behind [search] and [finditer], on text as lists of code points.  The
    reference semantics [sem] says which words a pattern describes in a context; the
    matcher finds one exactly when there is one ([search_iff]).  Letters, digits and
    spaces are those of Unicode: [\s] is spelled out, and above ASCII [\w] and [\d] are
    read from the character database, a parameter ([wide_word], [wide_digit]).  Groups
    only group; where the code reads one, the pattern is given in parts ([match_parts]). *)

From S2P Require Import Prelude Canonical JsonText.
From Stdlib Require Import Ascii.
Open Scope string_scope.
Open Scope list_scope.
Open Scope Z_scope.

(** ** Patterns *)

Inductive item := i_char (c : Z) | i_range (lo hi : Z) | i_digit | i_word | i_space.

Inductive re :=
| r_eps
| r_set (neg : bool) (items : list item)
| r_seq (r1 r2 : re)
| r_alt (r1 r2 : re)
| r_rep (r : re) (least : nat) (most : option nat)
| r_lazy (r : re)
| r_bound
| r_bol
| r_eol
| r_not_behind (neg : bool) (items : list item)
| r_not_ahead (neg : bool) (items : list item).

(** *** Reading a pattern *)

Definition seq_of (r1 r2 : re) : re := match r2 with r_eps => r1 | _ => r_seq r1 r2 end.

Definition is_lower (c : Z) : bool := (97 <=? c) && (c <=? 122).
Definition is_upper (c : Z) : bool := (65 <=? c) && (c <=? 90).
Definition is_letter (c : Z) : bool := is_lower c || is_upper c.

(** The characters equal to [c] under [IGNORECASE], for ASCII and for scripts without
    case: three letters have equals outside ASCII. *)
Definition folded (c : Z) : list item :=
  if is_letter c then
    let l := if is_upper c then c + 32 else c in
    [i_char l; i_char (l - 32)] ++
    (if l =? 105 then [i_char 304; i_char 305] else if l =? 107 then [i_char 8490] else if l =? 115 then [i_char 383] else [])
  else [i_char c].

Definition char_items (ic : bool) (c : Z) : list item := if ic then folded c else [i_char c].

(** The character after a backslash. *)
Inductive escape := e_items (items : list item) | e_bound.
Definition escape_of (ic : bool) (c : Z) : option escape :=
  if c =? 100 then Some (e_items [i_digit])
  else if c =? 119 then Some (e_items [i_word])
  else if c =? 115 then Some (e_items [i_space])
  else if c =? 98 then Some e_bound
  else if is_letter c || ((48 <=? c) && (c <=? 57)) then None
  else Some (e_items (char_items ic c)).

(** A range of a class; under [IGNORECASE] only those of all letters and of digits are
    read: the letters have four equals outside ASCII. *)
Definition range_items (ic : bool) (a b : Z) : option (list item) :=
  if negb ic || ((48 <=? a) && (b <=? 57)) then Some [i_range a b]
  else if ((a =? 97) && (b =? 122)) || ((a =? 65) && (b =? 90)) then
    Some [i_range 97 122; i_range 65 90; i_char 304; i_char 305; i_char 8490; i_char 383]
  else None.

(** The items of a class, after its opening bracket (and caret). *)
Fixpoint read_class (ic : bool) (fuel : nat) (acc : list item) (s : points) : option (list item * points) :=
  match fuel, s with
  | S fuel, 93 :: s => match acc with [] => None | _ => Some (acc, s) end
  | S fuel, 92 :: c :: s =>
      match escape_of ic c with Some (e_items l) => read_class ic fuel (acc ++ l) s | _ => None end
  | S fuel, a :: 45 :: b :: s =>
      if b =? 93 then read_class ic fuel (acc ++ char_items ic a) (45 :: b :: s)
      else if b =? 92 then None
      else match range_items ic a b with Some l => read_class ic fuel (acc ++ l) s | None => None end
  | S fuel, a :: s => read_class ic fuel (acc ++ char_items ic a) s
  | _, _ => None
  end.

Fixpoint read_number (acc : option Z) (s : points) : option Z * points :=
  match s with
  | c :: s' => if (48 <=? c) && (c <=? 57) then read_number (Some (default 0 acc * 10 + (c - 48))) s' else (acc, s)
  | [] => (acc, s)
  end.

(** A quantifier after an atom; of the lazy ones [*?] is read, the possessive ones are not. *)
Definition plain_end (r : re) (s : points) : option (re * points) :=
  match s with 63 :: _ | 43 :: _ | 42 :: _ => None | _ => Some (r, s) end.

Definition read_quantifier (r : re) (s : points) : option (re * points) :=
  match s with
  | 63 :: s => plain_end (r_rep r 0 (Some 1%nat)) s
  | 42 :: 63 :: s => plain_end (r_lazy r) s
  | 42 :: s => plain_end (r_rep r 0 None) s
  | 43 :: s => plain_end (r_rep r 1 None) s
  | 123 :: s =>
      let '(lo, s) := read_number None s in
      match lo, s with
      | Some lo, 125 :: s => plain_end (r_rep r (Z.to_nat lo) (Some (Z.to_nat lo))) s
      | Some lo, 44 :: s =>
          let '(hi, s) := read_number None s in
          match s with 125 :: s => plain_end (r_rep r (Z.to_nat lo) (Z.to_nat <$> hi)) s | _ => None end
      | _, _ => None
      end
  | _ => Some (r, s)
  end.

Definition close (r : re) (s : points) : option (re * points) :=
  match s with 41 :: s => Some (r, s) | _ => None end.

(** [any]: what a dot does not match, a line feed unless under [DOTALL]. *)
Section reading.
Variable any : list item.

Fixpoint read_alt (ic : bool) (fuel : nat) (s : points) {struct fuel} : option (re * points) :=
  match fuel with
  | O => None
  | S fuel =>
      '(r, s) ← read_seq ic fuel s;
      match s with
      | 124 :: s => '(r', s) ← read_alt ic fuel s; Some (r_alt r r', s)
      | _ => Some (r, s)
      end
  end
with read_seq (ic : bool) (fuel : nat) (s : points) {struct fuel} : option (re * points) :=
  match fuel with
  | O => None
  | S fuel =>
      match s with
      | [] | 124 :: _ | 41 :: _ => Some (r_eps, s)
      | _ =>
          '(atom, s) ← read_atom ic fuel s;
          '(atom, s) ← read_quantifier atom s;
          '(rest, s) ← read_seq ic fuel s;
          Some (seq_of atom rest, s)
      end
  end
with read_atom (ic : bool) (fuel : nat) (s : points) {struct fuel} : option (re * points) :=
  match fuel with
  | O => None
  | S fuel =>
      match s with
      | 40 :: 63 :: 58 :: s => '(r, s) ← read_alt ic fuel s; close r s
      | 40 :: 63 :: 60 :: 33 :: s =>
          '(r, s) ← read_alt ic fuel s;
          match r with r_set neg items => close (r_not_behind neg items) s | _ => None end
      | 40 :: 63 :: 33 :: s =>
          '(r, s) ← read_alt ic fuel s;
          match r with r_set neg items => close (r_not_ahead neg items) s | _ => None end
      | 40 :: 63 :: _ => None
      | 40 :: s => '(r, s) ← read_alt ic fuel s; close r s
      | 91 :: 94 :: s => '(items, s) ← read_class ic fuel [] s; Some (r_set true items, s)
      | 91 :: s => '(items, s) ← read_class ic fuel [] s; Some (r_set false items, s)
      | 92 :: c :: s =>
          match escape_of ic c with Some (e_items l) => Some (r_set false l, s) | Some e_bound => Some (r_bound, s) | None => None end
      | 94 :: s => Some (r_bol, s)
      | 36 :: s => Some (r_eol, s)
      | 46 :: s => Some (r_set true any, s)
      | c :: s => if bool_decide (c ∈ [42; 43; 46; 63; 92; 123]) then None else Some (r_set false (char_items ic c), s)
      | [] => None
      end
  end.

End reading.

(** [re.compile]; [None] is a construct outside the subset. *)
Definition compile_with (any : list item) (ic : bool) (pattern : string) : option re :=
  let s := code_points pattern in
  match read_alt any ic (4 * length s + 4) s with Some (r, []) => Some r | _ => None end.
Definition compile (ic : bool) (pattern : string) : option re := compile_with [i_char 10] ic pattern.
Definition compile_dotall (pattern : string) : option re := compile_with [] false pattern.

(** ** Matching *)

Section matching.
Variables wide_word wide_digit : Z → bool.

Definition digit (c : Z) : bool := if c <? 128 then (48 <=? c) && (c <=? 57) else wide_digit c.
Definition word (c : Z) : bool :=
  if c <? 128 then is_letter c || ((48 <=? c) && (c <=? 57)) || (c =? 95) else wide_word c.
Definition space (c : Z) : bool :=
  ((9 <=? c) && (c <=? 13)) || ((28 <=? c) && (c <=? 32)) || (c =? 133) || (c =? 160) || (c =? 5760) ||
  ((8192 <=? c) && (c <=? 8202)) || (c =? 8232) || (c =? 8233) || (c =? 8239) || (c =? 8287) || (c =? 12288).

Definition in_item (c : Z) (i : item) : bool :=
  match i with
  | i_char d => c =? d
  | i_range lo hi => (lo <=? c) && (c <=? hi)
  | i_digit => digit c
  | i_word => word c
  | i_space => space c
  end.
Definition in_set (neg : bool) (items : list item) (c : Z) : bool := xorb neg (existsb (in_item c) items).

Definition head_in (p : Z → bool) (s : points) : bool := match s with c :: _ => p c | [] => false end.

(** [\b] between the text before, last character first, and the text after. *)
Definition boundary (before after : points) : bool := xorb (head_in word before) (head_in word after).

(** [$]: the end, or a line feed at the end. *)
Definition at_end (after : points) : bool := match after with [] => true | [10] => true | _ => false end.

(** *** The matcher: backtracking, in the order of preference, into a continuation *)

Section engine.
Context {A : Type}.
Abbreviation K := (points → points → option A).

(** One more turn is preferred to stopping; a turn must consume something. *)
Fixpoint repeat_m (turn : K → K) (fuel least : nat) (most : option nat) (k : K) (before after : points) : option A :=
  let stop := match least with O => k before after | S _ => None end in
  match fuel, most with
  | O, _ | _, Some O => stop
  | S fuel, _ =>
      match turn (λ b a, if Nat.ltb (length a) (length after)
                         then repeat_m turn fuel (pred least) (pred <$> most) k b a else None) before after with
      | Some x => Some x
      | None => stop
      end
  end.

(** Stopping is preferred to one more turn. *)
Fixpoint lazy_m (turn : K → K) (fuel : nat) (k : K) (before after : points) : option A :=
  match k before after with
  | Some x => Some x
  | None =>
      match fuel with
      | O => None
      | S fuel => turn (λ b a, if Nat.ltb (length a) (length after) then lazy_m turn fuel k b a else None) before after
      end
  end.

Fixpoint m (r : re) (k : K) (before after : points) : option A :=
  match r with
  | r_eps => k before after
  | r_set neg items =>
      match after with
      | c :: after => if in_set neg items c then k (c :: before) after else None
      | [] => None
      end
  | r_seq r1 r2 => m r1 (m r2 k) before after
  | r_alt r1 r2 => match m r1 k before after with Some x => Some x | None => m r2 k before after end
  | r_rep r least most => repeat_m (m r) (length after) least most k before after
  | r_lazy r => lazy_m (m r) (length after) k before after
  | r_bound => if boundary before after then k before after else None
  | r_bol => match before with [] => k before after | _ => None end
  | r_eol => if at_end after then k before after else None
  | r_not_behind neg items => if head_in (in_set neg items) before then None else k before after
  | r_not_ahead neg items => if head_in (in_set neg items) after then None else k before after
  end.
End engine.

(** The text before and after the end of the match at this place. *)
Definition match_at (r : re) (before after : points) : option (points * points) := m r (λ b a, Some (b, a)) before after.

Fixpoint search_from (r : re) (before after : points) : bool :=
  match match_at r before after with
  | Some _ => true
  | None => match after with c :: after => search_from r (c :: before) after | [] => false end
  end.

(** [re.search(pattern, text)]. *)
Definition search (r : re) (text : points) : bool := search_from r [] text.

(** [re.finditer(pattern, text)]: the matched words, for a pattern that matches no empty
    word; [skip] is what is left of the last match. *)
Fixpoint finditer_from (r : re) (skip : nat) (before after : points) : list points :=
  match after with
  | [] => []
  | c :: rest =>
      match skip with
      | S skip => finditer_from r skip (c :: before) rest
      | O =>
          match match_at r before after with
          | Some (_, tail) =>
              let n := (length after - length tail)%nat in
              take n after :: finditer_from r (pred n) (c :: before) rest
          | None => finditer_from r 0 (c :: before) rest
          end
      end
  end.
Definition finditer (r : re) (text : points) : list points := finditer_from r 0 [] text.

(** A pattern given in parts: the text left after each of them. *)
Fixpoint parts_m (rs : list re) (tails : list points) (before after : points) : option (list points) :=
  match rs with
  | [] => Some (reverse tails)
  | r :: rs => m r (λ b a, parts_m rs (a :: tails) b a) before after
  end.
Definition match_parts (rs : list re) (before after : points) : option (list points) := parts_m rs [] before after.

(** What a match from [after] to [tail] spans. *)
Definition span (after tail : points) : points := take (length after - length tail) after.

(** [re.sub], for a pattern that matches no empty word: [repl] makes the replacement from
    the text at the match and the tails of its parts. *)
Fixpoint sub_from (rs : list re) (repl : points → list points → points) (skip : nat) (before after : points) : points :=
  match after with
  | [] => []
  | c :: rest =>
      match skip with
      | S skip => sub_from rs repl skip (c :: before) rest
      | O =>
          match match_parts rs before after with
          | Some tails => repl after tails ++ sub_from rs repl (pred (length (span after (default [] (last tails))))) (c :: before) rest
          | None => c :: sub_from rs repl 0 (c :: before) rest
          end
      end
  end.
Definition sub (rs : list re) (repl : points → list points → points) (text : points) : points := sub_from rs repl 0 [] text.

(** [re.findall] of the one group that is the second of three parts. *)
Fixpoint findall_from (rs : list re) (skip : nat) (before after : points) : list points :=
  match after with
  | [] => []
  | c :: rest =>
      match skip with
      | S skip => findall_from rs skip (c :: before) rest
      | O =>
          match match_parts rs before after with
          | Some [a1; a2; a3] => span a1 a2 :: findall_from rs (pred (length (span after a3))) (c :: before) rest
          | _ => findall_from rs 0 (c :: before) rest
          end
      end
  end.
Definition findall (rs : list re) (text : points) : list points := findall_from rs 0 [] text.

(** [re.search(...).group(1)] of such a pattern. *)
Fixpoint group_from (rs : list re) (before after : points) : option points :=
  match match_parts rs before after with
  | Some [a1; a2; _] => Some (span a1 a2)
  | _ => match after with c :: after => group_from rs (c :: before) after | [] => None end
  end.
Definition search_group (rs : list re) (text : points) : option points := group_from rs [] text.

(** ** Reference semantics *)

(** The turns of a repetition, each of at least one character. *)
Fixpoint turns (P : points → points → points → Prop) (n : nat) (before w after : points) : Prop :=
  match n with
  | O => w = []
  | S n => ∃ w1 w2, w = w1 ++ w2 ∧ w1 ≠ [] ∧ P before w1 (w2 ++ after) ∧ turns P n (reverse w1 ++ before) w2 after
  end.

(** [sem r before w after]: the pattern describes [w] where it stands. *)
Fixpoint sem (r : re) (before w after : points) : Prop :=
  match r with
  | r_eps => w = []
  | r_set neg items => ∃ c, w = [c] ∧ in_set neg items c = true
  | r_seq r1 r2 => ∃ w1 w2, w = w1 ++ w2 ∧ sem r1 before w1 (w2 ++ after) ∧ sem r2 (reverse w1 ++ before) w2 after
  | r_alt r1 r2 => sem r1 before w after ∨ sem r2 before w after
  | r_rep r least most =>
      ∃ n, (least <= n)%nat ∧ from_option (λ most, n <= most)%nat True most ∧ turns (sem r) n before w after
  | r_lazy r => ∃ n, turns (sem r) n before w after
  | r_bound => w = [] ∧ boundary before after = true
  | r_bol => w = [] ∧ before = []
  | r_eol => w = [] ∧ at_end after = true
  | r_not_behind neg items => w = [] ∧ head_in (in_set neg items) before = false
  | r_not_ahead neg items => w = [] ∧ head_in (in_set neg items) after = false
  end.

(** The pattern describes a word somewhere in the text. *)
Definition found (r : re) (text : points) : Prop := ∃ before w after, text = reverse before ++ w ++ after ∧ sem r before w after.

(** ** The matcher finds a word exactly when there is one *)

Section correct.
Context {A : Type}.
Implicit Types k : points → points → option A.

Definition sound_m (P : points → points → points → Prop) (f : (points → points → option A) → points → points → option A) : Prop :=
  ∀ k b a x, f k b a = Some x → ∃ w a', a = w ++ a' ∧ P b w a' ∧ k (reverse w ++ b) a' = Some x.
Definition complete_m (P : points → points → points → Prop) (f : (points → points → option A) → points → points → option A) : Prop :=
  ∀ k b w a, P b w a → k (reverse w ++ b) a ≠ None → f k b (w ++ a) ≠ None.

Lemma repeat_sound P turn fuel least most :
  sound_m P turn →
  sound_m (λ b w a, ∃ n, (least <= n)%nat ∧ from_option (λ most, n <= most)%nat True most ∧ turns P n b w a)
    (repeat_m turn fuel least most).
Proof.
  intros Ht. revert least most. induction fuel as [|fuel IH]; intros least most k b a x.
  - cbn. destruct least; [|done]. intros Hk. exists [], a. split; [done|]. split; [|done]. exists 0%nat. destruct most; cbn; split_and!; (lia || done).
  - assert ((match least with O => k b a | S _ => None end) = Some x →
            ∃ w a', a = w ++ a' ∧ (∃ n, (least <= n)%nat ∧ from_option (λ most, n <= most)%nat True most ∧ turns P n b w a') ∧
              k (reverse w ++ b) a' = Some x) as Hstop.
    { destruct least; [|done]. intros Hk. exists [], a. split; [done|]. split; [|done]. exists 0%nat. destruct most; cbn; split_and!; (lia || done). }
    cbn [repeat_m]. destruct most as [[|most]|]; [exact Hstop|..];
      (destruct (turn _ b a) as [y|] eqn:E; [|exact Hstop]; intros [= ->]);
      apply Ht in E as (w1 & a1 & -> & HP & E);
      (destruct (Nat.ltb_spec (length a1) (length (w1 ++ a1))) as [Hl|]; [|done]);
      apply IH in E as (w2 & a2 & -> & (n & Hn & Hm & Htn) & Hk);
      rewrite !length_app in Hl;
      (exists (w1 ++ w2), a2; rewrite <-app_assoc; split; [done|]; split; [|by rewrite reverse_app, <-app_assoc]);
      exists (S n); cbn in Hm |- *; (split; [lia|]); (split; [lia || done|]); exists w1, w2;
      split_and!; try done; intros ->; cbn in Hl; lia.
Qed.

Lemma turns_le P n b w a : turns P n b w a → (n <= length w)%nat.
Proof.
  revert b w. induction n as [|n IH]; intros b w; cbn; [lia|].
  intros (w1 & w2 & -> & Hw & _ & H%IH). rewrite length_app. destruct w1; [done|cbn; lia].
Qed.

Lemma repeat_complete P turn :
  complete_m P turn → ∀ n fuel least most, (n <= fuel)%nat → (least <= n)%nat → from_option (λ most, n <= most)%nat True most →
  ∀ k b w a, turns P n b w a → k (reverse w ++ b) a ≠ None → repeat_m turn fuel least most k b (w ++ a) ≠ None.
Proof.
  intros Ht n. induction n as [|n IH]; intros fuel least most Hf Hl Hm k b w a.
  - cbn. intros -> Hk. cbn in Hk. replace least with 0%nat by lia. destruct fuel; [done|]. cbn.
    destruct most as [[|most]|]; [done|..]; by destruct (turn _ b a).
  - destruct fuel as [|fuel]; [lia|]. cbn [turns]. intros (w1 & w2 & -> & Hw & HP & Hn) Hk. rewrite <-app_assoc. cbn [repeat_m].
    rewrite reverse_app, <-app_assoc in Hk.
    assert (∀ most', (from_option (λ most, n <= most)%nat True most') →
      turn (λ b' a', if Nat.ltb (length a') (length (w1 ++ w2 ++ a)) then repeat_m turn fuel (pred least) most' k b' a' else None)
        b (w1 ++ w2 ++ a) ≠ None) as Hturn.
    { intros most' Hm'. apply Ht; [done|]. destruct (Nat.ltb_spec (length (w2 ++ a)) (length (w1 ++ w2 ++ a))) as [_|Hlen].
      - apply IH; [lia|lia|done|done|done].
      - rewrite !length_app in Hlen. destruct w1; [done|]. cbn in Hlen. lia. }
    destruct most as [[|most]|]; [cbn in Hm; lia|..].
    + cbn [fmap option_fmap option_map]. specialize (Hturn (Some most) ltac:(cbn in *; lia)). cbn [pred].
      destruct (turn _ _ _); [done|by destruct Hturn].
    + specialize (Hturn None I). cbn [fmap option_fmap option_map]. destruct (turn _ _ _); [done|by destruct Hturn].
Qed.

Lemma lazy_sound P turn fuel : sound_m P turn → sound_m (λ b w a, ∃ n, turns P n b w a) (lazy_m turn fuel).
Proof.
  intros Ht. induction fuel as [|fuel IH]; intros k b a x; cbn [lazy_m]; (destruct (k b a) as [y|] eqn:Ek;
    [intros [= ->]; exists [], a; split; [done|]; split; [by exists 0%nat|done]|]); [done|].
  intros (w1 & a1 & -> & HP & E)%Ht. destruct (Nat.ltb_spec (length a1) (length (w1 ++ a1))) as [Hl|]; [|done].
  apply IH in E as (w2 & a2 & -> & [n Hn] & Hk). rewrite !length_app in Hl. exists (w1 ++ w2), a2. rewrite <-app_assoc. split; [done|].
  split; [|by rewrite reverse_app, <-app_assoc]. exists (S n), w1, w2. split_and!; try done. intros ->. cbn in Hl. lia.
Qed.

Lemma lazy_complete P turn : complete_m P turn → ∀ n fuel, (n <= fuel)%nat →
  ∀ k b w a, turns P n b w a → k (reverse w ++ b) a ≠ None → lazy_m turn fuel k b (w ++ a) ≠ None.
Proof.
  intros Ht n. induction n as [|n IH]; intros fuel Hf k b w a.
  - cbn. intros -> Hk. cbn in Hk |- *. destruct fuel; cbn; by destruct (k b a).
  - destruct fuel as [|fuel]; [lia|]. cbn [turns]. intros (w1 & w2 & -> & Hw & HP & Hn) Hk. rewrite <-app_assoc. cbn [lazy_m].
    destruct (k b _); [done|]. rewrite reverse_app, <-app_assoc in Hk. apply Ht; [done|].
    destruct (Nat.ltb_spec (length (w2 ++ a)) (length (w1 ++ w2 ++ a))) as [_|Hlen]; [apply IH; [lia|done|done]|].
    rewrite !length_app in Hlen. destruct w1; [done|]. cbn in Hlen. lia.
Qed.

Lemma m_sound r : sound_m (sem r) (m r).
Proof.
  induction r as [|neg items|r1 IH1 r2 IH2|r1 IH1 r2 IH2|r IH least most|r IH| | | |neg items|neg items]; intros k b a x; cbn [m sem].
  - intros Hk. by exists [], a.
  - destruct a as [|c a]; [done|]. destruct (in_set neg items c) eqn:E; [|done]. intros Hk. exists [c], a. naive_solver.
  - intros (w1 & a1 & -> & H1 & (w2 & a2 & -> & H2 & Hk)%IH2)%IH1.
    exists (w1 ++ w2), a2. rewrite reverse_app, <-!app_assoc. naive_solver.
  - destruct (m r1 k b a) as [y|] eqn:E; [intros [= ->]; apply IH1 in E as (w & a' & ? & ? & ?)|intros (w & a' & ? & ? & ?)%IH2];
      exists w, a'; naive_solver.
  - intros H. exact (repeat_sound _ _ _ _ _ IH k b a x H).
  - intros H. exact (lazy_sound _ _ _ IH k b a x H).
  - destruct (boundary b a) eqn:E; [|done]. intros Hk. by exists [], a.
  - destruct b; [|done]. intros Hk. by exists [], a.
  - destruct (at_end a) eqn:E; [|done]. intros Hk. by exists [], a.
  - destruct (head_in _ b) eqn:E; [done|]. intros Hk. by exists [], a.
  - destruct (head_in _ a) eqn:E; [done|]. intros Hk. by exists [], a.
Qed.

Lemma m_complete r : complete_m (sem r) (m r).
Proof.
  induction r as [|neg items|r1 IH1 r2 IH2|r1 IH1 r2 IH2|r IH least most|r IH| | | |neg items|neg items]; intros k b w a; cbn [m sem].
  - by intros ->.
  - intros (c & -> & Hc) Hk. cbn. by rewrite Hc.
  - intros (w1 & w2 & -> & H1 & H2) Hk. rewrite <-app_assoc. apply IH1; [done|]. apply IH2; [done|].
    by rewrite reverse_app, <-app_assoc in Hk.
  - intros [H|H] Hk; [specialize (IH1 _ _ _ _ H Hk)|specialize (IH2 _ _ _ _ H Hk)]; destruct (m r1 k b (w ++ a)); done.
  - intros (n & Hl & Hm & Hn) Hk. eapply repeat_complete; [done| |done..].
    apply turns_le in Hn. rewrite length_app. lia.
  - intros [n Hn] Hk. eapply lazy_complete; [done| |done..]. apply turns_le in Hn. rewrite length_app. lia.
  - intros [-> Hb] Hk. cbn. by rewrite Hb.
  - by intros [-> ->] Hk.
  - intros [-> Hb] Hk. cbn. by rewrite Hb.
  - intros [-> Hb] Hk. cbn. by rewrite Hb.
  - intros [-> Hb] Hk. cbn. by rewrite Hb.
Qed.
End correct.

Lemma match_at_sound r b a b' a' : match_at r b a = Some (b', a') → ∃ w, a = w ++ a' ∧ b' = reverse w ++ b ∧ sem r b w a'.
Proof. intros (w & a1 & -> & Hs & [= <- <-])%m_sound. by exists w. Qed.

Lemma match_at_None r b w a : sem r b w a → match_at r b (w ++ a) ≠ None.
Proof. intros H. by apply (m_complete r _ _ _ _ H). Qed.

Lemma search_from_iff r b a :
  search_from r b a = true ↔ ∃ s w a', a = s ++ w ++ a' ∧ sem r (reverse s ++ b) w a'.
Proof.
  revert b. induction a as [|c a IH]; intros b; cbn [search_from].
  - destruct (match_at r b []) as [[b' a']|] eqn:E.
    + apply match_at_sound in E as (w & Hw & -> & Hs). split; [|done]. intros _. by exists [], w, a'.
    + split; [done|]. intros (s & w & a' & Ha & Hs). symmetry in Ha. apply app_eq_nil in Ha as [-> [-> ->]%app_eq_nil].
      by apply match_at_None in Hs.
  - destruct (match_at r b (c :: a)) as [[b' a']|] eqn:E.
    + apply match_at_sound in E as (w & Hw & -> & Hs). split; [|done]. intros _. by exists [], w, a'.
    + rewrite IH. split.
      * intros (s & w & a' & -> & Hs). exists (c :: s), w, a'. split; [done|]. by rewrite reverse_cons, <-app_assoc.
      * intros ([|d s] & w & a' & Ha & Hs); cbn in Ha.
        -- rewrite Ha in E. by apply match_at_None in Hs.
        -- simplify_eq. exists s, w, a'. split; [done|]. by rewrite reverse_cons, <-app_assoc in Hs.
Qed.

(** the matcher against its reference semantics.  Backtracking decides exactly whether
    the pattern describes a word somewhere in the text: it neither misses an occurrence
    nor invents one, and it always terminates. *)
Theorem search_iff r text : search r text = true ↔ found r text.
Proof.
  unfold search, found. rewrite search_from_iff. split.
  - intros (s & w & a & -> & Hs). exists (reverse s), w, a. rewrite reverse_involutive. by rewrite app_nil_r in Hs.
  - intros (b & w & a & -> & Hs). exists (reverse b), w, a. by rewrite reverse_involutive, app_nil_r.
Qed.

(** What [finditer] yields is described by the pattern where it stands. *)
Lemma finditer_sound r text x : x ∈ finditer r text → ∃ before after, text = reverse before ++ x ++ after ∧ sem r before x after.
Proof.
  unfold finditer. assert (∀ a skip b, x ∈ finditer_from r skip b a → ∃ s after, a = s ++ x ++ after ∧ sem r (reverse s ++ b) x after) as H.
  { induction a as [|c a IH]; intros skip b; cbn [finditer_from]; [by intros ?%elem_of_nil|].
    assert (∀ skip, x ∈ finditer_from r skip (c :: b) a → ∃ s after, c :: a = s ++ x ++ after ∧ sem r (reverse s ++ b) x after) as Hrest.
    { intros skip' (s & after & -> & Hs)%IH. exists (c :: s), after. split; [done|]. by rewrite reverse_cons, <-app_assoc. }
    destruct skip; [|by apply Hrest]. destruct (match_at r b (c :: a)) as [[b' tail]|] eqn:E; [|by apply Hrest].
    apply match_at_sound in E as (w & Hw & -> & Hs). rewrite Hw. intros [->|Hx]%elem_of_cons.
    - exists [], tail. rewrite length_app, Nat.add_sub, take_app_length. by rewrite <-Hw, Hw.
    - rewrite <-Hw. by eapply Hrest. }
  intros (s & after & -> & Hs)%H. exists (reverse s), after. rewrite reverse_involutive. by rewrite app_nil_r in Hs.
Qed.

(** [finditer] yields something exactly when the pattern occurs, if it describes no
    empty word. *)
Lemma finditer_nonempty r text :
  (∀ b a, ¬ sem r b [] a) → finditer r text ≠ [] ↔ found r text.
Proof.
  intros Hne. rewrite <-search_iff. unfold finditer, search. generalize (@nil Z). induction text as [|c a IH]; intros b; cbn [finditer_from search_from].
  - destruct (match_at r b []) as [[b' a']|] eqn:E; [|done].
    apply match_at_sound in E as (w & Hw & -> & Hs). symmetry in Hw. apply app_eq_nil in Hw as [-> ->]. by apply Hne in Hs.
  - destruct (match_at r b (c :: a)) as [[b' a']|] eqn:E; [done|apply IH].
Qed.

(** [finditer] yields a word that the pattern describes, if it describes no other word
    there and none that starts earlier and reaches into it. *)
Lemma finditer_complete r pre x post :
  x ≠ [] → sem r (reverse pre) x post →
  (∀ w a, w ++ a = x ++ post → sem r (reverse pre) w a → w = x) →
  (∀ s t w a, pre = s ++ t → t ≠ [] → w ++ a = t ++ x ++ post → sem r (reverse s) w a → (length w <= length t)%nat) →
  x ∈ finditer r (pre ++ x ++ post).
Proof.
  intros Hne Hsem Honly Hover. unfold finditer.
  assert (∀ t s skip, pre = s ++ t → (skip <= length t)%nat → x ∈ finditer_from r skip (reverse s) (t ++ x ++ post)) as H;
    [|apply (H pre []); [done|lia]].
  induction t as [|c t IH]; intros s skip Hpre Hskip; cbn [length] in Hskip.
  - rewrite app_nil_r in Hpre. subst s. destruct skip as [|skip]; [|lia]. destruct x as [|d x]; [done|].
    cbn [app finditer_from]. destruct (match_at r (reverse pre) (d :: x ++ post)) as [[b' tail]|] eqn:E.
    + apply match_at_sound in E as (w & Hw & -> & Hs). symmetry in Hw. rewrite (Honly w tail Hw Hs) in Hw.
      cbn [app] in Hw. injection Hw as Hw. apply elem_of_cons. left. subst.
      assert (tail = post) as -> by (by apply app_inv_head in Hw).
      cbn [length]. rewrite length_app, Nat.sub_succ_l, Nat.add_sub by lia. cbn [take]. by rewrite take_app_length.
    + by apply match_at_None in Hsem.
  - assert (∀ skip, (skip <= length t)%nat → x ∈ finditer_from r skip (c :: reverse s) (t ++ x ++ post)) as Hnext.
    { intros k Hk. rewrite <-reverse_snoc. apply IH; [by rewrite <-app_assoc|done]. }
    cbn [app finditer_from]. destruct skip as [|skip]; [|apply Hnext; lia].
    destruct (match_at r (reverse s) (c :: t ++ x ++ post)) as [[b' tail]|] eqn:E; [|apply Hnext; lia].
    apply match_at_sound in E as (w & Hw & -> & Hs). apply elem_of_cons. right. apply Hnext.
    symmetry in Hw. pose proof (Hover s (c :: t) w tail Hpre ltac:(done) Hw Hs) as Hl.
    apply (f_equal length) in Hw. cbn in Hw, Hl |- *. rewrite !length_app in *. lia.
Qed.

(** ** Parts *)

Lemma match_parts_sound r1 r2 b a tails : match_parts [r1; r2] b a = Some tails →
  ∃ w1 w2 a2, a = w1 ++ w2 ++ a2 ∧ tails = [w2 ++ a2; a2] ∧ sem r1 b w1 (w2 ++ a2) ∧ sem r2 (reverse w1 ++ b) w2 a2.
Proof.
  intros (w1 & a1 & -> & H1 & (w2 & a2 & -> & H2 & [= <-])%m_sound)%m_sound. by exists w1, w2, a2.
Qed.

Lemma match_parts_complete r1 r2 b w1 w2 a : sem r1 b w1 (w2 ++ a) → sem r2 (reverse w1 ++ b) w2 a →
  match_parts [r1; r2] b (w1 ++ w2 ++ a) ≠ None.
Proof. intros H1 H2. apply (m_complete r1 _ _ _ _ H1), (m_complete r2 _ _ _ _ H2). done. Qed.

Lemma span_app w a : span (w ++ a) a = w.
Proof. unfold span. by rewrite length_app, Nat.add_sub, take_app_length. Qed.

(** The matcher sees only the last character of the text before. *)
Definition same_edge (b b' : points) : Prop := head b = head b'.

Lemma head_in_edge p b b' : same_edge b b' → head_in p b = head_in p b'.
Proof. unfold same_edge. destruct b, b'; cbn; try done. by intros [= ->]. Qed.

Lemma repeat_edge {A} (turn : (points → points → option A) → points → points → option A) :
  (∀ k k' b b' a, same_edge b b' → (∀ b b' a, same_edge b b' → k b a = k' b' a) → turn k b a = turn k' b' a) →
  ∀ fuel least most k k' b b' a, same_edge b b' → (∀ b b' a, same_edge b b' → k b a = k' b' a) →
  repeat_m turn fuel least most k b a = repeat_m turn fuel least most k' b' a.
Proof.
  intros Ht fuel. induction fuel as [|fuel IH]; intros least most k k' b b' a Hb Hk; cbn [repeat_m]; rewrite (Hk b b' a Hb); [done|].
  assert (∀ least' most', turn (λ b a', if Nat.ltb (length a') (length a) then repeat_m turn fuel least' most' k b a' else None) b a =
                          turn (λ b a', if Nat.ltb (length a') (length a) then repeat_m turn fuel least' most' k' b a' else None) b' a) as Hturn.
  { intros least' most'. apply Ht; [done|]. intros b1 b1' a1 Hb1. destruct (Nat.ltb (length a1) (length a)); [by apply IH|done]. }
  destruct most as [[|most]|]; [done|..]; by rewrite Hturn.
Qed.

Lemma lazy_edge {A} (turn : (points → points → option A) → points → points → option A) :
  (∀ k k' b b' a, same_edge b b' → (∀ b b' a, same_edge b b' → k b a = k' b' a) → turn k b a = turn k' b' a) →
  ∀ fuel k k' b b' a, same_edge b b' → (∀ b b' a, same_edge b b' → k b a = k' b' a) →
  lazy_m turn fuel k b a = lazy_m turn fuel k' b' a.
Proof.
  intros Ht fuel. induction fuel as [|fuel IH]; intros k k' b b' a Hb Hk; cbn [lazy_m]; rewrite (Hk b b' a Hb); destruct (k' b' a); try done.
  apply Ht; [done|]. intros b1 b1' a1 Hb1. destruct (Nat.ltb (length a1) (length a)); [by apply IH|done].
Qed.

Lemma m_edge {A} r : ∀ (k k' : points → points → option A) b b' a,
  same_edge b b' → (∀ b b' a, same_edge b b' → k b a = k' b' a) → m r k b a = m r k' b' a.
Proof.
  induction r as [|neg items|r1 IH1 r2 IH2|r1 IH1 r2 IH2|r IH least most|r IH| | | |neg items|neg items]; intros k k' b b' a Hb Hk; cbn [m].
  - auto.
  - destruct a as [|c a]; [done|]. destruct (in_set neg items c); [|done]. by apply Hk.
  - apply IH1; [done|]. intros. by apply IH2.
  - rewrite (IH1 k k' b b' a Hb Hk), (IH2 k k' b b' a Hb Hk). done.
  - by apply repeat_edge.
  - by apply lazy_edge.
  - unfold boundary. rewrite (head_in_edge _ b b' Hb). destruct (xorb _ _); auto.
  - destruct b, b'; cbn in Hb; try done. by apply Hk.
  - destruct (at_end a); auto.
  - rewrite (head_in_edge _ b b' Hb). destruct (head_in _ b'); auto.
  - destruct (head_in _ a); auto.
Qed.

Lemma parts_edge rs : ∀ tails b b' a, same_edge b b' → parts_m rs tails b a = parts_m rs tails b' a.
Proof. induction rs as [|r rs IH]; intros tails b b' a Hb; cbn; [done|]. apply m_edge; [done|]. intros. by apply IH. Qed.

Lemma sub_edge rs repl a : ∀ skip b b', same_edge b b' → sub_from rs repl skip b a = sub_from rs repl skip b' a.
Proof.
  induction a as [|c a IH]; intros skip b b' Hb; [done|]. cbn [sub_from]. destruct skip; [|by apply IH].
  unfold match_parts. rewrite (parts_edge rs [] b b' (c :: a) Hb). destruct (parts_m _ _ _ _); f_equal; by apply IH.
Qed.

Lemma sub_skip rs repl w : ∀ b a, sub_from rs repl (length w) b (w ++ a) = sub_from rs repl 0 (reverse w ++ b) a.
Proof. induction w as [|c w IH]; intros b a; [done|]. cbn [length app sub_from]. rewrite IH. by rewrite reverse_cons, <-app_assoc. Qed.

(** ** Reading the reference semantics of common shapes *)

(** Literal text, then the rest. *)
Definition lits (s : points) (r : re) : re := foldr (λ c r, r_seq (r_set false [i_char c]) r) r s.

Lemma sem_lits s r b w a : sem (lits s r) b w a ↔ ∃ w', w = s ++ w' ∧ sem r (reverse s ++ b) w' a.
Proof.
  revert b w. induction s as [|c s IH]; intros b w; cbn [lits foldr sem app]; [naive_solver|].
  fold (lits s r). setoid_rewrite IH. split.
  - intros (? & ? & -> & (d & -> & Hd) & (w' & -> & Hs)). unfold in_set in Hd. cbn in Hd. rewrite orb_false_r in Hd. cbn in Hd.
    apply Z.eqb_eq in Hd as ->. exists w'. split; [done|]. by rewrite reverse_cons, <-app_assoc.
  - intros (w' & -> & Hs). exists [c], (s ++ w'). split; [done|]. split; [exists c; split; [done|]; unfold in_set; cbn; by rewrite Z.eqb_refl|].
    exists w'. split; [done|]. by rewrite reverse_cons, <-app_assoc in Hs.
Qed.

Lemma turns_set neg items n b w a :
  turns (sem (r_set neg items)) n b w a ↔ length w = n ∧ Forall (λ c, in_set neg items c = true) w.
Proof.
  revert b w. induction n as [|n IH]; intros b w; cbn [turns sem].
  - split; [intros ->; done|]. by intros [H%nil_length_inv _].
  - setoid_rewrite IH. split.
    + intros (? & w2 & -> & _ & (c & -> & Hc) & <- & Hw). by rewrite Forall_app, Forall_singleton.
    + intros [Hl Hw]. destruct w as [|c w]; [done|]. apply Forall_cons in Hw as [Hc Hw]. exists [c], w. cbn in Hl.
      split_and!; [done|done|by exists c|lia|done].
Qed.

Lemma sem_exactly neg items n b w a :
  sem (r_rep (r_set neg items) n (Some n)) b w a ↔ length w = n ∧ Forall (λ c, in_set neg items c = true) w.
Proof.
  cbn [sem from_option]. setoid_rewrite turns_set. split; [intros (k & ? & ? & <- & ?); split; [lia|done]|].
  intros [<- Hw]. exists (length w). by split_and!.
Qed.

Lemma sem_any_number neg items b w a :
  sem (r_rep (r_set neg items) 0 None) b w a ↔ Forall (λ c, in_set neg items c = true) w.
Proof.
  cbn [sem from_option]. setoid_rewrite turns_set. split; [by intros (k & _ & _ & _ & ?)|].
  intros Hw. exists (length w). split_and!; [lia|done|done|done].
Qed.

Lemma sem_some neg items b w a :
  sem (r_rep (r_set neg items) 1 None) b w a ↔ w ≠ [] ∧ Forall (λ c, in_set neg items c = true) w.
Proof.
  cbn [sem from_option]. setoid_rewrite turns_set. split.
  - intros (k & Hk & _ & <- & Hw). split; [|done]. by intros ->; cbn in Hk; lia.
  - intros [Hne Hw]. exists (length w). split_and!; [destruct w; [done|cbn; lia]|done|done|done].
Qed.

Lemma found_alt r1 r2 text : found (r_alt r1 r2) text ↔ found r1 text ∨ found r2 text.
Proof. unfold found. cbn [sem]. naive_solver. Qed.

Lemma found_set items text : found (r_set false items) text ↔ ∃ c, c ∈ text ∧ existsb (in_item c) items = true.
Proof.
  unfold found. cbn [sem]. split.
  - intros (b & w & a & -> & c & -> & Hc). exists c. split; [set_solver|done].
  - intros (c & (pre & post & ->)%list_elem_of_split & Hc). exists (reverse pre), [c], post. rewrite reverse_involutive.
    split; [done|]. by exists c.
Qed.

(** Literal text anywhere. *)
Lemma found_lits s text : found (lits s r_eps) text ↔ ∃ pre post, text = pre ++ s ++ post.
Proof.
  unfold found. setoid_rewrite sem_lits. split.
  - intros (b & w & a & -> & w' & -> & ->). exists (reverse b), a. by rewrite app_nil_r.
  - intros (pre & post & ->). exists (reverse pre), s, post. rewrite reverse_involutive. split; [done|].
    exists []. by rewrite app_nil_r.
Qed.

(** The words of a pattern that describes finitely many, wherever they stand. *)
Fixpoint words_of (r : re) : option (list points) :=
  match r with
  | r_eps => Some [[]]
  | r_set false items => mapM (λ i, match i with i_char c => Some [c] | _ => None end) items
  | r_seq r1 r2 => ws1 ← words_of r1; ws2 ← words_of r2; Some (w1 ← ws1; map (app w1) ws2)
  | r_alt r1 r2 => ws1 ← words_of r1; ws2 ← words_of r2; Some (ws1 ++ ws2)
  | r_rep r 0 (Some 1%nat) => ws ← words_of r; Some ([] :: base.filter (λ w, w ≠ []) ws)
  | _ => None
  end.

Lemma words_of_sem r ws b w a : words_of r = Some ws → sem r b w a ↔ w ∈ ws.
Proof.
  revert ws b w a. induction r as [|neg items|r1 IH1 r2 IH2|r1 IH1 r2 IH2|r IH least most|r IH| | | |neg items|neg items];
    intros ws b w a; cbn [words_of sem]; try done.
  - intros [= <-]. by rewrite list_elem_of_singleton.
  - destruct neg; [done|]. intros Hm. unfold in_set. cbn [xorb]. setoid_rewrite existsb_exists. split.
    + intros (c & -> & i & Hi%list_elem_of_In & Hc). destruct (mapM_member _ _ _ _ Hm Hi) as (x & Ei & Hx).
      destruct i; try done. cbn in Hc. apply Z.eqb_eq in Hc as ->. by simplify_eq.
    + intros Hw. destruct (mapM_source _ _ _ _ Hm Hw) as (i & Ei & Hi). destruct i as [c| | | |]; try done. simplify_eq.
      exists c. split; [done|]. exists (i_char c). rewrite <-list_elem_of_In. split; [done|]. cbn. by rewrite Z.eqb_refl.
  - destruct (words_of r1) as [ws1|]; [|done]. destruct (words_of r2) as [ws2|]; [|done]. intros [= <-].
    rewrite list_elem_of_bind. split.
    + intros (w1 & w2 & -> & H1 & H2). rewrite IH1 in H1 by done. rewrite IH2 in H2 by done. exists w1. split; [|done].
      by apply list_elem_of_fmap_2.
    + intros (w1 & (w2 & -> & H2)%list_elem_of_fmap & H1). exists w1, w2. split; [done|]. by rewrite IH1, IH2.
  - destruct (words_of r1) as [ws1|]; [|done]. destruct (words_of r2) as [ws2|]; [|done]. intros [= <-].
    by rewrite elem_of_app, IH1, IH2.
  - destruct least; [|done]. destruct most as [[|[|most]]|]; try done. destruct (words_of r) as [ws'|]; [|done]. intros [= <-].
    rewrite elem_of_cons, list_elem_of_filter. cbn [from_option]. split.
    + intros ([|[|n]] & _ & Hn & Ht); [by left|right|lia]. cbn in Ht. destruct Ht as (w1 & w2 & -> & Hne & Hs & ->).
      rewrite app_nil_r. split; [done|]. by rewrite IH in Hs.
    + intros [->|[Hne Hw]]; [by exists 0%nat; split_and!; [lia|lia|]|].
      exists 1%nat. split_and!; [lia|lia|]. cbn. exists w, []. rewrite app_nil_r. split_and!; [done|done| |done]. by rewrite IH.
Qed.

Lemma found_words r ws text :
  words_of r = Some ws → found r text ↔ ∃ w pre post, w ∈ ws ∧ text = pre ++ w ++ post.
Proof.
  intros H. unfold found. split.
  - intros (b & w & a & -> & Hs). exists w, (reverse b), a. by rewrite words_of_sem in Hs.
  - intros (w & pre & post & Hw & ->). exists (reverse pre), w, post. rewrite reverse_involutive. split; [done|]. by rewrite words_of_sem.
Qed.
End matching.
