(* ===== verification/Sessions.v ===== *)
(** * Session records: [gateway/auth/redis_session.py] and its three users

    Break-glass ([admin/breakglass.py]), SAML ([gateway/auth/saml.py]) and
    local-account ([admin/local_auth.py]) sessions are records in Redis under the
    hash of an opaque token, one key prefix per type.  [sha256] is the hex digest
    of the token's bytes and a parameter.  A stored text is what [json.loads] makes
    of it, [None] when it does not decode; instants are in milliseconds. *)

From S2P Require Import Prelude Json PyText.
From Stdlib Require Import QArith Ascii.
Open Scope string_scope.
Open Scope list_scope.
Open Scope Z_scope.

Abbreviation SessionStore := (gmap string (option json * Z)).

(** [GET]. *)
Definition redis_get (st : SessionStore) (now : Z) (key : string) : option (option json) :=
  match st !! key with
  | Some (v, expires) => if expires <=? now then None else Some v
  | None => None
  end.

(** ** [gateway/auth/middleware.py]: how long a session may last *)

Definition CSRF_COOKIE_MAX_AGE_S : Z := 604800.

Inductive TtlError := ttl_not_an_integer | ttl_too_long.

(** [raw] is the environment variable. *)
Definition session_ttl_from_env (raw : option string) (default_s : Z) : result TtlError Z :=
  ttl_s ← match raw with
          | None => Ok default_s
          | Some text =>
              match py_int (String.list_ascii_of_string text) with
              | None => Err ttl_not_an_integer
              | Some n => Ok n
              end
          end;
  if CSRF_COOKIE_MAX_AGE_S <? ttl_s then Err ttl_too_long else Ok ttl_s.

Section sessions.
Variable sha256 : string → string.

(** ** [redis_session.py] *)

Definition _storage_key (prefix token : string) : string := prefix +:+ sha256 token.

(** The new token is the caller's; [None] is Redis refusing an expiry that is not positive. *)
Definition create_session (key_prefix : string) (ttl_s : Z) (payload : json) (token : string) (now : Z)
    (st : SessionStore) : option SessionStore :=
  if ttl_s <=? 0 then None
  else Some (<[_storage_key key_prefix token := (Some payload, now + ttl_s * 1000)]> st).

Definition delete_session (key_prefix token : string) (st : SessionStore) : SessionStore :=
  delete (_storage_key key_prefix token) st.

Definition resolve_session (st : SessionStore) (now : Z) (key_prefix token : string) : option json :=
  match redis_get st now (_storage_key key_prefix token) with
  | Some (Some payload) => Some payload
  | _ => None
  end.

(** ** Break-glass *)

Definition BREAKGLASS_PREFIX : string := "skillscan:admin:breakglass:session:".

Definition create_breakglass_session (ttl_s : Z) (subject token : string) : Z → SessionStore → option SessionStore :=
  create_session BREAKGLASS_PREFIX ttl_s (JStr subject) token.

Definition resolve_breakglass_session (st : SessionStore) (now : Z) (token : string) : option string :=
  match resolve_session st now BREAKGLASS_PREFIX token with Some (JStr s) => Some s | _ => None end.

Definition revoke_breakglass_session : string → SessionStore → SessionStore := delete_session BREAKGLASS_PREFIX.

(** ** SAML *)

Definition _SAML_SESSION_KEY_PREFIX : string := "skillscan:auth:saml:session:".
Definition SAML_SESSION_TTL_S : Z := 28800.

Definition create_saml_session (subject : string) (roles : gset string) (token : string)
    : Z → SessionStore → option SessionStore :=
  create_session _SAML_SESSION_KEY_PREFIX SAML_SESSION_TTL_S
    (JObj [("subject", JStr subject); ("roles", JList (map JStr (sorted_set roles)))]) token.

Definition hashable (j : json) : bool := match j with JList _ | JObj _ => false | _ => true end.

Definition strings_of (l : list json) : gset string :=
  list_to_set (omap (λ j, match j with JStr s => Some s | _ => None end) l).

(** [frozenset(v)], of which only the strings can be a role; [None] is [TypeError]. *)
Definition frozenset_of (v : json) : option (gset string) :=
  match v with
  | JList l => if forallb hashable l then Some (strings_of l) else None
  | JStr s => Some (list_to_set (map (λ c, String c "") (String.list_ascii_of_string s)))
  | JObj fields => Some (list_to_set (map fst fields))
  | _ => None
  end.

Definition resolve_saml_session (st : SessionStore) (now : Z) (token : string) : option (json * gset string) :=
  match resolve_session st now _SAML_SESSION_KEY_PREFIX token with
  | Some (JObj fields) =>
      match json_get "subject" (JObj fields), json_get "roles" (JObj fields) with
      | Some subject, Some roles => pair subject <$> frozenset_of roles
      | _, _ => None
      end
  | _ => None
  end.

Definition revoke_saml_session : string → SessionStore → SessionStore := delete_session _SAML_SESSION_KEY_PREFIX.

(** ** Local accounts *)

Definition LOCAL_PREFIX : string := "skillscan:admin:local:session:".

Definition create_local_session (ttl_s : Z) (subject role token : string) : Z → SessionStore → option SessionStore :=
  create_session LOCAL_PREFIX ttl_s (JObj [("subject", JStr subject); ("role", JStr role)]) token.

Definition resolve_local_session (st : SessionStore) (now : Z) (token : string) : option (json * json) :=
  match resolve_session st now LOCAL_PREFIX token with
  | Some (JObj fields) =>
      match json_get "subject" (JObj fields), json_get "role" (JObj fields) with
      | Some subject, Some role => Some (subject, role)
      | _, _ => None
      end
  | _ => None
  end.

Definition revoke_local_session : string → SessionStore → SessionStore := delete_session LOCAL_PREFIX.

(** ** The store's laws *)

Definition session_prefixes : list string := [BREAKGLASS_PREFIX; _SAML_SESSION_KEY_PREFIX; LOCAL_PREFIX].

(** No record of one type can be read as another's, whatever the digests are. *)
Lemma storage_key_inj p q t u :
  p ∈ session_prefixes → q ∈ session_prefixes →
  _storage_key p t = _storage_key q u → p = q ∧ sha256 t = sha256 u.
Proof.
  unfold session_prefixes, _storage_key. rewrite !elem_of_cons, !elem_of_nil.
  intros [->|[->|[->|[]]]] [->|[->|[->|[]]]] E; try discriminate E; (split; [done|]);
    by apply (inj (String.app _)) in E.
Qed.

Lemma resolve_created p q ttl payload t u now later st st' :
  p ∈ session_prefixes → q ∈ session_prefixes → create_session p ttl payload t now st = Some st' →
  resolve_session st' later q u =
    if bool_decide (p = q ∧ sha256 t = sha256 u)
    then (if later <? now + ttl * 1000 then Some payload else None)
    else resolve_session st later q u.
Proof.
  intros Hp Hq. unfold create_session. destruct (ttl <=? 0); [done|]. intros [= <-].
  unfold resolve_session, redis_get. case_bool_decide as E.
  - destruct E as [<- E]. unfold _storage_key. rewrite E, lookup_insert_eq. rewrite Z.leb_antisym.
    by destruct (later <? now + ttl * 1000).
  - rewrite lookup_insert_ne; [done|]. intros H. by apply E, storage_key_inj.
Qed.

Lemma resolve_deleted p q t u now st :
  p ∈ session_prefixes → q ∈ session_prefixes →
  resolve_session (delete_session p t st) now q u =
    if bool_decide (p = q ∧ sha256 t = sha256 u) then None else resolve_session st now q u.
Proof.
  intros Hp Hq. unfold resolve_session, redis_get, delete_session. case_bool_decide as E.
  - destruct E as [<- E]. unfold _storage_key. by rewrite E, lookup_delete_eq.
  - rewrite lookup_delete_ne; [done|]. intros H. by apply E, storage_key_inj.
Qed.

Lemma resolve_expires st now later p t payload :
  resolve_session st later p t = Some payload → now <= later → resolve_session st now p t = Some payload.
Proof.
  unfold resolve_session, redis_get. destruct (st !! _) as [[v e]|]; [|done]. intros H Hle.
  destruct (e <=? later) eqn:E; [done|]. apply Z.leb_gt in E. by rewrite (proj2 (Z.leb_gt e now)) by lia.
Qed.

Lemma strings_of_JStr l : strings_of (map JStr l) = list_to_set l.
Proof. unfold strings_of. f_equal. induction l as [|x l IH]; cbn; [done|]. by f_equal. Qed.

(** The roles a SAML login stored are the roles read back. *)
Lemma frozenset_sorted roles : frozenset_of (JList (map JStr (sorted_set roles))) = Some roles.
Proof.
  cbn. rewrite (proj2 (forallb_true _ _)).
  - rewrite strings_of_JStr. f_equal. apply set_eq. intros x. by rewrite elem_of_list_to_set, elem_of_sorted_set.
  - intros j Hj. rewrite list_elem_of_In, in_map_iff in Hj. by destruct Hj as (s & <- & _).
Qed.
End sessions.
