(* ===== verification/Limits.v ===== *)
(** * Request limits and login lockout

    [libs/common/redis_window_counter.py]: fixed-window counters; their two users,
    [marketplace_api/ratelimit.py] (requests per service account) and
    [admin/local_auth.py] (failed logins per username).  Time is in milliseconds; a
    Redis key holds a count and may have an expiry.  How [TTL] rounds the remaining
    milliseconds to seconds is a parameter, and so is [verify_password]. *)

From S2P Require Import Prelude.
Open Scope string_scope.
Open Scope list_scope.
Open Scope Z_scope.

(** The counters: a count and the instant it expires at, if it does. *)
Abbreviation Counters := (gmap string (Z * option Z)).

Definition expired (e : option Z) (now : Z) : bool := match e with Some t => t <=? now | None => false end.

(** What Redis sees at [now]. *)
Definition live (st : Counters) (now : Z) (key : string) : option (Z * option Z) :=
  match st !! key with
  | Some (c, e) => if expired e now then None else Some (c, e)
  | None => None
  end.

Section counters.
Variable seconds : Z → Z.

(** [TTL]: -1 for a key without expiry. *)
Definition ttl_of (e : option Z) (now : Z) : Z := match e with Some t => seconds (t - now) | None => -1 end.

(** The Lua scripts run atomically; each re-arms an expiry when [TTL] is negative. *)
Definition incr_in_window (key : string) (window_s now : Z) (st : Counters) : Z * Z * Counters :=
  let '(count, e) := match live st now key with Some (c, e) => (c + 1, e) | None => (1, None) end in
  let ttl := ttl_of e now in
  if ttl <? 0 then (count, window_s, <[key := (count, Some (now + window_s * 1000))]> st)
  else (count, ttl, <[key := (count, e)]> st).

Definition read_in_window (key : string) (window_s now : Z) (st : Counters) : Z * Z * Counters :=
  match live st now key with
  | None => (0, -2, delete key st)
  | Some (count, e) =>
      let ttl := ttl_of e now in
      if ttl <? 0 then (count, window_s, <[key := (count, Some (now + window_s * 1000))]> st)
      else (count, ttl, st)
  end.

(** ** [marketplace_api/ratelimit.py] *)

Definition _WINDOW_S : Z := 60.

Definition rate_key (service_account : string) : string := "skillscan:mkt:rate:" +:+ service_account.

(** [None] allows; [Some s] is the [Retry-After] of the 429. *)
Definition check_rate_limit (service_account : string) (limit_per_min now : Z) (st : Counters)
    : option Z * Counters :=
  let '(count, ttl, st') := incr_in_window (rate_key service_account) _WINDOW_S now st in
  (if limit_per_min <? count then Some (if 0 <? ttl then Z.max 1 ttl else _WINDOW_S) else None, st').

(** ** [admin/local_auth.py] *)

Definition _LOCKOUT_THRESHOLD : Z := 5.
Definition _LOCKOUT_WINDOW_S : Z := 900.

Definition fail_key (username : string) : string := "skillscan:admin:local:failcount:" +:+ username.

Record LocalAccount := mkLocalAccount {
  la_username : string;
  la_password_hash : string;
  la_role : string;
}.

Variable verify_password : string → string → bool.

Definition _is_locked_out (username : string) (now : Z) (st : Counters) : bool * Counters :=
  let '(count, _, st') := read_in_window (fail_key username) _LOCKOUT_WINDOW_S now st in
  (_LOCKOUT_THRESHOLD <=? count, st').

Definition _record_failure (username : string) (now : Z) (st : Counters) : Counters :=
  (incr_in_window (fail_key username) _LOCKOUT_WINDOW_S now st).2.

Definition _clear_failures (username : string) (st : Counters) : Counters := delete (fail_key username) st.

(** One attempt with nothing else in between; [accounts] are the active ones. *)
Definition authenticate_local (accounts : list LocalAccount) (username password : string) (now : Z)
    (st : Counters) : option LocalAccount * Counters :=
  let '(locked, st1) := _is_locked_out username now st in
  if locked then (None, st1)
  else match find (λ a, String.eqb (la_username a) username) accounts with
  | None => (None, _record_failure username now st1)
  | Some account =>
      if negb (verify_password password (la_password_hash account))
      then (None, _record_failure username now st1)
      else (Some account, _clear_failures username st1)
  end.

(** ** A counter cannot be stranded *)

Definition bounded (window_s now : Z) (e : option Z) : Prop :=
  ∃ t, e = Some t ∧ now < t <= now + window_s * 1000.

Context (Hseconds : ∀ ms, 0 <= ms → 0 <= seconds ms).

Lemma live_positive st now key c t : live st now key = Some (c, Some t) → now < t.
Proof.
  unfold live. destruct (st !! key) as [[c' e']|]; [|done]. destruct (expired e' now) eqn:E; [done|].
  intros [= -> ->]. cbn in E. by apply Z.leb_gt in E.
Qed.

Lemma ttl_negative st now key c e : live st now key = Some (c, e) → (ttl_of e now <? 0) = bool_decide (e = None).
Proof.
  intros Hl. destruct e as [t|]; [|done]. cbn [ttl_of]. rewrite bool_decide_false by done.
  apply live_positive in Hl. apply Z.ltb_ge, Hseconds. lia.
Qed.

(** What an increment leaves: the next count, in the window already open if there is
    one, in a fresh one otherwise. *)
Lemma incr_spec key window_s now st :
  0 < window_s →
  let '(count, _, st') := incr_in_window key window_s now st in
  let c0 := match live st now key with Some (c, _) => c | None => 0 end in
  let e' := match live st now key with Some (_, Some t) => t | _ => now + window_s * 1000 end in
  count = c0 + 1 ∧ live st' now key = Some (count, Some e') ∧ now < e' ∧ st' = <[key := (count, Some e')]> st.
Proof.
  intros Hw. unfold incr_in_window.
  assert (Hlive : ∀ c t, now < t → live (<[key := (c, Some t)]> st) now key = Some (c, Some t)).
  { intros c t Ht. unfold live. rewrite lookup_insert_eq. cbn. by rewrite (proj2 (Z.leb_gt _ _) Ht). }
  destruct (live st now key) as [[c e]|] eqn:El.
  - rewrite (ttl_negative _ _ _ _ _ El). destruct e as [t|].
    + rewrite bool_decide_false by done. pose proof (live_positive _ _ _ _ _ El). split_and!; auto.
    + rewrite bool_decide_true by done. split_and!; [done|apply Hlive; lia|lia|done].
  - cbn [ttl_of]. split_and!; [done|apply Hlive; lia|lia|done].
Qed.

(** The window of [key] that is open at [now]: its count, and when it ends. *)
Definition in_window (st : Counters) (key : string) (count end_ : Z) : Prop := st !! key = Some (count, Some end_).

Lemma live_in_window st key c e now : in_window st key c e → now < e → live st now key = Some (c, Some e).
Proof. unfold in_window, live. intros -> H. cbn. by rewrite (proj2 (Z.leb_gt _ _) H). Qed.

Lemma incr_opens key window_s now st :
  0 < window_s → live st now key = None →
  in_window (incr_in_window key window_s now st).2 key 1 (now + window_s * 1000) ∧
  (incr_in_window key window_s now st).1.1 = 1.
Proof.
  intros Hw Hl. pose proof (incr_spec key window_s now st Hw) as H. rewrite Hl in H.
  destruct (incr_in_window _ _ _ _) as [[count ttl] st']. cbn. destruct H as (-> & _ & _ & ->).
  split; [apply lookup_insert_eq|done].
Qed.

Lemma incr_counts key window_s now st c e :
  0 < window_s → in_window st key c e → now < e →
  in_window (incr_in_window key window_s now st).2 key (c + 1) e ∧
  (incr_in_window key window_s now st).1.1 = c + 1.
Proof.
  intros Hw Hi Hn. pose proof (incr_spec key window_s now st Hw) as H. rewrite (live_in_window _ _ _ _ _ Hi Hn) in H.
  destruct (incr_in_window _ _ _ _) as [[count ttl] st']. cbn. destruct H as (-> & _ & _ & ->).
  split; [apply lookup_insert_eq|done].
Qed.

(** ** Requests in one window *)

(** The replies to requests at the given instants. *)
Fixpoint replies (service_account : string) (limit : Z) (times : list Z) (st : Counters) : list (option Z) * Counters :=
  match times with
  | [] => ([], st)
  | t :: times' =>
      let '(r, st1) := check_rate_limit service_account limit t st in
      let '(rs, st2) := replies service_account limit times' st1 in (r :: rs, st2)
  end.

Definition allowed (r : option Z) : bool := match r with None => true | Some _ => false end.

Lemma check_allowed acct limit now st :
  allowed (check_rate_limit acct limit now st).1 =
    ((incr_in_window (rate_key acct) _WINDOW_S now st).1.1 <=? limit) ∧
  (check_rate_limit acct limit now st).2 = (incr_in_window (rate_key acct) _WINDOW_S now st).2.
Proof.
  unfold check_rate_limit. destruct (incr_in_window _ _ _ _) as [[c ttl] st']. cbn. split; [|done].
  destruct (limit <? c) eqn:E; cbn; symmetry; [apply Z.leb_gt; by apply Z.ltb_lt|apply Z.leb_le; by apply Z.ltb_ge].
Qed.

Lemma replies_within acct limit times st c e :
  in_window st (rate_key acct) c e → (∀ t, t ∈ times → t < e) →
  map allowed (replies acct limit times st).1 =
    map (λ i, c + 1 + Z.of_nat i <=? limit) (seq 0 (length times)) ∧
  in_window (replies acct limit times st).2 (rate_key acct) (c + Z.of_nat (length times)) e.
Proof.
  revert st c. induction times as [|t times IH]; intros st c Hi Ht; cbn [replies length seq map].
  { split; [done|]. by rewrite Z.add_0_r. }
  pose proof (check_allowed acct limit t st) as [Ha Hst].
  destruct (incr_counts (rate_key acct) _WINDOW_S t st c e ltac:(done) Hi ltac:(apply Ht; left)) as [Hi' Hc].
  assert (Ht' : ∀ t', t' ∈ times → t' < e) by (intros; apply Ht; by right).
  destruct (check_rate_limit acct limit t st) as [r st1]. cbn in Ha, Hst. subst st1.
  specialize (IH _ (c + 1) Hi' Ht').
  destruct (replies acct limit times _) as [rs st2]. cbn in *. destruct IH as [IH1 IH2]. rewrite Ha, Hc, IH1. split.
  - f_equal; [by rewrite Z.add_0_r|]. rewrite <-seq_shift, map_map. apply map_ext. intros i. f_equal. lia.
  - by replace (c + Z.of_nat (S (length times))) with (c + 1 + Z.of_nat (length times)) by lia.
Qed.

(** A window admits exactly its budget.  Of the requests that fall into the 60
    seconds opened by the first one after a quiet period, the first [limit] are
    allowed and every later one is refused; the counter then expires on its own, so
    that the first request after the window is judged as a first one again. *)
Theorem window_admits_its_budget acct limit t0 times st :
  live st t0 (rate_key acct) = None → (∀ t, t ∈ times → t < t0 + 60000) →
  map allowed (replies acct limit (t0 :: times) st).1 = map (λ i, Z.of_nat i <? limit) (seq 0 (S (length times))) ∧
  ∀ t, t0 + 60000 <= t → live (replies acct limit (t0 :: times) st).2 t (rate_key acct) = None.
Proof.
  intros Hl Ht. cbn [replies].
  pose proof (check_allowed acct limit t0 st) as [Ha Hst].
  destruct (incr_opens (rate_key acct) _WINDOW_S t0 st ltac:(done) Hl) as [Hi Hc].
  destruct (check_rate_limit acct limit t0 st) as [r st1]. cbn in Ha, Hst. subst st1. cbn in Hi.
  pose proof (replies_within acct limit times _ _ _ Hi Ht) as [H1 H2].
  destruct (replies acct limit times _) as [rs st2]. cbn [fst snd map seq] in *. rewrite Ha, Hc, H1. split.
  - f_equal; [apply eq_true_iff_eq; rewrite Z.leb_le, Z.ltb_lt; lia|]. rewrite <-seq_shift, map_map. apply map_ext. intros i.
    apply eq_true_iff_eq. rewrite Z.leb_le, Z.ltb_lt. lia.
  - intros t Hle. unfold live. rewrite H2. cbn [expired]. rewrite (proj2 (Z.leb_le _ t)); [done|unfold _WINDOW_S; lia].
Qed.

(** ** Lockout *)

Lemma read_spec key window_s now st :
  0 < window_s →
  (read_in_window key window_s now st).1.1 = match live st now key with Some (c, _) => c | None => 0 end ∧
  match live st now key with
  | Some (c, Some t) => (read_in_window key window_s now st).2 = st
  | Some (c, None) => in_window (read_in_window key window_s now st).2 key c (now + window_s * 1000)
  | None => (read_in_window key window_s now st).2 !! key = None
  end.
Proof.
  intros Hw. unfold read_in_window. destruct (live st now key) as [[c e]|] eqn:El.
  - rewrite (ttl_negative _ _ _ _ _ El). destruct e as [t|].
    + by rewrite bool_decide_false.
    + rewrite bool_decide_true by done. split; [done|apply lookup_insert_eq].
  - split; [done|]. apply lookup_delete_eq.
Qed.

(** The counter of a username: no expiry (stranded), or one that ends within a window. *)
Definition ends_by (limit_ : Z) (st : Counters) (key : string) : Prop :=
  ∀ c e, st !! key = Some (c, Some e) → e <= limit_.

Lemma attempt_ends_by accounts u p now limit_ st :
  now + 900000 <= limit_ → ends_by limit_ st (fail_key u) →
  ∀ c e, (authenticate_local accounts u p now st).2 !! fail_key u = Some (c, e) → ∃ t, e = Some t ∧ t <= limit_.
Proof.
  intros Hle Hst. unfold authenticate_local, _is_locked_out.
  pose proof (read_spec (fail_key u) _LOCKOUT_WINDOW_S now st ltac:(done)) as [_ Hr].
  destruct (read_in_window _ _ _ _) as [[count ttl] st1] eqn:Er. cbn [fst snd] in Hr.
  assert (H1 : ∀ c e, st1 !! fail_key u = Some (c, e) → ∃ t, e = Some t ∧ t <= limit_).
  { intros c e Hc. destruct (live st now (fail_key u)) as [[c0 [t|]]|] eqn:El.
    - subst st1. unfold live in El. rewrite Hc in El. destruct (expired e now); [done|].
      injection El as -> ->. exists t. split; [done|]. by eapply Hst.
    - unfold in_window in Hr. rewrite Hr in Hc. injection Hc as <- <-. eexists. split; [done|]. unfold _LOCKOUT_WINDOW_S. lia.
    - congruence. }
  assert (H2 : ∀ c e, _record_failure u now st1 !! fail_key u = Some (c, e) → ∃ t, e = Some t ∧ t <= limit_).
  { intros c e. unfold _record_failure. pose proof (incr_spec (fail_key u) _LOCKOUT_WINDOW_S now st1 ltac:(done)) as Hi.
    destruct (incr_in_window _ _ _ _) as [[c1 ttl1] st2]. cbn [snd]. destruct Hi as (_ & _ & _ & ->).
    rewrite lookup_insert_eq. intros [= <- <-]. eexists. split; [done|].
    destruct (live st1 now (fail_key u)) as [[c0 [t|]]|] eqn:El; [|unfold _LOCKOUT_WINDOW_S; lia..].
    unfold live in El. destruct (st1 !! fail_key u) as [[c2 e2]|] eqn:E2; [|done].
    destruct (expired e2 now); [done|]. injection El as -> ->. destruct (H1 _ _ eq_refl) as (t' & [= <-] & ?). lia. }
  destruct (_LOCKOUT_THRESHOLD <=? count); [exact H1|].
  destruct (find _ accounts) as [a|]; [|exact H2]. destruct (negb _); [exact H2|].
  cbn. intros c e. unfold _clear_failures. by rewrite lookup_delete_eq.
Qed.

(** No lockout is permanent.  Whatever state Redis was left in, a counter that lost
    its expiry included, once anyone has tried to log in as a user the counter ends
    within 15 minutes: the first attempt after that with the right password succeeds. *)
Theorem lockout_ends accounts u p p0 a t0 t1 st :
  ends_by (t0 + 900000) st (fail_key u) → t0 + 900000 <= t1 →
  find (λ a, String.eqb (la_username a) u) accounts = Some a → verify_password p (la_password_hash a) = true →
  (authenticate_local accounts u p t1 (authenticate_local accounts u p0 t0 st).2).1 = Some a.
Proof.
  intros Hst Ht Hf Hv.
  assert (Hl : live (authenticate_local accounts u p0 t0 st).2 t1 (fail_key u) = None).
  { unfold live. destruct (_ !! fail_key u) as [[c e]|] eqn:E; [|done].
    eapply attempt_ends_by in E as (t & -> & Hle); [|reflexivity|done]. cbn.
    by rewrite (proj2 (Z.leb_le t t1)) by lia. }
  unfold authenticate_local at 1, _is_locked_out, read_in_window. rewrite Hl. cbn. by rewrite Hf, Hv.
Qed.

(** The outcomes of attempts at the given instants. *)
Fixpoint attempts (accounts : list LocalAccount) (u : string) (tries : list (Z * string)) (st : Counters)
    : list (option LocalAccount) * Counters :=
  match tries with
  | [] => ([], st)
  | (t, p) :: tries' =>
      let '(r, st1) := authenticate_local accounts u p t st in
      let '(rs, st2) := attempts accounts u tries' st1 in (r :: rs, st2)
  end.

Definition wrong (accounts : list LocalAccount) (u p : string) : Prop :=
  ∀ a, find (λ a, String.eqb (la_username a) u) accounts = Some a → verify_password p (la_password_hash a) = false.

Lemma attempt_wrong accounts u p now st c e :
  wrong accounts u p → in_window st (fail_key u) c e → now < e → c < 5 →
  (authenticate_local accounts u p now st).1 = None ∧
  in_window (authenticate_local accounts u p now st).2 (fail_key u) (c + 1) e.
Proof.
  intros Hw Hi Hn Hc. unfold authenticate_local, _is_locked_out.
  pose proof (read_spec (fail_key u) _LOCKOUT_WINDOW_S now st ltac:(done)) as [Hcount Hr].
  rewrite (live_in_window _ _ _ _ _ Hi Hn) in Hcount, Hr.
  destruct (read_in_window _ _ _ _) as [[count ttl] st1]. cbn [fst snd] in *. subst count st1.
  unfold _LOCKOUT_THRESHOLD. rewrite (proj2 (Z.leb_gt _ _)) by lia.
  pose proof (incr_counts (fail_key u) _LOCKOUT_WINDOW_S now st c e ltac:(done) Hi Hn) as [Hinc _].
  destruct (find _ accounts) as [a|] eqn:Ef; [|done]. by rewrite (Hw a Ef).
Qed.

Lemma attempt_first accounts u p now st :
  wrong accounts u p → live st now (fail_key u) = None →
  (authenticate_local accounts u p now st).1 = None ∧
  in_window (authenticate_local accounts u p now st).2 (fail_key u) 1 (now + 900000).
Proof.
  intros Hw Hl. unfold authenticate_local, _is_locked_out.
  pose proof (read_spec (fail_key u) _LOCKOUT_WINDOW_S now st ltac:(done)) as [Hcount Hr].
  rewrite Hl in Hcount, Hr.
  destruct (read_in_window _ _ _ _) as [[count ttl] st1]. cbn [fst snd] in *. subst count. cbn [Z.leb Z.compare _LOCKOUT_THRESHOLD].
  assert (Hl1 : live st1 now (fail_key u) = None) by (unfold live; by rewrite Hr).
  pose proof (incr_opens (fail_key u) _LOCKOUT_WINDOW_S now st1 ltac:(done) Hl1) as [Hinc _].
  destruct (find _ accounts) as [a|] eqn:Ef; [|done]. by rewrite (Hw a Ef).
Qed.

Lemma attempt_locked accounts u p now st c e :
  in_window st (fail_key u) c e → now < e → 5 <= c →
  authenticate_local accounts u p now st = (None, st).
Proof.
  intros Hi Hn Hc. unfold authenticate_local, _is_locked_out.
  pose proof (read_spec (fail_key u) _LOCKOUT_WINDOW_S now st ltac:(done)) as [Hcount Hr].
  rewrite (live_in_window _ _ _ _ _ Hi Hn) in Hcount, Hr.
  destruct (read_in_window _ _ _ _) as [[count ttl] st1]. cbn [fst snd] in *. subst count st1.
  unfold _LOCKOUT_THRESHOLD. by rewrite (proj2 (Z.leb_le _ _)) by lia.
Qed.

Lemma attempts_in_window accounts u tries st c e :
  in_window st (fail_key u) c e → 0 <= c <= 5 →
  (∀ t p, (t, p) ∈ tries → t < e) → (∀ t p, (t, p) ∈ take (Z.to_nat (5 - c)) tries → wrong accounts u p) →
  Forall (λ r, r = None) (attempts accounts u tries st).1.
Proof.
  revert st c. induction tries as [|[t p] tries IH]; intros st c Hi Hc Ht Hw; cbn [attempts]; [constructor|].
  assert (Hte : t < e) by (apply (Ht t p); left).
  assert (Ht' : ∀ t p, (t, p) ∈ tries → t < e) by (intros; eapply Ht; by right).
  destruct (Z.eq_dec c 5) as [->|Hne].
  - rewrite (attempt_locked accounts u p t st 5 e Hi Hte) by lia.
    specialize (IH st 5 Hi ltac:(lia) Ht' ltac:(by intros ?? ?%elem_of_nil)).
    destruct (attempts accounts u tries st) as [rs st2]. by constructor.
  - replace (Z.to_nat (5 - c)) with (S (Z.to_nat (5 - (c + 1)))) in Hw by lia. cbn [take] in Hw.
    destruct (attempt_wrong accounts u p t st c e) as [Hr Hi']; [apply (Hw t p); left|done|done|lia|].
    destruct (authenticate_local accounts u p t st) as [r st1]. cbn [fst snd] in *.
    specialize (IH st1 (c + 1) Hi' ltac:(lia) Ht' ltac:(intros; eapply Hw; by right)).
    destruct (attempts accounts u tries st1) as [rs st2]. by constructor.
Qed.

(** Five wrong passwords lock the account for the rest of the window.  From a state
    with no running counter, among attempts that fall into the 15 minutes after the
    first, if the first five are wrong then no attempt succeeds, not even one with
    the right password. *)
Theorem five_failures_lock accounts u t0 p0 tries st :
  live st t0 (fail_key u) = None → wrong accounts u p0 →
  (∀ t p, (t, p) ∈ tries → t < t0 + 900000) → (∀ t p, (t, p) ∈ take 4 tries → wrong accounts u p) →
  Forall (λ r, r = None) (attempts accounts u ((t0, p0) :: tries) st).1.
Proof.
  intros Hl Hw0 Ht Hw. cbn [attempts]. destruct (attempt_first accounts u p0 t0 st Hw0 Hl) as [Hr Hi].
  destruct (authenticate_local accounts u p0 t0 st) as [r st1]. cbn [fst snd] in *.
  pose proof (attempts_in_window accounts u tries st1 1 _ Hi ltac:(lia) Ht Hw) as H.
  destruct (attempts accounts u tries st1) as [rs st2]. by constructor.
Qed.
End counters.

(** ** Witnesses *)

Module LimitSamples.
(** Redis rounds the remaining milliseconds to the nearest second. *)
Definition rounded (ms : Z) : Z := (ms + 500) / 1000.

Lemma rounded_nonneg ms : 0 <= ms → 0 <= rounded ms.
Proof. intros H. apply Z.div_pos; lia. Qed.

Lemma window_admits_its_budget_witness :
  map allowed (replies rounded "market" 2 [1000; 2000; 2000; 59000] ∅).1 = [true; true; false; false].
Proof.
  assert (Hl : live ∅ 1000 (rate_key "market") = None) by (vm_compute; reflexivity).
  rewrite (proj1 (window_admits_its_budget rounded rounded_nonneg "market" 2 1000 [2000; 2000; 59000] ∅ Hl
    ltac:(intros t Ht; repeat (apply elem_of_cons in Ht as [->|Ht]; [lia|]); by apply elem_of_nil in Ht))).
  reflexivity.
Defined.

Definition check (password stored : string) : bool := String.eqb password stored.
Definition staff : list LocalAccount := [mkLocalAccount "root" "secret" "admin"].

(** The counter of [root] was stranded at 7 failures, without an expiry. *)
Definition stranded : Counters := {[ fail_key "root" := (7, None) ]}.

Lemma lockout_ends_witness :
  (authenticate_local rounded check staff "root" "secret" 0 stranded).1 = None ∧
  (authenticate_local rounded check staff "root" "secret" 900000
     (authenticate_local rounded check staff "root" "secret" 0 stranded).2).1
  = Some (mkLocalAccount "root" "secret" "admin").
Proof.
  split; [vm_compute; reflexivity|].
  apply (lockout_ends rounded check rounded_nonneg staff "root" "secret" "secret" _ 0 900000 stranded).
  - intros c e H. vm_compute in H. discriminate H.
  - vm_compute. discriminate.
  - reflexivity.
  - reflexivity.
Defined.

Definition guesses : list (Z * string) := [(1, "a"); (2, "b"); (3, "c"); (4, "d"); (5, "secret")].

Lemma five_failures_lock_witness :
  Forall (λ r, r = None) (attempts rounded check staff "root" ((0, "z") :: guesses) ∅).1.
Proof.
  apply (five_failures_lock rounded check rounded_nonneg).
  - vm_compute. reflexivity.
  - intros a H. injection H as <-. reflexivity.
  - intros t p Ht. repeat (apply elem_of_cons in Ht as [[= -> ->]|Ht]; [lia|]). by apply elem_of_nil in Ht.
  - intros t p Ht. cbn in Ht. intros a Ha. injection Ha as <-.
    repeat (apply elem_of_cons in Ht as [[= -> ->]|Ht]; [reflexivity|]). by apply elem_of_nil in Ht.
Defined.
End LimitSamples.
