(* ===== verification/Cron.v ===== *)
(** * Report schedules

    [apps/monolith/modules/reporting/service.py]: the cron validator and matcher and
    [schedule_report]; [worker.py]'s [run_due_report_schedules], which fires the
    schedules whose expression matches the current minute, at most once per minute
    across replicas through a Redis key.  Report generation is a parameter. *)

From S2P Require Import Prelude JsonText PyText.
From Stdlib Require Import Ascii.
Open Scope string_scope.
Open Scope list_scope.
Open Scope Z_scope.

Definition chars : string → list ascii := String.list_ascii_of_string.

Inductive ReportingError :=
| UnknownReportTemplateError
| InvalidCronError
| no_targets.

Definition TEMPLATES : list string :=
  ["executive_summary"; "compliance_status"; "risk_trend"; "engine_coverage"; "exception_audit"].

Definition cron_char (c : ascii) : bool :=
  is_digit c || bool_decide (c ∈ chars "*,-/").

(** [_CRON_FIELD_PATTERN.match(f)]. *)
Definition _CRON_FIELD_PATTERN (f : list ascii) : bool := negb (bool_decide (f = [])) && forallb cron_char f.

Definition _CRON_FIELD_BOUNDS : list (Z * Z) := [(0, 59); (0, 23); (1, 31); (1, 12); (0, 7)].

(** [token.partition(sep)]: before and after the first [sep]. *)
Fixpoint partition (sep : ascii) (l : list ascii) : list ascii * list ascii :=
  match l with
  | [] => ([], [])
  | c :: l' => if Ascii.eqb c sep then ([], l') else let '(a, b) := partition sep l' in (c :: a, b)
  end.

Definition int_or_invalid (l : list ascii) : result ReportingError Z :=
  match py_int l with Some n => Ok n | None => Err InvalidCronError end.

(** One token: the range it stands for and its step. *)
Definition parse_token (lo hi : Z) (token : list ascii) : result ReportingError (Z * Z * Z) :=
  let '(base, step_raw) := partition "/" token in
  step ← (if bool_decide (step_raw = []) then Ok 1 else int_or_invalid step_raw);
  _ ← guard_err (1 <=? step) InvalidCronError;
  range ← (if bool_decide (base = chars "*") then Ok (lo, hi)
           else if bool_decide ("-"%char ∈ base) then
             let '(start_raw, end_raw) := partition "-" base in
             start ← int_or_invalid start_raw;
             end_ ← int_or_invalid end_raw;
             Ok (start, end_)
           else start ← int_or_invalid base; Ok (start, start));
  let '(start, end_) := range in
  _ ← guard_err ((lo <=? start) && (start <=? hi) && ((lo <=? end_) && (end_ <=? hi)) && (start <=? end_))
        InvalidCronError;
  Ok (start, end_, step).

Definition token_matches (value : Z) (t : Z * Z * Z) : bool :=
  let '(start, end_, step) := t in
  (start <=? value) && (value <=? end_) && ((value - start) mod step =? 0).

(** The [for token in ...] loop, with its early return. *)
Fixpoint match_tokens (lo hi value : Z) (tokens : list (list ascii)) : result ReportingError bool :=
  match tokens with
  | [] => Ok false
  | token :: tokens' =>
      t ← parse_token lo hi token;
      if token_matches value t then Ok true else match_tokens lo hi value tokens'
  end.

Definition _cron_field_matches (field_expr : list ascii) (value lo hi : Z) : result ReportingError bool :=
  match_tokens lo hi value (split_char "," field_expr).

Fixpoint validate_fields (fields : list (list ascii)) (bounds : list (Z * Z)) : result ReportingError unit :=
  match fields, bounds with
  | f :: fields', (lo, hi) :: bounds' =>
      _ ← guard_err (_CRON_FIELD_PATTERN f) InvalidCronError;
      _ ← _cron_field_matches f lo lo hi;
      validate_fields fields' bounds'
  | _, _ => Ok ()
  end.

Definition validate_cron (expression : string) : result ReportingError unit :=
  let fields := words (chars expression) in
  _ ← guard_err (Nat.eqb (length fields) 5) InvalidCronError;
  validate_fields fields _CRON_FIELD_BOUNDS.

(** What is used of a [datetime]; [weekday] has Monday 0; [stamp] counts minutes. *)
Record Minute := mkMinute {
  minute : Z;
  hour : Z;
  day : Z;
  month : Z;
  weekday : Z;
  stamp : Z;
}.

Definition cron_matches (expression : string) (at_ : Minute) : result ReportingError bool :=
  _ ← validate_cron expression;
  match words (chars expression) with
  | [minute_f; hour_f; dom_f; month_f; dow_f] =>
      m ← _cron_field_matches minute_f (minute at_) 0 59;
      if negb (m : bool) then Ok false else
      h ← _cron_field_matches hour_f (hour at_) 0 23;
      if negb h then Ok false else
      mo ← _cron_field_matches month_f (month at_) 1 12;
      if negb mo then Ok false else
      let cron_weekday := (weekday at_ + 1) mod 7 in
      dom_ok ← _cron_field_matches dom_f (day at_) 1 31;
      dow1 ← _cron_field_matches dow_f cron_weekday 0 7;
      dow_ok ← (if (dow1 : bool) then Ok true
                else if cron_weekday =? 0 then _cron_field_matches dow_f 7 0 7 else Ok false);
      if negb (bool_decide (dom_f = chars "*")) && negb (bool_decide (dow_f = chars "*"))
      then Ok (dom_ok || dow_ok) else Ok (dom_ok && dow_ok)
  | _ => Err InvalidCronError
  end.

Record ReportScheduleRow := mkSchedule {
  rs_id : Z;
  rs_template : string;
  rs_cron : string;
  rs_targets : list string;
  rs_created_by : string;
  rs_created_at : Z;
}.

(** The table after the insert; the id is the next of the sequence. *)
Definition schedule_report (template cron : string) (targets : list string) (created_by : string)
    (next_id now : Z) (rows : list ReportScheduleRow) : result ReportingError (list ReportScheduleRow) :=
  _ ← guard_err (bool_decide (template ∈ TEMPLATES)) UnknownReportTemplateError;
  _ ← validate_cron cron;
  _ ← guard_err (negb (bool_decide (targets = []))) no_targets;
  Ok (rows ++ [mkSchedule next_id template cron targets created_by now]).

(** ** [worker.run_due_report_schedules] *)

Section firing.
(** Whether [generate_report] returns, and what it reports, for a template. *)
Variable Report : Type.
Variable generate_report : string → option Report.

(** The dedup keys held in Redis, with the second each expires at; the reports
    delivered so far: schedule, minute, report. *)
Record FiringState := mkFiring {
  dedup_keys : gmap (Z * Z) Z;
  delivered : list (Z * Z * Report);
}.

(** [SET key 1 NX EX 120]: [None] when the key is already there. *)
Definition set_nx (key : Z * Z) (now : Z) (keys : gmap (Z * Z) Z) : option (gmap (Z * Z) Z) :=
  match keys !! key with
  | Some e => if now <? e then None else Some (<[key := now + 120]> keys)
  | None => Some (<[key := now + 120]> keys)
  end.

Definition fire_one (at_ : Minute) (now : Z) (st : FiringState) (schedule : ReportScheduleRow) : FiringState :=
  match cron_matches (rs_cron schedule) at_ with
  | Ok true =>
      match set_nx (rs_id schedule, stamp at_) now (dedup_keys st) with
      | None => st
      | Some keys =>
          match generate_report (rs_template schedule) with
          | None => mkFiring keys (delivered st)
          | Some report => mkFiring keys (delivered st ++ [(rs_id schedule, stamp at_, report)])
          end
      end
  | _ => st
  end.

(** [now] is Redis' clock in seconds, [at_] the minute the worker read. *)
Definition run_due_report_schedules (schedules : list ReportScheduleRow) (at_ : Minute) (now : Z)
    (st : FiringState) : FiringState * nat :=
  let st' := foldl (fire_one at_ now) st schedules in
  (st', (length (delivered st') - length (delivered st))%nat).
End firing.

(** ** What an expression denotes *)

(** The values of a token, enumerated; none when it does not parse. *)
Definition token_values (lo hi : Z) (token : list ascii) : list Z :=
  match parse_token lo hi token with
  | Ok (start, end_, step) =>
      map (λ i, start + Z.of_nat i * step) (seq 0 (Z.to_nat ((end_ - start) / step + 1)))
  | Err _ => []
  end.

Definition field_values (lo hi : Z) (f : list ascii) : list Z :=
  concat (map (token_values lo hi) (split_char "," f)).

(** Every token of the field parses. *)
Definition field_valid (lo hi : Z) (f : list ascii) : bool :=
  _CRON_FIELD_PATTERN f && forallb (λ t, is_ok (parse_token lo hi t)) (split_char "," f).

Lemma parse_token_Ok lo hi token s e k :
  parse_token lo hi token = Ok (s, e, k) → 1 <= k ∧ lo <= s ∧ s <= e ∧ e <= hi.
Proof.
  unfold parse_token. destruct (partition "/" token) as [base step_raw]. intros H. ok_inv.
  destruct x1 as [s' e']. ok_inv. bool_prop. rewrite ->!Z.leb_le in *. by simplify_eq.
Qed.

Lemma token_matches_iff lo hi token t value :
  parse_token lo hi token = Ok t → token_matches value t = true ↔ value ∈ token_values lo hi token.
Proof.
  destruct t as [[s e] k]. intros Hp. unfold token_values. rewrite Hp. apply parse_token_Ok in Hp as (Hk & _ & Hse & _).
  unfold token_matches. rewrite !andb_true_iff, !Z.leb_le, Z.eqb_eq, list_elem_of_fmap. split.
  - intros [[H1 H2] H3]. exists (Z.to_nat ((value - s) / k)).
    pose proof (Z.div_mod (value - s) k ltac:(lia)) as Hd. rewrite H3 in Hd.
    assert (0 <= (value - s) / k) by (apply Z.div_pos; lia).
    rewrite Z2Nat.id by done. split; [lia|]. apply elem_of_seq. split; [lia|].
    assert ((value - s) / k <= (e - s) / k) by (apply Z.div_le_mono; lia). lia.
  - intros (i & -> & Hi%elem_of_seq).
    assert (Z.of_nat i <= (e - s) / k) as Hle by lia.
    pose proof (Z.mul_div_le (e - s) k ltac:(lia)).
    split; [split; nia|]. replace (s + Z.of_nat i * k - s) with (Z.of_nat i * k) by lia. apply Z.mod_mul. lia.
Qed.

Lemma match_tokens_valid lo hi value tokens :
  forallb (λ t, is_ok (parse_token lo hi t)) tokens = true →
  match_tokens lo hi value tokens = Ok (bool_decide (value ∈ concat (map (token_values lo hi) tokens))).
Proof.
  induction tokens as [|token tokens IH]; intros Hok; cbn [match_tokens forallb map concat] in *.
  { by rewrite bool_decide_false by apply not_elem_of_nil. }
  apply andb_true_iff in Hok as [Ht Hok]. destruct (parse_token lo hi token) as [t|] eqn:Ep; [|done].
  cbn [mbind result_bind]. pose proof (token_matches_iff lo hi token t value Ep) as Hm.
  destruct (token_matches value t).
  - f_equal. symmetry. apply bool_decide_eq_true, elem_of_app. left. by apply Hm.
  - rewrite IH by done. f_equal. apply bool_decide_ext. rewrite elem_of_app.
    assert (value ∉ token_values lo hi token) by (intros H; by apply Hm in H). tauto.
Qed.

Lemma field_matches_valid lo hi f value :
  field_valid lo hi f = true → _cron_field_matches f value lo hi = Ok (bool_decide (value ∈ field_values lo hi f)).
Proof. intros [_ H]%andb_true_iff. by apply match_tokens_valid. Qed.

(** The standard reading of five fields at a minute. *)
Definition cron_spec (m h dom mo dow : list ascii) (at_ : Minute) : bool :=
  let wd := (weekday at_ + 1) mod 7 in
  let dom_ok := bool_decide (day at_ ∈ field_values 1 31 dom) in
  let dow_ok := bool_decide (wd ∈ field_values 0 7 dow) || ((wd =? 0) && bool_decide (7 ∈ field_values 0 7 dow)) in
  bool_decide (minute at_ ∈ field_values 0 59 m) && bool_decide (hour at_ ∈ field_values 0 23 h) &&
  bool_decide (month at_ ∈ field_values 1 12 mo) &&
  (if bool_decide (dom = chars "*") || bool_decide (dow = chars "*") then dom_ok && dow_ok else dom_ok || dow_ok).

(** An expression all of whose tokens are well-formed is accepted at creation, and at
    every minute its evaluation returns the standard reading: each field denotes the
    enumerated values of its tokens, day of month and day of week are alternatives
    when both are restricted, and Sunday is 0 or 7. *)
Theorem valid_cron_is_standard expression m h dom mo dow at_ :
  words (chars expression) = [m; h; dom; mo; dow] →
  field_valid 0 59 m && field_valid 0 23 h && field_valid 1 31 dom && field_valid 1 12 mo && field_valid 0 7 dow = true →
  validate_cron expression = Ok () ∧ cron_matches expression at_ = Ok (cron_spec m h dom mo dow at_).
Proof.
  intros Hw Hv. bool_prop.
  assert (Hval : validate_cron expression = Ok ()).
  { unfold validate_cron. rewrite Hw. cbn [length Nat.eqb guard_err mbind result_bind validate_fields _CRON_FIELD_BOUNDS].
    repeat match goal with H : field_valid ?lo ?hi ?f = true |- _ =>
      rewrite (field_matches_valid lo hi f _ H); apply andb_true_iff in H as [-> _]; cbn [guard_err mbind result_bind] end. done. }
  split; [done|]. unfold cron_matches. rewrite Hval, Hw. cbn [mbind result_bind].
  rewrite !field_matches_valid by done. cbn [mbind result_bind]. unfold cron_spec.
  destruct (bool_decide (minute at_ ∈ _)); [|done]. destruct (bool_decide (hour at_ ∈ _)); [|done].
  destruct (bool_decide (month at_ ∈ _)); [|done]. cbn [negb andb].
  destruct (bool_decide ((weekday at_ + 1) mod 7 ∈ _)), ((weekday at_ + 1) mod 7 =? 0);
    cbn [mbind result_bind orb andb]; destruct (bool_decide (dom = _)), (bool_decide (dow = _)); cbn [negb andb orb]; done.
Qed.

(** ** At most once per minute *)

Section once.
Context {Report : Type} (generate_report : string → option Report).

Abbreviation State := (FiringState Report).
Abbreviation key_of := (λ d : Z * Z * Report, d.1).

(** Every delivery left a key that outlives its minute. *)
Record firing_ok (st : State) : Prop := {
  fo_once : NoDup (key_of <$> delivered Report st);
  fo_keys id s : (id, s) ∈ key_of <$> delivered Report st →
    ∃ e, dedup_keys Report st !! (id, s) = Some e ∧ 60 * (s + 1) <= e;
}.

Lemma set_nx_fresh key now keys keys' :
  set_nx key now keys = Some keys' → keys' = <[key := now + 120]> keys ∧ ∀ e, keys !! key = Some e → e <= now.
Proof.
  unfold set_nx. destruct (keys !! key) as [e|]; [|naive_solver].
  destruct (now <? e) eqn:E; [done|]. intros [= <-]. split; [done|]. intros ? [= <-]. by apply Z.ltb_ge.
Qed.

Lemma fire_one_ok at_ now st schedule :
  stamp at_ = now / 60 → firing_ok st → firing_ok (fire_one Report generate_report at_ now st schedule).
Proof.
  intros Hs Hok. destruct (Hok) as [Hnd Hk]. unfold fire_one.
  destruct (cron_matches _ _) as [[]|]; [|done..].
  destruct (set_nx _ _ _) as [keys|] eqn:En; [|done]. apply set_nx_fresh in En as [-> Hfresh].
  pose proof (Z.div_mod now 60 ltac:(lia)) as Hdm. pose proof (Z.mod_pos_bound now 60 ltac:(lia)) as Hb.
  assert (Hnew : (rs_id schedule, stamp at_) ∉ key_of <$> delivered Report st).
  { intros Hin. destruct (Hk _ _ Hin) as (e & He & Hle). specialize (Hfresh _ He). rewrite Hs in Hle. lia. }
  assert (Hkeys : ∀ id s, (id, s) ∈ key_of <$> delivered Report st →
    ∃ e, <[(rs_id schedule, stamp at_) := now + 120]> (dedup_keys Report st) !! (id, s) = Some e ∧ 60 * (s + 1) <= e).
  { intros id s Hin. destruct (Hk _ _ Hin) as (e & He & Hle). exists e. split; [|done].
    rewrite lookup_insert_ne; [done|]. intros [= E1 E2]. apply Hnew. congruence. }
  destruct (generate_report _) as [report|]; split; cbn; try done.
  - rewrite fmap_app. cbn. apply NoDup_app. split; [done|]. split; [|apply NoDup_singleton].
    intros k Hin ->%list_elem_of_singleton. done.
  - intros id s. rewrite fmap_app. cbn. rewrite elem_of_app, list_elem_of_singleton. intros [Hin|[= -> ->]]; [auto|].
    exists (now + 120). split; [apply lookup_insert_eq|]. rewrite Hs. lia.
Qed.

Lemma run_due_ok schedules at_ now st :
  stamp at_ = now / 60 → firing_ok st → firing_ok (run_due_report_schedules Report generate_report schedules at_ now st).1.
Proof.
  intros Hs. cbn. revert st. induction schedules as [|s l IH]; intros st Hok; [done|]. cbn [foldl].
  apply IH. by apply fire_one_ok.
Qed.

(** Ticks of any number of replicas, on clocks that agree with Redis'. *)
Inductive ticks : State → State → Prop :=
| no_tick st : ticks st st
| tick schedules at_ now st st' :
    stamp at_ = now / 60 → ticks (run_due_report_schedules Report generate_report schedules at_ now st).1 st' → ticks st st'.

(** A schedule fires at most once a minute.  However many replicas tick, in whatever
    order and however late within the minute, no schedule delivers two reports for the
    same minute: the key set before generating outlives the minute. *)
Theorem schedules_fire_at_most_once st :
  ticks (mkFiring Report ∅ []) st → NoDup (key_of <$> delivered Report st).
Proof.
  assert (H : ∀ st1 st2, ticks st1 st2 → firing_ok st1 → firing_ok st2).
  { induction 1 as [|schedules at_ now s1 s2 Hs _ IH]; [done|]. intros Hok. by apply IH, run_due_ok. }
  intros Ht. apply (H _ _ Ht). split; cbn; [constructor|]. by intros id s ?%elem_of_nil.
Qed.
End once.

(** ** Witnesses *)

Module CronSamples.
Definition monday (m h : Z) : Minute := mkMinute m h 27 7 0 (h * 60 + m).

Lemma valid_cron_is_standard_witness :
  validate_cron "*/15 6-8 1,15 * 1" = Ok () ∧
  cron_matches "*/15 6-8 1,15 * 1" (monday 30 7) = Ok true ∧
  cron_matches "*/15 6-8 1,15 * 1" (monday 31 7) = Ok false.
Proof.
  pose proof (λ at_, valid_cron_is_standard "*/15 6-8 1,15 * 1" (chars "*/15") (chars "6-8") (chars "1,15") (chars "*")
    (chars "1") at_ eq_refl eq_refl) as H.
  split; [exact (proj1 (H (monday 0 0)))|].
  split; [rewrite (proj2 (H (monday 30 7)))|rewrite (proj2 (H (monday 31 7)))]; vm_compute; reflexivity.
Defined.

Definition done_report (template : string) : option unit := Some ().
Definition nightly : ReportScheduleRow := mkSchedule 1 "risk_trend" "0 2 * * *" ["siem"] "admin" 0.
Definition first_tick : FiringState unit :=
  (run_due_report_schedules unit done_report [nightly] (monday 0 2) (120 * 60 + 5) (mkFiring unit ∅ [])).1.
Definition second_tick : FiringState unit :=
  (run_due_report_schedules unit done_report [nightly] (monday 0 2) (120 * 60 + 59) first_tick).1.

Lemma schedules_fire_at_most_once_witness :
  NoDup ((λ d, d.1) <$> delivered unit second_tick) ∧ delivered unit second_tick = [(1, 120, ())].
Proof.
  split; [|vm_compute; reflexivity]. apply (schedules_fire_at_most_once done_report).
  apply (tick done_report [nightly] (monday 0 2) (120 * 60 + 5)); [reflexivity|].
  apply (tick done_report [nightly] (monday 0 2) (120 * 60 + 59)); [reflexivity|]. apply no_tick.
Defined.

(** The validator accepts schedules that raise when they are evaluated.  It stops at
    the first token that matches its probe value, so nothing after it is looked at:
    [0,99 * * * *] is stored, and at every minute but the first of the hour its
    evaluation raises the error the validator exists to rule out. *)
Theorem validator_stops_at_first_match :
  schedule_report "risk_trend" "0,99 * * * *" ["siem"] "admin" 1 0 []
    = Ok [mkSchedule 1 "risk_trend" "0,99 * * * *" ["siem"] "admin" 0] ∧
  cron_matches "0,99 * * * *" (monday 0 2) = Ok true ∧
  ∀ m, 1 <= m <= 59 → cron_matches "0,99 * * * *" (monday m 2) = Err InvalidCronError.
Proof.
  split; [vm_compute; reflexivity|]. split; [vm_compute; reflexivity|]. intros m Hm.
  assert (Hall : forallb (λ i, match cron_matches "0,99 * * * *" (monday (Z.of_nat i) 2) with
    | Err InvalidCronError => true | _ => false end) (seq 1 59) = true) by (vm_compute; reflexivity).
  rewrite forallb_true in Hall. specialize (Hall (Z.to_nat m)). rewrite Z2Nat.id in Hall by lia.
  assert (Hin : Z.to_nat m ∈ seq 1 59) by (apply elem_of_seq; lia). specialize (Hall Hin).
  by destruct (cron_matches _ _) as [|[]].
Qed.
End CronSamples.
