(* ===== verification/AuditChain.v ===== *)
(** * The audit ledger

    [apps/monolith/modules/audit/service.py]: every module writes audit intents in its
    own transactions; any number of drainers chain them, one per transaction, into an
    append-only ledger in which each entry hashes its predecessor (INV-12), and
    [verify_chain] recomputes the chain.  [audit/router.py]'s read is [get_audit_log].

    The append is modelled twice: as the sequential loop with its retries
    ([drain_pending_intents], under any sequence of database errors), and as a step
    relation in which the transactions of concurrent drainers interleave
    ([audit_step]), including a tail lock that is granted on a row that is no longer
    the newest.  SHA-256 and [float.__repr__] are parameters. *)

From S2P Require Import Prelude Json Canonical JsonText.
From Stdlib Require Import QArith Ascii.
Open Scope string_scope.
Open Scope list_scope.
Open Scope Z_scope.

(** [AuditEntry]; [AuditIntent] with its [chained] flag.  Rows are keyed by [seq] and
    [id] in the tables. *)
Record AuditEntry := mkAuditEntry {
  ae_prev_hash : string;
  ae_entry_hash : string;
  ae_operator : string;
  ae_action : string;
  ae_payload : json;
  ae_chained_at : Z;
}.

Record AuditIntentRow := mkAuditIntentRow {
  ir_intent : AuditIntent;
  ir_chained : bool;
  ir_created_at : Z;
}.

Definition GENESIS_HASH : string :=
  "0000000000000000000000000000000000000000000000000000000000000000".
Definition _MYSQL_DEADLOCK_ERRNO : Z := 1213.
Definition _MYSQL_LOCK_WAIT_TIMEOUT_ERRNO : Z := 1205.
Definition _MAX_APPEND_RETRIES : nat := 50.

(** An [OperationalError] by its driver's error number, if it has one. *)
Definition _is_retryable_lock_error (errno : option Z) : bool :=
  bool_decide (errno = Some _MYSQL_DEADLOCK_ERRNO) || bool_decide (errno = Some _MYSQL_LOCK_WAIT_TIMEOUT_ERRNO).

Record ChainedEntry := mkChainedEntry { ce_seq : Z; ce_prev_hash : string; ce_entry_hash : string }.

(** The ledger in [seq] order, the intents by [id], and the ledger's auto-increment. *)
Record AuditStore := mkAuditStore {
  ledger : list (Z * AuditEntry);
  intents : gmap Z AuditIntentRow;
  next_seq : Z;
}.

Definition seq_le : Z * AuditEntry → Z * AuditEntry → bool := le_key Z.leb fst.

Section audit.
Variable repr_float : Q → string.
Variable sha256 : list Z → string.

Definition compute_entry_hash (prev_hash operator action : string) (payload : json) : string :=
  let intent_canonical := canonical_json repr_float
    (JObj [("operator", JStr operator); ("action", JStr action); ("payload", payload)]) in
  sha256 (str_bytes (prev_hash +:+ intent_canonical)).

(** ** [append_one_intent] *)

Inductive AuditError :=
| _StaleTailDetected
| operational_error (errno : option Z)
| unreachable.

(** The entry for an intent, given the locked tail row and the rows that are
    committed when the check reads them. *)
Definition append_one_intent (tail : option (Z * AuditEntry)) (committed : list (Z * AuditEntry))
    (intent : AuditIntent) (now : Z) : result AuditError AuditEntry :=
  let prev_hash := match tail with Some (_, e) => ae_entry_hash e | None => GENESIS_HASH end in
  let newer_exists :=
    match tail with Some (s, _) => existsb (λ row, s <? row.1) committed | None => false end in
  if newer_exists then Err _StaleTailDetected
  else Ok (mkAuditEntry prev_hash
             (compute_entry_hash prev_hash (ai_operator intent) (ai_action intent) (ai_payload intent))
             (ai_operator intent) (ai_action intent) (ai_payload intent) now).

Definition mark_chained (r : AuditIntentRow) : AuditIntentRow :=
  mkAuditIntentRow (ir_intent r) true (ir_created_at r).

(** ** Draining, with no other drainer *)

(** [WHERE chained IS FALSE ORDER BY id], as ids. *)
Definition pending_intents (st : AuditStore) : list Z :=
  sort_by Z.leb (map_to_list (base.filter (λ ir, ir_chained ir.2 = false) (intents st))).*1.

(** One transaction that nothing disturbs: claim the oldest pending intent, chain it. *)
Definition drain_one (now : Z) (st : AuditStore) : result AuditError (option ChainedEntry * AuditStore) :=
  match pending_intents st with
  | [] => Ok (None, st)
  | id :: _ =>
      match intents st !! id with
      | None => Ok (None, st)
      | Some row =>
          entry ← append_one_intent (last (ledger st)) (ledger st) (ir_intent row) now;
          Ok (Some (mkChainedEntry (next_seq st) (ae_prev_hash entry) (ae_entry_hash entry)),
              mkAuditStore (insert_sorted seq_le (next_seq st, entry) (ledger st))
                (<[id := mark_chained row]> (intents st)) (next_seq st + 1))
      end
  end.

(** What the database does to one attempt: nothing, or an [OperationalError] that
    rolls it back. *)
Definition Attempt : Type := option (option Z).

(** [for attempt in range(_MAX_APPEND_RETRIES)], with [left] attempts still to come. *)
Fixpoint retry_loop (left : nat) (env : nat → Attempt) (now : Z) (st : AuditStore)
    : result AuditError (option ChainedEntry * AuditStore) :=
  match left with
  | O => Err unreachable
  | S left' =>
      let last_attempt := bool_decide (left' = O) in
      match env (_MAX_APPEND_RETRIES - left)%nat with
      | Some errno =>
          if negb (_is_retryable_lock_error errno) || last_attempt then Err (operational_error errno)
          else retry_loop left' env now st
      | None =>
          match drain_one now st with
          | Err _StaleTailDetected => if last_attempt then Err _StaleTailDetected else retry_loop left' env now st
          | r => r
          end
      end
  end.

Definition _drain_one_with_retry (env : nat → Attempt) (now : Z) (st : AuditStore)
    : result AuditError (option ChainedEntry * AuditStore) :=
  retry_loop _MAX_APPEND_RETRIES env now st.

(** The [while] loop: [batch] rounds left, of which each chains one intent.  An
    exception ends it; what was chained before stays chained. *)
Fixpoint drain_pending_intents (batch : nat) (env : nat → nat → Attempt) (now : Z) (st : AuditStore)
    : list ChainedEntry * option AuditError * AuditStore :=
  match batch with
  | O => ([], None, st)
  | S batch' =>
      match _drain_one_with_retry (env batch) now st with
      | Err e => ([], Some e, st)
      | Ok (None, st') => ([], None, st')
      | Ok (Some entry, st') =>
          let '(chained, error, st'') := drain_pending_intents batch' env now st' in
          (entry :: chained, error, st'')
      end
  end.

Definition count_unchained_intents (st : AuditStore) : Z := Z.of_nat (length (pending_intents st)).

(** ** [verify_chain] *)

Fixpoint verify_rows (expected_prev : string) (rows : list AuditEntry) : bool :=
  match rows with
  | [] => true
  | e :: rows' =>
      if negb (String.eqb (ae_prev_hash e) expected_prev) then false
      else if negb (String.eqb (compute_entry_hash (ae_prev_hash e) (ae_operator e) (ae_action e) (ae_payload e))
                      (ae_entry_hash e)) then false
      else verify_rows (ae_entry_hash e) rows'
  end.

Definition verify_chain (rows : list AuditEntry) : bool :=
  match rows with
  | [] => false
  | genesis :: rest =>
      if negb (String.eqb (ae_prev_hash genesis) GENESIS_HASH) then false
      else verify_rows (ae_entry_hash genesis) rest
  end.

(** ** [GET /v1/audit] *)

Definition _MAX_LIMIT : Z := 500.

Definition get_audit_log (since_seq limit : Z) (st : AuditStore) : bool * list (Z * AuditEntry) :=
  let bounded_limit := Z.to_nat (Z.max 1 (Z.min limit _MAX_LIMIT)) in
  let entries :=
    if 0 <? since_seq
    then take bounded_limit (base.filter (λ row, (since_seq <=? row.1) = true) (ledger st))
    else rev (take bounded_limit (rev (ledger st))) in
  (verify_chain (ledger st).*2, entries).

(** ** Concurrent drainers *)

(** A drainer's transaction once it holds its two row locks: the intent it claimed
    ([SKIP LOCKED]), the ledger row it locked as the tail, and, after its check, the
    row it has inserted but not committed. *)
Record Txn := mkTxn {
  tx_intent : Z;
  tx_tail : option (Z * AuditEntry);
  tx_insert : option (Z * AuditEntry);
}.

Record AuditSystem := mkAuditSystem { as_store : AuditStore; as_txns : list Txn }.

Definition with_intent (id : Z) (r : AuditIntentRow) (st : AuditStore) : AuditStore :=
  mkAuditStore (ledger st) (<[id := r]> (intents st)) (next_seq st).

Inductive audit_step : AuditSystem → AuditSystem → Prop :=
(** Some module commits an intent. *)
| step_intent st T id i created :
    intents st !! id = None →
    audit_step (mkAuditSystem st T) (mkAuditSystem (with_intent id (mkAuditIntentRow i false created) st) T)
(** A drainer claims an unclaimed intent and is granted the lock on some ledger row,
    the newest or one that has been superseded while it waited; on an empty ledger
    there is no row to lock. *)
| step_lock st T id r tail :
    intents st !! id = Some r → ir_chained r = false → id ∉ tx_intent <$> T →
    match tail with
    | Some row => row ∈ ledger st ∧ Some row ∉ tx_tail <$> T
    | None => ledger st = []
    end →
    audit_step (mkAuditSystem st T) (mkAuditSystem st (mkTxn id tail None :: T))
(** The check and the insert, uncommitted; the insert draws the next [seq]. *)
| step_insert st T1 T2 id r tail now entry :
    intents st !! id = Some r →
    append_one_intent tail (ledger st) (ir_intent r) now = Ok entry →
    audit_step (mkAuditSystem st (T1 ++ mkTxn id tail None :: T2))
      (mkAuditSystem (mkAuditStore (ledger st) (intents st) (next_seq st + 1))
         (T1 ++ mkTxn id tail (Some (next_seq st, entry)) :: T2))
| step_commit st T1 T2 id r tail row :
    intents st !! id = Some r →
    audit_step (mkAuditSystem st (T1 ++ mkTxn id tail (Some row) :: T2))
      (mkAuditSystem (mkAuditStore (insert_sorted seq_le row (ledger st))
                        (<[id := mark_chained r]> (intents st)) (next_seq st)) (T1 ++ T2))
(** A stale tail, a deadlock, a timeout or a crash rolls a transaction back. *)
| step_rollback st T1 T2 t :
    audit_step (mkAuditSystem st (T1 ++ t :: T2)) (mkAuditSystem st (T1 ++ T2)).

(** The row the schema migration inserts. *)
Definition genesis_entry (now : Z) : AuditEntry :=
  mkAuditEntry GENESIS_HASH
    (sha256 (str_bytes (GENESIS_HASH +:+ "{" +:+ quote +:+ "action" +:+ quote +:+ ":" +:+ quote +:+ "genesis" +:+ quote +:+ "}")))
    "system" "chain_genesis" (JObj [("note", JStr "audit hash-chain genesis entry")]) now.

Definition migrated (now : Z) : AuditStore := mkAuditStore [(1, genesis_entry now)] ∅ 2.

Definition audit_reachable (s : AuditSystem) : Prop :=
  ∃ now, rtc audit_step (mkAuditSystem (migrated now) []) s.

(** ** The chain *)

Definition tail_hash (p : string) (l : list AuditEntry) : string := from_option ae_entry_hash p (last l).

Definition entry_valid (p : string) (e : AuditEntry) : bool :=
  String.eqb (ae_prev_hash e) p &&
  String.eqb (compute_entry_hash (ae_prev_hash e) (ae_operator e) (ae_action e) (ae_payload e)) (ae_entry_hash e).

Lemma verify_rows_cons p e l : verify_rows p (e :: l) = entry_valid p e && verify_rows (ae_entry_hash e) l.
Proof.
  cbn. unfold entry_valid. destruct (String.eqb (ae_prev_hash e) p); [|done]. cbn.
  by destruct (String.eqb (compute_entry_hash _ _ _ _) _).
Qed.

Lemma verify_rows_snoc p l e : verify_rows p (l ++ [e]) = verify_rows p l && entry_valid (tail_hash p l) e.
Proof.
  revert p. induction l as [|x l IH]; intros p.
  - cbn [app]. rewrite verify_rows_cons. cbn. by rewrite andb_true_r.
  - cbn [app]. rewrite !verify_rows_cons, IH, andb_assoc. f_equal.
    unfold tail_hash. rewrite last_cons. by destruct (last l).
Qed.

Lemma verify_chain_snoc l e :
  l ≠ [] → verify_chain (l ++ [e]) = verify_chain l && entry_valid (tail_hash GENESIS_HASH l) e.
Proof.
  destruct l as [|g l]; [done|]. intros _. cbn [app verify_chain].
  destruct (negb _); [done|]. rewrite verify_rows_snoc. f_equal.
  unfold tail_hash. rewrite last_cons. by destruct (last l).
Qed.

Lemma append_valid tail committed i now e :
  append_one_intent tail committed i now = Ok e →
  entry_valid (from_option (ae_entry_hash ∘ snd) GENESIS_HASH tail) e = true ∧
  mkAuditIntent (ae_operator e) (ae_action e) (ae_payload e) = i ∧
  match tail with Some (s, _) => ∀ row, row ∈ committed → row.1 ≤ s | None => True end.
Proof.
  unfold append_one_intent. destruct tail as [[s t]|]; cbn.
  - destruct (existsb _ committed) eqn:Ex; [done|]. intros [= <-]. cbn. unfold entry_valid. cbn.
    rewrite !String.eqb_refl. split_and!; [done|by destruct i|].
    intros row Hr. rewrite existsb_false in Ex. apply Ex in Hr. by apply Z.ltb_ge.
  - intros [= <-]. cbn. unfold entry_valid. cbn. rewrite !String.eqb_refl. split_and!; [done|by destruct i|done].
Qed.

(** ** The ledger in [seq] order *)

Definition ascending (l : list (Z * AuditEntry)) : Prop := StronglySorted (λ a b, a.1 < b.1) l.

Lemma insert_sorted_last row l :
  (∀ x, x ∈ l → x.1 < row.1) → insert_sorted seq_le row l = l ++ [row].
Proof.
  induction l as [|x l IH]; intros H; [done|]. cbn [insert_sorted].
  assert (Hx : x.1 < row.1) by (apply H; left). unfold seq_le at 1, le_key.
  rewrite (proj2 (Z.leb_gt _ _) Hx). cbn. f_equal. apply IH. intros y Hy. apply H. by right.
Qed.

Lemma ascending_snoc l row : ascending l → (∀ x, x ∈ l → x.1 < row.1) → ascending (l ++ [row]).
Proof.
  unfold ascending. induction 1 as [|x l Hl IH Hx]; intros H; cbn [app].
  - constructor; constructor.
  - constructor.
    + apply IH. intros y Hy. apply H. by right.
    + apply Forall_app. split; [done|]. constructor; [|done]. apply H. left.
Qed.

(** The row with the greatest [seq] is the last one. *)
Lemma ascending_max l row : ascending l → row ∈ l → (∀ x, x ∈ l → x.1 ≤ row.1) → last l = Some row.
Proof.
  unfold ascending. induction 1 as [|x l Hl IH Hx]; intros Hin H; [by apply elem_of_nil in Hin|].
  rewrite last_cons. destruct l as [|y l].
  - by apply list_elem_of_singleton in Hin as ->.
  - assert (Hy : row ∈ y :: l).
    { apply elem_of_cons in Hin as [->|Hin]; [|done]. exfalso.
      rewrite Forall_forall in Hx. specialize (Hx y (list_elem_of_here _ _)).
      assert (y.1 ≤ x.1) by (apply H; right; left). lia. }
    rewrite IH; [done|done|]. intros z Hz. apply H. by right.
Qed.

(** ** Which intents are on the ledger *)

Definition chained_intents (m : gmap Z AuditIntentRow) : list AuditIntent :=
  ir_intent <$> base.filter (λ r, ir_chained r = true) (map_to_list m).*2.

Definition recorded (l : list (Z * AuditEntry)) : list AuditIntent :=
  (λ row, mkAuditIntent (ae_operator row.2) (ae_action row.2) (ae_payload row.2)) <$> tail l.

Lemma chained_intents_insert m id r :
  m !! id = None →
  chained_intents (<[id := r]> m) ≡ₚ (if ir_chained r then [ir_intent r] else []) ++ chained_intents m.
Proof.
  intros Hn. unfold chained_intents. rewrite (map_to_list_insert m id r Hn), fmap_cons.
  rewrite filter_cons. cbn [snd]. case_decide as E; [by rewrite E|]. by destruct (ir_chained r).
Qed.

Lemma chained_intents_mark m id r :
  m !! id = Some r → ir_chained r = false →
  chained_intents (<[id := mark_chained r]> m) ≡ₚ ir_intent r :: chained_intents m.
Proof.
  intros Hm Hc. rewrite <-(insert_delete_eq m id (mark_chained r)), chained_intents_insert by apply lookup_delete_eq.
  rewrite <-(insert_delete_id m id r Hm) at 2. rewrite chained_intents_insert by apply lookup_delete_eq.
  by rewrite Hc.
Qed.

(** ** The invariant *)

Record audit_ok (s : AuditSystem) : Prop := {
  ok_nonempty : ledger (as_store s) ≠ [];
  ok_ascending : ascending (ledger (as_store s));
  ok_next : ∀ row, row ∈ ledger (as_store s) → row.1 < next_seq (as_store s);
  ok_chain : verify_chain (ledger (as_store s)).*2 = true;
  ok_claims : NoDup (tx_intent <$> as_txns s);
  ok_claimed : ∀ t, t ∈ as_txns s → ∃ r, intents (as_store s) !! tx_intent t = Some r ∧ ir_chained r = false;
  ok_locks : NoDup (tx_tail <$> as_txns s);
  ok_locked : ∀ t, t ∈ as_txns s → ∃ row, tx_tail t = Some row ∧ row ∈ ledger (as_store s);
  ok_inserted : ∀ t row, t ∈ as_txns s → tx_insert t = Some row →
    tx_tail t = last (ledger (as_store s)) ∧ (∀ x, x ∈ ledger (as_store s) → x.1 < row.1) ∧
    row.1 < next_seq (as_store s) ∧
    ∃ r now, intents (as_store s) !! tx_intent t = Some r ∧
      append_one_intent (tx_tail t) (ledger (as_store s)) (ir_intent r) now = Ok row.2;
  ok_recorded : recorded (ledger (as_store s)) ≡ₚ chained_intents (intents (as_store s));
}.

Lemma migrated_ok now : audit_ok (mkAuditSystem (migrated now) []).
Proof.
  split; cbn; try done.
  - repeat constructor.
  - intros row ->%list_elem_of_singleton. done.
  - constructor.
  - by intros t ?%elem_of_nil.
  - constructor.
  - by intros t ?%elem_of_nil.
  - by intros t row ?%elem_of_nil.
Qed.

(** At most one transaction can be past its check. *)
Lemma inserted_unique s t t' row row' :
  audit_ok s → t ∈ as_txns s → t' ∈ as_txns s → tx_insert t = Some row → tx_insert t' = Some row' → t = t'.
Proof.
  intros Hok Ht Ht' Hi Hi'. destruct (ok_inserted _ Hok t row Ht Hi) as (E & _).
  destruct (ok_inserted _ Hok t' row' Ht' Hi') as (E' & _). rewrite <-E' in E.
  apply list_elem_of_lookup in Ht as [i Ei], Ht' as [j Ej].
  assert (i = j) as ->; [|congruence].
  eapply (NoDup_lookup _ i j (tx_tail t) (ok_locks _ Hok)); rewrite list_lookup_fmap, ?Ei, ?Ej; cbn; congruence.
Qed.

(** Dropping a transaction. *)
Lemma audit_ok_drop st T1 T2 t :
  audit_ok (mkAuditSystem st (T1 ++ t :: T2)) → audit_ok (mkAuditSystem st (T1 ++ T2)).
Proof.
  assert (Hsub : ∀ x, x ∈ T1 ++ T2 → x ∈ T1 ++ t :: T2).
  { intros x. rewrite !elem_of_app, elem_of_cons. tauto. }
  intros [H1 H2 H3 H4 H5 H6 H7 H8 H9 H10]. split; cbn in *; try done.
  - rewrite fmap_app in *. cbn in H5. apply NoDup_app in H5 as (Ha & Hb & Hc). apply NoDup_cons in Hc as [_ Hc].
    apply NoDup_app. split_and!; [done| |done]. intros x Hx Hx'. by apply (Hb x Hx); right.
  - intros x Hx. by apply H6, Hsub.
  - rewrite fmap_app in *. cbn in H7. apply NoDup_app in H7 as (Ha & Hb & Hc). apply NoDup_cons in Hc as [_ Hc].
    apply NoDup_app. split_and!; [done| |done]. intros x Hx Hx'. by apply (Hb x Hx); right.
  - intros x Hx. by apply H8, Hsub.
  - intros x row Hx. by apply H9, Hsub.
Qed.

Lemma audit_ok_intent st T id i created :
  intents st !! id = None → audit_ok (mkAuditSystem st T) →
  audit_ok (mkAuditSystem (with_intent id (mkAuditIntentRow i false created) st) T).
Proof.
  intros Hn [H1 H2 H3 H4 H5 H6 H7 H8 H9 H10]. cbn in *.
  assert (Hne : ∀ t r, intents st !! tx_intent t = Some r →
    <[id := mkAuditIntentRow i false created]> (intents st) !! tx_intent t = Some r).
  { intros t r Hr. rewrite lookup_insert_ne; [done|]. intros ->. congruence. }
  split; cbn; try done.
  - intros t Ht. destruct (H6 t Ht) as (r & Hr & Hc). eauto.
  - intros t row Ht Hi. destruct (H9 t row Ht Hi) as (Ha & Hb & Hc & r & now & Hr & Happ).
    split_and!; [done..|]. exists r, now. eauto.
  - by rewrite H10, chained_intents_insert.
Qed.

Lemma audit_ok_lock st T id r row :
  intents st !! id = Some r → ir_chained r = false → id ∉ tx_intent <$> T →
  row ∈ ledger st → Some row ∉ tx_tail <$> T →
  audit_ok (mkAuditSystem st T) → audit_ok (mkAuditSystem st (mkTxn id (Some row) None :: T)).
Proof.
  intros Hr Hc Hid Hrow Hlock [H1 H2 H3 H4 H5 H6 H7 H8 H9 H10]. split; cbn in *; try done.
  - by constructor.
  - intros t [->|Ht]%elem_of_cons; eauto.
  - by constructor.
  - intros t [->|Ht]%elem_of_cons; eauto.
  - intros t x [->|Ht]%elem_of_cons; [done|eauto].
Qed.

Lemma audit_ok_insert st T1 T2 id r tail now entry :
  intents st !! id = Some r → append_one_intent tail (ledger st) (ir_intent r) now = Ok entry →
  audit_ok (mkAuditSystem st (T1 ++ mkTxn id tail None :: T2)) →
  audit_ok (mkAuditSystem (mkAuditStore (ledger st) (intents st) (next_seq st + 1))
              (T1 ++ mkTxn id tail (Some (next_seq st, entry)) :: T2)).
Proof.
  intros Hr Happ [H1 H2 H3 H4 H5 H6 H7 H8 H9 H10]. cbn in *.
  assert (Hold : ∀ t, t ∈ T1 ++ mkTxn id tail (Some (next_seq st, entry)) :: T2 →
    t = mkTxn id tail (Some (next_seq st, entry)) ∨ t ∈ T1 ++ mkTxn id tail None :: T2).
  { intros t. rewrite !elem_of_app, !elem_of_cons. tauto. }
  assert (Hme : mkTxn id tail None ∈ T1 ++ mkTxn id tail None :: T2) by (apply elem_of_app; right; left).
  destruct (H8 _ Hme) as (row & Et & Hrow). cbn in Et. subst tail.
  split; cbn; try done.
  - intros x Hx. specialize (H3 x Hx). lia.
  - by rewrite fmap_app in *.
  - intros t [->|Ht]%Hold; [by apply (H6 _ Hme)|by apply H6].
  - by rewrite fmap_app in *.
  - intros t [->|Ht]%Hold; [by apply (H8 _ Hme)|by apply H8].
  - intros t x [->|Ht]%Hold Hx.
    + cbn in Hx. injection Hx as <-. cbn. split_and!; [|done|lia|by eauto].
      symmetry. apply ascending_max; [done..|].
      apply append_valid in Happ as (_ & _ & Hmax). by destruct row.
    + destruct (H9 t x Ht Hx) as (? & ? & ? & ?). split_and!; [done..|lia|done].
Qed.

Lemma recorded_snoc l row : l ≠ [] → recorded (l ++ [row]) = recorded l ++ recorded [row; row].
Proof. destruct l; [done|]. intros _. unfold recorded. cbn [tail app]. by rewrite fmap_app. Qed.

Lemma audit_ok_commit st T1 T2 id r tail row :
  intents st !! id = Some r →
  audit_ok (mkAuditSystem st (T1 ++ mkTxn id tail (Some row) :: T2)) →
  audit_ok (mkAuditSystem (mkAuditStore (insert_sorted seq_le row (ledger st))
              (<[id := mark_chained r]> (intents st)) (next_seq st)) (T1 ++ T2)).
Proof.
  intros Hr Hok. set (me := mkTxn id tail (Some row)) in *.
  assert (Hme : me ∈ T1 ++ me :: T2) by (apply elem_of_app; right; left).
  destruct (ok_inserted _ Hok me row Hme eq_refl) as (Ht & Hseq & Hnext & r' & now & Hr' & Happ). cbn in *.
  assert (r' = r) as -> by congruence. destruct (ok_claimed _ Hok me Hme) as (r' & Hr'' & Hunc).
  cbn in Hr''. assert (r' = r) as -> by congruence.
  assert (Hothers : ∀ t, t ∈ T1 ++ T2 → tx_insert t = None ∧ tx_intent t ≠ id).
  { assert (Hsub : ∀ t, t ∈ T1 ++ T2 → t ∈ T1 ++ me :: T2).
    { intros t. rewrite !elem_of_app, elem_of_cons. tauto. }
    assert (Hnew : ∀ t, t ∈ T1 ++ T2 → tx_intent t ≠ id).
    { intros t Htin E. pose proof (ok_claims _ Hok) as Hnd. cbn in Hnd. rewrite fmap_app in Hnd. cbn in Hnd.
      apply NoDup_app in Hnd as (_ & Hd & Hnd). apply NoDup_cons in Hnd as [Hnd _].
      apply elem_of_app in Htin as [Hin|Hin].
      - apply (Hd id); [|left]. rewrite <-E. by apply list_elem_of_fmap_2.
      - apply Hnd. rewrite <-E. by apply list_elem_of_fmap_2. }
    intros t Htin. split; [|by apply Hnew]. destruct (tx_insert t) as [x|] eqn:Ei; [|done]. exfalso.
    assert (t = me) as -> by (by eapply (inserted_unique _ t me x row Hok); [apply Hsub|..]).
    by apply (Hnew me Htin). }
  apply append_valid in Happ as (Hval & Hcontent & _).
  pose proof (audit_ok_drop st T1 T2 me Hok) as Hdrop.
  destruct Hdrop as [H1 H2 H3 H4 H5 H6 H7 H8 H9 H10]. cbn in *.
  rewrite (insert_sorted_last row _ Hseq). split; cbn; try done.
  - by destruct (ledger st).
  - by apply ascending_snoc.
  - intros x [Hx| ->%list_elem_of_singleton]%elem_of_app; [by apply H3|done].
  - rewrite fmap_app. cbn. rewrite verify_chain_snoc, H4 by (by destruct (ledger st)).
    cbn. unfold tail_hash. rewrite fmap_last, <-Ht. by destruct tail.
  - intros t Htin. destruct (H6 t Htin) as (r'' & ? & ?). exists r''. split; [|done].
    rewrite lookup_insert_ne; [done|]. intros E. by destruct (Hothers t Htin) as [_ []].
  - intros t Htin. destruct (H8 t Htin) as (x & ? & ?). exists x. split; [done|]. apply elem_of_app. by left.
  - intros t x Htin Hx. destruct (Hothers t Htin). congruence.
  - rewrite recorded_snoc, chained_intents_mark, H10 by done. unfold recorded. cbn. rewrite Hcontent.
    by rewrite Permutation_app_comm.
Qed.

Lemma audit_step_ok s s' : audit_step s s' → audit_ok s → audit_ok s'.
Proof.
  intros Hs Hok. destruct Hs as [st T id i created Hn|st T id r tail Hr Hc Hid Htail
    |st T1 T2 id r tail now entry Hr Happ|st T1 T2 id r tail row Hr|st T1 T2 t].
  - by apply audit_ok_intent.
  - destruct tail as [row|]; [|by destruct (ok_nonempty _ Hok)]. destruct Htail. by eapply audit_ok_lock.
  - by eapply audit_ok_insert.
  - by eapply audit_ok_commit.
  - by eapply audit_ok_drop.
Qed.

Lemma audit_reachable_ok s : audit_reachable s → audit_ok s.
Proof.
  intros [now H]. assert (Hi := migrated_ok now). revert Hi.
  induction H as [|s0 s1 s2 Hs _ IH]; [done|]. intros Hi. apply IH. by eapply audit_step_ok.
Qed.

(** ** The sequential drain *)

Lemma elem_of_pending st id :
  id ∈ pending_intents st ↔ ∃ r, intents st !! id = Some r ∧ ir_chained r = false.
Proof.
  unfold pending_intents. rewrite elem_of_sort_by, list_elem_of_fmap. split.
  - intros ([i r] & -> & H%elem_of_map_to_list%map_lookup_filter_Some). eauto.
  - intros (r & Hr). exists (id, r). split; [done|]. by apply elem_of_map_to_list, map_lookup_filter_Some.
Qed.

Lemma pending_mark st l id ids r n :
  pending_intents st = id :: ids → intents st !! id = Some r →
  pending_intents (mkAuditStore l (<[id := mark_chained r]> (intents st)) n) = ids.
Proof.
  intros Hp Hr. assert (Hc : ir_chained r = false).
  { destruct (proj1 (elem_of_pending st id)) as (r' & ? & ?); [rewrite Hp; left|congruence]. }
  pose proof (sort_by_perm Z.leb (map_to_list (base.filter (λ ir, ir_chained ir.2 = false) (intents st))).*1) as HP.
  pose proof (sort_by_sorted Z.leb (map_to_list (base.filter (λ ir, ir_chained ir.2 = false) (intents st))).*1) as HS.
  change (sort_by Z.leb (map_to_list (base.filter (λ ir, ir_chained ir.2 = false) (intents st))).*1)
    with (pending_intents st) in HP, HS. rewrite Hp in HP, HS. inversion HS as [|? ? HS' _]; subst.
  rewrite <-(sort_by_id Z.leb ids) by done. apply sort_by_perm_eq; try apply _.
  cbn. rewrite map_filter_insert_False by done. rewrite map_filter_delete.
  assert (Hf : base.filter (λ ir, ir_chained ir.2 = false) (intents st) !! id = Some r).
  { by apply map_lookup_filter_Some. }
  rewrite <-(map_to_list_delete _ id r Hf) in HP. cbn in HP. by apply Permutation_cons_inv in HP.
Qed.

Lemma drain_one_nothing now st : pending_intents st = [] → drain_one now st = Ok (None, st).
Proof. intros H. unfold drain_one. by rewrite H. Qed.

Lemma drain_one_next now st id ids :
  audit_ok (mkAuditSystem st []) → pending_intents st = id :: ids →
  ∃ r ce st', intents st !! id = Some r ∧ drain_one now st = Ok (Some ce, st') ∧
    audit_ok (mkAuditSystem st' []) ∧ pending_intents st' = ids ∧
    recorded (ledger st') = recorded (ledger st) ++ [ir_intent r] ∧
    (∀ i, i ≠ id → intents st' !! i = intents st !! i).
Proof.
  intros Hok Hp. destruct (proj1 (elem_of_pending st id)) as (r & Hr & Hc); [rewrite Hp; left|].
  destruct (last (ledger st)) as [row|] eqn:El; [|by apply last_None, (ok_nonempty _ Hok) in El].
  assert (Hrow : row ∈ ledger st) by (apply last_Some_elem_of; done).
  assert (Hmax : ∀ x, x ∈ ledger st → x.1 ≤ row.1).
  { apply last_Some in El as [l' El]. pose proof (ok_ascending _ Hok) as Ha. cbn in Ha. rewrite El in *.
    unfold ascending in Ha. apply StronglySorted_app in Ha as (Ha & _ & _).
    intros x [Hx| ->%list_elem_of_singleton]%elem_of_app; [|lia].
    assert (x.1 < row.1) by (apply Ha; [done|left]). lia. }
  assert (Happ : ∃ e, append_one_intent (Some row) (ledger st) (ir_intent r) now = Ok e).
  { unfold append_one_intent. destruct row as [s e]. replace (existsb _ _) with false; [by eexists|].
    symmetry. apply existsb_false. intros x Hx. apply Z.ltb_ge. by apply Hmax. }
  destruct Happ as [e Happ].
  pose proof (audit_ok_lock st [] id r row Hr Hc (not_elem_of_nil _) Hrow (not_elem_of_nil _) Hok) as H1.
  pose proof (audit_ok_insert st [] [] id r (Some row) now e Hr Happ H1) as H2.
  pose proof (audit_ok_commit (mkAuditStore (ledger st) (intents st) (next_seq st + 1)) [] [] id r (Some row)
    (next_seq st, e) Hr H2) as H3. cbn in H3.
  exists r, (mkChainedEntry (next_seq st) (ae_prev_hash e) (ae_entry_hash e)),
    (mkAuditStore (insert_sorted seq_le (next_seq st, e) (ledger st)) (<[id := mark_chained r]> (intents st))
       (next_seq st + 1)).
  split_and!; [done| |done|by apply pending_mark| |].
  - unfold drain_one. by rewrite Hp, Hr, El, Happ.
  - cbn. rewrite insert_sorted_last by apply (ok_next _ Hok). rewrite recorded_snoc by apply (ok_nonempty _ Hok).
    f_equal. unfold recorded. cbn. apply append_valid in Happ as (_ & -> & _). done.
  - intros i Hi. cbn. by rewrite lookup_insert_ne.
Qed.

Lemma drain_one_marks now st st' id ids r ce :
  drain_one now st = Ok (Some ce, st') → pending_intents st = id :: ids → intents st !! id = Some r →
  intents st' !! id = Some (mark_chained r).
Proof.
  unfold drain_one. intros H Hp Hr. rewrite Hp, Hr in H. apply bind_Ok in H as (e & _ & H). injection H as _ <-.
  apply lookup_insert_eq.
Qed.

(** A drain that nothing disturbs is a run of the interleaved steps. *)
Lemma drain_one_steps now st st' ce :
  ledger st ≠ [] → drain_one now st = Ok (Some ce, st') →
  rtc audit_step (mkAuditSystem st []) (mkAuditSystem st' []).
Proof.
  intros Hne Hd. unfold drain_one in Hd. destruct (pending_intents st) as [|id ids] eqn:Hp; [done|].
  destruct (proj1 (elem_of_pending st id)) as (r & Hr & Hc); [rewrite Hp; left|]. rewrite Hr in Hd.
  apply bind_Ok in Hd as (e & Happ & Hd). injection Hd as _ <-.
  destruct (last (ledger st)) as [row|] eqn:El; [|by apply last_None in El].
  eapply rtc_l; [eapply (step_lock st [] id r (Some row)); try done|].
  { apply not_elem_of_nil. }
  { split; [by apply last_Some_elem_of|apply not_elem_of_nil]. }
  eapply rtc_l; [exact (step_insert st [] [] id r (Some row) now e Hr Happ)|].
  eapply rtc_l; [|reflexivity].
  exact (step_commit (mkAuditStore (ledger st) (intents st) (next_seq st + 1)) [] [] id r (Some row) _ Hr).
Qed.

(** An attempt in reach succeeds, and only lock errors come before it. *)
Definition settles (env : nat → Attempt) : Prop :=
  ∃ i, (i < _MAX_APPEND_RETRIES)%nat ∧ env i = None ∧
    ∀ j, (j < i)%nat → ∃ e, env j = Some e ∧ _is_retryable_lock_error e = true.

Lemma retry_loop_settles env now st r : 
  settles env → drain_one now st = Ok r → _drain_one_with_retry env now st = Ok r.
Proof.
  intros (i & Hi & Hn & Hr) Hd. unfold _drain_one_with_retry.
  assert (H : ∀ left, (left ≤ _MAX_APPEND_RETRIES)%nat → (_MAX_APPEND_RETRIES - left ≤ i)%nat →
    retry_loop left env now st = Ok r); [|apply H; lia].
  induction left as [|left IH]; intros Hl Hge; [lia|]. cbn [retry_loop].
  destruct (decide (i = _MAX_APPEND_RETRIES - S left)%nat) as [->|Hne].
  - by rewrite Hn, Hd.
  - destruct (Hr (_MAX_APPEND_RETRIES - S left)%nat) as (e & -> & ->); [lia|].
    rewrite bool_decide_false by lia. cbn. apply IH; lia.
Qed.

(** C20: INV-12, under every interleaving of writers, concurrent drainers, stale tail
    locks, rollbacks and crashes.  The committed ledger is one unforked chain that
    [verify_chain] accepts, and it holds exactly the intents that are marked as
    chained, each once. *)
Theorem audit_ledger_is_linear s :
  audit_reachable s →
  verify_chain (ledger (as_store s)).*2 = true ∧
  recorded (ledger (as_store s)) ≡ₚ chained_intents (intents (as_store s)) ∧
  NoDup (ledger (as_store s)).*1.
Proof.
  intros Hok%audit_reachable_ok. split_and!; [apply (ok_chain _ Hok)|apply (ok_recorded _ Hok)|].
  pose proof (ok_ascending _ Hok) as Ha. unfold ascending in Ha.
  induction Ha as [|x l _ IH Hx]; cbn; constructor; [|done].
  intros (y & E & Hy)%list_elem_of_fmap. rewrite Forall_forall in Hx. specialize (Hx y Hy). lia.
Qed.

(** C22: Draining finishes and misses nothing.  Whatever lock errors the database
    raises, as long as one of each intent's fifty attempts gets through, one call
    chains the oldest intents in order until its batch or the backlog is used up,
    raises nothing, and leaves the rest pending and the chain valid. *)
Theorem drain_chains_the_backlog batch env now st :
  audit_reachable (mkAuditSystem st []) → (∀ k, settles (env k)) →
  let '(chained, error, st') := drain_pending_intents batch env now st in
  error = None ∧
  length chained = Nat.min batch (length (pending_intents st)) ∧
  pending_intents st' = drop batch (pending_intents st) ∧
  recorded (ledger st') =
    recorded (ledger st) ++ omap (λ id, ir_intent <$> intents st !! id) (take batch (pending_intents st)) ∧
  verify_chain (ledger st').*2 = true.
Proof.
  intros Hok%audit_reachable_ok Henv. revert st Hok. induction batch as [|batch IH]; intros st Hok.
  { cbn. rewrite app_nil_r. split_and!; try done. apply (ok_chain _ Hok). }
  cbn [drain_pending_intents]. destruct (pending_intents st) as [|id ids] eqn:Hp.
  - rewrite (retry_loop_settles _ _ _ _ (Henv _) (drain_one_nothing now st Hp)). cbn. rewrite app_nil_r, Hp.
    split_and!; try done. apply (ok_chain _ Hok).
  - destruct (drain_one_next now st id ids Hok Hp) as (r & ce & st1 & Hr & Hd & Hok1 & Hp1 & Hrec & Hother).
    rewrite (retry_loop_settles _ _ _ _ (Henv _) Hd). specialize (IH st1 Hok1). rewrite Hp1, Hrec in IH.
    destruct (drain_pending_intents batch env now st1) as [[chained error] st']. cbn.
    destruct IH as (-> & Hlen & Hpend & Hrec' & Hv). split_and!; [done|by rewrite Hlen|done| |done].
    rewrite Hr, Hrec', <-app_assoc. cbn. do 2 f_equal.
    assert (Hnd : id ∉ ids).
    { intros Hin. destruct (proj1 (elem_of_pending st1 id)) as (r' & Hr' & Hc); [by rewrite Hp1|].
      pose proof (drain_one_marks _ _ _ _ _ _ _ Hd Hp Hr) as Hm. rewrite Hm in Hr'. by simplify_eq. }
    apply list_omap_ext, Forall_Forall2_diag, Forall_forall. intros i Hi. rewrite Hother; [done|].
    intros ->. by apply Hnd, (subseteq_take batch).
Qed.

(** ** Tamper evidence *)

(** The bytes an entry's hash is taken of. *)
Definition entry_preimage (e : AuditEntry) : list Z :=
  str_bytes (ae_prev_hash e +:+ canonical_json repr_float
    (JObj [("operator", JStr (ae_operator e)); ("action", JStr (ae_action e)); ("payload", ae_payload e)])).

(** A collision of SHA-256 that the two ledgers exhibit. *)
Definition collision (l l' : list AuditEntry) : Prop :=
  ∃ e e', e ∈ l ∧ e' ∈ l' ∧ entry_preimage e ≠ entry_preimage e' ∧
          sha256 (entry_preimage e) = sha256 (entry_preimage e').

Lemma collision_app l1 l1' l2 l2' : collision l1 l1' → collision (l1 ++ l2) (l1' ++ l2').
Proof. intros (e & e' & ? & ? & ?). exists e, e'. rewrite !elem_of_app. tauto. Qed.

Definition same_event (e e' : AuditEntry) : Prop :=
  ae_prev_hash e = ae_prev_hash e' ∧ ae_entry_hash e = ae_entry_hash e' ∧ ae_operator e = ae_operator e' ∧
  ae_action e = ae_action e' ∧ normal_form (ae_payload e) = normal_form (ae_payload e').

Section tampering.
Context (Hlaws : float_repr_laws repr_float) (Hdigest : ∀ b, String.length (sha256 b) = 64%nat).

Definition hash_of (e : AuditEntry) : string :=
  compute_entry_hash (ae_prev_hash e) (ae_operator e) (ae_action e) (ae_payload e).

Lemma hash_binds e e' :
  String.length (ae_prev_hash e) = String.length (ae_prev_hash e') → hash_of e = hash_of e' →
  (ae_prev_hash e = ae_prev_hash e' ∧ ae_operator e = ae_operator e' ∧ ae_action e = ae_action e' ∧
   normal_form (ae_payload e) = normal_form (ae_payload e')) ∨
  (entry_preimage e ≠ entry_preimage e' ∧ sha256 (entry_preimage e) = sha256 (entry_preimage e')).
Proof.
  intros Hl E. destruct (decide (entry_preimage e = entry_preimage e')) as [Hb|Hb]; [left|by right].
  apply str_bytes_inj, app_inj_length in Hb as [-> Hb]; [|done].
  apply (canonical_json_inj _ Hlaws) in Hb. cbn in Hb. by simplify_eq.
Qed.

(** The last hash of a valid ledger has a digest's length, unless it is the root's. *)
Lemma tail_hash_length g l :
  l ≠ [] → verify_chain (g :: l) = true → String.length (tail_hash GENESIS_HASH (g :: l)) = 64%nat.
Proof.
  destruct l as [|e l _] using rev_ind; [done|]. intros _ Hv. rewrite app_comm_cons in *. unfold tail_hash.
  rewrite last_snoc. cbn. rewrite verify_chain_snoc in Hv by done.
  apply andb_true_iff in Hv as [_ Hv]. unfold entry_valid in Hv. apply andb_true_iff in Hv as [_ Hv].
  apply String.eqb_eq in Hv as <-. apply Hdigest.
Qed.

Lemma tail_hash_lengths g g' l l' :
  verify_chain (g :: l) = true → verify_chain (g' :: l') = true → length l = length l' →
  String.length (ae_entry_hash g) = String.length (ae_entry_hash g') →
  String.length (tail_hash GENESIS_HASH (g :: l)) = String.length (tail_hash GENESIS_HASH (g' :: l')).
Proof. destruct l, l'; try done. intros Hv Hv' _ _. by rewrite !tail_hash_length. Qed.

(** The root is not hashed: what it says can be replaced. *)
Lemma root_text_is_free g l op act pay at_ :
  verify_chain (g :: l) = true →
  verify_chain (mkAuditEntry (ae_prev_hash g) (ae_entry_hash g) op act pay at_ :: l) = true.
Proof. done. Qed.

Lemma chain_binds g g' l l' :
  verify_chain (g :: l) = true → verify_chain (g' :: l') = true → length l = length l' →
  String.length (ae_entry_hash g) = String.length (ae_entry_hash g') →
  tail_hash GENESIS_HASH (g :: l) = tail_hash GENESIS_HASH (g' :: l') →
  (ae_entry_hash g = ae_entry_hash g' ∧ Forall2 same_event l l') ∨ collision l l'.
Proof.
  revert l'. induction l as [|e l IH] using rev_ind; intros l'; destruct l' as [|e' l' _] using rev_ind;
    rewrite ?length_app; cbn [length]; intros Hv Hv' Hlen Hg Ht; try lia.
  { left. split; [exact Ht|constructor]. }
  rewrite (app_comm_cons l [e] g) in Hv, Ht. rewrite (app_comm_cons l' [e'] g') in Hv', Ht.
  rewrite verify_chain_snoc in Hv, Hv' by done. apply andb_true_iff in Hv as [Hv He], Hv' as [Hv' He'].
  unfold tail_hash in Ht. rewrite !last_snoc in Ht. cbn [from_option] in Ht.
  unfold entry_valid in He, He'. apply andb_true_iff in He as [Hp Hh], He' as [Hp' Hh'].
  apply String.eqb_eq in Hp, Hp', Hh, Hh'.
  assert (Hhash : hash_of e = hash_of e') by (unfold hash_of; congruence).
  apply hash_binds in Hhash as [(E1 & E2 & E3 & E4)|Hc]; [|right|].
  - destruct (IH l') as [[Hroot Hall]|Hc]; [done|done|lia|done|congruence|..|right; by apply collision_app].
    left. split; [done|]. apply Forall2_app; [done|]. constructor; [|constructor]. by split_and!.
  - exists e, e'. rewrite !elem_of_app, !list_elem_of_singleton. tauto.
  - rewrite Hp, Hp'. apply tail_hash_lengths; [done|done|lia|done].
Qed.

(** C21: The ledger is tamper-evident behind its first row.  If two ledgers of the same
    number of rows both pass [verify_chain] and end in the same hash, then their first
    rows carry the same two hashes, and all rows after the first record the same events in
    the same order, with the same hashes, operators, actions and payloads (up to the order of
    keys), unless two of their rows after the first are a collision of SHA-256.  So, for
    anyone who kept the number of rows and the last hash, a rewritten row other than the first
    is visible.  This assumes that the stored hashes of the two first rows have the same
    length (the column holds 64-character digests), that every digest has 64 characters, and
    that the text of a float determines its value.  The first row's own operator, action and
    payload are not covered: whatever is put in their place, a ledger that verified still
    verifies. *)
Theorem ledger_is_tamper_evident g g' l l' :
  verify_chain (g :: l) = true →
  (verify_chain (g' :: l') = true → length l = length l' →
   String.length (ae_entry_hash g) = String.length (ae_entry_hash g') →
   tail_hash GENESIS_HASH (g :: l) = tail_hash GENESIS_HASH (g' :: l') →
   (ae_prev_hash g = ae_prev_hash g' ∧ ae_entry_hash g = ae_entry_hash g' ∧ Forall2 same_event l l') ∨ collision l l') ∧
  (∀ operator action payload at_,
   verify_chain (mkAuditEntry (ae_prev_hash g) (ae_entry_hash g) operator action payload at_ :: l) = true).
Proof.
  intros Hv. split; [|intros; by apply root_text_is_free]. intros Hv' Hlen Hg Ht.
  destruct (chain_binds _ _ _ _ Hv Hv' Hlen Hg Ht) as [[Hh Hall]|Hc]; [left|by right].
  split_and!; [|done..]. unfold verify_chain in Hv, Hv'.
  destruct (String.eqb_spec (ae_prev_hash g) GENESIS_HASH) as [->|]; [|done].
  by destruct (String.eqb_spec (ae_prev_hash g') GENESIS_HASH) as [->|].
Qed.
End tampering.

(** Deleting the newest entries is not detected: every non-empty prefix of a valid
    ledger is a valid ledger. *)
Lemma truncated_ledger_verifies l l' : l ≠ [] → verify_chain (l ++ l') = true → verify_chain l = true.
Proof.
  intros Hne. induction l' as [|e l' IH] using rev_ind; [by rewrite app_nil_r|].
  rewrite app_assoc, verify_chain_snoc by (by destruct l). intros [Hv _]%andb_true_iff. by apply IH.
Qed.

(** Nor is deleting the oldest, if the first survivor is made to look like a root. *)
Lemma rerooted_ledger_verifies g l e l' :
  verify_chain (g :: l ++ e :: l') = true →
  verify_chain (mkAuditEntry GENESIS_HASH (ae_entry_hash e) (ae_operator e) (ae_action e) (ae_payload e)
                  (ae_chained_at e) :: l') = true.
Proof.
  unfold verify_chain. cbn [ae_prev_hash ae_entry_hash]. rewrite String.eqb_refl. cbn [negb].
  destruct (negb _); [done|]. generalize (ae_entry_hash g). clear g. induction l as [|x l IH]; intros p; cbn [app]; rewrite verify_rows_cons.
  - by intros [_ H]%andb_true_iff.
  - intros [_ H]%andb_true_iff. by eapply IH.
Qed.
End audit.

(** ** Witnesses *)

Module AuditSamples.
Import JsonSamples.

(** A 64-character digest of a byte string. *)
Definition digest (b : list Z) : string :=
  let h := foldl (λ h x, (h * 31 + x + 7) mod 2 ^ 64) 1 b in
  String.string_of_list_ascii
    (map (λ i, if Z.testbit h (Z.of_nat i) then "1"%char else "0"%char) (seq 0 64)).

Definition decided (payload : json) : AuditIntentRow :=
  mkAuditIntentRow (mkAuditIntent "system:worker" "verdict_issued" payload) false 3.

Definition one_payload : json := JObj [("scan_id", JStr "s1"); ("score", JNum 80)].
Definition same_payload : json := JObj [("score", JNum 80); ("scan_id", JStr "s1")].

Definition waiting_with (payload : json) : AuditStore :=
  with_intent 2 (decided (JObj [("scan_id", JStr "s2")])) (with_intent 1 (decided payload) (migrated digest 0)).

Definition drained_with (payload : json) : AuditStore :=
  match drain_one fraction digest 5 (waiting_with payload) with Ok (_, st) => st | Err _ => migrated digest 0 end.

(** Two deadlocks, then nothing. *)
Definition two_deadlocks (_ i : nat) : Attempt := if (i <? 2)%nat then Some (Some 1213) else None.

Lemma waiting_reachable payload : audit_reachable fraction digest (mkAuditSystem (waiting_with payload) []).
Proof.
  exists 0. eapply rtc_l.
  { exact (step_intent fraction digest (migrated digest 0) [] 1 (ir_intent (decided payload)) 3 eq_refl). }
  eapply rtc_l; [|reflexivity].
  exact (step_intent fraction digest (with_intent 1 (decided payload) (migrated digest 0)) [] 2
           (ir_intent (decided (JObj [("scan_id", JStr "s2")]))) 3 eq_refl).
Qed.

Lemma drained_reachable : audit_reachable fraction digest (mkAuditSystem (drained_with one_payload) []).
Proof.
  destruct (waiting_reachable one_payload) as [now Hw]. exists now. etransitivity; [exact Hw|].
  eapply (drain_one_steps _ _ 5); [done|]. vm_compute. reflexivity.
Qed.

Lemma audit_ledger_is_linear_witness :
  recorded (ledger (drained_with one_payload)) ≡ₚ chained_intents (intents (drained_with one_payload)) ∧
  recorded (ledger (drained_with one_payload)) = [ir_intent (decided one_payload)].
Proof. split; [apply (audit_ledger_is_linear _ _ _ drained_reachable)|vm_compute; reflexivity]. Defined.

Lemma drain_chains_the_backlog_witness :
  (drain_pending_intents fraction digest 50 two_deadlocks 5 (waiting_with one_payload)).1.2 = None ∧
  length (drain_pending_intents fraction digest 50 two_deadlocks 5 (waiting_with one_payload)).1.1 = 2%nat.
Proof.
  assert (H := drain_chains_the_backlog fraction digest 50 two_deadlocks 5 (waiting_with one_payload)
    (waiting_reachable one_payload)).
  destruct (drain_pending_intents fraction digest 50 two_deadlocks 5 (waiting_with one_payload)) as [[c e] st].
  destruct H as (He & Hl & _).
  - intros k. exists 2%nat. split_and!; [vm_compute; lia|done|]. intros j Hj. exists (Some 1213).
    split; [|done]. unfold two_deadlocks. by rewrite (proj2 (Nat.ltb_lt j 2)).
  - split; [exact He|]. exact Hl.
Defined.

Lemma digest_length b : String.length (digest b) = 64%nat.
Proof. done. Qed.

Definition rows_of (st : AuditStore) : list AuditEntry := (ledger st).*2.
Definition root : AuditEntry := genesis_entry digest 0.

Lemma ledger_is_tamper_evident_witness :
  Forall2 same_event (tail (rows_of (drained_with one_payload))) (tail (rows_of (drained_with same_payload)))
  ∨ collision fraction digest (tail (rows_of (drained_with one_payload))) (tail (rows_of (drained_with same_payload))).
Proof.
  destruct (ledger_is_tamper_evident fraction digest fraction_laws digest_length root root
    (tail (rows_of (drained_with one_payload))) (tail (rows_of (drained_with same_payload)))) as [H _];
    [vm_compute; reflexivity|].
  destruct H as [(_ & _ & H)|H]; [vm_compute; reflexivity..|by left|by right].
Defined.
End AuditSamples.
