(* ===== verification/Ports.v ===== *)
(** * The marketplace, as the services see it

    [libs/ports/marketplace.py]: the port through which the relay writes verdicts back
    and the reconciliation reads what is published and takes skills down.  The
    marketplace is outside this system: a port's state stands for it, every call may
    fail, and [list_published] returns whatever the other side sends. *)

From S2P Require Import Prelude Json.
Open Scope string_scope.
Open Scope list_scope.

(** A call returns the marketplace's new state and whether it raised nothing. *)
Class MarketplacePort (M : Type) : Type := {
  write_verdict (jws content_hash : json) (m : M) : M * bool;
  list_published (m : M) : M * option json;
  quarantine (skill_id reason : string) (m : M) : M * bool;
}.

(** What the marketplace shows for a package: the token last written for it.  A write
    is a PUT: when it succeeds its token is shown, whatever was shown before, and no
    other package is affected; a failed write may or may not have been applied. *)
Class MarketplaceLaws (M : Type) `{!MarketplacePort M} : Type := {
  shown (m : M) (content_hash : json) : option json;
  shown_written jws ch m :
    (write_verdict jws ch m).2 = true → shown (write_verdict jws ch m).1 ch = Some jws;
  shown_other jws ch ch' m : ch' ≠ ch → shown (write_verdict jws ch m).1 ch' = shown m ch';
}.

(** A marketplace that keeps what it is sent and fails as scripted. *)
Module PortSamples.
Record Scripted := mkScripted {
  written : list (json * json);
  published : list json;
  taken_down : list (string * string);
  outcomes : list bool;
}.

#[export] Instance scripted_port : MarketplacePort Scripted := {
  write_verdict jws ch m :=
    match outcomes m with
    | false :: o => (mkScripted (written m) (published m) (taken_down m) o, false)
    | true :: o => (mkScripted ((ch, jws) :: written m) (published m) (taken_down m) o, true)
    | [] => (mkScripted ((ch, jws) :: written m) (published m) (taken_down m) [], true)
    end;
  list_published m := (m, Some (JList (published m)));
  quarantine id reason m :=
    match outcomes m with
    | false :: o => (mkScripted (written m) (published m) (taken_down m) o, false)
    | true :: o => (mkScripted (written m) (published m) ((id, reason) :: taken_down m) o, true)
    | [] => (mkScripted (written m) (published m) ((id, reason) :: taken_down m) [], true)
    end;
}.

Definition scripted_shown (m : Scripted) (ch : json) : option json :=
  snd <$> find (λ kv, bool_decide (kv.1 = ch)) (written m).

#[export] Instance scripted_laws : MarketplaceLaws Scripted.
Proof.
  refine {| shown := scripted_shown |}.
  - intros jws ch m. cbn. unfold scripted_shown.
    destruct (outcomes m) as [|[] o]; try done; intros _; cbn; by rewrite bool_decide_true.
  - intros jws ch ch' m Hne. cbn. unfold scripted_shown.
    destruct (outcomes m) as [|[] o]; cbn; try done; by rewrite bool_decide_false.
Defined.
End PortSamples.
