(* ===== verification/Inventory.v ===== *)
(** * The skill inventory

    [apps/monolith/modules/inventory/service.py]: skills, versions, drift
    baselines, the lifecycle event log and its audit intents, with the routes of
    [inventory/router.py] and the submission transaction of [gateway/router.py] that
    call it.  The tables are a [Store]; a service call that raises leaves
    no [Store], since its caller's transaction rolls back.  [now] is the clock. *)

From S2P Require Import Prelude Json Lifecycle.
Open Scope Z_scope.
Open Scope string_scope.
Open Scope list_scope.

Record SkillRow := mkSkillRow {
  sk_source : string;
  sk_trust_tier : string;
  sk_scope : option string;
  sk_owner : option string;
  sk_created_at : Z;
}.

Record SkillVersionRow := mkSkillVersionRow {
  sv_skill_id : string;
  sv_toolchain_digest : string;
  sv_declared_perms : json;
  sv_created_at : Z;
}.

Record BaselineRow := mkBaselineRow { bl_content_hash : string; bl_approved_at : Z }.

Record SkillLifecycleEventRow := mkEvent {
  ev_skill_id : string;
  ev_content_hash : option string;
  ev_scan_id : option string;
  ev_from_state : option string;
  ev_to_state : string;
  ev_reason : string;
  ev_actor : string;
  ev_occurred_at : Z;
}.

(** The tables.  [events] and [intents] are newest first, i.e. by id descending. *)
Record Store := mkStore {
  skills : gmap string SkillRow;
  versions : gmap string SkillVersionRow;
  baselines : gmap string BaselineRow;
  events : list SkillLifecycleEventRow;
  intents : list AuditIntent;
}.

Definition empty_store : Store := mkStore ∅ ∅ ∅ [] [].

Definition set_skills (f : gmap string SkillRow → gmap string SkillRow) (st : Store) : Store :=
  mkStore (f (skills st)) (versions st) (baselines st) (events st) (intents st).
Definition set_versions (f : gmap string SkillVersionRow → gmap string SkillVersionRow) (st : Store)
    : Store := mkStore (skills st) (f (versions st)) (baselines st) (events st) (intents st).
Definition put_baseline (skill_id : string) (b : BaselineRow) (st : Store) : Store :=
  mkStore (skills st) (versions st) (<[skill_id := b]> (baselines st)) (events st) (intents st).
Definition add_event (e : SkillLifecycleEventRow) (st : Store) : Store :=
  mkStore (skills st) (versions st) (baselines st) (e :: events st) (intents st).
Definition add_intent (i : AuditIntent) (st : Store) : Store :=
  mkStore (skills st) (versions st) (baselines st) (events st) (i :: intents st).

Inductive InventoryError :=
| skill_not_registered
| no_lifecycle_events
| invalid_transition (e : InvalidTransitionError)
| ownership (e : SkillOwnershipError)
| content_registered_to_another_skill (skill_id : string)
| invalid_owner (e : OwnerError)
| not_quarantined (state : string).

Definition lift_err {E F A} (f : E → F) (m : result E A) : result F A :=
  match m with Ok a => Ok a | Err e => Err (f e) end.

Lemma lift_err_Ok {E F A} (f : E → F) (m : result E A) a : lift_err f m = Ok a ↔ m = Ok a.
Proof. destruct m; simpl; naive_solver. Qed.

(** ** Reads *)

Definition events_of (st : Store) (skill_id : string) : list SkillLifecycleEventRow :=
  base.filter (λ e, ev_skill_id e = skill_id) (events st).

(** [current_state]: [to_state] of the newest event. *)
Definition current_state (st : Store) (skill_id : string) : option string :=
  ev_to_state <$> head (events_of st skill_id).

Record RegisteredSkill := mkRegisteredSkill { rs_owner : option string; rs_trust_tier : string }.

Definition get_registered_skill (st : Store) (skill_id : string) : option RegisteredSkill :=
  (λ s, mkRegisteredSkill (sk_owner s) (sk_trust_tier s)) <$> skills st !! skill_id.

Definition count_unowned_skills (st : Store) : nat :=
  length (base.filter (λ kv, sk_owner kv.2 = None) (map_to_list (skills st))).

(** [dict.setdefault] over rows in a given order: the first row per key wins. *)
Definition first_by {A V} (key : A → string) (val : A → V) (rows : list A) : gmap string V :=
  foldl (λ m r, match m !! key r with Some _ => m | None => <[key r := val r]> m end) ∅ rows.

Definition genesis_actors (st : Store) (skill_ids : list string) : gmap string string :=
  first_by ev_skill_id ev_actor
    (base.filter (λ e, ev_skill_id e ∈ skill_ids ∧ ev_from_state e = None) (rev (events st))).

Definition identity_appears_in_inventory (st : Store) (identity : string) : bool :=
  existsb (λ e, String.eqb (ev_actor e) identity) (events st) ||
  existsb (λ kv, bool_decide (sk_owner kv.2 = Some identity)) (map_to_list (skills st)).

Definition position_of (e : SkillLifecycleEventRow) : LifecyclePosition :=
  mkLifecyclePosition (ev_skill_id e) (ev_to_state e) (ev_content_hash e).

Definition latest_lifecycle_positions (st : Store) (skill_ids : list string)
    : gmap string LifecyclePosition :=
  first_by ev_skill_id position_of (base.filter (λ e, ev_skill_id e ∈ skill_ids) (events st)).

Record UnownedSkill := mkUnownedSkill {
  us_skill_id : string;
  us_source : string;
  us_trust_tier : string;
  us_state : option string;
  us_genesis_actor : option string;
  us_created_at : Z;
}.

Definition created_then_id : (string * SkillRow) → (string * SkillRow) → bool :=
  le_key (le_pair Z.leb str_le) (λ kv, (sk_created_at kv.2, kv.1)).

Definition list_unowned_skills (st : Store) (limit offset : nat) : list UnownedSkill :=
  let unowned := base.filter (λ kv, sk_owner kv.2 = None) (map_to_list (skills st)) in
  let rows := take limit (drop offset (sort_by created_then_id unowned)) in
  let skill_ids := rows.*1 in
  let positions := latest_lifecycle_positions st skill_ids in
  let actors := genesis_actors st skill_ids in
  map (λ kv, mkUnownedSkill kv.1 (sk_source kv.2) (sk_trust_tier kv.2)
               (lp_state <$> positions !! kv.1) (actors !! kv.1) (sk_created_at kv.2)) rows.

Definition skill_id_for_content (st : Store) (content_hash : string) : option string :=
  sv_skill_id <$> versions st !! content_hash.

(** [latest_skill_version_hashes]: every version tied at the newest [created_at]. *)
Definition versions_of (st : Store) (skill_id : string) : list (string * SkillVersionRow) :=
  base.filter (λ kv, sv_skill_id kv.2 = skill_id) (map_to_list (versions st)).

Definition newest (l : list (string * SkillVersionRow)) : option Z :=
  match l with
  | [] => None
  | kv :: l' => Some (foldl Z.max (sv_created_at kv.2) (map (λ kv, sv_created_at kv.2) l'))
  end.

Definition latest_skill_version_hashes (st : Store) (skill_id : string) : list string :=
  let l := versions_of st skill_id in
  sort_by str_le ((base.filter (λ kv, Some (sv_created_at kv.2) = newest l) l).*1).

Definition lifecycle_position_for_content (st : Store) (content_hash : string)
    : option LifecyclePosition :=
  match skill_id_for_content st content_hash with
  | None => None
  | Some skill_id => latest_lifecycle_positions st [skill_id] !! skill_id
  end.

(** ** Writes *)

Definition _record_transition (skill_id : string) (content_hash : option string)
    (from_state : option string) (to_state reason actor : string) (scan_id : option string)
    (now : Z) (st : Store) : result InventoryError Store :=
  _ ← lift_err invalid_transition (validate_transition from_state to_state);
  Ok (add_intent
        (mkAuditIntent actor "skill_lifecycle_transition"
           (JObj [("skill_id", JStr skill_id); ("content_hash", JOpt content_hash);
                  ("scan_id", JOpt scan_id); ("from_state", JOpt from_state);
                  ("to_state", JStr to_state); ("reason", JStr reason)]))
        (add_event
           (mkEvent skill_id content_hash scan_id from_state to_state reason actor now) st)).

Definition transition_skill (skill_id to_state reason actor : string)
    (content_hash scan_id : option string) (now : Z) (st : Store) : result InventoryError Store :=
  match current_state st skill_id with
  | None => Err no_lifecycle_events
  | Some from_state =>
      _record_transition skill_id content_hash (Some from_state) to_state reason actor scan_id now st
  end.

Definition assign_skill_owner (skill_id new_owner reason actor : string) (expect_unowned : bool)
    (st : Store) : result InventoryError (option string * Store) :=
  match skills st !! skill_id with
  | None => Err skill_not_registered
  | Some skill =>
      let previous_owner := sk_owner skill in
      normalized ← lift_err invalid_owner
                     (validate_owner_assignment previous_owner new_owner expect_unowned);
      Ok (previous_owner,
          add_intent
            (mkAuditIntent actor "skill_owner_assigned"
               (JObj [("skill_id", JStr skill_id); ("previous_owner", JOpt previous_owner);
                      ("new_owner", JStr normalized); ("reason", JStr reason)]))
            (set_skills
               (insert skill_id (mkSkillRow (sk_source skill) (sk_trust_tier skill) (sk_scope skill)
                                   (Some normalized) (sk_created_at skill))) st))
  end.

Definition register_skill_version (skill_id source trust_tier content_hash toolchain_digest : string)
    (declared_perms : json) (operator : string) (actor_is_admin : bool) (scope : option string)
    (now : Z) (st : Store) : result InventoryError Store :=
  st1 ← match skills st !! skill_id with
        | None =>
            Ok (set_skills (insert skill_id (mkSkillRow source trust_tier scope (Some operator) now)) st)
        | Some existing_skill =>
            _ ← lift_err ownership
                  (authorize_skill_write (sk_owner existing_skill) operator actor_is_admin);
            Ok st
        end;
  let existing_version := versions st !! content_hash in
  st2 ← match existing_version with
        | Some v =>
            _ ← guard_err (String.eqb (sv_skill_id v) skill_id)
                  (content_registered_to_another_skill (sv_skill_id v));
            Ok st1
        | None =>
            Ok (set_versions
                  (insert content_hash (mkSkillVersionRow skill_id toolchain_digest declared_perms now))
                  st1)
        end;
  let prior_state := current_state st skill_id in
  let reason :=
    match prior_state, existing_version with
    | None, _ => "new submission"
    | Some _, Some _ => "resubmission of existing content"
    | Some _, None => "new content for existing skill"
    end in
  _record_transition skill_id (Some content_hash) prior_state "submitted" reason operator None now st2.

Definition set_baseline (skill_id content_hash actor : string) (now : Z) (st : Store) : Store :=
  add_intent
    (mkAuditIntent actor "baseline_set"
       (JObj [("skill_id", JStr skill_id); ("content_hash", JStr content_hash)]))
    (put_baseline skill_id (mkBaselineRow content_hash now) st).

(** The content the skill was last published at, skipping events without content. *)
Definition prior_published_hash (st : Store) (skill_id : string) : option string :=
  head (base.filter (λ e, ev_to_state e = "published" ∧ ev_content_hash e ≠ None) (events_of st skill_id))
    ≫= ev_content_hash.

Definition advance_baseline_on_publish (skill_id content_hash actor : string) (now : Z) (st : Store)
    : bool * Store :=
  let adopt := (true, set_baseline skill_id content_hash actor now st) in
  match baselines st !! skill_id with
  | Some existing =>
      if String.eqb (bl_content_hash existing) content_hash then (true, st)
      else if bool_decide (prior_published_hash st skill_id = Some (bl_content_hash existing))
           then adopt else (false, st)
  | None => adopt
  end.

(** ** Callers *)

(** [inventory/router.py]: [_do_transition], used for quarantine and retire. *)
Definition _do_transition (skill_id to_state reason subject : string) (now : Z) (st : Store)
    : result InventoryError Store :=
  transition_skill skill_id to_state reason subject None None now st.

Definition quarantine_skill (skill_id reason subject : string) (now : Z) (st : Store)
    : result InventoryError Store := _do_transition skill_id "quarantined" reason subject now st.

Definition retire_skill (skill_id reason subject : string) (now : Z) (st : Store)
    : result InventoryError Store := _do_transition skill_id "retired" reason subject now st.

Definition restore_skill (skill_id reason subject : string) (now : Z) (st : Store)
    : result InventoryError Store :=
  match current_state st skill_id with
  | None => Err skill_not_registered
  | Some state =>
      _ ← guard_err (String.eqb state "quarantined") (not_quarantined state);
      transition_skill skill_id "published" reason subject None None now st
  end.

Definition set_skill_owner (skill_id owner reason subject : string) (expect_unowned : bool)
    (st : Store) : result InventoryError Store :=
  snd <$> assign_skill_owner skill_id owner reason subject expect_unowned st.

Definition set_skill_baseline (skill_id content_hash subject : string) (now : Z) (st : Store)
    : result InventoryError Store :=
  match skills st !! skill_id with
  | None => Err skill_not_registered
  | Some _ => Ok (set_baseline skill_id content_hash subject now st)
  end.

(** The inventory transaction of [gateway/router.py]'s [create_scan]: the version is
    registered and the skill moves to [scanning] for the scan just submitted. *)
Definition submit_version (skill_id trust_tier content_hash toolchain_digest : string)
    (declared_perms : json) (subject : string) (caller_is_admin : bool) (scan_id : string)
    (now : Z) (st : Store) : result InventoryError Store :=
  st1 ← register_skill_version skill_id "web-upload" trust_tier content_hash toolchain_digest
          declared_perms subject caller_is_admin None now st;
  transition_skill skill_id "scanning" ("scan " +:+ scan_id +:+ " submitted") subject
    (Some content_hash) (Some scan_id) now st1.
