(* ===== verification/GateService.v ===== *)
(** * Recording gate decisions

    [apps/monolith/modules/gate/service.py]: the verdict, its outbox event and its
    audit intent are written in one transaction; waivers are granted under four
    eyes and revoked.  The signing service is a parameter: [sign_verdict] returns
    the token for a payload and [claim_jti] reads its id.  A call that raises
    leaves no store, since its caller's transaction rolls back. *)

From S2P Require Import Prelude Float64 Models Scoring Gate GateSafety Json.
From Stdlib Require Import QArith.
Open Scope string_scope.
Open Scope list_scope.
Open Scope Z_scope.

Record VerdictRow := mkVerdictRow {
  v_scan_id : string;
  v_content_hash : string;
  v_verdict : string;
  v_policy_version : string;
  v_jti : string;
  v_jws_signature : string;
  v_effective_severity : Z;
  v_score : Z;
  v_reasons : list string;
  v_fail_closed : bool;
  v_issued_at : Z;
}.

Record AllowlistRow := mkAllowlistRow {
  al_scope_type : string;
  al_scope_value : string;
  al_rule_id : string;
  al_expires_at : Q;
  al_approved_by : string;
  al_requested_by : string;
  al_reason : option string;
}.

Record GateOutboxRow := mkGateOutboxRow {
  ob_aggregate_id : string;
  ob_event_type : string;
  ob_payload : json;
  ob_dispatched : bool;
  ob_created_at : Z;
}.

(** gate's tables; [outbox] in id order, [gate_intents] newest first. *)
Record GateStore := mkGateStore {
  verdicts : gmap string VerdictRow;
  allowlist_rows : gmap string AllowlistRow;
  outbox : list GateOutboxRow;
  gate_intents : list AuditIntent;
}.

Inductive GateServiceError :=
| duplicate_verdict
| duplicate_jti
| allowlist_invalid (e : AllowlistEntryError)
| timestamp_out_of_range
| allowlist_not_found.

Definition set_verdict (r : VerdictRow) (st : GateStore) : GateStore :=
  mkGateStore (<[v_scan_id r := r]> (verdicts st)) (allowlist_rows st) (outbox st) (gate_intents st).
Definition push_outbox (r : GateOutboxRow) (st : GateStore) : GateStore :=
  mkGateStore (verdicts st) (allowlist_rows st) (outbox st ++ [r]) (gate_intents st).
Definition push_intent (i : AuditIntent) (st : GateStore) : GateStore :=
  mkGateStore (verdicts st) (allowlist_rows st) (outbox st) (i :: gate_intents st).
Definition set_allowlist (f : gmap string AllowlistRow → gmap string AllowlistRow) (st : GateStore)
    : GateStore := mkGateStore (verdicts st) (f (allowlist_rows st)) (outbox st) (gate_intents st).

(** The unique index on [verdict.jti]. *)
Definition jti_taken (st : GateStore) (scan_id jti : string) : bool :=
  existsb (λ kv, negb (String.eqb kv.1 scan_id) && String.eqb (v_jti kv.2) jti)
    (map_to_list (verdicts st)).

Section gate_service.
Variable exp64 : Q → Q.
Variable sign_verdict : json → Z → string.
Variable claim_jti : string → string.

(** The token's payload and the outbox event, shared by a decision and a review. *)
Definition verdict_payload (content_hash verdict policy_version : string)
    (effective_severity score : Z) : json :=
  JObj [("content_hash", JStr content_hash); ("verdict", JStr verdict);
        ("policy_version", JStr policy_version); ("effective_severity", JNum effective_severity);
        ("score", JNum score)].

Definition verdict_issued_event (scan_id content_hash verdict jti jws : string) (now : Z)
    : GateOutboxRow :=
  mkGateOutboxRow scan_id "verdict_issued"
    (JObj [("scan_id", JStr scan_id); ("content_hash", JStr content_hash);
           ("verdict", JStr verdict); ("jti", JStr jti); ("jws", JStr jws)]) false now.

Definition decide_and_record (scan_id : string) (scan_result : ScanResult) (policy : GatePolicy)
    (trust_tier : TrustTier) (allowlist : list AllowlistEntry) (operator : string) (now : Q)
    (extra_reasons : list string) (clock : Z) (st : GateStore)
    : result GateServiceError (VerdictResult * GateStore) :=
  let vr := gate_decide exp64 scan_result policy trust_tier allowlist now 0 None in
  let reasons := vr_reasons vr ++ extra_reasons in
  let name := verdict_name (vr_verdict vr) in
  let jws := sign_verdict (verdict_payload (sr_content_hash scan_result) name (vr_policy_version vr)
                             (sev_val (vr_effective_severity vr)) (vr_score vr)) clock in
  let jti := claim_jti jws in
  let row := mkVerdictRow scan_id (sr_content_hash scan_result) name (vr_policy_version vr) jti jws
               (sev_val (vr_effective_severity vr)) (vr_score vr) reasons (vr_fail_closed vr) clock in
  let intent := mkAuditIntent operator "verdict_issued"
    (JObj [("scan_id", JStr scan_id); ("content_hash", JStr (sr_content_hash scan_result));
           ("verdict", JStr name); ("policy_version", JStr (vr_policy_version vr));
           ("reasons", JList (map JStr reasons))]) in
  _ ← guard_err (bool_decide (verdicts st !! scan_id = None)) duplicate_verdict;
  _ ← guard_err (negb (jti_taken st scan_id jti)) duplicate_jti;
  Ok (vr, push_intent intent
            (push_outbox (verdict_issued_event scan_id (sr_content_hash scan_result) name jti jws clock)
               (set_verdict row st))).

Record IssuedVerdict := mkIssuedVerdict {
  iv_content_hash : string;
  iv_verdict : string;
  iv_issued_at : Z;
}.

Definition newest_first (a b : VerdictRow) : bool := v_issued_at b <=? v_issued_at a.

Definition list_issued_verdicts (st : GateStore) : list IssuedVerdict :=
  map (λ r, mkIssuedVerdict (v_content_hash r) (v_verdict r) (v_issued_at r))
    (sort_by newest_first ((map_to_list (verdicts st)).*2)).

Definition list_pending_reviews (st : GateStore) : list VerdictRow :=
  base.filter (λ r, v_verdict r = "REVIEW") ((map_to_list (verdicts st)).*2).

(** [get_verdict_view]: the fields another module may project. *)
Record VerdictView := mkVerdictView {
  vv_verdict : string;
  vv_score : Z;
  vv_policy_version : string;
  vv_issued_at : Z;
  vv_jws_signature : string;
  vv_fail_closed : bool;
}.

Definition get_verdict_view (st : GateStore) (scan_id : string) : option VerdictView :=
  (λ r, mkVerdictView (v_verdict r) (v_score r) (v_policy_version r) (v_issued_at r)
          (v_jws_signature r) (v_fail_closed r)) <$> verdicts st !! scan_id.

(** ** Waivers *)

Definition _allowlist_row_to_entry (r : AllowlistRow) : result AllowlistEntryError AllowlistEntry :=
  AllowlistEntry_new (al_scope_type r) (al_scope_value r) (al_rule_id r) (Fin (al_expires_at r))
    (al_approved_by r) (al_requested_by r) (default "" (al_reason r)).

Definition list_active_allowlist_rows (st : GateStore) (now : Q) : list AllowlistRow :=
  base.filter (λ r, qlt now (al_expires_at r) = true) ((map_to_list (allowlist_rows st)).*2).

Fixpoint sequence_entries (l : list AllowlistRow) : result AllowlistEntryError (list AllowlistEntry) :=
  match l with
  | [] => Ok []
  | r :: l' => e ← _allowlist_row_to_entry r; es ← sequence_entries l'; Ok (e :: es)
  end.

Definition list_active_allowlist_entries (st : GateStore) (now : Q)
    : result AllowlistEntryError (list AllowlistEntry) :=
  sequence_entries (list_active_allowlist_rows st now).

(** [datetime.fromtimestamp] and the column's precision: [None] when it raises. *)
Variable to_datetime : pyfloat → option Q.

Definition grant_allowlist_entry (id scope_type scope_value rule_id : string) (expires_at : pyfloat)
    (approved_by requested_by reason : string) (st : GateStore)
    : result GateServiceError (AllowlistRow * GateStore) :=
  match AllowlistEntry_new scope_type scope_value rule_id expires_at approved_by requested_by reason with
  | Err e => Err (allowlist_invalid e)
  | Ok _ =>
      match to_datetime expires_at with
      | None => Err timestamp_out_of_range
      | Some at_ =>
          let row := mkAllowlistRow scope_type scope_value rule_id at_ approved_by requested_by
                       (Some reason) in
          Ok (row,
              push_intent
                (mkAuditIntent approved_by "allowlist_granted"
                   (JObj [("allowlist_id", JStr id); ("scope_type", JStr scope_type);
                          ("scope_value", JStr scope_value); ("rule_id", JStr rule_id);
                          ("requested_by", JStr requested_by)]))
                (set_allowlist (insert id row) st))
      end
  end.

Definition revoke_allowlist_entry (allowlist_id actor : string) (st : GateStore)
    : result GateServiceError GateStore :=
  match allowlist_rows st !! allowlist_id with
  | None => Err allowlist_not_found
  | Some row =>
      Ok (push_intent
            (mkAuditIntent actor "allowlist_revoked"
               (JObj [("allowlist_id", JStr allowlist_id); ("scope_type", JStr (al_scope_type row));
                      ("scope_value", JStr (al_scope_value row)); ("rule_id", JStr (al_rule_id row))]))
            (set_allowlist (delete allowlist_id) st))
  end.

(** ** What a recorded decision leaves behind *)

(** The event and the intent that announce a verdict row. *)
Definition announces (o : GateOutboxRow) (r : VerdictRow) : Prop :=
  ob_aggregate_id o = v_scan_id r ∧ ob_event_type o = "verdict_issued" ∧
  ob_payload o = JObj [("scan_id", JStr (v_scan_id r)); ("content_hash", JStr (v_content_hash r));
                       ("verdict", JStr (v_verdict r)); ("jti", JStr (v_jti r));
                       ("jws", JStr (v_jws_signature r))].

Lemma decide_and_record_inv id sr p t al op now ex clock st vr st' :
  decide_and_record id sr p t al op now ex clock st = Ok (vr, st') →
  vr = gate_decide exp64 sr p t al now 0 None ∧ verdicts st !! id = None ∧
  ∃ row o i,
    v_scan_id row = id ∧ v_content_hash row = sr_content_hash sr ∧
    v_verdict row = verdict_name (vr_verdict vr) ∧ v_score row = vr_score vr ∧
    v_fail_closed row = vr_fail_closed vr ∧ v_reasons row = vr_reasons vr ++ ex ∧
    v_jti row = claim_jti (v_jws_signature row) ∧ jti_taken st id (v_jti row) = false ∧
    v_jws_signature row = sign_verdict
      (verdict_payload (v_content_hash row) (v_verdict row) (v_policy_version row)
         (v_effective_severity row) (v_score row)) clock ∧
    announces o row ∧ ob_dispatched o = false ∧
    ai_operator i = op ∧ ai_action i = "verdict_issued" ∧
    st' = mkGateStore (<[id := row]> (verdicts st)) (allowlist_rows st) (outbox st ++ [o])
            (i :: gate_intents st).
Proof.
  unfold decide_and_record. intros (u1 & H1%guard_err_Ok & H)%bind_Ok.
  apply bind_Ok in H as (u2 & H2%guard_err_Ok & H). apply bool_decide_eq_true in H1.
  apply negb_true_iff in H2. injection H as <- <-. split; [done|]. split; [done|].
  eexists _, _, _. split; [|split_and!]; [..|reflexivity]; try reflexivity; [exact H2|].
  by split_and!.
Qed.

(** ** Waivers that reach a decision *)

(** A waiver row whose columns pass the checks of the kernel's constructor. *)
Definition waiver_row_ok (r : AllowlistRow) : Prop :=
  waiver_fields_ok (al_scope_type r) (al_scope_value r) (al_rule_id r) (al_approved_by r)
    (al_requested_by r).

Lemma grant_allowlist_entry_inv id sty sv rule ex ap rq re st row st' :
  grant_allowlist_entry id sty sv rule ex ap rq re st = Ok (row, st') →
  waiver_row_ok row ∧ ∃ i, ai_operator i = ap ∧
  st' = mkGateStore (verdicts st) (<[id := row]> (allowlist_rows st)) (outbox st) (i :: gate_intents st).
Proof.
  unfold grant_allowlist_entry. destruct (AllowlistEntry_new _ _ _ _ _ _ _) as [e|] eqn:E; [|done].
  destruct (to_datetime ex) as [d|]; [|done]. injection 1 as <- <-.
  split; [|eexists (mkAuditIntent ap _ _); by split].
  by apply AllowlistEntry_new_iff in E as (? & _ & _).
Qed.

Lemma revoke_allowlist_entry_inv id actor st st' :
  revoke_allowlist_entry id actor st = Ok st' →
  ∃ i, st' = mkGateStore (verdicts st) (delete id (allowlist_rows st)) (outbox st) (i :: gate_intents st).
Proof.
  unfold revoke_allowlist_entry. destruct (allowlist_rows st !! id); [|done].
  injection 1 as <-. by eexists.
Qed.

Lemma sequence_entries_ok now l :
  qle 0 now = true → (∀ r, r ∈ l → waiver_row_ok r ∧ qlt now (al_expires_at r) = true) →
  ∃ es, sequence_entries l = Ok es ∧
  Forall2 (λ r e, ae_rule_id e = al_rule_id r ∧ ae_scope_type e = al_scope_type r ∧
                  ae_scope_value e = al_scope_value r ∧ ae_approved_by e ≠ ae_requested_by e ∧
                  fle (ae_expires_at e) (Fin now) = false) l es.
Proof.
  intros Hnow. induction l as [|r l IH]; intros Hl; [by exists []|].
  destruct IH as (es & E & HF); [intros r' ?; apply Hl; by right|].
  destruct (Hl r) as [Hr Hx]; [by left|].
  assert (Hf : ∀ q, qle q now = true → fle (Fin (al_expires_at r)) (Fin q) = false).
  { intros q Hq. cbn. apply not_true_iff_false. intros H. unfold qlt in Hx.
    apply negb_true_iff, not_true_iff_false in Hx. apply Hx.
    by apply (leB_trans (le := qle) _ q). }
  assert (E1 : _allowlist_row_to_entry r = Ok (mkAllowlistEntry (al_scope_type r) (al_scope_value r)
    (al_rule_id r) (Fin (al_expires_at r)) (al_approved_by r) (al_requested_by r)
    (default "" (al_reason r)))) by (apply AllowlistEntry_new_iff; by split_and!; [|apply Hf|]).
  eexists. simpl. rewrite E1, E. split; [reflexivity|]. constructor; [|done]. cbn.
  split_and!; try done; [apply Hr|apply Hf, (leB_refl qle)].
Qed.

Definition skill_scoped (e : AllowlistEntry) : bool := String.eqb (ae_scope_type e) "skill_id".

Lemma no_skill_active (al : list AllowlistEntry) now ch :
  base.filter (λ e, is_active e now ch None) (base.filter (λ e, negb (skill_scoped e)) al) =
  base.filter (λ e, is_active e now ch None) al.
Proof.
  rewrite list_filter_filter. apply list_filter_iff. intros e. unfold skill_scoped, is_active.
  destruct (fle _ _); [naive_solver|].
  destruct (String.eqb (ae_scope_type e) "content_hash") eqn:E.
  - apply String.eqb_eq in E as ->. naive_solver.
  - destruct (String.eqb (ae_scope_type e) "skill_id"); naive_solver.
Qed.

Lemma gate_decide_skill_scoped sr p t al now :
  gate_decide exp64 sr p t al now 0 None =
  gate_decide exp64 sr p t (base.filter (λ e, negb (skill_scoped e)) al) now 0 None.
Proof. etrans; [apply gate_decide_active|]. rewrite <-no_skill_active. symmetry. apply gate_decide_active. Qed.

(** Skill-scoped waivers are inert.  [decide_and_record] never hands [decide] a
    skill id, so an allowlist entry of scope "skill_id", which the allowlist accepts,
    never changes a recorded decision, its reasons, score or token: every scan is
    recorded as if the skill-scoped entries were not in the allowlist. *)
Theorem skill_scoped_waivers_are_inert id sr p t al op now ex clock st :
  decide_and_record id sr p t al op now ex clock st =
  decide_and_record id sr p t (base.filter (λ e, negb (skill_scoped e)) al) op now ex clock st.
Proof.
  unfold decide_and_record. by rewrite (gate_decide_skill_scoped sr p t al now).
Qed.
End gate_service.
