(* ===== verification/Relay.v ===== *)
(** * The outbox relay and the SIEM feed

    [apps/monolith/modules/integration_relay/]: [drain_pending_outbox] ([service.py]) sends
    gate's outbox events to the marketplace, one row per transaction, and hands them
    to the SIEM; [siem.py] turns a verdict event into one CEF syslog line.  A row's id
    is its position in gate's outbox. *)

From S2P Require Import Prelude Float64 Models Scoring Gate GateSafety Json Ports GateService JsonText.
From Stdlib Require Import QArith Ascii.
Open Scope string_scope.
Open Scope list_scope.
Open Scope Z_scope.

(** ** [service.py] *)

Record DrainAttempt := mkDrainAttempt { row_id : option nat; succeeded : bool }.

Definition dispatch (r : GateOutboxRow) : GateOutboxRow :=
  mkGateOutboxRow (ob_aggregate_id r) (ob_event_type r) (ob_payload r) true (ob_created_at r).

Section relay.
Context {M : Type} `{!MarketplacePort M}.

(** What the relay works on: gate's outbox, the marketplace if one is configured, and
    the events handed to the SIEM notifier if one is.  [emit]'s outcome is ignored. *)
Record RelayState := mkRelayState {
  rows : list GateOutboxRow;
  marketplace : option M;
  notified : option (list json);
}.

(** [WHERE NOT dispatched AND id NOT IN exclude ORDER BY id LIMIT 1], from row [i] on. *)
Fixpoint next_row (exclude : list nat) (i : nat) (l : list GateOutboxRow) : option (nat * GateOutboxRow) :=
  match l with
  | [] => None
  | r :: l' =>
      if negb (ob_dispatched r) && negb (bool_decide (i ∈ exclude)) then Some (i, r)
      else next_row exclude (S i) l'
  end.

Definition event_json (r : GateOutboxRow) : json :=
  JObj [("event_type", JStr (ob_event_type r)); ("payload", ob_payload r)].

(** The dispatch of one row: the marketplace and the notifier after it, and whether
    the row counts as dispatched. *)
Definition deliver (r : GateOutboxRow) (m : option M) (n : option (list json))
    : option M * option (list json) * bool :=
  match m with
  | Some mk =>
      if String.eqb (ob_event_type r) "verdict_issued" then
        match json_get "jws" (ob_payload r), json_get "content_hash" (ob_payload r) with
        | Some jws, Some content_hash =>
            let '(mk', ok) := write_verdict jws content_hash mk in
            if ok then (Some mk', (λ log, log ++ [event_json r]) <$> n, true) else (Some mk', n, false)
        | _, _ => (m, n, false)  (* KeyError, inside the try *)
        end
      else (m, n, true)
  | None => (m, n, true)
  end.

Definition drain_one (exclude_ids : list nat) (st : RelayState) : DrainAttempt * RelayState :=
  match next_row exclude_ids 0 (rows st) with
  | None => (mkDrainAttempt None false, st)
  | Some (i, row) =>
      let '(m, n, ok) := deliver row (marketplace st) (notified st) in
      if ok then (mkDrainAttempt (Some i) true, mkRelayState (alter dispatch i (rows st)) m n)
      else (mkDrainAttempt (Some i) false, mkRelayState (rows st) m n)
  end.

(** The [for _ in range(batch_size)] loop. *)
Fixpoint drain_loop (batch : nat) (failed_ids : list nat) (drained : nat) (st : RelayState)
    : nat * RelayState :=
  match batch with
  | O => (drained, st)
  | S batch' =>
      let '(attempt, st') := drain_one failed_ids st in
      match row_id attempt with
      | None => (drained, st')
      | Some i =>
          if succeeded attempt then drain_loop batch' failed_ids (S drained) st'
          else drain_loop batch' (i :: failed_ids) drained st'
      end
  end.

Definition drain_pending_outbox (batch_size : nat) (st : RelayState) : nat * RelayState :=
  drain_loop batch_size [] 0 st.

(** ** One pass *)

(** The reference: walk the rows once, in id order, offering each undispatched row
    once, until [batch] rows were offered. *)
Fixpoint pass (batch : nat) (l : list GateOutboxRow) (m : option M) (n : option (list json))
    : nat * list GateOutboxRow * option M * option (list json) :=
  match l with
  | [] => (0%nat, [], m, n)
  | r :: l' =>
      if ob_dispatched r then
        let '(k, l'', m', n') := pass batch l' m n in (k, r :: l'', m', n')
      else match batch with
      | O => (0%nat, l, m, n)
      | S batch' =>
          let '(m1, n1, ok) := deliver r m n in
          let '(k, l'', m', n') := pass batch' l' m1 n1 in
          (if ok then S k else k, (if ok then dispatch r else r) :: l'', m', n')
      end
  end.

Definition one_pass (batch : nat) (st : RelayState) : nat * RelayState :=
  let '(k, l, m, n) := pass batch (rows st) (marketplace st) (notified st) in (k, mkRelayState l m n).

Lemma next_row_skip exclude i pre l :
  (∀ j r, pre !! j = Some r → ob_dispatched r = true ∨ (i + j)%nat ∈ exclude) →
  next_row exclude i (pre ++ l) = next_row exclude (i + length pre) l.
Proof.
  revert i. induction pre as [|r pre IH]; intros i H; cbn [app length].
  { by rewrite Nat.add_0_r. }
  cbn [next_row]. destruct (negb (ob_dispatched r) && _) eqn:E.
  - bool_prop. destruct (H 0%nat r eq_refl) as [Hd|Hd]; [congruence|]. by rewrite Nat.add_0_r in Hd.
  - rewrite IH; [f_equal; lia|]. intros j r' Hj. specialize (H (S j) r' Hj).
    by replace (S i + j)%nat with (i + S j)%nat by lia.
Qed.

Lemma pass_loop batch : ∀ pre l m n failed drained,
  (∀ j r, pre !! j = Some r → ob_dispatched r = true ∨ j ∈ failed) →
  (∀ j, j ∈ failed → (j < length pre)%nat) →
  drain_loop batch failed drained (mkRelayState (pre ++ l) m n) =
  let '(k, l', m', n') := pass batch l m n in ((drained + k)%nat, mkRelayState (pre ++ l') m' n').
Proof.
  intros pre l. revert batch pre. induction l as [|r l IH]; intros batch pre m n failed drained Hpre Hf.
  - destruct batch; cbn; [by rewrite Nat.add_0_r|]. unfold drain_one. cbn.
    rewrite next_row_skip by (by intros j r' ?%Hpre). cbn. by rewrite Nat.add_0_r.
  - assert (Hsnoc : ∀ r', (∀ j x, (pre ++ [r']) !! j = Some x → ob_dispatched x = true ∨ j ∈ failed) ↔
      (ob_dispatched r' = true ∨ length pre ∈ failed)).
    { intros r'. split.
      - intros H. apply H, list_lookup_middle. done.
      - intros H j x [Hj|[Hge Hx]]%lookup_app_Some; [by apply Hpre|].
        destruct (j - length pre)%nat as [|k] eqn:Ek; [|done]. cbn in Hx. injection Hx as ->.
        by replace j with (length pre) by lia. }
    cbn [pass]. destruct (ob_dispatched r) eqn:Ed.
    + rewrite (cons_middle r pre l), app_assoc.
      destruct (pass batch l m n) as [[[k l'] m'] n'] eqn:Ep.
      rewrite (IH batch (pre ++ [r]) m n failed drained).
      * by rewrite Ep, <-app_assoc.
      * apply Hsnoc. by left.
      * intros j Hj. rewrite length_app. cbn. specialize (Hf j Hj). lia.
    + destruct batch as [|batch]; [by cbn; rewrite Nat.add_0_r|]. cbn [drain_loop]. unfold drain_one. cbn [rows].
      rewrite next_row_skip by (by intros j r' ?%Hpre). cbn [next_row].
      rewrite Ed, bool_decide_false by (intros Hin%Hf; lia). cbn [negb andb marketplace notified].
      destruct (deliver r m n) as [[m1 n1] ok] eqn:Edel.
      destruct (pass batch l m1 n1) as [[[k l'] m'] n'] eqn:Ep. destruct ok; cbn [row_id succeeded].
      * replace (alter dispatch (0 + length pre)%nat (pre ++ r :: l)) with ((pre ++ [dispatch r]) ++ l).
        2:{ rewrite Nat.add_0_l, alter_app_r_alt, Nat.sub_diag by lia. by rewrite <-app_assoc. }
        rewrite (IH batch (pre ++ [dispatch r]) m1 n1 failed (S drained)).
        -- rewrite Ep, <-app_assoc. cbn. f_equal. lia.
        -- apply Hsnoc. by left.
        -- intros j Hj. rewrite length_app. cbn. specialize (Hf j Hj). lia.
      * rewrite (cons_middle r pre l), app_assoc.
        rewrite (IH batch (pre ++ [r]) m1 n1 ((0 + length pre)%nat :: failed) drained).
        -- by rewrite Ep, <-app_assoc.
        -- intros j x [Hj|[Hge Hx]]%lookup_app_Some.
           ++ destruct (Hpre j x Hj); [by left|right; by right].
           ++ right. destruct (j - length pre)%nat as [|q] eqn:Eq; [|done].
              replace j with (length pre) by lia. left.
        -- intros j [->|Hj]%elem_of_cons; rewrite length_app; cbn; [lia|]. specialize (Hf j Hj). lia.
Qed.

Lemma relay_pass batch st : drain_pending_outbox batch st = one_pass batch st.
Proof.
  unfold drain_pending_outbox, one_pass. destruct st as [l m n]. cbn [rows marketplace notified].
  pose proof (pass_loop batch [] l m n [] 0) as H. cbn [app] in H.
  destruct (pass batch l m n) as [[[k l'] m'] n']. rewrite H; [done|by intros ? ? ?|by intros ? ?%elem_of_nil].
Qed.

(** The relay's loop, which queries the table again after every row and excludes
    what just failed, is one walk over the undispatched events in order: each is
    offered to the marketplace at most once per call, the first [batch_size] of them
    exactly once, whatever the others do, and a row is marked dispatched exactly
    when its own dispatch succeeded. *)
Theorem relay_is_one_pass batch st : drain_pending_outbox batch st = one_pass batch st.
Proof. apply relay_pass. Qed.

(** ** What the marketplace ends up showing *)

Definition undispatched (l : list GateOutboxRow) : list GateOutboxRow :=
  base.filter (λ r, ob_dispatched r = false) l.

(** A row's verdict event: its package and its token. *)
Definition verdict_event (r : GateOutboxRow) : option (json * json) :=
  if String.eqb (ob_event_type r) "verdict_issued" then
    ch ← json_get "content_hash" (ob_payload r); jws ← json_get "jws" (ob_payload r); Some (ch, jws)
  else None.

(** The token of the last undispatched verdict event for a package. *)
Fixpoint latest_token (ch : json) (l : list GateOutboxRow) : option json :=
  match l with
  | [] => None
  | r :: l' =>
      match latest_token ch l' with
      | Some jws => Some jws
      | None =>
          if ob_dispatched r then None
          else match verdict_event r with
               | Some (ch', jws) => if bool_decide (ch' = ch) then Some jws else None
               | None => None
               end
      end
  end.

Lemma deliver_cases r m n m1 n1 ok :
  deliver r (Some m) n = (m1, n1, ok) →
  (∃ ch jws, verdict_event r = Some (ch, jws) ∧ m1 = Some (write_verdict jws ch m).1 ∧
     ok = (write_verdict jws ch m).2) ∨
  (verdict_event r = None ∧ m1 = Some m).
Proof.
  unfold deliver, verdict_event. destruct (String.eqb _ _); [|intros [= <- <- <-]; by right].
  destruct (json_get "jws" _) as [jws|]; [destruct (json_get "content_hash" _) as [ch|]|]; cbn;
    [|intros [= <- <- <-]; by right..|].
  - destruct (write_verdict jws ch m) as [m' ok'] eqn:Ew. intros H. left. exists ch, jws. rewrite Ew.
    by destruct ok'; injection H as <- <- <-.
  - intros [= <- <- <-]. destruct (json_get "content_hash" _); by right.
Qed.

Lemma pass_counts batch l m n :
  let '(k, l', _, _) := pass batch l m n in
  (k ≤ length (undispatched l))%nat ∧ (k = length (undispatched l) → undispatched l' = []).
Proof.
  revert batch m n. induction l as [|r l IH]; intros batch m n; [done|]. cbn [pass]. unfold undispatched.
  destruct (ob_dispatched r) eqn:Ed.
  - specialize (IH batch m n). destruct (pass batch l m n) as [[[k l'] m'] n'].
    rewrite !filter_cons, !decide_False by congruence. exact IH.
  - rewrite filter_cons, decide_True by done. cbn [length]. destruct batch as [|batch]; [split; [lia|done]|].
    destruct (deliver r m n) as [[m1 n1] ok]. specialize (IH batch m1 n1).
    destruct (pass batch l m1 n1) as [[[k l'] m'] n']. destruct IH as [IH1 IH2]. unfold undispatched in *.
    destruct ok; split; try lia.
    intros Hk. rewrite filter_cons, decide_False by done. apply IH2. lia.
Qed.

Context `{!MarketplaceLaws M}.

Lemma pass_shows batch l m n k l' m' n' ch :
  pass batch l (Some m) n = (k, l', m', n') → k = length (undispatched l) →
  ∃ mk, m' = Some mk ∧ shown mk ch = match latest_token ch l with Some j => Some j | None => shown m ch end.
Proof.
  revert batch m n k l' m' n'. induction l as [|r l IH]; intros batch m n k l' m' n' E Hk.
  { injection E as <- <- <- <-. by exists m. }
  cbn [pass] in E. unfold undispatched in Hk. rewrite filter_cons in Hk. cbn [latest_token].
  destruct (ob_dispatched r) eqn:Ed.
  - rewrite decide_False in Hk by congruence. destruct (pass batch l (Some m) n) as [[[k1 l1] m1] n1] eqn:Ep.
    injection E as -> <- -> ->. destruct (IH _ _ _ _ _ _ _ Ep Hk) as (mk & -> & Hs). exists mk. split; [done|].
    rewrite Hs. by destruct (latest_token ch l).
  - rewrite decide_True in Hk by done. cbn [length] in Hk. destruct batch as [|batch]; [by injection E; lia|].
    destruct (deliver r (Some m) n) as [[m1 n1] ok] eqn:Edel.
    pose proof (pass_counts batch l m1 n1) as Hle.
    destruct (pass batch l m1 n1) as [[[k1 l1] m2] n2] eqn:Ep. injection E as <- <- <- <-.
    destruct Hle as [Hle _]. unfold undispatched in *. destruct ok; [|lia].
    apply deliver_cases in Edel as [(ch' & jws & -> & -> & Hok)|[-> ->]].
    + assert (k1 = length (undispatched l)) as Hk1 by (unfold undispatched; lia).
      destruct (IH _ _ _ _ _ _ _ Ep Hk1) as (mk & -> & Hs). exists mk. split; [done|]. rewrite Hs.
      destruct (latest_token ch l); [done|]. case_bool_decide as Hc.
      * subst. by apply shown_written.
      * apply shown_other. congruence.
    + assert (k1 = length (undispatched l)) as Hk1 by (unfold undispatched; lia).
      destruct (IH _ _ _ _ _ _ _ Ep Hk1) as (mk & -> & Hs). exists mk. split; [done|]. rewrite Hs.
      by destruct (latest_token ch l).
Qed.

(** A drain in which nothing fails brings the marketplace up to date: every event
    is dispatched, and for every package the marketplace shows the token of its
    newest event, or what it showed before if it had none. *)
Theorem relay_delivers_latest batch st m :
  marketplace st = Some m →
  (drain_pending_outbox batch st).1 = length (undispatched (rows st)) →
  let st' := (drain_pending_outbox batch st).2 in
  undispatched (rows st') = [] ∧
  ∃ m', marketplace st' = Some m' ∧
    ∀ ch, shown m' ch = match latest_token ch (rows st) with Some j => Some j | None => shown m ch end.
Proof.
  rewrite relay_pass. unfold one_pass. destruct st as [l mk n]. cbn [rows marketplace notified]. intros ->.
  pose proof (pass_counts batch l (Some m) n) as Hc.
  destruct (pass batch l (Some m) n) as [[[k l'] m'] n'] eqn:Ep. cbn. intros Hk. split; [by apply Hc|].
  destruct (pass_shows batch l m n k l' m' n' JNull Ep Hk) as (mk' & -> & _). exists mk'. split; [done|].
  intros ch. by destruct (pass_shows batch l m n k l' (Some mk') n' ch Ep Hk) as (? & [= <-] & ?).
Qed.
End relay.

(** ** [siem.py] *)

Definition LF : ascii := ascii_of_nat 10.
Definition CR : ascii := ascii_of_nat 13.

(** [s.replace(c, r)] for a one-character [c]. *)
Fixpoint replace_char (c : ascii) (r : string) (s : string) : string :=
  match s with
  | "" => ""
  | String a s' => (if Ascii.eqb a c then r else String a "") +:+ replace_char c r s'
  end.

Definition _escape_cef_header (value : string) : string :=
  replace_char CR "" (replace_char LF "\n" (replace_char "|" "\|" (replace_char "\" "\\" value))).
Definition _escape_cef_extension_value (value : string) : string :=
  replace_char CR "" (replace_char LF "\n" (replace_char "=" "\=" (replace_char "\" "\\" value))).

Section siem.
(** [str.upper], and [str] of a JSON value that is neither a string nor an integer. *)
Variable str_upper : string → string.
Variable str_other : json → string.

Definition py_str (j : json) : string :=
  match j with JStr s => s | JNum n => decimal n | _ => str_other j end.

Definition format_cef (device_vendor device_product device_version signature_id name : string)
    (severity : Z) (extension : list (string * json)) : option string :=
  if negb ((0 <=? severity) && (severity <=? 10)) then None
  else
    let header := join "|" (map _escape_cef_header
      ["CEF:0"; device_vendor; device_product; device_version; signature_id; name; decimal severity]) in
    let extension_str :=
      join " " (map (λ kv, kv.1 +:+ "=" +:+ _escape_cef_extension_value (py_str kv.2)) extension) in
    Some (header +:+ "|" +:+ extension_str).

Definition _VERDICT_SEVERITY (verdict : string) : Z * Z :=
  if String.eqb verdict "BLOCK" then (9, 3)
  else if String.eqb verdict "REVIEW" then (5, 5)
  else if String.eqb verdict "PASS" then (1, 6)
  else (5, 5).

Definition cef_keys : list string := ["scan_id"; "content_hash"; "verdict"; "jti"].

Definition verdict_issued_event_to_cef (fields : list (string * json)) (device_vendor device_product
    device_version : string) : option (string * Z) :=
  let verdict := str_upper (py_str (default (JStr "") (json_get "verdict" (JObj fields)))) in
  let '(cef_severity, syslog_severity) := _VERDICT_SEVERITY verdict in
  cef ← format_cef device_vendor device_product device_version "verdict_issued"
          ("Skill scan verdict issued: " +:+ (if String.eqb verdict "" then "UNKNOWN" else verdict))
          cef_severity (base.filter (λ kv, kv.1 ∈ cef_keys) fields);
  Some (cef, syslog_severity).

(** The datagram [emit] sends for an event. *)
Definition emit (facility : Z) (device_vendor device_product device_version event_type : string)
    (fields : list (string * json)) : option string :=
  if String.eqb event_type "verdict_issued" then
    '(cef, syslog_severity) ← verdict_issued_event_to_cef fields device_vendor device_product device_version;
    Some ("<" +:+ decimal (facility * 8 + syslog_severity) +:+ ">" +:+ cef)
  else None.

(** ** Reading a line back *)

Definition line_char (c : ascii) : bool := negb (Ascii.eqb c LF) && negb (Ascii.eqb c CR).
Definition one_line (s : string) : bool := forallb line_char (String.list_ascii_of_string s).

(** One header field: up to the next unescaped bar. *)
Fixpoint read_field (s : string) : string * string :=
  match s with
  | "" => ("", "")
  | String "\" (String "n" s') => let '(f, r) := read_field s' in (String LF f, r)
  | String "\" (String a s') => let '(f, r) := read_field s' in (String a f, r)
  | String a s' => if Ascii.eqb a "|" then ("", s') else let '(f, r) := read_field s' in (String a f, r)
  end.

Fixpoint read_fields (n : nat) (s : string) : list string * string :=
  match n with
  | O => ([], s)
  | S n' => let '(f, r) := read_field s in let '(fs, r') := read_fields n' r in (f :: fs, r')
  end.

(** What is left of a value: everything but carriage returns. *)
Definition without_cr (s : string) : string := replace_char CR "" s.

Lemma one_line_app a b : one_line (a +:+ b) = one_line a && one_line b.
Proof. unfold one_line. by rewrite list_ascii_app, forallb_app. Qed.

(** The two escapes, character by character. *)
Definition escape_char (bar a : ascii) : string :=
  if Ascii.eqb a "\" then "\\" else if Ascii.eqb a bar then String "\" (String bar "")
  else if Ascii.eqb a LF then "\n" else if Ascii.eqb a CR then "" else String a "".

Fixpoint escape_all (bar : ascii) (s : string) : string :=
  match s with "" => "" | String a s' => escape_char bar a +:+ escape_all bar s' end.

Lemma replace_char_app c r a b : replace_char c r (a +:+ b) = replace_char c r a +:+ replace_char c r b.
Proof.
  induction a as [|x a IH]; [done|]. change (String x a +:+ b) with (String x (a +:+ b)). cbn [replace_char].
  by rewrite IH, app_assoc_s.
Qed.

Lemma escape_all_replace bar s :
  bar ≠ "\"%char → bar ≠ "n"%char → bar ≠ LF → bar ≠ CR →
  replace_char CR "" (replace_char LF "\n" (replace_char bar (String "\" (String bar "")) (replace_char "\" "\\" s)))
  = escape_all bar s.
Proof.
  intros H1 H2 H3 H4. induction s as [|a s IH]; [done|]. cbn [replace_char escape_all].
  rewrite !replace_char_app, IH. f_equal. unfold escape_char.
  destruct (Ascii.eqb_spec a "\") as [->|Hb].
  { assert (Ascii.eqb "\" bar = false) as E by (apply Ascii.eqb_neq; congruence).
    cbn [replace_char]. change (Ascii.eqb "\" "\") with true. cbn [replace_char]. rewrite E. by cbn. }
  cbn [replace_char]. rewrite app_nil_s. destruct (Ascii.eqb_spec a bar) as [->|Hbar].
  { cbn [replace_char]. change (Ascii.eqb "\" LF) with false. rewrite (proj2 (Ascii.eqb_neq bar LF) H3).
    change (String "\" "" +:+ String bar "" +:+ "") with (String "\" (String bar "")). cbn [replace_char].
    change (Ascii.eqb "\" CR) with false. by rewrite (proj2 (Ascii.eqb_neq bar CR) H4). }
  cbn [replace_char]. rewrite app_nil_s. destruct (Ascii.eqb_spec a LF) as [->|Hlf]; [done|].
  cbn [replace_char]. rewrite app_nil_s. by destruct (Ascii.eqb a CR).
Qed.

Lemma escape_all_line bar s : bar ≠ LF → bar ≠ CR → one_line (escape_all bar s) = true.
Proof.
  intros H1 H2. induction s as [|a s IH]; [done|]. cbn [escape_all]. rewrite one_line_app, IH, andb_true_r.
  unfold escape_char. destruct (Ascii.eqb a "\"); [done|]. destruct (Ascii.eqb a bar).
  { cbn. unfold line_char. by rewrite (proj2 (Ascii.eqb_neq _ _) H1), (proj2 (Ascii.eqb_neq _ _) H2). }
  destruct (Ascii.eqb a LF) eqn:E1; [done|]. destruct (Ascii.eqb a CR) eqn:E2; [done|].
  cbn. unfold line_char. by rewrite E1, E2.
Qed.

Lemma read_field_escaped s x : read_field (escape_all "|" s +:+ String "|" x) = (without_cr s, x).
Proof.
  induction s as [|a s IH]; [done|]. cbn [escape_all]. rewrite app_assoc_s. unfold escape_char.
  destruct (Ascii.eqb_spec a "\") as [->|Hb].
  { change ("\\" +:+ ?u) with (String "\" (String "\" u)). cbn [read_field]. by rewrite IH. }
  destruct (Ascii.eqb_spec a "|") as [->|Hbar].
  { change (String "\" "|" +:+ ?u) with (String "\" (String "|" u)). cbn [read_field]. by rewrite IH. }
  destruct (Ascii.eqb_spec a LF) as [->|Hlf].
  { change ("\n" +:+ ?u) with (String "\" (String "n" u)). cbn [read_field]. by rewrite IH. }
  unfold without_cr in *. cbn [replace_char]. destruct (Ascii.eqb_spec a CR) as [->|Hcr]; [done|].
  change (String a "" +:+ ?u) with (String a u).
  assert (E : read_field (String a (escape_all "|" s +:+ String "|" x)) =
    let '(f, r) := read_field (escape_all "|" s +:+ String "|" x) in (String a f, r)).
  { destruct a as [[] [] [] [] [] [] [] []]; try done. }
  by rewrite E, IH.
Qed.

Lemma header_escape s : _escape_cef_header s = escape_all "|" s.
Proof. by apply escape_all_replace. Qed.

Lemma extension_escape s : _escape_cef_extension_value s = escape_all "=" s.
Proof. by apply escape_all_replace. Qed.

Lemma read_fields_header l x :
  l ≠ [] → read_fields (length l) (join "|" (map _escape_cef_header l) +:+ "|" +:+ x) = (without_cr <$> l, x).
Proof.
  induction l as [|f l IH]; [done|]. intros _. cbn [length map read_fields]. destruct l as [|g l].
  - cbn [map join]. rewrite header_escape. change ("|" +:+ x) with (String "|" x).
    by rewrite read_field_escaped.
  - rewrite join_cons, !app_assoc_s, header_escape by done.
    change ("|" +:+ ?u) with (String "|" u). rewrite read_field_escaped.
    change (String "|" x) with ("|" +:+ x). rewrite IH by done. done.
Qed.

Lemma join_one_line sep l :
  one_line sep = true → Forall (λ s, one_line s = true) l → one_line (join sep l) = true.
Proof.
  intros Hs. induction 1 as [|x l Hx _ IH]; [done|]. destruct l; [done|].
  rewrite join_cons, !one_line_app, Hx, Hs by done. exact IH.
Qed.

Lemma decimal_line z : one_line (decimal z) = true.
Proof.
  unfold one_line. apply forallb_true. intros c Hc. pose proof (decimal_chars z) as Hd.
  rewrite forallb_true in Hd. specialize (Hd c Hc). unfold line_char.
  apply andb_true_iff. split; apply negb_true_iff, Ascii.eqb_neq; by intros ->.
Qed.

(** What reaches the SIEM for a verdict event of the gate is one line of text,
    whatever the strings in it contain; it does not depend on the signed token; and
    a CEF reader recovers the seven header fields from it, up to the carriage
    returns that are dropped. *)
Theorem siem_line_is_safe facility vendor product ver scan_id ch v jti jws jws' now line :
  let fields j := match ob_payload (verdict_issued_event scan_id ch v jti j now) with JObj fs => fs | _ => [] end in
  emit facility vendor product ver "verdict_issued" (fields jws) = Some line →
  one_line line = true ∧
  emit facility vendor product ver "verdict_issued" (fields jws') = Some line ∧
  ∃ pri rest, line = "<" +:+ pri +:+ ">" +:+ rest ∧
    (read_fields 7 rest).1 = without_cr <$>
      ["CEF:0"; vendor; product; ver; "verdict_issued";
       "Skill scan verdict issued: " +:+ (if String.eqb (str_upper v) "" then "UNKNOWN" else str_upper v);
       decimal (_VERDICT_SEVERITY (str_upper v)).1].
Proof.
  intros fields H.
  assert (Hjws : emit facility vendor product ver "verdict_issued" (fields jws') = Some line) by exact H.
  split; [|split; [exact Hjws|]]; clear Hjws.
  - unfold emit, verdict_issued_event_to_cef, format_cef in H. cbn in H.
    destruct (_VERDICT_SEVERITY (str_upper v)) as [sev sys]. destruct (negb _); [done|].
    cbn in H. injection H as <-.
    repeat rewrite ?one_line_app, ?decimal_line, ?header_escape, ?extension_escape, ?escape_all_line by done. done.
  - set (hdr := ["CEF:0"; vendor; product; ver; "verdict_issued";
       "Skill scan verdict issued: " +:+ (if String.eqb (str_upper v) "" then "UNKNOWN" else str_upper v);
       decimal (_VERDICT_SEVERITY (str_upper v)).1]).
    exists (decimal (facility * 8 + (_VERDICT_SEVERITY (str_upper v)).2)),
      (join "|" (map _escape_cef_header hdr) +:+ "|" +:+
       join " " (map (λ kv, kv.1 +:+ "=" +:+ _escape_cef_extension_value (py_str kv.2))
         [("scan_id", JStr scan_id); ("content_hash", JStr ch); ("verdict", JStr v); ("jti", JStr jti)])).
    split; [|by change 7%nat with (length hdr); rewrite read_fields_header].
    unfold emit, verdict_issued_event_to_cef, format_cef in H. cbn in H. subst hdr.
    destruct (_VERDICT_SEVERITY (str_upper v)) as [sev sys]. destruct (negb _); [done|].
    cbn in H. by injection H as <-.
Qed.
End siem.

(** ** Witnesses *)

Module RelaySamples.
Import PortSamples.

Definition event (v jws : string) : GateOutboxRow := verdict_issued_event "s1" "h1" v (jws +:+ "-id") jws 0.
Definition two_events : list GateOutboxRow := [event "REVIEW" "t1"; event "PASS" "t2"].

Definition healthy : RelayState (M := Scripted) := mkRelayState two_events (Some (mkScripted [] [] [] [])) None.
Definition flaky : RelayState (M := Scripted) :=
  mkRelayState two_events (Some (mkScripted [] [] [] [false; true; true])) (Some []).

Lemma relay_delivers_latest_witness :
  ∃ m', marketplace (drain_pending_outbox 50 healthy).2 = Some m' ∧ shown m' (JStr "h1") = Some (JStr "t2").
Proof.
  destruct (relay_delivers_latest 50 healthy (mkScripted [] [] [] []) eq_refl) as [_ (m' & Hm & Hs)].
  - vm_compute. reflexivity.
  - exists m'. split; [exact Hm|]. exact (Hs (JStr "h1")).
Defined.

(** The relay can leave the marketplace on a superseded verdict.  A package was sent
    to review and then passed; the first write-back fails once.  The same call
    delivers the newer PASS; the next call retries the older event and overwrites it.
    Both events are then dispatched, and nothing will be sent again. *)
Theorem stale_verdict_overwrites :
  let '(n1, st1) := drain_pending_outbox 50 flaky in
  let '(n2, st2) := drain_pending_outbox 50 st1 in
  n1 = 1%nat ∧ n2 = 1%nat ∧ undispatched (rows st2) = [] ∧
  (m ← marketplace st1; shown m (JStr "h1")) = Some (JStr "t2") ∧
  (m ← marketplace st2; shown m (JStr "h1")) = Some (JStr "t1").
Proof. vm_compute. done. Qed.

Lemma siem_line_is_safe_witness :
  one_line "<35>CEF:0|skillscan|gate|1.0|verdict_issued|Skill scan verdict issued: BLOCK|9|scan_id=s1 content_hash=h1 verdict=BLOCK jti=a\=b\nc" = true.
Proof.
  apply (siem_line_is_safe (λ s, s) (λ _, "") 4 "skillscan" "gate" "1.0" "s1" "h1" "BLOCK"
           ("a=b" +:+ String LF "c") "token" "token" 0).
  vm_compute. reflexivity.
Defined.
End RelaySamples.
