(* ===== verification/Reconcile.v ===== *)
(** * Marketplace reconciliation

    [apps/monolith/modules/reeval/]: [reconciliation.py] compares what the marketplace
    publishes with the verdicts gate issued, [quarantine.py] decides what to take down,
    [service.py] persists and acts; the push webhook of [gateway/router.py] is the
    authenticated entry of one event.  HMAC-SHA256, [json.loads], [repr] and the text
    of values that are not strings are parameters. *)

From S2P Require Import Prelude Float64 Json JsonText PyText Canonical GateService Ports.
From Stdlib Require Import QArith Qabs Ascii.
Open Scope string_scope.
Open Scope list_scope.
Open Scope Z_scope.

(** ** [reconciliation.py] *)

Definition _PASS_VERDICT : string := "PASS".

Inductive ReconciliationResult := MATCH | ORPHAN | MISMATCH.
Inductive ReconciliationSource := POLL | PUSH.

#[export] Instance result_eq_dec : EqDecision ReconciliationResult.
Proof. solve_decision. Defined.

Definition result_value (r : ReconciliationResult) : string :=
  match r with MATCH => "MATCH" | ORPHAN => "ORPHAN" | MISMATCH => "MISMATCH" end.
Definition source_value (s : ReconciliationSource) : string :=
  match s with POLL => "poll" | PUSH => "push" end.

Record MarketplacePublishedEntry := mkPublished { pe_content_hash : string; pe_skill_id : string }.

Record ReconciliationOutcome := mkOutcome {
  ro_content_hash : string;
  ro_skill_id : string;
  ro_result : ReconciliationResult;
  ro_source : ReconciliationSource;
}.

Definition _currency (v : IssuedVerdict) : Z * bool :=
  (iv_issued_at v, negb (String.eqb (iv_verdict v) _PASS_VERDICT)).

(** [a > b] on such tuples. *)
Definition currency_gt (a b : Z * bool) : bool :=
  (b.1 <? a.1) || ((a.1 =? b.1) && (a.2 && negb b.2)).

Definition collapse (issued_verdicts : list IssuedVerdict) : gmap string IssuedVerdict :=
  foldl (λ verdict_by_hash issued,
    match verdict_by_hash !! iv_content_hash issued with
    | Some incumbent =>
        if currency_gt (_currency issued) (_currency incumbent)
        then <[iv_content_hash issued := issued]> verdict_by_hash else verdict_by_hash
    | None => <[iv_content_hash issued := issued]> verdict_by_hash
    end) ∅ issued_verdicts.

Definition result_of (current : option IssuedVerdict) : ReconciliationResult :=
  match iv_verdict <$> current with
  | None => ORPHAN
  | Some verdict => if negb (String.eqb verdict _PASS_VERDICT) then MISMATCH else MATCH
  end.

Definition reconcile (published : list MarketplacePublishedEntry) (issued_verdicts : list IssuedVerdict)
    (source : ReconciliationSource) : list ReconciliationOutcome :=
  let verdict_by_hash := collapse issued_verdicts in
  map (λ entry, mkOutcome (pe_content_hash entry) (pe_skill_id entry)
                  (result_of (verdict_by_hash !! pe_content_hash entry)) source) published.

Definition reconciliation_mode_warnings (poll_enabled push_enabled : bool) : list string :=
  if negb poll_enabled && negb push_enabled then
    ["reconciliation fully disabled (poll=off, push=off): marketplace bypass " +:+
     "(ORPHAN) cannot be detected at all - reconciliation_inactive metric should " +:+
     "be raised"]
  else if negb poll_enabled && push_enabled then
    ["reconciliation.poll=off with push=on: push-only coverage cannot detect " +:+
     "ORPHAN (structurally requires an independent full-set scan) - this is a " +:+
     "reduced-coverage mode, not a substitute for poll"]
  else [].

Inductive PushError :=
| PushEventVerificationError
| OverflowError
| TypeError.

(** An [int] as a float, as in [float - int]; [None] is [OverflowError]. *)
Definition float_of_int (z : Z) : option Q :=
  if 2 ^ 1024 - 2 ^ 970 <=? Z.abs z then None else Some (rnd64 (inject_Z z)).

(** [hmac.compare_digest] on two [str]. *)
Definition compare_digest (a b : string) : result PushError bool :=
  if is_ascii a && is_ascii b then Ok (String.eqb a b) else Err TypeError.

Section push.
Variable hmac_sha256 : string → list Z → string.

Definition signed_material (timestamp : Z) (body : list Z) : list Z :=
  str_bytes (decimal timestamp +:+ ".") ++ body.

Definition verify_push_event_signature (body : list Z) (signature_header : string) (timestamp : Z)
    (hmac_secret : string) (replay_window_s : Z) (now : Q) : result PushError unit :=
  match float_of_int timestamp with
  | None => Err OverflowError
  | Some ts =>
      if qlt (inject_Z replay_window_s) (Qabs (fsub now ts)) then Err PushEventVerificationError
      else
        let expected := hmac_sha256 hmac_secret (signed_material timestamp body) in
        same ← compare_digest expected signature_header;
        guard_err same PushEventVerificationError
  end.
End push.

(** ** [quarantine.py] *)

Record QuarantineDecision := mkQuarantineDecision {
  should_quarantine : bool;
  should_alert : bool;
  qd_reason : option string;
}.

Definition _ACTIONABLE_RESULTS : list ReconciliationResult := [ORPHAN; MISMATCH].

Section service.
Variable py_repr : string → string.
Variable py_str : json → string.
Variable hmac_sha256 : string → list Z → string.
Context {M : Type} `{!MarketplacePort M}.

Definition decide_quarantine_action (outcome : ReconciliationOutcome) (push_auto_quarantine_enabled : bool)
    : QuarantineDecision :=
  if negb (bool_decide (ro_result outcome ∈ _ACTIONABLE_RESULTS))
  then mkQuarantineDecision false false None
  else
    let reason := source_value (ro_source outcome) +:+ "-sourced " +:+ result_value (ro_result outcome) +:+
                  " for skill_id=" +:+ py_repr (ro_skill_id outcome) +:+
                  " content_hash=" +:+ py_repr (ro_content_hash outcome) in
    match ro_source outcome with
    | POLL => mkQuarantineDecision true true (Some reason)
    | PUSH => mkQuarantineDecision push_auto_quarantine_enabled true (Some reason)
    end.

(** ** [service.py] *)

Definition _MAX_RECONCILIATION_LIST_LIMIT : Z := 500.

Record ReconciliationRow := mkReconciliationRow {
  rr_content_hash : string;
  rr_skill_id : string;
  rr_result : string;
  rr_source : string;
  rr_detected_at : Z;
}.

(** [str(value)] of a JSON value. *)
Definition str_of (v : json) : string := match v with JStr s => s | _ => py_str v end.

(** One item; [None] is the [KeyError] or [TypeError] of its subscripts. *)
Definition parse_entry (item : json) : option MarketplacePublishedEntry :=
  content_hash ← json_get "content_hash" item;
  skill_id ← json_get "skill_id" item;
  Some (mkPublished (str_of content_hash) (str_of skill_id)).

Definition _parse_published_entries (raw : list json) : option (list MarketplacePublishedEntry) :=
  mapM parse_entry raw.

(** One outcome: its row, the alerts logged and the marketplace after it.  The rows are
    in id order; the outcome of [quarantine] is logged and ignored. *)
Record Reconciled := mkReconciled {
  rows : list ReconciliationRow;
  alerts : list ReconciliationOutcome;
  market : M;
}.

Definition act (push_auto_quarantine_enabled : bool) (now : Z) (st : Reconciled)
    (outcome : ReconciliationOutcome) : Reconciled :=
  let row := mkReconciliationRow (ro_content_hash outcome) (ro_skill_id outcome)
               (result_value (ro_result outcome)) (source_value (ro_source outcome)) now in
  let decision := decide_quarantine_action outcome push_auto_quarantine_enabled in
  mkReconciled (rows st ++ [row])
    (if should_alert decision then alerts st ++ [outcome] else alerts st)
    (if should_quarantine decision
     then (quarantine (ro_skill_id outcome)
             (match qd_reason decision with
              | Some r => if String.eqb r "" then "reconciliation mismatch" else r
              | None => "reconciliation mismatch"
              end) (market st)).1
     else market st).

Definition _persist_and_act (outcomes : list ReconciliationOutcome) (push_auto_quarantine_enabled : bool)
    (now : Z) (st : Reconciled) : Reconciled :=
  foldl (act push_auto_quarantine_enabled now) st outcomes.

(** [None] is an exception: the marketplace was asked, and nothing else happened. *)
Definition run_poll_reconciliation (g : GateStore) (push_auto_quarantine_enabled : bool) (now : Z)
    (st : Reconciled) : Reconciled * option (list ReconciliationOutcome) :=
  let '(m, published_raw) := list_published (market st) in
  let st := mkReconciled (rows st) (alerts st) m in
  match published_raw with
  | Some (JList raw) =>
      match _parse_published_entries raw with
      | Some published =>
          let outcomes := reconcile published (list_issued_verdicts g) POLL in
          (_persist_and_act outcomes push_auto_quarantine_enabled now st, Some outcomes)
      | None => (st, None)
      end
  | _ => (st, None)
  end.

Definition apply_push_event (entry : MarketplacePublishedEntry) (g : GateStore)
    (push_auto_quarantine_enabled : bool) (now : Z) (st : Reconciled)
    : Reconciled * option ReconciliationOutcome :=
  let outcomes := reconcile [entry] (list_issued_verdicts g) PUSH in
  (_persist_and_act outcomes push_auto_quarantine_enabled now st, head outcomes).

Definition list_reconciliation_outcomes (st : Reconciled) (limit : Z) : list ReconciliationRow :=
  let bounded_limit := Z.max 1 (Z.min limit _MAX_RECONCILIATION_LIST_LIMIT) in
  take (Z.to_nat bounded_limit) (rev (rows st)).

(** ** The push webhook, [gateway/router.py] *)

Inductive LoadsError := JSONDecodeError | OtherLoadsError.
Variable loads : list Z → result LoadsError json.

(** The settings of [ScanRuntime] the route reads. *)
Record PushSettings := mkPushSettings {
  push_hmac_secret : option string;
  push_replay_window_s : Z;
  push_auto_quarantine : bool;
  reeval_configured : bool;
}.

(** What it touches: reeval's table, the alerts, the marketplace if one is configured,
    and the orphan counter. *)
Record PushState := mkPushState {
  ps_rows : list ReconciliationRow;
  ps_alerts : list ReconciliationOutcome;
  ps_market : option M;
  ps_orphan_total : nat;
}.

Inductive WebhookReply :=
| accepted (status : string) (result : option ReconciliationResult)
| refused (status_code : Z)
| unhandled.  (* an exception no handler catches: status 500 *)

Definition marketplace_push_webhook (cfg : PushSettings) (signature_header timestamp_header : option string)
    (body : list Z) (now : Q) (clock : Z) (g : GateStore) (st : PushState) : WebhookReply * PushState :=
  match push_hmac_secret cfg with
  | None => (refused 404, st)
  | Some secret =>
  match signature_header, timestamp_header with
  | Some signature, Some timestamp_text =>
  if String.eqb signature "" || String.eqb timestamp_text "" then (refused 401, st) else
  match py_int (String.list_ascii_of_string timestamp_text) with
  | None => (refused 401, st)
  | Some timestamp =>
  match verify_push_event_signature hmac_sha256 body signature timestamp secret
          (push_replay_window_s cfg) now with
  | Err PushEventVerificationError => (refused 401, st)
  | Err _ => (unhandled, st)
  | Ok _ =>
  match loads body with
  | Err JSONDecodeError => (refused 400, st)
  | Err OtherLoadsError => (unhandled, st)
  | Ok payload =>
  match parse_entry payload with
  | None => (refused 400, st)
  | Some entry =>
  match ps_market st, reeval_configured cfg with
  | Some m, true =>
      let '(st', outcome) := apply_push_event entry g (push_auto_quarantine cfg) clock
                               (mkReconciled (ps_rows st) (ps_alerts st) m) in
      let result := ro_result <$> outcome in
      (accepted "processed" result,
       mkPushState (rows st') (alerts st') (Some (market st'))
         (if bool_decide (result = Some ORPHAN) then S (ps_orphan_total st) else ps_orphan_total st))
  | _, _ => (accepted "accepted_but_not_configured" None, st)
  end end end end end
  | _, _ => (refused 401, st)
  end end.
End service.

(** ** What a verdict ledger says of a package *)

(** The reference: no verdict at all; or a PASS that no other verdict of the package
    supersedes, where a non-PASS supersedes it already at the same instant; or not. *)
Definition stands (mine : list IssuedVerdict) (v : IssuedVerdict) : bool :=
  String.eqb (iv_verdict v) "PASS" &&
  forallb (λ v', (iv_issued_at v' <? iv_issued_at v) ||
                 ((iv_issued_at v' =? iv_issued_at v) && String.eqb (iv_verdict v') "PASS")) mine.

Definition standing (issued : list IssuedVerdict) (content_hash : string) : ReconciliationResult :=
  let mine := base.filter (λ v, iv_content_hash v = content_hash) issued in
  if bool_decide (mine = []) then ORPHAN
  else if existsb (stands mine) mine then MATCH else MISMATCH.

Lemma currency_gt_irrefl a : currency_gt a a = false.
Proof. unfold currency_gt. rewrite Z.ltb_irrefl. by destruct (a.2); rewrite ?andb_false_r. Qed.

Lemma currency_gt_negtrans a b c : currency_gt a b = false → currency_gt b c = false → currency_gt a c = false.
Proof.
  destruct a as [a p], b as [b q], c as [c r]. unfold currency_gt. cbn [fst snd].
  rewrite !orb_false_iff, !andb_false_iff, !negb_false_iff, !Z.ltb_ge, !Z.eqb_neq.
  intros [??] [??]. split; [lia|]. destruct p, q, r; intuition (try lia; try congruence).
Qed.

Lemma currency_gt_asym a b : currency_gt a b = true → currency_gt b a = false.
Proof.
  destruct a as [a p], b as [b q]. unfold currency_gt. cbn [fst snd].
  rewrite orb_true_iff, andb_true_iff, orb_false_iff, andb_false_iff, Z.ltb_lt, Z.eqb_eq, Z.ltb_ge, Z.eqb_neq.
  intros [?|[? ?]]; (split; [lia|]); [left; lia|]. right. by destruct p, q.
Qed.

(** The incumbent of a hash is one of its verdicts, and no other is more current. *)
Definition in_force (issued : list IssuedVerdict) (h : string) (v : IssuedVerdict) : Prop :=
  v ∈ issued ∧ iv_content_hash v = h ∧
  ∀ v', v' ∈ issued → iv_content_hash v' = h → currency_gt (_currency v') (_currency v) = false.

Lemma collapse_snoc issued v :
  collapse (issued ++ [v]) =
  match collapse issued !! iv_content_hash v with
  | Some incumbent => if currency_gt (_currency v) (_currency incumbent)
                      then <[iv_content_hash v := v]> (collapse issued) else collapse issued
  | None => <[iv_content_hash v := v]> (collapse issued)
  end.
Proof. unfold collapse. by rewrite foldl_app. Qed.

Lemma collapse_spec issued h :
  match collapse issued !! h with
  | Some v => in_force issued h v
  | None => ∀ v, v ∈ issued → iv_content_hash v ≠ h
  end.
Proof.
  induction issued as [|v issued IH] using rev_ind; [unfold collapse; cbn [foldl]; rewrite lookup_empty; by intros v Hv%elem_of_nil|].
  rewrite collapse_snoc.
  destruct (decide (iv_content_hash v = h)) as [Hvh|Hne]; [rewrite Hvh|].
  - destruct (collapse issued !! h) as [inc|] eqn:E.
    + destruct IH as (Hin & Hh & Hmax). destruct (currency_gt _ _) eqn:Egt.
      * rewrite lookup_insert_eq. split; [set_solver|]. split; [done|].
        intros v' [Hv'| ->%list_elem_of_singleton]%elem_of_app Hh'; [|apply currency_gt_irrefl].
        eapply currency_gt_negtrans; [by apply Hmax|]. by apply currency_gt_asym.
      * rewrite E. split; [set_solver|]. split; [done|].
        intros v' [Hv'| ->%list_elem_of_singleton]%elem_of_app Hh'; [by apply Hmax|done].
    + rewrite lookup_insert_eq. split; [set_solver|]. split; [done|].
      intros v' [Hv'| ->%list_elem_of_singleton]%elem_of_app Hh'; [by destruct (IH v')|apply currency_gt_irrefl].
  - assert (Hl : ∀ m : gmap string IssuedVerdict, <[iv_content_hash v := v]> m !! h = m !! h)
      by (intros m; by rewrite lookup_insert_ne).
    assert (Hq : match collapse issued !! iv_content_hash v with
      | Some incumbent => if currency_gt (_currency v) (_currency incumbent)
                          then <[iv_content_hash v := v]> (collapse issued) else collapse issued
      | None => <[iv_content_hash v := v]> (collapse issued) end !! h = collapse issued !! h)
      by (destruct (collapse issued !! iv_content_hash v); [destruct (currency_gt _ _)|]; auto).
    rewrite Hq. destruct (collapse issued !! h) as [inc|].
    + destruct IH as (Hin & Hh & Hmax). split; [set_solver|]. split; [done|].
      intros v' [Hv'| ->%list_elem_of_singleton]%elem_of_app Hh'; [by apply Hmax|done].
    + intros v' [Hv'| ->%list_elem_of_singleton]%elem_of_app; [by apply IH|done].
Qed.

Lemma currency_gt_false v v' :
  currency_gt (_currency v') (_currency v) = false ↔
  iv_issued_at v' < iv_issued_at v ∨
  (iv_issued_at v' = iv_issued_at v ∧ (iv_verdict v = "PASS" → iv_verdict v' = "PASS")).
Proof.
  unfold currency_gt, _currency, _PASS_VERDICT. cbn [fst snd].
  rewrite orb_false_iff, andb_false_iff, Z.ltb_ge, Z.eqb_neq, negb_involutive.
  destruct (String.eqb_spec (iv_verdict v) "PASS"), (String.eqb_spec (iv_verdict v') "PASS"); cbn;
    (split; [intros [? [?|?]]|intros [?|[? ?]]]); try discriminate; try congruence;
    try (left; lia); try (split; [lia|left; lia]); try (split; [lia|right; done]);
    try (destruct (Z.eq_dec (iv_issued_at v') (iv_issued_at v)); [right|left; lia]; by split; [|intros]).
  all: exfalso; auto.
Qed.

Lemma stands_iff mine v :
  stands mine v = true ↔
  iv_verdict v = "PASS" ∧ ∀ v', v' ∈ mine → currency_gt (_currency v') (_currency v) = false.
Proof.
  unfold stands. rewrite andb_true_iff, String.eqb_eq, forallb_true.
  split; intros [Hp Hall]; (split; [done|]); intros v' Hv'; specialize (Hall v' Hv').
  - apply currency_gt_false. apply orb_true_iff in Hall as [?%Z.ltb_lt|[?%Z.eqb_eq ?%String.eqb_eq]%andb_true_iff]; auto.
  - apply currency_gt_false in Hall. rewrite orb_true_iff, andb_true_iff, Z.ltb_lt, Z.eqb_eq, String.eqb_eq. tauto.
Qed.

Lemma result_of_collapse issued h : result_of (collapse issued !! h) = standing issued h.
Proof.
  pose proof (collapse_spec issued h) as H. unfold standing, result_of.
  set (mine := base.filter _ issued).
  assert (Hmine : ∀ v, v ∈ mine ↔ iv_content_hash v = h ∧ v ∈ issued) by (intros v; unfold mine; by rewrite list_elem_of_filter).
  destruct (collapse issued !! h) as [v|]; cbn [fmap option_fmap option_map].
  - destruct H as (Hin & Hh & Hmax).
    rewrite bool_decide_false by (intros E; assert (v ∈ mine) as Hv by (by apply Hmine); rewrite E in Hv; by apply elem_of_nil in Hv).
    unfold _PASS_VERDICT. destruct (String.eqb_spec (iv_verdict v) "PASS") as [E|E]; cbn [negb].
    + assert (existsb (stands mine) mine = true) as ->; [|done].
      apply existsb_true. exists v. split; [by apply Hmine|]. apply stands_iff. split; [done|].
      intros v' [Hh' Hv']%Hmine. by apply Hmax.
    + assert (existsb (stands mine) mine = false) as ->; [|done].
      apply existsb_false. intros w [Hw1 Hw2]%Hmine. apply not_true_is_false. rewrite stands_iff. intros [Hp Hall].
      specialize (Hall v (proj2 (Hmine v) (conj Hh Hin))). specialize (Hmax w Hw2 Hw1).
      apply currency_gt_false in Hall, Hmax. intuition (try lia; try congruence).
  - rewrite bool_decide_true; [done|]. destruct mine as [|v l] eqn:E; [done|].
    assert (v ∈ mine) as Hv by (rewrite E; left). rewrite E in Hv. apply Hmine in Hv as [Hv1 Hv2]. by destruct (H v).
Qed.

Lemma existsb_ext {A} (p q : A → bool) : (∀ x, p x = q x) → ∀ l, existsb p l = existsb q l.
Proof. intros H l. induction l as [|x l IH]; cbn; [done|]. by rewrite H, IH. Qed.

Lemma standing_perm issued issued' h : (∀ v, v ∈ issued ↔ v ∈ issued') → standing issued h = standing issued' h.
Proof.
  intros Hin. unfold standing.
  set (m1 := base.filter _ issued). set (m2 := base.filter _ issued').
  assert (Hm : ∀ v, v ∈ m1 ↔ v ∈ m2) by (intros v; unfold m1, m2; by rewrite !list_elem_of_filter, Hin).
  assert (He : ∀ p : IssuedVerdict → bool, existsb p m1 = existsb p m2).
  { intros p. apply eq_true_iff_eq. rewrite !existsb_true. by setoid_rewrite Hm. }
  assert (bool_decide (m1 = []) = bool_decide (m2 = [])) as ->.
  { apply bool_decide_ext. specialize (He (λ _, true)). by destruct m1, m2. }
  assert (Hs : ∀ v, stands m1 v = stands m2 v).
  { intros v. unfold stands. f_equal. apply eq_true_iff_eq. rewrite !forallb_true. by setoid_rewrite Hm. }
  rewrite He. by rewrite (existsb_ext _ _ Hs).
Qed.

Lemma reconcile_standing published issued source :
  reconcile published issued source =
  map (λ e, mkOutcome (pe_content_hash e) (pe_skill_id e) (standing issued (pe_content_hash e)) source) published.
Proof. apply map_ext. intros e. by rewrite result_of_collapse. Qed.

(** Reconciliation judges each published package by its verdict in force, whatever
    order the ledger's rows arrive in: ORPHAN when there is none, MATCH when a PASS is
    newer than every other verdict that is not a PASS and none is newer than it,
    MISMATCH otherwise; a tie between PASS and anything else is not a MATCH. *)
Theorem reconcile_is_standing published issued issued' source :
  issued ≡ₚ issued' →
  reconcile published issued source =
  map (λ e, mkOutcome (pe_content_hash e) (pe_skill_id e) (standing issued' (pe_content_hash e)) source) published.
Proof.
  intros Hp. rewrite reconcile_standing. apply map_ext. intros e.
  by rewrite (standing_perm issued issued') by (intros v; by rewrite Hp).
Qed.

(** ** Poll: the unvouched are taken down *)

(** A verdict of the gate in force for [h] lets it be published. *)
Definition vouched (g : GateStore) (h : string) : Prop :=
  ∃ id r, verdicts g !! id = Some r ∧ v_content_hash r = h ∧ v_verdict r = "PASS" ∧
    ∀ id' r', verdicts g !! id' = Some r' → v_content_hash r' = h →
      v_issued_at r' <= v_issued_at r ∧ (v_verdict r' ≠ "PASS" → v_issued_at r' < v_issued_at r).

Lemma elem_of_issued g v :
  v ∈ list_issued_verdicts g ↔
  ∃ id r, verdicts g !! id = Some r ∧ v = mkIssuedVerdict (v_content_hash r) (v_verdict r) (v_issued_at r).
Proof.
  unfold list_issued_verdicts. rewrite list_elem_of_fmap. setoid_rewrite elem_of_sort_by.
  setoid_rewrite list_elem_of_fmap. split.
  - intros (r & -> & (id & r') & -> & Hin%elem_of_map_to_list). by exists id, r'.
  - intros (id & r & Hr & ->). exists r. split; [done|]. exists (id, r). split; [done|]. by apply elem_of_map_to_list.
Qed.

Lemma standing_match g h : standing (list_issued_verdicts g) h = MATCH ↔ vouched g h.
Proof.
  unfold standing. set (mine := base.filter _ _).
  assert (Hmine : ∀ v, v ∈ mine ↔ iv_content_hash v = h ∧ v ∈ list_issued_verdicts g)
    by (intros v; unfold mine; by rewrite list_elem_of_filter).
  trans (existsb (stands mine) mine = true).
  { case_bool_decide as E; [rewrite E; done|]. by destruct (existsb _ _). }
  rewrite existsb_true. unfold vouched. split.
  - intros (v & [Hh (id & r & Hr & ->)%elem_of_issued]%Hmine & [Hp Hall]%stands_iff). cbn in *.
    exists id, r. split_and!; [done..|]. intros id' r' Hr' Hh'.
    specialize (Hall (mkIssuedVerdict (v_content_hash r') (v_verdict r') (v_issued_at r'))).
    rewrite currency_gt_false in Hall. cbn in Hall.
    destruct Hall as [?|[? ?]]; [apply Hmine; split; [done|]; apply elem_of_issued; eauto|lia|].
    split; [lia|]. intros []. auto.
  - intros (id & r & Hr & Hh & Hp & Hall).
    exists (mkIssuedVerdict (v_content_hash r) (v_verdict r) (v_issued_at r)). split.
    + apply Hmine. split; [done|]. apply elem_of_issued. eauto.
    + apply stands_iff. split; [done|]. intros v [Hh' (id' & r' & Hr' & ->)%elem_of_issued]%Hmine.
      apply currency_gt_false. cbn in *. destruct (Hall _ _ Hr' Hh') as [Hle Hlt].
      destruct (decide (v_verdict r' = "PASS")) as [E|E]; [|left; auto].
      destruct (Z.eq_dec (v_issued_at r') (v_issued_at r)); [right; auto|left; lia].
Qed.

(** ** Push: what a signature says *)

Section signatures.
Context (hmac_sha256 : string → list Z → string).

Lemma verify_Ok body signature timestamp secret window now :
  verify_push_event_signature hmac_sha256 body signature timestamp secret window now = Ok () ↔
  ∃ ts, float_of_int timestamp = Some ts ∧ (Qabs (fsub now ts) <= inject_Z window)%Q ∧
        hmac_sha256 secret (signed_material timestamp body) = signature ∧ is_ascii signature = true.
Proof.
  unfold verify_push_event_signature. destruct (float_of_int timestamp) as [ts|]; [|naive_solver].
  destruct (qlt _ _) eqn:E.
  { apply qlt_iff in E. split; [done|]. intros (? & [= <-] & Hle & _). by apply Qlt_not_le in E. }
  apply qlt_false in E. unfold compare_digest. destruct (_ && _) eqn:Ea.
  - apply andb_true_iff in Ea as [_ Ea]. cbn. rewrite guard_err_Ok, String.eqb_eq. naive_solver.
  - split; [done|]. intros (? & _ & _ & Hs & Ha). rewrite Hs, Ha in Ea. done.
Qed.

Lemma no_full_stop z : 46 ∉ map (λ a, Z.of_N (N_of_ascii a)) (String.list_ascii_of_string (decimal z)).
Proof.
  intros (c & Hc & Hin)%list_elem_of_fmap. pose proof (decimal_int_chars z) as Hd. rewrite forallb_true in Hd.
  specialize (Hd c Hin). unfold int_char in Hd. rewrite <-Hc in Hd. done.
Qed.

Lemma signed_material_inj t1 t2 b1 b2 : signed_material t1 b1 = signed_material t2 b2 → t1 = t2 ∧ b1 = b2.
Proof.
  unfold signed_material, str_bytes. rewrite !list_ascii_app, !map_app, <-!app_assoc. cbn [map app].
  intros [E ->]%app_sep_inj.
  - split; [|done]. by apply decimal_inj, str_bytes_inj.
  - apply no_full_stop.
  - apply no_full_stop.
Qed.

(** A signature is good for one timestamp and one body.  If the same signature
    header is accepted for two requests under one secret, they are the same request, or
    their signed bytes are a collision of HMAC-SHA256: a captured signature cannot be
    moved to a fresh timestamp. *)
Theorem push_signature_binds secret signature window body1 ts1 now1 body2 ts2 now2 :
  verify_push_event_signature hmac_sha256 body1 signature ts1 secret window now1 = Ok () →
  verify_push_event_signature hmac_sha256 body2 signature ts2 secret window now2 = Ok () →
  (ts1 = ts2 ∧ body1 = body2) ∨
  (signed_material ts1 body1 ≠ signed_material ts2 body2 ∧
   hmac_sha256 secret (signed_material ts1 body1) = hmac_sha256 secret (signed_material ts2 body2)).
Proof.
  intros (t1 & _ & _ & H1 & _)%verify_Ok (t2 & _ & _ & H2 & _)%verify_Ok.
  destruct (decide (signed_material ts1 body1 = signed_material ts2 body2)) as [E|E].
  - left. by apply signed_material_inj.
  - right. split; congruence.
Qed.
End signatures.

Section actions.
Context (py_repr : string → string) (py_str : json → string) (hmac_sha256 : string → list Z → string).
Context (loads : list Z → result LoadsError json) {M : Type} `{!MarketplacePort M}.

(** One take-down call; whether it raised is ignored. *)
Definition take_down (m : M) (o : ReconciliationOutcome) : M :=
  (quarantine (ro_skill_id o) (default "" (qd_reason (decide_quarantine_action py_repr o true))) m).1.

Definition row_of (now : Z) (o : ReconciliationOutcome) : ReconciliationRow :=
  mkReconciliationRow (ro_content_hash o) (ro_skill_id o) (result_value (ro_result o)) (source_value (ro_source o)) now.

Definition unmatched (o : ReconciliationOutcome) : bool := negb (bool_decide (ro_result o = MATCH)).

Lemma source_prefix_nonempty s x : String.eqb (source_value s +:+ x) "" = false.
Proof. by destruct s. Qed.

Lemma act_spec b now (st : Reconciled (M := M)) o :
  act py_repr b now st o =
  mkReconciled (rows st ++ [row_of now o]) (if unmatched o then alerts st ++ [o] else alerts st)
    (if unmatched o && (b || bool_decide (source_value (ro_source o) = "poll")) then take_down (market st) o else market st).
Proof.
  destruct o as [ch id r s]. unfold act, take_down, decide_quarantine_action. cbn [ro_result ro_source ro_skill_id ro_content_hash].
  destruct r, s, b; cbn -[String.append]; try done; by rewrite ?(source_prefix_nonempty POLL), ?(source_prefix_nonempty PUSH).
Qed.

Lemma persist_spec b now outcomes (st : Reconciled (M := M)) :
  _persist_and_act py_repr outcomes b now st =
  mkReconciled (rows st ++ map (row_of now) outcomes)
    (alerts st ++ base.filter (λ o, unmatched o = true) outcomes)
    (foldl take_down (market st)
       (base.filter (λ o, unmatched o && (b || bool_decide (source_value (ro_source o) = "poll")) = true) outcomes)).
Proof.
  revert st. induction outcomes as [|o os IH]; intros st; cbn [_persist_and_act foldl map].
  { cbn. rewrite !app_nil_r. by destruct st. }
  change (foldl (act py_repr b now) ?s os) with (_persist_and_act py_repr os b now s).
  rewrite IH, act_spec. cbn [rows alerts market]. rewrite !filter_cons, <-(app_assoc (rows st)). cbn [app].
  destruct (unmatched o) eqn:E; cbn [andb].
  - rewrite (decide_True (P := true = true)) by done. rewrite <-app_assoc. cbn [app].
    destruct (b || _) eqn:E2; [rewrite decide_True by done|rewrite decide_False by done]; done.
  - by rewrite !decide_False by done.
Qed.

(** A poll that reads the published set takes down exactly the published packages no
    verdict in force lets through, in the marketplace's order, going on when a call
    fails; it alerts on the same ones, and records a row for every published package.
    A package whose newest verdict is an unambiguous PASS is never taken down. *)
Theorem poll_takes_down_the_unvouched g b now (st : Reconciled (M := M)) m raw published :
  list_published (market st) = (m, Some (JList raw)) →
  _parse_published_entries py_str raw = Some published →
  let '(st', outcomes) := run_poll_reconciliation py_repr py_str g b now st in
  ∃ os down, outcomes = Some os ∧ down `sublist_of` os ∧
    Forall2 (λ e o, ro_content_hash o = pe_content_hash e ∧ ro_skill_id o = pe_skill_id e ∧
                    (o ∈ down ↔ ¬ vouched g (pe_content_hash e))) published os ∧
    market st' = foldl take_down m down ∧ alerts st' = alerts st ++ down ∧
    rows st' = rows st ++ map (row_of now) os.
Proof.
  intros Hl Hp. unfold run_poll_reconciliation. rewrite Hl, Hp, persist_spec. cbn [rows alerts market].
  rewrite reconcile_standing.
  eexists _, (base.filter (λ o, unmatched o = true) _). split_and!; [done| | | |done|done].
  - apply sublist_filter.
  - apply Forall2_fmap_r, Forall_Forall2_diag, Forall_forall. intros e He. split_and!; [done..|].
    rewrite list_elem_of_filter. cbn. unfold unmatched. cbn. rewrite <-standing_match, negb_true_iff, bool_decide_eq_false.
    split; [by intros [? _]|]. intros Hne. split; [done|]. apply list_elem_of_fmap. by exists e.
  - f_equal. apply filter_ext_in. intros o (e & -> & _)%list_elem_of_fmap. cbn. by rewrite orb_true_r, andb_true_r.
Qed.

(** ** Push: authenticated, and by default only an alert *)

(** The push webhook changes nothing unless the request is signed with the shared
    secret over its own timestamp and body, within the replay window; then it records
    one row, and unless the operator opted in it leaves the marketplace alone. *)
Theorem push_is_authenticated_and_only_alerts cfg signature timestamp body now clock g st reply st' :
  marketplace_push_webhook (M := M) py_repr py_str hmac_sha256 loads cfg signature timestamp body now clock g st
    = (reply, st') →
  st' = st ∨
  (∃ secret text ts t, push_hmac_secret cfg = Some secret ∧ timestamp = Some text ∧
     py_int (String.list_ascii_of_string text) = Some ts ∧ float_of_int ts = Some t ∧
     signature = Some (hmac_sha256 secret (signed_material ts body)) ∧
     (Qabs (fsub now t) <= inject_Z (push_replay_window_s cfg))%Q) ∧
  (∃ r, reply = accepted "processed" (Some r)) ∧
  (∃ row, ps_rows st' = ps_rows st ++ [row]) ∧
  (push_auto_quarantine cfg = false → ps_market st' = ps_market st).
Proof.
  unfold marketplace_push_webhook.
  assert (Hsame : ∀ r, (r, st) = (reply, st') → st' = st) by (by intros r [= _ ->]).
  destruct (push_hmac_secret cfg) as [secret|]; [|eauto].
  destruct signature as [sg|]; [|eauto]. destruct timestamp as [text|]; [|eauto].
  destruct (_ || _); [eauto|]. destruct (py_int _) as [ts|] eqn:Ei; [|eauto].
  destruct (verify_push_event_signature _ _ _ _ _ _ _) as [[]|e] eqn:Ev; [|destruct e; eauto].
  apply verify_Ok in Ev as (t & Ht & Hw & <- & _).
  destruct (loads body) as [payload|[]]; [|eauto..].
  destruct (parse_entry _ _) as [entry|]; [|eauto].
  destruct (ps_market st) as [m|] eqn:Em; [|eauto].
  destruct (reeval_configured cfg); [|eauto].
  unfold apply_push_event. rewrite persist_spec. cbn [head reconcile map fmap option_fmap option_map].
  intros [= <- <-]. right. split; [eauto 10|]. split; [eauto|]. split; [cbn; eauto|].
  intros ->. cbn [ps_market market]. f_equal. rewrite filter_cons. cbn [orb ro_source source_value].
  rewrite bool_decide_false, andb_false_r by done. by rewrite decide_False.
Qed.

End actions.

(** ** Witnesses *)

Module ReconcileSamples.
Import PortSamples.

Definition repr (s : string) : string := "'" +:+ s +:+ "'".
Definition text (_ : json) : string := "".
Definition mac (secret : string) (b : list Z) : string := secret +:+ decimal (foldl (λ h x, h * 257 + x + 1) 0 b).
Definition event_loads (b : list Z) : result LoadsError json :=
  if bool_decide (b = [255]) then Err OtherLoadsError
  else Ok (JObj [("content_hash", JStr "h1"); ("skill_id", JStr "k1")]).

Definition issued (h v : string) (at_ : Z) : IssuedVerdict := mkIssuedVerdict h v at_.
Definition ledger : list IssuedVerdict := [issued "h1" "PASS" 2; issued "h1" "BLOCK" 1; issued "h2" "PASS" 3; issued "h2" "REVIEW" 3].
Definition shop : list MarketplacePublishedEntry := [mkPublished "h1" "k1"; mkPublished "h2" "k2"; mkPublished "h3" "k3"].

Lemma reconcile_is_standing_witness :
  map ro_result (reconcile shop (rev ledger) POLL) = [MATCH; MISMATCH; ORPHAN].
Proof. rewrite (reconcile_is_standing shop (rev ledger) ledger POLL (symmetry (Permutation_rev ledger))). reflexivity. Defined.

Definition verdict_row (id h v : string) (at_ : Z) : VerdictRow :=
  mkVerdictRow id h v "p1" id "" 0 0 [] false at_.
Definition issued_store : GateStore :=
  mkGateStore (<["s1" := verdict_row "s1" "h1" "PASS" 2]> (<["s2" := verdict_row "s2" "h2" "BLOCK" 3]> ∅)) ∅ [] [].
Definition item (e : MarketplacePublishedEntry) : json :=
  JObj [("content_hash", JStr (pe_content_hash e)); ("skill_id", JStr (pe_skill_id e))].

(** The first take-down call fails. *)
Definition market0 : Scripted := mkScripted [] (map item shop) [] [false].
Definition before : Reconciled (M := Scripted) := mkReconciled [] [] market0.

Lemma poll_takes_down_the_unvouched_witness :
  alerts (run_poll_reconciliation repr text issued_store false 9 before).1 =
    [mkOutcome "h2" "k2" MISMATCH POLL; mkOutcome "h3" "k3" ORPHAN POLL] ∧
  map fst (taken_down (market (run_poll_reconciliation repr text issued_store false 9 before).1)) = ["k3"] ∧
  ∃ os, (run_poll_reconciliation repr text issued_store false 9 before).2 = Some os ∧
    rows (run_poll_reconciliation repr text issued_store false 9 before).1 = map (row_of 9) os.
Proof.
  split; [vm_compute; reflexivity|]. split; [vm_compute; reflexivity|].
  pose proof (poll_takes_down_the_unvouched repr text issued_store false 9 before market0 (map item shop) shop) as H.
  destruct (run_poll_reconciliation repr text issued_store false 9 before) as [st' outcomes].
  destruct H as (os & down & Hos & _ & _ & _ & _ & Hrows); [vm_compute; reflexivity..|].
  exists os. split; [exact Hos|exact Hrows].
Defined.

Definition settings (auto : bool) : PushSettings := mkPushSettings (Some "key") 300 auto true.
Definition body1 : list Z := [1; 2].
Definition signature1 : string := mac "key" (signed_material 1000 body1).
Definition quiet : PushState (M := Scripted) := mkPushState [] [] (Some (mkScripted [] [] [] [])) 0.
Definition nothing_issued : GateStore := mkGateStore ∅ ∅ [] [].
Definition pushed (signature timestamp : string) (body : list Z) : WebhookReply * PushState (M := Scripted) :=
  marketplace_push_webhook repr text mac event_loads (settings false) (Some signature) (Some timestamp) body
    1100 7 nothing_issued quiet.

Lemma push_is_authenticated_and_only_alerts_witness :
  (pushed signature1 "1000" body1).1 = accepted "processed" (Some ORPHAN) ∧
  ps_market (pushed signature1 "1000" body1).2 = ps_market quiet.
Proof.
  split; [vm_compute; reflexivity|].
  destruct (push_is_authenticated_and_only_alerts repr text mac event_loads (settings false) (Some signature1)
    (Some "1000") body1 1100 7 nothing_issued quiet (pushed signature1 "1000" body1).1
    (pushed signature1 "1000" body1).2) as [H|(_ & _ & _ & H)].
  - by destruct (pushed signature1 "1000" body1) eqn:E.
  - by rewrite H.
  - by apply H.
Defined.

Lemma push_signature_binds_witness : 1000 = 1000 ∧ body1 = body1.
Proof.
  destruct (push_signature_binds mac "key" signature1 300 body1 1000 1100 body1 1000 1200) as [H|[H _]].
  - vm_compute. reflexivity.
  - vm_compute. reflexivity.
  - exact H.
  - by destruct H.
Defined.

(** A signature header with a byte above 127, and a timestamp no float can hold, are
    not answered with 401: [compare_digest] and the subtraction raise exceptions that
    no handler expects. *)
Lemma push_headers_can_crash :
  (pushed (String (ascii_of_nat 233) "") "1000" body1).1 = unhandled ∧
  (pushed signature1 (decimal (10 ^ 309)) body1).1 = unhandled.
Proof. vm_compute. done. Qed.
End ReconcileSamples.
