(* ===== verification/Readback.v ===== *)
(** * Reading engine results back

    [libs/schemas/findings.py] (the schema every engine result crosses) and
    [apps/monolith/modules/orchestration/aggregate.py] (one result per expected
    engine, whatever the blob store holds).  Pydantic's JSON validation is a
    parameter that returns the data transfer objects below. *)

From S2P Require Import Prelude Float64 Models Scoring Gate Json Lifecycle.
From Stdlib Require Import QArith.
Open Scope string_scope.
Open Scope list_scope.
Open Scope Z_scope.

Definition blob : Type := list Z.

(** ** [schemas/findings.py] *)

Definition _MAX_ANALYZE_DURATION_MS : Z := 2147483647.
Definition _MAX_RULE_ID_CHARS : nat := 128.

Record FindingDTO := mkFindingDTO {
  fd_rule_id : string;
  fd_test_item_id : string;
  fd_category : DetectionCategory;
  fd_title : string;
  fd_severity : Severity;
  fd_confidence : Q;
  fd_source_engine : string;
  fd_source_capability : EngineCapability;
  fd_trifecta_signals : list TrifectaSignal;
  fd_file_path : option string;
  fd_start_line : option Z;
  fd_snippet_hash : option string;
  fd_evidence_redacted : string;
}.

Record EngineMetadataDTO := mkEngineMetadataDTO {
  ed_name : string;
  ed_version : string;
  ed_ruleset_digest : string;
  ed_capabilities : list EngineCapability;
  ed_requires_network : bool;
  ed_requires_llm : bool;
  ed_deterministic : bool;
}.

Record EngineResultDTO := mkEngineResultDTO {
  rd_engine : EngineMetadataDTO;
  rd_status : EngineStatus;
  rd_scan_mode : ScanMode;
  rd_llm_used : bool;
  rd_error : option string;
  rd_analyze_duration_ms : option Z;
  rd_findings : list FindingDTO;
}.

(** What the field declarations ask of a validated object. *)
Definition FindingDTO_ok (f : FindingDTO) : bool :=
  Nat.leb (py_len (fd_rule_id f)) _MAX_RULE_ID_CHARS &&
  qle 0 (fd_confidence f) && qle (fd_confidence f) 1.

Definition EngineResultDTO_ok (r : EngineResultDTO) : bool :=
  match rd_analyze_duration_ms r with
  | None => true
  | Some d => (0 <=? d) && (d <=? _MAX_ANALYZE_DURATION_MS)
  end && forallb FindingDTO_ok (rd_findings r).

Inductive UntrustedFindingsError :=
| schema_violation
| metadata_invariant (e : EngineMetadataError)
| finding_invariant (e : FindingError).

Definition finding_of_dto (f : FindingDTO) : result UntrustedFindingsError Finding :=
  match Finding_new (fd_rule_id f) (fd_test_item_id f) (fd_category f) (fd_title f) (fd_severity f)
          (Fin (fd_confidence f)) (fd_source_engine f) (fd_source_capability f)
          (list_to_set (fd_trifecta_signals f)) (fd_file_path f) (fd_start_line f)
          (fd_snippet_hash f) (fd_evidence_redacted f) with
  | Ok x => Ok x
  | Err e => Err (finding_invariant e)
  end.

Fixpoint findings_of_dtos (l : list FindingDTO) : result UntrustedFindingsError (list Finding) :=
  match l with
  | [] => Ok []
  | f :: l' => x ← finding_of_dto f; xs ← findings_of_dtos l'; Ok (x :: xs)
  end.

Section readback.
(** [EngineResultDTO.model_validate_json] and [FindingDTO.model_validate]. *)
Variable model_validate_json : blob → option EngineResultDTO.
Variable validate_finding : json → option FindingDTO.

Definition parse_engine_result_with_duration (raw : blob)
    : result UntrustedFindingsError (EngineResult * option Z) :=
  match model_validate_json raw with
  | None => Err schema_violation
  | Some dto =>
      let m := rd_engine dto in
      match EngineMetadata_new (ed_name m) (ed_version m) (ed_ruleset_digest m) (ed_capabilities m)
              (ed_requires_network m) (ed_requires_llm m) (ed_deterministic m) with
      | Err e => Err (metadata_invariant e)
      | Ok metadata =>
          findings ← findings_of_dtos (rd_findings dto);
          Ok (mkEngineResult metadata findings (rd_status dto) (rd_scan_mode dto) (rd_llm_used dto)
                (rd_error dto), rd_analyze_duration_ms dto)
      end
  end.

Definition parse_engine_result (raw : blob) : result UntrustedFindingsError EngineResult :=
  fst <$> parse_engine_result_with_duration raw.

Definition capability_value (c : EngineCapability) : string :=
  match c with
  | STATIC => "static" | SEMANTIC_LLM => "semantic_llm" | THREAT_INTEL => "threat_intel"
  | DYNAMIC_SANDBOX => "dynamic_sandbox" | SCA => "sca" | FILE_COMPLIANCE => "file_compliance"
  end.

Definition signal_value (s : TrifectaSignal) : string :=
  match s with
  | PRIVATE_DATA_ACCESS => "private_data_access"
  | UNTRUSTED_INPUT => "untrusted_input"
  | EXTERNAL_EGRESS => "external_egress"
  end.

Definition serialize_finding (f : Finding) : json :=
  JObj [("rule_id", JStr (rule_id f)); ("test_item_id", JStr (test_item_id f));
        ("category", JStr (category_value (category f))); ("title", JStr (title f));
        ("severity", JNum (sev_val (severity f))); ("confidence", JFloat (confidence f));
        ("source_engine", JStr (source_engine f));
        ("source_capability", JStr (capability_value (source_capability f)));
        ("trifecta_signals", JList (map (λ s, JStr (signal_value s)) (elements (trifecta_signals f))));
        ("file_path", JOpt (file_path f));
        ("start_line", match start_line f with Some n => JNum n | None => JNull end);
        ("snippet_hash", JOpt (snippet_hash f)); ("evidence_redacted", JStr (evidence_redacted f))].

Definition deserialize_finding (d : json) : result UntrustedFindingsError Finding :=
  match validate_finding d with
  | None => Err schema_violation
  | Some dto => finding_of_dto dto
  end.

Definition scan_mode_value (m : ScanMode) : string :=
  match m with MODE_STATIC => "static" | MODE_DYNAMIC => "dynamic" end.

Definition serialize_engine_result (r : EngineResult) (analyze_duration_ms : option Z) : json :=
  let m := er_engine r in
  JObj ([("engine",
          JObj [("name", JStr (em_name m)); ("version", JStr (em_version m));
                ("ruleset_digest", JStr (em_ruleset_digest m));
                ("capabilities", JList (map (λ c, JStr (capability_value c)) (em_capabilities m)));
                ("requires_network", JBool (em_requires_network m));
                ("requires_llm", JBool (em_requires_llm m));
                ("deterministic", JBool (em_deterministic m))]);
         ("status", JStr (status_value (er_status r)));
         ("scan_mode", JStr (scan_mode_value (er_scan_mode r)));
         ("llm_used", JBool (er_llm_used r)); ("error", JOpt (er_error r));
         ("findings", JList (map serialize_finding (er_findings r)))] ++
        match analyze_duration_ms with
        | Some d => [("analyze_duration_ms", JNum d)]
        | None => []
        end).

(** ** [orchestration/aggregate.py] *)

Definition _ERROR_MAX_CHARS : nat := 1000.
Definition _ERROR_TRUNCATION_SUFFIX : string := "... (truncated)".

Inductive EngineReportState := REPORTED | NOT_REPORTED | UNREADABLE.

#[local] Instance EngineReportState_eq_dec : EqDecision EngineReportState.
Proof. solve_decision. Defined.

Record EngineHealthRecord := mkEngineHealthRecord {
  eh_engine_name : string;
  eh_report_state : EngineReportState;
  eh_engine_status : option EngineStatus;
  eh_analyze_duration_ms : option Z;
  eh_finding_count : option Z;
  eh_error : option string;
}.

Inductive HealthError := status_iff_reported | duration_without_report.

Definition EngineHealthRecord_new (engine_name : string) (report_state : EngineReportState)
    (engine_status : option EngineStatus) (analyze_duration_ms finding_count : option Z)
    (error : option string) : result HealthError EngineHealthRecord :=
  let reported := bool_decide (report_state = REPORTED) in
  _ ← guard_err (Bool.eqb reported (bool_decide (engine_status ≠ None))) status_iff_reported;
  _ ← guard_err (reported || bool_decide (analyze_duration_ms = None)) duration_without_report;
  Ok (mkEngineHealthRecord engine_name report_state engine_status analyze_duration_ms finding_count
        error).

(** The first [n] code points of a UTF-8 string. *)
Fixpoint py_take (n : nat) (s : string) : string :=
  match s with
  | EmptyString => ""
  | String a s' =>
      if ((128 <=? byte_of a) && (byte_of a <? 192))%N then String a (py_take n s')
      else match n with O => "" | S n' => String a (py_take n' s') end
  end.

Definition _truncate_error (text : option string) : option string :=
  match text with
  | None => None
  | Some t =>
      if Nat.leb (py_len t) _ERROR_MAX_CHARS then Some t
      else Some (py_take (_ERROR_MAX_CHARS - py_len _ERROR_TRUNCATION_SUFFIX) t
                 +:+ _ERROR_TRUNCATION_SUFFIX)
  end.

(** The placeholder for a name that is not empty. *)
Definition fallback_result (engine_name reason : string) : EngineResult :=
  mkEngineResult (mkEngineMetadata engine_name "unknown" "unknown" [] false false true)
    [] ERROR MODE_STATIC false (Some reason).

Definition fallback (engine_name reason : string) (state : EngineReportState)
    : EngineResult * EngineHealthRecord :=
  (fallback_result engine_name reason,
   mkEngineHealthRecord engine_name state None None None (_truncate_error (Some reason))).

(** [findings_key] of [libs/common/blobstore.py]. *)
Definition findings_key (scan_id engine : string) : string :=
  "findings/" +:+ scan_id +:+ "/" +:+ engine +:+ ".json".

(** The wording of a schema error is pydantic's; [py_repr] is Python's [repr]. *)
Variable error_text : UntrustedFindingsError → string.
Variable py_repr : string → string.

(** What [blobstore.get] does: it returns, raises [BlobNotFoundError], or raises anything else
    (an [OSError], a [ValueError] for the key). *)
Inductive BlobRead := blob_read (raw : blob) | blob_not_found | blob_raised.

Inductive LoadError := store_raised | name_refused (e : EngineMetadataError).

(** [EngineMetadata.__post_init__] refuses the empty name. *)
Definition unavailable_engine_result (engine_name reason : string) : result EngineMetadataError EngineResult :=
  metadata ← EngineMetadata_new engine_name "unknown" "unknown" [] false false true;
  Ok (mkEngineResult metadata [] ERROR MODE_STATIC false (Some reason)).

Definition _unavailable (engine_name reason : string) (state : EngineReportState)
    : result LoadError (EngineResult * EngineHealthRecord) :=
  match unavailable_engine_result engine_name reason with
  | Err e => Err (name_refused e)
  | Ok res => Ok (res, mkEngineHealthRecord engine_name state None None None (_truncate_error (Some reason)))
  end.

Definition load_engine_result (got : BlobRead) (scan_id engine_name : string)
    : result LoadError (EngineResult * EngineHealthRecord) :=
  match got with
  | blob_raised => Err store_raised
  | blob_not_found =>
      _unavailable engine_name ("no findings reported at " +:+ findings_key scan_id engine_name +:+ " (fail-closed, INV-11)")
        NOT_REPORTED
  | blob_read raw =>
      match parse_engine_result_with_duration raw with
      | Err e =>
          _unavailable engine_name
            ("schema validation failed (fail-closed, INV-11): " +:+ error_text e) UNREADABLE
      | Ok (res, analyze_duration_ms) =>
          if negb (String.eqb (em_name (er_engine res)) engine_name)
          then _unavailable engine_name
                 ("engine identity mismatch: key=" +:+ py_repr engine_name +:+ " but blob claimed " +:+
                  py_repr (em_name (er_engine res)) +:+ " (fail-closed, INV-11)") UNREADABLE
          else Ok (res, mkEngineHealthRecord engine_name REPORTED (Some (er_status res))
                       analyze_duration_ms (Some (Z.of_nat (length (er_findings res))))
                       (_truncate_error (er_error res)))
      end
  end.

(** The same for a store that answers and a name that is not empty ([load_engine_result_answered]),
    as the pipeline reads it: a call that raises leaves its transaction without effect, which
    is no step there. *)
Definition load_answered (blobstore : gmap string blob) (scan_id engine_name : string)
    : EngineResult * EngineHealthRecord :=
  let key := findings_key scan_id engine_name in
  match blobstore !! key with
  | None =>
      fallback engine_name ("no findings reported at " +:+ key +:+ " (fail-closed, INV-11)")
        NOT_REPORTED
  | Some raw =>
      match parse_engine_result_with_duration raw with
      | Err e =>
          fallback engine_name
            ("schema validation failed (fail-closed, INV-11): " +:+ error_text e) UNREADABLE
      | Ok (res, analyze_duration_ms) =>
          if negb (String.eqb (em_name (er_engine res)) engine_name)
          then fallback engine_name
                 ("engine identity mismatch: key=" +:+ py_repr engine_name +:+ " but blob claimed " +:+
                  py_repr (em_name (er_engine res)) +:+ " (fail-closed, INV-11)") UNREADABLE
          else (res, mkEngineHealthRecord engine_name REPORTED (Some (er_status res))
                       analyze_duration_ms (Some (Z.of_nat (length (er_findings res))))
                       (_truncate_error (er_error res)))
      end
  end.

Record AggregatedScan := mkAggregatedScan {
  ag_scan_result : ScanResult;
  ag_engine_health : list EngineHealthRecord;
}.

Definition load_and_aggregate (blobstore : gmap string blob) (scan_id content_hash : string)
    (engine_names : list string) (policy : GatePolicy) (min_confidence : Q) (max_findings : nat)
    : result TypeError AggregatedScan :=
  let loaded := map (load_answered blobstore scan_id) engine_names in
  scan_result ← aggregate content_hash loaded.*1 policy min_confidence max_findings;
  Ok (mkAggregatedScan scan_result loaded.*2).

(** ** What read-back guarantees *)

Lemma load_and_aggregate_hash b sid ch names p mc mf ag :
  load_and_aggregate b sid ch names p mc mf = Ok ag → sr_content_hash (ag_scan_result ag) = ch.
Proof.
  intros (sr & Hsr & [= <-])%bind_Ok. simpl. by apply aggregate_Ok, ag_hash in Hsr.
Qed.

(** The blob at the engine's key parses and names that engine. *)
Definition trusted (blobstore : gmap string blob) (scan_id engine_name : string)
    (res : EngineResult) (duration : option Z) : Prop :=
  ∃ raw, blobstore !! findings_key scan_id engine_name = Some raw ∧
         parse_engine_result_with_duration raw = Ok (res, duration) ∧
         em_name (er_engine res) = engine_name.

Lemma finding_of_dto_ok f x : finding_of_dto f = Ok x → Finding_ok x.
Proof.
  unfold finding_of_dto. destruct (Finding_new _ _ _ _ _ _ _ _ _ _ _ _ _) eqn:E; [|done].
  intros [= <-]. by eapply Finding_new_ok.
Qed.

Lemma findings_of_dtos_ok l xs : findings_of_dtos l = Ok xs → Forall Finding_ok xs.
Proof.
  revert xs. induction l as [|f l IH]; intros xs H; simpl in H; ok_inv; [constructor|].
  constructor; [by eapply finding_of_dto_ok|by apply IH].
Qed.

Lemma parse_ok raw res d :
  parse_engine_result_with_duration raw = Ok (res, d) →
  Forall Finding_ok (er_findings res) ∧ em_requires_network (er_engine res) = false.
Proof.
  unfold parse_engine_result_with_duration. destruct (model_validate_json raw) as [dto|]; [|done].
  destruct (EngineMetadata_new _ _ _ _ _ _ _) as [m|] eqn:Em; [|done].
  intros (xs & Hx & [= <- <-])%bind_Ok. simpl. split; [by eapply findings_of_dtos_ok|].
  by eapply EngineMetadata_new_ok.
Qed.

Lemma load_cases blobs sid e :
  (∃ res d, trusted blobs sid e res d ∧ load_answered blobs sid e =
     (res, mkEngineHealthRecord e REPORTED (Some (er_status res)) d
             (Some (Z.of_nat (length (er_findings res)))) (_truncate_error (er_error res)))) ∨
  (¬ (∃ res d, trusted blobs sid e res d) ∧ ∃ reason state, state ≠ REPORTED ∧
     load_answered blobs sid e = fallback e reason state).
Proof.
  unfold load_answered, trusted.
  destruct (blobs !! findings_key sid e) as [raw|] eqn:Eb.
  2: { right. split; [by intros (? & ? & ? & ? & _)|]. do 2 eexists. by split; [|reflexivity]. }
  destruct (parse_engine_result_with_duration raw) as [[res d]|] eqn:Ep.
  2: { right. split; [|do 2 eexists; by split; [|reflexivity]].
       intros (? & ? & ? & ? & ? & _). simplify_eq. congruence. }
  destruct (String.eqb_spec (em_name (er_engine res)) e) as [En|En]; simpl.
  - left. exists res, d. split; [by exists raw|done].
  - right. split; [|do 2 eexists; by split; [|reflexivity]].
    intros (? & ? & ? & ? & ? & ?). simplify_eq. congruence.
Qed.

Lemma unavailable_cases e reason state :
  _unavailable e reason state = if String.eqb e "" then Err (name_refused EM_name_empty) else Ok (fallback e reason state).
Proof. unfold _unavailable, unavailable_engine_result, EngineMetadata_new. by destruct (String.eqb e ""). Qed.

Lemma load_engine_result_answered blobs sid e :
  e ≠ "" →
  load_engine_result (match blobs !! findings_key sid e with Some raw => blob_read raw | None => blob_not_found end) sid e =
  Ok (load_answered blobs sid e).
Proof.
  intros He%String.eqb_neq. unfold load_engine_result, load_answered.
  destruct (blobs !! findings_key sid e) as [raw|]; [|by rewrite unavailable_cases, He].
  destruct (parse_engine_result_with_duration raw) as [[res d]|]; [|by rewrite unavailable_cases, He].
  destruct (negb _); [by rewrite unavailable_cases, He|done].
Qed.

(** The blob that was read parses and names the engine. *)
Definition trusted_read (got : BlobRead) (engine_name : string) (res : EngineResult) (duration : option Z) : Prop :=
  ∃ raw, got = blob_read raw ∧ parse_engine_result_with_duration raw = Ok (res, duration) ∧
         em_name (er_engine res) = engine_name.

Lemma parsed_name raw res d : parse_engine_result_with_duration raw = Ok (res, d) → em_name (er_engine res) ≠ "".
Proof.
  unfold parse_engine_result_with_duration. destruct (model_validate_json raw) as [dto|]; [|done].
  unfold EngineMetadata_new. destruct (String.eqb (ed_name (rd_engine dto)) "") eqn:En; [done|].
  destruct (String.eqb (ed_version (rd_engine dto)) ""); [done|]. destruct (ed_requires_network (rd_engine dto)); [done|].
  cbn. intros (xs & _ & [= <- <-])%bind_Ok. cbn. by apply String.eqb_neq.
Qed.

Lemma load_engine_result_cases got sid e :
  match load_engine_result got sid e with
  | Err _ => got = blob_raised ∨ e = ""
  | Ok rh => got ≠ blob_raised ∧ e ≠ "" ∧
      ((∃ res d, trusted_read got e res d ∧
          rh = (res, mkEngineHealthRecord e REPORTED (Some (er_status res)) d
                  (Some (Z.of_nat (length (er_findings res)))) (_truncate_error (er_error res)))) ∨
       (¬ (∃ res d, trusted_read got e res d) ∧ ∃ reason state, state ≠ REPORTED ∧
          (state = NOT_REPORTED ↔ got = blob_not_found) ∧ rh = fallback e reason state))
  end.
Proof.
  unfold load_engine_result. destruct got as [raw| |]; [|rewrite unavailable_cases|by left].
  2: { destruct (String.eqb_spec e ""); [by right|]. split_and!; [done|done|]. right.
       split; [by intros (? & ? & ? & ? & _)|]. eexists _, NOT_REPORTED. by split_and!. }
  destruct (parse_engine_result_with_duration raw) as [[res d]|] eqn:Ep.
  - pose proof (parsed_name _ _ _ Ep) as Hne. destruct (String.eqb_spec (em_name (er_engine res)) e) as [<-|Hn]; cbn [negb].
    + split_and!; [done|done|]. left. exists res, d. split; [by exists raw|done].
    + rewrite unavailable_cases. destruct (String.eqb_spec e ""); [by right|]. split_and!; [done|done|]. right.
      split; [intros (? & ? & ? & [= <-] & ? & ?); congruence|]. eexists _, UNREADABLE. by split_and!.
  - rewrite unavailable_cases. destruct (String.eqb_spec e ""); [by right|]. split_and!; [done|done|]. right.
    split; [intros (? & ? & ? & [= <-] & ? & ?); congruence|]. eexists _, UNREADABLE. by split_and!.
Qed.

(** C18: INV-11.  Reading one engine's result back raises exactly when the blob store raises
    something other than not-found, or the engine name that is looked up is empty.
    Otherwise it yields a result under the name that was looked up, which does not claim to
    need the network and whose findings satisfy the domain invariants: the blob's own result
    when the blob passes the schema and the domain invariants and names that very engine,
    and in every other case an ERROR, not usable and without findings.  The health record
    keeps these apart: it is REPORTED, with the engine's own status and the number of its
    findings, exactly in the trusted case, NOT_REPORTED exactly when there is no blob, and it
    is always one its own constructor accepts. *)
Theorem load_engine_result_fail_closed got sid e :
  match load_engine_result got sid e with
  | Err _ => got = blob_raised ∨ e = ""
  | Ok (res, health) =>
      got ≠ blob_raised ∧ e ≠ "" ∧
      em_name (er_engine res) = e ∧ em_requires_network (er_engine res) = false ∧
      Forall Finding_ok (er_findings res) ∧
      ((∃ d, trusted_read got e res d ∧ eh_report_state health = REPORTED ∧ eh_engine_status health = Some (er_status res) ∧
          eh_finding_count health = Some (Z.of_nat (length (er_findings res))) ∧ eh_analyze_duration_ms health = d) ∨
       (¬ (∃ res' d, trusted_read got e res' d) ∧ er_status res = ERROR ∧ usable res = false ∧ er_findings res = [] ∧
          eh_report_state health ≠ REPORTED ∧ eh_engine_status health = None)) ∧
      (eh_report_state health = NOT_REPORTED ↔ got = blob_not_found) ∧
      EngineHealthRecord_new (eh_engine_name health) (eh_report_state health) (eh_engine_status health)
        (eh_analyze_duration_ms health) (eh_finding_count health) (eh_error health) = Ok health
  end.
Proof.
  pose proof (load_engine_result_cases got sid e) as H. destruct (load_engine_result got sid e) as [[res health]|]; [|done].
  destruct H as (Hg & He & [(res' & d & Ht & [= -> ->])|(Hn & reason & state & Hs & Hst & [= -> ->])]).
  - destruct Ht as (raw & -> & Hp & <-). destruct (parse_ok _ _ _ Hp) as [Hok Hnet].
    split_and!; try done. left. exists d. split_and!; try done. by exists raw.
  - cbn. split_and!; try done; [by right|]. by destruct state.
Qed.

(** C17: INV-1 at the trust boundary.  The adjudicated result says "required engines
    ok" if and only if every engine the policy requires was among those read and
    left a trusted, usable blob under its own key; every finding that is
    adjudicated satisfies the domain invariants. *)
Theorem required_ok_iff_trusted_blobs blobs sid ch names p mc mf ag :
  load_and_aggregate blobs sid ch names p mc mf = Ok ag →
  (sr_required_ok (ag_scan_result ag) = true ↔
   ∀ e, e ∈ required_engines p →
     e ∈ names ∧ ∃ res d, trusted blobs sid e res d ∧ usable res = true) ∧
  Forall Finding_ok (sr_findings (ag_scan_result ag)).
Proof.
  unfold load_and_aggregate. intros (sr & Hsr & [= <-])%bind_Ok. simpl.
  apply aggregate_Ok in Hsr. set (rs := (map (load_answered blobs sid) names).*1) in *.
  assert (Hin : ∀ r, r ∈ rs ↔ ∃ e, e ∈ names ∧ r = (load_answered blobs sid e).1).
  { intros r. unfold rs. change (map ?f ?l) with (f <$> l). rewrite <-list_fmap_compose, list_elem_of_fmap.
    unfold compose. naive_solver. }
  split.
  - rewrite (ag_required _ _ _ _ _ _ Hsr), bool_decide_eq_true, missing_iff.
    apply forall_proper. intros e.
    assert (Hpres : e ∈ present_and_usable rs ↔
              e ∈ names ∧ ∃ res d, trusted blobs sid e res d ∧ usable res = true).
    { rewrite elem_of_present. setoid_rewrite elem_of_usable_results. setoid_rewrite Hin. split.
      - intros (r & ((n & Hn & ->) & _ & Hu) & Hname).
        destruct (load_cases blobs sid n) as [(res & d & Ht & E)|(_ & re & st & _ & E)];
          rewrite E in *; simpl in *; [|done].
        destruct Ht as (raw & Hb & Hp & He). simpl in Hname. subst n. rewrite Hname in *.
        split; [done|]. exists res, d. split; [by exists raw|done].
      - intros (He & res & d & Ht & Hu). exists res.
        destruct (load_cases blobs sid e) as [(res' & d' & Ht' & E)|(Hn & _)]; [|by destruct Hn; eauto].
        assert (res' = res) as ->.
        { destruct Ht as (? & ? & ? & _), Ht' as (? & ? & ? & _). simplify_eq. congruence. }
        destruct Ht as (raw & Hb & Hp & Hname). destruct (parse_ok _ _ _ Hp) as [_ Hnet].
        split_and!; try done. exists e. by rewrite E. }
    by rewrite Hpres.
  - apply Forall_forall. intros f Hf.
    pose proof (dedup_subset _ _ _ (ag_dedup _ _ _ _ _ _ Hsr) _ Hf) as Hf'.
    apply capped_subset, elem_of_all_findings in Hf' as (r & (Hr & _)%elem_of_usable_results & Hfr).
    apply Hin in Hr as (n & _ & ->).
    destruct (load_cases blobs sid n) as [(res & d & (raw & _ & Hp & _) & E)|(_ & re & st & _ & E)];
      rewrite E in Hfr; simpl in Hfr; [|by apply elem_of_nil in Hfr].
    destruct (parse_ok _ _ _ Hp) as [Hok _]. rewrite Forall_forall in Hok. by apply Hok.
Qed.
(** ** Stored findings read back *)

(** The object a DTO's fields spell, each value of its declared type. *)
Definition dto_json (d : FindingDTO) : json :=
  JObj [("rule_id", JStr (fd_rule_id d)); ("test_item_id", JStr (fd_test_item_id d));
        ("category", JStr (category_value (fd_category d))); ("title", JStr (fd_title d));
        ("severity", JNum (sev_val (fd_severity d))); ("confidence", JFloat (fd_confidence d));
        ("source_engine", JStr (fd_source_engine d));
        ("source_capability", JStr (capability_value (fd_source_capability d)));
        ("trifecta_signals", JList (map (λ s, JStr (signal_value s)) (fd_trifecta_signals d)));
        ("file_path", JOpt (fd_file_path d));
        ("start_line", match fd_start_line d with Some n => JNum n | None => JNull end);
        ("snippet_hash", JOpt (fd_snippet_hash d)); ("evidence_redacted", JStr (fd_evidence_redacted d))].

(** pydantic's documented behaviour: a dict that spells a valid model's fields with
    values of the declared types validates to that model. *)
Definition accepts_declared : Prop :=
  ∀ d, FindingDTO_ok d = true → validate_finding (dto_json d) = Some d.

(** [[deserialize_finding(f) for f in row.findings]]. *)
Fixpoint deserialize_findings (l : list json) : result UntrustedFindingsError (list Finding) :=
  match l with
  | [] => Ok []
  | d :: l' => f ← deserialize_finding d; fs ← deserialize_findings l'; Ok (f :: fs)
  end.

Definition dto_of_finding (f : Finding) : FindingDTO :=
  mkFindingDTO (rule_id f) (test_item_id f) (category f) (title f) (severity f) (confidence f)
    (source_engine f) (source_capability f) (elements (trifecta_signals f)) (file_path f)
    (start_line f) (snippet_hash f) (evidence_redacted f).

Lemma finding_of_dto_of_finding f : Finding_ok f → finding_of_dto (dto_of_finding f) = Ok f.
Proof.
  destruct f as [r ti c t s q se sc sig fp sl sh ev].
  intros (Hr & H0 & H1 & Hs & Hh). cbn in Hr, H0, H1, Hs, Hh. unfold finding_of_dto, Finding_new.
  cbn [dto_of_finding fd_rule_id fd_test_item_id fd_category fd_title fd_severity fd_confidence
    fd_source_engine fd_source_capability fd_trifecta_signals fd_file_path fd_start_line
    fd_snippet_hash fd_evidence_redacted rule_id test_item_id category title severity confidence
    source_engine source_capability trifecta_signals file_path start_line snippet_hash evidence_redacted].
  apply String.eqb_neq in Hr. apply qle_iff in H0, H1. rewrite Hr.
  assert (Ef : fle (Fin 0) (Fin q) && fle (Fin q) (Fin 1) = true) by (apply andb_true_iff; by split).
  rewrite Ef. cbn [negb guard_err mbind result_bind].
  assert (E : sev_le LOW s = true) by by destruct s. rewrite E. cbn.
  destruct sh as [h|]; cbn; [rewrite (Hh h eq_refl); cbn|];
    by rewrite list_to_set_elements_L.
Qed.

(** A finding survives storage: what [serialize_finding] writes into
    [scan_result.findings], [deserialize_finding] reads back as the same finding,
    for every well-formed finding whose rule id fits the schema's limit. *)
Theorem stored_findings_roundtrip fs :
  accepts_declared →
  Forall (λ f, Finding_ok f ∧ Nat.leb (py_len (rule_id f)) _MAX_RULE_ID_CHARS = true) fs →
  deserialize_findings (map serialize_finding fs) = Ok fs.
Proof.
  intros Hv. induction 1 as [|f fs [Hok Hlen] _ IH]; [done|]. simpl.
  assert (E : deserialize_finding (serialize_finding f) = Ok f).
  { unfold deserialize_finding.
    change (serialize_finding f) with (dto_json (dto_of_finding f)).
    rewrite Hv; [by apply finding_of_dto_of_finding|].
    destruct Hok as (_ & H0%qle_iff & H1%qle_iff & _). unfold FindingDTO_ok.
    apply andb_true_iff; split; [apply andb_true_iff; by split|done]. }
  by rewrite E, IH.
Qed.
End readback.

(** ** Witnesses *)

Module ReadbackSamples.

Definition dto (name : string) : EngineResultDTO :=
  mkEngineResultDTO (mkEngineMetadataDTO name "1" "d" [STATIC] false false true) OK MODE_STATIC false
    None (Some 0)
    [mkFindingDTO "r" "GEN-01" CODE "t" LOW (9#10) name STATIC [] None None None ""].

(** A one-byte blob stands for the engine it was written by. *)
Definition validate (raw : blob) : option EngineResultDTO :=
  match raw with [1] => Some (dto "floor") | [2] => Some (dto "other") | _ => None end.

Definition no_text (e : UntrustedFindingsError) : string := "".
Definition no_repr (s : string) : string := s.
Definition need_floor : GatePolicy :=
  mkGatePolicy "v1" {["floor"]} ∅ (6#10) CRITICAL HIGH [] HIGH BLOCK CategoryWeights_default.

Definition run (b : blob) : option bool :=
  match load_and_aggregate validate no_text no_repr {["findings/s/floor.json" := b]} "s" "h" ["floor"]
          need_floor 0 5000 with
  | Ok ag => Some (sr_required_ok (ag_scan_result ag))
  | Err _ => None
  end.

(** A good blob, one written by another engine, and one that does not parse. *)
Example run_sample : run [1] = Some true ∧ run [2] = Some false ∧ run [3] = Some false.
Proof. vm_compute. tauto. Qed.

Lemma required_ok_iff_trusted_blobs_witness :
  ∃ res d, trusted validate {["findings/s/floor.json" := [1]]} "s" "floor" res d ∧ usable res = true.
Proof.
  destruct (load_and_aggregate validate no_text no_repr {["findings/s/floor.json" := [1]]} "s" "h"
              ["floor"] need_floor 0 5000) as [ag|] eqn:E; [|by vm_compute in E].
  destruct (required_ok_iff_trusted_blobs validate no_text no_repr
              {["findings/s/floor.json" := [1]]} "s" "h" ["floor"] need_floor 0 5000 ag E) as [H _].
  apply H.
  - vm_compute in E. injection E as <-. reflexivity.
  - vm_compute. reflexivity.
Defined.

(** A validator that reads the declared fields by name and checks them. *)
Fixpoint field (k : string) (l : list (string * json)) : option json :=
  match l with
  | [] => None
  | (k', v) :: l' => if String.eqb k' k then Some v else field k l'
  end.

Definition as_str (j : json) : option string := match j with JStr s => Some s | _ => None end.
Definition as_opt_str (j : json) : option (option string) :=
  match j with JStr s => Some (Some s) | JNull => Some None | _ => None end.
Definition as_opt_int (j : json) : option (option Z) :=
  match j with JNum n => Some (Some n) | JNull => Some None | _ => None end.
Definition as_enum {A} (value : A → string) (all : list A) (j : json) : option A :=
  s ← as_str j; list_find (λ a, value a = s) all ≫= λ p, Some p.2.

Definition categories : list DetectionCategory :=
  [INSTRUCTION; CODE; DATA_CREDENTIAL; NETWORK_INTEL; PERMISSION; FILE_PACKAGE; SUPPLY_CHAIN;
   BUNDLED_COMPONENT].
Definition capabilities : list EngineCapability :=
  [STATIC; SEMANTIC_LLM; THREAT_INTEL; DYNAMIC_SANDBOX; SCA; FILE_COMPLIANCE].
Definition all_signals : list TrifectaSignal :=
  [PRIVATE_DATA_ACCESS; UNTRUSTED_INPUT; EXTERNAL_EGRESS].

Definition as_severity (j : json) : option Severity :=
  match j with
  | JNum n => list_find (λ s, sev_val s = n) Severity_all ≫= λ p, Some p.2
  | _ => None
  end.
Definition as_float (j : json) : option Q := match j with JFloat q => Some q | _ => None end.
Definition as_signals (j : json) : option (list TrifectaSignal) :=
  match j with JList l => mapM (as_enum signal_value all_signals) l | _ => None end.

Definition validate_fields (j : json) : option FindingDTO :=
  match j with
  | JObj l =>
      rule ← field "rule_id" l ≫= as_str; item ← field "test_item_id" l ≫= as_str;
      cat ← field "category" l ≫= as_enum category_value categories;
      ti ← field "title" l ≫= as_str; sev ← field "severity" l ≫= as_severity;
      conf ← field "confidence" l ≫= as_float; eng ← field "source_engine" l ≫= as_str;
      cap ← field "source_capability" l ≫= as_enum capability_value capabilities;
      sig ← field "trifecta_signals" l ≫= as_signals; path ← field "file_path" l ≫= as_opt_str;
      line ← field "start_line" l ≫= as_opt_int; snip ← field "snippet_hash" l ≫= as_opt_str;
      ev ← field "evidence_redacted" l ≫= as_str;
      let d := mkFindingDTO rule item cat ti sev conf eng cap sig path line snip ev in
      if FindingDTO_ok d then Some d else None
  | _ => None
  end.

Lemma as_signals_ok sig : mapM (as_enum signal_value all_signals) (map (λ s, JStr (signal_value s)) sig) = Some sig.
Proof. induction sig as [|s sig IH]; [done|]. cbn [map mapM]. rewrite IH. by destruct s. Qed.

Lemma validate_fields_accepts : accepts_declared validate_fields.
Proof.
  intros d Hd. destruct d as [r ti c t s q se sc sig fp sl sh ev].
  unfold validate_fields, dto_json. cbn [field String.eqb Ascii.eqb Bool.eqb fd_rule_id fd_test_item_id fd_category fd_title fd_severity
    fd_confidence fd_source_engine fd_source_capability fd_trifecta_signals fd_file_path fd_start_line
    fd_snippet_hash fd_evidence_redacted mbind option_bind as_str as_float as_signals].
  rewrite as_signals_ok.
  assert (E1 : as_enum category_value categories (JStr (category_value c)) = Some c) by by destruct c.
  assert (E2 : as_severity (JNum (sev_val s)) = Some s) by by destruct s.
  assert (E3 : as_enum capability_value capabilities (JStr (capability_value sc)) = Some sc) by by destruct sc.
  assert (E4 : ∀ o, as_opt_str (JOpt o) = Some o) by by intros [].
  assert (E5 : as_opt_int match sl with Some n => JNum n | None => JNull end = Some sl) by by destruct sl.
  rewrite E1, E2, E3, !E4, E5. cbn. by rewrite Hd.
Qed.

Definition stored : list Finding :=
  [Samples.finding "net.exfil" HIGH (9#10) false ALL_TRIFECTA_SIGNALS (Some "a.py");
   Samples.finding "style" LOW (1#2) false ∅ None].

Lemma stored_findings_roundtrip_witness :
  deserialize_findings validate_fields (map serialize_finding stored) = Ok stored.
Proof.
  apply (stored_findings_roundtrip validate_fields stored validate_fields_accepts).
  repeat constructor; by vm_compute.
Defined.
End ReadbackSamples.
