(* ===== verification/Package.v ===== *)
(** * The package manifest: [libs/common/skill_package.py]

    Where the one authoritative SKILL.md of a package lives, and the two readers
    that use it: the display name of a scan ([_parse_skill_name]) and the
    declared tools ([declared_tools]).  Paths are the canonical member paths.
    [str.upper] and [str.lower] are only compared with ASCII words, so the model
    of them maps every code point whose image is ASCII and leaves the others.
    The YAML loader behind [parse_frontmatter] is a parameter. *)

From S2P Require Import Prelude Models Json Lifecycle Canonical Unpack Readback.
Open Scope string_scope.
Open Scope list_scope.
Open Scope Z_scope.

Definition SKILL_MD_NAME : points := str_bytes "SKILL.md".

Definition _STRUCTURAL_DIRECTORIES : list points :=
  map str_bytes ["scripts"; "references"; "assets"; "hooks"; "examples"; "docs"].

Definition _ROOT_METADATA_STEMS : list points :=
  map str_bytes ["LICENSE"; "LICENCE"; "COPYING"; "NOTICE"; "README"; "CHANGELOG"; "CHANGES"; "HISTORY";
                 "AUTHORS"; "CONTRIBUTORS"; "CONTRIBUTING"; "CODEOWNERS"].

(** The upper case of a code point, where it is ASCII: sharp s, dotless i, long s
    and the Latin ligatures are the ones outside ASCII. *)
Definition upper_point (c : Z) : points :=
  if (97 <=? c) && (c <=? 122) then [c - 32]
  else if c =? 223 then [83; 83]
  else if c =? 305 then [73]
  else if c =? 383 then [83]
  else if c =? 64256 then [70; 70]
  else if c =? 64257 then [70; 73]
  else if c =? 64258 then [70; 76]
  else if c =? 64259 then [70; 70; 73]
  else if c =? 64260 then [70; 70; 76]
  else if (c =? 64261) || (c =? 64262) then [83; 84]
  else [c].
Definition upper (s : points) : points := s ≫= upper_point.

(** The lower case, where it is ASCII; the Kelvin sign is the one outside ASCII. *)
Definition lower_point (c : Z) : Z :=
  if (65 <=? c) && (c <=? 90) then c + 32 else if c =? 8490 then 107 else c.
Definition lower (s : points) : points := map lower_point s.

(** [str.isspace], for [\s] and [strip]. *)
Definition is_uspace (c : Z) : bool :=
  ((9 <=? c) && (c <=? 13)) || ((28 <=? c) && (c <=? 32)) || (c =? 133) || (c =? 160) || (c =? 5760)
  || ((8192 <=? c) && (c <=? 8202)) || (c =? 8232) || (c =? 8233) || (c =? 8239) || (c =? 8287) || (c =? 12288).

Fixpoint lstrip_points (s : points) : points :=
  match s with c :: s' => if is_uspace c then lstrip_points s' else s | [] => [] end.
Definition strip_points (s : points) : points := rev (lstrip_points (rev (lstrip_points s))).

(** [s.partition(sep)]: the part before the first separator, and whether there is one. *)
Fixpoint cut_at (sep : Z) (s : points) : points * bool :=
  match s with
  | [] => ([], false)
  | c :: s' => if c =? sep then ([], true) else let '(h, found) := cut_at sep s' in (c :: h, found)
  end.

Definition _is_root_metadata (name : points) : bool :=
  bool_decide (head name = Some dot) ||
  bool_decide (upper (cut_at dot name).1 ∈ _ROOT_METADATA_STEMS).

(** The loop over the members; [None] is the early [return ""]. *)
Fixpoint collect_tops (paths : list points) (tops : gset points) : option (gset points) :=
  match paths with
  | [] => Some tops
  | path :: rest =>
      let '(top, separator) := cut_at slash path in
      if separator then
        let tops := {[top]} ∪ tops in
        if Nat.ltb 1 (size tops) then None else collect_tops rest tops
      else if _is_root_metadata top then collect_tops rest tops else None
  end.

Definition package_root_prefix (paths : list points) : points :=
  match collect_tops paths ∅ with
  | None => []
  | Some tops =>
      match elements tops with
      | [wrapper] => if bool_decide (lower wrapper ∈ _STRUCTURAL_DIRECTORIES) then [] else wrapper ++ [slash]
      | _ => []
      end
  end.

Definition root_skill_md_path (paths : list points) : points := package_root_prefix paths ++ SKILL_MD_NAME.

(** ** The readers *)

Section manifest.
(** [parse_frontmatter]: the mapping at the head of a SKILL.md, or [None]. *)
Variable parse_frontmatter : bytes → option (list (string * json)).

Definition root_manifest (files : list Entry) : option bytes :=
  let root := root_skill_md_path (map entry_path files) in
  snd <$> find (λ e, bool_decide (entry_path e = root)) files.

Definition _PERMISSION_KEYS : list string := ["allowed-tools"; "allowed_tools"; "tools"; "permissions"].

Fixpoint first_tools (keys : list string) (frontmatter : list (string * json)) : list json :=
  match keys with
  | [] => []
  | key :: rest =>
      match json_get key (JObj frontmatter) with
      | Some (JList l) => base.filter (λ v, match v with JStr _ => true | _ => false end = true) l
      | Some (JStr s) => [JStr s]
      | _ => first_tools rest frontmatter
      end
  end.

Definition declared_tools (frontmatter : list (string * json)) : list json := first_tools _PERMISSION_KEYS frontmatter.

(** What the submission routes record as the declared permissions. *)
Definition declared_perms_of (files : list Entry) : json :=
  match root_manifest files with
  | None => JNull
  | Some data =>
      match parse_frontmatter data with
      | None => JNull
      | Some frontmatter => JObj [("tools", JList (declared_tools frontmatter))]
      end
  end.

Definition _parse_skill_name (files : list Entry) : option string :=
  data ← root_manifest files;
  frontmatter ← parse_frontmatter data;
  match json_get "name" (JObj frontmatter) with
  | Some (JStr name) => if String.eqb (strip name) "" then None else Some (py_take 255 (strip name))
  | _ => None
  end.
End manifest.

(** ** What counts as the package root *)

(** Every member is below the one directory [w], but for packaging metadata
    loose at the archive root, and [w] is not a name the format gives a role. *)
Record wrapper (paths : list points) (w : points) : Prop := {
  wr_some : ∃ p, p ∈ paths ∧ slash ∈ p;
  wr_below p : p ∈ paths → slash ∈ p → (cut_at slash p).1 = w;
  wr_loose p : p ∈ paths → slash ∉ p → _is_root_metadata p = true;
  wr_name : lower w ∉ _STRUCTURAL_DIRECTORIES;
}.

Lemma cut_at_found sep s : (cut_at sep s).2 = true ↔ sep ∈ s.
Proof.
  induction s as [|c s IH]; simpl; [split; [done|set_solver]|].
  destruct (Z.eqb_spec c sep) as [->|Hc]; [split; [left|done]|].
  destruct (cut_at sep s) as [h f]. simpl in *. set_solver.
Qed.

Lemma cut_at_whole sep s : sep ∉ s → (cut_at sep s).1 = s.
Proof.
  induction s as [|c s IH]; simpl; [done|]. intros [Hc Hs]%not_elem_of_cons.
  rewrite (proj2 (Z.eqb_neq c sep)) by done. destruct (cut_at sep s) as [h f]. simpl in *. by rewrite IH.
Qed.

Lemma cut_at_split sep s : sep ∈ s → ∃ rest, s = (cut_at sep s).1 ++ sep :: rest ∧ sep ∉ (cut_at sep s).1.
Proof.
  induction s as [|c s IH]; simpl; [set_solver|]. destruct (Z.eqb_spec c sep) as [->|Hc].
  - intros _. exists s. split; [done|set_solver].
  - intros [?|Hs]%elem_of_cons; [done|]. destruct (IH Hs) as (rest & E & Hn).
    destruct (cut_at sep s) as [h f]. simpl in *. exists rest. split; [by f_equal|set_solver].
Qed.

(** The loop keeps the set of top directories, which has at most one element. *)
Lemma collect_tops_spec paths tops :
  (size tops <= 1)%nat →
  match collect_tops paths tops with
  | Some all =>
      (size all <= 1)%nat ∧ (∀ p, p ∈ paths → slash ∉ p → _is_root_metadata p = true) ∧
      ∀ t, t ∈ all ↔ t ∈ tops ∨ ∃ p, p ∈ paths ∧ slash ∈ p ∧ (cut_at slash p).1 = t
  | None =>
      (∃ p, p ∈ paths ∧ (slash ∉ p) ∧ _is_root_metadata p = false) ∨
      ∃ t t', t ≠ t' ∧ (∀ x, x = t ∨ x = t' → x ∈ tops ∨ ∃ p, p ∈ paths ∧ slash ∈ p ∧ (cut_at slash p).1 = x)
  end.
Proof.
  revert tops. induction paths as [|path rest IH]; intros tops Hs; simpl.
  { split_and!; [done|set_solver|set_solver]. }
  destruct (cut_at slash path) as [top sep] eqn:Ec.
  assert (E1 : (cut_at slash path).1 = top) by by rewrite Ec.
  assert (E2 : sep = true ↔ slash ∈ path) by (rewrite <-(cut_at_found slash path); by rewrite Ec).
  destruct sep.
  - assert (Hin : slash ∈ path) by by apply E2. destruct (Nat.ltb_spec 1 (size ({[top]} ∪ tops))) as [Hlt|Hle].
    + right. assert (Hx : ∃ t', t' ∈ tops ∧ t' ≠ top).
      { destruct (decide (top ∈ tops)) as [Ht|Ht].
        - replace ({[top]} ∪ tops) with tops in Hlt by set_solver. lia.
        - destruct (decide (tops = ∅)) as [->|Hne].
          + rewrite union_empty_r_L, size_singleton in Hlt. lia.
          + destruct (set_choose_L _ Hne) as [t' Ht']. exists t'. split; [done|]. by intros ->. }
      destruct Hx as (t' & Ht' & Hne). exists top, t'. split; [done|].
      intros x [->| ->]; [right|by left]. exists path. split_and!; [left|done|done].
    + specialize (IH _ Hle). destruct (collect_tops rest _) as [all|].
      * destruct IH as (H1 & H2 & H3). split; [done|]. split; [intros p [->|?]%elem_of_cons ?; [done|by apply H2]|].
        intros t. rewrite H3. split.
        -- intros [[Ht%elem_of_singleton|?]%elem_of_union|(p & ? & ? & ?)]; [|by left|].
           ++ right. exists path. subst. split_and!; [left|done|done].
           ++ right. exists p. split_and!; [by right|done|done].
        -- intros [?|(p & [->|?]%elem_of_cons & ? & ?)]; [set_solver|left|right; eauto]. rewrite elem_of_union, elem_of_singleton.
           left. congruence.
      * destruct IH as [(p & ? & ? & ?)|(t & t' & Hne & Hx)]; [left; exists p; split_and!; [by right|done|done]|right].
        exists t, t'. split; [done|]. intros x Hxt. destruct (Hx x Hxt) as [[Hu%elem_of_singleton|?]%elem_of_union|(p & ? & ? & ?)].
        -- right. exists path. split_and!; [left|done|congruence].
        -- by left.
        -- right. exists p. split_and!; [by right|done|done].
  - assert (Hn : slash ∉ path) by (rewrite <-E2; done). rewrite cut_at_whole in E1 by done. subst top.
    destruct (_is_root_metadata path) eqn:Em; [|left; exists path; split_and!; [left|done|done]].
    specialize (IH _ Hs). destruct (collect_tops rest tops) as [all|].
    + destruct IH as (H1 & H2 & H3). split; [done|]. split; [intros p [->|?]%elem_of_cons ?; [done|by apply H2]|].
      intros t. rewrite H3. set_solver.
    + destruct IH as [(p & ? & ? & ?)|(t & t' & Hne & Hx)]; [left; exists p; split_and!; [by right|done|done]|right].
      exists t, t'. split; [done|]. intros x Hxt. destruct (Hx x Hxt) as [?|(p & ? & ? & ?)]; [by left|].
      right. exists p. split_and!; [by right|done|done].
Qed.

Lemma package_root_prefix_spec paths :
  (∃ w, wrapper paths w ∧ package_root_prefix paths = w ++ [slash]) ∨
  (¬ ∃ w, wrapper paths w) ∧ package_root_prefix paths = [].
Proof.
  unfold package_root_prefix. pose proof (collect_tops_spec paths ∅ ltac:(rewrite size_empty; lia)) as Hs.
  destruct (collect_tops paths ∅) as [all|].
  - destruct Hs as (Hsz & Hloose & Hall).
    assert (Ht : ∀ t, t ∈ all ↔ ∃ p, p ∈ paths ∧ slash ∈ p ∧ (cut_at slash p).1 = t) by set_solver.
    destruct (elements all) as [|w l] eqn:El.
    + right. split; [|done]. intros (w & [(p & Hp & Hin) _ _ _]).
      assert (H1 : (cut_at slash p).1 ∈ all) by (apply Ht; eauto).
      apply elem_of_elements in H1. rewrite El in H1. by apply elem_of_nil in H1.
    + assert (l = []) as ->.
      { unfold size, set_size in Hsz. simpl in Hsz. rewrite El in Hsz. simpl in Hsz. destruct l; [done|simpl in Hsz; lia]. }
      assert (Hw : ∀ t, t ∈ all ↔ t = w).
      { intros t. rewrite <-elem_of_elements, El. apply list_elem_of_singleton. }
      case_bool_decide as Hn.
      * right. split; [|done]. intros (w' & [(p & Hp & Hin) Hb _ Hname]).
        assert (H1 : w' ∈ all) by (apply Ht; exists p; eauto). apply Hw in H1. by subst.
      * left. exists w. split; [|done]. split; [|intros p Hp Hin; apply Hw, Ht; eauto|done|done].
        destruct (proj1 (Ht w) (proj2 (Hw w) eq_refl)) as (p & ? & ? & _). eauto.
  - right. split; [|done]. intros (w & [_ Hb Hl _]).
    destruct Hs as [(p & Hp & Hn & Hm)|(t & t' & Hne & Hx)]; [by rewrite (Hl p Hp Hn) in Hm|].
    assert (E : ∀ x, x = t ∨ x = t' → x = w).
    { intros x Hxt. destruct (Hx x Hxt) as [?%elem_of_empty|(p & ? & ? & <-)]; [done|by apply Hb]. }
    apply Hne. transitivity w; [apply E; by left|symmetry; apply E; by right].
Qed.

Lemma wrapper_perm paths paths' w : paths ≡ₚ paths' → wrapper paths w → wrapper paths' w.
Proof.
  intros HP [(p & Hp & Hin) Hb Hl Hn]. split; [|intros p'; rewrite <-HP; apply Hb|intros p'; rewrite <-HP; apply Hl|done].
  exists p. by rewrite <-HP.
Qed.

Lemma wrapper_unique paths w w' : wrapper paths w → wrapper paths w' → w = w'.
Proof. intros [(p & Hp & Hin) Hb _ _] [_ Hb' _ _]. by rewrite <-(Hb p Hp Hin), (Hb' p Hp Hin). Qed.

(** One manifest, at the package root.  The path the three readers take for the
    package's SKILL.md is [w/SKILL.md] exactly when every member lies below the one
    top-level directory [w], packaging metadata loose at the archive root excepted,
    and [w] is not one of the format's structural directories; in every other
    package it is SKILL.md at the archive root.  So it does not depend on the order
    of the members, and a SKILL.md nested any deeper, or below a structural
    directory, or beside other top-level directories, is never taken. *)
Theorem manifest_is_at_the_package_root paths :
  (∀ w, wrapper paths w → root_skill_md_path paths = w ++ slash :: SKILL_MD_NAME) ∧
  ((¬ ∃ w, wrapper paths w) → root_skill_md_path paths = SKILL_MD_NAME) ∧
  (∀ paths', paths ≡ₚ paths' → root_skill_md_path paths' = root_skill_md_path paths) ∧
  (∀ p, p ∈ paths → p = root_skill_md_path paths → slash ∈ p →
     ∃ w, wrapper paths w ∧ (slash ∉ w) ∧ p = w ++ slash :: SKILL_MD_NAME).
Proof.
  assert (H1 : ∀ l w, wrapper l w → root_skill_md_path l = w ++ slash :: SKILL_MD_NAME).
  { intros l w Hw. unfold root_skill_md_path.
    destruct (package_root_prefix_spec l) as [(w' & Hw' & ->)|[Hn _]]; [|destruct Hn; eauto].
    by rewrite (wrapper_unique l w' w Hw' Hw), <-app_assoc. }
  assert (H2 : ∀ l, (¬ ∃ w, wrapper l w) → root_skill_md_path l = SKILL_MD_NAME).
  { intros l Hn. unfold root_skill_md_path.
    destruct (package_root_prefix_spec l) as [(w' & Hw' & _)|[_ ->]]; [destruct Hn; eauto|done]. }
  split_and!; [apply H1|apply H2| |].
  - intros paths' HP. destruct (package_root_prefix_spec paths) as [(w & Hw & _)|[Hn _]].
    + rewrite (H1 _ w Hw). by apply H1, (wrapper_perm paths).
    + rewrite (H2 _ Hn). apply H2. intros (w & Hw). apply Hn. exists w. by apply (wrapper_perm paths').
  - intros p Hp E Hin. destruct (package_root_prefix_spec paths) as [(w & Hw & _)|[Hn _]].
    + exists w. split; [done|]. rewrite (H1 _ w Hw) in E. split; [|done].
      pose proof (wr_below _ _ Hw p Hp Hin) as <-. by destruct (cut_at_split slash p Hin) as (_ & _ & ?).
    + rewrite (H2 _ Hn) in E. subst p. exfalso. revert Hin. vm_compute. intros Hin.
      repeat (apply elem_of_cons in Hin as [?|Hin]; [done|]). by apply elem_of_nil in Hin.
Qed.

Module PackageSamples.

Definition path (s : string) : points := str_bytes s.
Definition wrapped : list points := map path ["my-skill/SKILL.md"; "my-skill/scripts/run.sh"; "LICENSE.txt"; ".gitignore"].

(** The shapes the module documents. *)
Example documented_shapes :
  map package_root_prefix
    [wrapped; map path ["SKILL.md"; "scripts/run.sh"]; map path ["examples/SKILL.md"; "scripts/run.sh"];
     map path ["examples/SKILL.md"]; map path ["skill.py"; "mylib/SKILL.md"]; []] =
  [path "my-skill/"; []; []; []; []; []].
Proof. vm_compute. reflexivity. Qed.

(** A directory spelled with the Kelvin sign is folded like one spelled with k. *)
Example kelvin_hooks : package_root_prefix [str_bytes "hoo" ++ [8490] ++ str_bytes "s/SKILL.md"] = [].
Proof. vm_compute. reflexivity. Qed.

Lemma wrapped_wrapper : wrapper wrapped (path "my-skill").
Proof.
  destruct (package_root_prefix_spec wrapped) as [(w & Hw & E)|[_ E]]; [|vm_compute in E; discriminate].
  assert (w = path "my-skill") as <-; [|done].
  apply (app_inv_tail [slash]). rewrite <-E. vm_compute. reflexivity.
Qed.
End PackageSamples.
