(* ===== verification/Logging.v ===== *)
(** * Logging: [libs/common/log.py]

    What reaches the log: the redaction of structured context by key, of secret-shaped
    text by pattern, the filter and formatter that apply them, and the loggers with their
    levels.  [logging] itself is a registry of loggers; [msg % args], JSON encoding and
    the text of exceptions are parameters. *)

From S2P Require Import Prelude Canonical JsonText JsonRead Regex Package.
Open Scope string_scope.
Open Scope list_scope.
Open Scope Z_scope.

Definition _SENSITIVE_KEYS : list points :=
  map str_bytes ["password"; "secret"; "token"; "access_token"; "refresh_token"; "id_token"; "authorization"; "cookie"; "api_key"; "apikey";
                 "private_key"; "client_secret"; "jwt"; "jws"; "jws_signature"; "signature"; "code_verifier"; "code_challenge"].
Definition _URL_KEY_SUFFIXES : list points := map str_bytes ["_url"; "_dsn"; "_uri"; "_endpoint"].
Definition url_keys : list points := map str_bytes ["url"; "dsn"; "uri"; "endpoint"].
Definition _REDACTED : points := str_bytes "***REDACTED***".

Definition pattern (p : string) : re := default r_eps (compile true p).
Definition _BEARER_RE : re := pattern "\bBearer\s+[A-Za-z0-9._~+/-]+=*".
Definition _AUTH_HEADER_RE : re := pattern "\bAuthorization:\s*.+".
(** The group and what follows it. *)
Definition _URL_USERINFO_RE : list re := [pattern "\b([a-z][a-z0-9+.\-]*://)"; pattern "[^\s/?#@]*@"].

Section redaction.
Variables wide_word wide_digit : Z → bool.

Definition userinfo_repl (text : points) (tails : list points) : points :=
  span text (default [] (head tails)) ++ _REDACTED ++ [64].

Definition redact_url_credentials (url : points) : points := sub wide_word wide_digit _URL_USERINFO_RE userinfo_repl url.

(** Upper and lower case matter only as far as they meet ASCII ([Package.lower]). *)
Definition sensitive_key (key : points) : bool := bool_decide (lower key ∈ _SENSITIVE_KEYS).
Definition url_key (key : points) : bool :=
  existsb (λ s, bool_decide (s `suffix_of` lower key)) _URL_KEY_SUFFIXES || bool_decide (lower key ∈ url_keys).

(** One entry of the mapping. *)
Fixpoint redact_value (key : points) (v : value) : value :=
  match v with
  | v_dict fields => v_dict (map (λ kv, match kv with (k, x) => (k, redact_value k x) end) fields)
  | _ =>
      if sensitive_key key then v_str _REDACTED
      else match v with
           | v_str s => if url_key key then v_str (redact_url_credentials s) else v
           | _ => v
           end
  end.
Definition redact_mapping (data : list (points * value)) : list (points * value) :=
  map (λ kv, match kv with (k, x) => (k, redact_value k x) end) data.

Definition fixed (text : string) (_ : points) (_ : list points) : points := str_bytes text ++ _REDACTED.

Definition redact_text (text : points) : points :=
  let text := sub wide_word wide_digit [_BEARER_RE] (fixed "Bearer ") text in
  let text := sub wide_word wide_digit [_AUTH_HEADER_RE] (fixed "Authorization: ") text in
  redact_url_credentials text.

(** ** Records *)

Record LogRecord := mkLogRecord {
  lr_level : points;
  lr_name : points;
  lr_msg : value;
  lr_context : option value;
  lr_exc_info : option points;
}.

(** [RedactionFilter.filter]. *)
Definition filter_record (record : LogRecord) : LogRecord :=
  mkLogRecord (lr_level record) (lr_name record)
    (match lr_msg record with v_str s => v_str (redact_text s) | v => v end)
    (match lr_context record with Some (v_dict d) => Some (v_dict (redact_mapping d)) | c => c end)
    (lr_exc_info record).

(** [record.getMessage()], with the record's arguments. *)
Variable getMessage : LogRecord → points.
(** The truth of a context that is no mapping. *)
Variable truthy_other : value → bool.

Definition context_shown (c : value) : bool := match c with v_dict d => negb (bool_decide (d = [])) | v => truthy_other v end.

(** [_JsonFormatter.format], before [json.dumps]. *)
Definition format (record : LogRecord) : list (points * value) :=
  [(str_bytes "level", v_str (lr_level record)); (str_bytes "logger", v_str (lr_name record));
   (str_bytes "message", v_str (redact_text (getMessage record)))] ++
  match lr_context record with Some c => if context_shown c then [(str_bytes "context", c)] else [] | None => [] end ++
  match lr_exc_info record with Some e => [(str_bytes "exc_info", v_str e)] | None => [] end.

(** ** Loggers *)

(** [logging.getLevelNamesMapping()]. *)
Definition level_names : list (points * Z) :=
  map (λ kv, (str_bytes kv.1, kv.2))
    [("CRITICAL", 50); ("FATAL", 50); ("ERROR", 40); ("WARN", 30); ("WARNING", 30); ("INFO", 20); ("DEBUG", 10); ("NOTSET", 0)].
Definition _DEFAULT_LEVEL : Z := 20.

Definition _resolve_level (env : option points) : Z * option points :=
  let raw := strip_points (default [] env) in
  if bool_decide (raw = []) then (_DEFAULT_LEVEL, None)
  else match find (λ kv, bool_decide (kv.1 = upper raw)) level_names with
       | Some (_, level) => if level =? 0 then (_DEFAULT_LEVEL, Some raw) else (level, None)
       | None => (_DEFAULT_LEVEL, Some raw)
       end.

Record Handler := mkHandler { hd_json : bool; hd_redacts : bool }.
Record Logger := mkLogger { lg_redacts : bool; lg_handlers : list Handler; lg_propagate : bool; lg_level : Z }.

(** A new logger: no filter, no handler, [NOTSET]. *)
Definition fresh_logger : Logger := mkLogger false [] true 0.

(** The registry, whether a bad level was reported, and the warnings about it. *)
Record Logs := mkLogs { ls_loggers : gmap string Logger; ls_bad_level_reported : bool; ls_warnings : list (string * points) }.

Definition _report_bad_level_once (name : string) (raw : points) (logs : Logs) : Logs :=
  if ls_bad_level_reported logs then logs else mkLogs (ls_loggers logs) true (ls_warnings logs ++ [(name, raw)]).

Definition get_logger (env : option points) (name : string) (logs : Logs) : Logs :=
  let logger := default fresh_logger (ls_loggers logs !! name) in
  let has := match lg_handlers logger with [] => false | _ => true end in
  let '(level, rejected) := _resolve_level env in
  let logger := mkLogger true (if has then lg_handlers logger else [mkHandler true true]) (has && lg_propagate logger) level in
  let logs := mkLogs (<[name := logger]> (ls_loggers logs)) (ls_bad_level_reported logs) (ls_warnings logs) in
  match rejected with Some raw => _report_bad_level_once name raw logs | None => logs end.
End redaction.

(** ** Keys *)

(** The values that are no mappings, each with the key it is under. *)
Fixpoint leaves (key : points) (v : value) : list (points * value) :=
  match v with
  | v_dict fields => concat (map (λ kv, match kv with (k, x) => leaves k x end) fields)
  | _ => [(key, v)]
  end.
Definition leaves_of (data : list (points * value)) : list (points * value) :=
  concat (map (λ kv, match kv with (k, x) => leaves k x end) data).

Section keys.
Context (wide_word wide_digit : Z → bool).
Local Abbreviation redact_value := (redact_value wide_word wide_digit).
Local Abbreviation redact_url_credentials := (redact_url_credentials wide_word wide_digit).

(** What becomes of a leaf. *)
Definition leaf_shown (kv : points * value) : points * value :=
  (kv.1, if sensitive_key kv.1 then v_str _REDACTED
         else match kv.2 with v_str s => if url_key kv.1 then v_str (redact_url_credentials s) else v_str s | v => v end).

Lemma leaves_redacted : ∀ v key, leaves key (redact_value key v) = map leaf_shown (leaves key v).
Proof.
  fix IH 1. intros v key. destruct v as [|c|n|q|s|l|fields];
    try (unfold leaf_shown; cbn [Logging.redact_value leaves map fst snd]; by destruct (sensitive_key key); [|try destruct (url_key key)]).
  cbn [Logging.redact_value leaves]. induction fields as [|[k x] fields IHf]; [done|]. cbn [map concat]. rewrite map_app. by rewrite IH, IHf.
Qed.

(** no secret under its key.  Whatever the nesting of the mappings, redaction keeps the
    keys and their order, replaces every value under a sensitive key, strips the
    credentials of every text under a key of a URL, and leaves the rest as it was. *)
Theorem mapping_is_redacted data :
  leaves_of (redact_mapping wide_word wide_digit data) = map leaf_shown (leaves_of data) ∧
  ∀ k v, (k, v) ∈ leaves_of (redact_mapping wide_word wide_digit data) → lower k ∈ _SENSITIVE_KEYS → v = v_str _REDACTED.
Proof.
  assert (leaves_of (redact_mapping wide_word wide_digit data) = map leaf_shown (leaves_of data)) as E.
  { exact (leaves_redacted (v_dict data) []). }
  split; [done|]. intros k v Hin Hk. rewrite E in Hin. apply list_elem_of_fmap in Hin as ([k' v'] & [= -> ->] & _).
  unfold sensitive_key. cbn. by rewrite bool_decide_eq_true_2.
Qed.

(** ** Credentials in URLs *)

(** A scheme, and the characters of user information. *)
Definition scheme_char (c : Z) : bool := is_letter c || ((48 <=? c) && (c <=? 57)) || bool_decide (c ∈ [43; 46; 45]).
Definition is_scheme (s : points) : Prop := ∃ c cs, s = c :: cs ∧ is_letter c = true ∧ Forall (λ x, scheme_char x = true) cs.
Definition user_char (c : Z) : bool := negb (space c || bool_decide (c ∈ [47; 63; 35; 64])).

Definition colon_slashes : points := [58; 47; 47].

Local Abbreviation sem := (sem wide_word wide_digit).

Lemma scheme_sem s b a : is_scheme s → head_in (word wide_word) b = false → sem (pattern "\b([a-z][a-z0-9+.\-]*://)") b (s ++ colon_slashes) a.
Proof.
  intros (c & cs & -> & Hc & Hcs) Hb. change (pattern "\b([a-z][a-z0-9+.\-]*://)") with
    (r_seq r_bound (r_seq (r_set false [i_range 97 122; i_range 65 90; i_char 304; i_char 305; i_char 8490; i_char 383])
      (r_seq (r_rep (r_set false [i_range 97 122; i_range 65 90; i_char 304; i_char 305; i_char 8490; i_char 383; i_range 48 57; i_char 43; i_char 46; i_char 45]) 0 None)
         (r_seq (r_set false [i_char 58]) (r_seq (r_set false [i_char 47]) (r_set false [i_char 47])))))).
  exists [], (c :: cs ++ colon_slashes). split; [done|]. split.
  { split; [done|]. unfold boundary. rewrite Hb. cbn. unfold word. unfold is_letter, is_lower, is_upper in *.
    destruct (Z.ltb_spec c 128); [by rewrite Hc|]. exfalso. apply orb_true_iff in Hc. rewrite !andb_true_iff, !Z.leb_le in Hc. lia. }
  exists [c], (cs ++ colon_slashes). split; [done|]. split.
  { exists c. split; [done|]. unfold in_set. cbn. unfold is_letter, is_lower, is_upper in Hc. destruct (_ && _); [done|]. cbn in *. by rewrite Hc. }
  exists cs, colon_slashes. split; [done|]. split.
  { apply sem_any_number. eapply Forall_impl; [exact Hcs|]. intros x Hx. unfold in_set, scheme_char, is_letter, is_lower, is_upper in *. cbn.
    apply orb_true_iff in Hx as [[Hx|Hx]%orb_true_iff|Hx].
    - apply orb_true_iff in Hx as [Hx|Hx]; rewrite Hx; by rewrite ?orb_true_r.
    - rewrite Hx. by rewrite !orb_true_r.
    - apply bool_decide_eq_true in Hx. repeat (apply elem_of_cons in Hx as [->|Hx]; [done|]). by apply elem_of_nil in Hx. }
  exists [58], [47; 47]. split; [done|]. split; [by exists 58|]. exists [47], [47]. split; [done|]. split; by exists 47.
Qed.

Lemma scheme_sem_inv b w a : sem (pattern "\b([a-z][a-z0-9+.\-]*://)") b w a → ∃ s, w = s ++ colon_slashes ∧ 58 ∉ s.
Proof.
  change (pattern "\b([a-z][a-z0-9+.\-]*://)") with
    (r_seq r_bound (r_seq (r_set false [i_range 97 122; i_range 65 90; i_char 304; i_char 305; i_char 8490; i_char 383])
      (r_seq (r_rep (r_set false [i_range 97 122; i_range 65 90; i_char 304; i_char 305; i_char 8490; i_char 383; i_range 48 57; i_char 43; i_char 46; i_char 45]) 0 None)
         (r_seq (r_set false [i_char 58]) (r_seq (r_set false [i_char 47]) (r_set false [i_char 47])))))).
  intros (w1 & w2 & -> & [-> _] & (w3 & w4 & -> & (c & -> & Hc) & (cs & w5 & -> & Hcs & H))).
  destruct H as (w6 & w7 & -> & (c1 & -> & H1) & (w8 & w9 & -> & (c2 & -> & H2) & (c3 & -> & H3))).
  apply sem_any_number in Hcs. unfold in_set in H1, H2, H3. cbn in H1, H2, H3. rewrite !orb_false_r in *.
  apply Z.eqb_eq in H1, H2, H3. subst. exists (c :: cs). split; [done|]. intros [<-|Hin]%elem_of_cons; [by vm_compute in Hc|].
  rewrite Forall_forall in Hcs. apply Hcs in Hin. by vm_compute in Hin.
Qed.

Lemma user_char_iff c :
  in_set wide_word wide_digit true [i_space; i_char 47; i_char 63; i_char 35; i_char 64] c = user_char c.
Proof.
  unfold in_set, user_char. cbn [existsb in_item]. rewrite xorb_true_l. f_equal. f_equal. rewrite orb_false_r.
  destruct (bool_decide_reflect (c ∈ [47; 63; 35; 64])) as [H|H].
  - repeat (apply elem_of_cons in H as [->|H]; [done|]). by apply elem_of_nil in H.
  - assert (c ≠ 47 ∧ c ≠ 63 ∧ c ≠ 35 ∧ c ≠ 64) as (H1 & H2 & H3 & H4) by set_solver.
    apply Z.eqb_neq in H1, H2, H3, H4. by rewrite H1, H2, H3, H4.
Qed.

Lemma user_sem b w a : sem (pattern "[^\s/?#@]*@") b w a ↔ ∃ u, w = u ++ [64] ∧ Forall (λ c, user_char c = true) u.
Proof.
  change (pattern "[^\s/?#@]*@") with
    (r_seq (r_rep (r_set true [i_space; i_char 47; i_char 63; i_char 35; i_char 64]) 0 None) (r_set false [i_char 64])). split.
  - intros (u & w2 & -> & Hu & (c & -> & Hc)). unfold in_set in Hc. cbn in Hc. rewrite orb_false_r in Hc. apply Z.eqb_eq in Hc as ->.
    exists u. split; [done|]. apply sem_any_number in Hu. eapply Forall_impl; [exact Hu|]. intros c Hc. rewrite <-user_char_iff. exact Hc.
  - intros (u & -> & Hu). exists u, [64]. split; [done|]. split; [|by exists 64]. apply sem_any_number. eapply Forall_impl; [exact Hu|].
    intros c Hc. cbn beta. rewrite user_char_iff. exact Hc.
Qed.

(** The characters of a scheme and of user information are not their separators. *)
Lemma scheme_no_colon s : is_scheme s → 58 ∉ s.
Proof.
  intros (c & cs & -> & Hc & Hcs) [<-|Hin]%elem_of_cons; [by vm_compute in Hc|]. rewrite Forall_forall in Hcs. apply Hcs in Hin. by vm_compute in Hin.
Qed.
Lemma user_no_at u : Forall (λ c, user_char c = true) u → 64 ∉ u.
Proof. rewrite Forall_forall. intros H Hin%H. by vm_compute in Hin. Qed.

(** Where the user information stands, the match is the scheme and the user information. *)
Lemma url_match scheme user rest b :
  is_scheme scheme → Forall (λ c, user_char c = true) user → head_in (word wide_word) b = false →
  match_parts wide_word wide_digit _URL_USERINFO_RE b (scheme ++ colon_slashes ++ user ++ 64 :: rest) = Some [user ++ 64 :: rest; rest].
Proof.
  intros Hs Hu Hb.
  destruct (match_parts wide_word wide_digit _URL_USERINFO_RE b (scheme ++ colon_slashes ++ user ++ 64 :: rest)) as [tails|] eqn:E.
  - apply match_parts_sound in E as (w1 & w2 & a2 & E & -> & (s & -> & Hs')%scheme_sem_inv & (u & -> & Hu')%user_sem).
    rewrite <-!app_assoc in E. unfold colon_slashes in E. cbn [app] in E.
    apply app_sep_inj in E as [<- E]; [|by apply scheme_no_colon|done]. injection E as E.
    apply app_sep_inj in E as [<- <-]; [|by apply user_no_at|by apply user_no_at]. by rewrite <-app_assoc.
  - exfalso. revert E. replace (scheme ++ colon_slashes ++ user ++ 64 :: rest) with ((scheme ++ colon_slashes) ++ (user ++ [64]) ++ rest)
      by (by rewrite <-!app_assoc).
    apply match_parts_complete; [by apply scheme_sem|]. apply user_sem. by exists user.
Qed.

(** the password of a URL is not logged.  For a URL with user information, the redacted
    text is the scheme, the marker and the redacted rest, whatever the user information
    was: two URLs that differ only in it are logged alike. *)
Theorem url_credentials_are_removed scheme user rest :
  is_scheme scheme → Forall (λ c, user_char c = true) user →
  redact_url_credentials (scheme ++ colon_slashes ++ user ++ 64 :: rest) =
  scheme ++ colon_slashes ++ _REDACTED ++ 64 :: sub_from wide_word wide_digit _URL_USERINFO_RE userinfo_repl 0 [64] rest.
Proof.
  intros Hs Hu. pose proof (url_match scheme user rest [] Hs Hu eq_refl) as Hm. destruct Hs as (c & cs & -> & _).
  unfold Logging.redact_url_credentials, sub. cbn [app sub_from]. cbn [app] in Hm. rewrite Hm. cbn [last default from_option]. unfold id.
  unfold userinfo_repl at 1. cbn [head default from_option].
  assert (∀ k, span (c :: cs ++ colon_slashes ++ user ++ 64 :: rest) (user ++ 64 :: rest) ++ k = (c :: cs ++ colon_slashes) ++ k) as ->.
  { intros k. f_equal. transitivity (span ((c :: cs ++ colon_slashes) ++ user ++ 64 :: rest) (user ++ 64 :: rest)); [cbn; by rewrite <-app_assoc|apply span_app]. }
  assert (span (c :: cs ++ colon_slashes ++ user ++ 64 :: rest) rest = c :: cs ++ colon_slashes ++ user ++ [64]) as ->.
  { rewrite <-(span_app (c :: cs ++ colon_slashes ++ user ++ [64]) rest). f_equal. cbn [app]. by rewrite <-!app_assoc. }
  cbn [length pred].
  replace (cs ++ colon_slashes ++ user ++ 64 :: rest) with ((cs ++ colon_slashes ++ user ++ [64]) ++ rest) by (by rewrite <-!app_assoc).
  rewrite sub_skip. cbn [app]. rewrite <-!app_assoc. do 3 f_equal. cbn [app]. f_equal. f_equal. apply sub_edge. unfold same_edge. by rewrite !app_assoc, reverse_snoc.
Qed.
End keys.

(** ** Levels *)

(** a logger is never silent by accident.  Whatever the environment says, asking for a
    logger leaves it with the redaction filter, with a handler, and with a level of its
    own: the named one, or the default with the rejected text reported; a level that
    would defer to another logger is never set.  A bad setting is reported once. *)
Theorem loggers_are_explicit env name logs :
  let logs' := get_logger env name logs in
  let '(level, rejected) := _resolve_level env in
  (∃ logger, ls_loggers logs' !! name = Some logger ∧ lg_redacts logger = true ∧ lg_handlers logger ≠ [] ∧ lg_level logger = level) ∧
  10 ≤ level ∧ (rejected ≠ None → level = _DEFAULT_LEVEL) ∧
  (∀ other, other ≠ name → ls_loggers logs' !! other = ls_loggers logs !! other) ∧
  ls_warnings logs' = ls_warnings logs ++
    match rejected with Some raw => if ls_bad_level_reported logs then [] else [(name, raw)] | None => [] end ∧
  (rejected ≠ None → ls_bad_level_reported logs' = true).
Proof.
  unfold get_logger. destruct (_resolve_level env) as [level rejected] eqn:E.
  assert (Hlevel : 10 ≤ level ∧ (rejected ≠ None → level = _DEFAULT_LEVEL)).
  { unfold _resolve_level in E. case_bool_decide; [simplify_eq; unfold _DEFAULT_LEVEL; split; [lia|done]|].
    destruct (find _ level_names) as [[n l]|] eqn:Ef; [|simplify_eq; unfold _DEFAULT_LEVEL; split; [lia|done]].
    destruct (Z.eqb_spec l 0) as [->|Hl]; simplify_eq; [unfold _DEFAULT_LEVEL; split; [lia|done]|]. split; [|done].
    apply find_some in Ef as [Hin _]. cbn in Hin. repeat (destruct Hin as [Hin|Hin]; [injection Hin as _ <-; lia|]). done. }
  set (logger := mkLogger _ _ _ _). assert (Hh : lg_handlers logger ≠ []) by (cbn; by destruct (lg_handlers _) eqn:?).
  destruct Hlevel as [H1 H2]. destruct rejected as [raw|]; unfold _report_bad_level_once; cbn; [destruct (ls_bad_level_reported logs) eqn:Er; cbn|];
    (split; [exists logger; rewrite lookup_insert_eq; done|]); (split; [done|]); (split; [done|]);
    (split; [intros; by rewrite lookup_insert_ne|]); rewrite ?app_nil_r; done.
Qed.

(** ** Instances *)

Module LoggingSamples.
Definition none (c : Z) : bool := false.
Definition t (s : string) : points := str_bytes s.
Abbreviation redact_url := (redact_url_credentials none none).
Abbreviation redact_map := (redact_mapping none none).

Lemma url_credentials_are_removed_witness : redact_url (t "redis://:pw@host/0") = t "redis://***REDACTED***@host/0".
Proof.
  change (t "redis://:pw@host/0") with (t "redis" ++ colon_slashes ++ t ":pw" ++ 64 :: t "host/0").
  rewrite url_credentials_are_removed; [vm_compute; reflexivity| |].
  - exists 114, (t "edis"). split; [reflexivity|]. split; [reflexivity|]. apply (bool_decide_unpack _). vm_compute. exact I.
  - apply (bool_decide_unpack _). vm_compute. exact I.
Defined.

Example texts :
  map (redact_text none none) [t "got Bearer abc.def== ok"; t "x Authorization:  Basic Zm9v"; t "http://u:p@h and https://h/a@b"] =
  [t "got Bearer ***REDACTED*** ok"; t "x Authorization: ***REDACTED***"; t "http://***REDACTED***@h and https://h/a@b"].
Proof. vm_compute. reflexivity. Qed.

(** A password with a slash is logged whole, one with an at sign in part. *)
Example password_with_slash_is_logged :
  redact_url (t "redis://:ab/cd@host/0") = t "redis://:ab/cd@host/0" ∧ redact_url (t "redis://:ab@cd@host/0") = t "redis://***REDACTED***@cd@host/0".
Proof. split; vm_compute; reflexivity. Qed.

(** A mapping inside a list is not looked at, nor is a sensitive key whose value is a
    mapping. *)
Example unredacted_values :
  let in_list := [(t "headers", v_list [v_dict [(t "password", v_str (t "pw"))]])] in
  let in_dict := [(t "token", v_dict [(t "value", v_str (t "tok"))])] in
  redact_map in_list = in_list ∧ redact_map in_dict = in_dict.
Proof. split; vm_compute; reflexivity. Qed.

(** The text of an exception is logged as it is. *)
Example exception_text_is_logged :
  let record := mkLogRecord (t "ERROR") (t "x") (v_str (t "failed")) None (Some (t "ConnectionError: redis://:pw@host/0")) in
  last (format none none (λ _, t "failed") (λ _, false) (filter_record none none record)) =
  Some (t "exc_info", v_str (t "ConnectionError: redis://:pw@host/0")).
Proof. vm_compute. reflexivity. Qed.

Example levels :
  map (λ raw, _resolve_level (Some (t raw))) [""; " debug "; "NOTSET"; "verbose"] =
  [(20, None); (10, None); (20, Some (t "NOTSET")); (20, Some (t "verbose"))] ∧ _resolve_level None = (20, None).
Proof. split; vm_compute; reflexivity. Qed.
End LoggingSamples.
