(* ===== verification/Orchestration.v ===== *)
(** * The scan pipeline

    [apps/monolith/modules/orchestration/service.py]: submission (single flight on the
    cache key), the collector and the sandbox-wait sweep, and the two ways a scan is
    decided: scored from its engines' results, or dead-lettered to a forced BLOCK.
    Each [async with session.begin()] block is one function on the tables, so that
    the blocks of concurrent ticks can interleave; the whole functions compose
    them.  The tar packer, the SKILL.md reader, NFC, SHA-256, [repr], the
    signer and pydantic are parameters. *)

From S2P Require Import Prelude Float64 Models Scoring Gate Json Canonical PolicyDigest GateService Readback.
From Stdlib Require Import QArith.
Open Scope string_scope.
Open Scope list_scope.
Open Scope Z_scope.

Definition STATE_QUEUED : string := "queued".
Definition STATE_RUNNING : string := "running".
Definition STATE_SCORED : string := "scored".
Definition STATE_DECIDED : string := "decided".
Definition STATE_FAILED : string := "failed".
Definition SCAN_STATES : list string :=
  [STATE_QUEUED; STATE_RUNNING; STATE_SCORED; STATE_DECIDED; STATE_FAILED].
Definition _UNSCORED_STATES : list string := [STATE_QUEUED; STATE_RUNNING].

Inductive SubmissionChannel := CONSOLE | MARKETPLACE.
Definition channel_value (c : SubmissionChannel) : string :=
  match c with CONSOLE => "console" | MARKETPLACE => "marketplace" end.

Definition POISON_PILL_STATUS : string := "poison_pill".
Definition UNPACK_REJECTED_STATUS : string := "unpack_rejected".
Definition _TERMINAL_STATUSES : list string := [POISON_PILL_STATUS; UNPACK_REJECTED_STATUS].
Definition RESULT_POISON_PILL_REASON : string := "result_poison_pill:max_delivery_exceeded".
Definition MAX_DELIVERY_COUNT : Z := 5.
Definition _SWEEP_GRACE_S : Z := 30.
Definition _SWEEP_BATCH : nat := 50.

(** ** Tables *)

Record ScanJob := mkScanJob {
  j_content_hash : string;
  j_toolchain_digest : string;
  j_cache_key : string;
  j_state : string;
  j_submitter : string;
  j_created_at : Z;
  j_skill_name : option string;
  j_sandbox_wait_started_at : option Z;
  j_trust_tier : option string;
}.

Record ScanSubmitterRow := mkScanSubmitterRow {
  ss_source : option string;
  ss_requested_trust_tier : option string;
}.

Record ScanResultRow := mkScanResultRow {
  sr_row_content_hash : string;
  sr_row_severity : Z;
  sr_row_confidence_at_max : Q;
  sr_row_trifecta_present : bool;
  sr_row_findings_capped : bool;
  sr_row_findings_total : option Z;
  sr_row_required_ok : bool;
  sr_row_findings : list json;
  sr_row_provenance : list (string * string * string);
  sr_row_hard_gate_hits : list string;
}.

Record ScanEngineHealthRow := mkScanEngineHealthRow {
  hr_report_state : string;
  hr_engine_status : option string;
  hr_analyze_duration_ms : option Z;
  hr_finding_count : option Z;
  hr_error : option string;
  hr_recorded_at : Z;
}.

(** orchestration's tables; [submitters] and [health] by their two-column keys. *)
Record OrchStore := mkOrchStore {
  jobs : gmap string ScanJob;
  submitters : gmap (string * string) ScanSubmitterRow;
  results : gmap string ScanResultRow;
  health : gmap (string * string) ScanEngineHealthRow;
}.

Definition set_jobs (f : gmap string ScanJob → gmap string ScanJob) (st : OrchStore) : OrchStore :=
  mkOrchStore (f (jobs st)) (submitters st) (results st) (health st).
Definition set_submitters
    (f : gmap (string * string) ScanSubmitterRow → gmap (string * string) ScanSubmitterRow)
    (st : OrchStore) : OrchStore :=
  mkOrchStore (jobs st) (f (submitters st)) (results st) (health st).

Definition with_state (s : string) (j : ScanJob) : ScanJob :=
  mkScanJob (j_content_hash j) (j_toolchain_digest j) (j_cache_key j) s (j_submitter j)
    (j_created_at j) (j_skill_name j) (j_sandbox_wait_started_at j) (j_trust_tier j).

Definition with_wait_started (now : Z) (j : ScanJob) : ScanJob :=
  mkScanJob (j_content_hash j) (j_toolchain_digest j) (j_cache_key j) (j_state j) (j_submitter j)
    (j_created_at j) (j_skill_name j)
    (match j_sandbox_wait_started_at j with None => Some now | w => w end) (j_trust_tier j).

(** [UPDATE scan_job SET state = s WHERE scan_id = id AND state IN from]. *)
Definition update_state (scan_id : string) (from : list string) (s : string) (st : OrchStore)
    : OrchStore :=
  set_jobs (alter (λ j, if bool_decide (j_state j ∈ from) then with_state s j else j) scan_id) st.

(** A message on the scans stream. *)
Record ScanJobMessage := mkScanJobMessage {
  sm_scan_id : string;
  sm_content_hash : string;
  sm_artifact_key : string;
  sm_deadline_epoch : Z;
  sm_engines : list string;
}.

Definition artifact_key (content_hash : string) : string :=
  "artifacts/" +:+ content_hash +:+ "/pkg.tar".

(** The tables, the blob store, the scans stream and gate's tables. *)
Record World := mkWorld {
  orch : OrchStore;
  blobs : gmap string blob;
  scans_stream : list ScanJobMessage;
  gate : GateStore;
}.

Definition set_orch (o : OrchStore) (w : World) : World :=
  mkWorld o (blobs w) (scans_stream w) (gate w).
Definition set_gate (g : GateStore) (w : World) : World :=
  mkWorld (orch w) (blobs w) (scans_stream w) g.

Inductive PipelineError :=
| hash_failed (e : CanonicalError)
| bad_trust_tier (tier : string)
| aggregate_failed (e : TypeError)
| result_exists
| gate_failed (e : GateServiceError).

(** ** Submission *)

Definition _associate_submitter (scan_id submitter : string) (source : SubmissionChannel)
    (requested_trust_tier : TrustTier) (st : OrchStore) : OrchStore :=
  match submitters st !! (scan_id, submitter) with
  | Some _ => st
  | None =>
      set_submitters
        (insert (scan_id, submitter)
           (mkScanSubmitterRow (Some (channel_value source)) (Some (tier_value requested_trust_tier)))) st
  end.

Definition job_with_cache_key (st : OrchStore) (ck : string) : option string :=
  fst <$> find (λ kv, String.eqb (j_cache_key kv.2) ck) (map_to_list (jobs st)).

Section pipeline.
Variable exp64 : Q → Q.
Variable sign_verdict : json → Z → string.
Variable claim_jti : string → string.
Variable nfc : points → points.
Variable sha256 : list Z → string.
Variable repr_str : string → string.
Variable repr_float : Q → string.
Variable pack_tar : list Entry → blob.
Variable skill_name_of : list Entry → option string.
Variable model_validate_json : blob → option EngineResultDTO.
Variable error_text : UntrustedFindingsError → string.
Variable py_repr : string → string.

(** [new_id] is the fresh UUID, [now] the clock in seconds. *)
Definition submit_scan (files : list Entry) (submitter : string)
    (engine_metadatas : list EngineMetadata) (policy : GatePolicy) (trust_tier : TrustTier)
    (source : SubmissionChannel) (requested_trust_tier : TrustTier) (deadline_s : Z)
    (new_id : string) (now : Z) (w : World) : result PipelineError (string * World) :=
  match content_hash nfc sha256 files,
        toolchain_digest sha256 engine_metadatas (cache_policy_version repr_str (λ _, repr_float) sha256 (λ _, false) policy) "none" with
  | Ok c_hash, Ok t_digest =>
      match cache_key sha256 c_hash t_digest with
      | Err e => Err (hash_failed e)
      | Ok ck =>
          match job_with_cache_key (orch w) ck with
          | Some existing =>
              Ok (existing, set_orch (_associate_submitter existing submitter source
                                        requested_trust_tier (orch w)) w)
          | None =>
              let a_key := artifact_key c_hash in
              let blobs' := match blobs w !! a_key with
                            | Some _ => blobs w
                            | None => <[a_key := pack_tar files]> (blobs w)
                            end in
              let job := mkScanJob c_hash t_digest ck STATE_QUEUED submitter now (skill_name_of files)
                           None (Some (tier_value trust_tier)) in
              let orch' := _associate_submitter new_id submitter source requested_trust_tier
                             (set_jobs (insert new_id job) (orch w)) in
              let msg := mkScanJobMessage new_id c_hash a_key (now + deadline_s)
                           (sorted_set (required_engines policy)) in
              Ok (new_id, mkWorld orch' blobs' (scans_stream w ++ [msg]) (gate w))
          end
      end
  | Err e, _ => Err (hash_failed e)
  | _, Err e => Err (hash_failed e)
  end.

(** ** Reads *)

(** The database compares text by its collation, [utf8mb4_0900_ai_ci]: two strings are
    equal in a WHERE when they have the same weights, given here as a key. *)
Class Collation := collate : string → string.

Definition is_scan_submitter `{Collation} (st : OrchStore) (scan_id subject : string) : bool :=
  existsb (λ kv, String.eqb kv.1.1 scan_id && String.eqb (collate kv.1.2) (collate subject))
    (map_to_list (submitters st)).

Lemma is_scan_submitter_iff `{Collation} st scan_id subject :
  is_scan_submitter st scan_id subject = true ↔
  ∃ who, submitters st !! (scan_id, who) ≠ None ∧ collate who = collate subject.
Proof.
  unfold is_scan_submitter. rewrite existsb_true. split.
  - intros ([[id who] r] & Hin%elem_of_map_to_list & [Hid%String.eqb_eq Hw%String.eqb_eq]%andb_true_iff).
    cbn in Hid, Hw. subst id. exists who. by rewrite Hin.
  - intros (who & Hin & Hw). destruct (submitters st !! (scan_id, who)) as [r|] eqn:E; [|done].
    exists ((scan_id, who), r). rewrite elem_of_map_to_list. cbn. by rewrite String.eqb_refl, Hw, String.eqb_refl.
Qed.

Definition get_scan_state_and_tier (st : OrchStore) (scan_id : string)
    : option (string * option string) :=
  (λ j, (j_state j, j_trust_tier j)) <$> jobs st !! scan_id.

Record ScanIdentity := mkScanIdentity {
  si_scan_id : string;
  si_state : string;
  si_trust_tier : option string;
}.

Definition jobs_for_content (st : OrchStore) (content_hash : string) : list (string * ScanJob) :=
  base.filter (λ kv, j_content_hash kv.2 = content_hash) (map_to_list (jobs st)).

Definition newest_job (l : list (string * ScanJob)) : option Z :=
  match l with
  | [] => None
  | kv :: l' => Some (foldl Z.max (j_created_at kv.2) (map (λ kv, j_created_at kv.2) l'))
  end.

(** Every scan tied at the newest [created_at], by scan id. *)
Definition latest_scan_identities_for_content (st : OrchStore) (content_hash : string)
    : list ScanIdentity :=
  let l := jobs_for_content st content_hash in
  map (λ kv, mkScanIdentity kv.1 (j_state kv.2) (j_trust_tier kv.2))
    (sort_by (le_key str_le fst) (base.filter (λ kv, Some (j_created_at kv.2) = newest_job l) l)).

(** [(submitter, source, requested tier)] of one scan, by submitter, and its channels. *)
Definition attribution_of (st : OrchStore) (scan_id : string)
    : list (string * option string * option string) * list string :=
  let rows := base.filter (λ kv, kv.1.1 = scan_id) (map_to_list (submitters st)) in
  let entries := map (λ kv, (kv.1.2, ss_source kv.2, ss_requested_trust_tier kv.2))
                   (sort_by (le_key str_le (λ kv, kv.1.2)) rows) in
  (entries, sorted_set (list_to_set (omap (λ e, e.1.2) entries))).

Definition submitter_attribution (st : OrchStore) (scan_ids : list string)
    : gmap string (list (string * option string * option string) * list string) :=
  foldr (λ id m, match (attribution_of st id).1 with
                 | [] => m
                 | _ => <[id := attribution_of st id]> m
                 end) ∅ scan_ids.

(** ** Deciding a scan *)

Definition forced_block_scan_result (content_hash reason : string) : ScanResult :=
  mkScanResult content_hash CRITICAL 1 false [] [] [] false false [reason] 0 ∅.

Definition _mark_running_if_queued (scan_id : string) (st : OrchStore) : OrchStore :=
  update_state scan_id [STATE_QUEUED] STATE_RUNNING st.

(** [TrustTier(tier) if tier is not None else default]. *)
Definition effective_trust_tier (job_tier : option string) (default_tier : TrustTier)
    : result PipelineError TrustTier :=
  match job_tier with
  | None => Ok default_tier
  | Some s => match tier_of_value s with Some t => Ok t | None => Err (bad_trust_tier s) end
  end.

(** The gate's transaction, shared by both paths. *)
Definition gate_txn (scan_id : string) (scan_result : ScanResult) (policy : GatePolicy)
    (job_tier : option string) (default_tier : TrustTier) (allowlist : list AllowlistEntry)
    (operator : string) (extra_reasons : list string) (now : Q) (clock : Z) (g : GateStore)
    : result PipelineError GateStore :=
  tier ← effective_trust_tier job_tier default_tier;
  match decide_and_record exp64 sign_verdict claim_jti scan_id scan_result policy tier allowlist
          operator now extra_reasons clock g with
  | Ok (_, g') => Ok g'
  | Err e => Err (gate_failed e)
  end.

(** [_dead_letter_and_decide], first transaction: what the job row says. *)
Definition dead_letter_claim (scan_id : string) (st : OrchStore) : option (string * option string) :=
  match jobs st !! scan_id with
  | Some j => if bool_decide (j_state j ∈ _UNSCORED_STATES)
              then Some (j_content_hash j, j_trust_tier j) else None
  | None => None
  end.

Definition dead_letter_finish (scan_id : string) (st : OrchStore) : OrchStore :=
  update_state scan_id _UNSCORED_STATES STATE_FAILED st.

Definition _dead_letter_and_decide (scan_id : string) (policy : GatePolicy)
    (default_tier : TrustTier) (operator reason : string) (now : Q) (clock : Z) (w : World)
    : result PipelineError (bool * World) :=
  match dead_letter_claim scan_id (orch w) with
  | None => Ok (false, w)
  | Some (content_hash, tier) =>
      g ← gate_txn scan_id (forced_block_scan_result content_hash reason) policy tier default_tier []
            operator [] now clock (gate w);
      Ok (true, set_orch (dead_letter_finish scan_id (orch w)) (set_gate g w))
  end.

(** [dict.fromkeys]: the first occurrence of each name, in order. *)
Fixpoint dict_fromkeys (l : list string) : list string :=
  match l with
  | [] => []
  | x :: l' => x :: base.filter (λ y, y ≠ x) (dict_fromkeys l')
  end.

Definition reported (blobs : gmap string blob) (scan_id engine : string) : bool :=
  bool_decide (blobs !! findings_key scan_id engine ≠ None).

Definition report_state_value (s : EngineReportState) : string :=
  match s with REPORTED => "reported" | NOT_REPORTED => "not_reported" | UNREADABLE => "unreadable" end.

Definition health_row (h : EngineHealthRecord) (now : Z) : ScanEngineHealthRow :=
  mkScanEngineHealthRow (report_state_value (eh_report_state h)) (status_value <$> eh_engine_status h)
    (eh_analyze_duration_ms h) (eh_finding_count h) (eh_error h) now.

Definition result_row (sr : ScanResult) : ScanResultRow :=
  mkScanResultRow (sr_content_hash sr) (sev_val (sr_severity sr)) (sr_confidence_at_max sr)
    (sr_trifecta_present sr) (sr_findings_capped sr) (Some (sr_findings_total sr)) (sr_required_ok sr)
    (map serialize_finding (sr_findings sr)) (sr_engine_provenance sr) (sr_hard_gate_hits sr).

(** What the scoring transaction hands to the gate's. *)
Record Scored := mkScored {
  sc_result : ScanResult;
  sc_tier : option string;
  sc_extra_reasons : list string;
}.

(** [_try_score_and_decide], first transaction: [Ok (None, st)] is [return False]. *)
Definition score_txn (blobs : gmap string blob) (scan_id : string) (required_engines_seq : list string)
    (policy : GatePolicy) (additional_engines waited_advisory_engines : list string)
    (force_decide : bool) (now : Z) (st : OrchStore) : result PipelineError (option Scored * OrchStore) :=
  match jobs st !! scan_id with
  | None => Ok (None, st)
  | Some job =>
      if negb (bool_decide (j_state job ∈ _UNSCORED_STATES)) then Ok (None, st)
      else if negb (forallb (reported blobs scan_id) required_engines_seq) then Ok (None, st)
      else
        let missing := base.filter (λ e, reported blobs scan_id e = false) waited_advisory_engines in
        if negb force_decide && negb (bool_decide (missing = [])) then
          Ok (None, set_jobs (insert scan_id (with_wait_started now job)) st)
        else
          let extra_reasons :=
            match missing with
            | [] => []
            | _ => ["sandbox_wait_timeout:" +:+ join "," (sort_by str_le missing)]
            end in
          let engine_names :=
            dict_fromkeys (required_engines_seq ++ waited_advisory_engines ++ additional_engines) in
          match load_and_aggregate model_validate_json error_text py_repr blobs scan_id
                  (j_content_hash job) engine_names policy 0 5000 with
          | Err e => Err (aggregate_failed e)
          | Ok aggregated =>
              let sr := ag_scan_result aggregated in
              _ ← guard_err (bool_decide (results st !! scan_id = None)) result_exists;
              Ok (Some (mkScored sr (j_trust_tier job) extra_reasons),
                  mkOrchStore (<[scan_id := with_state STATE_SCORED job]> (jobs st)) (submitters st)
                    (<[scan_id := result_row sr]> (results st))
                    (foldr (λ h m, <[(scan_id, eh_engine_name h) := health_row h now]> m) (health st)
                       (ag_engine_health aggregated)))
          end
  end.

Definition mark_decided (scan_id : string) (st : OrchStore) : OrchStore :=
  update_state scan_id [STATE_SCORED] STATE_DECIDED st.

Definition _try_score_and_decide (scan_id : string) (required_engines_seq : list string)
    (policy : GatePolicy) (default_tier : TrustTier) (allowlist : list AllowlistEntry)
    (operator : string) (additional_engines waited_advisory_engines : list string)
    (force_decide : bool) (now : Q) (clock : Z) (w : World) : World * result PipelineError bool :=
  match score_txn (blobs w) scan_id required_engines_seq policy additional_engines
          waited_advisory_engines force_decide clock (orch w) with
  | Err e => (w, Err e)
  | Ok (None, st) => (set_orch st w, Ok false)
  | Ok (Some sc, st) =>
      let w1 := set_orch st w in
      match gate_txn scan_id (sc_result sc) policy (sc_tier sc) default_tier allowlist operator
              (sc_extra_reasons sc) now clock (gate w1) with
      | Err e => (w1, Err e)
      | Ok g => (set_orch (mark_decided scan_id st) (set_gate g w1), Ok true)
      end
  end.

(** ** The collector and the sweeps *)

(** A claimed message of the results stream.  [rm_deliveries] is not a field of the
    source's dataclass: it is what [airlock.result_delivery_count] answers for it. *)
Record ResultMessage := mkResultMessage {
  rm_message_id : string;
  rm_scan_id : string;
  rm_findings_key : string;
  rm_engine : string;
  rm_status : string;
  rm_analyze_duration_ms : option Z;
  rm_deliveries : Z;
}.

Variables (policy : GatePolicy) (default_tier : TrustTier) (allowlist : list AllowlistEntry).
Variables (operator : string) (additional_engines waited_advisory_engines : list string).

(** One scan of a tick: dead-letter, or mark running and try to decide. *)
Definition collect_scan (scan_id : string) (messages : list ResultMessage) (now : Q) (clock : Z)
    (w : World) : World * result PipelineError bool :=
  let statuses := map rm_status messages in
  let terminal := base.filter (λ s, s ∈ statuses) _TERMINAL_STATUSES in
  let exhausted := existsb (λ m, MAX_DELIVERY_COUNT <? rm_deliveries m) messages in
  let dead reason :=
    match _dead_letter_and_decide scan_id policy default_tier operator reason now clock w with
    | Ok (b, w') => (w', Ok b)
    | Err e => (w, Err e)
    end in
  if negb (bool_decide (terminal = [])) then
    dead (if bool_decide (UNPACK_REJECTED_STATUS ∈ terminal)
          then "unpack_rejected:hardening_check_failed" else "poison_pill:max_delivery_exceeded")
  else if exhausted then dead RESULT_POISON_PILL_REASON
  else
    _try_score_and_decide scan_id (sorted_set (required_engines policy)) policy default_tier allowlist
      operator additional_engines waited_advisory_engines false now clock
      (set_orch (_mark_running_if_queued scan_id (orch w)) w).

(** The scan ids of the claimed messages, in the order they were first seen. *)
Definition scan_order (messages : list ResultMessage) : list string :=
  dict_fromkeys (map rm_scan_id messages).

Fixpoint collect_scans (ids : list string) (messages : list ResultMessage) (now : Q) (clock : Z)
    (w : World) : World * nat * list string :=
  match ids with
  | [] => (w, 0%nat, [])
  | id :: ids' =>
      let '(w1, r) := collect_scan id (base.filter (λ m, rm_scan_id m = id) messages) now clock w in
      let '(w2, decided, failed) := collect_scans ids' messages now clock w1 in
      match r with
      | Ok true => (w2, S decided, failed)
      | Ok false => (w2, decided, failed)
      | Err _ => (w2, decided, id :: failed)
      end
  end.

(** [run_result_collector_tick]: the new world, the scans decided, the messages acked. *)
Definition run_result_collector_tick (messages : list ResultMessage) (now : Q) (clock : Z)
    (w : World) : World * nat * list string :=
  let '(w', decided, failed) := collect_scans (scan_order messages) messages now clock w in
  (w', decided, map rm_message_id (base.filter (λ m, rm_scan_id m ∉ failed) messages)).

(** The scans whose sandbox wait is over, longest waiting first. *)
Definition wait_expired (wait_timeout_s clock : Z) (st : OrchStore) : list string :=
  let cutoff := clock - (wait_timeout_s + _SWEEP_GRACE_S) in
  let due kv := bool_decide (j_state kv.2 ∈ _UNSCORED_STATES) &&
                match j_sandbox_wait_started_at kv.2 with Some t => t <? cutoff | None => false end in
  take _SWEEP_BATCH
    (sort_by (le_key Z.leb (λ kv : string * ScanJob, default 0 (j_sandbox_wait_started_at kv.2)))
       (base.filter (λ kv, due kv = true) (map_to_list (jobs st)))).*1.

Fixpoint force_scans (ids : list string) (now : Q) (clock : Z) (w : World) : World * nat :=
  match ids with
  | [] => (w, 0%nat)
  | id :: ids' =>
      let '(w1, r) := _try_score_and_decide id (sorted_set (required_engines policy)) policy
                        default_tier allowlist operator additional_engines waited_advisory_engines
                        true now clock w in
      let '(w2, decided) := force_scans ids' now clock w1 in
      match r with Ok true => (w2, S decided) | _ => (w2, decided) end
  end.

Definition sweep_sandbox_wait_timeouts (wait_timeout_s : Z) (now : Q) (clock : Z) (w : World)
    : World * nat :=
  force_scans (wait_expired wait_timeout_s clock (orch w)) now clock w.
End pipeline.
