(* ===== verification/EngineRunner.v ===== *)
(** * The two consumers of the scans stream

    [orchestration/service.run_mock_engine_worker_tick] (the required engines,
    run in the monolith), [services/engine_runner/worker.py] (the sandboxed
    engines) and the part of [libs/common/airlock.py] they use: a consumer group
    of a Redis stream, with its pending entries, their delivery counts and the
    time of their last delivery.  Each group has its own copy of every message.
    An engine is a function of the unpacked files and the deadline; [None] is an
    exception.  The blob store and Redis themselves are taken not to fail. *)

From S2P Require Import Prelude Float64 Models Scoring Json Lifecycle Canonical Unpack Adapter Readback Orchestration.
From Stdlib Require Import QArith.
Open Scope string_scope.
Open Scope list_scope.
Open Scope Z_scope.

(** ** The stream *)

Definition STALE_CLAIM_IDLE_MS : Z := 60000.

(** A pending entry: delivered to a consumer and not acknowledged. *)
Record Delivery := mkDelivery {
  dl_id : string;
  dl_job : ScanJobMessage;
  dl_count : Z;
  dl_at : Z;
}.

Record Group := mkGroup {
  waiting : list (string * ScanJobMessage);
  pending : list Delivery;
}.

(** [XREADGROUP ... >]. *)
Definition claim_scan_jobs (now : Z) (count : nat) (g : Group) : list (string * ScanJobMessage) * Group :=
  let new := firstn count (waiting g) in
  (new, mkGroup (skipn count (waiting g)) (pending g ++ map (λ m, mkDelivery m.1 m.2 1 now) new)).

(** [XAUTOCLAIM ... 0]: at most 100 entries, among the first 1000. *)
Definition stale_entries (now min_idle : Z) (g : Group) : list Delivery :=
  firstn 100 (base.filter (λ d, min_idle ≤ now - dl_at d) (firstn 1000 (pending g))).

Definition redeliver (now : Z) (ids : list string) (d : Delivery) : Delivery :=
  if bool_decide (dl_id d ∈ ids) then mkDelivery (dl_id d) (dl_job d) (dl_count d + 1) now else d.

Definition reclaim_stale_scan_jobs (now min_idle : Z) (g : Group) : list (string * ScanJobMessage) * Group :=
  let stale := stale_entries now min_idle g in
  (map (λ d, (dl_id d, dl_job d)) stale,
   mkGroup (waiting g) (map (redeliver now (map dl_id stale)) (pending g))).

Definition delivery_count (g : Group) (message_id : string) : Z :=
  from_option dl_count 0 (find (λ d, String.eqb (dl_id d) message_id) (pending g)).

Definition ack_scan_job (message_id : string) (g : Group) : Group :=
  mkGroup (waiting g) (base.filter (λ d, dl_id d ≠ message_id) (pending g)).

(** An entry of the results stream. *)
Record ResultEntry := mkResultEntry {
  re_scan_id : string;
  re_findings_key : string;
  re_engine : string;
  re_status : string;
  re_analyze_duration_ms : option Z;
}.

Record Runner := mkRunner {
  rn_group : Group;
  rn_blobs : gmap string blob;
  rn_results : list ResultEntry;
}.

Definition with_group (f : Group → Group) (w : Runner) : Runner :=
  mkRunner (f (rn_group w)) (rn_blobs w) (rn_results w).

Definition produce_result (r : ResultEntry) (w : Runner) : Runner :=
  mkRunner (rn_group w) (rn_blobs w) (rn_results w ++ [r]).

Definition put_blob (key : string) (data : blob) (w : Runner) : Runner :=
  mkRunner (rn_group w) (<[key := data]> (rn_blobs w)) (rn_results w).

(** [airlock.elapsed_ms]: whole milliseconds, floored at zero. *)
Definition elapsed_ms (measured : Z) : Z := Z.max 0 measured.

Definition _POISON_PILL_ENGINE_MARKER : string := "__poison_pill__".
Definition _UNPACK_REJECTED_ENGINE_MARKER : string := "__unpack_rejected__".

Definition Engine : Type := Files → Z → option EngineResult.

Section runner.
Context `{TarFormat}.
Variable dumps : json → blob.

(** Store one engine's result and announce it. *)
Definition report (scan_id engine_name : string) (r : EngineResult) (analyze_duration_ms : option Z) (w : Runner)
    : Runner :=
  let key := findings_key scan_id engine_name in
  produce_result (mkResultEntry scan_id key engine_name (status_value (er_status r)) analyze_duration_ms)
    (put_blob key (dumps (serialize_engine_result r analyze_duration_ms)) w).

(** A result that says the job itself is beyond help. *)
Definition marker (scan_id engine status : string) : ResultEntry := mkResultEntry scan_id "" engine status None.

(** ** The monolith's own consumer *)

(** What the engines do in one tick, and how long each takes. *)
Record Bench := mkBench {
  engines_by_name : gmap string Engine;
  measured_ms : string → Z;
}.

Variable additional_engine_names : list string.

Definition dispatch_engines (job : ScanJobMessage) : list string :=
  sm_engines job ++ base.filter (λ e, e ∉ sm_engines job) additional_engine_names.

(** The loop over the engines; [false] when one raised, with what was stored
    before it left in place. *)
Fixpoint dispatch (b : Bench) (job : ScanJobMessage) (names : list string) (files : Files) (w : Runner)
    : bool * Runner :=
  match names with
  | [] => (true, w)
  | name :: rest =>
      match engines_by_name b !! name with
      | None =>
          match unavailable_engine_result name "engine not registered on this worker" with
          | Err _ => (false, w)
          | Ok r => dispatch b job rest files (report (sm_scan_id job) name r None w)
          end
      | Some engine =>
          match engine files (sm_deadline_epoch job) with
          | None => (false, w)
          | Some r => dispatch b job rest files (report (sm_scan_id job) name r (Some (elapsed_ms (measured_ms b name))) w)
          end
      end
  end.

(** One claimed job: the number of jobs processed, and the new state. *)
Definition floor_job (b : Bench) (m : string * ScanJobMessage) (w : Runner) : nat * Runner :=
  let '(message_id, job) := m in
  let finish := with_group (ack_scan_job message_id) in
  if MAX_DELIVERY_COUNT <? delivery_count (rn_group w) message_id
  then (1%nat, finish (produce_result (marker (sm_scan_id job) _POISON_PILL_ENGINE_MARKER POISON_PILL_STATUS) w))
  else
  let rejected := finish (produce_result (marker (sm_scan_id job) _UNPACK_REJECTED_ENGINE_MARKER UNPACK_REJECTED_STATUS) w) in
  match rn_blobs w !! sm_artifact_key job with
  | None => (1%nat, rejected)
  | Some artifact =>
      match unpack_hardened artifact with
      | Err (Rejected _) => (1%nat, rejected)
      | Err Raised => (0%nat, w)
      | Ok entries =>
          match dispatch b job (dispatch_engines job) (files_of entries) w with
          | (false, w') => (0%nat, w')
          | (true, w') => (1%nat, finish w')
          end
      end
  end.

Fixpoint floor_jobs (b : Bench) (jobs : list (string * ScanJobMessage)) (w : Runner) : nat * Runner :=
  match jobs with
  | [] => (0%nat, w)
  | m :: rest =>
      let '(n, w) := floor_job b m w in
      let '(k, w) := floor_jobs b rest w in
      ((n + k)%nat, w)
  end.

(** The claims of a tick: new messages, then the stale ones. *)
Definition claim (now : Z) (count : nat) (reclaim_idle_ms : Z) (g : Group)
    : list (string * ScanJobMessage) * Group :=
  let '(fresh, g) := claim_scan_jobs now count g in
  let '(stale, g) := reclaim_stale_scan_jobs now reclaim_idle_ms g in
  (fresh ++ stale, g).

Definition run_mock_engine_worker_tick (b : Bench) (now : Z) (count : nat) (reclaim_idle_ms : Z) (w : Runner)
    : nat * Runner :=
  let '(jobs, g) := claim now count reclaim_idle_ms (rn_group w) in
  floor_jobs b jobs (with_group (λ _, g) w).

(** ** The sandboxed consumer *)

(** [_dispatch_engines]: every configured engine that is not disabled. *)
Fixpoint _dispatch_engines (engines : list (string * Engine)) (measured_ms : string → Z) (disabled : gset string)
    (job : ScanJobMessage) (files : Files) (w : Runner) : bool * Runner :=
  match engines with
  | [] => (true, w)
  | (engine_name, engine) :: rest =>
      if bool_decide (engine_name ∈ disabled) then _dispatch_engines rest measured_ms disabled job files w
      else match engine files (sm_deadline_epoch job) with
           | None => (false, w)
           | Some r =>
               _dispatch_engines rest measured_ms disabled job files
                 (report (sm_scan_id job) engine_name r (Some (elapsed_ms (measured_ms engine_name))) w)
           end
  end.

Definition sandbox_job (engines : list (string * Engine)) (measured_ms : string → Z) (disabled : gset string)
    (m : string * ScanJobMessage) (w : Runner) : nat * Runner :=
  let '(message_id, job) := m in
  let finish := with_group (ack_scan_job message_id) in
  match rn_blobs w !! sm_artifact_key job with
  | None => (1%nat, finish w)
  | Some artifact =>
      match unpack_hardened artifact with
      | Err (Rejected _) => (1%nat, finish w)
      | Err Raised => (0%nat, w)
      | Ok entries =>
          match _dispatch_engines engines measured_ms disabled job (files_of entries) w with
          | (false, w') => (0%nat, w')
          | (true, w') => (1%nat, finish w')
          end
      end
  end.

Fixpoint sandbox_jobs (engines : list (string * Engine)) (measured_ms : string → Z) (disabled : gset string)
    (jobs : list (string * ScanJobMessage)) (w : Runner) : nat * Runner :=
  match jobs with
  | [] => (0%nat, w)
  | m :: rest =>
      let '(n, w) := sandbox_job engines measured_ms disabled m w in
      let '(k, w) := sandbox_jobs engines measured_ms disabled rest w in
      ((n + k)%nat, w)
  end.

Definition sandbox_engine_tick (engines : list (string * Engine)) (measured_ms : string → Z) (disabled : gset string)
    (now : Z) (count : nat) (reclaim_idle_ms : Z) (w : Runner) : nat * Runner :=
  let '(jobs, g) := claim now count reclaim_idle_ms (rn_group w) in
  sandbox_jobs engines measured_ms disabled jobs (with_group (λ _, g) w).
End runner.

#[local] Arguments floor_job : simpl never.
#[local] Arguments sandbox_job : simpl never.

(** ** What one job leaves behind *)

(** Results are only appended and blobs only written. *)
Definition extends (w w' : Runner) : Prop :=
  rn_results w `prefix_of` rn_results w' ∧ dom (rn_blobs w) ⊆ dom (rn_blobs w').

#[export] Instance extends_preorder : PreOrder extends.
Proof.
  split; [by split|]. intros w1 w2 w3 [? ?] [? ?]. split; [by etrans|set_solver].
Qed.

Section accounts.
Context `{TarFormat}.
Variable dumps : json → blob.
Variable additional_engine_names : list string.

Abbreviation dispatched := (dispatch_engines additional_engine_names).
Abbreviation floor := (floor_job dumps additional_engine_names).

(** The engine's result is announced and its blob is in the store. *)
Definition answered (w : Runner) (scan_id engine : string) : Prop :=
  (∃ r, r ∈ rn_results w ∧ re_scan_id r = scan_id ∧ re_engine r = engine ∧
        re_findings_key r = findings_key scan_id engine) ∧
  findings_key scan_id engine ∈ dom (rn_blobs w).

(** The collector has what it needs: a terminal marker, or every engine. *)
Definition settled (w : Runner) (job : ScanJobMessage) : Prop :=
  (∃ r, r ∈ rn_results w ∧ re_scan_id r = sm_scan_id job ∧ re_status r ∈ [POISON_PILL_STATUS; UNPACK_REJECTED_STATUS]) ∨
  (∀ e, e ∈ dispatched job → answered w (sm_scan_id job) e).

Lemma extends_answered w w' sid e : extends w w' → answered w sid e → answered w' sid e.
Proof. intros [Hr Hd] [(r & ? & ?) ?]. split; [|set_solver]. exists r. split; [by eapply elem_of_prefix|done]. Qed.

Lemma extends_settled w w' job : extends w w' → settled w job → settled w' job.
Proof.
  intros Hx [(r & ? & ?)|Ha]; [left; exists r; split; [eapply elem_of_prefix; [done|apply Hx]|done]|right].
  intros e He. by eapply extends_answered, Ha.
Qed.

Lemma report_extends sid e r d w : extends w (report dumps sid e r d w).
Proof. split; simpl; [by apply prefix_app_r|set_solver]. Qed.

Lemma report_answers sid e r d w : answered (report dumps sid e r d w) sid e.
Proof. split; simpl; [|set_solver]. eexists. split; [apply elem_of_app; right; left|done]. Qed.

Lemma dispatch_spec b job names files w ok w' :
  dispatch dumps b job names files w = (ok, w') →
  extends w w' ∧ rn_group w' = rn_group w ∧
  (ok = true → ∀ e, e ∈ names → answered w' (sm_scan_id job) e).
Proof.
  revert w. induction names as [|n names IH]; intros w; simpl.
  { intros [= <- <-]. split_and!; [done|done|]. by intros _ e ?%elem_of_nil. }
  assert (Hstep : ∀ r d, dispatch dumps b job names files (report dumps (sm_scan_id job) n r d w) = (ok, w') →
    extends w w' ∧ rn_group w' = rn_group w ∧
    (ok = true → ∀ e, e ∈ n :: names → answered w' (sm_scan_id job) e)).
  { intros r d (Hx & Hg & Ha)%IH. split_and!; [etrans; [apply report_extends|done]|by rewrite Hg|].
    intros Hok e [->|He]%elem_of_cons; [|by apply Ha]. eapply extends_answered, report_answers. done. }
  destruct (engines_by_name b !! n) as [engine|].
  - destruct (engine _ _) as [r|]; [by apply Hstep|]. intros [= <- <-]. by split_and!.
  - destruct (unavailable_engine_result n _) as [r|]; [by apply Hstep|]. intros [= <- <-]. by split_and!.
Qed.

(** One job is either left exactly where it was in the group, or acknowledged
    and settled. *)
Lemma floor_job_spec b id job w n w' :
  floor b (id, job) w = (n, w') →
  extends w w' ∧
  (rn_group w' = rn_group w ∧ delivery_count (rn_group w) id ≤ MAX_DELIVERY_COUNT ∨
   rn_group w' = ack_scan_job id (rn_group w) ∧ settled w' job).
Proof.
  unfold floor_job. destruct (Z.ltb_spec MAX_DELIVERY_COUNT (delivery_count (rn_group w) id)) as [Hc|Hc].
  { intros [= <- <-]. split; [split; simpl; [by apply prefix_app_r|done]|]. right. split; [done|]. left.
    eexists. split; [apply elem_of_app; right; left|]. split; [done|left]. }
  assert (Hrej : ∀ w1, w1 = with_group (ack_scan_job id) (produce_result
      (marker (sm_scan_id job) _UNPACK_REJECTED_ENGINE_MARKER UNPACK_REJECTED_STATUS) w) →
    extends w w1 ∧ (rn_group w1 = rn_group w ∧ delivery_count (rn_group w) id ≤ MAX_DELIVERY_COUNT ∨
      rn_group w1 = ack_scan_job id (rn_group w) ∧ settled w1 job)).
  { intros w1 ->. split; [split; simpl; [by apply prefix_app_r|done]|]. right. split; [done|]. left.
    eexists. split; [apply elem_of_app; right; left|]. split; [done|right; left]. }
  destruct (rn_blobs w !! sm_artifact_key job) as [artifact|]; [|intros [= <- <-]; by apply Hrej].
  destruct (unpack_hardened artifact) as [entries|[|]];
    [|intros [= <- <-]; by apply Hrej|intros [= <- <-]; split; [done|by left]].
  destruct (dispatch _ _ _ _ _ _) as [ok w1] eqn:Ed.
  apply dispatch_spec in Ed as (Hx & Hg & Ha). destruct ok; intros [= <- <-].
  - split; [by destruct Hx|]. right. split; [simpl; by rewrite Hg|]. right. intros e He.
    eapply extends_answered; [|by apply Ha]. by split.
  - split; [done|]. by left.
Qed.

(** One sandboxed job, in the same way: left where it was, or acknowledged once the
    artifact turned out missing or refused, or every engine to run has answered. *)
Lemma sandbox_dispatch_spec engines ms disabled job files w ok w' :
  _dispatch_engines dumps engines ms disabled job files w = (ok, w') →
  extends w w' ∧ rn_group w' = rn_group w ∧
  (ok = true → ∀ e, e ∈ map fst engines → e ∉ disabled → answered w' (sm_scan_id job) e).
Proof.
  revert w. induction engines as [|[n engine] engines IH]; intros w; simpl.
  { intros [= <- <-]. split_and!; [done|done|]. by intros _ e ?%elem_of_nil. }
  case_bool_decide as Hd.
  { intros (Hx & Hg & Ha)%IH. split_and!; [done|done|]. intros Hok e [->|He]%elem_of_cons Hn; [done|by apply Ha]. }
  destruct (engine _ _) as [r|]; [|intros [= <- <-]; by split_and!].
  intros (Hx & Hg & Ha)%IH. split_and!; [etrans; [apply report_extends|done]|by rewrite Hg|].
  intros Hok e [->|He]%elem_of_cons Hn; [|by apply Ha]. eapply extends_answered, report_answers. done.
Qed.

(** What an attempt of the sandboxed consumer at a message starts from: what the
    store holds under its artifact key, the configured engines and those disabled. *)
Record Attempt := mkAttempt {
  at_message : string;
  at_artifact : option blob;
  at_engines : list string;
  at_disabled : gset string;
}.

Definition finished (w : Runner) (job : ScanJobMessage) (a : Attempt) : Prop :=
  at_artifact a = None ∨
  (∃ raw reason, at_artifact a = Some raw ∧ unpack_hardened raw = Err (Rejected reason)) ∨
  (∀ e, e ∈ at_engines a → e ∉ at_disabled a → answered w (sm_scan_id job) e).

Lemma extends_finished w w' job a : extends w w' → finished w job a → finished w' job a.
Proof.
  intros Hx [?|[?|Ha]]; [by left|by right; left|]. do 2 right. intros e He Hn. by eapply extends_answered, Ha.
Qed.

Lemma sandbox_job_spec engines ms disabled id job w n w' :
  sandbox_job dumps engines ms disabled (id, job) w = (n, w') →
  extends w w' ∧
  (rn_group w' = rn_group w ∨
   rn_group w' = ack_scan_job id (rn_group w) ∧
   finished w' job (mkAttempt id (rn_blobs w !! sm_artifact_key job) (map fst engines) disabled)).
Proof.
  unfold sandbox_job. destruct (rn_blobs w !! sm_artifact_key job) as [raw|].
  2: { intros [= <- <-]. split; [done|]. right. split; [done|by left]. }
  destruct (unpack_hardened raw) as [entries|[reason|]] eqn:Eu.
  - destruct (_dispatch_engines _ _ _ _ _ _ _) as [ok w1] eqn:Ed.
    apply sandbox_dispatch_spec in Ed as (Hx & Hg & Ha). destruct ok; intros [= <- <-].
    + split; [by destruct Hx|]. right. split; [simpl; by rewrite Hg|]. do 2 right. intros e He Hn.
      eapply extends_answered; [|by apply Ha]. by split.
    + split; [done|by left].
  - intros [= <- <-]. split; [done|]. right. split; [done|]. right. left. by exists raw, reason.
  - intros [= <- <-]. split; [done|by left].
Qed.

(** ** Over every history *)

(** The messages ever put on the stream, the floor's consumer group with the store
    and the results, the sandboxed consumer's group, and its attempts so far. *)
Record System := mkSystem {
  produced : list (string * ScanJobMessage);
  runner : Runner;
  sandbox : Group;
  attempts : list Attempt;
}.

Definition enqueue (m : string * ScanJobMessage) (g : Group) : Group := mkGroup (waiting g ++ [m]) (pending g).

(** The state as the sandboxed consumer sees it, and back. *)
Definition sandbox_view (s : System) : Runner := mkRunner (sandbox s) (rn_blobs (runner s)) (rn_results (runner s)).
Definition from_sandbox (s : System) (more : list Attempt) (w : Runner) : System :=
  mkSystem (produced s) (mkRunner (rn_group (runner s)) (rn_blobs w) (rn_results w)) (rn_group w) (attempts s ++ more).

Definition attempt (s : System) (engines : list (string * Engine)) (disabled : gset string)
    (m : string * ScanJobMessage) : Attempt :=
  mkAttempt m.1 (rn_blobs (runner s) !! sm_artifact_key m.2) (map fst engines) disabled.

(** A new message, which both groups get; a claim of either consumer, new and stale
    messages alike; one job of either, on any message of the stream, with any engines;
    and whatever else is written to the store and the results stream.  A worker that
    dies in the middle of a tick has simply run fewer jobs. *)
Inductive system_step : System → System → Prop :=
| step_produce s id job :
    id ∉ map fst (produced s) →
    system_step s (mkSystem (produced s ++ [(id, job)]) (with_group (enqueue (id, job)) (runner s))
                     (enqueue (id, job) (sandbox s)) (attempts s))
| step_claim s now count idle :
    system_step s (mkSystem (produced s) (with_group (λ g, (claim now count idle g).2) (runner s))
                     (sandbox s) (attempts s))
| step_floor s b m :
    m ∈ produced s →
    system_step s (mkSystem (produced s) (floor b m (runner s)).2 (sandbox s) (attempts s))
| step_sandbox_claim s now count idle :
    system_step s (from_sandbox s [] (with_group (λ g, (claim now count idle g).2) (sandbox_view s)))
| step_sandbox s engines ms disabled m :
    m ∈ produced s →
    system_step s (from_sandbox s [attempt s engines disabled m]
                     (sandbox_job dumps engines ms disabled m (sandbox_view s)).2)
| step_other s w' :
    extends (runner s) w' → rn_group w' = rn_group (runner s) →
    system_step s (mkSystem (produced s) w' (sandbox s) (attempts s)).

Definition empty_group : Group := mkGroup [] [].

Definition system_reachable (s : System) : Prop :=
  ∃ blobs results, rtc system_step (mkSystem [] (mkRunner empty_group blobs results) empty_group []) s.

(** Entries of a group, as messages. *)
Definition as_message (d : Delivery) : string * ScanJobMessage := (dl_id d, dl_job d).
Definition held (g : Group) : list (string * ScanJobMessage) := waiting g ++ map as_message (pending g).

(** One group's books: what it holds are distinct messages of the stream, and what it
    does not hold any more is done with. *)
Record in_order (all : list (string * ScanJobMessage)) (done : string * ScanJobMessage → Prop) (g : Group) : Prop := {
  io_held m : m ∈ held g → m ∈ all;
  io_distinct : NoDup (map fst (held g));
  io_done m : m ∈ all → m ∈ held g ∨ done m;
}.

Lemma map_redeliver now ids l : map as_message (map (redeliver now ids) l) = map as_message l.
Proof. rewrite map_map. apply map_ext. intros d. unfold redeliver, as_message. by case_bool_decide. Qed.

Lemma claim_held now count idle g :
  held (claim now count idle g).2 ≡ₚ held g ∧ ∀ m, m ∈ (claim now count idle g).1 → m ∈ held g.
Proof.
  unfold claim, held. simpl. rewrite map_redeliver, map_app, map_map. unfold as_message at 2. simpl.
  assert (E : map (λ x : string * ScanJobMessage, (x.1, x.2)) (firstn count (waiting g)) = firstn count (waiting g)).
  { rewrite <-map_id. apply map_ext. by intros []. }
  rewrite E. split.
  - rewrite (Permutation_app_comm (map as_message (pending g))), app_assoc.
    apply Permutation_app_tail. rewrite Permutation_app_comm. by rewrite firstn_skipn.
  - intros m [Hm|(d & -> & Hd)%list_elem_of_fmap]%elem_of_app.
    + apply elem_of_app. left. rewrite <-(firstn_skipn count (waiting g)). set_solver.
    + unfold stale_entries in Hd.
      apply in_take, list_elem_of_filter in Hd as [_ Hd%in_take]. simpl in Hd.
      change (dl_id d, dl_job d) with (as_message d).
      apply elem_of_app in Hd as [Hd|Hd].
      * apply elem_of_app. right. by apply (list_elem_of_fmap_2 as_message).
      * apply list_elem_of_fmap in Hd as ([id job] & -> & Hm). simpl. apply elem_of_app. left.
        rewrite <-(firstn_skipn count (waiting g)). apply elem_of_app. by left.
Qed.

Lemma held_ack id g :
  held (ack_scan_job id g) =
    waiting g ++ base.filter (λ m, m.1 ≠ id) (map as_message (pending g)).
Proof.
  unfold held, ack_scan_job. simpl. f_equal. induction (pending g) as [|d l IH]; [done|].
  simpl map. rewrite !filter_cons. simpl. destruct (decide (dl_id d ≠ id)); simpl; by rewrite IH.
Qed.

Lemma held_enqueue m g : held (enqueue m g) ≡ₚ m :: held g.
Proof. unfold held, enqueue. simpl. rewrite <-app_assoc. simpl. by rewrite <-Permutation_middle. Qed.

(** Two messages of the stream with one identity are the same message. *)
Lemma stream_inj (all : list (string * ScanJobMessage)) id job job' :
  NoDup (map fst all) → (id, job) ∈ all → (id, job') ∈ all → job = job'.
Proof.
  induction all as [|[i j] l IH]; simpl; [set_solver|].
  intros [Hn Hnd]%NoDup_cons H1 H2. apply elem_of_cons in H1 as [E1|H1], H2 as [E2|H2].
  - congruence.
  - injection E1 as -> ->. destruct Hn. by apply (list_elem_of_fmap_2 fst) in H2.
  - injection E2 as -> ->. destruct Hn. by apply (list_elem_of_fmap_2 fst) in H1.
  - by apply IH.
Qed.

Section books.
Context {all : list (string * ScanJobMessage)} {done done' : string * ScanJobMessage → Prop} {g : Group}.
Hypothesis Hio : in_order all done g.
Hypothesis Hmono : ∀ m, m ∈ all → done m → done' m.

Lemma in_order_mono : in_order all done' g.
Proof. destruct Hio as [H1 H2 H3]. split; [done..|]. intros m Hm. destruct (H3 m Hm); auto. Qed.

Lemma in_order_claim now count idle : in_order all done' (claim now count idle g).2.
Proof.
  destruct Hio as [H1 H2 H3], (claim_held now count idle g) as [Hp _]. split.
  - intros m Hm. apply H1. by rewrite <-Hp.
  - by rewrite Hp.
  - intros m Hm. destruct (H3 m Hm); [left; by rewrite Hp|auto].
Qed.

Lemma in_order_ack id job :
  NoDup (map fst all) → (id, job) ∈ all → done' (id, job) → in_order all done' (ack_scan_job id g).
Proof.
  intros Hnd Hin Hd. destruct Hio as [H1 H2 H3]. split; rewrite ?held_ack.
  - intros m Hm. apply H1. unfold held. apply elem_of_app in Hm as [?|[_ ?]%list_elem_of_filter]; set_solver.
  - unfold held in H2. rewrite map_app in *. apply NoDup_app in H2 as (Ha & Hb & Hc). apply NoDup_app. split; [done|].
    split; [|by apply (NoDup_fmap_filter fst)]. intros i Hi (m & -> & [_ Hm]%list_elem_of_filter)%list_elem_of_fmap.
    apply (Hb _ Hi). by apply (list_elem_of_fmap_2 fst).
  - intros [i j] Hm. destruct (H3 _ Hm) as [Hh|Hh]; [|right; by auto].
    unfold held in Hh. apply elem_of_app in Hh as [Hw|Hp]; [left; set_solver|].
    destruct (decide (i = id)) as [->|Hi].
    + right. by rewrite (stream_inj all id j job Hnd Hm Hin).
    + left. apply elem_of_app. right. by apply list_elem_of_filter.
Qed.

Lemma in_order_produce id job :
  id ∉ map fst all → in_order (all ++ [(id, job)]) done' (enqueue (id, job) g).
Proof.
  intros Hfresh. destruct Hio as [H1 H2 H3].
  assert (Hn : id ∉ map fst (held g)).
  { intros (m & -> & Hm)%list_elem_of_fmap. apply Hfresh. by apply (list_elem_of_fmap_2 fst), H1. }
  pose proof (held_enqueue (id, job) g) as Hp. split.
  - intros m Hm. rewrite Hp in Hm. apply elem_of_app. apply elem_of_cons in Hm as [->|Hm]; [right; left|].
    left. by apply H1.
  - rewrite Hp. simpl. by apply NoDup_cons.
  - intros m [Hm| ->%list_elem_of_singleton]%elem_of_app; [|left; rewrite Hp; left].
    destruct (H3 m Hm) as [?|Hs]; [left; rewrite Hp; by right|auto].
Qed.
End books.

(** The sandboxed consumer is done with a message. *)
Definition sandbox_done (s : System) (m : string * ScanJobMessage) : Prop :=
  ∃ a, a ∈ attempts s ∧ at_message a = m.1 ∧ finished (runner s) m.2 a.

Record accounted (s : System) : Prop := {
  ac_produced : NoDup (map fst (produced s));
  ac_floor : in_order (produced s) (λ m, settled (runner s) m.2) (rn_group (runner s));
  ac_sandbox : in_order (produced s) (sandbox_done s) (sandbox s);
}.

Lemma sandbox_done_mono s s' m :
  extends (runner s) (runner s') → attempts s `prefix_of` attempts s' → sandbox_done s m → sandbox_done s' m.
Proof.
  intros Hx Hp (a & Ha & Hm & Hf). exists a. split; [by eapply elem_of_prefix|]. split; [done|].
  by eapply extends_finished.
Qed.

Lemma accounted_floor s b m :
  accounted s → m ∈ produced s →
  accounted (mkSystem (produced s) (floor b m (runner s)).2 (sandbox s) (attempts s)).
Proof.
  intros [Hnd Hf Hs] Hm. destruct m as [id job], (floor b (id, job) (runner s)) as [n w'] eqn:E.
  apply floor_job_spec in E as (Hx & Hg).
  assert (Hmono : ∀ m, m ∈ produced s → settled (runner s) m.2 → settled w' m.2) by (intros; by eapply extends_settled).
  split; simpl; [done| |].
  - destruct Hg as [[-> _]|[-> Hset]]; [exact (in_order_mono Hf Hmono)|].
    exact (in_order_ack Hf Hmono id job Hnd Hm Hset).
  - refine (in_order_mono Hs _). intros m _. by apply sandbox_done_mono.
Qed.

Lemma accounted_sandbox s engines ms disabled m :
  accounted s → m ∈ produced s →
  accounted (from_sandbox s [attempt s engines disabled m]
    (sandbox_job dumps engines ms disabled m (sandbox_view s)).2).
Proof.
  intros [Hnd Hf Hs] Hm. destruct m as [id job].
  destruct (sandbox_job dumps engines ms disabled (id, job) (sandbox_view s)) as [n w'] eqn:E.
  apply sandbox_job_spec in E as ((Hr & Hb) & Hg). simpl snd.
  set (s' := from_sandbox s _ w').
  assert (Hx : extends (runner s) (runner s')) by by split.
  assert (Hmono : ∀ m, m ∈ produced s → sandbox_done s m → sandbox_done s' m).
  { intros m _. apply sandbox_done_mono; [done|]. by apply prefix_app_r. }
  split; [done| |].
  - refine (in_order_mono Hf _). intros m _. by apply extends_settled.
  - unfold s' in *. simpl. destruct Hg as [-> |[-> Hfin]]; [exact (in_order_mono Hs Hmono)|].
    apply (in_order_ack Hs Hmono id job Hnd Hm). eexists. split; [apply elem_of_app; right; left|].
    split; [done|]. eapply extends_finished; [|exact Hfin]. by split.
Qed.

Lemma accounted_step s s' : accounted s → system_step s s' → accounted s'.
Proof.
  intros Hacc Hstep. destruct Hstep as [s id job Hfresh|s now count idle|s b m Hm|s now count idle|s engines ms disabled m Hm|s w' Hx Hg].
  - destruct Hacc as [Hnd Hf Hs]. split; simpl.
    + rewrite map_app. apply NoDup_app. split; [done|]. split; [|apply NoDup_singleton].
      intros i Hi ->%list_elem_of_singleton. done.
    + refine (in_order_produce Hf _ id job Hfresh). intros m _. by apply extends_settled.
    + refine (in_order_produce Hs _ id job Hfresh). intros m _. by apply sandbox_done_mono.
  - destruct Hacc as [Hnd Hf Hs]. split; simpl; [done| |].
    + refine (in_order_claim Hf _ now count idle). intros m _. by apply extends_settled.
    + refine (in_order_mono Hs _). intros m _. by apply sandbox_done_mono.
  - by apply accounted_floor.
  - destruct Hacc as [Hnd Hf Hs]. split; simpl; [done| |].
    + refine (in_order_mono Hf _). intros m _. by apply extends_settled.
    + refine (in_order_claim Hs _ now count idle). intros m _. apply sandbox_done_mono; [by split|].
      by apply prefix_app_r.
  - by apply accounted_sandbox.
  - destruct Hacc as [Hnd Hf Hs]. split; simpl; [done| |].
    + rewrite Hg. refine (in_order_mono Hf _). intros m _. by apply extends_settled.
    + refine (in_order_mono Hs _). intros m _. by apply sandbox_done_mono.
Qed.

Lemma reachable_accounted s : system_reachable s → accounted s.
Proof.
  intros (blobs & results & Hr). eapply (rtc_ind_r (λ s, accounted s)); [|intros; by eapply accounted_step|exact Hr].
  split; simpl; [constructor| |]; (split; simpl; [set_solver|constructor|set_solver]).
Qed.

Lemma held_cases id job g :
  (id, job) ∈ held g → (id, job) ∈ waiting g ∨ ∃ d, d ∈ pending g ∧ dl_id d = id ∧ dl_job d = job.
Proof.
  unfold held. intros [?|(d & E & Hd)%list_elem_of_fmap]%elem_of_app; [by left|]. right. exists d. by injection E.
Qed.

(** C28: No scan job is lost, by either consumer of the scans stream.  Whatever the
    engines do, however often workers die in the middle of a tick, and in whatever
    order the claims and the jobs of both consumers, submissions and other writers
    interleave, job by job, every message ever put on the stream is accounted for in
    both groups.  In the floor's group it is still to be delivered, or pending, or
    the collector has what it needs of it: a terminal marker, or for every engine of
    the job a result announced under the engine's key and a blob stored there.  In
    the sandboxed consumer's group it is still to be delivered, or pending, or there
    was an attempt at this message that found its artifact missing or refused by the
    unpacker, or after which every engine configured at that attempt and not disabled
    has announced a result under its own key and stored its blob.  Redis and the blob
    store are taken not to fail, and entries of the stream not to be trimmed. *)
Theorem no_scan_job_is_lost s id job :
  system_reachable s → (id, job) ∈ produced s →
  ((id, job) ∈ waiting (rn_group (runner s)) ∨
   (∃ d, d ∈ pending (rn_group (runner s)) ∧ dl_id d = id ∧ dl_job d = job) ∨
   settled (runner s) job) ∧
  ((id, job) ∈ waiting (sandbox s) ∨
   (∃ d, d ∈ pending (sandbox s) ∧ dl_id d = id ∧ dl_job d = job) ∨
   (∃ a, a ∈ attempts s ∧ at_message a = id ∧
      (at_artifact a = None ∨
       (∃ raw reason, at_artifact a = Some raw ∧ unpack_hardened raw = Err (Rejected reason)) ∨
       (∀ e, e ∈ at_engines a → e ∉ at_disabled a → answered (runner s) (sm_scan_id job) e)))).
Proof.
  intros [_ Hf Hs]%reachable_accounted Hm. split.
  - destruct (io_done _ _ _ Hf _ Hm) as [[?|?]%held_cases|?]; auto.
  - destruct (io_done _ _ _ Hs _ Hm) as [[?|?]%held_cases|?]; auto.
Qed.

(** ** A tick is a sequence of these steps *)

Lemma floor_jobs_steps b jobs s :
  (∀ m, m ∈ jobs → m ∈ produced s) →
  rtc system_step s
    (mkSystem (produced s) (floor_jobs dumps additional_engine_names b jobs (runner s)).2 (sandbox s) (attempts s)).
Proof.
  revert s. induction jobs as [|m jobs IH]; intros s Hj; simpl; [by destruct s|].
  destruct (floor b m (runner s)) as [n w1] eqn:Ef.
  destruct (floor_jobs dumps additional_engine_names b jobs w1) as [k w2] eqn:Er. simpl.
  eapply rtc_l; [apply (step_floor s b m); apply Hj; left|].
  rewrite Ef. specialize (IH (mkSystem (produced s) w1 (sandbox s) (attempts s))). simpl in IH. rewrite Er in IH.
  apply IH. intros m' Hm'. apply Hj. by right.
Qed.

(** The floor's tick, cut off after any number of its jobs. *)
Lemma floor_tick_steps b now count idle k s :
  accounted s →
  rtc system_step s (mkSystem (produced s)
    (floor_jobs dumps additional_engine_names b (firstn k (claim now count idle (rn_group (runner s))).1)
       (with_group (λ g, (claim now count idle g).2) (runner s))).2 (sandbox s) (attempts s)).
Proof.
  intros Hacc. eapply rtc_l; [apply (step_claim s now count idle)|].
  apply (floor_jobs_steps b _ (mkSystem _ _ _ _)). simpl. intros m Hm%in_take.
  apply (io_held _ _ _ (ac_floor _ Hacc)). by apply (claim_held now count idle).
Qed.

Lemma sandbox_jobs_steps engines ms disabled jobs s :
  (∀ m, m ∈ jobs → m ∈ produced s) →
  ∃ more, rtc system_step s (from_sandbox s more (sandbox_jobs dumps engines ms disabled jobs (sandbox_view s)).2).
Proof.
  revert s. induction jobs as [|m jobs IH]; intros s Hj; simpl.
  { exists []. unfold from_sandbox. simpl. rewrite app_nil_r. by destruct s as [? [] ? ?]. }
  destruct (sandbox_job dumps engines ms disabled m (sandbox_view s)) as [n w1] eqn:Ef.
  destruct (sandbox_jobs dumps engines ms disabled jobs w1) as [k w2] eqn:Er. simpl.
  set (s1 := from_sandbox s [attempt s engines disabled m] w1).
  destruct (IH s1) as [more Hr]; [intros m' Hm'; apply Hj; by right|].
  exists (attempt s engines disabled m :: more). eapply rtc_l; [apply (step_sandbox s engines ms disabled m); apply Hj; left|].
  rewrite Ef. assert (Ev : sandbox_view s1 = w1) by by destruct w1. rewrite Ev, Er in Hr.
  unfold from_sandbox in *. simpl in *. by rewrite <-app_assoc in Hr.
Qed.

(** The sandboxed consumer's tick, cut off in the same way. *)
Lemma sandbox_tick_steps engines ms disabled now count idle k s :
  accounted s →
  ∃ more, rtc system_step s (from_sandbox s more
    (sandbox_jobs dumps engines ms disabled (firstn k (claim now count idle (sandbox s)).1)
       (with_group (λ g, (claim now count idle g).2) (sandbox_view s))).2).
Proof.
  intros Hacc. destruct (sandbox_jobs_steps engines ms disabled (firstn k (claim now count idle (sandbox s)).1)
    (from_sandbox s [] (with_group (λ g, (claim now count idle g).2) (sandbox_view s)))) as [more Hr].
  { simpl. intros m Hm%in_take. apply (io_held _ _ _ (ac_sandbox _ Hacc)). by apply (claim_held now count idle). }
  exists more. eapply rtc_l; [apply (step_sandbox_claim s now count idle)|].
  unfold from_sandbox, sandbox_view in *. cbn in Hr |- *. rewrite app_nil_r in Hr |- *. exact Hr.
Qed.

(** ** The poison pill *)

Lemma delivery_count_pending g d :
  NoDup (map dl_id (pending g)) → d ∈ pending g → delivery_count g (dl_id d) = dl_count d.
Proof.
  unfold delivery_count. induction (pending g) as [|x l IH]; simpl; [set_solver|].
  intros [Hn Hnd]%NoDup_cons [->|Hd]%elem_of_cons; [by rewrite String.eqb_refl|].
  destruct (String.eqb_spec (dl_id x) (dl_id d)) as [E|_]; [|by apply IH].
  destruct Hn. rewrite E. by apply (list_elem_of_fmap_2 dl_id).
Qed.

Lemma floor_job_pending b m w :
  NoDup (map dl_id (pending (rn_group w))) →
  NoDup (map dl_id (pending (rn_group (floor b m w).2))) ∧
  ∀ d, d ∈ pending (rn_group (floor b m w).2) →
    d ∈ pending (rn_group w) ∧ (dl_id d = m.1 → dl_count d ≤ MAX_DELIVERY_COUNT).
Proof.
  intros Hnd. destruct m as [id job]. destruct (floor b (id, job) w) as [n w'] eqn:E.
  apply floor_job_spec in E as [_ [[Hg Hc]|[Hg _]]]; simpl; rewrite Hg.
  - split; [done|]. intros d Hd. split; [done|]. intros Hid. rewrite <-(delivery_count_pending _ d Hnd Hd). by rewrite Hid.
  - split; [by apply (NoDup_fmap_filter dl_id)|]. by intros d [? ?]%list_elem_of_filter.
Qed.

Lemma floor_jobs_pending b jobs w d :
  NoDup (map dl_id (pending (rn_group w))) →
  d ∈ pending (rn_group (floor_jobs dumps additional_engine_names b jobs w).2) →
  d ∈ pending (rn_group w) ∧ (dl_id d ∈ map fst jobs → dl_count d ≤ MAX_DELIVERY_COUNT).
Proof.
  revert w. induction jobs as [|m jobs IH]; intros w Hnd; simpl.
  { intros Hd. split; [done|]. by intros ?%elem_of_nil. }
  destruct (floor_job_pending b m w Hnd) as [Hnd1 Hm].
  destruct (floor b m w) as [n w1] eqn:Ef.
  specialize (IH w1 Hnd1). destruct (floor_jobs _ _ b jobs w1) as [k w2]. simpl in *.
  intros [Hd Hj]%IH. destruct (Hm d Hd) as [? Hc]. split; [done|]. intros [?|?]%elem_of_cons; auto.
Qed.

Lemma accounted_pending s : accounted s → NoDup (map dl_id (pending (rn_group (runner s)))).
Proof.
  intros [_ [_ Hnd _] _]. unfold held in Hnd. rewrite map_app, map_map in Hnd. by apply NoDup_app in Hnd as (_ & _ & ?).
Qed.

(** The floor consumer gives up on a job after five deliveries.  A tick that runs
    to its end leaves none of the jobs it was given pending with more than five
    deliveries: a sixth delivery is answered by the poison-pill marker and
    acknowledged, whatever the engines would have done. *)
Theorem floor_gives_up_after_five s b now count idle d :
  system_reachable s →
  d ∈ pending (rn_group (run_mock_engine_worker_tick dumps additional_engine_names b now count idle (runner s)).2) →
  dl_id d ∈ map fst (claim now count idle (rn_group (runner s))).1 →
  dl_count d ≤ MAX_DELIVERY_COUNT.
Proof.
  intros Hacc%reachable_accounted.
  pose proof (accounted_step _ _ Hacc (step_claim s now count idle)) as Hnd%accounted_pending.
  cbn [runner with_group rn_group] in Hnd.
  unfold run_mock_engine_worker_tick. destruct (claim now count idle (rn_group (runner s))) as [jobs g]. simpl in *.
  by intros [_ ?]%floor_jobs_pending.
Qed.
End accounts.

(** ** What the workers store is what is scored *)

Lemma findings_key_inj sid e e' : findings_key sid e = findings_key sid e' → e = e'.
Proof.
  unfold findings_key. intros H1.
  assert (E : ∀ a x y, a +:+ x = a +:+ y → x = y) by (intros a x y Ha; by apply (app_inj_length a a x y) in Ha as [_ ?]).
  apply E, E in H1. apply E in H1. apply (f_equal String.list_ascii_of_string) in H1.
  rewrite !list_ascii_app in H1. apply app_inv_tail in H1.
  apply (f_equal String.string_of_list_ascii) in H1. by rewrite !String.string_of_list_ascii_of_string in H1.
Qed.

(** The transfer object of a result. *)
Definition dto_of_result (r : EngineResult) (d : option Z) : EngineResultDTO :=
  let m := er_engine r in
  mkEngineResultDTO
    (mkEngineMetadataDTO (em_name m) (em_version m) (em_ruleset_digest m) (em_capabilities m)
       (em_requires_network m) (em_requires_llm m) (em_deterministic m))
    (er_status r) (er_scan_mode r) (er_llm_used r) (er_error r) d (map dto_of_finding (er_findings r)).

(** A result whose parts went through their constructors. *)
Definition well_formed (r : EngineResult) : Prop :=
  let m := er_engine r in
  em_name m ≠ "" ∧ em_version m ≠ "" ∧ em_requires_network m = false ∧ Forall Finding_ok (er_findings r).

(** The object that spells the fields of [EngineResultDTO], each by its declared name
    and with a value of its declared type; an unmeasured duration has no key. *)
Definition result_json (dto : EngineResultDTO) : json :=
  let m := rd_engine dto in
  JObj ([("engine",
          JObj [("name", JStr (ed_name m)); ("version", JStr (ed_version m));
                ("ruleset_digest", JStr (ed_ruleset_digest m));
                ("capabilities", JList (map (λ c, JStr (capability_value c)) (ed_capabilities m)));
                ("requires_network", JBool (ed_requires_network m));
                ("requires_llm", JBool (ed_requires_llm m));
                ("deterministic", JBool (ed_deterministic m))]);
         ("status", JStr (status_value (rd_status dto)));
         ("scan_mode", JStr (scan_mode_value (rd_scan_mode dto)));
         ("llm_used", JBool (rd_llm_used dto)); ("error", JOpt (rd_error dto));
         ("findings", JList (map dto_json (rd_findings dto)))] ++
        match rd_analyze_duration_ms dto with
        | Some d => [("analyze_duration_ms", JNum d)]
        | None => []
        end).

(** pydantic's documented behaviour on the text [json.dumps] writes: an object that
    spells a valid model's fields with values of the declared types validates to that
    model. *)
Definition accepts_results (dumps : json → blob) (model_validate_json : blob → option EngineResultDTO) : Prop :=
  ∀ dto, EngineResultDTO_ok dto = true → model_validate_json (dumps (result_json dto)) = Some dto.

(** What the serializer writes spells every field of the result. *)
Lemma serialize_spells r d : serialize_engine_result r d = result_json (dto_of_result r d).
Proof. unfold serialize_engine_result, result_json, dto_of_result. simpl. by rewrite map_map. Qed.

(** The bounds of the schema: rule ids of at most 128 characters, and a duration
    that fits the database column. *)
Definition within_schema (r : EngineResult) (d : option Z) : Prop :=
  Forall (λ f, (py_len (rule_id f) <= _MAX_RULE_ID_CHARS)%nat) (er_findings r) ∧
  ∀ ms, d = Some ms → 0 ≤ ms ≤ _MAX_ANALYZE_DURATION_MS.

Lemma dto_of_result_ok r d : well_formed r → within_schema r d → EngineResultDTO_ok (dto_of_result r d) = true.
Proof.
  intros (_ & _ & _ & Hf) [Hl Hd]. unfold EngineResultDTO_ok. simpl. apply andb_true_iff. split.
  - destruct d as [ms|]; [|done]. destruct (Hd ms eq_refl). apply andb_true_iff. split; by apply Z.leb_le.
  - rewrite forallb_forall. intros x (f & <- & Hin)%in_map_iff. rewrite Forall_forall in Hf, Hl.
    apply list_elem_of_In in Hin. destruct (Hf f Hin) as (_ & H0%qle_iff & H1%qle_iff & _).
    unfold FindingDTO_ok. simpl. rewrite H0, H1, (proj2 (Nat.leb_le _ _) (Hl f Hin)). done.
Qed.

Section scored.
Context `{TarFormat, !TarLaws, ZipFormat, !ZipLaws}.
Variable dumps : json → blob.
Variable additional_engine_names : list string.
Variable model_validate_json : blob → option EngineResultDTO.
Variable error_text : UntrustedFindingsError → string.
Variable py_repr : string → string.

Abbreviation dispatched := (dispatch_engines additional_engine_names).
Abbreviation load := (load_answered model_validate_json error_text py_repr).

(** What an engine of the bench answers for a job. *)
Definition reported (b : Bench) (job : ScanJobMessage) (files : Files) (name : string)
    : option (EngineResult * option Z) :=
  match engines_by_name b !! name with
  | None =>
      match unavailable_engine_result name "engine not registered on this worker" with
      | Err _ => None
      | Ok r => Some (r, None)
      end
  | Some engine => (λ r, (r, Some (elapsed_ms (measured_ms b name)))) <$> engine files (sm_deadline_epoch job)
  end.

Lemma dispatch_unfold b job name rest files w :
  dispatch dumps b job (name :: rest) files w =
    match reported b job files name with
    | None => (false, w)
    | Some (r, d) => dispatch dumps b job rest files (report dumps (sm_scan_id job) name r d w)
    end.
Proof.
  simpl. unfold reported. destruct (engines_by_name b !! name) as [engine|]; [by destruct (engine _ _)|].
  by destruct (unavailable_engine_result name _).
Qed.

Lemma dispatch_reports b job names files w :
  (∀ e, e ∈ names → is_Some (reported b job files e)) →
  ∃ w', dispatch dumps b job names files w = (true, w') ∧
    (∀ e r d, e ∈ names → reported b job files e = Some (r, d) →
       rn_blobs w' !! findings_key (sm_scan_id job) e = Some (dumps (serialize_engine_result r d))) ∧
    (∀ e, e ∉ names → rn_blobs w' !! findings_key (sm_scan_id job) e = rn_blobs w !! findings_key (sm_scan_id job) e).
Proof.
  revert w. induction names as [|n names IH]; intros w Hr.
  { exists w. split_and!; [done|set_solver|done]. }
  rewrite dispatch_unfold. destruct (Hr n ltac:(left)) as [[r d] En]. rewrite En.
  destruct (IH (report dumps (sm_scan_id job) n r d w)) as (w' & -> & Hin & Hout); [intros e He; apply Hr; by right|].
  exists w'. split; [done|]. split.
  - intros e r' d' He Ee. destruct (decide (e ∈ names)) as [Hi|Hn]; [by apply Hin|].
    apply elem_of_cons in He as [->|He]; [|done]. rewrite Hout by done. simpl. rewrite lookup_insert_eq. congruence.
  - intros e [Hne Hn]%not_elem_of_cons. rewrite Hout by done. simpl. apply lookup_insert_ne.
    intros E. apply Hne. symmetry. by eapply findings_key_inj.
Qed.

Lemma findings_of_dtos_back fs : Forall Finding_ok fs → findings_of_dtos (map dto_of_finding fs) = Ok fs.
Proof. induction 1 as [|f fs Hf _ IH]; simpl; [done|]. by rewrite finding_of_dto_of_finding, IH. Qed.

Lemma load_reported blobs sid e r d raw :
  blobs !! findings_key sid e = Some raw → model_validate_json raw = Some (dto_of_result r d) →
  well_formed r → em_name (er_engine r) = e →
  load blobs sid e =
    (r, mkEngineHealthRecord e Readback.REPORTED (Some (er_status r)) d (Some (Z.of_nat (length (er_findings r))))
          (_truncate_error (er_error r))).
Proof.
  intros Hb Hv (Hn & Hver & Hnet & Hf) He. unfold load_answered, parse_engine_result_with_duration.
  rewrite Hb, Hv. unfold EngineMetadata_new. simpl.
  rewrite (proj2 (String.eqb_neq _ _) Hn), (proj2 (String.eqb_neq _ _) Hver), Hnet. simpl.
  rewrite (findings_of_dtos_back _ Hf). simpl. rewrite He, String.eqb_refl. simpl.
  by destruct r as [[] ? ? ? ? ?]; simpl in *; subst.
Qed.

(** C27: What the workers report is what is scored, from the upload to the engine
    results the collector aggregates.  Take an accepted upload whose artifact is in
    the store and stays under the workers' size limit, whose paths are text, and a
    job of it that still has attempts left.  If every engine of the job returns a
    well-formed result under its own name, with rule ids and a duration within the
    bounds of the schema, the worker acknowledges the job, each engine having been run
    on exactly the uploaded file set, and reading an engine's result back from the
    store yields the very result it returned, field by field, with its duration and
    its count of findings, and no engine of the job reads back as missing or
    unreadable.  Of the libraries this assumes that the archive formats round-trip and
    that pydantic accepts the JSON text of an object that spells a valid model's
    declared fields; that the serializer writes that object is part of what is
    proved. *)
Theorem reported_results_are_scored a entries b id job w :
  accepts_results dumps model_validate_json →
  unpack_package_archive a = Ok entries → scalar_paths entries →
  size_of (_pack_tar entries) ≤ MAX_ARCHIVE_BYTES →
  rn_blobs w !! sm_artifact_key job = Some (_pack_tar entries) →
  delivery_count (rn_group w) id ≤ MAX_DELIVERY_COUNT →
  (∀ e, e ∈ dispatched job → ∃ r d, reported b job (files_of entries) e = Some (r, d) ∧
     em_name (er_engine r) = e ∧ well_formed r ∧ within_schema r d) →
  ∃ w', floor_job dumps additional_engine_names b (id, job) w = (1%nat, w') ∧
    rn_group w' = ack_scan_job id (rn_group w) ∧
    ∀ e r d, e ∈ dispatched job → reported b job (files_of entries) e = Some (r, d) →
      load (rn_blobs w') (sm_scan_id job) e =
        (r, mkEngineHealthRecord e Readback.REPORTED (Some (er_status r)) d
              (Some (Z.of_nat (length (er_findings r)))) (_truncate_error (er_error r))).
Proof.
  intros Hv [Hh _]%upload_sound Hs Hsz Hb Hc Hr. unfold floor_job.
  rewrite (proj2 (Z.ltb_ge _ _)) by done. rewrite Hb, (unpack_packed _ Hh Hs), (proj2 (Z.leb_le _ _)) by done.
  destruct (dispatch_reports b job (dispatched job) (files_of entries) w) as (w' & Ed & Hin & _).
  { intros e (r & d & -> & _)%Hr. eauto. }
  rewrite Ed. exists (with_group (ack_scan_job id) w'). split; [done|]. split.
  { apply dispatch_spec in Ed as (_ & Hg & _). simpl. by rewrite Hg. }
  intros e r d He Ee. destruct (Hr e He) as (r' & d' & Er & Hname & Hwf & Hok).
  rewrite Ee in Er. injection Er as <- <-. eapply load_reported; [by apply Hin| |done..].
  rewrite serialize_spells. by apply Hv, dto_of_result_ok.
Qed.
End scored.

Module RunnerSamples.
Import UnpackSamples AdapterSamples ReadbackSamples.

#[local] Instance sample_zip : ZipFormat := toy_zip.
#[local] Instance sample_zip_laws : ZipLaws := toy_zip_laws.
#[local] Instance sample_tar : TarFormat := toy no_gz.
#[local] Instance sample_laws : TarLaws := toy_laws no_gz.

Definition job1 : ScanJobMessage := mkScanJobMessage "s1" "h1" (artifact_key "h1") 1000 ["grep"].
Definition grep_meta : EngineMetadata := ad_metadata grep_engine.
Definition clean : EngineResult := mkEngineResult grep_meta [] OK MODE_STATIC false None.
Definition grep : Engine := λ _ _, Some clean.
Definition broken : Engine := λ _ _, None.
Definition bench (e : Engine) : Bench := mkBench {["grep" := e]} (λ _, 7).

(** A text for every JSON value, one number, and its reader. *)
Fixpoint tree_of (j : json) : gen_tree (Z + string) :=
  match j with
  | JNull => GenNode 0 []
  | JBool b => GenNode 1 [GenLeaf (inl (Z.b2z b))]
  | JNum n => GenNode 2 [GenLeaf (inl n)]
  | JFloat q => GenNode 3 [GenLeaf (inl (Qnum q)); GenLeaf (inl (Zpos (Qden q)))]
  | JStr x => GenNode 4 [GenLeaf (inr x)]
  | JList l => GenNode 5 (map tree_of l)
  | JObj l => GenNode 6 (map (λ p, GenNode 7 [GenLeaf (inr p.1); tree_of p.2]) l)
  end.

Fixpoint of_tree (t : gen_tree (Z + string)) : json :=
  match t with
  | GenNode 1 [GenLeaf (inl n)] => JBool (n =? 1)
  | GenNode 2 [GenLeaf (inl n)] => JNum n
  | GenNode 3 [GenLeaf (inl n); GenLeaf (inl d)] => JFloat (n # Z.to_pos d)
  | GenNode 4 [GenLeaf (inr x)] => JStr x
  | GenNode 5 l => JList (map of_tree l)
  | GenNode 6 l =>
      JObj (omap (λ p, match p with GenNode 7 [GenLeaf (inr k); v] => Some (k, of_tree v) | _ => None end) l)
  | _ => JNull
  end.

Lemma of_tree_of : ∀ j, of_tree (tree_of j) = j.
Proof.
  fix IH 1. intros [|b|n|[n d]|x|l|l]; simpl; [done|by destruct b|done..| |]; f_equal.
  - induction l as [|j l IHl]; simpl; [done|]. by rewrite IH, IHl.
  - induction l as [|[k v] l IHl]; simpl; [done|]. rewrite IH. f_equal. exact IHl.
Qed.

Definition dumps1 (j : json) : blob := [Zpos (encode (tree_of j))].
Definition loads1 (raw : blob) : option json :=
  match raw with [Zpos n] => of_tree <$> decode n | _ => None end.

Lemma loads1_dumps1 j : loads1 (dumps1 j) = Some j.
Proof. unfold loads1, dumps1. rewrite decode_encode. simpl. by rewrite of_tree_of. Qed.

(** A validator that reads the declared fields by name. *)
Definition as_bool (j : json) : option bool := match j with JBool b => Some b | _ => None end.
Definition as_list {A} (f : json → option A) (j : json) : option (list A) :=
  match j with JList l => mapM f l | _ => None end.
Definition statuses : list EngineStatus := [OK; PARTIAL; ERROR; TIMEOUT].

Definition validate_metadata (j : json) : option EngineMetadataDTO :=
  match j with
  | JObj l =>
      name ← field "name" l ≫= as_str; version ← field "version" l ≫= as_str;
      digest ← field "ruleset_digest" l ≫= as_str;
      caps ← field "capabilities" l ≫= as_list (as_enum capability_value capabilities);
      net ← field "requires_network" l ≫= as_bool; llm ← field "requires_llm" l ≫= as_bool;
      det ← field "deterministic" l ≫= as_bool;
      Some (mkEngineMetadataDTO name version digest caps net llm det)
  | _ => None
  end.

Definition validate_result (j : json) : option EngineResultDTO :=
  match j with
  | JObj l =>
      engine ← field "engine" l ≫= validate_metadata;
      status ← field "status" l ≫= as_enum status_value statuses;
      mode ← field "scan_mode" l ≫= as_enum scan_mode_value [MODE_STATIC; MODE_DYNAMIC];
      llm ← field "llm_used" l ≫= as_bool; error ← field "error" l ≫= as_opt_str;
      found ← field "findings" l ≫= as_list validate_fields;
      d ← match field "analyze_duration_ms" l with Some v => as_opt_int v | None => Some None end;
      let dto := mkEngineResultDTO engine status mode llm error d found in
      if EngineResultDTO_ok dto then Some dto else None
  | _ => None
  end.

Definition validate1 (raw : blob) : option EngineResultDTO := loads1 raw ≫= validate_result.

Lemma as_list_map {A} (f : json → option A) (g : A → json) l :
  (∀ a, a ∈ l → f (g a) = Some a) → as_list f (JList (map g l)) = Some l.
Proof.
  simpl. induction l as [|a l IH]; intros Hf; simpl; [done|].
  rewrite (Hf a) by left. simpl. rewrite IH; [done|]. intros b Hb. apply Hf. by right.
Qed.

Lemma validate1_accepts : accepts_results dumps1 validate1.
Proof.
  intros dto Hok. unfold validate1. rewrite loads1_dumps1. cbn [mbind option_bind].
  assert (Hf : as_list validate_fields (JList (map dto_json (rd_findings dto))) = Some (rd_findings dto)).
  { apply as_list_map. intros f Hin. apply validate_fields_accepts.
    apply andb_true_iff in Hok as [_ Hall]. rewrite forallb_forall in Hall. by apply Hall, list_elem_of_In. }
  assert (Hc : as_list (as_enum capability_value capabilities)
    (JList (map (λ c, JStr (capability_value c)) (ed_capabilities (rd_engine dto)))) = Some (ed_capabilities (rd_engine dto))).
  { apply as_list_map. intros c _. by destruct c. }
  destruct dto as [[n v g caps net llm det] st mode used error d found].
  cbn [rd_engine rd_findings ed_capabilities] in Hf, Hc.
  unfold validate_result, result_json.
  cbn [rd_engine rd_status rd_scan_mode rd_llm_used rd_error rd_analyze_duration_ms rd_findings ed_name ed_version
    ed_ruleset_digest ed_capabilities ed_requires_network ed_requires_llm ed_deterministic app field String.eqb
    Ascii.eqb Bool.eqb mbind option_bind validate_metadata as_str as_bool].
  rewrite Hc. cbn [mbind option_bind].
  assert (E1 : as_enum status_value statuses (JStr (status_value st)) = Some st) by by destruct st.
  assert (E2 : as_enum scan_mode_value [MODE_STATIC; MODE_DYNAMIC] (JStr (scan_mode_value mode)) = Some mode)
    by by destruct mode.
  assert (E3 : as_opt_str (JOpt error) = Some error) by by destruct error.
  rewrite E1. cbn [mbind option_bind]. rewrite E2. cbn [mbind option_bind]. rewrite E3. cbn [mbind option_bind].
  rewrite Hf. cbn [mbind option_bind].
  destruct d as [d|]; cbn [app field String.eqb Ascii.eqb Bool.eqb as_opt_int mbind option_bind]; by rewrite Hok.
Qed.

Definition text1 (e : UntrustedFindingsError) : string := "".
Definition repr1 (s : string) : string := s.

Definition stored : gmap string blob := {[artifact_key "h1" := _pack_tar unpacked]}.
Definition start : Runner := mkRunner (mkGroup [] []) stored [].
Definition one : Group := mkGroup [("m1", job1)] [].
Definition queued : System := mkSystem [("m1", job1)] (mkRunner one stored []) one [].

Lemma queued_reachable : system_reachable dumps1 [] queued.
Proof.
  exists stored, []. eapply rtc_once. apply (step_produce dumps1 [] (mkSystem [] start empty_group []) "m1" job1). apply not_elem_of_nil.
Qed.

(** A tick of the floor with an engine that raises, then one of the sandboxed
    consumer, whose engine answers. *)
Definition floor_ticked : System :=
  mkSystem [("m1", job1)]
    (run_mock_engine_worker_tick dumps1 [] (bench broken) 0 10 STALE_CLAIM_IDLE_MS (runner queued)).2 one [].

Lemma floor_ticked_reachable : system_reachable dumps1 [] floor_ticked.
Proof.
  pose proof queued_reachable as Hq. pose proof Hq as (bl & rs & Hr). exists bl, rs. etrans; [exact Hr|].
  apply (floor_tick_steps dumps1 [] (bench broken) 0 10 STALE_CLAIM_IDLE_MS 1 queued).
  by eapply reachable_accounted.
Qed.

Definition sandbox_claimed : System :=
  from_sandbox floor_ticked [] (with_group (λ g, (claim 0 10 STALE_CLAIM_IDLE_MS g).2) (sandbox_view floor_ticked)).

Definition both_ticked : System :=
  from_sandbox sandbox_claimed [attempt sandbox_claimed [("grep", grep)] {["yara"]} ("m1", job1)]
    (sandbox_job dumps1 [("grep", grep)] (λ _, 7) {["yara"]} ("m1", job1) (sandbox_view sandbox_claimed)).2.

Lemma sandbox_claimed_reachable : system_reachable dumps1 [] sandbox_claimed.
Proof.
  destruct floor_ticked_reachable as (bl & rs & Hr). exists bl, rs.
  exact (rtc_r _ _ _ Hr (step_sandbox_claim dumps1 [] floor_ticked 0 10 STALE_CLAIM_IDLE_MS)).
Qed.

Lemma both_ticked_reachable : system_reachable dumps1 [] both_ticked.
Proof.
  destruct sandbox_claimed_reachable as (bl & rs & Hr). exists bl, rs.
  refine (rtc_r _ _ _ Hr (step_sandbox dumps1 [] sandbox_claimed [("grep", grep)] (λ _, 7) {["yara"]} ("m1", job1) _)).
  left.
Qed.

Lemma no_scan_job_is_lost_witness :
  (("m1", job1) ∈ waiting (rn_group (runner both_ticked)) ∨
   (∃ d, d ∈ pending (rn_group (runner both_ticked)) ∧ dl_id d = "m1" ∧ dl_job d = job1) ∨
   settled [] (runner both_ticked) job1) ∧
  sandbox both_ticked = empty_group ∧ length (attempts both_ticked) = 1%nat.
Proof.
  split; [|split; vm_compute; reflexivity].
  apply (no_scan_job_is_lost dumps1 [] both_ticked "m1" job1 both_ticked_reachable). left.
Defined.

Lemma floor_gives_up_after_five_witness :
  dl_count (mkDelivery "m1" job1 1 0) ≤ MAX_DELIVERY_COUNT.
Proof.
  apply (floor_gives_up_after_five dumps1 [] queued (bench broken) 0 10 STALE_CLAIM_IDLE_MS _ queued_reachable);
    vm_compute; left.
Defined.

Lemma reported_results_are_scored_witness :
  ∃ w', floor_job dumps1 [] (bench grep) ("m1", job1) (mkRunner (mkGroup [] [mkDelivery "m1" job1 1 0]) stored []) = (1%nat, w') ∧
    (load_answered validate1 text1 repr1 (rn_blobs w') "s1" "grep").1 = clean.
Proof.
  destruct (reported_results_are_scored dumps1 [] validate1 text1 repr1 zip_sample unpacked (bench grep) "m1" job1
    (mkRunner (mkGroup [] [mkDelivery "m1" job1 1 0]) stored [])) as (w' & Hf & _ & Hl).
  - exact validate1_accepts.
  - exact zip_sample_unpacks.
  - repeat constructor.
  - vm_compute. congruence.
  - reflexivity.
  - vm_compute. congruence.
  - intros e ->%list_elem_of_singleton. exists clean, (Some 7). split; [done|]. split; [done|].
    split; [by split_and!|]. split; [constructor|]. intros ms [= <-]. unfold _MAX_ANALYZE_DURATION_MS. lia.
  - exists w'. split; [exact Hf|]. exact (f_equal fst (Hl "grep" clean (Some 7) ltac:(left) eq_refl)).
Defined.

(** ** A package that the sandboxed engines never finish with *)

Definition long_name : points := repeat 97 300.
Definition long_entries : list Entry := [(long_name, 420, [1])].
Definition long_blobs : gmap string blob := {[artifact_key "h1" := _pack_tar long_entries]}.
Definition grep_adapter : Engine :=
  λ files deadline, analyze tmp name_max clean_run counted no_points no_q no_z grep_engine files (Some (inject_Z deadline)) 0%Q.

Lemma long_name_unpacks : unpack_hardened (_pack_tar long_entries) = Ok long_entries.
Proof. vm_compute. reflexivity. Qed.

Lemma long_name_raises : grep_adapter (files_of long_entries) 1000 = None.
Proof. vm_compute. reflexivity. Qed.

Abbreviation sandbox_tick := (sandbox_engine_tick dumps1 [("grep", grep_adapter)] (λ _, 0) ∅).

(** Ticks a minute apart, from the first delivery on. *)
Fixpoint sandbox_ticks (n : nat) : Runner :=
  match n with
  | O => mkRunner (mkGroup [("m1", job1)] []) long_blobs []
  | S k => (sandbox_tick (60000 * Z.of_nat k) 10 STALE_CLAIM_IDLE_MS (sandbox_ticks k)).2
  end.

Definition wedged (count at_ : Z) : Runner := mkRunner (mkGroup [] [mkDelivery "m1" job1 count at_]) long_blobs [].

Lemma sandbox_job_wedged count at_ :
  sandbox_job dumps1 [("grep", grep_adapter)] (λ _, 0) ∅ ("m1", job1) (wedged count at_) = (0%nat, wedged count at_).
Proof.
  unfold sandbox_job, wedged, long_blobs. cbn [rn_blobs]. change (sm_artifact_key job1) with (artifact_key "h1").
  rewrite lookup_singleton_eq. cbv beta iota. rewrite long_name_unpacks. unfold _dispatch_engines.
  rewrite bool_decide_false by apply not_elem_of_empty. simpl sm_deadline_epoch. by rewrite long_name_raises.
Qed.

Lemma sandbox_jobs_wedged count at_ :
  sandbox_jobs dumps1 [("grep", grep_adapter)] (λ _, 0) ∅ [("m1", job1)] (wedged count at_) = (0%nat, wedged count at_).
Proof. cbn [sandbox_jobs]. by rewrite sandbox_job_wedged. Qed.

Lemma sandbox_tick_wedged count at_ :
  (sandbox_tick (at_ + 60000) 10 STALE_CLAIM_IDLE_MS (wedged count at_)).2 = wedged (count + 1) (at_ + 60000).
Proof.
  assert (E : claim (at_ + 60000) 10 STALE_CLAIM_IDLE_MS (rn_group (wedged count at_)) =
    ([("m1", job1)], mkGroup [] [mkDelivery "m1" job1 (count + 1) (at_ + 60000)])).
  { assert (Hs : stale_entries (at_ + 60000) STALE_CLAIM_IDLE_MS (mkGroup [] [mkDelivery "m1" job1 count at_]) =
      [mkDelivery "m1" job1 count at_]).
    { unfold stale_entries. cbn [pending firstn]. rewrite filter_cons, decide_True; [done|].
      cbn [dl_at]. unfold STALE_CLAIM_IDLE_MS. lia. }
    unfold claim, claim_scan_jobs, reclaim_stale_scan_jobs, wedged. cbn [rn_group waiting pending firstn skipn map app].
    by rewrite Hs. }
  unfold sandbox_engine_tick. rewrite E. exact (f_equal snd (sandbox_jobs_wedged (count + 1) (at_ + 60000))).
Qed.

(** The sandboxed consumer never gives up.  A package with one file whose name
    has 300 characters is accepted and unpacks, its name is longer than the
    filesystem takes, and the adapter raises; the tick logs it and leaves the message
    pending, and since this consumer has no delivery limit, after any number of ticks
    the job has been delivered that many times, is still pending, and has produced no
    result. *)
Theorem sandbox_never_gives_up n :
  (1 <= n)%nat → sandbox_ticks n = wedged (Z.of_nat n) (60000 * (Z.of_nat n - 1)).
Proof.
  induction n as [|n IH]; [lia|]. intros _. destruct n as [|n].
  - assert (E : claim 0 10 STALE_CLAIM_IDLE_MS (mkGroup [("m1", job1)] []) =
      ([("m1", job1)], mkGroup [] [mkDelivery "m1" job1 1 0])) by reflexivity.
    cbn [sandbox_ticks]. unfold sandbox_engine_tick. cbn [rn_group].
    change (60000 * Z.of_nat 0) with 0. rewrite E. exact (f_equal snd (sandbox_jobs_wedged 1 0)).
  - change (sandbox_ticks (S (S n))) with
      (sandbox_tick (60000 * Z.of_nat (S n)) 10 STALE_CLAIM_IDLE_MS (sandbox_ticks (S n))).2.
    rewrite IH by lia.
    replace (60000 * Z.of_nat (S n)) with (60000 * (Z.of_nat (S n) - 1) + 60000) by lia.
    rewrite sandbox_tick_wedged. f_equal; lia.
Qed.

Lemma sandbox_never_gives_up_witness : sandbox_ticks 100 = wedged 100 5940000.
Proof. apply (sandbox_never_gives_up 100). lia. Defined.
End RunnerSamples.
