(* ===== verification/EngineHealth.v ===== *)
(** * Engine health and evidence coverage

    [apps/monolith/modules/orchestration/engine_health.py]: the window summary of the
    recent scans' engine rows, and the coverage of one scan's evidence; with the two
    configuration sets of [admin/engine_registry.py] that explain an absence.  The rows
    are those of [OrchStore.health], keyed by scan and engine. *)

From S2P Require Import Prelude Models Readback Orchestration.
Open Scope string_scope.
Open Scope list_scope.
Open Scope Z_scope.

Definition DEFAULT_WINDOW_SCANS : Z := 50.
Definition MAX_WINDOW_SCANS : Z := 200.
Definition FAILED_ENGINE_STATUSES : list string := [status_value ERROR; status_value TIMEOUT].
Definition DELIVERED_ENGINE_STATUSES : list string := [status_value OK; status_value PARTIAL].

Record EngineHealthObservation := mkObservation {
  ob_scan_id : string;
  ob_engine_name : string;
  ob_report_state : string;
  ob_engine_status : option string;
  ob_analyze_duration_ms : option Z;
  ob_finding_count : option Z;
  ob_error : option string;
  ob_recorded_at : Z;
}.

Record EngineHealthCounts := mkCounts {
  c_ok : nat;
  c_partial : nat;
  c_error : nat;
  c_not_reported : nat;
  c_unreadable : nat;
}.

Definition total (c : EngineHealthCounts) : nat :=
  (c_ok c + c_partial c + c_error c + c_not_reported c + c_unreadable c)%nat.
Definition counts_reported (c : EngineHealthCounts) : nat := (c_ok c + c_partial c + c_error c)%nat.

Record EngineHealthSummary := mkSummary {
  es_engine_name : string;
  es_observed_scans : nat;
  es_counts : EngineHealthCounts;
  es_last : EngineHealthObservation;  (* the source copies its fields one by one *)
  es_measured_duration_count : nat;
  es_max_analyze_duration_ms : option Z;
}.

Record EngineHealthWindow := mkWindow {
  ew_requested_scans : Z;
  ew_observed_scans : nat;
  ew_started_at : option Z;
  ew_ended_at : option Z;
}.

Record EngineHealthReport := mkReport {
  hrep_window : EngineHealthWindow;
  hrep_engines : list EngineHealthSummary;
}.

Definition _recency_key (o : EngineHealthObservation) : Z * string := (ob_recorded_at o, ob_scan_id o).

Definition status_in (s : option string) (l : list string) : bool :=
  match s with Some x => bool_decide (x ∈ l) | None => false end.

(** One row of the loop of [_count]. *)
Definition count_row (c : EngineHealthCounts) (row : EngineHealthObservation) : EngineHealthCounts :=
  if String.eqb (ob_report_state row) (report_state_value NOT_REPORTED) then
    mkCounts (c_ok c) (c_partial c) (c_error c) (S (c_not_reported c)) (c_unreadable c)
  else if String.eqb (ob_report_state row) (report_state_value UNREADABLE) then
    mkCounts (c_ok c) (c_partial c) (c_error c) (c_not_reported c) (S (c_unreadable c))
  else if String.eqb (ob_report_state row) (report_state_value REPORTED) then
    if status_in (ob_engine_status row) FAILED_ENGINE_STATUSES then
      mkCounts (c_ok c) (c_partial c) (S (c_error c)) (c_not_reported c) (c_unreadable c)
    else if status_in (ob_engine_status row) [status_value PARTIAL] then
      mkCounts (c_ok c) (S (c_partial c)) (c_error c) (c_not_reported c) (c_unreadable c)
    else if status_in (ob_engine_status row) [status_value OK] then
      mkCounts (S (c_ok c)) (c_partial c) (c_error c) (c_not_reported c) (c_unreadable c)
    else c
  else c.

Definition _count (engine_rows : list EngineHealthObservation) : EngineHealthCounts :=
  foldl count_row (mkCounts 0 0 0 0 0) engine_rows.

Definition max_of (l : list Z) : option Z :=
  match l with [] => None | x :: l' => Some (foldl Z.max x l') end.

(** The summary of one engine's rows, oldest first; there is at least one. *)
Definition summary_of (engine_name : string) (engine_rows : list EngineHealthObservation)
    : option EngineHealthSummary :=
  last_row ← last engine_rows;
  let durations := omap ob_analyze_duration_ms engine_rows in
  Some (mkSummary engine_name (length engine_rows) (_count engine_rows) last_row (length durations)
          (max_of durations)).

Definition by_recency : EngineHealthObservation → EngineHealthObservation → bool :=
  le_key (le_pair Z.leb str_le) _recency_key.

Definition summarize_engine_health (observations : list EngineHealthObservation) (requested_scans : Z)
    : EngineHealthReport :=
  let rows := sort_by by_recency observations in
  let names := sorted_set (list_to_set (map ob_engine_name rows)) in
  let engines := omap (λ n, summary_of n (base.filter (λ r, ob_engine_name r = n) rows)) names in
  let scan_ids : gset string := list_to_set (map ob_scan_id rows) in
  mkReport (mkWindow requested_scans (size scan_ids) (ob_recorded_at <$> head rows) (ob_recorded_at <$> last rows))
    engines.

Definition _observation (key : string * string) (r : ScanEngineHealthRow) : EngineHealthObservation :=
  mkObservation key.1 key.2 (hr_report_state r) (hr_engine_status r) (hr_analyze_duration_ms r)
    (hr_finding_count r) (hr_error r) (hr_recorded_at r).

Definition observations (st : OrchStore) : list EngineHealthObservation :=
  map (λ kv, _observation kv.1 kv.2) (map_to_list (health st)).

Definition clamp_window_scans (requested_scans : Z) : Z := Z.max 1 (Z.min requested_scans MAX_WINDOW_SCANS).

(** [SELECT scan_id, max(recorded_at) ... GROUP BY scan_id ORDER BY 2 DESC, 1 DESC LIMIT]. *)
Definition last_recorded (obs : list EngineHealthObservation) (scan_id : string) : option Z :=
  max_of (map ob_recorded_at (base.filter (λ o, ob_scan_id o = scan_id) obs)).

Definition recent_scans (obs : list EngineHealthObservation) (limit : Z) : list string :=
  let ids : list string := elements (list_to_set (map ob_scan_id obs) : gset string) in
  take (Z.to_nat limit)
    (sort_by (λ a b, le_pair Z.leb str_le (default 0 (last_recorded obs b), b) (default 0 (last_recorded obs a), a)) ids).

Definition load_recent_engine_health (requested_scans : Z) (st : OrchStore) : EngineHealthReport :=
  let limit := clamp_window_scans requested_scans in
  let scan_ids := recent_scans (observations st) limit in
  match scan_ids with
  | [] => summarize_engine_health [] limit
  | _ => summarize_engine_health (base.filter (λ o, ob_scan_id o ∈ scan_ids) (observations st)) limit
  end.

(** ** Coverage of one scan *)

Inductive EngineCoverageClass := COVERED | MISSING | NOT_APPLICABLE.

Definition coverage_value (c : EngineCoverageClass) : string :=
  match c with COVERED => "reported" | MISSING => "missing" | NOT_APPLICABLE => "not_applicable" end.

Definition classify_engine_coverage (o : EngineHealthObservation) (structurally_absent : gset string)
    : EngineCoverageClass :=
  if String.eqb (ob_report_state o) (report_state_value REPORTED) then
    if status_in (ob_engine_status o) DELIVERED_ENGINE_STATUSES then COVERED else MISSING
  else if String.eqb (ob_report_state o) (report_state_value NOT_REPORTED)
          && bool_decide (ob_engine_name o ∈ structurally_absent) then NOT_APPLICABLE
  else MISSING.

Record EngineCoverageEntry := mkCoverageEntry {
  ce_engine_name : string;
  ce_report_state : string;
  ce_engine_status : option string;
  ce_analyze_duration_ms : option Z;
  ce_coverage : EngineCoverageClass;
}.

Record ScanEngineCoverage := mkCoverage {
  cov_expected : nat;
  cov_reported : nat;
  cov_not_applicable : nat;
  cov_entries : list EngineCoverageEntry;
  cov_observed : bool;
}.

Definition missing (c : ScanEngineCoverage) : nat := (cov_expected c - cov_reported c)%nat.

Definition complete (c : ScanEngineCoverage) : option bool :=
  if negb (cov_observed c) then None else Some (Nat.eqb (cov_reported c) (cov_expected c)).

Definition COVERAGE_BASIS_CURRENT_CONFIG : string := "current_config".

(** The counters of the loop: reported, missing, not applicable, and the entries. *)
Definition cover_row (structurally_absent : gset string)
    (acc : nat * nat * nat * list EngineCoverageEntry) (row : EngineHealthObservation)
    : nat * nat * nat * list EngineCoverageEntry :=
  let '(reported, missing, not_applicable, entries) := acc in
  let coverage := classify_engine_coverage row structurally_absent in
  let entry := mkCoverageEntry (ob_engine_name row) (ob_report_state row) (ob_engine_status row)
                 (ob_analyze_duration_ms row) coverage in
  match coverage with
  | COVERED => (S reported, missing, not_applicable, entries)
  | MISSING => (reported, S missing, not_applicable, entries ++ [entry])
  | NOT_APPLICABLE => (reported, missing, S not_applicable, entries ++ [entry])
  end.

Definition summarize_scan_coverage (obs : list EngineHealthObservation) (structurally_absent : gset string)
    : ScanEngineCoverage :=
  let rows := sort_by (le_key str_le ob_engine_name) obs in
  let '(reported, missing, not_applicable, entries) := foldl (cover_row structurally_absent) (0, 0, 0, [])%nat rows in
  mkCoverage (reported + missing) reported not_applicable entries (negb (bool_decide (rows = []))).

Definition scan_observations (st : OrchStore) (scan_id : string) : list EngineHealthObservation :=
  base.filter (λ o, ob_scan_id o = scan_id) (observations st).

Definition load_scan_engine_coverage (st : OrchStore) (scan_id : string) (structurally_absent : gset string)
    : ScanEngineCoverage :=
  summarize_scan_coverage (scan_observations st scan_id) structurally_absent.

(** ** [admin/engine_registry.py] *)

Definition ATTRIBUTION_LLM_ENDPOINT_UNCONFIGURED : string := "llm_endpoint_unconfigured".
Definition ATTRIBUTION_CURRENTLY_DISABLED : string := "currently_disabled".
Definition ATTRIBUTION_BASIS_CURRENT_CONFIG : string := "current_config".

(** [llm_gated_engine_names()] of the engine runner is [llm_gated]. *)
Definition llm_unconfigured_engine_names (llm_gated : gset string) (sandbox_llm_configured : bool) : gset string :=
  if sandbox_llm_configured then ∅ else llm_gated.

Definition structurally_absent_engine_names (disabled llm_unconfigured : gset string) : gset string :=
  disabled ∪ llm_unconfigured.

Definition not_reported_attribution (engine_name : string) (disabled llm_unconfigured : gset string)
    (reported_in_window : nat) : option string :=
  if bool_decide (engine_name ∈ llm_unconfigured) && Nat.eqb reported_in_window 0
  then Some ATTRIBUTION_LLM_ENDPOINT_UNCONFIGURED
  else if bool_decide (engine_name ∈ disabled) then Some ATTRIBUTION_CURRENTLY_DISABLED
  else None.

Definition not_reported_attribution_basis (attribution : option string) : option string :=
  match attribution with None => None | Some _ => Some ATTRIBUTION_BASIS_CURRENT_CONFIG end.

Definition is_disableable (name : string) (required_names : gset string) : bool :=
  negb (bool_decide (name ∈ required_names)).

(** The Redis set of disabled engines after a toggle; [None] is [EngineDisableError]. *)
Definition set_engine_enabled (name : string) (enabled : bool) (required_names disabled : gset string)
    : option (gset string) :=
  if negb enabled && negb (is_disableable name required_names) then None
  else Some (if enabled then disabled ∖ {[name]} else disabled ∪ {[name]}).

Definition filter_enabled_engines (disabled : gset string) (engine_metadatas : list EngineMetadata)
    : list EngineMetadata :=
  base.filter (λ m, em_name m ∉ disabled) engine_metadatas.

(** ** What coverage says *)

Definition classified (absent : gset string) (c : EngineCoverageClass) (o : EngineHealthObservation) : bool :=
  match classify_engine_coverage o absent, c with
  | COVERED, COVERED | MISSING, MISSING | NOT_APPLICABLE, NOT_APPLICABLE => true
  | _, _ => false
  end.

Definition entry_of (absent : gset string) (o : EngineHealthObservation) : EngineCoverageEntry :=
  mkCoverageEntry (ob_engine_name o) (ob_report_state o) (ob_engine_status o) (ob_analyze_duration_ms o)
    (classify_engine_coverage o absent).

Definition count_of (absent : gset string) (c : EngineCoverageClass) (l : list EngineHealthObservation) : nat :=
  length (base.filter (classified absent c) l).

Definition uncovered (absent : gset string) (l : list EngineHealthObservation) : list EngineHealthObservation :=
  base.filter (λ o, negb (classified absent COVERED o)) l.

Lemma cover_rows_spec absent l r m n es :
  foldl (cover_row absent) (r, m, n, es) l =
  ((r + count_of absent COVERED l)%nat, (m + count_of absent MISSING l)%nat,
   (n + count_of absent NOT_APPLICABLE l)%nat, es ++ map (entry_of absent) (uncovered absent l)).
Proof.
  revert r m n es. induction l as [|o l IH]; intros r m n es; cbn [foldl].
  - unfold count_of, uncovered. cbn. rewrite app_nil_r. repeat f_equal; lia.
  - unfold count_of, uncovered in *. cbn [cover_row]. rewrite !filterb_cons.
    assert (Ho : ∀ c, classified absent c o = match classify_engine_coverage o absent, c with
      | COVERED, COVERED | MISSING, MISSING | NOT_APPLICABLE, NOT_APPLICABLE => true | _, _ => false end) by done.
    rewrite !Ho. clear Ho. change (mkCoverageEntry _ _ _ _ _) with (entry_of absent o).
    destruct (classify_engine_coverage o absent); rewrite IH; cbn [negb length map];
      rewrite <-?app_assoc; cbn [app];
      (apply (f_equal2 pair); [apply (f_equal2 pair); [apply (f_equal2 pair); lia|lia]|done]).
Qed.

Lemma count_of_total absent l :
  (count_of absent COVERED l + count_of absent MISSING l + count_of absent NOT_APPLICABLE l)%nat = length l.
Proof.
  unfold count_of. induction l as [|o l IH]; [done|]. rewrite !filterb_cons. unfold classified in *.
  destruct (classify_engine_coverage o absent); cbn [length]; lia.
Qed.

Lemma uncovered_length absent l : (length (uncovered absent l) + count_of absent COVERED l)%nat = length l.
Proof.
  unfold uncovered, count_of. induction l as [|o l IH]; [done|]. rewrite !filterb_cons.
  destruct (classified absent COVERED o); cbn [length negb]; lia.
Qed.

Lemma count_of_zero absent c l : count_of absent c l = 0%nat ↔ ∀ o, o ∈ l → classified absent c o = false.
Proof.
  unfold count_of. split.
  - intros H%nil_length_inv o Ho. destruct (classified absent c o) eqn:E; [|done].
    assert (o ∈ base.filter (classified absent c) l) as Hin by (apply elem_of_filterb; done).
    rewrite H in Hin. by apply elem_of_nil in Hin.
  - intros H. by rewrite filterb_nil.
Qed.

Lemma count_of_perm absent c l l' : l ≡ₚ l' → count_of absent c l = count_of absent c l'.
Proof. intros H. unfold count_of. by rewrite H. Qed.

(** The engine's findings are in the verdict; or it is known not to run here. *)
Definition delivered (o : EngineHealthObservation) : Prop :=
  ob_report_state o = "reported" ∧ (ob_engine_status o = Some "ok" ∨ ob_engine_status o = Some "partial").
Definition excused (absent : gset string) (o : EngineHealthObservation) : Prop :=
  ob_report_state o = "not_reported" ∧ ob_engine_name o ∈ absent.

Lemma classify_spec absent o :
  (classify_engine_coverage o absent = COVERED ↔ delivered o) ∧
  (classify_engine_coverage o absent = NOT_APPLICABLE ↔ excused absent o) ∧
  (classify_engine_coverage o absent = MISSING ↔ ¬ delivered o ∧ ¬ excused absent o).
Proof.
  unfold classify_engine_coverage, delivered, excused. cbn [report_state_value].
  destruct (String.eqb_spec (ob_report_state o) "reported") as [E|E].
  - rewrite E. destruct (status_in (ob_engine_status o) DELIVERED_ENGINE_STATUSES) eqn:Es;
      unfold status_in, DELIVERED_ENGINE_STATUSES in Es; destruct (ob_engine_status o) as [s|]; try done.
    + apply bool_decide_eq_true in Es. rewrite !elem_of_cons, elem_of_nil in Es. cbn in Es. naive_solver.
    + apply bool_decide_eq_false in Es. rewrite !elem_of_cons, elem_of_nil in Es. cbn in Es. naive_solver.
    + naive_solver.
  - destruct (String.eqb_spec (ob_report_state o) "not_reported"), (decide (ob_engine_name o ∈ absent));
      cbn [andb]; rewrite ?bool_decide_true, ?bool_decide_false by done; naive_solver.
Qed.

Lemma load_coverage_spec st scan_id absent :
  let rows := scan_observations st scan_id in
  load_scan_engine_coverage st scan_id absent =
  mkCoverage (count_of absent COVERED rows + count_of absent MISSING rows) (count_of absent COVERED rows)
    (count_of absent NOT_APPLICABLE rows)
    (map (entry_of absent) (uncovered absent (sort_by (le_key str_le ob_engine_name) rows)))
    (negb (bool_decide (rows = []))).
Proof.
  intros rows. unfold load_scan_engine_coverage, summarize_scan_coverage. fold rows.
  rewrite cover_rows_spec. pose proof (sort_by_perm (le_key str_le ob_engine_name) rows) as Hp.
  rewrite !(count_of_perm _ _ _ _ Hp). f_equal. f_equal. apply bool_decide_ext.
  split; intros E; [rewrite E in Hp; by apply Permutation_nil|by rewrite E].
Qed.

(** Evidence is called complete exactly when there is a record and every engine's
    row either delivered (an ok or partial result arrived) or is a [not_reported] of
    an engine this deployment does not run; it is unknown exactly when there is no
    row; the counts account for every row, and what is listed is every engine that
    did not deliver. *)
Theorem coverage_is_exact st scan_id absent :
  let rows := scan_observations st scan_id in
  let c := load_scan_engine_coverage st scan_id absent in
  (complete c = None ↔ rows = []) ∧
  (complete c = Some true ↔ rows ≠ [] ∧ ∀ o, o ∈ rows → delivered o ∨ excused absent o) ∧
  (cov_expected c + cov_not_applicable c)%nat = length rows ∧
  (∀ o, o ∈ rows → ¬ delivered o → entry_of absent o ∈ cov_entries c) ∧
  (length (cov_entries c) + cov_reported c)%nat = length rows.
Proof.
  intros rows c. subst c. rewrite load_coverage_spec. fold rows. unfold complete.
  cbn [cov_observed cov_reported cov_expected cov_not_applicable cov_entries]. rewrite negb_involutive.
  assert (Hz : (∀ o, o ∈ rows → delivered o ∨ excused absent o) ↔ count_of absent MISSING rows = 0%nat).
  { rewrite count_of_zero. apply forall_proper. intros o. unfold classified. destruct (classify_spec absent o) as (H1 & H2 & H3).
    destruct (classify_engine_coverage o absent); tauto || naive_solver. }
  pose proof (count_of_total absent rows) as Ht. split_and!.
  - case_bool_decide; done.
  - rewrite Hz. case_bool_decide as E; [naive_solver|]. split.
    + intros [= Hc%Nat.eqb_eq]. split; [done|lia].
    + intros [_ H]. f_equal. apply Nat.eqb_eq. lia.
  - lia.
  - intros o Ho Hd. apply list_elem_of_fmap. exists o. split; [done|]. apply elem_of_filterb.
    split; [by apply elem_of_sort_by|]. apply negb_true_iff. unfold classified.
    destruct (classify_spec absent o) as (H1 & _). destruct (classify_engine_coverage o absent); [|done..]. naive_solver.
  - rewrite length_map. unfold uncovered. rewrite (sort_by_perm (le_key str_le ob_engine_name) rows).
    apply uncovered_length.
Qed.

(** ** What the window says *)

(** A row as the scoring transaction writes it. *)
Definition row_ok (r : ScanEngineHealthRow) : Prop := ∃ h now, r = health_row h now ∧
  (eh_report_state h = REPORTED ↔ eh_engine_status h ≠ None).

Lemma count_row_total c key r : row_ok r → total (count_row c (_observation key r)) = S (total c).
Proof.
  intros (h & now & -> & Hs). unfold count_row, health_row.
  cbn [_observation ob_report_state ob_engine_status hr_report_state hr_engine_status].
  destruct (eh_report_state h); cbn [report_state_value String.eqb]; [|unfold total; cbn; lia..].
  destruct (eh_engine_status h) as [s|]; [|naive_solver]. cbn [fmap option_fmap option_map].
  assert (E : ∀ l, status_in (Some (status_value s)) l = bool_decide (status_value s ∈ l)) by done.
  destruct s; rewrite !E;
    [do 2 rewrite bool_decide_false by (by_compute); rewrite bool_decide_true by (by_compute)
    |rewrite bool_decide_false by (by_compute); rewrite bool_decide_true by (by_compute)
    |rewrite bool_decide_true by (by_compute)..]; unfold total; cbn; lia.
Qed.

Lemma count_total l : (∀ o, o ∈ l → ∃ key r, o = _observation key r ∧ row_ok r) → total (_count l) = length l.
Proof.
  intros H. assert (Hc : ∀ c, total (foldl count_row c l) = (total c + length l)%nat); [|apply Hc].
  induction l as [|o l IH]; intros c; cbn [foldl length]; [lia|].
  rewrite IH by set_solver. destruct (H o) as (key & r & -> & Hr); [set_solver|]. rewrite count_row_total by done. lia.
Qed.

Lemma elem_of_observations st o : o ∈ observations st ↔ ∃ key r, health st !! key = Some r ∧ o = _observation key r.
Proof.
  unfold observations. rewrite list_elem_of_fmap. split.
  - intros ([key r] & -> & H%elem_of_map_to_list). eauto.
  - intros (key & r & H%elem_of_map_to_list & ->). by exists (key, r).
Qed.

Lemma observations_NoDup st : NoDup ((λ o, (ob_scan_id o, ob_engine_name o)) <$> observations st).
Proof.
  unfold observations. rewrite <-list_fmap_compose.
  rewrite (list_fmap_ext _ fst); [apply NoDup_fst_map_to_list|]. by intros ? [[] ?] _.
Qed.

(** One engine's rows are of distinct scans. *)
Lemma engine_rows_scans obs n :
  NoDup ((λ o, (ob_scan_id o, ob_engine_name o)) <$> obs) →
  NoDup (ob_scan_id <$> base.filter (λ o, ob_engine_name o = n) obs).
Proof.
  induction obs as [|o l IH]; [intros; constructor|]. rewrite fmap_cons, NoDup_cons, filter_cons. intros [Ho Hl].
  case_decide as E; [|auto]. cbn. constructor; [|auto].
  intros (o' & Hs & [Hn Hin]%list_elem_of_filter)%list_elem_of_fmap. apply Ho, list_elem_of_fmap.
  exists o'. split; [congruence|done].
Qed.

Lemma length_scans_le l l' : NoDup (ob_scan_id <$> l) → (∀ o, o ∈ l → o ∈ l') →
  (length l <= size (list_to_set (map ob_scan_id l') : gset string))%nat.
Proof.
  intros Hnd Hsub. rewrite <-(length_map ob_scan_id l), <-(size_list_to_set (C := gset string) (map ob_scan_id l)) by done.
  apply subseteq_size. intros x. rewrite !elem_of_list_to_set, !list_elem_of_fmap. naive_solver.
Qed.

Lemma elem_of_engines obs n e :
  e ∈ hrep_engines (summarize_engine_health obs n) →
  ∃ rows, rows ≡ₚ base.filter (λ o, ob_engine_name o = es_engine_name e) obs ∧ rows ≠ [] ∧ sortedB by_recency rows ∧
    es_observed_scans e = length rows ∧ es_counts e = _count rows ∧ last rows = Some (es_last e).
Proof.
  cbn [summarize_engine_health hrep_engines]. intros (name & _ & He)%list_elem_of_omap.
  set (rows := base.filter _ _) in He. unfold summary_of in He.
  destruct (last rows) as [r|] eqn:El; [|done]. cbn in He. injection He as <-. cbn. exists rows.
  split; [unfold rows; by rewrite sort_by_perm|]. split; [by intros E; rewrite E in El|].
  split; [|done]. apply sortedB_filter, sort_by_sorted. unfold by_recency. apply _.
Qed.

Lemma recent_scans_length obs limit : (length (recent_scans obs limit) <= Z.to_nat limit)%nat.
Proof. apply firstn_le_length. Qed.

Lemma load_recent_spec n st :
  load_recent_engine_health n st =
  summarize_engine_health
    (base.filter (λ o, ob_scan_id o ∈ recent_scans (observations st) (clamp_window_scans n)) (observations st))
    (clamp_window_scans n).
Proof.
  unfold load_recent_engine_health. destruct (recent_scans _ _) as [|x l]; [|done].
  f_equal. symmetry. induction (observations st) as [|o l IH]; [done|].
  rewrite filter_cons, decide_False; [done|apply not_elem_of_nil].
Qed.

(** The health window is bounded and accounts for itself, whatever is asked for. *)
Lemma window_is_exact n st :
  (∀ key r, health st !! key = Some r → row_ok r) →
  let report := load_recent_engine_health n st in
  ew_requested_scans (hrep_window report) = Z.max 1 (Z.min n 200) ∧
  Z.of_nat (ew_observed_scans (hrep_window report)) <= Z.max 1 (Z.min n 200) ∧
  ∀ e, e ∈ hrep_engines report →
    (1 <= es_observed_scans e <= ew_observed_scans (hrep_window report))%nat ∧
    total (es_counts e) = es_observed_scans e ∧
    ob_engine_name (es_last e) = es_engine_name e.
Proof.
  intros Hok report. subst report. rewrite load_recent_spec.
  set (ids := recent_scans (observations st) (clamp_window_scans n)).
  set (obs := base.filter _ (observations st)).
  assert (Hscans : (ew_observed_scans (hrep_window (summarize_engine_health obs (clamp_window_scans n))) =
    size (list_to_set (map ob_scan_id obs) : gset string))).
  { cbn. f_equal. apply set_eq. intros x. rewrite !elem_of_list_to_set, !list_elem_of_fmap. by setoid_rewrite elem_of_sort_by. }
  rewrite Hscans. split; [done|]. split.
  - assert (size (list_to_set (map ob_scan_id obs) : gset string) <= length ids)%nat as Hle.
    { etrans; [|apply size_list_to_set_le]. apply subseteq_size. intros x.
      rewrite !elem_of_list_to_set, list_elem_of_fmap. by intros (o & -> & [? _]%list_elem_of_filter). }
    pose proof (recent_scans_length (observations st) (clamp_window_scans n)) as Hlen. fold ids in Hlen.
    unfold clamp_window_scans, MAX_WINDOW_SCANS in Hlen. lia.
  - intros e (rows & Hp & Hne & _ & -> & -> & Hlast)%elem_of_engines.
    assert (Hin : ∀ o, o ∈ rows → o ∈ obs ∧ ob_engine_name o = es_engine_name e).
    { intros o Ho. rewrite Hp, list_elem_of_filter in Ho. tauto. }
    split_and!.
    + destruct rows; [done|cbn; lia].
    + apply length_scans_le; [|by intros o [??]%Hin]. rewrite Hp.
      by apply engine_rows_scans, NoDup_fmap_filter, observations_NoDup.
    + apply count_total. intros o [[_ Ho]%list_elem_of_filter _]%Hin.
      apply elem_of_observations in Ho as (key & r & Hr & ->). eauto.
    + apply Hin. by apply last_Some_elem_of.
Qed.
