(* ===== verification/Reviews.v ===== *)
(** * Manual review decisions

    [apps/monolith/modules/gate/reviews.py]: a reviewer turns a REVIEW verdict into
    PASS or BLOCK.  [submit_review_decision] reads three modules' tables, decides,
    signs, and writes the verdict row, its outbox event and its audit intent.  The
    verdict row is read without a lock, so the function is split where another
    transaction can come in between: [review_plan] is everything up to the flush,
    [review_commit] the flush and commit.

    Second half: every way gate's tables change (recording a decision, the two
    halves of a review, granting and revoking a waiver, the relay marking an event as
    sent), as a step relation, and what holds in every reachable state. *)

From S2P Require Import Prelude Float64 Models Scoring Gate GateSafety Json Lifecycle Inventory GateService Readback Orchestration.
From Stdlib Require Import QArith.
Open Scope string_scope.
Open Scope list_scope.
Open Scope Z_scope.

Inductive ReviewDecisionError :=
| InvalidDecision
| ScanNotFound
| SodViolation
| VerdictNotFound
| NotPendingReview (verdict : string)
| SupersededReview (state : string)
| no_scan_result
| finding_unreadable (e : UntrustedFindingsError)
| review_duplicate_jti
| verdict_row_gone.

Definition _DECISION_TO_VERDICT (decision : string) : option Verdict :=
  if String.eqb decision "approve" then Some PASS
  else if String.eqb decision "reject" then Some BLOCK else None.

(** The row, event and intent a decided review is about to write. *)
Record ReviewPlan := mkReviewPlan {
  rp_row : VerdictRow;
  rp_event : GateOutboxRow;
  rp_intent : AuditIntent;
}.

Section reviews.
Variable exp64 : Q → Q.
Variable sign_verdict : json → Z → string.
Variable claim_jti : string → string.
Variable validate_finding : json → option FindingDTO.
Context `{coll : Collation}.

(** [inv = None] is a deployment without the inventory module. *)
Definition review_plan (o : OrchStore) (inv : option Store)
    (scan_id decision reviewer reason : string) (policy : GatePolicy) (clock : Z) (st : GateStore)
    : result ReviewDecisionError ReviewPlan :=
  match _DECISION_TO_VERDICT decision with
  | None => Err InvalidDecision
  | Some new_verdict =>
  match jobs o !! scan_id with
  | None => Err ScanNotFound
  | Some job =>
  if String.eqb reviewer (j_submitter job) || is_scan_submitter o scan_id reviewer then Err SodViolation
  else match verdicts st !! scan_id with
  | None => Err VerdictNotFound
  | Some row =>
  if negb (String.eqb (v_verdict row) "REVIEW") then Err (NotPendingReview (v_verdict row))
  else
  let position := inv ≫= λ s, lifecycle_position_for_content s (v_content_hash row) in
  if pending_review_is_superseded position (v_content_hash row)
  then Err (SupersededReview (from_option lp_state "unknown" position))
  else match results o !! scan_id with
  | None => Err no_scan_result
  | Some res =>
  match deserialize_findings validate_finding (sr_row_findings res) with
  | Err e => Err (finding_unreadable e)
  | Ok findings =>
      let name := verdict_name new_verdict in
      let new_score := security_score exp64 new_verdict findings false (category_weights policy) in
      let jws := sign_verdict (verdict_payload (v_content_hash row) name (v_policy_version row)
                                 (v_effective_severity row) new_score) clock in
      let jti := claim_jti jws in
      let new_reasons := v_reasons row ++
        ["manual review by " +:+ reviewer +:+ ": " +:+ decision +:+ " - " +:+ reason] in
      Ok (mkReviewPlan
            (mkVerdictRow scan_id (v_content_hash row) name (v_policy_version row) jti jws
               (v_effective_severity row) new_score new_reasons (v_fail_closed row) clock)
            (verdict_issued_event scan_id (v_content_hash row) name jti jws clock)
            (mkAuditIntent reviewer "review_decided"
               (JObj [("scan_id", JStr scan_id); ("decision", JStr decision);
                      ("new_verdict", JStr name); ("reason", JStr reason)])))
  end end end end end.

(** The flush: an UPDATE by primary key, under the unique index on [jti]. *)
Definition review_commit (plan : ReviewPlan) (st : GateStore) : result ReviewDecisionError GateStore :=
  let row := rp_row plan in
  _ ← guard_err (negb (bool_decide (verdicts st !! v_scan_id row = None))) verdict_row_gone;
  _ ← guard_err (negb (jti_taken st (v_scan_id row) (v_jti row))) review_duplicate_jti;
  Ok (push_intent (rp_intent plan) (push_outbox (rp_event plan) (set_verdict row st))).

Definition submit_review_decision (o : OrchStore) (inv : option Store)
    (scan_id decision reviewer reason : string) (policy : GatePolicy) (clock : Z) (st : GateStore)
    : result ReviewDecisionError (VerdictRow * GateStore) :=
  plan ← review_plan o inv scan_id decision reviewer reason policy clock st;
  st' ← review_commit plan st;
  Ok (rp_row plan, st').

(** [reviews_router.decide_review]: the HTTP status of each outcome. *)
Definition decide_review (r : result ReviewDecisionError (VerdictRow * GateStore)) : Z :=
  match r with
  | Ok _ => 200
  | Err InvalidDecision => 400
  | Err SodViolation => 403
  | Err ScanNotFound | Err VerdictNotFound => 404
  | Err (NotPendingReview _) | Err (SupersededReview _) => 409
  | Err _ => 500
  end.

(** ** The steps of gate's tables *)

Record GateSystem := mkGateSystem { gs_store : GateStore; gs_plans : list ReviewPlan }.

Definition mark_dispatched (r : GateOutboxRow) : GateOutboxRow :=
  mkGateOutboxRow (ob_aggregate_id r) (ob_event_type r) (ob_payload r) true (ob_created_at r).

Variable to_datetime : pyfloat → option Q.

(** The other modules' tables and the policy may differ at every step.  A plan that
    is never committed (a crash, a rollback) stays in [gs_plans] unused. *)
Inductive gate_step : GateSystem → GateSystem → Prop :=
| gate_decides st ps id sr p t al op now ex clock vr st' :
    decide_and_record exp64 sign_verdict claim_jti id sr p t al op now ex clock st = Ok (vr, st') →
    gate_step (mkGateSystem st ps) (mkGateSystem st' ps)
| review_reads st ps o inv id decision reviewer reason p clock plan :
    review_plan o inv id decision reviewer reason p clock st = Ok plan →
    gate_step (mkGateSystem st ps) (mkGateSystem st (plan :: ps))
| review_writes st ps1 plan ps2 st' :
    review_commit plan st = Ok st' →
    gate_step (mkGateSystem st (ps1 ++ plan :: ps2)) (mkGateSystem st' (ps1 ++ ps2))
| waiver_granted st ps id sty sv rule ex ap rq re row st' :
    grant_allowlist_entry to_datetime id sty sv rule ex ap rq re st = Ok (row, st') →
    gate_step (mkGateSystem st ps) (mkGateSystem st' ps)
| waiver_revoked st ps id actor st' :
    revoke_allowlist_entry id actor st = Ok st' →
    gate_step (mkGateSystem st ps) (mkGateSystem st' ps)
| event_dispatched st ps i :
    gate_step (mkGateSystem st ps)
      (mkGateSystem (mkGateStore (verdicts st) (allowlist_rows st) (alter mark_dispatched i (outbox st))
                       (gate_intents st)) ps).

Definition empty_gate : GateSystem := mkGateSystem (mkGateStore ∅ ∅ [] []) [].
Definition gate_reachable (s : GateSystem) : Prop := rtc gate_step empty_gate s.

(** ** What a written verdict row comes with *)

(** The audit intent [i] names the scan and the verdict of the row [r]. *)
Definition audits (i : AuditIntent) (r : VerdictRow) : Prop :=
  ∃ fields, ai_payload i = JObj (("scan_id", JStr (v_scan_id r)) :: fields) ∧
    ((ai_action i = "verdict_issued" ∧ ("verdict", JStr (v_verdict r)) ∈ fields) ∨
     (ai_action i = "review_decided" ∧ ("new_verdict", JStr (v_verdict r)) ∈ fields)).

(** The row's token signs the row's own columns, and its score is in its verdict's band. *)
Definition row_signed (r : VerdictRow) : Prop :=
  v_jti r = claim_jti (v_jws_signature r) ∧
  v_jws_signature r = sign_verdict
    (verdict_payload (v_content_hash r) (v_verdict r) (v_policy_version r) (v_effective_severity r)
       (v_score r)) (v_issued_at r) ∧
  ∃ v, v_verdict r = verdict_name v ∧ (SCORE_BAND v).1 ≤ v_score r ≤ (SCORE_BAND v).2.

Definition well_recorded (o : GateOutboxRow) (i : AuditIntent) (r : VerdictRow) : Prop :=
  announces o r ∧ audits i r ∧ row_signed r.

Definition write_row (o : GateOutboxRow) (i : AuditIntent) (r : VerdictRow) (st : GateStore) : GateStore :=
  mkGateStore (<[v_scan_id r := r]> (verdicts st)) (allowlist_rows st) (outbox st ++ [o])
    (i :: gate_intents st).

Lemma gate_decide_in_band sr p t al now mc sid :
  let vr := gate_decide exp64 sr p t al now mc sid in
  (SCORE_BAND (vr_verdict vr)).1 ≤ vr_score vr ≤ (SCORE_BAND (vr_verdict vr)).2.
Proof.
  cbn zeta. unfold gate_decide.
  destruct (negb _); [apply security_score_in_band|].
  destruct (negb _); [apply (security_score_in_band exp64 BLOCK)|].
  destruct (evaluate_findings _ _ _) as [[[? ?] ?] ?]. destruct (evaluate_findings _ _ _) as [[[? ?] ?] ?].
  destruct (restore _ _ _ _ _ _ _ _). apply security_score_in_band.
Qed.

Lemma decide_and_record_writes id sr p t al op now ex clock st vr st' :
  decide_and_record exp64 sign_verdict claim_jti id sr p t al op now ex clock st = Ok (vr, st') →
  ∃ row o i, v_scan_id row = id ∧ verdicts st !! id = None ∧ jti_taken st id (v_jti row) = false ∧
  well_recorded o i row ∧ st' = write_row o i row st.
Proof.
  unfold decide_and_record. intros (u1 & H1%guard_err_Ok & H)%bind_Ok.
  apply bind_Ok in H as (u2 & H2%guard_err_Ok & H). apply bool_decide_eq_true in H1.
  apply negb_true_iff in H2. injection H as <- <-.
  eexists _, _, _. split_and!; [..|reflexivity]; [reflexivity|exact H1|exact H2|].
  split; [|split].
  - by split_and!.
  - eexists. split; [reflexivity|]. left. split; [done|]. cbn. set_solver.
  - split; [done|]. split; [done|]. eexists. split; [reflexivity|]. apply gate_decide_in_band.
Qed.

(** What a plan says about the tables it was read from. *)
Lemma review_plan_inv o inv id decision reviewer reason p clock st plan :
  review_plan o inv id decision reviewer reason p clock st = Ok plan →
  ∃ job row res findings v,
    _DECISION_TO_VERDICT decision = Some v ∧ jobs o !! id = Some job ∧
    reviewer ≠ j_submitter job ∧ submitters o !! (id, reviewer) = None ∧
    verdicts st !! id = Some row ∧ v_verdict row = "REVIEW" ∧
    pending_review_is_superseded (inv ≫= λ s, lifecycle_position_for_content s (v_content_hash row))
      (v_content_hash row) = false ∧
    results o !! id = Some res ∧ deserialize_findings validate_finding (sr_row_findings res) = Ok findings ∧
    v_scan_id (rp_row plan) = id ∧ v_content_hash (rp_row plan) = v_content_hash row ∧
    v_policy_version (rp_row plan) = v_policy_version row ∧
    v_effective_severity (rp_row plan) = v_effective_severity row ∧
    v_fail_closed (rp_row plan) = v_fail_closed row ∧
    v_verdict (rp_row plan) = verdict_name v ∧
    v_score (rp_row plan) = security_score exp64 v findings false (category_weights p) ∧
    v_reasons (rp_row plan) = v_reasons row ++
      ["manual review by " +:+ reviewer +:+ ": " +:+ decision +:+ " - " +:+ reason] ∧
    ai_operator (rp_intent plan) = reviewer ∧ well_recorded (rp_event plan) (rp_intent plan) (rp_row plan).
Proof.
  unfold review_plan. destruct (_DECISION_TO_VERDICT decision) as [v|] eqn:Ed; [|done].
  destruct (jobs o !! id) as [job|] eqn:Ej; [|done].
  destruct (_ || _) eqn:Es; [done|]. apply orb_false_iff in Es as [Es1%String.eqb_neq Es2].
  destruct (verdicts st !! id) as [row|] eqn:Ev; [|done].
  destruct (negb _) eqn:Er; [done|]. apply negb_false_iff, String.eqb_eq in Er.
  destruct (pending_review_is_superseded _ _) eqn:Ep; [done|].
  destruct (results o !! id) as [res|] eqn:Eres; [|done].
  destruct (deserialize_findings _ _) as [fs|] eqn:Ef; [|done]. injection 1 as <-.
  exists job, row, res, fs, v. split_and!; try done.
  { destruct (submitters o !! _) eqn:E; [|done]. apply not_true_iff_false in Es2. destruct Es2.
    apply is_scan_submitter_iff. exists reviewer. by rewrite E. }
  split; [by split_and!|]. split.
  - eexists. split; [reflexivity|]. right. split; [done|]. cbn. set_solver.
  - split; [done|]. split; [done|]. exists v. split; [done|]. apply security_score_in_band.
Qed.

(** The audit intent an approval leaves. *)
Definition approval (scan_id reviewer reason : string) : AuditIntent :=
  mkAuditIntent reviewer "review_decided"
    (JObj [("scan_id", JStr scan_id); ("decision", JStr "approve"); ("new_verdict", JStr "PASS"); ("reason", JStr reason)]).

Lemma review_plan_approves o inv id decision reviewer reason p clock st plan :
  review_plan o inv id decision reviewer reason p clock st = Ok plan →
  v_verdict (rp_row plan) = "PASS" → rp_intent plan = approval id reviewer reason.
Proof.
  unfold review_plan, _DECISION_TO_VERDICT. destruct (String.eqb_spec decision "approve") as [->|_].
  - destruct (jobs o !! id); [|done]. destruct (_ || _); [done|]. destruct (verdicts st !! id); [|done].
    destruct (negb _); [done|]. destruct (pending_review_is_superseded _ _); [done|].
    destruct (results o !! id); [|done]. destruct (deserialize_findings _ _); [|done]. by intros [= <-] _.
  - destruct (String.eqb_spec decision "reject"); [|done].
    destruct (jobs o !! id); [|done]. destruct (_ || _); [done|]. destruct (verdicts st !! id); [|done].
    destruct (negb _); [done|]. destruct (pending_review_is_superseded _ _); [done|].
    destruct (results o !! id); [|done]. destruct (deserialize_findings _ _); [|done]. by intros [= <-].
Qed.

Lemma review_commit_inv plan st st' :
  review_commit plan st = Ok st' →
  jti_taken st (v_scan_id (rp_row plan)) (v_jti (rp_row plan)) = false ∧
  st' = write_row (rp_event plan) (rp_intent plan) (rp_row plan) st.
Proof. unfold review_commit. intros H. ok_inv. bool_prop. done. Qed.

(** C9: Separation of duties.  A review decision that goes through was made by someone
    who is neither the scan's first submitter nor any co-submitter, on a verdict that
    was REVIEW and whose content the skill has not moved past.  It changes that one
    verdict row to PASS (approve) or BLOCK (reject), keeps the hash, policy version,
    severity and earlier reasons, scores the stored findings afresh in the new
    verdict's band, signs exactly the new columns, and writes the outbox event and
    the audit intent naming the reviewer in the same commit. *)
Theorem review_separation_of_duties o inv id decision reviewer reason p clock st row' st' :
  submit_review_decision o inv id decision reviewer reason p clock st = Ok (row', st') →
  ∃ job row res findings v,
    jobs o !! id = Some job ∧ reviewer ≠ j_submitter job ∧ submitters o !! (id, reviewer) = None ∧
    verdicts st !! id = Some row ∧ v_verdict row = "REVIEW" ∧
    pending_review_is_superseded (inv ≫= λ s, lifecycle_position_for_content s (v_content_hash row))
      (v_content_hash row) = false ∧
    ((decision = "approve" ∧ v = PASS) ∨ (decision = "reject" ∧ v = BLOCK)) ∧
    results o !! id = Some res ∧ deserialize_findings validate_finding (sr_row_findings res) = Ok findings ∧
    v_verdict row' = verdict_name v ∧ v_content_hash row' = v_content_hash row ∧
    v_policy_version row' = v_policy_version row ∧
    v_effective_severity row' = v_effective_severity row ∧ v_reasons row `prefix_of` v_reasons row' ∧
    v_score row' = security_score exp64 v findings false (category_weights p) ∧ row_signed row' ∧
    (∀ id', id' ≠ id → verdicts st' !! id' = verdicts st !! id') ∧ verdicts st' !! id = Some row' ∧
    allowlist_rows st' = allowlist_rows st ∧
    ∃ e i, outbox st' = outbox st ++ [e] ∧ announces e row' ∧ gate_intents st' = i :: gate_intents st ∧
           ai_operator i = reviewer ∧ audits i row'.
Proof.
  unfold submit_review_decision. intros (plan & Hp & H)%bind_Ok.
  apply bind_Ok in H as (st1 & Hc & [= <- <-]).
  apply review_plan_inv in Hp as (job & row & res & fs & v & Hd & Hj & Hs1 & Hs2 & Hr & Hv & Hpos & Hres
    & Hfs & Hid & Hch & Hpv & Hsev & _ & Hverd & Hsc & Hreas & Hop & (Ha & Hau & Hsg)).
  apply review_commit_inv in Hc as [_ ->].
  exists job, row, res, fs, v. split_and!; try done.
  - unfold _DECISION_TO_VERDICT in Hd. destruct (String.eqb decision "approve") eqn:E1; str_prop.
    + left. by simplify_eq.
    + destruct (String.eqb decision "reject") eqn:E2; str_prop; [right; by simplify_eq|done].
  - rewrite Hreas. by apply prefix_app_r.
  - intros id' Hne. cbn. by rewrite Hid, lookup_insert_ne.
  - cbn. by rewrite Hid, lookup_insert_eq.
  - by exists (rp_event plan), (rp_intent plan).
Qed.

(** ** Every reachable state of gate's tables *)

Record gate_ok (s : GateSystem) : Prop := {
  go_rows : ∀ id r, verdicts (gs_store s) !! id = Some r → v_scan_id r = id ∧
    ∃ o i, o ∈ outbox (gs_store s) ∧ i ∈ gate_intents (gs_store s) ∧ well_recorded o i r;
  go_jti : ∀ id1 id2 r1 r2, verdicts (gs_store s) !! id1 = Some r1 →
    verdicts (gs_store s) !! id2 = Some r2 → v_jti r1 = v_jti r2 → id1 = id2;
  go_waivers : ∀ id r, allowlist_rows (gs_store s) !! id = Some r → waiver_row_ok r;
  go_plans : ∀ plan, plan ∈ gs_plans s → well_recorded (rp_event plan) (rp_intent plan) (rp_row plan);
}.

Lemma jti_not_taken st id jti id' r :
  jti_taken st id jti = false → verdicts st !! id' = Some r → v_jti r = jti → id' = id.
Proof.
  unfold jti_taken. intros Hj Hr <-. destruct (decide (id' = id)) as [|Hne]; [done|].
  apply not_true_iff_false in Hj. destruct Hj. apply existsb_true. exists (id', r).
  split; [by apply elem_of_map_to_list|]. cbn.
  apply String.eqb_neq in Hne. by rewrite Hne, String.eqb_refl.
Qed.

Lemma write_row_ok o i r st ps ps' :
  gate_ok (mkGateSystem st ps) → well_recorded o i r → jti_taken st (v_scan_id r) (v_jti r) = false →
  ps' ⊆ ps → gate_ok (mkGateSystem (write_row o i r st) ps').
Proof.
  intros [Hrows Hjti Hw Hp] Hr Hj Hps. cbn in *. split; cbn.
  - intros id r0 [[<- <-]|[Hne H0]]%lookup_insert_Some.
    + split; [done|]. exists o, i. split_and!; [set_solver|set_solver|done].
    + destruct (Hrows _ _ H0) as (? & o0 & i0 & ? & ? & ?). split; [done|].
      exists o0, i0. split_and!; [set_solver|set_solver|done].
  - intros id1 id2 r1 r2 [[<- <-]|[Hn1 H1]]%lookup_insert_Some [[<- <-]|[Hn2 H2]]%lookup_insert_Some E;
      [done|..|by eapply Hjti].
    + symmetry. by eapply jti_not_taken.
    + by eapply jti_not_taken.
  - done.
  - intros plan Hin. apply Hp. by apply Hps.
Qed.

Lemma announces_dispatched o r : announces o r → announces (mark_dispatched o) r.
Proof. done. Qed.

Lemma gate_step_ok s s' : gate_step s s' → gate_ok s → gate_ok s'.
Proof.
  intros Hs Hok. destruct Hs as [st ps id sr p t al op now ex clock vr st' H
    |st ps o inv id decision reviewer reason p clock plan H|st ps1 plan ps2 st' H
    |st ps id sty sv rule ex ap rq re row st' H|st ps id actor st' H|st ps i].
  - apply decide_and_record_writes in H as (row & o & i & <- & _ & Hj & Hw & ->).
    by eapply write_row_ok.
  - apply review_plan_inv in H as (? & ? & ? & ? & ? & H). destruct Hok as [H1 H2 H3 H4]. split; try done.
    cbn in *. intros plan' [->|?]%elem_of_cons; [|by apply H4]. apply H.
  - apply review_commit_inv in H as [Hj ->]. eapply write_row_ok; [exact Hok| |done|].
    + apply (go_plans _ Hok). cbn. set_solver.
    + set_solver.
  - apply grant_allowlist_entry_inv in H as (Hw & i & _ & ->). destruct Hok as [H1 H2 H3 H4].
    split; cbn in *; try done.
    + intros id0 r0 H0. destruct (H1 _ _ H0) as (? & o0 & i0 & ? & ? & ?). split; [done|].
      exists o0, i0. split_and!; [done|set_solver|done].
    + intros id0 r0 [[<- <-]|[? ?]]%lookup_insert_Some; [done|by eapply H3].
  - apply revoke_allowlist_entry_inv in H as (i & ->). destruct Hok as [H1 H2 H3 H4].
    split; cbn in *; try done.
    + intros id0 r0 H0. destruct (H1 _ _ H0) as (? & o0 & i0 & ? & ? & ?). split; [done|].
      exists o0, i0. split_and!; [done|set_solver|done].
    + intros id0 r0 [? ?]%lookup_delete_Some. by eapply H3.
  - destruct Hok as [H1 H2 H3 H4]. split; cbn in *; try done.
    intros id0 r0 H0. destruct (H1 _ _ H0) as (? & o0 & i0 & Ho & ? & Hw & ?). split; [done|].
    apply list_elem_of_lookup in Ho as [k Hk].
    exists (if decide (k = i) then mark_dispatched o0 else o0), i0. split_and!; [|done|].
    + apply list_elem_of_lookup. exists k. destruct (decide (k = i)) as [->|Hne].
      * by rewrite list_lookup_alter_eq, Hk.
      * by rewrite list_lookup_alter_ne.
    + split; [|done]. by destruct (decide (k = i)).
Qed.

Lemma gate_reachable_ok s : gate_reachable s → gate_ok s.
Proof.
  apply (rtc_ind_r gate_ok).
  - split; cbn; intros *; rewrite ?lookup_empty; try done. by intros ?%elem_of_nil.
  - intros s1 s2 _ Hs. by apply gate_step_ok.
Qed.

(** C10: INV-12 for gate's tables.  In every reachable state, also with reviews racing
    each other and the relay at work, each recorded verdict has an outbox event that
    announces exactly its scan, hash, verdict and token, has an audit intent that
    names its scan and verdict, carries a token that signs the row's own columns, and
    scores inside its verdict's band; and no two scans share a token id. *)
Theorem recorded_verdicts_are_announced s id r :
  gate_reachable s → verdicts (gs_store s) !! id = Some r →
  v_scan_id r = id ∧ row_signed r ∧ (∃ o, o ∈ outbox (gs_store s) ∧ announces o r) ∧
  (∃ i, i ∈ gate_intents (gs_store s) ∧ audits i r) ∧
  (∀ id' r', verdicts (gs_store s) !! id' = Some r' → v_jti r' = v_jti r → id' = id).
Proof.
  intros Hs Hr. apply gate_reachable_ok in Hs as [H1 H2 _ _].
  destruct (H1 _ _ Hr) as (? & o & i & ? & ? & ? & ? & ?). split_and!; eauto.
Qed.

(** INV-8, four eyes.  In every reachable state and at any time, loading the active
    waivers never raises, and yields one entry per unexpired row, with that row's rule
    and scope, approved by someone other than the person who asked for it. *)
Theorem active_waivers_have_four_eyes s now :
  gate_reachable s → qle 0 now = true →
  ∃ es, list_active_allowlist_entries (gs_store s) now = Ok es ∧
  Forall2 (λ r e, ae_rule_id e = al_rule_id r ∧ ae_scope_type e = al_scope_type r ∧
                  ae_scope_value e = al_scope_value r ∧ ae_approved_by e ≠ ae_requested_by e ∧
                  fle (ae_expires_at e) (Fin now) = false)
    (list_active_allowlist_rows (gs_store s) now) es.
Proof.
  intros Hs Hnow. apply gate_reachable_ok in Hs as [_ _ H3 _].
  apply sequence_entries_ok; [done|]. unfold list_active_allowlist_rows.
  intros r [Hx Hin]%list_elem_of_filter. split; [|done].
  apply list_elem_of_fmap in Hin as ([id r'] & -> & Hin%elem_of_map_to_list). by eapply H3.
Qed.

Definition settled (id : string) (r : VerdictRow) (s : GateSystem) : Prop :=
  verdicts (gs_store s) !! id = Some r ∧ ∀ plan, plan ∈ gs_plans s → v_scan_id (rp_row plan) ≠ id.

(** A PASS or BLOCK is final: once a scan's verdict is not REVIEW and no review of
    it is in flight, nothing that happens to gate's tables changes its row again. *)
Theorem settled_verdicts_are_final s s' id r :
  rtc gate_step s s' → v_verdict r ≠ "REVIEW" → settled id r s → settled id r s'.
Proof.
  intros Hs Hv. induction Hs as [|s1 s2 s3 H12 _ IH]; [done|]. intros [Hr Hp]. apply IH. clear IH.
  destruct H12 as [st ps id' sr p t al op now ex clock vr st' H
    |st ps o inv id' decision reviewer reason p clock plan H|st ps1 plan ps2 st' H
    |st ps id' sty sv rule ex ap rq re row st' H|st ps id' actor st' H|st ps i]; cbn in *.
  - apply decide_and_record_writes in H as (row & o & i & <- & Hn & _ & _ & ->).
    split; [|done]. cbn. rewrite lookup_insert_ne; [done|]. congruence.
  - apply review_plan_inv in H as (? & row & ? & ? & ? & _ & _ & _ & _ & Hrow & Hrev & _ & _ & _ & Hid & _).
    split; [done|]. cbn. intros plan' [->|?]%elem_of_cons; [|by apply Hp]. congruence.
  - apply review_commit_inv in H as [_ ->]. split; cbn.
    + rewrite lookup_insert_ne; [done|]. apply Hp. set_solver.
    + intros plan' ?. apply Hp. set_solver.
  - by apply grant_allowlist_entry_inv in H as (_ & i & _ & ->).
  - by apply revoke_allowlist_entry_inv in H as (i & ->).
  - done.
Qed.
End reviews.

(** ** A scan under review *)

Module ReviewSamples.
Import Samples.

(** A collation that compares byte by byte. *)
#[local] Instance bytewise : Collation := λ s, s.

Definition sign (payload : json) (clock : Z) : string := "jws".
Definition jti (jws : string) : string := jws.
Definition exact (e : pyfloat) : option Q := match e with Fin q => Some q | _ => None end.
Definition no_findings (d : json) : option FindingDTO := None.

(** A HIGH finding at the internal tier: REVIEW. *)
Definition worrying : ScanResult :=
  scanned [engine "floor" OK [finding "net" HIGH (9#10) false ∅ None]] 10.

Definition store_of (r : result GateServiceError (VerdictResult * GateStore)) : GateStore :=
  match r with Ok (_, st) => st | Err _ => mkGateStore ∅ ∅ [] [] end.

Definition issue : result GateServiceError (VerdictResult * GateStore) :=
  decide_and_record exp_step sign jti "s" worrying policy INTERNAL [] "op" 0 [] 1
    (gs_store empty_gate).
Definition reviewing : GateStore := store_of issue.

(** alice submitted the scan; bob and carol may review it. *)
Definition orch0 : OrchStore :=
  mkOrchStore
    {["s" := mkScanJob "h" "t" "k" STATE_DECIDED "alice" 0 None None (Some "internal")]}
    {[("s", "alice") := mkScanSubmitterRow (Some "console") (Some "internal")]}
    {["s" := mkScanResultRow "h" 3 (9#10) false false (Some 1) true [] [] []]} ∅.

Definition plan_of (decision reviewer : string) (clock : Z) : result ReviewDecisionError ReviewPlan :=
  review_plan exp_step sign jti no_findings orch0 None "s" decision reviewer "looked" policy clock
    reviewing.

Definition outcome_of (decision reviewer : string) : result ReviewDecisionError (VerdictRow * GateStore) :=
  submit_review_decision exp_step sign jti no_findings orch0 None "s" decision reviewer "looked" policy 2
    reviewing.

Definition verdict_in (st : GateStore) : option string := v_verdict <$> verdicts st !! "s".

Example review_outcomes :
  verdict_in reviewing = Some "REVIEW" ∧
  decide_review (outcome_of "approve" "alice") = 403 ∧ decide_review (outcome_of "approve" "bob") = 200 ∧
  decide_review (outcome_of "defer" "bob") = 400.
Proof. vm_compute. tauto. Qed.

Definition approved : result ReviewDecisionError (VerdictRow * GateStore) := outcome_of "approve" "bob".

Lemma review_separation_of_duties_witness :
  verdict_in reviewing = Some "REVIEW" ∧
  match approved with Ok (_, st') => verdict_in st' = Some "PASS" | Err _ => False end.
Proof.
  destruct approved as [[row' st']|] eqn:E; [|by vm_compute in E].
  destruct (review_separation_of_duties exp_step sign jti no_findings orch0 None "s" "approve" "bob"
    "looked" policy 2 reviewing row' st' E) as (job & row & res & fs & v & _ & _ & _ & Hr & Hv & _ & Hd
    & _ & _ & Hv' & _ & _ & _ & _ & _ & _ & _ & Hr' & _).
  unfold verdict_in. rewrite Hr, Hr'. cbn. rewrite Hv, Hv'. split; [done|].
  by destruct Hd as [[_ ->]|[[=] _]].
Defined.

Lemma reviewing_reachable :
  gate_reachable exp_step sign jti no_findings exact (mkGateSystem reviewing []).
Proof.
  apply rtc_once. destruct issue as [[vr st]|] eqn:E; [|by vm_compute in E].
  unfold reviewing. rewrite E. by eapply gate_decides.
Qed.

Lemma recorded_verdicts_are_announced_witness :
  ∃ r, verdicts reviewing !! "s" = Some r ∧ row_signed sign jti r.
Proof.
  destruct (verdicts reviewing !! "s") as [r|] eqn:E; [|by vm_compute in E]. exists r. split; [done|].
  apply (recorded_verdicts_are_announced exp_step sign jti no_findings exact _ "s" r
           reviewing_reachable E).
Defined.

Definition granted : result GateServiceError (AllowlistRow * GateStore) :=
  grant_allowlist_entry exact "w" "rule_global" "" "net" (Fin 100) "ann" "bob" "" reviewing.
Definition with_waiver : GateStore := match granted with Ok (_, st) => st | Err _ => reviewing end.

Lemma active_waivers_have_four_eyes_witness :
  ∃ es, list_active_allowlist_entries with_waiver 5 = Ok es ∧ length es = 1%nat.
Proof.
  assert (Hr : gate_reachable exp_step sign jti no_findings exact (mkGateSystem with_waiver [])).
  { eapply rtc_r; [apply reviewing_reachable|].
    destruct granted as [[row st]|] eqn:E; [|by vm_compute in E].
    unfold with_waiver. rewrite E. by eapply waiver_granted. }
  destruct (active_waivers_have_four_eyes exp_step sign jti no_findings exact _ 5 Hr eq_refl)
    as (es & E & HF).
  exists es. split; [exact E|]. rewrite <-(Forall2_length _ _ _ HF). vm_compute. reflexivity.
Defined.

Definition plan_or (r : result ReviewDecisionError ReviewPlan) : ReviewPlan :=
  match r with Ok p => p | Err _ => mkReviewPlan (mkVerdictRow "" "" "" "" "" "" 0 0 [] false 0)
    (mkGateOutboxRow "" "" JNull false 0) (mkAuditIntent "" "" JNull) end.
Definition approval : ReviewPlan := plan_or (plan_of "approve" "bob" 2).
Definition rejection : ReviewPlan := plan_or (plan_of "reject" "carol" 3).

Definition after (plan : ReviewPlan) (st : GateStore) : GateStore :=
  match review_commit plan st with Ok st' => st' | Err _ => st end.
Definition rejected : GateStore := after rejection reviewing.
Definition overwritten : GateStore := after approval rejected.

(** The relay has sent the first event. *)
Definition first_sent (st : GateStore) : GateStore :=
  mkGateStore (verdicts st) (allowlist_rows st) (alter mark_dispatched 0%nat (outbox st)) (gate_intents st).

Lemma settled_verdicts_are_final_witness :
  ∃ r, settled "s" r (mkGateSystem (first_sent rejected) []).
Proof.
  destruct (verdicts rejected !! "s") as [r|] eqn:E; [|by vm_compute in E]. exists r.
  eapply (settled_verdicts_are_final exp_step sign jti no_findings exact (mkGateSystem rejected [])
            (mkGateSystem (first_sent rejected) []) "s" r).
  - apply rtc_once, event_dispatched.
  - vm_compute in E. injection E as <-. discriminate.
  - split; [exact E|]. cbn [gs_plans]. intros plan H. destruct (not_elem_of_nil _ H).
Defined.

(** The review's check and its write can be separated by another review of the same
    scan, since the verdict row is read without a lock: two reviewers both see REVIEW,
    carol's rejection commits, and bob's approval then commits over it.  The state
    where the verdict is BLOCK and the one where it is PASS are both reachable, in
    that order, and both verdicts were announced. *)
Theorem rejection_can_be_overwritten :
  ∃ s1 s2, gate_reachable exp_step sign jti no_findings exact s1 ∧
    gate_step exp_step sign jti no_findings exact s1 s2 ∧
    verdict_in (gs_store s1) = Some "BLOCK" ∧ verdict_in (gs_store s2) = Some "PASS" ∧
    map ob_aggregate_id (outbox (gs_store s2)) = ["s"; "s"; "s"].
Proof.
  assert (Ha : plan_of "approve" "bob" 2 = Ok approval) by (vm_compute; reflexivity).
  assert (Hr : plan_of "reject" "carol" 3 = Ok rejection) by (vm_compute; reflexivity).
  assert (Hc1 : review_commit rejection reviewing = Ok rejected) by (vm_compute; reflexivity).
  assert (Hc2 : review_commit approval rejected = Ok overwritten) by (vm_compute; reflexivity).
  exists (mkGateSystem rejected [approval]), (mkGateSystem overwritten []). split_and!.
  - eapply rtc_r; [|exact (review_writes _ _ _ _ _ reviewing [] rejection [approval] rejected Hc1)].
    eapply rtc_r; [|exact (review_reads _ _ _ _ _ reviewing [approval] orch0 None "s" "reject" "carol"
                             "looked" policy 3 rejection Hr)].
    eapply rtc_r; [|exact (review_reads _ _ _ _ _ reviewing [] orch0 None "s" "approve" "bob"
                             "looked" policy 2 approval Ha)].
    apply reviewing_reachable.
  - exact (review_writes _ _ _ _ _ rejected [] approval [] overwritten Hc2).
  - vm_compute. reflexivity.
  - vm_compute. reflexivity.
  - vm_compute. reflexivity.
Qed.
End ReviewSamples.
