(* ===== verification/Worker.v ===== *)
(** * The lifecycle worker

    [apps/monolith/worker.py], the part that drives the inventory: [sync_lifecycle_tick]
    moves every waiting skill to the state its scan's verdict calls for, advances the
    drift baseline on publish, quarantines a skill that drifted, and
    [advance_scanned_toolchain_digests] records which toolchain re-scanned a version.
    The tick first reads all events and the verdicts they wait for ([pending_moves]),
    then applies one transaction per skill ([apply_move]); other transactions may run
    in between.

    Second half: every way the inventory's tables change, as a step relation in which
    each transaction is one step, and the invariants of the event log. *)

From S2P Require Import Prelude Models Json Lifecycle Inventory GateService Orchestration.
Open Scope string_scope.
Open Scope list_scope.
Open Scope Z_scope.

Definition _WORKER_OPERATOR : string := "system:worker".

Definition _VERDICT_TARGET_STATE (verdict : string) : option string :=
  if String.eqb verdict "PASS" then Some "published"
  else if String.eqb verdict "REVIEW" then Some "review_pending"
  else if String.eqb verdict "BLOCK" then Some "blocked" else None.

Definition _WAITING_STATES : list string := ["scanning"; "review_pending"].

(** A nullable text column that is neither NULL nor empty. *)
Definition truthy (o : option string) : option string :=
  match o with Some s => if String.eqb s "" then None else Some s | None => None end.

(** [drift.check_drift]. *)
Definition check_drift (st : Store) (skill_id content_hash : string) : DriftResult :=
  let baseline_hash := bl_content_hash <$> baselines st !! skill_id in
  mkDriftResult (bool_decide (baselines st !! skill_id ≠ None)) (is_drift baseline_hash content_hash)
    baseline_hash.

Definition _quarantine_if_drifted (skill_id content_hash : string) (now : Z) (st : Store) : Store :=
  let drift := check_drift st skill_id content_hash in
  if negb (has_baseline drift && drifted drift) then st
  else
    match transition_skill skill_id "quarantined"
            ("drift detected (SUP-05): baseline=" +:+ default "None" (baseline_content_hash drift) +:+
             " != current=" +:+ content_hash)
            _WORKER_OPERATOR (Some content_hash) None now st with
    | Ok st' => st'
    | Err _ => st
    end.

(** ** [sync_lifecycle_tick] *)

(** The newest event of each skill, in the order a newest-first scan meets them. *)
Fixpoint latest_by_skill (evs : list SkillLifecycleEventRow) : list SkillLifecycleEventRow :=
  match evs with
  | [] => []
  | e :: evs' => e :: base.filter (λ e', ev_skill_id e' ≠ ev_skill_id e) (latest_by_skill evs')
  end.

Definition waiting (e : SkillLifecycleEventRow) : bool :=
  bool_decide (ev_to_state e ∈ _WAITING_STATES) && bool_decide (truthy (ev_content_hash e) ≠ None).

Definition pending (evs : list SkillLifecycleEventRow) : list SkillLifecycleEventRow :=
  base.filter (λ e, waiting e = true) (latest_by_skill evs).

(** [verdict_by_scan] and [legacy_candidates] as read through gate's session. *)
Definition verdict_by_scan (g : GateStore) (scan_id : string) : option string :=
  v_verdict <$> verdicts g !! scan_id.

Definition legacy_candidates (g : GateStore) (evs : list SkillLifecycleEventRow) : list VerdictRow :=
  let legacy_hashes := base.filter (λ o, o ≠ None)
    (map ev_content_hash (base.filter (λ e, truthy (ev_scan_id e) = None) evs)) in
  sort_by newest_first
    (base.filter (λ v, Some (v_content_hash v) ∈ legacy_hashes) (map_to_list (verdicts g)).*2).

Definition _resolve_event_verdict (event : SkillLifecycleEventRow) (by_scan : string → option string)
    (legacy : list VerdictRow) : option string :=
  match truthy (ev_scan_id event) with
  | Some scan_id => by_scan scan_id
  | None =>
      (λ p, v_verdict p.2) <$>
        list_find (λ v, Some (v_content_hash v) = ev_content_hash event ∧
                        ev_occurred_at event <= v_issued_at v) legacy
  end.

(** One transition the tick has decided on: the event it saw, the verdict, the target. *)
Record Move := mkMove { mv_event : SkillLifecycleEventRow; mv_verdict : string; mv_target : string }.

Definition move_of (by_scan : string → option string) (legacy : list VerdictRow)
    (event : SkillLifecycleEventRow) : option Move :=
  verdict ← _resolve_event_verdict event by_scan legacy;
  target ← _VERDICT_TARGET_STATE verdict;
  if String.eqb target (ev_to_state event) then None else Some (mkMove event verdict target).

(** The reads of the tick: the waiting skills, and the verdicts they wait for. *)
Definition pending_moves (st : Store) (g : GateStore) : list Move :=
  let p := pending (events st) in
  omap (move_of (verdict_by_scan g) (legacy_candidates g p)) p.

(** The transaction of one move; [Err] is a logged, skipped transition. *)
Definition apply_move (m : Move) (now : Z) (st : Store) : result InventoryError Store :=
  let e := mv_event m in
  let skill_id := ev_skill_id e in
  let content_hash := default "" (ev_content_hash e) in
  let st1 := if String.eqb (mv_target m) "published"
             then (advance_baseline_on_publish skill_id content_hash _WORKER_OPERATOR now st).2 else st in
  transition_skill skill_id (mv_target m) ("verdict " +:+ mv_verdict m) _WORKER_OPERATOR
    (Some content_hash) (truthy (ev_scan_id e)) now st1.

Fixpoint apply_moves (ms : list Move) (now : Z) (st : Store) : Store * nat :=
  match ms with
  | [] => (st, 0%nat)
  | m :: ms' =>
      match apply_move m now st with
      | Err _ => apply_moves ms' now st
      | Ok st1 =>
          let st2 := if String.eqb (mv_target m) "published"
                     then _quarantine_if_drifted (ev_skill_id (mv_event m))
                            (default "" (ev_content_hash (mv_event m))) now st1
                     else st1 in
          let '(st3, n) := apply_moves ms' now st2 in (st3, S n)
      end
  end.

(** The tick with nothing in between its transactions. *)
Definition sync_lifecycle_tick (now : Z) (g : GateStore) (st : Store) : Store * nat :=
  apply_moves (pending_moves st g) now st.

(** ** [advance_scanned_toolchain_digests] *)

(** The contents whose newest decided scans under [current_digest] left a verdict. *)
Definition confirmed_hashes (o : OrchStore) (g : GateStore) (st : Store) (current_digest : string)
    (limit : nat) : list string :=
  let decided := take limit
    (sort_by (λ a b, j_created_at b.2 <=? j_created_at a.2)
       (base.filter (λ kv : string * ScanJob,
          j_toolchain_digest kv.2 = current_digest ∧ j_state kv.2 = STATE_DECIDED)
          (map_to_list (jobs o)))) in
  let stale h := match versions st !! h with
                 | Some v => negb (String.eqb (sv_toolchain_digest v) current_digest)
                 | None => false
                 end in
  let checked := base.filter (λ kv : string * ScanJob, stale (j_content_hash kv.2) = true ∧
    v_content_hash <$> verdicts g !! kv.1 = Some (j_content_hash kv.2)) decided in
  map (λ kv, j_content_hash kv.2) checked.

Definition set_digest (current_digest : string) (v : SkillVersionRow) : SkillVersionRow :=
  mkSkillVersionRow (sv_skill_id v) current_digest (sv_declared_perms v) (sv_created_at v).

(** The final UPDATE. *)
Definition update_digests (confirmed : list string) (current_digest : string) (st : Store) : Store :=
  set_versions (λ vs, foldr (λ h m, alter (set_digest current_digest) h m) vs confirmed) st.

Definition advance_scanned_toolchain_digests (o : OrchStore) (g : GateStore) (current_digest : string)
    (limit : nat) (st : Store) : Store :=
  update_digests (confirmed_hashes o g st current_digest limit) current_digest st.

(** ** What a recorded transition writes *)

Definition intent_of (e : SkillLifecycleEventRow) : AuditIntent :=
  mkAuditIntent (ev_actor e) "skill_lifecycle_transition"
    (JObj [("skill_id", JStr (ev_skill_id e)); ("content_hash", JOpt (ev_content_hash e));
           ("scan_id", JOpt (ev_scan_id e)); ("from_state", JOpt (ev_from_state e));
           ("to_state", JStr (ev_to_state e)); ("reason", JStr (ev_reason e))]).

Definition record (e : SkillLifecycleEventRow) (st : Store) : Store :=
  add_intent (intent_of e) (add_event e st).

Lemma record_transition_inv k ch from to reason actor sid now st st' :
  _record_transition k ch from to reason actor sid now st = Ok st' ↔
  validate_transition from to = Ok () ∧ st' = record (mkEvent k ch sid from to reason actor now) st.
Proof.
  unfold _record_transition. split.
  - intros ([] & H%lift_err_Ok & [= <-])%bind_Ok. by split.
  - intros [H ->]. by rewrite H.
Qed.

Lemma transition_skill_inv k to reason actor ch sid now st st' :
  transition_skill k to reason actor ch sid now st = Ok st' ↔
  ∃ from, current_state st k = Some from ∧ validate_transition (Some from) to = Ok () ∧
          st' = record (mkEvent k ch sid (Some from) to reason actor now) st.
Proof.
  unfold transition_skill. destruct (current_state st k) as [from|]; [|naive_solver].
  rewrite record_transition_inv. naive_solver.
Qed.

Lemma events_of_record e st k :
  events_of (record e st) k =
  if decide (ev_skill_id e = k) then e :: events_of st k else events_of st k.
Proof.
  unfold events_of. change (events (record e st)) with (e :: events st). rewrite filter_cons. done.
Qed.

(** ** The steps of the inventory's tables *)

Record InvSystem := mkInvSystem {
  is_store : Store;
  is_moves : list Move;                (* decided by a tick, not yet applied *)
  is_drifts : list (string * string);  (* published, drift not yet checked *)
}.

Inductive inv_step : InvSystem → InvSystem → Prop :=
| version_submitted st ms ds k tier ch td perms subject admin sid now st' :
    submit_version k tier ch td perms subject admin sid now st = Ok st' →
    inv_step (mkInvSystem st ms ds) (mkInvSystem st' ms ds)
| admin_quarantines st ms ds k reason subject now st' :
    quarantine_skill k reason subject now st = Ok st' →
    inv_step (mkInvSystem st ms ds) (mkInvSystem st' ms ds)
| admin_retires st ms ds k reason subject now st' :
    retire_skill k reason subject now st = Ok st' →
    inv_step (mkInvSystem st ms ds) (mkInvSystem st' ms ds)
| admin_restores st ms ds k reason subject now st' :
    restore_skill k reason subject now st = Ok st' →
    inv_step (mkInvSystem st ms ds) (mkInvSystem st' ms ds)
| owner_assigned st ms ds k owner reason subject expect prev st' :
    assign_skill_owner k owner reason subject expect st = Ok (prev, st') →
    inv_step (mkInvSystem st ms ds) (mkInvSystem st' ms ds)
| baseline_pinned st ms ds k ch subject now st' :
    set_skill_baseline k ch subject now st = Ok st' →
    inv_step (mkInvSystem st ms ds) (mkInvSystem st' ms ds)
| tick_reads st ms ds g :
    inv_step (mkInvSystem st ms ds) (mkInvSystem st (pending_moves st g ++ ms) ds)
| tick_moves st ms1 m ms2 ds now st' :
    apply_move m now st = Ok st' →
    inv_step (mkInvSystem st (ms1 ++ m :: ms2) ds)
      (mkInvSystem st' (ms1 ++ ms2)
         (if String.eqb (mv_target m) "published"
          then (ev_skill_id (mv_event m), default "" (ev_content_hash (mv_event m))) :: ds else ds))
| tick_skips st ms1 m ms2 ds :
    inv_step (mkInvSystem st (ms1 ++ m :: ms2) ds) (mkInvSystem st (ms1 ++ ms2) ds)
| drift_checked st ms ds1 k ch ds2 now :
    inv_step (mkInvSystem st ms (ds1 ++ (k, ch) :: ds2))
      (mkInvSystem (_quarantine_if_drifted k ch now st) ms (ds1 ++ ds2))
| digests_advanced st ms ds confirmed digest :
    inv_step (mkInvSystem st ms ds) (mkInvSystem (update_digests confirmed digest st) ms ds).

Definition empty_inventory : InvSystem := mkInvSystem empty_store [] [].
Definition inv_reachable (s : InvSystem) : Prop := rtc inv_step empty_inventory s.

(** ** The event log *)

(** One skill's events, newest first: each was validated against the one before. *)
Fixpoint log_ok (l : list SkillLifecycleEventRow) : Prop :=
  match l with
  | [] => True
  | e :: l' => ev_from_state e = ev_to_state <$> head l' ∧
               validate_transition (ev_from_state e) (ev_to_state e) = Ok () ∧ log_ok l'
  end.

Definition history (st : Store) (k : string) : list string := rev (map ev_to_state (events_of st k)).

Definition lifecycle_intents (st : Store) : list AuditIntent :=
  base.filter (λ i, ai_action i = "skill_lifecycle_transition") (intents st).

Record inv_ok (st : Store) : Prop := {
  io_log : ∀ k, log_ok (events_of st k);
  io_audit : lifecycle_intents st = map intent_of (events st);
  io_reg : ∀ k, skills st !! k = None ↔ events_of st k = [];
  io_version : ∀ h v, versions st !! h = Some v → skills st !! sv_skill_id v ≠ None;
}.

Lemma log_ok_path l : log_ok l → valid_path None (rev (map ev_to_state l)) = true.
Proof.
  induction l as [|e l IH]; [done|]. intros (Hf & Hv & Hl). simpl.
  rewrite valid_path_app, (IH Hl). apply valid_path_cons. split; [|done]. rewrite <-Hv, Hf.
  destruct l as [|e' l]; [done|]. simpl. by rewrite last_snoc.
Qed.

(** Two stores that agree on everything a transition of [k] looks at. *)
Lemma record_ok e st :
  (∀ k, log_ok (events_of st k)) → lifecycle_intents st = map intent_of (events st) →
  ev_from_state e = current_state st (ev_skill_id e) →
  validate_transition (ev_from_state e) (ev_to_state e) = Ok () →
  (∀ k, log_ok (events_of (record e st) k)) ∧
  lifecycle_intents (record e st) = map intent_of (events (record e st)).
Proof.
  intros Hl Ha Hf Hv. split.
  - intros k. rewrite events_of_record. case_decide as E; [|done].
    split; [|by split]. by rewrite Hf, E.
  - unfold lifecycle_intents in *.
    change (intents (record e st)) with (intent_of e :: intents st).
    change (events (record e st)) with (e :: events st).
    rewrite filter_cons_True by done. by rewrite Ha.
Qed.

Lemma current_state_None st k : current_state st k = None ↔ events_of st k = [].
Proof. unfold current_state. destruct (events_of st k); simpl; naive_solver. Qed.

Lemma transition_ok k to reason actor ch sid now st st' :
  transition_skill k to reason actor ch sid now st = Ok st' → inv_ok st → inv_ok st'.
Proof.
  intros (from & Hc & Hv & ->)%transition_skill_inv [Hl Ha Hr Hvs].
  destruct (record_ok (mkEvent k ch sid (Some from) to reason actor now) st) as [Hl' Ha']; try done.
  split; try done. intros k'. rewrite events_of_record. cbn. case_decide as E; [|apply Hr].
  subst k'. change (skills (record _ st)) with (skills st). rewrite Hr, <-current_state_None, Hc. done.
Qed.

Lemma register_skill_version_inv k source tier ch td perms op admin scope now st st' :
  register_skill_version k source tier ch td perms op admin scope now st = Ok st' →
  ∃ sk vs e, st' = record e (mkStore sk vs (baselines st) (events st) (intents st)) ∧
    ev_skill_id e = k ∧ ev_content_hash e = Some ch ∧ ev_from_state e = current_state st k ∧
    ev_to_state e = "submitted" ∧ validate_transition (ev_from_state e) "submitted" = Ok () ∧
    match skills st !! k with
    | None => sk = <[k := mkSkillRow source tier scope (Some op) now]> (skills st)
    | Some s => sk = skills st ∧ authorize_skill_write (sk_owner s) op admin = Ok ()
    end ∧
    match versions st !! ch with
    | None => vs = <[ch := mkSkillVersionRow k td perms now]> (versions st)
    | Some v => vs = versions st ∧ sv_skill_id v = k
    end.
Proof.
  unfold register_skill_version. intros (st1 & H1 & H)%bind_Ok. apply bind_Ok in H as (st2 & H2 & H).
  apply record_transition_inv in H as [Hv ->].
  exists (skills st2), (versions st2), (mkEvent k (Some ch) None (current_state st k) "submitted"
    match current_state st k, versions st !! ch with
    | None, _ => "new submission"
    | Some _, Some _ => "resubmission of existing content"
    | Some _, None => "new content for existing skill" end op now).
  assert (E1 : ∃ sk, st1 = mkStore sk (versions st) (baselines st) (events st) (intents st) ∧
    match skills st !! k with
    | None => sk = <[k := mkSkillRow source tier scope (Some op) now]> (skills st)
    | Some s => sk = skills st ∧ authorize_skill_write (sk_owner s) op admin = Ok ()
    end).
  { destruct (skills st !! k) as [s|]; [|injection H1 as <-; by eexists].
    apply bind_Ok in H1 as ([] & Ha%lift_err_Ok & [= <-]). exists (skills st). by destruct st. }
  destruct E1 as (sk & -> & E1).
  destruct (versions st !! ch) as [v|].
  - apply bind_Ok in H2 as ([] & Hg%guard_err_Ok%String.eqb_eq & [= <-]). cbn. by split_and!.
  - injection H2 as <-. cbn. by split_and!.
Qed.

Lemma register_ok k source tier ch td perms op admin scope now st st' :
  register_skill_version k source tier ch td perms op admin scope now st = Ok st' → inv_ok st → inv_ok st'.
Proof.
  intros (sk & vs & e & -> & Hk & _ & Hf & Ht & Hv & Hsk & Hvs)%register_skill_version_inv [Hl Ha Hr Hver].
  assert (Hsk' : ∀ k', sk !! k' = None ↔ k' ≠ k ∧ skills st !! k' = None).
  { intros k'. destruct (skills st !! k) as [s|] eqn:E.
    - destruct Hsk as [-> _]. naive_solver.
    - subst sk. rewrite lookup_insert_None. naive_solver. }
  destruct (record_ok e (mkStore sk vs (baselines st) (events st) (intents st))) as [Hl' Ha']; try done.
  { by rewrite Hf, Hk. } { by rewrite Ht. }
  split; try done.
  - intros k'. rewrite events_of_record. cbn. rewrite Hsk'. case_decide as E; [naive_solver|].
    rewrite Hr. change (events_of _ k') with (events_of st k'). naive_solver.
  - intros h v Hv'. cbn in *. rewrite Hsk'.
    assert (Hc : sv_skill_id v = k ∨ versions st !! h = Some v).
    { destruct (versions st !! ch) as [v0|]; [destruct Hvs as [-> _]; auto|]. subst vs.
      apply lookup_insert_Some in Hv' as [[_ <-]|[_ ?]]; auto. }
    destruct Hc as [->|Hc]; [naive_solver|]. specialize (Hver _ _ Hc). naive_solver.
Qed.

(** The writes that leave the log alone. *)
Lemma quiet_ok st st' :
  events st' = events st → lifecycle_intents st' = lifecycle_intents st →
  (∀ k, skills st' !! k = None ↔ skills st !! k = None) →
  (∀ h v', versions st' !! h = Some v' →
     ∃ v, versions st !! h = Some v ∧ sv_skill_id v = sv_skill_id v') →
  inv_ok st → inv_ok st'.
Proof.
  intros He Hi Hs Hv [Hl Ha Hr Hver].
  assert (Eo : ∀ k, events_of st' k = events_of st k) by (intros; unfold events_of; by rewrite He).
  split.
  - intros k. by rewrite Eo.
  - by rewrite Hi, He.
  - intros k. by rewrite Eo, Hs.
  - intros h v' (v & Hv' & <-)%Hv. rewrite Hs. by eapply Hver.
Qed.

Lemma set_baseline_ok k ch actor now st : inv_ok st → inv_ok (set_baseline k ch actor now st).
Proof. apply quiet_ok; try done. intros h v Hv. by exists v. Qed.

Lemma assign_ok k owner reason actor expect st prev st' :
  assign_skill_owner k owner reason actor expect st = Ok (prev, st') → inv_ok st → inv_ok st'.
Proof.
  unfold assign_skill_owner. destruct (skills st !! k) as [s|] eqn:E; [|done].
  intros (n & _ & [= _ <-])%bind_Ok. apply quiet_ok; try done; [|by intros h v Hv; exists v].
  intros k'. cbn. rewrite lookup_insert_None. destruct (decide (k' = k)); naive_solver.
Qed.

Lemma update_digests_lookup confirmed digest st h v' :
  versions (update_digests confirmed digest st) !! h = Some v' →
  ∃ v, versions st !! h = Some v ∧ sv_skill_id v = sv_skill_id v'.
Proof.
  cbn. revert v'. induction confirmed as [|c cs IH]; intros v' H; cbn in H; [by exists v'|].
  rewrite lookup_alter in H. case_decide as E; [subst c|by apply IH].
  destruct (foldr _ _ _ !! h) as [v1|] eqn:E1; [|done]. injection H as <-.
  destruct (IH _ eq_refl) as (v & ? & ?). by exists v.
Qed.

Lemma quarantine_if_drifted_ok k ch now st : inv_ok st → inv_ok (_quarantine_if_drifted k ch now st).
Proof.
  intros Hok. unfold _quarantine_if_drifted. destruct (negb _); [done|].
  destruct (transition_skill _ _ _ _ _ _ _ _) as [st'|] eqn:E; [|done]. by eapply transition_ok.
Qed.

Lemma apply_move_ok m now st st' : apply_move m now st = Ok st' → inv_ok st → inv_ok st'.
Proof.
  intros H Hok. unfold apply_move in H. eapply transition_ok; [exact H|].
  destruct (String.eqb _ _); [|done]. unfold advance_baseline_on_publish.
  destruct (baselines st !! _) as [b|]; [|by apply set_baseline_ok].
  destruct (String.eqb _ _); [done|]. case_bool_decide; [by apply set_baseline_ok|done].
Qed.

Lemma inv_step_ok s s' : inv_step s s' → inv_ok (is_store s) → inv_ok (is_store s').
Proof.
  destruct 1 as [st ms ds k tier ch td perms subject admin sid now st' H|st ms ds k reason subject now st' H
    |st ms ds k reason subject now st' H|st ms ds k reason subject now st' H
    |st ms ds k owner reason subject expect prev st' H|st ms ds k ch subject now st' H| | 
    |st ms1 m ms2 ds|st ms ds1 k ch ds2 now|st ms ds confirmed digest]; cbn; intros Hok; try done.
  - unfold submit_version in H. apply bind_Ok in H as (st1 & H1 & H2).
    eapply transition_ok; [exact H2|]. by eapply register_ok.
  - by eapply transition_ok.
  - by eapply transition_ok.
  - unfold restore_skill in H. destruct (current_state st k); [|done].
    apply bind_Ok in H as (? & _ & H). by eapply transition_ok.
  - by eapply assign_ok.
  - unfold set_skill_baseline in H. destruct (skills st !! k); [|done]. injection H as <-.
    by apply set_baseline_ok.
  - by eapply apply_move_ok.
  - by apply quarantine_if_drifted_ok.
  - apply (quiet_ok st); try done. apply update_digests_lookup.
Qed.

Lemma inv_reachable_ok s : inv_reachable s → inv_ok (is_store s).
Proof.
  apply (rtc_ind_r (λ s, inv_ok (is_store s))).
  - split; cbn; try done; intros *; rewrite ?lookup_empty; done.
  - intros s1 s2 _ Hs. by apply inv_step_ok.
Qed.

(** C13: The event log is sound while the inventory's transactions do not overlap.  In every
    state reached by whole transactions in any order (submissions, administrators' actions,
    each single write of a tick, with other transactions between the writes of one tick):
    the states each skill went through form a path the transition table allows from its
    first submission, every event records the state the skill was in, each event has
    exactly one audit intent that repeats it, in the same order, and a skill is registered
    exactly when it has events.  ([log_survives_overlap] says what is left when
    transactions overlap, [concurrent_transitions_can_cross] what is not.) *)
Theorem event_log_is_sound s k :
  inv_reachable s →
  valid_path None (history (is_store s) k) = true ∧
  (∀ l1 e l2, events_of (is_store s) k = l1 ++ e :: l2 → ev_from_state e = ev_to_state <$> head l2) ∧
  lifecycle_intents (is_store s) = map intent_of (events (is_store s)) ∧
  (skills (is_store s) !! k = None ↔ events_of (is_store s) k = []).
Proof.
  intros [Hl Ha Hr _]%inv_reachable_ok. split_and!; try done.
  - apply log_ok_path, Hl.
  - intros l1 e l2 E. specialize (Hl k). rewrite E in Hl. clear E.
    induction l1 as [|e1 l1 IH]; cbn in Hl; [apply Hl|]. apply IH, Hl.
Qed.

(** ** What never changes *)

(** Nothing of [st] is rewritten in [st'] but owners, baselines and toolchain digests. *)
Record extends (st st' : Store) : Prop := {
  ex_events : ∃ l, events st' = l ++ events st;
  ex_intents : ∃ l, intents st' = l ++ intents st;
  ex_versions : ∀ h v, versions st !! h = Some v → ∃ v', versions st' !! h = Some v' ∧
    sv_skill_id v' = sv_skill_id v ∧ sv_declared_perms v' = sv_declared_perms v ∧
    sv_created_at v' = sv_created_at v;
  ex_skills : ∀ k s, skills st !! k = Some s → ∃ s', skills st' !! k = Some s' ∧
    sk_source s' = sk_source s ∧ sk_trust_tier s' = sk_trust_tier s ∧ sk_scope s' = sk_scope s ∧
    sk_created_at s' = sk_created_at s;
}.

#[export] Instance extends_preorder : PreOrder extends.
Proof.
  split.
  - intros st. split; [by exists []|by exists []|eauto 10|eauto 10].
  - intros a b c [[l1 E1] [i1 I1] V1 S1] [[l2 E2] [i2 I2] V2 S2]. split.
    + exists (l2 ++ l1). by rewrite E2, E1, app_assoc.
    + exists (i2 ++ i1). by rewrite I2, I1, app_assoc.
    + intros h v (v1 & H1 & ? & ? & ?)%V1. destruct (V2 _ _ H1) as (v2 & ? & ? & ? & ?).
      exists v2. by split_and!; [|etrans..].
    + intros k s (s1 & H1 & ? & ? & ? & ?)%S1. destruct (S2 _ _ H1) as (s2 & ? & ? & ? & ? & ?).
      exists s2. by split_and!; [|etrans..].
Qed.

Lemma record_extends e st : extends st (record e st).
Proof. split; [by exists [e]|by exists [intent_of e]|eauto 10|eauto 10]. Qed.

Lemma transition_extends k to reason actor ch sid now st st' :
  transition_skill k to reason actor ch sid now st = Ok st' → extends st st'.
Proof. intros (from & _ & _ & ->)%transition_skill_inv. apply record_extends. Qed.

Lemma set_baseline_extends k ch actor now st : extends st (set_baseline k ch actor now st).
Proof. split; [by exists []|by eexists [_]|eauto 10|eauto 10]. Qed.

Lemma register_extends k source tier ch td perms op admin scope now st st' :
  register_skill_version k source tier ch td perms op admin scope now st = Ok st' → extends st st'.
Proof.
  intros (sk & vs & e & -> & _ & _ & _ & _ & _ & Hsk & Hvs)%register_skill_version_inv.
  etrans; [|apply record_extends]. split; [by exists []|by exists []|..]; cbn.
  - intros h v Hv. destruct (versions st !! ch) as [v0|] eqn:E; [destruct Hvs as [-> _]; eauto 10|].
    subst vs. rewrite lookup_insert_ne by congruence. eauto 10.
  - intros k' s Hs. destruct (skills st !! k) as [s0|] eqn:E; [destruct Hsk as [-> _]; eauto 10|].
    subst sk. rewrite lookup_insert_ne by congruence. eauto 10.
Qed.

Lemma assign_extends k owner reason actor expect st prev st' :
  assign_skill_owner k owner reason actor expect st = Ok (prev, st') → extends st st'.
Proof.
  unfold assign_skill_owner. destruct (skills st !! k) as [s|] eqn:E; [|done].
  intros (n & _ & [= _ <-])%bind_Ok. split; [by exists []|by eexists [_]|eauto 10|]; cbn.
  intros k' s' Hs'. destruct (decide (k = k')) as [->|Hne].
  - rewrite lookup_insert_eq. eexists. split; [done|]. by simplify_eq.
  - rewrite lookup_insert_ne by done. eauto 10.
Qed.

Lemma update_digests_extends confirmed digest st : extends st (update_digests confirmed digest st).
Proof.
  split; [by exists []|by exists []| |eauto 10]. intros h v Hv. cbn.
  induction confirmed as [|c cs IH]; cbn; [eauto 10|]. destruct IH as (v1 & H1 & ? & ? & ?).
  rewrite lookup_alter. case_decide as E; [subst c|eauto 10]. rewrite H1. cbn. eauto 10.
Qed.

Lemma advance_baseline_extends k ch actor now st :
  extends st (advance_baseline_on_publish k ch actor now st).2.
Proof.
  unfold advance_baseline_on_publish. destruct (baselines st !! k) as [b|]; [|apply set_baseline_extends].
  destruct (String.eqb _ _); [done|]. case_bool_decide; [apply set_baseline_extends|done].
Qed.

Lemma inv_step_extends s s' : inv_step s s' → extends (is_store s) (is_store s').
Proof.
  destruct 1 as [st ms ds k tier ch td perms subject admin sid now st' H|st ms ds k reason subject now st' H
    |st ms ds k reason subject now st' H|st ms ds k reason subject now st' H
    |st ms ds k owner reason subject expect prev st' H|st ms ds k ch subject now st' H| |st ms1 m ms2 ds now st' H
    |st ms1 m ms2 ds|st ms ds1 k ch ds2 now|st ms ds confirmed digest]; cbn; try done.
  - unfold submit_version in H. apply bind_Ok in H as (st1 & H1 & H2).
    etrans; [by eapply register_extends|by eapply transition_extends].
  - by eapply transition_extends.
  - by eapply transition_extends.
  - unfold restore_skill in H. destruct (current_state st k); [|done].
    apply bind_Ok in H as (? & _ & H). by eapply transition_extends.
  - by eapply assign_extends.
  - unfold set_skill_baseline in H. destruct (skills st !! k); [|done]. injection H as <-.
    apply set_baseline_extends.
  - unfold apply_move in H. etrans; [|by eapply transition_extends].
    destruct (String.eqb _ _); [apply advance_baseline_extends|done].
  - unfold _quarantine_if_drifted. destruct (negb _); [done|].
    destruct (transition_skill _ _ _ _ _ _ _ _) as [st'|] eqn:E; [by eapply transition_extends|done].
  - apply update_digests_extends.
Qed.

(** The inventory only grows.  Whatever runs, events and audit intents are never
    dropped or rewritten, a content hash once registered stays with the same skill
    under the same declared permissions, and a skill keeps its source, its trust
    tier and its scope; only owners, baselines and toolchain digests move. *)
Theorem inventory_is_append_only s s' : rtc inv_step s s' → extends (is_store s) (is_store s').
Proof.
  induction 1 as [|s1 s2 s3 H12 _ IH]; [done|]. etrans; [by apply inv_step_extends|done].
Qed.

(** ** Overlapping transactions

    A transaction reads from a snapshot and takes no locks; its inserts and updates reach
    whatever the tables are when it commits.  Only the primary keys hold. *)


(** The rows of [m1] that are not as in [m0], written over [m]. *)
Definition write_over {V} `{EqDecision V} (m0 m1 m : gmap string V) : gmap string V :=
  base.filter (λ kv, m0 !! kv.1 ≠ Some kv.2) m1 ∪ m.

#[export] Instance SkillRow_eq_dec : EqDecision SkillRow.
Proof. solve_decision. Defined.
#[export] Instance BaselineRow_eq_dec : EqDecision BaselineRow.
Proof. solve_decision. Defined.

#[export] Instance SkillVersionRow_eq_dec : EqDecision SkillVersionRow.
Proof. solve_decision. Defined.

(** What the commit of a transaction that read [st0] and computed [st1] does to [st]. *)
Definition commit_over (st0 st1 st : Store) : Store :=
  mkStore (write_over (skills st0) (skills st1) (skills st)) (write_over (versions st0) (versions st1) (versions st))
    (write_over (baselines st0) (baselines st1) (baselines st))
    (take (length (events st1) - length (events st0)) (events st1) ++ events st)
    (take (length (intents st1) - length (intents st0)) (intents st1) ++ intents st).




























(** ** One skill through a tick *)

(** The stores agree on what the tick reads and writes of skill [k]. *)
Definition agree (k : string) (st st' : Store) : Prop :=
  events_of st k = events_of st' k ∧ baselines st !! k = baselines st' !! k.

#[export] Instance agree_equiv k : Equivalence (agree k).
Proof.
  split; [by split|by intros ? ? []|]. intros a b c [E1 B1] [E2 B2].
  split; [by rewrite E1|by rewrite B1].
Qed.

Lemma transition_agree k k' to reason actor ch sid now st st' :
  transition_skill k' to reason actor ch sid now st = Ok st' → k ≠ k' → agree k st' st.
Proof.
  intros (from & _ & _ & ->)%transition_skill_inv Hne. split; [|done].
  rewrite events_of_record. by rewrite decide_False.
Qed.

Lemma advance_agree k k' ch actor now st :
  k ≠ k' → agree k (advance_baseline_on_publish k' ch actor now st).2 st.
Proof.
  intros Hne. assert (Hs : agree k (set_baseline k' ch actor now st) st).
  { split; [done|]. cbn. by rewrite lookup_insert_ne. }
  unfold advance_baseline_on_publish. destruct (baselines st !! k') as [b|]; [|done].
  destruct (String.eqb _ _); [done|]. by case_bool_decide.
Qed.

Lemma advance_events k ch actor now st :
  events_of (advance_baseline_on_publish k ch actor now st).2 k = events_of st k.
Proof.
  unfold advance_baseline_on_publish. destruct (baselines st !! k) as [b|]; [|done].
  destruct (String.eqb _ _); [done|]. by case_bool_decide.
Qed.

Lemma quarantine_agree k k' ch now st : k ≠ k' → agree k (_quarantine_if_drifted k' ch now st) st.
Proof.
  intros Hne. unfold _quarantine_if_drifted. destruct (negb _); [done|].
  destruct (transition_skill _ _ _ _ _ _ _ _) as [st'|] eqn:E; [by eapply transition_agree|done].
Qed.

Definition move_skill (m : Move) : string := ev_skill_id (mv_event m).

Lemma apply_move_agree k m now st st' : apply_move m now st = Ok st' → k ≠ move_skill m → agree k st' st.
Proof.
  intros H Hne. unfold apply_move in H. etrans; [by eapply transition_agree|].
  destruct (String.eqb _ _); [by apply advance_agree|done].
Qed.

Lemma apply_moves_cons m ms now st :
  (apply_moves (m :: ms) now st).1 = (apply_moves ms now (apply_moves [m] now st).1).1.
Proof.
  simpl. destruct (apply_move m now st) as [st1|]; [|done].
  by destruct (apply_moves ms now _) as [st3 n].
Qed.

Lemma apply_moves_app ms1 ms2 now st :
  (apply_moves (ms1 ++ ms2) now st).1 = (apply_moves ms2 now (apply_moves ms1 now st).1).1.
Proof.
  revert st. induction ms1 as [|m ms1 IH]; intros st; [done|].
  change ((m :: ms1) ++ ms2) with (m :: (ms1 ++ ms2)).
  by rewrite (apply_moves_cons m (ms1 ++ ms2)), IH, (apply_moves_cons m ms1).
Qed.

Lemma apply_moves_agree k ms now st :
  k ∉ map move_skill ms → agree k (apply_moves ms now st).1 st.
Proof.
  revert st. induction ms as [|m ms IH]; intros st Hk; [done|].
  apply not_elem_of_cons in Hk as [Hk1 Hk2]. rewrite apply_moves_cons. etrans; [by apply IH|].
  simpl. destruct (apply_move m now st) as [st1|] eqn:E; [|done]. cbn.
  etrans; [|by eapply apply_move_agree]. destruct (String.eqb _ _); [by apply quarantine_agree|done].
Qed.

(** In a batch that moves each skill once, skill [k] ends as its own move leaves it. *)
Lemma apply_moves_one ms1 m ms2 now st :
  NoDup (map move_skill (ms1 ++ m :: ms2)) →
  ∃ st1, agree (move_skill m) st1 st ∧
         agree (move_skill m) (apply_moves (ms1 ++ m :: ms2) now st).1 (apply_moves [m] now st1).1.
Proof.
  rewrite map_app, NoDup_app. cbn [map]. rewrite NoDup_cons. intros (_ & Hd & Hn & _).
  exists (apply_moves ms1 now st).1. split.
  - apply apply_moves_agree. intros H. apply (Hd _ H). left.
  - rewrite apply_moves_app, apply_moves_cons. by apply apply_moves_agree.
Qed.

Lemma latest_by_skill_subset l e : e ∈ latest_by_skill l → e ∈ l.
Proof.
  induction l as [|a l IH]; [done|]. simpl. intros [->|[_ H]%list_elem_of_filter]%elem_of_cons; [left|].
  right. by apply IH.
Qed.

Lemma latest_by_skill_NoDup l : NoDup (map ev_skill_id (latest_by_skill l)).
Proof.
  assert (Hf : ∀ x l, NoDup (map ev_skill_id l) →
    NoDup (map ev_skill_id (base.filter (λ e', ev_skill_id e' ≠ x) l))).
  { intros x l0. induction l0 as [|a l0 IH]; [done|]. cbn [map]. intros [Ha Hl]%NoDup_cons.
    rewrite filter_cons. case_decide; [|by apply IH]. cbn [map]. apply NoDup_cons. split; [|by apply IH].
    intros (b & E & [_ Hb]%list_elem_of_filter)%list_elem_of_fmap. apply Ha. rewrite E.
    by apply list_elem_of_fmap_2. }
  induction l as [|a l IH]; [constructor|]. cbn [latest_by_skill map]. apply NoDup_cons. split; [|by apply Hf].
  intros (b & E & [Hb _]%list_elem_of_filter)%list_elem_of_fmap. done.
Qed.

Lemma latest_by_skill_head l k e :
  head (base.filter (λ e, ev_skill_id e = k) l) = Some e → e ∈ latest_by_skill l.
Proof.
  induction l as [|a l IH]; [done|]. rewrite filter_cons. cbn [latest_by_skill]. case_decide as E.
  - injection 1 as <-. left.
  - intros H. right. apply list_elem_of_filter. split; [|by apply IH].
    assert (He : e ∈ base.filter (λ e, ev_skill_id e = k) l) by (by apply head_Some_elem_of).
    apply list_elem_of_filter in He as [-> _]. congruence.
Qed.

Lemma latest_by_skill_unique l e e' :
  e ∈ latest_by_skill l → e' ∈ latest_by_skill l → ev_skill_id e = ev_skill_id e' → e = e'.
Proof.
  intros (i & Hi)%list_elem_of_lookup (j & Hj)%list_elem_of_lookup E.
  assert (i = j) as ->; [|congruence].
  eapply (NoDup_lookup (map ev_skill_id (latest_by_skill l))); [apply latest_by_skill_NoDup| |].
  - rewrite list_lookup_fmap, Hi. reflexivity.
  - rewrite list_lookup_fmap, Hj. cbn. by rewrite E.
Qed.

Lemma pending_moves_elem st g e m :
  head (events_of st (ev_skill_id e)) = Some e → waiting e = true →
  move_of (verdict_by_scan g) (legacy_candidates g (pending (events st))) e = Some m →
  m ∈ pending_moves st g.
Proof.
  intros Hh Hw Hm. unfold pending_moves. apply list_elem_of_omap. exists e. split; [|done].
  unfold pending. apply list_elem_of_filter. split; [done|]. by eapply latest_by_skill_head.
Qed.

Lemma move_of_event bs lc e m : move_of bs lc e = Some m → mv_event m = e.
Proof.
  unfold move_of. destruct (_resolve_event_verdict e bs lc) as [v|]; [|done]. cbn.
  destruct (_VERDICT_TARGET_STATE v) as [t|]; [|done]. cbn. destruct (String.eqb _ _); [done|].
  by injection 1 as <-.
Qed.

Lemma pending_moves_NoDup st g : NoDup (map move_skill (pending_moves st g)).
Proof.
  unfold pending_moves. generalize (legacy_candidates g (pending (events st))). intros lc.
  assert (Hp : NoDup (map ev_skill_id (pending (events st)))).
  { unfold pending. eapply sublist_NoDup; [apply (latest_by_skill_NoDup (events st))|].
    apply fmap_sublist, sublist_filter. }
  induction (pending (events st)) as [|e p IH]; [constructor|].
  cbn [map] in Hp. apply NoDup_cons in Hp as [Hn Hp]. cbn [omap list_omap].
  destruct (move_of (verdict_by_scan g) lc e) as [m|] eqn:Hm; [|by apply IH].
  cbn [map]. apply NoDup_cons. split; [|by apply IH].
  intros (m' & E & (e' & He' & Hm')%list_elem_of_omap)%list_elem_of_fmap. apply Hn.
  unfold move_skill in E. rewrite (move_of_event _ _ _ _ Hm), (move_of_event _ _ _ _ Hm') in E.
  rewrite E. by apply list_elem_of_fmap_2.
Qed.

Lemma move_of_scan g lc e sid r t :
  truthy (ev_scan_id e) = Some sid → verdicts g !! sid = Some r →
  _VERDICT_TARGET_STATE (v_verdict r) = Some t → t ≠ ev_to_state e →
  move_of (verdict_by_scan g) lc e = Some (mkMove e (v_verdict r) t).
Proof.
  intros Hs Hr Ht Hne. unfold move_of, _resolve_event_verdict, verdict_by_scan. rewrite Hs, Hr. cbn.
  rewrite Ht. cbn. apply String.eqb_neq in Hne. by rewrite Hne.
Qed.

Lemma advance_baseline_cases k ch actor now st :
  (bl_content_hash <$> baselines (advance_baseline_on_publish k ch actor now st).2 !! k = Some ch ∧
   ∀ b, baselines st !! k = Some b → bl_content_hash b ≠ ch → prior_published_hash st k = Some (bl_content_hash b)) ∨
  ∃ b, baselines st !! k = Some b ∧ bl_content_hash b ≠ ch ∧
       prior_published_hash st k ≠ Some (bl_content_hash b) ∧
       baselines (advance_baseline_on_publish k ch actor now st).2 !! k = Some b.
Proof.
  unfold advance_baseline_on_publish. destruct (baselines st !! k) as [b|] eqn:E.
  2: { left. cbn. by rewrite lookup_insert_eq. }
  destruct (String.eqb (bl_content_hash b) ch) eqn:E1; str_prop.
  { left. cbn. rewrite E, <-E1. split; [done|]. naive_solver. }
  case_bool_decide as E2; [left; cbn; rewrite lookup_insert_eq; split; [done|naive_solver]|]. right. by exists b.
Qed.

(** The event a move records, from a store that agrees on the skill. *)
Lemma apply_move_self m now st st1 from :
  agree (move_skill m) st1 st → current_state st (move_skill m) = Some from →
  mv_target m ∈ targets_from from →
  ∃ e' st2, apply_move m now st1 = Ok st2 ∧ events_of st2 (move_skill m) = e' :: events_of st (move_skill m) ∧
    ev_to_state e' = mv_target m ∧ ev_actor e' = _WORKER_OPERATOR ∧
    ev_scan_id e' = truthy (ev_scan_id (mv_event m)) ∧
    ev_content_hash e' = Some (default "" (ev_content_hash (mv_event m))) ∧
    baselines st2 = baselines (if String.eqb (mv_target m) "published"
      then (advance_baseline_on_publish (move_skill m) (default "" (ev_content_hash (mv_event m)))
              _WORKER_OPERATOR now st1).2 else st1).
Proof.
  intros [He Hb] Hc Ht. unfold apply_move. fold (move_skill m).
  set (st0 := if String.eqb (mv_target m) "published" then _ else st1).
  assert (E0 : events_of st0 (move_skill m) = events_of st (move_skill m)).
  { subst st0. destruct (String.eqb _ _); [by rewrite advance_events|done]. }
  eexists (mkEvent _ _ _ _ _ _ _ _), _. split.
  { apply transition_skill_inv. exists from. split_and!; [|by apply validate_from|reflexivity].
    unfold current_state in *. by rewrite E0. }
  split; [|done]. rewrite events_of_record. cbn. rewrite decide_True by done. by rewrite E0.
Qed.

Lemma pending_moves_outcome st g e sid r t now :
  let k := ev_skill_id e in
  head (events_of st k) = Some e → waiting e = true → truthy (ev_scan_id e) = Some sid →
  verdicts g !! sid = Some r → _VERDICT_TARGET_STATE (v_verdict r) = Some t → t ≠ ev_to_state e →
  ∃ st1, agree k st1 st ∧
    agree k (sync_lifecycle_tick now g st).1 (apply_moves [mkMove e (v_verdict r) t] now st1).1.
Proof.
  intros k Hh Hw Hs Hr Ht Hne.
  assert (Hin : mkMove e (v_verdict r) t ∈ pending_moves st g).
  { eapply pending_moves_elem; [done..|]. by eapply move_of_scan. }
  apply list_elem_of_split in Hin as (ms1 & ms2 & Hms).
  pose proof (pending_moves_NoDup st g) as Hnd. unfold sync_lifecycle_tick. rewrite Hms in Hnd |- *.
  apply (apply_moves_one ms1 (mkMove e (v_verdict r) t) ms2 now st Hnd).
Qed.

Lemma quarantine_unless_drifted k ch now st :
  (bl_content_hash <$> baselines st !! k) = Some ch → _quarantine_if_drifted k ch now st = st.
Proof.
  intros H. unfold _quarantine_if_drifted, check_drift. rewrite H. cbn. rewrite String.eqb_refl.
  by rewrite andb_false_r.
Qed.

Lemma quarantine_when_drifted k ch now st b :
  baselines st !! k = Some b → bl_content_hash b ≠ ch → current_state st k = Some "published" →
  ∃ q, ev_to_state q = "quarantined" ∧
       events_of (_quarantine_if_drifted k ch now st) k = q :: events_of st k ∧
       baselines (_quarantine_if_drifted k ch now st) !! k = baselines st !! k.
Proof.
  intros Hb Hne Hc. unfold _quarantine_if_drifted, check_drift. rewrite Hb. cbn.
  apply String.eqb_neq in Hne. rewrite Hne. cbn [negb andb].
  erewrite (proj2 (transition_skill_inv k "quarantined" _ _ _ _ _ st _));
    [|exists "published"; split_and!; [done|by vm_compute|reflexivity]].
  eexists. split; [|by rewrite events_of_record, decide_True]. done.
Qed.

Lemma waiting_content e : waiting e = true → ∃ ch, ev_content_hash e = Some ch.
Proof.
  unfold waiting. intros [_ H%bool_decide_eq_true]%andb_true_iff.
  destruct (ev_content_hash e) as [ch|]; [by exists ch|done].
Qed.

(** A tick that may not move the skill leaves its events alone. *)
Lemma tick_refuses st g e sid r t now :
  head (events_of st (ev_skill_id e)) = Some e → waiting e = true → truthy (ev_scan_id e) = Some sid →
  verdicts g !! sid = Some r → _VERDICT_TARGET_STATE (v_verdict r) = Some t → t ∉ targets_from (ev_to_state e) →
  events_of (sync_lifecycle_tick now g st).1 (ev_skill_id e) = events_of st (ev_skill_id e).
Proof.
  intros Hh Hw Hs Hr Ht Hin. destruct (decide (t = ev_to_state e)) as [->|Hne].
  { apply apply_moves_agree. intros (m & Em & (e' & He' & Hm)%list_elem_of_omap)%list_elem_of_fmap.
    pose proof (move_of_event _ _ _ _ Hm) as Emv. unfold move_skill in Em. rewrite Emv in Em.
    assert (e' = e) as ->.
    { unfold pending in He'. apply list_elem_of_filter in He' as [_ He'].
      eapply (latest_by_skill_unique (events st)); [exact He'|by eapply latest_by_skill_head|done]. }
    unfold move_of, _resolve_event_verdict, verdict_by_scan in Hm. rewrite Hs, Hr in Hm. cbn in Hm. rewrite Ht in Hm.
    cbn in Hm. by rewrite String.eqb_refl in Hm. }
  destruct (pending_moves_outcome st g e sid r t now) as (st1 & [Ea _] & [Eo _]); [done..|].
  rewrite Eo, <- Ea. cbn [apply_moves]. unfold apply_move. cbn [mv_target mv_event].
  set (st2 := if String.eqb _ _ then _ else st1).
  assert (E2 : events_of st2 (ev_skill_id e) = events_of st1 (ev_skill_id e)).
  { subst st2. destruct (String.eqb _ _); [apply advance_events|done]. }
  destruct (transition_skill _ _ _ _ _ _ _ _) as [st3|] eqn:E; [|done]. exfalso.
  apply transition_skill_inv in E as (from & Hc & Hval & _). unfold current_state in Hc. rewrite E2, Ea, Hh in Hc.
  injection Hc as <-. by apply validate_from in Hval.
Qed.

(** An administrator pinned the baseline of [k] to content other than [content] and other
    than what the skill was last published at. *)
Definition pinned_elsewhere (st : Store) (k : string) (content : option string) : Prop :=
  ∃ b, baselines st !! k = Some b ∧ Some (bl_content_hash b) ≠ content ∧
       prior_published_hash st k ≠ Some (bl_content_hash b).

(** C12: One undisturbed tick settles what waits.  Take a skill whose newest event waits for a
    scan that has a verdict.  If the transition table does not allow the state the verdict
    calls for (as for a rejected review), the tick leaves the skill's events as they are.  If
    it does, the tick records a worker event into that state, naming the same scan and
    content, whatever it does to other skills; and the skill ends in that state with its
    baseline untouched when it is not publication.  On publication, a skill whose baseline
    an administrator had pinned to other content that it was not last published at ends
    quarantined, its baseline untouched; any other skill ends published, with the scan's
    content as its baseline. *)
Theorem tick_settles_waiting_skills st g e sid r t now :
  let k := ev_skill_id e in
  let st' := (sync_lifecycle_tick now g st).1 in
  head (events_of st k) = Some e → waiting e = true → truthy (ev_scan_id e) = Some sid →
  verdicts g !! sid = Some r → _VERDICT_TARGET_STATE (v_verdict r) = Some t →
  (t ∉ targets_from (ev_to_state e) → events_of st' k = events_of st k) ∧
  (t ∈ targets_from (ev_to_state e) →
   (∃ pre e', events_of st' k = pre ++ e' :: events_of st k ∧ ev_to_state e' = t ∧
      ev_scan_id e' = Some sid ∧ ev_content_hash e' = ev_content_hash e ∧ ev_actor e' = _WORKER_OPERATOR) ∧
   (t ≠ "published" → current_state st' k = Some t ∧ baselines st' !! k = baselines st !! k) ∧
   (t = "published" → pinned_elsewhere st k (ev_content_hash e) →
      current_state st' k = Some "quarantined" ∧ baselines st' !! k = baselines st !! k) ∧
   (t = "published" → ¬ pinned_elsewhere st k (ev_content_hash e) →
      current_state st' k = Some "published" ∧ (bl_content_hash <$> baselines st' !! k) = ev_content_hash e)).
Proof.
  intros k st' Hh Hw Hs Hr Ht. split; [intros Hin; by eapply tick_refuses|]. intros Hin.
  destruct (waiting_content _ Hw) as [ch Hch].
  assert (Hne : t ≠ ev_to_state e).
  { intros ->. apply targets_from_cases in Hin. rewrite !elem_of_cons, elem_of_nil in Hin. intuition congruence. }
  destruct (pending_moves_outcome st g e sid r t now) as (st1 & Ha & Hout); [done..|].
  assert (Hc : current_state st k = Some (ev_to_state e)) by (unfold current_state; by rewrite Hh).
  destruct (apply_move_self (mkMove e (v_verdict r) t) now st st1 (ev_to_state e)) as
    (e' & st2 & Hap & Hev & Hto & Hact & Hsid & Hcont & Hbl); [done..|].
  cbn [apply_moves] in Hout. rewrite Hap in Hout. unfold move_skill in *. cbn [mv_event mv_target] in *.
  fold k in Hev, Hbl, Hout. fold st' in Hout. rewrite Hch in *. cbn [default from_option id] in *.
  rewrite Hs in Hsid. destruct Ha as [Ea Ba]. fold k in Ea, Ba.
  destruct (decide (t = "published")) as [->|Hnp].
  2: { apply String.eqb_neq in Hnp as E. rewrite E in Hout, Hbl. cbn in Hout. destruct Hout as [Eo Bo].
       split_and!; [|intros _|done|done].
       - exists [], e'. by rewrite Eo, Hev.
       - split; [unfold current_state; by rewrite Eo, Hev; cbn; rewrite Hto|]. by rewrite Bo, Hbl. }
  cbn in Hout, Hbl. destruct Hout as [Eo Bo].
  assert (Hc2 : current_state st2 k = Some "published") by (unfold current_state; rewrite Hev; cbn; by rewrite Hto).
  assert (Hpp : prior_published_hash st1 k = prior_published_hash st k) by (unfold prior_published_hash; by rewrite Ea).
  destruct (advance_baseline_cases k ch _WORKER_OPERATOR now st1) as [[Hb Hn]|(b & Hb & Hbne & Hpri & Hb2)];
    rewrite <-Hbl in *.
  - rewrite (quarantine_unless_drifted k ch now st2 Hb) in Eo, Bo. split_and!; [|done| |intros _ _].
    + exists [], e'. by rewrite Eo, Hev.
    + intros _ (b & Hb1 & Hb2 & Hb3). exfalso. apply Hb3. rewrite <- Hpp. apply Hn; [by rewrite Ba|congruence].
    + unfold current_state. rewrite Eo, Bo, Hev; cbn. by rewrite Hto.
  - destruct (quarantine_when_drifted k ch now st2 b Hb2 Hbne Hc2) as (q & Hq & Eq & Bq). rewrite Eq in Eo. rewrite Bq in Bo.
    split_and!; [|done|intros _ _|intros _ Hnot].
    + exists [q], e'. by rewrite Eo, Hev.
    + split; [unfold current_state; rewrite Eo; cbn; by rewrite Hq|]. by rewrite Bo, Hb2, <- Ba, Hb.
    + destruct Hnot. exists b. rewrite <-Ba, <-Hpp. split_and!; [done|congruence|done].
Qed.

(** A rejected review is never applied.  When a skill in [review_pending] has its
    review rejected, its scan's verdict becomes BLOCK and the tick aims at [blocked],
    but the transition table has no edge from [review_pending] to [blocked]: every
    tick skips the move and the skill stays in [review_pending], its events
    unchanged. *)
Theorem rejected_review_is_never_applied st g e sid r now :
  let k := ev_skill_id e in
  head (events_of st k) = Some e → ev_to_state e = "review_pending" → waiting e = true →
  truthy (ev_scan_id e) = Some sid → verdicts g !! sid = Some r → v_verdict r = "BLOCK" →
  events_of (sync_lifecycle_tick now g st).1 k = events_of st k.
Proof.
  intros k Hh He Hw Hs Hr Hv.
  destruct (pending_moves_outcome st g e sid r "blocked" now) as (st1 & [Ea _] & [Eo _]);
    [done..|by rewrite Hv|by rewrite He|].
  fold k in Ea, Eo. rewrite Eo, <-Ea. cbn [apply_moves]. unfold apply_move. cbn [mv_target mv_event String.eqb].
  fold k. destruct (transition_skill _ _ _ _ _ _ _ _) as [st2|] eqn:E; [|done]. exfalso.
  apply transition_skill_inv in E as (from & Hc & Hval & _). unfold current_state in Hc.
  cbn in Hc. rewrite Ea, Hh in Hc. cbn in Hc. rewrite He in Hc. injection Hc as <-. by vm_compute in Hval.
Qed.

(** ** Samples and interleavings *)

Module WorkerSamples.

Definition ok_or (st : Store) (r : result InventoryError Store) : Store :=
  match r with Ok st' => st' | Err _ => st end.

(** A gate that has issued one verdict. *)
Definition issued (scan_id verdict : string) : GateStore :=
  mkGateStore {[scan_id := mkVerdictRow scan_id "h1" verdict "v1" "j" "jws" 3 57 [] false 2]} ∅ [] [].

Definition submitted1 : Store :=
  ok_or empty_store (submit_version "k" "internal" "h1" "t" JNull "alice" false "s1" 1 empty_store).
Definition in_review : Store := (sync_lifecycle_tick 2 (issued "s1" "REVIEW") submitted1).1.
Definition resubmitted : Store :=
  ok_or in_review (submit_version "k" "internal" "h2" "t" JNull "alice" false "s2" 3 in_review).

Definition first_move (l : list Move) : Move :=
  hd (mkMove (mkEvent "" None None None "" "" "" 0) "" "") l.
Definition to_review : Move := first_move (pending_moves submitted1 (issued "s1" "REVIEW")).
Definition to_publish : Move := first_move (pending_moves in_review (issued "s1" "PASS")).
Definition published : Store := ok_or resubmitted (apply_move to_publish 4 resubmitted).

Example one_lap :
  history submitted1 "k" = ["submitted"; "scanning"] ∧
  history in_review "k" = ["submitted"; "scanning"; "review_pending"] ∧
  history (sync_lifecycle_tick 3 (issued "s1" "PASS") in_review).1 "k" =
    ["submitted"; "scanning"; "review_pending"; "published"].
Proof. vm_compute. tauto. Qed.

Lemma submitted1_step : inv_step empty_inventory (mkInvSystem submitted1 [] []).
Proof.
  apply (version_submitted empty_store [] [] "k" "internal" "h1" "t" JNull "alice" false "s1" 1).
  vm_compute. reflexivity.
Qed.

Lemma in_review_reachable : inv_reachable (mkInvSystem in_review [] []).
Proof.
  eapply rtc_r; [eapply rtc_r; [apply rtc_once, submitted1_step|]|].
  - exact (tick_reads submitted1 [] [] (issued "s1" "REVIEW")).
  - assert (E : pending_moves submitted1 (issued "s1" "REVIEW") ++ [] = [] ++ to_review :: [])
      by (vm_compute; reflexivity).
    rewrite E.
    assert (H : apply_move to_review 2 submitted1 = Ok in_review) by (vm_compute; reflexivity).
    exact (tick_moves submitted1 [] to_review [] [] 2 in_review H).
Qed.

Lemma event_log_is_sound_witness :
  valid_path None (history in_review "k") = true ∧ lifecycle_intents in_review = map intent_of (events in_review).
Proof.
  destruct (event_log_is_sound (mkInvSystem in_review [] []) "k" in_review_reachable) as (H1 & _ & H2 & _).
  exact (conj H1 H2).
Defined.

Lemma inventory_is_append_only_witness : extends empty_store submitted1.
Proof.
  exact (inventory_is_append_only empty_inventory (mkInvSystem submitted1 [] [])
           (rtc_once _ _ submitted1_step)).
Defined.

Definition waiting_event : SkillLifecycleEventRow :=
  mkEvent "k" (Some "h1") (Some "s1") (Some "submitted") "scanning" "scan s1 submitted" "alice" 1.
Definition review_event : SkillLifecycleEventRow :=
  mkEvent "k" (Some "h1") (Some "s1") (Some "scanning") "review_pending" "verdict REVIEW"
    _WORKER_OPERATOR 2.
Definition verdict_of (v : string) : VerdictRow := mkVerdictRow "s1" "h1" v "v1" "j" "jws" 3 57 [] false 2.

Lemma tick_settles_waiting_skills_witness :
  current_state (sync_lifecycle_tick 2 (issued "s1" "BLOCK") submitted1).1 "k" = Some "blocked".
Proof.
  apply (tick_settles_waiting_skills submitted1 (issued "s1" "BLOCK") waiting_event "s1"
           (verdict_of "BLOCK") "blocked" 2); [vm_compute; reflexivity..|by_compute|discriminate].
Defined.

Lemma rejected_review_is_never_applied_witness :
  events_of (sync_lifecycle_tick 3 (issued "s1" "BLOCK") in_review).1 "k" = events_of in_review "k".
Proof.
  apply (rejected_review_is_never_applied in_review (issued "s1" "BLOCK") review_event "s1"
           (verdict_of "BLOCK") 3); vm_compute; reflexivity.
Defined.

(** A tick can act on a snapshot the skill has left.  A tick sees the skill in
    [review_pending] with an approved review; before it writes, the owner submits a
    new version, so the skill is [scanning] for scan s2; the tick's transition to
    [published] is legal from [scanning] too and goes through.  The skill is published
    while s2 runs, and no later verdict, of s2 or any scan, can move it: nothing
    waits any more. *)
Theorem stale_tick_publishes_over_running_scan :
  ∃ s1 s2, inv_reachable s1 ∧ inv_step s1 s2 ∧
    current_state (is_store s1) "k" = Some "scanning" ∧
    head (events_of (is_store s1) "k") ≫= ev_scan_id = Some "s2" ∧
    current_state (is_store s2) "k" = Some "published" ∧ ∀ g, pending_moves (is_store s2) g = [].
Proof.
  exists (mkInvSystem resubmitted [to_publish] []), (mkInvSystem published [] [("k", "h1")]). split_and!.
  - eapply rtc_r; [eapply rtc_r; [apply in_review_reachable|]|].
    + exact (tick_reads in_review [] [] (issued "s1" "PASS")).
    + assert (E : pending_moves in_review (issued "s1" "PASS") ++ [] = [to_publish]) by (vm_compute; reflexivity).
      rewrite E.
      apply (version_submitted in_review [to_publish] [] "k" "internal" "h2" "t" JNull "alice" false "s2" 3).
      vm_compute. reflexivity.
  - assert (H : apply_move to_publish 4 resubmitted = Ok published) by (vm_compute; reflexivity).
    exact (tick_moves resubmitted [] to_publish [] [] 4 published H).
  - vm_compute. reflexivity.
  - vm_compute. reflexivity.
  - vm_compute. reflexivity.
  - intros g. unfold pending_moves.
    assert (E : pending (events (is_store (mkInvSystem published [] [("k", "h1")]))) = [])
      by (vm_compute; reflexivity).
    by rewrite E.
Qed.

Definition retired : Store := ok_or submitted1 (retire_skill "k" "gone" "admin" 2 submitted1).
Definition pass_move : Move := first_move (pending_moves submitted1 (issued "s1" "PASS")).
Definition passed : Store := ok_or submitted1 (apply_move pass_move 2 submitted1).




(** Two transitions can cross.  [current_state] is read without a lock, so the
    worker's publish and an administrator's retirement can both validate against
    [scanning]; each is legal alone, and when the publish commits after the
    retirement, the retired skill is published again, which the transition table
    forbids: the log is no longer a path it allows. *)
Theorem concurrent_transitions_can_cross :
  ∃ st st_r st_p m, inv_reachable (mkInvSystem st [] []) ∧
    retire_skill "k" "gone" "admin" 2 st = Ok st_r ∧ apply_move m 2 st = Ok st_p ∧
    current_state st_r "k" = Some "retired" ∧
    current_state (commit_over st st_p st_r) "k" = Some "published" ∧
    valid_path None (history (commit_over st st_p st_r) "k") = false.
Proof.
  exists submitted1, retired, passed, pass_move. split; [apply rtc_once, submitted1_step|].
  vm_compute. tauto.
Qed.
End WorkerSamples.
