(* ===== verification/Reeval.v ===== *)
(** * Re-evaluation of the published inventory

    [apps/monolith/modules/reeval/]: [controller.py] finds the skills whose newest
    version was scanned by another toolchain and queues rescans, [router.py] drains
    them in bounded pages or one skill at a time, and reports content drift; the
    worker's [advance_scanned_toolchain_digests] retires a target once its rescan is
    decided.  SHA-256 and the fresh UUIDs are parameters. *)

From S2P Require Import Prelude Models Json Canonical Lifecycle Inventory GateService Orchestration Worker.
Open Scope string_scope.
Open Scope list_scope.
Open Scope Z_scope.

(** ** [controller.py] *)

Definition _TIER_ORDER (t : TrustTier) : Z :=
  match t with PUBLIC => 0 | PARTNER => 1 | INTERNAL => 2 end.

Record PublishedToolchainStatus := mkStatus {
  ts_skill_id : string;
  ts_trust_tier : TrustTier;
  ts_content_hash : string;
  ts_recorded_toolchain_digest : string;
}.

Definition is_stale (status : PublishedToolchainStatus) (current_toolchain_digest : string) : bool :=
  negb (String.eqb (ts_recorded_toolchain_digest status) current_toolchain_digest).

Definition by_tier : PublishedToolchainStatus → PublishedToolchainStatus → bool :=
  le_key Z.leb (λ s, _TIER_ORDER (ts_trust_tier s)).

Definition batch_rescan_targets (statuses : list PublishedToolchainStatus) (current_toolchain_digest : string)
    : list PublishedToolchainStatus :=
  sort_by by_tier (base.filter (λ s, is_stale s current_toolchain_digest = true) statuses).

Inductive ReevalError :=
| bad_tier (tier : string)        (* [TrustTier(row.trust_tier)] *)
| bad_key (e : CanonicalError)    (* [cache_key] *)
| limit_out_of_range              (* the route's query validation *)
| skill_not_found.

(** The rows of the join, newest version first. *)
Definition version_rows (st : Store) : list (string * SkillVersionRow * SkillRow) :=
  sort_by (le_key (le_pair (λ a b, Z.leb b a) str_le) (λ r, (sv_created_at r.1.2, r.1.1)))
    (omap (λ kv : string * SkillVersionRow, s ← skills st !! sv_skill_id kv.2; Some (kv.1, kv.2, s))
       (map_to_list (versions st))).

Definition status_of (r : string * SkillVersionRow * SkillRow) : result ReevalError PublishedToolchainStatus :=
  match tier_of_value (sk_trust_tier r.2) with
  | Some t => Ok (mkStatus (sv_skill_id r.1.2) t r.1.1 (sv_toolchain_digest r.1.2))
  | None => Err (bad_tier (sk_trust_tier r.2))
  end.

Fixpoint map_result {A B} (f : A → result ReevalError B) (l : list A) : result ReevalError (list B) :=
  match l with
  | [] => Ok []
  | x :: l' => y ← f x; ys ← map_result f l'; Ok (y :: ys)
  end.

(** [dict.setdefault] keyed by skill: the values of the dict, in insertion order. *)
Fixpoint first_per_skill (l : list PublishedToolchainStatus) : list PublishedToolchainStatus :=
  match l with
  | [] => []
  | s :: l' => s :: base.filter (λ s', ts_skill_id s' ≠ ts_skill_id s) (first_per_skill l')
  end.

Definition list_published_toolchain_statuses (st : Store) : result ReevalError (list PublishedToolchainStatus) :=
  ss ← map_result status_of (version_rows st);
  Ok (first_per_skill ss).

Section reeval.
Variable sha256 : list Z → string.
Variable uuid : nat → string.

Definition build_rescan_job (status : PublishedToolchainStatus) (toolchain_digest submitter : string) (now : Z)
    : result ReevalError ScanJob :=
  match cache_key sha256 (ts_content_hash status) toolchain_digest with
  | Err e => Err (bad_key e)
  | Ok ck => Ok (mkScanJob (ts_content_hash status) toolchain_digest ck STATE_QUEUED submitter now None None
                   (Some (tier_value (ts_trust_tier status))))
  end.

(** The INSERT in its savepoint: [None] is [IntegrityError], on the id or the cache key. *)
Definition insert_job (scan_id : string) (job : ScanJob) (o : OrchStore) : option OrchStore :=
  match jobs o !! scan_id, job_with_cache_key o (j_cache_key job) with
  | None, None => Some (set_jobs (insert scan_id job) o)
  | _, _ => None
  end.

(** [uuid i] is the id drawn for the [i]-th target. *)
Fixpoint trigger_loop (i : nat) (targets : list PublishedToolchainStatus) (toolchain_digest submitter : string)
    (now : Z) (queued : nat) (o : OrchStore) : result ReevalError (nat * OrchStore) :=
  match targets with
  | [] => Ok (queued, o)
  | target :: targets' =>
      job ← build_rescan_job target toolchain_digest submitter now;
      match insert_job (uuid i) job o with
      | Some o' => trigger_loop (S i) targets' toolchain_digest submitter now (S queued) o'
      | None => trigger_loop (S i) targets' toolchain_digest submitter now queued o
      end
  end.

Definition trigger_rescans (targets : list PublishedToolchainStatus) (toolchain_digest submitter : string)
    (now : Z) (o : OrchStore) : result ReevalError (nat * OrchStore) :=
  trigger_loop 0 targets toolchain_digest submitter now 0 o.

(** ** [router.py] *)

Definition _DRIFT_REASON_PREFIX : string := "drift detected (SUP-05):".
Definition _DEFAULT_DRAIN_LIMIT : Z := 50.
Definition _MAX_DRAIN_LIMIT : Z := 500.

Definition list_reeval_status (current_digest : string) (st : Store)
    : result ReevalError (list (PublishedToolchainStatus * bool)) :=
  statuses ← list_published_toolchain_statuses st;
  Ok (map (λ s, (s, is_stale s current_digest)) statuses).

Record DriftSkill := mkDriftSkill {
  ds_skill_id : string;
  ds_baseline_content_hash : string;
  ds_latest_content_hash : option string;
  ds_drifted : bool;
}.

Definition latest_version (st : Store) (skill_id : string) : option string :=
  fst <$> head (sort_by (le_key (λ a b, Z.leb b a) (λ kv : string * SkillVersionRow, sv_created_at kv.2))
                  (versions_of st skill_id)).

Definition _drift_summary (st : Store) : list DriftSkill * list SkillLifecycleEventRow :=
  (map (λ kv : string * BaselineRow,
          let latest := latest_version st kv.1 in
          mkDriftSkill kv.1 (bl_content_hash kv.2) latest
            (match latest with Some l => is_drift (Some (bl_content_hash kv.2)) l | None => false end))
     (map_to_list (baselines st)),
   take 50 (sort_by (le_key (λ a b, Z.leb b a) ev_occurred_at)
              (base.filter (λ e, String.prefix _DRIFT_REASON_PREFIX (ev_reason e) = true) (events st)))).

Record DrainReply := mkDrainReply {
  stale_total : nat;
  targets_selected : nat;
  versions_queued : nat;
  remaining : nat;
}.

Definition drain_stale_reeval (limit : Z) (subject current_digest : string) (now : Z) (st : Store) (o : OrchStore)
    : result ReevalError (DrainReply * OrchStore) :=
  _ ← guard_err ((1 <=? limit) && (limit <=? _MAX_DRAIN_LIMIT)) limit_out_of_range;
  statuses ← list_published_toolchain_statuses st;
  let stale := batch_rescan_targets statuses current_digest in
  let selected := take (Z.to_nat limit) stale in
  queued_o ← trigger_rescans selected current_digest subject now o;
  Ok (mkDrainReply (length stale) (length selected) queued_o.1 (length stale - length selected), queued_o.2).

Definition trigger_reeval (skill_id subject current_digest : string) (now : Z) (st : Store) (o : OrchStore)
    : result ReevalError (nat * OrchStore) :=
  statuses ← list_published_toolchain_statuses st;
  let targets := base.filter (λ s, ts_skill_id s = skill_id) statuses in
  _ ← guard_err (negb (bool_decide (targets = []))) skill_not_found;
  trigger_rescans targets current_digest subject now o.
End reeval.

(** ** Which versions are judged *)

Lemma map_result_Ok {A B} (f : A → result ReevalError B) l ys :
  map_result f l = Ok ys ↔ Forall2 (λ x y, f x = Ok y) l ys.
Proof.
  revert ys. induction l as [|x l IH]; intros ys; cbn.
  - split; [intros [= <-]; constructor|intros H; by inversion H].
  - split.
    + intros H. ok_inv. constructor; [done|by apply IH].
    + intros H. inversion H as [|? y ? ys' Hx Hl]; subst. rewrite Hx. cbn. apply IH in Hl. rewrite Hl. done.
Qed.

Lemma elem_of_first_per_skill s l :
  s ∈ first_per_skill l ↔ ∃ l1 l2, l = l1 ++ s :: l2 ∧ Forall (λ s', ts_skill_id s' ≠ ts_skill_id s) l1.
Proof.
  induction l as [|x l IH]; cbn.
  { split; [by intros ?%elem_of_nil|]. by intros ([] & ? & ? & _). }
  rewrite elem_of_cons, list_elem_of_filter, IH. split.
  - intros [->|[Hne (l1 & l2 & -> & Hl1)]]; [by exists [], l|]. exists (x :: l1), l2. split; [done|]. by constructor.
  - intros ([|y l1] & l2 & E & Hl1); simplify_eq/=; [by left|right]. inversion Hl1; subst. split; [done|eauto].
Qed.

Lemma first_per_skill_NoDup l : NoDup (ts_skill_id <$> first_per_skill l).
Proof.
  induction l as [|x l IH]; cbn; [constructor|]. constructor.
  - intros (s & Hs & [Hne _]%list_elem_of_filter)%list_elem_of_fmap. by apply Hne.
  - by apply NoDup_fmap_filter.
Qed.

Definition row_key (r : string * SkillVersionRow * SkillRow) : Z * string := (sv_created_at r.1.2, r.1.1).

Definition newer_first : Z * string → Z * string → bool := le_pair (λ a b, Z.leb b a) str_le.

Lemma elem_of_version_rows st h v s :
  (h, v, s) ∈ version_rows st ↔ versions st !! h = Some v ∧ skills st !! sv_skill_id v = Some s.
Proof.
  unfold version_rows. rewrite elem_of_sort_by, list_elem_of_omap. split.
  - intros ([h' v'] & Hin%elem_of_map_to_list & E). cbn in E.
    destruct (skills st !! sv_skill_id v') eqn:Es; [|done]. by simplify_eq/=.
  - intros [Hv Hs]. exists (h, v). split; [by apply elem_of_map_to_list|]. cbn. by rewrite Hs.
Qed.

Lemma version_rows_sorted st : sortedB (le_key newer_first row_key) (version_rows st).
Proof. apply sort_by_sorted. apply _. Qed.

(** [h] is the version of its skill the controller looks at: the newest, and the
    smallest hash among those registered at the same instant. *)
Definition current_version (st : Store) (h : string) (v : SkillVersionRow) : Prop :=
  ∀ h' v', versions st !! h' = Some v' → sv_skill_id v' = sv_skill_id v →
    newer_first (sv_created_at v, h) (sv_created_at v', h') = true.

Lemma first_of_skill st r1 r r2 r' :
  version_rows st = r1 ++ r :: r2 → r' ∈ version_rows st →
  Forall (λ x, sv_skill_id x.1.2 ≠ sv_skill_id r.1.2) r1 → sv_skill_id r'.1.2 = sv_skill_id r.1.2 →
  newer_first (row_key r) (row_key r') = true.
Proof.
  intros E Hin Hf Hs. pose proof (version_rows_sorted st) as Hsort. rewrite E in Hsort, Hin.
  apply StronglySorted_app_1_r in Hsort. apply elem_of_app in Hin as [Hin|Hin].
  - rewrite Forall_forall in Hf. by destruct (Hf _ Hin).
  - apply elem_of_cons in Hin as [->|Hin]; [by apply leB_refl, _|].
    inversion Hsort as [|? ? _ Hall]; subst. rewrite Forall_forall in Hall. by apply Hall.
Qed.

Lemma current_is_first st h v s :
  (h, v, s) ∈ version_rows st → current_version st h v →
  ∃ r1 r2, version_rows st = r1 ++ (h, v, s) :: r2 ∧ Forall (λ x, sv_skill_id x.1.2 ≠ sv_skill_id v) r1.
Proof.
  intros Hin Hcur.
  destruct (first_split (λ x : string * SkillVersionRow * SkillRow, sv_skill_id x.1.2 = sv_skill_id v)
    (version_rows st) (h, v, s) Hin eq_refl) as (r1 & [[h0 v0] s0] & r2 & E & Hs & Hf). cbn in Hs.
  assert (Hin0 : (h0, v0, s0) ∈ version_rows st) by (rewrite E; set_solver).
  apply elem_of_version_rows in Hin as Hv, Hin0 as Hv0. destruct Hv as [Hv Hsk], Hv0 as [Hv0 Hsk0].
  assert (Hf' : Forall (λ x, sv_skill_id x.1.2 ≠ sv_skill_id v0) r1) by (by rewrite Hs).
  pose proof (first_of_skill st r1 (h0, v0, s0) r2 (h, v, s) E Hin Hf' (eq_sym Hs)) as H1.
  pose proof (Hcur _ _ Hv0 Hs) as H2.
  pose proof (leB_antisym (le := newer_first) _ _ H1 H2) as H3. unfold row_key in H3. cbn in H3.
  simplify_eq. eauto.
Qed.

Lemma status_of_Ok h v k s :
  status_of (h, v, k) = Ok s ↔
  ∃ t, tier_of_value (sk_trust_tier k) = Some t ∧ s = mkStatus (sv_skill_id v) t h (sv_toolchain_digest v).
Proof.
  unfold status_of. cbn [fst snd]. destruct (tier_of_value (sk_trust_tier k)) as [t|]; [|naive_solver].
  split; [intros [= <-]; eauto|]. by intros (? & [= <-] & ->).
Qed.

Lemma statuses_skip rows ss id :
  Forall2 (λ r s, status_of r = Ok s) rows ss →
  Forall (λ s, ts_skill_id s ≠ id) ss ↔ Forall (λ r, sv_skill_id r.1.2 ≠ id) rows.
Proof.
  induction 1 as [|[[h v] k] s rows ss (t & _ & ->)%status_of_Ok _ IH]; [by split; constructor|].
  rewrite !Forall_cons, IH. done.
Qed.

Lemma published_iff st l :
  list_published_toolchain_statuses st = Ok l →
  NoDup (ts_skill_id <$> l) ∧
  ∀ s, s ∈ l ↔ ∃ v k, versions st !! ts_content_hash s = Some v ∧ sv_skill_id v = ts_skill_id s ∧
    skills st !! ts_skill_id s = Some k ∧ tier_of_value (sk_trust_tier k) = Some (ts_trust_tier s) ∧
    sv_toolchain_digest v = ts_recorded_toolchain_digest s ∧ current_version st (ts_content_hash s) v.
Proof.
  intros H. unfold list_published_toolchain_statuses in H. ok_inv.
  match goal with H : map_result _ _ = Ok ?x |- _ => rename H into Hm; rename x into ss end.
  apply map_result_Ok in Hm. split; [apply first_per_skill_NoDup|]. intros s. split.
  - intros (s1 & s2 & -> & Hf)%elem_of_first_per_skill.
    apply Forall2_app_inv_r in Hm as (r1 & r2' & Hm1 & Hm2 & E).
    inversion Hm2 as [|[[h v] k] ? r2 ? Hst _]; subst.
    apply status_of_Ok in Hst as (t & Ht & ->). cbn in *.
    assert (Hin : (h, v, k) ∈ version_rows st) by (rewrite E; set_solver).
    apply elem_of_version_rows in Hin as [Hv Hk]. exists v, k. split_and!; try done.
    intros h' v' Hv' Hs'. apply (first_of_skill st r1 (h, v, k) r2 (h', v', k)); [done| |exact (proj1 (statuses_skip _ _ _ Hm1) Hf)|done].
    apply elem_of_version_rows. by rewrite Hs'.
  - intros (v & k & Hv & Hs & Hk & Ht & Hd & Hcur).
    destruct (current_is_first st (ts_content_hash s) v k) as (r1 & r2 & E & Hf); [|done|].
    { apply elem_of_version_rows. by rewrite Hs. }
    rewrite E in Hm. apply Forall2_app_inv_l in Hm as (s1 & s2' & Hm1 & Hm2 & ->).
    inversion Hm2 as [|? s' ? s2 Hst _]; subst. apply status_of_Ok in Hst as (t & Ht' & ->). cbn in *.
    assert (t = ts_trust_tier s) as -> by congruence. rewrite Hs, Hd.
    apply elem_of_first_per_skill. exists s1, s2. split; [by destruct s|]. rewrite <-Hs in *. cbn.
    exact (proj2 (statuses_skip r1 s1 (sv_skill_id v) Hm1) Hf).
Qed.

(** The controller judges each registered skill by one version, its newest: an
    answer has one status per skill, and a status is in it exactly if its hash is the
    newest registered version of a registered skill, with the digest recorded for it
    and the skill's own tier. *)
Theorem statuses_are_current st l :
  list_published_toolchain_statuses st = Ok l →
  NoDup (ts_skill_id <$> l) ∧
  ∀ s, s ∈ l ↔ ∃ v k, versions st !! ts_content_hash s = Some v ∧ sv_skill_id v = ts_skill_id s ∧
    skills st !! ts_skill_id s = Some k ∧ tier_of_value (sk_trust_tier k) = Some (ts_trust_tier s) ∧
    sv_toolchain_digest v = ts_recorded_toolchain_digest s ∧ current_version st (ts_content_hash s) v.
Proof. apply published_iff. Qed.

(** ** What a drain queues *)

Section drain.
Context (sha256 : list Z → string) (uuid : nat → string).

Lemma job_with_cache_key_None o ck :
  job_with_cache_key o ck = None ↔ ∀ id j, jobs o !! id = Some j → j_cache_key j ≠ ck.
Proof.
  unfold job_with_cache_key. rewrite fmap_None. split.
  - intros Hf id j Hj <-. apply elem_of_map_to_list, list_elem_of_In in Hj.
    pose proof (find_none _ _ Hf _ Hj) as H. cbn in H. by rewrite String.eqb_refl in H.
  - intros H. destruct (find _ _) as [[id j]|] eqn:E; [|done]. apply find_some in E as [Hin E].
    apply list_elem_of_In, elem_of_map_to_list in Hin. apply String.eqb_eq in E. by destruct (H id j).
Qed.

(** A rescan of [t] is on record: some job has its content and digest's cache key. *)
Definition on_record (d : string) (o : OrchStore) (t : PublishedToolchainStatus) : Prop :=
  ∃ id j ck, jobs o !! id = Some j ∧ cache_key sha256 (ts_content_hash t) d = Ok ck ∧ j_cache_key j = ck.

Definition rescan_of (d submitter : string) (now : Z) (t : PublishedToolchainStatus) (j : ScanJob) : Prop :=
  j_content_hash j = ts_content_hash t ∧ j_toolchain_digest j = d ∧ j_state j = STATE_QUEUED ∧
  j_submitter j = submitter ∧ j_created_at j = now ∧ j_trust_tier j = Some (tier_value (ts_trust_tier t)) ∧
  cache_key sha256 (ts_content_hash t) d = Ok (j_cache_key j).

Lemma build_rescan_job_Ok t d submitter now j :
  build_rescan_job sha256 t d submitter now = Ok j → rescan_of d submitter now t j.
Proof. unfold build_rescan_job, rescan_of. destruct (cache_key _ _ _) as [ck|]; [|done]. by intros [= <-]. Qed.

Definition unique_cache_keys (o : OrchStore) : Prop :=
  ∀ id id' j j', jobs o !! id = Some j → jobs o !! id' = Some j' → j_cache_key j = j_cache_key j' → id = id'.

(** What queueing [targets] does to the job table. *)
Record queues (d submitter : string) (now : Z) (targets : list PublishedToolchainStatus)
    (o o' : OrchStore) (n : nat) : Prop := {
  q_keeps : jobs o ⊆ jobs o';
  q_count : size (jobs o') = (size (jobs o) + n)%nat;
  q_new id j : jobs o' !! id = Some j → jobs o !! id = None →
    ∃ t, t ∈ targets ∧ rescan_of d submitter now t j ∧ ¬ on_record d o t;
  q_unique : unique_cache_keys o → unique_cache_keys o';
  q_rest : submitters o' = submitters o ∧ results o' = results o ∧ health o' = health o;
}.

Lemma on_record_mono d o o' t : jobs o ⊆ jobs o' → on_record d o t → on_record d o' t.
Proof. intros Hsub (id & j & ck & Hj & ?). exists id, j, ck. split; [by eapply lookup_weaken|done]. Qed.

Lemma insert_job_queues d submitter now t o o' id j :
  build_rescan_job sha256 t d submitter now = Ok j → insert_job id j o = Some o' →
  queues d submitter now [t] o o' 1 ∧ jobs o' = <[id := j]> (jobs o).
Proof.
  intros Hj%build_rescan_job_Ok. unfold insert_job.
  destruct (jobs o !! id) eqn:Hid; [done|]. destruct (job_with_cache_key _ _) eqn:Hck; [done|]. intros [= <-].
  rewrite job_with_cache_key_None in Hck. split; [|done]. split; cbn [set_jobs jobs].
  - by apply insert_subseteq.
  - rewrite map_size_insert_None by done. lia.
  - intros id' j'. rewrite lookup_insert. case_decide as E; [intros [= <-]|congruence]. intros _. exists t.
    split; [by left|]. split; [done|]. intros (id2 & j2 & ck & Hj2 & Hk & <-).
    destruct Hj as (_ & _ & _ & _ & _ & _ & Hk'). destruct (Hck id2 j2 Hj2). congruence.
  - intros Hu id1 id2 j1 j2. cbn [set_jobs jobs]. rewrite !lookup_insert. do 2 case_decide; intros; simplify_eq/=; [done| | |by eapply Hu].
    + exfalso. by eapply Hck.
    + exfalso. by eapply Hck.
  - done.
Qed.

Lemma queues_trans d submitter now ts1 ts2 o1 o2 o3 n1 n2 :
  queues d submitter now ts1 o1 o2 n1 → queues d submitter now ts2 o2 o3 n2 →
  queues d submitter now (ts1 ++ ts2) o1 o3 (n1 + n2).
Proof.
  intros [K1 C1 N1 U1 R1] [K2 C2 N2 U2 R2]. split.
  - by etrans.
  - lia.
  - intros id j Hj Hn. destruct (jobs o2 !! id) as [j2|] eqn:E2.
    + pose proof (lookup_weaken _ _ _ _ E2 K2). simplify_eq. destruct (N1 _ _ E2 Hn) as (t & ? & ?). exists t. set_solver.
    + destruct (N2 _ _ Hj E2) as (t & Hin & Hr & Hnot). exists t. split; [set_solver|]. split; [done|].
      intros H. apply Hnot. by eapply on_record_mono.
  - auto.
  - destruct R1 as (? & ? & ?), R2 as (? & ? & ?). split_and!; congruence.
Qed.

Lemma queues_none d submitter now ts o : queues d submitter now ts o o 0.
Proof. split; [done|lia|congruence|done|done]. Qed.

Lemma trigger_loop_queues i ts d submitter now q o q' o' :
  trigger_loop sha256 uuid i ts d submitter now q o = Ok (q', o') →
  ∃ n, q' = (q + n)%nat ∧ queues d submitter now ts o o' n.
Proof.
  revert i q o. induction ts as [|t ts IH]; intros i q o H; cbn in H.
  { injection H as <- <-. exists 0%nat. split; [lia|apply queues_none]. }
  ok_inv. rename x into j, H into Hb, H0 into H1. destruct (insert_job (uuid i) j o) as [o1|] eqn:Ei.
  - apply IH in H1 as (n & -> & Hq). eapply insert_job_queues in Ei as [Hi _]; [|done]. exists (S n). split; [lia|].
    by apply (queues_trans d submitter now [t] ts o o1 o' 1 n).
  - apply IH in H1 as (n & -> & Hq). exists n. split; [lia|].
    apply (queues_trans d submitter now [t] ts o o o' 0 n); [apply queues_none|done].
Qed.

(** With fresh ids, every target ends up on record. *)
Lemma trigger_loop_records i ts d submitter now q o q' o' :
  trigger_loop sha256 uuid i ts d submitter now q o = Ok (q', o') →
  (∀ k, (i <= k)%nat → jobs o !! uuid k = None) → (∀ k k', uuid k = uuid k' → k = k') →
  ∀ t, t ∈ ts → on_record d o' t.
Proof.
  revert i q o. induction ts as [|t ts IH]; intros i q o H Hfresh Hinj t' Hin; [by apply elem_of_nil in Hin|].
  cbn in H. ok_inv. rename x into j, H into Hb, H0 into H1. apply build_rescan_job_Ok in Hb as Hr.
  assert (Hhere : ∀ q1 o1, trigger_loop sha256 uuid (S i) ts d submitter now q1 o1 = Ok (q', o') →
    (∀ k, (S i <= k)%nat → jobs o1 !! uuid k = None) → on_record d o1 t → on_record d o' t').
  { intros q1 o1 H2 Hf1 Ht. apply elem_of_cons in Hin as [->|Hin]; [|by eapply IH].
    apply trigger_loop_queues in H2 as (n & _ & Hq). eapply on_record_mono; [apply Hq|done]. }
  destruct Hr as (_ & _ & _ & _ & _ & _ & Hk).
  destruct (insert_job (uuid i) j o) as [o1|] eqn:Ei.
  - eapply insert_job_queues in Ei as [_ Ej]; [|done]. apply (Hhere (S q) o1); [done| |].
    + intros k Hle. rewrite Ej, lookup_insert_ne; [apply Hfresh; lia|]. intros E%Hinj. lia.
    + exists (uuid i), j, (j_cache_key j). by rewrite Ej, lookup_insert_eq.
  - apply (Hhere q o); [done|intros k Hle; apply Hfresh; lia|]. unfold insert_job in Ei. rewrite Hfresh in Ei by lia.
    destruct (job_with_cache_key o (j_cache_key j)) as [id|] eqn:Ek; [|done].
    unfold job_with_cache_key in Ek. destruct (find _ _) as [[id' j']|] eqn:Ef; [|done].
    apply find_some in Ef as [Hin' Hck]. apply list_elem_of_In, elem_of_map_to_list in Hin'.
    apply String.eqb_eq in Hck. by exists id', j', (j_cache_key j).
Qed.

(** Nothing is queued for targets that are all on record. *)
Lemma trigger_loop_idle i ts d submitter now q o q' o' :
  Forall (on_record d o) ts → trigger_loop sha256 uuid i ts d submitter now q o = Ok (q', o') → q' = q ∧ o' = o.
Proof.
  revert i. induction ts as [|t ts IH]; intros i Hall H; cbn in H; [by injection H as <- <-|].
  inversion Hall as [|? ? (id & j' & ck & Hj' & Hk & Hck) Hall']; subst. ok_inv. rename x into j, H into Hb, H0 into H1.
  apply build_rescan_job_Ok in Hb as (_ & _ & _ & _ & _ & _ & Hk').
  assert (insert_job (uuid i) j o = None) as E; [|rewrite E in H1; by eapply IH].
  unfold insert_job. destruct (jobs o !! uuid i); [done|].
  destruct (job_with_cache_key o (j_cache_key j)) eqn:En; [done|]. rewrite job_with_cache_key_None in En.
  destruct (En id j' Hj'). congruence.
Qed.

Lemma drain_Ok limit subject d now st o reply o' :
  drain_stale_reeval sha256 uuid limit subject d now st o = Ok (reply, o') ↔
  1 <= limit <= _MAX_DRAIN_LIMIT ∧ ∃ statuses n, list_published_toolchain_statuses st = Ok statuses ∧
    let stale := batch_rescan_targets statuses d in
    let selected := take (Z.to_nat limit) stale in
    trigger_rescans sha256 uuid selected d subject now o = Ok (n, o') ∧
    reply = mkDrainReply (length stale) (length selected) n (length stale - length selected).
Proof.
  unfold drain_stale_reeval. split.
  - intros H. ok_inv. bool_prop. rewrite ->Z.leb_le in *. destruct x1 as [n o1]. cbn in *. simplify_eq/=. eauto 10.
  - intros (Hl & statuses & n & -> & H & ->). cbn [mbind result_bind].
    assert ((1 <=? limit) && (limit <=? _MAX_DRAIN_LIMIT) = true) as ->; [|cbn; by rewrite H].
    by rewrite andb_true_iff, !Z.leb_le.
Qed.

Lemma batch_rescan_sorted statuses d : sortedB by_tier (batch_rescan_targets statuses d).
Proof. apply sort_by_sorted. unfold by_tier. apply _. Qed.

(** A drain works from the highest-exposure end.  It splits the stale statuses into
    the page it selects and the rest, no skill of the page ranking below one of the
    rest; it leaves every job it finds; each job it adds is a queued rescan of a
    selected skill's content under the current digest, at the skill's own tier, that
    was not on record; the cache key stays unique; and what it reports is exact. *)
Theorem drain_takes_highest_exposure limit subject d now st o reply o' :
  drain_stale_reeval sha256 uuid limit subject d now st o = Ok (reply, o') →
  ∃ statuses page rest, list_published_toolchain_statuses st = Ok statuses ∧
    base.filter (λ s, is_stale s d = true) statuses ≡ₚ page ++ rest ∧
    (∀ s t, s ∈ page → t ∈ rest → _TIER_ORDER (ts_trust_tier s) <= _TIER_ORDER (ts_trust_tier t)) ∧
    queues d subject now page o o' (versions_queued reply) ∧
    targets_selected reply = length page ∧ remaining reply = length rest ∧
    stale_total reply = (length page + length rest)%nat ∧ (length page = Z.to_nat limit ∨ rest = []).
Proof.
  intros (Hl & statuses & n & Hs & Ht & ->)%drain_Ok. cbn [versions_queued targets_selected remaining stale_total].
  set (stale := batch_rescan_targets statuses d) in *.
  exists statuses, (take (Z.to_nat limit) stale), (drop (Z.to_nat limit) stale).
  split; [done|]. split; [rewrite take_drop; symmetry; apply sort_by_perm|]. split.
  { intros s t Hp Hr. pose proof (batch_rescan_sorted statuses d) as Hsort. fold stale in Hsort.
    rewrite <-(take_drop (Z.to_nat limit) stale) in Hsort. apply Z.leb_le.
    by apply (StronglySorted_app_1_elem_of _ _ _ s t Hsort). }
  apply trigger_loop_queues in Ht as (n' & Hn & Hq). cbn in Hn. subst n'. split; [done|].
  rewrite length_drop, length_take. split_and!; [done|lia|lia|].
  destruct (decide (Z.to_nat limit <= length stale)%nat); [left; lia|right; apply drop_ge; lia].
Qed.

End drain.

(** ** A round: drain, scan, advance *)

Lemma update_digests_at confirmed d st h :
  versions (update_digests confirmed d st) !! h =
  (if bool_decide (h ∈ confirmed) then set_digest d else id) <$> versions st !! h.
Proof.
  cbn. induction confirmed as [|c cs IH]; cbn [foldr].
  - rewrite bool_decide_false by (by intros ?%elem_of_nil). by destruct (versions st !! h).
  - rewrite lookup_alter. destruct (decide (c = h)) as [->|E].
    + rewrite IH, (bool_decide_true (h ∈ h :: cs)) by (by left). destruct (versions st !! h) as [v|]; [|done].
      cbn. by case_bool_decide.
    + rewrite IH. assert (bool_decide (h ∈ cs) = bool_decide (h ∈ c :: cs)) as ->; [|done].
      apply bool_decide_ext. rewrite elem_of_cons. naive_solver.
Qed.

Lemma update_digests_current confirmed d st h v :
  current_version (update_digests confirmed d st) h v → current_version st h v.
Proof.
  intros H h' v' Hv' Hs. specialize (H h' ((if bool_decide (h' ∈ confirmed) then set_digest d else id) v')).
  rewrite update_digests_at, Hv' in H. specialize (H eq_refl). by case_bool_decide; apply H.
Qed.

Lemma current_set_digest st h d v : current_version st h (set_digest d v) ↔ current_version st h v.
Proof. done. Qed.

(** Reading the statuses fails only on a tier that is none of the three. *)
Lemma published_total st :
  is_ok (list_published_toolchain_statuses st) = true ↔
  ∀ h v k, versions st !! h = Some v → skills st !! sv_skill_id v = Some k → tier_of_value (sk_trust_tier k) ≠ None.
Proof.
  unfold list_published_toolchain_statuses. trans (∀ r, r ∈ version_rows st → is_ok (status_of r) = true).
  - induction (version_rows st) as [|r l IH]; cbn; [split; [intros _ r Hr; by apply elem_of_nil in Hr|done]|].
    setoid_rewrite elem_of_cons. destruct (status_of r) as [s|e] eqn:Es; cbn.
    + split.
      * intros H r' [->|Hr']; [by rewrite Es|]. destruct (map_result status_of l); [|done]. by apply IH.
      * intros H. destruct (map_result status_of l); [done|]. cbn in IH. apply IH. auto.
    + split; [done|]. intros H. specialize (H r). rewrite Es in H. by apply H; left.
  - split.
    + intros H h v k Hv Hk. specialize (H (h, v, k)). rewrite elem_of_version_rows in H.
      specialize (H (conj Hv Hk)). unfold status_of in H. cbn [fst snd] in H.
      by destruct (tier_of_value (sk_trust_tier k)).
    + intros H [[h v] k] [Hv Hk]%elem_of_version_rows. specialize (H _ _ _ Hv Hk).
      unfold status_of. cbn [fst snd]. by destruct (tier_of_value (sk_trust_tier k)).
Qed.

(** Once advanced, the stale statuses are the stale ones from before whose content was
    not confirmed. *)
Lemma advance_stale confirmed d st l :
  list_published_toolchain_statuses st = Ok l →
  ∃ l', list_published_toolchain_statuses (update_digests confirmed d st) = Ok l' ∧ NoDup l' ∧
    ∀ s, s ∈ l' → is_stale s d = true → s ∈ l ∧ ts_content_hash s ∉ confirmed.
Proof.
  intros Hl. destruct (list_published_toolchain_statuses (update_digests confirmed d st)) as [l'|e] eqn:E.
  - exists l'. apply published_iff in E as [Hnd Hin]. split; [done|]. split; [by eapply NoDup_fmap_1|]. intros s Hs Hst.
    apply Hin in Hs as (v' & k & Hv' & Hid & Hk & Ht & Hd & Hc). rewrite update_digests_at in Hv'.
    apply fmap_Some in Hv' as (v & Hv & ->). case_bool_decide as Hcf.
    { unfold is_stale in Hst. rewrite <-Hd in Hst. cbn in Hst. by rewrite String.eqb_refl in Hst. }
    split; [|done]. apply (published_iff _ _ Hl). exists v, k. split_and!; try done. by eapply update_digests_current.
  - assert (is_ok (list_published_toolchain_statuses (update_digests confirmed d st)) = true) as H; [|by rewrite E in H].
    apply published_total. intros h v' k Hv' Hk. assert (Ht := proj1 (published_total st)). rewrite Hl in Ht.
    rewrite update_digests_at in Hv'. apply fmap_Some in Hv' as (v & Hv & ->).
    apply (Ht eq_refl h v k Hv). by case_bool_decide.
Qed.

Definition decided_under (d : string) (j : ScanJob) : Prop := j_toolchain_digest j = d ∧ j_state j = STATE_DECIDED.

#[export] Instance decided_under_dec d j : Decision (decided_under d j).
Proof. unfold decided_under. apply _. Defined.

Lemma confirmed_when_decided o g st d limit id j v :
  jobs o !! id = Some j → decided_under d j → v_content_hash <$> verdicts g !! id = Some (j_content_hash j) →
  versions st !! j_content_hash j = Some v → sv_toolchain_digest v ≠ d → (size (jobs o) <= limit)%nat →
  j_content_hash j ∈ confirmed_hashes o g st d limit.
Proof.
  intros Hj Hdec Hg Hv Hne Hlim. unfold confirmed_hashes. apply list_elem_of_fmap. exists (id, j). split; [done|].
  apply list_elem_of_filter. cbn [fst snd]. rewrite Hv. split; [split; [by apply negb_true_iff, String.eqb_neq|done]|].
  rewrite take_ge; [|].
  - apply elem_of_sort_by, list_elem_of_filter. split; [done|]. by apply elem_of_map_to_list.
  - rewrite length_sort_by. etrans; [apply length_filter|]. by rewrite length_map_to_list.
Qed.

(** [o2] and [g] once the pipeline has decided every scan of [o1] under [d]. *)
Definition all_decided (d : string) (o1 o2 : OrchStore) (g : GateStore) : Prop :=
  ∀ id j, jobs o1 !! id = Some j → j_toolchain_digest j = d →
    ∃ j2, jobs o2 !! id = Some j2 ∧ j_content_hash j2 = j_content_hash j ∧ decided_under d j2 ∧
      v_content_hash <$> verdicts g !! id = Some (j_content_hash j).

Section rounds.
Context (sha256 : list Z → string) (uuid : nat → string).

(** Repeated drains converge.  After a drain whose rescans have all been decided,
    with the worker's window wide enough to see them, the inventory is still readable
    and at most [stale_total - targets_selected] skills are stale: each round retires
    its whole page, and adds nothing. *)
Theorem drain_round_retires limit subject d now st o reply o1 o2 g batch :
  drain_stale_reeval sha256 uuid limit subject d now st o = Ok (reply, o1) →
  (∀ k, jobs o !! uuid k = None) → (∀ k k', uuid k = uuid k' → k = k') →
  (∀ id j h, jobs o1 !! id = Some j → cache_key sha256 h d = Ok (j_cache_key j) →
     j_content_hash j = h ∧ j_toolchain_digest j = d) →
  all_decided d o1 o2 g → (size (jobs o2) <= batch)%nat →
  ∃ l', list_published_toolchain_statuses (advance_scanned_toolchain_digests o2 g d batch st) = Ok l' ∧
    (length (batch_rescan_targets l' d) <= stale_total reply - targets_selected reply)%nat.
Proof.
  intros (Hl & statuses & n & Hs & Ht & ->)%drain_Ok Hfresh Hinj Hkeys Hdec Hsize.
  cbn [stale_total targets_selected]. set (stale := batch_rescan_targets statuses d) in *.
  destruct (advance_stale (confirmed_hashes o2 g st d batch) d st statuses Hs) as (l' & Hl' & Hnd & Hst).
  exists l'. split; [done|].
  replace (length stale - length (take (Z.to_nat limit) stale))%nat with (length (drop (Z.to_nat limit) stale))
    by (rewrite length_drop, length_take; lia).
  unfold batch_rescan_targets at 1. rewrite length_sort_by.
  apply submseteq_length, NoDup_submseteq; [by apply NoDup_filter|].
  intros s [Hss Hin]%list_elem_of_filter. destruct (Hst s Hin Hss) as [Hold Hnc].
  assert (Hstale : s ∈ stale) by (apply elem_of_sort_by, list_elem_of_filter; done).
  rewrite <-(take_drop (Z.to_nat limit) stale) in Hstale. apply elem_of_app in Hstale as [Hsel|]; [|done].
  destruct Hnc. eapply trigger_loop_records in Ht as (id & j & ck & Hj & Hck & <-); [|by auto|done|exact Hsel].
  destruct (Hkeys _ _ _ Hj Hck) as [Hcont Hd].
  destruct (Hdec _ _ Hj Hd) as (j2 & Hj2 & Hcont2 & Hdec2 & Hg). rewrite <-Hcont2 in Hcont, Hg. rewrite <-Hcont.
  apply (published_iff _ _ Hs) in Hold as (v & _ & Hv & _ & _ & _ & Hvd & _). rewrite <-Hcont in Hv.
  apply (confirmed_when_decided o2 g st d batch id j2 v); try done.
  unfold is_stale in Hss. rewrite <-Hvd in Hss. by apply negb_true_iff, String.eqb_neq in Hss.
Qed.

End rounds.

(** ** The worker's window *)

(** In a sorted list, whatever ranks strictly before [x] comes before it. *)
Lemma take_excludes {A} (le : A → A → bool) `{!TotalPreB le} (l : list A) n x :
  sortedB le l → (n <= length (base.filter (λ y, negb (le x y)) l))%nat → x ∉ take n l.
Proof.
  intros Hs Hn Hx. pose proof (firstn_le_length n l) as Hlen.
  apply list_elem_of_split in Hx as (l1 & l2 & E).
  rewrite E, length_app in Hlen. cbn in Hlen.
  rewrite <-(take_drop n l), E, <-app_assoc in Hs, Hn. cbn in Hs, Hn.
  apply StronglySorted_app_1_r in Hs. inversion Hs as [|? ? _ Hall]; subst. rewrite Forall_forall in Hall.
  rewrite filter_app, length_app, (filterb_nil _ (x :: l2 ++ drop n l)) in Hn.
  - pose proof (length_filter (λ y, negb (le x y)) l1). cbn in *. lia.
  - intros y [->|Hy]%elem_of_cons; apply negb_false_iff; [by apply leB_refl|by apply Hall].
Qed.

Definition later (x y : string * ScanJob) : bool := j_created_at y.2 <=? j_created_at x.2.

#[local] Instance later_total : TotalPreB later.
Proof. split; unfold later; intros *; rewrite ?Z.leb_le, ?Z.leb_gt; lia. Qed.

(** A rescan decided late is never noticed.  The worker looks at the newest decided
    scans by the time they were CREATED: when [batch] decided scans of the current
    toolchain were created after every decided scan of a content, that content's
    version keeps the digest it has, so it stays stale however often the worker runs. *)
Theorem late_decision_is_not_advanced o g st d batch h :
  (∀ id j, jobs o !! id = Some j → decided_under d j → j_content_hash j = h →
     (batch <= length (base.filter (λ kv : string * ScanJob,
        decided_under d kv.2 ∧ (j_created_at j < j_created_at kv.2)%Z) (map_to_list (jobs o))))%nat) →
  versions (advance_scanned_toolchain_digests o g d batch st) !! h = versions st !! h.
Proof.
  intros Hlate. unfold advance_scanned_toolchain_digests. rewrite update_digests_at, bool_decide_false.
  { by destruct (versions st !! h). }
  unfold confirmed_hashes. intros ([id j] & -> & [_ Hin]%list_elem_of_filter)%list_elem_of_fmap.
  pose proof Hin as Hin'. apply subseteq_take in Hin'. apply elem_of_sort_by, list_elem_of_filter in Hin' as [Hd Hj].
  apply elem_of_map_to_list in Hj. specialize (Hlate id j Hj Hd eq_refl).
  revert Hin. change (λ a b : string * ScanJob, j_created_at b.2 <=? j_created_at a.2) with later.
  apply (take_excludes later); [apply sort_by_sorted, _|].
  rewrite (sort_by_perm later), list_filter_filter. etrans; [exact Hlate|].
  apply Nat.eq_le_incl. f_equal. apply list_filter_iff. intros [id' j']. unfold later, decided_under. cbn [snd].
  rewrite Is_true_true, negb_true_iff, Z.leb_gt. tauto.
Qed.

(** ** Witnesses *)

Module ReevalSamples.

(** A hash that tells the bytes hashed for [a1] from all others. *)
Definition a1_bytes : bytes := match cache_preimage "a1" "new" with Ok b => b | Err _ => [] end.
Definition digest (b : bytes) : string := if bool_decide (b = a1_bytes) then "K" else "L".
Definition scan_ids (k : nat) : string := String.string_of_list_ascii (repeat Ascii.zero k).

Definition skill_row (tier : string) : SkillRow := mkSkillRow "market" tier None None 0.
Definition version (k digest : string) (at_ : Z) : SkillVersionRow := mkSkillVersionRow k digest JNull at_.

(** Two published skills, both scanned by the old toolchain; [k1] has an older version. *)
Definition shop_floor : Store :=
  mkStore (<["k1" := skill_row "public"]> (<["k2" := skill_row "internal"]> ∅))
    (<["a0" := version "k1" "old" 1]> (<["a1" := version "k1" "old" 2]> (<["b2" := version "k2" "old" 1]> ∅)))
    ∅ [] [].
Definition no_jobs : OrchStore := mkOrchStore ∅ ∅ ∅ ∅.

Definition k1_status : PublishedToolchainStatus := mkStatus "k1" PUBLIC "a1" "old".
Definition k2_status : PublishedToolchainStatus := mkStatus "k2" INTERNAL "b2" "old".

Lemma statuses_are_current_witness :
  list_published_toolchain_statuses shop_floor = Ok [k1_status; k2_status] ∧
  NoDup (ts_skill_id <$> [k1_status; k2_status]).
Proof.
  assert (H : list_published_toolchain_statuses shop_floor = Ok [k1_status; k2_status]) by (vm_compute; reflexivity).
  split; [exact H|]. exact (proj1 (statuses_are_current shop_floor _ H)).
Defined.

Definition drained : result ReevalError (DrainReply * OrchStore) :=
  drain_stale_reeval digest scan_ids 1 "admin" "new" 9 shop_floor no_jobs.
Definition drained_jobs : OrchStore := match drained with Ok (_, o) => o | Err _ => no_jobs end.
Definition drained_reply : DrainReply := mkDrainReply 2 1 1 1.

Lemma drained_Ok : drained = Ok (drained_reply, drained_jobs).
Proof. vm_compute. reflexivity. Qed.

Lemma drain_takes_highest_exposure_witness :
  size (jobs drained_jobs) = 1%nat ∧ unique_cache_keys drained_jobs.
Proof.
  destruct (drain_takes_highest_exposure digest scan_ids 1 "admin" "new" 9 shop_floor no_jobs drained_reply
    drained_jobs drained_Ok) as (? & page & rest & _ & _ & _ & Hq & _).
  split; [exact (q_count _ _ _ _ _ _ _ _ Hq)|]. apply (q_unique _ _ _ _ _ _ _ _ Hq).
  intros id id' j j' H. change (jobs no_jobs) with (∅ : gmap string ScanJob) in H. by rewrite lookup_empty in H.
Defined.

(** The rescan is decided and recorded. *)
Definition scanned_jobs : OrchStore := set_jobs (fmap (with_state STATE_DECIDED)) drained_jobs.
Definition verdict_store : GateStore :=
  mkGateStore (<[scan_ids 0 := mkVerdictRow "" "a1" "PASS" "p1" "" "" 0 0 [] false 10]> ∅) ∅ [] [].

Lemma scan_ids_inj k k' : scan_ids k = scan_ids k' → k = k'.
Proof.
  intros E. apply (f_equal String.list_ascii_of_string) in E. unfold scan_ids in E.
  rewrite !String.list_ascii_of_string_of_list_ascii in E. apply (f_equal length) in E. by rewrite !repeat_length in E.
Qed.

Lemma key_of_a1 h : cache_key digest h "new" = Ok "K" → h = "a1".
Proof.
  intros H. unfold cache_key in H. destruct (cache_preimage h "new") as [b|] eqn:E; [|done]. cbn in H.
  unfold digest in H. case_bool_decide as Hb; [subst b|done].
  apply (cache_preimage_content h "a1" "new" a1_bytes); [done|vm_compute; reflexivity].
Qed.

Lemma drained_job id j : jobs drained_jobs !! id = Some j →
  id = scan_ids 0 ∧ j = mkScanJob "a1" "new" "K" STATE_QUEUED "admin" 9 None None (Some "public").
Proof.
  assert (E : jobs drained_jobs = {[ scan_ids 0 := mkScanJob "a1" "new" "K" STATE_QUEUED "admin" 9 None None (Some "public") ]})
    by (vm_compute; reflexivity).
  rewrite E, lookup_singleton_Some. clear E. intros [<- <-]. split; reflexivity.
Qed.

Lemma drain_round_retires_witness :
  ∃ l', list_published_toolchain_statuses
          (advance_scanned_toolchain_digests scanned_jobs verdict_store "new" 200 shop_floor) = Ok l' ∧
    (length (batch_rescan_targets l' "new") <= 1)%nat.
Proof.
  apply (drain_round_retires digest scan_ids 1 "admin" "new" 9 shop_floor no_jobs drained_reply drained_jobs
    scanned_jobs verdict_store 200 drained_Ok).
  - intros k. apply lookup_empty.
  - exact scan_ids_inj.
  - intros id j h [_ ->]%drained_job Hk. by rewrite (key_of_a1 h Hk).
  - intros id j [-> ->]%drained_job _.
    exists (mkScanJob "a1" "new" "K" STATE_DECIDED "admin" 9 None None (Some "public")).
    split; [vm_compute; reflexivity|]. split; [done|]. split; [done|vm_compute; reflexivity].
  - vm_compute. lia.
Defined.

(** With a window of 5: a rescan of [a1] created at 9, decided after 5 scans created at 10. *)
Definition decided_at (content : string) (at_ : Z) : ScanJob :=
  mkScanJob content "new" (content +:+ "-key") STATE_DECIDED "admin" at_ None None None.
Definition busy_jobs : OrchStore :=
  mkOrchStore
    (<["late" := mkScanJob "a1" "new" "K" STATE_DECIDED "admin" 9 None None (Some "public")]>
       (list_to_map (map (λ k, (scan_ids k, decided_at (scan_ids k) 10)) (seq 0 5)))) ∅ ∅ ∅.
Definition late_verdict : GateStore :=
  mkGateStore (<["late" := mkVerdictRow "late" "a1" "PASS" "p1" "" "" 0 0 [] false 10]> ∅) ∅ [] [].

(** The worker does not move it, and the next drain, which still selects it, queues
    nothing: [a1] counts as stale for as long as the toolchain stays. *)
Lemma late_decision_is_not_advanced_witness :
  versions (advance_scanned_toolchain_digests busy_jobs late_verdict "new" 5 shop_floor) !! "a1" =
    Some (version "k1" "old" 2) ∧
  drain_stale_reeval digest (λ k, "r" +:+ scan_ids k) 1 "admin" "new" 11 shop_floor busy_jobs
    = Ok (mkDrainReply 2 1 0 1, busy_jobs).
Proof.
  split; [|vm_compute; reflexivity].
  rewrite (late_decision_is_not_advanced busy_jobs late_verdict shop_floor "new" 5 "a1"); [vm_compute; reflexivity|].
  intros id j Hj _ Hc.
  assert (Ha : forallb (λ kv : string * ScanJob, negb (String.eqb (j_content_hash kv.2) "a1") || (j_created_at kv.2 =? 9))
                 (map_to_list (jobs busy_jobs)) = true) by (vm_compute; reflexivity).
  rewrite forallb_true in Ha. specialize (Ha (id, j) (proj2 (elem_of_map_to_list _ _ _) Hj)). cbn [snd] in Ha.
  rewrite Hc in Ha. cbn in Ha. apply Z.eqb_eq in Ha. rewrite Ha. vm_compute. lia.
Defined.
End ReevalSamples.
