(* ===== verification/Policy.v ===== *)
(** * The gate policy: reading it from YAML

    [apps/monolith/modules/gate/policy.py]: a YAML mapping becomes a [GatePolicy],
    fail-closed, every field checked, and the comparison of a tier's thresholds with
    the base policy's.  The YAML reader is a parameter, its result a [yaml] value.
    [PolicyWorkflow.v] has the proposals that carry such documents. *)

From S2P Require Import Prelude Float64 Models Scoring Gate Json.
From Stdlib Require Import QArith.
Open Scope string_scope.
Open Scope list_scope.
Open Scope Z_scope.

(** ** Parsing *)

(** What [yaml.safe_load] returns; a mapping keeps its keys in order, each once.
    [YOther] is a date, a timestamp, bytes or a set. *)
Inductive yaml :=
| YNull
| YBool (b : bool)
| YInt (z : Z)
| YFloat (f : pyfloat)
| YStr (s : string)
| YList (l : list yaml)
| YMap (l : list (yaml * yaml))
| YOther.

Inductive GatePolicyLoadError :=
| missing_version
| missing_required_engines
| bad_field (name : string)
| unknown_category
| weight_invalid (name : string)
| policy_invalid (e : GatePolicyError)
| overflow_error.  (* [float(n)] of an integer too large: not a GatePolicyLoadError *)

Definition key_is (k : string) (kv : yaml * yaml) : bool :=
  match kv.1 with YStr s => String.eqb s k | _ => false end.

(** [raw[k]] / [raw.get(k)]. *)
Definition yget (k : string) (m : list (yaml * yaml)) : option yaml := snd <$> find (key_is k) m.

(** [float(n)] of an integer: rounded, and an error from 2^1024 on. *)
Definition float_of_int (z : Z) : result GatePolicyLoadError pyfloat :=
  let r := rnd64 (inject_Z z) in
  if qle (inject_Z (2 ^ 1024)) (Qabs.Qabs r) then Err overflow_error else Ok (Fin r).

Definition _parse_severity (field_name : string) (raw : yaml) : result GatePolicyLoadError Severity :=
  match raw with
  | YStr s => match sev_of_name s with Some v => Ok v | None => Err (bad_field field_name) end
  | _ => Err (bad_field field_name)
  end.

Definition _parse_verdict (field_name : string) (raw : yaml) : result GatePolicyLoadError Verdict :=
  match raw with
  | YStr s => match verdict_of_name s with Some v => Ok v | None => Err (bad_field field_name) end
  | _ => Err (bad_field field_name)
  end.

Definition _parse_trust_tier (field_name : string) (raw : yaml) : result GatePolicyLoadError TrustTier :=
  match raw with
  | YStr s => match tier_of_value s with Some v => Ok v | None => Err (bad_field field_name) end
  | _ => Err (bad_field field_name)
  end.

Definition yaml_str (y : yaml) : option string := match y with YStr s => Some s | _ => None end.

Definition _parse_str_sequence (field_name : string) (raw : option yaml)
    : result GatePolicyLoadError (list string) :=
  match raw with
  | None | Some YNull => Ok []
  | Some (YList l) => match mapM yaml_str l with Some ss => Ok ss | None => Err (bad_field field_name) end
  | Some _ => Err (bad_field field_name)
  end.

Definition parse_override (entry : yaml) : result GatePolicyLoadError (TrustTier * Severity) :=
  match entry with
  | YMap m =>
      match yget "tier" m, yget "severity" m with
      | Some t, Some s =>
          tier ← _parse_trust_tier "tier_block_overrides" t;
          severity ← _parse_severity "tier_block_overrides" s;
          Ok (tier, severity)
      | _, _ => Err (bad_field "tier_block_overrides")
      end
  | _ => Err (bad_field "tier_block_overrides")
  end.

Fixpoint parse_overrides (l : list yaml) : result GatePolicyLoadError (list (TrustTier * Severity)) :=
  match l with
  | [] => Ok []
  | entry :: l' => o ← parse_override entry; os ← parse_overrides l'; Ok (o :: os)
  end.

Definition _parse_tier_overrides (raw : option yaml)
    : result GatePolicyLoadError (list (TrustTier * Severity)) :=
  match raw with
  | None | Some YNull => Ok []
  | Some (YList l) => parse_overrides l
  | Some _ => Err (bad_field "tier_block_overrides")
  end.

Definition weight_fields : list string :=
  ["instruction"; "code"; "data_credential"; "network_intel"; "permission"; "file_package";
   "supply_chain"; "bundled_component"].

(** The loop that fills [kwargs]: the accepted weights, by field name. *)
Fixpoint parse_weights (items : list (yaml * yaml)) : result GatePolicyLoadError (gmap string pyfloat) :=
  match items with
  | [] => Ok ∅
  | (YStr key, value) :: items' =>
      _ ← guard_err (bool_decide (key ∈ weight_fields)) unknown_category;
      w ← match value with
          | YInt z => float_of_int z
          | YFloat f => Ok f
          | _ => Err (bad_field key)
          end;
      kwargs ← parse_weights items';
      Ok (<[key := w]> kwargs)
  | _ => Err unknown_category
  end.

Definition _parse_category_weights (raw : option yaml) : result GatePolicyLoadError CategoryWeights :=
  match raw with
  | None | Some YNull => Ok CategoryWeights_default
  | Some (YMap items) =>
      kwargs ← parse_weights items;
      let arg name := WNum (default (Fin 1) (kwargs !! name)) in
      match CategoryWeights_new (arg "instruction") (arg "code") (arg "data_credential")
              (arg "network_intel") (arg "permission") (arg "file_package") (arg "supply_chain")
              (arg "bundled_component") with
      | Ok w => Ok w
      | Err name => Err (weight_invalid name)
      end
  | Some _ => Err (bad_field "category_weights")
  end.

(** [if k in raw: kwargs[k] = parse(raw[k])], the dataclass default otherwise. *)
Definition optional {A} (k : string) (m : list (yaml * yaml)) (parse : yaml → result GatePolicyLoadError A)
    (dflt : A) : result GatePolicyLoadError A :=
  match yget k m with Some y => parse y | None => Ok dflt end.

(** [isinstance(True, (int, float))] holds: a boolean is read as 0.0 or 1.0. *)
Definition parse_review_confidence (raw : yaml) : result GatePolicyLoadError pyfloat :=
  match raw with
  | YBool b => Ok (Fin (if b then 1 else 0))
  | YInt z => float_of_int z
  | YFloat f => Ok f
  | _ => Err (bad_field "review_confidence")
  end.

Definition parse_gate_policy (raw : list (yaml * yaml)) : result GatePolicyLoadError GatePolicy :=
  match yget "version" raw with
  | Some (YStr ver) =>
      _ ← guard_err (negb (String.eqb ver "")) missing_version;
      match yget "required_engines" raw with
      | None => Err missing_required_engines
      | Some re =>
          engines ← _parse_str_sequence "required_engines" (Some re);
          hard ← _parse_str_sequence "hard_gate_rules" (yget "hard_gate_rules" raw);
          overrides ← _parse_tier_overrides (yget "tier_block_overrides" raw);
          weights ← _parse_category_weights (yget "category_weights" raw);
          rc ← optional "review_confidence" raw parse_review_confidence (Fin (rnd64 (6#10)));
          block ← optional "block_on_severity" raw (_parse_severity "block_on_severity") CRITICAL;
          review ← optional "review_on_severity" raw (_parse_severity "review_on_severity") HIGH;
          waivable ← optional "allowlistable_max_severity" raw
                       (_parse_severity "allowlistable_max_severity") HIGH;
          fc ← optional "fail_closed_verdict" raw (_parse_verdict "fail_closed_verdict") BLOCK;
          match GatePolicy_new ver (list_to_set engines) (list_to_set hard) rc block review overrides
                  waivable fc weights with
          | Ok p => Ok p
          | Err e => Err (policy_invalid e)
          end
      end
  | _ => Err missing_version
  end.

(** ** Tier divergence *)

Definition tier_direction (policy : GatePolicy) (requested judged : option string) : option string :=
  match requested, judged with
  | Some r, Some j =>
      if String.eqb r j then None
      else match tier_of_value r, tier_of_value j with
           | Some rt, Some jt =>
               let requested_threshold := block_threshold policy rt in
               let judged_threshold := block_threshold policy jt in
               if sev_lt requested_threshold judged_threshold then Some "looser"
               else if sev_lt judged_threshold requested_threshold then Some "stricter"
               else Some "equivalent"
           | _, _ => None
           end
  | _, _ => None
  end.

Record TierDivergence := mkTierDivergence { direction : option string; basis : option string }.

Definition tier_divergence (policy : GatePolicy) (requested judged signed_policy_version : option string)
    : TierDivergence :=
  match tier_direction policy requested judged with
  | None => mkTierDivergence None None
  | Some d => mkTierDivergence (Some d)
                (Some (if bool_decide (signed_policy_version = Some (version policy))
                       then "signing_policy" else "current_policy"))
  end.

(** ** What parsing guarantees *)

(** A policy written out as the mapping a policy file holds. *)
Definition weights_yaml (w : CategoryWeights) : yaml :=
  YMap [(YStr "instruction", YFloat (Fin (w_instruction w))); (YStr "code", YFloat (Fin (w_code w)));
        (YStr "data_credential", YFloat (Fin (w_data_credential w)));
        (YStr "network_intel", YFloat (Fin (w_network_intel w)));
        (YStr "permission", YFloat (Fin (w_permission w)));
        (YStr "file_package", YFloat (Fin (w_file_package w)));
        (YStr "supply_chain", YFloat (Fin (w_supply_chain w)));
        (YStr "bundled_component", YFloat (Fin (w_bundled_component w)))].

Definition override_yaml (o : TrustTier * Severity) : yaml :=
  YMap [(YStr "tier", YStr (tier_value o.1)); (YStr "severity", YStr (sev_name o.2))].

Definition policy_yaml (p : GatePolicy) : list (yaml * yaml) :=
  [(YStr "version", YStr (version p));
   (YStr "required_engines", YList (map YStr (elements (required_engines p))));
   (YStr "hard_gate_rules", YList (map YStr (elements (hard_gate_rules p))));
   (YStr "review_confidence", YFloat (Fin (review_confidence p)));
   (YStr "block_on_severity", YStr (sev_name (block_on_severity p)));
   (YStr "review_on_severity", YStr (sev_name (review_on_severity p)));
   (YStr "tier_block_overrides", YList (map override_yaml (tier_block_overrides p)));
   (YStr "allowlistable_max_severity", YStr (sev_name (allowlistable_max_severity p)));
   (YStr "fail_closed_verdict", YStr (verdict_name (fail_closed_verdict p)));
   (YStr "category_weights", weights_yaml (category_weights p))].

Lemma check_weight_ok q : (0 <= q)%Q → (q <= MAX_CATEGORY_WEIGHT)%Q → check_weight (WNum (Fin q)) = Some q.
Proof. intros H1%qle_iff H2%qle_iff. cbn [check_weight]. by rewrite H1, H2. Qed.

Lemma GatePolicy_new_complete p :
  GatePolicy_ok p →
  GatePolicy_new (version p) (required_engines p) (hard_gate_rules p) (Fin (review_confidence p))
    (block_on_severity p) (review_on_severity p) (tier_block_overrides p)
    (allowlistable_max_severity p) (fail_closed_verdict p) (category_weights p) = Ok p.
Proof.
  intros (Hv & H0%qle_iff & H1%qle_iff & Hb & Hr & Hf & Ho). unfold GatePolicy_new.
  apply String.eqb_neq in Hv. rewrite Hv.
  assert (E : fle (Fin 0) (Fin (review_confidence p)) && fle (Fin (review_confidence p)) (Fin 1) = true)
    by (apply andb_true_iff; by split). rewrite E.
  assert (E1 : sev_lt (block_on_severity p) LOW || sev_lt (review_on_severity p) LOW = false)
    by (destruct (block_on_severity p), (review_on_severity p); done). rewrite E1.
  rewrite (bool_decide_false (fail_closed_verdict p = PASS)) by done.
  assert (E2 : forallb (λ ts, sev_le ts.2 (block_on_severity p)) (tier_block_overrides p) = true).
  { apply forallb_true. intros [t s]. apply Ho. } rewrite E2. by destruct p.
Qed.

(** ** What a policy file says

    The meaning of each field, stated on the YAML values alone. *)

(** A list of strings, and nothing but strings; an absent or null field is empty. *)
Definition names_in (y : option yaml) (names : list string) : Prop :=
  match y with
  | None | Some YNull => names = []
  | Some (YList l) => l = map YStr names
  | Some _ => False
  end.

Definition severity_in (y : option yaml) (dflt s : Severity) : Prop :=
  match y with None => s = dflt | Some v => v = YStr (sev_name s) end.

Definition verdict_in (y : option yaml) (dflt v : Verdict) : Prop :=
  match y with None => v = dflt | Some w => w = YStr (verdict_name v) end.

(** A float, or an integer that a float can hold, rounded. *)
Inductive spells_number : yaml → pyfloat → Prop :=
| spells_float f : spells_number (YFloat f) f
| spells_int z : (Qabs.Qabs (rnd64 (inject_Z z)) < inject_Z (2 ^ 1024))%Q → spells_number (YInt z) (Fin (rnd64 (inject_Z z))).

Definition confidence_in (y : option yaml) (q : Q) : Prop :=
  match y with
  | None => q = rnd64 (6#10)
  | Some (YBool b) => q = if b then 1%Q else 0%Q
  | Some v => spells_number v (Fin q)
  end.

Definition spells_override (e : yaml) (o : TrustTier * Severity) : Prop :=
  ∃ m, e = YMap m ∧ yget "tier" m = Some (YStr (tier_value o.1)) ∧ yget "severity" m = Some (YStr (sev_name o.2)).

Definition overrides_in (y : option yaml) (l : list (TrustTier * Severity)) : Prop :=
  match y with
  | None | Some YNull => l = []
  | Some (YList es) => Forall2 spells_override es l
  | Some _ => False
  end.

(** Every key names a category and every value is a number; a category that is not
    named weighs 1. *)
Definition weights_in (y : option yaml) (w : CategoryWeights) : Prop :=
  match y with
  | None | Some YNull => w = CategoryWeights_default
  | Some (YMap items) =>
      Forall (λ kv, ∃ c f, kv.1 = YStr (category_value c) ∧ spells_number kv.2 f) items ∧
      ∀ c, match yget (category_value c) items with
           | Some v => spells_number v (Fin (for_category w c))
           | None => for_category w c = 1%Q
           end
  | Some _ => False
  end.

Record spells (raw : list (yaml * yaml)) (p : GatePolicy) : Prop := {
  sp_version : yget "version" raw = Some (YStr (version p));
  sp_required : yget "required_engines" raw ≠ None ∧
    ∃ names, names_in (yget "required_engines" raw) names ∧ required_engines p = list_to_set names;
  sp_hard : ∃ names, names_in (yget "hard_gate_rules" raw) names ∧ hard_gate_rules p = list_to_set names;
  sp_overrides : overrides_in (yget "tier_block_overrides" raw) (tier_block_overrides p);
  sp_weights : weights_in (yget "category_weights" raw) (category_weights p);
  sp_confidence : confidence_in (yget "review_confidence" raw) (review_confidence p);
  sp_block : severity_in (yget "block_on_severity" raw) CRITICAL (block_on_severity p);
  sp_review : severity_in (yget "review_on_severity" raw) HIGH (review_on_severity p);
  sp_waivable : severity_in (yget "allowlistable_max_severity" raw) HIGH (allowlistable_max_severity p);
  sp_closed : verdict_in (yget "fail_closed_verdict" raw) BLOCK (fail_closed_verdict p);
}.

Lemma mapM_yaml_str l names : mapM yaml_str l = Some names ↔ l = map YStr names.
Proof.
  revert names. induction l as [|y l IH]; intros [|n names]; cbn [mapM map]; [done|done| |].
  - destruct (yaml_str y); [|done]. cbn. by destruct (mapM yaml_str l).
  - destruct y; cbn; try done. destruct (mapM yaml_str l) as [ns|]; cbn.
    + split; [intros [= -> ->]; f_equal; by apply IH|]. intros [= -> H]. apply (proj2 (IH _)) in H. by injection H as ->.
    + split; [done|]. intros [= _ H]. by apply (proj2 (IH _)) in H.
Qed.

Lemma str_sequence_iff name y names : _parse_str_sequence name y = Ok names ↔ names_in y names.
Proof.
  destruct y as [[]|]; cbn; try (split; congruence || done).
  rewrite <-mapM_yaml_str. destruct (mapM yaml_str l); split; congruence.
Qed.

Lemma sev_of_name_iff n s : sev_of_name n = Some s ↔ n = sev_name s.
Proof.
  split; [|intros ->; by destruct s]. unfold sev_of_name.
  intros ([i t] & (_ & <- & _)%list_find_Some & [= <-])%bind_Some. done.
Qed.

Lemma verdict_of_name_iff n v : verdict_of_name n = Some v ↔ n = verdict_name v.
Proof.
  split; [|intros ->; by destruct v]. unfold verdict_of_name.
  intros ([i t] & (_ & <- & _)%list_find_Some & [= <-])%bind_Some. done.
Qed.

Lemma tier_of_value_iff n t : tier_of_value n = Some t ↔ n = tier_value t.
Proof.
  split; [|intros ->; by destruct t]. unfold tier_of_value.
  intros ([i x] & (_ & <- & _)%list_find_Some & [= <-])%bind_Some. done.
Qed.

Lemma parse_severity_iff name y s : _parse_severity name y = Ok s ↔ y = YStr (sev_name s).
Proof.
  destruct y as [| | | |n| | |]; cbn [_parse_severity]; try (split; congruence). pose proof (sev_of_name_iff n s) as H. destruct (sev_of_name n).
  - split; [intros [= ->]; f_equal; by apply H|]. intros [= E]. apply (proj2 H) in E. congruence.
  - split; [done|]. intros [= E]. by apply (proj2 H) in E.
Qed.

Lemma parse_verdict_iff name y v : _parse_verdict name y = Ok v ↔ y = YStr (verdict_name v).
Proof.
  destruct y as [| | | |n| | |]; cbn [_parse_verdict]; try (split; congruence). pose proof (verdict_of_name_iff n v) as H. destruct (verdict_of_name n).
  - split; [intros [= ->]; f_equal; by apply H|]. intros [= E]. apply (proj2 H) in E. congruence.
  - split; [done|]. intros [= E]. by apply (proj2 H) in E.
Qed.

Lemma parse_trust_tier_iff name y t : _parse_trust_tier name y = Ok t ↔ y = YStr (tier_value t).
Proof.
  destruct y as [| | | |n| | |]; cbn [_parse_trust_tier]; try (split; congruence). pose proof (tier_of_value_iff n t) as H. destruct (tier_of_value n).
  - split; [intros [= ->]; f_equal; by apply H|]. intros [= E]. apply (proj2 H) in E. congruence.
  - split; [done|]. intros [= E]. by apply (proj2 H) in E.
Qed.

Lemma optional_severity_iff k m name dflt s :
  optional k m (_parse_severity name) dflt = Ok s ↔ severity_in (yget k m) dflt s.
Proof. unfold optional, severity_in. destruct (yget k m); [apply parse_severity_iff|split; congruence]. Qed.

Lemma optional_verdict_iff k m name dflt v :
  optional k m (_parse_verdict name) dflt = Ok v ↔ verdict_in (yget k m) dflt v.
Proof. unfold optional, verdict_in. destruct (yget k m); [apply parse_verdict_iff|split; congruence]. Qed.

Lemma parse_override_iff e o : parse_override e = Ok o ↔ spells_override e o.
Proof.
  unfold parse_override, spells_override. destruct o as [t s], e as [| | | | | |m|]; try (split; [done|by intros (?&?&_)]).
  split.
  - destruct (yget "tier" m) as [yt|] eqn:Et, (yget "severity" m) as [ys|] eqn:Es; try done.
    intros (t' & ->%parse_trust_tier_iff & (s' & ->%parse_severity_iff & [= <- <-])%bind_Ok)%bind_Ok. by exists m.
  - intros (m' & [= <-] & -> & ->). rewrite (proj2 (parse_trust_tier_iff _ _ t)) by done.
    cbn [mbind result_bind]. by rewrite (proj2 (parse_severity_iff _ _ s)).
Qed.

Lemma parse_overrides_iff es l : parse_overrides es = Ok l ↔ Forall2 spells_override es l.
Proof.
  revert l. induction es as [|e es IH]; intros l; cbn.
  - split; [intros [= <-]; constructor|by intros ->%Forall2_nil_inv_l].
  - split.
    + intros (o & Ho%parse_override_iff & (os & Hos%IH & [= <-])%bind_Ok)%bind_Ok. by constructor.
    + intros (o & os & Ho%parse_override_iff & Hos%IH & ->)%Forall2_cons_inv_l. by rewrite Ho, Hos.
Qed.

Lemma tier_overrides_iff y l : _parse_tier_overrides y = Ok l ↔ overrides_in y l.
Proof. destruct y as [[]|]; cbn; try (split; congruence || done). apply parse_overrides_iff. Qed.

Lemma float_of_int_iff z f : float_of_int z = Ok f ↔ spells_number (YInt z) f.
Proof.
  unfold float_of_int. destruct (qle _ _) eqn:E; (split; [|inversion 1; subst]).
  - done.
  - by apply qle_iff, Qle_not_lt in E.
  - intros [= <-]. constructor. apply Qnot_le_lt. rewrite <-qle_iff. congruence.
  - done.
Qed.

Lemma parse_confidence_iff m q :
  optional "review_confidence" m parse_review_confidence (Fin (rnd64 (6#10))) = Ok (Fin q) ↔
  confidence_in (yget "review_confidence" m) q.
Proof.
  unfold optional, confidence_in. destruct (yget "review_confidence" m) as [y|]; [|split; congruence].
  destruct y; try (split; [done|inversion 1]); cbn [parse_review_confidence].
  - split; congruence.
  - apply float_of_int_iff.
  - split; [intros [= ->]; constructor|]. by inversion 1.
Qed.

Lemma weight_value_iff key v f :
  match v with YInt z => float_of_int z | YFloat g => Ok g | _ => Err (bad_field key) end = Ok f ↔ spells_number v f.
Proof.
  destruct v; try (split; [done|inversion 1]); [apply float_of_int_iff|].
  split; [intros [= ->]; constructor|]. by inversion 1.
Qed.

Lemma spells_number_fun v f g : spells_number v f → spells_number v g → f = g.
Proof. inversion 1; inversion 1; congruence. Qed.

Lemma weight_field_iff k : k ∈ weight_fields ↔ ∃ c, k = category_value c.
Proof.
  split; [|intros [[] ->]; by_compute]. unfold weight_fields. rewrite !elem_of_cons.
  intros Hk. repeat destruct Hk as [->|Hk]; [by eexists INSTRUCTION|by eexists CODE|by eexists DATA_CREDENTIAL
    |by eexists NETWORK_INTEL|by eexists PERMISSION|by eexists FILE_PACKAGE|by eexists SUPPLY_CHAIN
    |by eexists BUNDLED_COMPONENT|by apply elem_of_nil in Hk].
Qed.

Lemma parse_weights_sound items kwargs :
  parse_weights items = Ok kwargs →
  Forall (λ kv, ∃ c f, kv.1 = YStr (category_value c) ∧ spells_number kv.2 f) items ∧
  ∀ k, match yget k items with
       | Some v => ∃ f, spells_number v f ∧ kwargs !! k = Some f
       | None => kwargs !! k = None
       end.
Proof.
  revert kwargs. induction items as [|[[| | | |key| | |] v] items IH]; intros kwargs; cbn [parse_weights]; try done.
  { intros [= <-]. by split. }
  intros (? & Hk & (f & Hf%weight_value_iff & (kw & Hkw & [= <-])%bind_Ok)%bind_Ok)%bind_Ok.
  destruct (IH _ Hkw) as [Hall Hget].
  case_bool_decide as Hkey; [|done]. apply weight_field_iff in Hkey as [c ->]. split; [constructor; eauto|].
  intros k. unfold yget in *. cbn [find key_is fst]. destruct (String.eqb_spec (category_value c) k) as [->|Hne]; cbn.
  - exists f. by rewrite lookup_insert_eq.
  - rewrite lookup_insert_ne by done. apply Hget.
Qed.

Lemma parse_weights_total items :
  Forall (λ kv, ∃ c f, kv.1 = YStr (category_value c) ∧ spells_number kv.2 f) items → ∃ kwargs, parse_weights items = Ok kwargs.
Proof.
  induction 1 as [|[k v] items (c & f & Hk & Hf%(weight_value_iff (category_value c))) _ [kw IH]]; [by eexists|].
  cbn in Hk. subst k. cbn [parse_weights]. rewrite bool_decide_true by (apply weight_field_iff; by exists c). cbn [guard_err mbind result_bind].
  cbn in Hf. rewrite Hf. cbn [mbind result_bind]. rewrite IH. by eexists.
Qed.

(** The constructor of the weights, given one argument per category. *)
Definition weights_of (arg : DetectionCategory → PyWeight) : result string CategoryWeights :=
  CategoryWeights_new (arg INSTRUCTION) (arg CODE) (arg DATA_CREDENTIAL) (arg NETWORK_INTEL)
    (arg PERMISSION) (arg FILE_PACKAGE) (arg SUPPLY_CHAIN) (arg BUNDLED_COMPONENT).

Lemma weights_of_iff arg w :
  weights_of arg = Ok w ↔ ∀ c, check_weight (arg c) = Some (for_category w c).
Proof.
  unfold weights_of, CategoryWeights_new. split.
  - intros H. ok_inv. repeat match goal with H : match check_weight ?w with _ => _ end = Ok _ |- _ =>
      destruct (check_weight w) eqn:?; ok_inv end. by intros [].
  - intros H. rewrite !H. by destruct w.
Qed.

Lemma check_weight_iff raw q :
  check_weight raw = Some q ↔ raw = WNum (Fin q) ∧ (0 <= q)%Q ∧ (q <= MAX_CATEGORY_WEIGHT)%Q.
Proof.
  split; [|intros (-> & ? & ?); by apply check_weight_ok].
  destruct raw as [[x| |]|]; cbn; try done. destruct (_ && _) eqn:E; [|done]. intros [= ->].
  apply andb_true_iff in E as [?%qle_iff ?%qle_iff]. done.
Qed.

Lemma category_weights_iff y w :
  _parse_category_weights y = Ok w ↔ CategoryWeights_ok w ∧ weights_in y w.
Proof.
  assert (Hd : CategoryWeights_ok CategoryWeights_default) by (intros []; split; by apply qle_iff).
  destruct y as [[| | | | | |items|]|]; cbn [_parse_category_weights weights_in]; try (split; [congruence|by intros [_ ?]]);
    try (split; [intros [= <-]; done|by intros [_ ->]]).
  set (arg kw c := WNum (default (Fin 1) ((kw : gmap string pyfloat) !! category_value c))).
  split.
  - intros (kw & [Hall Hget]%parse_weights_sound & H)%bind_Ok.
    change (match weights_of (arg kw) with Ok w => Ok w | Err name => Err (weight_invalid name) end = Ok w) in H.
    destruct (weights_of (arg kw)) as [w'|] eqn:Ew; [|done]. injection H as ->. rewrite weights_of_iff in Ew.
    setoid_rewrite check_weight_iff in Ew. split; [by intros c; destruct (Ew c) as (_ & ? & ?)|]. split; [done|].
    intros c. destruct (Ew c) as [[= Ec] _]. specialize (Hget (category_value c)).
    destruct (yget (category_value c) items) as [v|].
    + destruct Hget as (f & Hf & Hl). rewrite Hl in Ec. cbn in Ec. by subst f.
    + rewrite Hget in Ec. cbn in Ec. congruence.
  - intros [Hok [Hall Hw]]. destruct (parse_weights_total _ Hall) as [kw Hkw]. rewrite Hkw. cbn [mbind result_bind].
    apply parse_weights_sound in Hkw as [_ Hget].
    change (match weights_of (arg kw) with Ok w => Ok w | Err name => Err (weight_invalid name) end = Ok w).
    rewrite (proj2 (weights_of_iff (arg kw) w)); [done|]. intros c. apply check_weight_iff. split; [|apply Hok].
    unfold arg. do 2 f_equal. specialize (Hget (category_value c)). specialize (Hw c).
    destruct (yget (category_value c) items) as [v|].
    + destruct Hget as (f & Hf & ->). cbn. by eapply spells_number_fun.
    + rewrite Hget. cbn. by rewrite Hw.
Qed.

Lemma GatePolicy_new_fields v re hg rc b r ov am fc w p :
  GatePolicy_new v re hg rc b r ov am fc w = Ok p →
  v = version p ∧ re = required_engines p ∧ hg = hard_gate_rules p ∧ rc = Fin (review_confidence p) ∧
  b = block_on_severity p ∧ r = review_on_severity p ∧ ov = tier_block_overrides p ∧
  am = allowlistable_max_severity p ∧ fc = fail_closed_verdict p ∧ w = category_weights p.
Proof. unfold GatePolicy_new. intros H. ok_inv. destruct rc; ok_inv. by split_and!. Qed.

Lemma parse_gate_policy_sound raw p :
  parse_gate_policy raw = Ok p → GatePolicy_ok p ∧ CategoryWeights_ok (category_weights p) ∧ spells raw p.
Proof.
  unfold parse_gate_policy. destruct (yget "version" raw) as [[| | | |v| | |]|] eqn:Ev; try done. intros H.
  apply bind_Ok in H as (? & _ & H). destruct (yget "required_engines" raw) as [re|] eqn:Er; [|done].
  apply bind_Ok in H as (es & He%str_sequence_iff & H). apply bind_Ok in H as (hs & Hh%str_sequence_iff & H).
  apply bind_Ok in H as (ov & Ho%tier_overrides_iff & H). apply bind_Ok in H as (w & [Hw Hwi]%category_weights_iff & H).
  apply bind_Ok in H as (rc & Hc & H). apply bind_Ok in H as (bl & Hb%optional_severity_iff & H).
  apply bind_Ok in H as (rv & Hr%optional_severity_iff & H). apply bind_Ok in H as (am & Ha%optional_severity_iff & H).
  apply bind_Ok in H as (fc & Hf%optional_verdict_iff & H).
  destruct (GatePolicy_new _ _ _ _ _ _ _ _ _ _) as [p'|] eqn:E; [|done]. injection H as ->.
  split; [by eapply GatePolicy_new_ok|]. apply GatePolicy_new_fields in E as (-> & E1 & E2 & -> & -> & -> & -> & -> & -> & ->).
  apply parse_confidence_iff in Hc. split; [done|]. split; try done; rewrite ?Er; eauto.
Qed.

Lemma parse_gate_policy_complete raw p :
  GatePolicy_ok p → CategoryWeights_ok (category_weights p) → spells raw p → parse_gate_policy raw = Ok p.
Proof.
  intros Hp Hw [Hv [Hre (es & He & Ee)] (hs & Hh & Eh) Ho Hwi Hc Hb Hr Ha Hf]. unfold parse_gate_policy. rewrite Hv.
  assert (Hne : version p ≠ "") by apply Hp. apply String.eqb_neq in Hne. rewrite Hne. cbn [negb guard_err mbind result_bind].
  destruct (yget "required_engines" raw) as [re|]; [|done].
  rewrite (proj2 (str_sequence_iff _ _ es) He). cbn [mbind result_bind].
  rewrite (proj2 (str_sequence_iff _ _ hs) Hh). cbn [mbind result_bind].
  rewrite (proj2 (tier_overrides_iff _ _) Ho). cbn [mbind result_bind].
  rewrite (proj2 (category_weights_iff _ _) (conj Hw Hwi)). cbn [mbind result_bind].
  rewrite (proj2 (parse_confidence_iff _ _) Hc). cbn [mbind result_bind].
  rewrite (proj2 (optional_severity_iff _ _ _ _ _) Hb). cbn [mbind result_bind].
  rewrite (proj2 (optional_severity_iff _ _ _ _ _) Hr). cbn [mbind result_bind].
  rewrite (proj2 (optional_severity_iff _ _ _ _ _) Ha). cbn [mbind result_bind].
  rewrite (proj2 (optional_verdict_iff _ _ _ _ _) Hf). cbn [mbind result_bind].
  by rewrite <-Ee, <-Eh, (GatePolicy_new_complete p Hp).
Qed.

(** A policy written out says itself. *)
Lemma policy_yaml_spells p : spells (policy_yaml p) p.
Proof.
  split; try done.
  - split; [done|]. exists (elements (required_engines p)). split; [done|]. by rewrite list_to_set_elements_L.
  - exists (elements (hard_gate_rules p)). split; [done|]. by rewrite list_to_set_elements_L.
  - cbn. induction (tier_block_overrides p) as [|o l IH]; cbn; constructor; [|done]. by exists [(YStr "tier", YStr (tier_value o.1)); (YStr "severity", YStr (sev_name o.2))].
  - split.
    + repeat constructor; cbn; (do 2 eexists; split; [|apply spells_float]);
        [exact (eq_refl (YStr (category_value INSTRUCTION)))|exact (eq_refl (YStr (category_value CODE)))
        |exact (eq_refl (YStr (category_value DATA_CREDENTIAL)))|exact (eq_refl (YStr (category_value NETWORK_INTEL)))
        |exact (eq_refl (YStr (category_value PERMISSION)))|exact (eq_refl (YStr (category_value FILE_PACKAGE)))
        |exact (eq_refl (YStr (category_value SUPPLY_CHAIN)))|exact (eq_refl (YStr (category_value BUNDLED_COMPONENT)))].
    + intros []; cbn; apply spells_float.
  - cbn. constructor.
Qed.

(** C19: Policy files are read fail-closed and exactly.  A mapping is accepted as a policy
    if and only if the policy satisfies every invariant of [GatePolicy] and of its
    category weights, and the mapping says exactly that policy: its version is the
    string under "version"; its required engines and hard-gate rules are the
    strings of lists that hold nothing but strings (an entry of another type is refused,
    never dropped; "required_engines" must be there, and null reads as empty); its tier
    overrides are, in order, those of a list of mappings that each name a tier and a
    severity; every weight is the number under its category's name, or 1, and no key
    names anything but a category; severities and the fail-closed verdict are the
    exact names of their values, or the defaults where the field is absent; the review
    confidence is the number, 0 or 1 for a boolean, or 0.6.  And every valid policy,
    written out as a mapping, is read back unchanged. *)
Theorem parse_gate_policy_exact raw p :
  (parse_gate_policy raw = Ok p ↔
     GatePolicy_ok p ∧ CategoryWeights_ok (category_weights p) ∧ spells raw p) ∧
  (GatePolicy_ok p → CategoryWeights_ok (category_weights p) → parse_gate_policy (policy_yaml p) = Ok p).
Proof.
  split.
  - split; [apply parse_gate_policy_sound|]. intros (? & ? & ?). by apply parse_gate_policy_complete.
  - intros Hp Hw. apply parse_gate_policy_complete; [done..|]. apply policy_yaml_spells.
Qed.

(** ** What a tier divergence means *)

Lemma classify_threshold_mono p t t' s c :
  sev_le (block_threshold p t) (block_threshold p t') = true →
  verdict_le (classify s c p t') (classify s c p t) = true.
Proof.
  intros H. unfold classify. destruct (sev_le (block_threshold p t') s) eqn:E'.
  - by rewrite (sev_le_trans _ _ _ H E').
  - destruct (sev_le (block_threshold p t) s); [|apply Z.leb_refl].
    match goal with |- verdict_le ?v BLOCK = true => by destruct v end.
Qed.

Lemma classify_strict p t t' c :
  sev_lt (block_threshold p t) (block_threshold p t') = true →
  classify (block_threshold p t) c p t = BLOCK ∧ classify (block_threshold p t) c p t' ≠ BLOCK.
Proof.
  rewrite sev_lt_le. intros H%negb_true_iff. unfold classify. rewrite H.
  assert (E : sev_le (block_threshold p t) (block_threshold p t) = true) by apply Z.leb_refl. rewrite E.
  split; [done|]. destruct (sev_le (review_on_severity p) _); [done|]. by destruct (_ && _).
Qed.

Lemma tier_of_value_value t : tier_of_value (tier_value t) = Some t.
Proof. by destruct t. Qed.

Lemma tier_direction_eq p r j :
  r ≠ j →
  tier_direction p (Some (tier_value r)) (Some (tier_value j)) =
  Some (if sev_lt (block_threshold p r) (block_threshold p j) then "looser"
        else if sev_lt (block_threshold p j) (block_threshold p r) then "stricter" else "equivalent").
Proof.
  intros Hne. unfold tier_direction. rewrite !tier_of_value_value.
  assert (E : String.eqb (tier_value r) (tier_value j) = false) by by destruct r, j.
  rewrite E. repeat destruct (sev_lt _ _); done.
Qed.

(** The divergence label is the truth about the policy.  For two different tiers,
    "looser" is reported exactly when the judged tier never gives a worse verdict than
    the requested one and misses a BLOCK the requested tier would have given;
    "stricter" is the mirror image; "equivalent" exactly when both tiers classify
    every severity and confidence alike. *)
Theorem tier_direction_is_semantic p r j :
  r ≠ j →
  let d := tier_direction p (Some (tier_value r)) (Some (tier_value j)) in
  let milder a b := (∀ s c, verdict_le (classify s c p a) (classify s c p b) = true) ∧
                    ∃ s, ∀ c, classify s c p b = BLOCK ∧ classify s c p a ≠ BLOCK in
  (d = Some "looser" ↔ milder j r) ∧ (d = Some "stricter" ↔ milder r j) ∧
  (d = Some "equivalent" ↔ ∀ s c, classify s c p r = classify s c p j).
Proof.
  intros Hne d milder. unfold d. rewrite (tier_direction_eq p r j Hne).
  assert (Hmilder : ∀ a b, sev_lt (block_threshold p b) (block_threshold p a) = true → milder a b).
  { intros a b H. split.
    - intros s c. apply classify_threshold_mono. rewrite sev_lt_le in H. apply negb_true_iff in H.
      by apply sev_le_total.
    - exists (block_threshold p b). intros c. by apply classify_strict. }
  assert (Hnot : ∀ a b, sev_le (block_threshold p a) (block_threshold p b) = true → ¬ milder a b).
  { intros a b H [_ (s & Hs)]. destruct (Hs 0%Q) as [Hb Ha].
    pose proof (classify_threshold_mono p a b s 0%Q H) as Hm. rewrite Hb in Hm. by destruct (classify s 0%Q p a). }
  assert (Heq : ∀ a b, milder a b → ¬ ∀ s c, classify s c p a = classify s c p b).
  { intros a b [_ (s & Hs)] H. destruct (Hs 0%Q) as [Hb Ha]. specialize (H s 0%Q). congruence. }
  destruct (sev_lt (block_threshold p r) (block_threshold p j)) eqn:E1.
  - pose proof (Hmilder j r E1) as Hm. pose proof E1 as E2. rewrite sev_lt_le in E2. apply negb_true_iff, sev_le_total in E2.
    pose proof (Hnot r j E2). split_and!; split; try done. intros H'. destruct (Heq j r Hm). naive_solver.
  - rewrite sev_lt_le in E1. apply negb_false_iff in E1. pose proof (Hnot j r E1).
    destruct (sev_lt (block_threshold p j) (block_threshold p r)) eqn:E2.
    + pose proof (Hmilder r j E2) as Hm. split_and!; split; try done. intros H'. by destruct (Heq r j Hm).
    + rewrite sev_lt_le in E2. apply negb_false_iff in E2. pose proof (Hnot r j E2).
      split_and!; split; try done. intros _ s c. unfold classify.
      by rewrite (sev_le_antisym _ _ E1 E2).
Qed.

Lemma tier_direction_is_semantic_witness :
  verdict_le (classify HIGH 1 Samples.policy INTERNAL) (classify HIGH 1 Samples.policy PUBLIC) = true.
Proof.
  destruct (tier_direction_is_semantic Samples.policy PUBLIC INTERNAL) as (H & _ & _); [discriminate|].
  apply H. vm_compute. reflexivity.
Defined.

Module PolicySamples.

Lemma parse_gate_policy_exact_witness : parse_gate_policy (policy_yaml Samples.policy) = Ok Samples.policy.
Proof.
  destruct (parse_gate_policy_exact [] Samples.policy) as [_ H]. apply H.
  - do 6 (split; [first [discriminate|by apply qle_iff; vm_compute]|]). cbn [tier_block_overrides Samples.policy].
    intros t s Hts. apply list_elem_of_singleton in Hts. injection Hts as -> ->. reflexivity.
  - intros []; split; apply qle_iff; vm_compute; reflexivity.
Defined.

(** A misspelt severity, a list with a number in it, a boolean weight and a loosening
    override are refused; a boolean confidence is read as a number. *)
Definition file (extra : list (yaml * yaml)) : result GatePolicyLoadError GatePolicy :=
  parse_gate_policy ((YStr "version", YStr "v") :: (YStr "required_engines", YList [YStr "floor"]) :: extra).

Example refusals :
  is_ok (file []) = true ∧
  file [(YStr "block_on_severity", YStr "CRITCAL")] = Err (bad_field "block_on_severity") ∧
  file [(YStr "hard_gate_rules", YList [YStr "pii"; YInt 3])] = Err (bad_field "hard_gate_rules") ∧
  file [(YStr "category_weights", YMap [(YStr "code", YBool true)])] = Err (bad_field "code") ∧
  file [(YStr "block_on_severity", YStr "HIGH");
        (YStr "tier_block_overrides", YList [override_yaml (PUBLIC, CRITICAL)])] =
    Err (policy_invalid GP_override_loosens) ∧
  (review_confidence <$> match file [(YStr "review_confidence", YBool true)] with Ok p => Some p | _ => None end)
    = Some 1%Q.
Proof. vm_compute. tauto. Qed.
End PolicySamples.
