(* ===== verification/Access.v ===== *)
(** * Who may call what: [gateway/auth/]

    [rbac.py], [session.py] (introspected tokens and their cache), [m2m.py] (the
    bearer and Basic paths of service accounts) and [dependencies.py], with the
    CSRF check of [middleware.py].  The IdP's answer to an introspection call, the
    password check and the digest are parameters; instants are in milliseconds.
    Header text is a string of characters below 256; scopes are ASCII. *)

From S2P Require Import Prelude Models Json JsonText PyText Canonical Limits Sessions Policy.
From Stdlib Require Import QArith Ascii.
Open Scope string_scope.
Open Scope list_scope.
Open Scope Z_scope.

(** ** [rbac.py] *)

Definition DEFAULT_ROLE : string := "submitter".
Definition KNOWN_ROLES : gset string := {["submitter"; "approver"; "admin"; "auditor"]}.

Definition resolve_roles (groups : gset string) (group_role_map : gmap string string) : gset string :=
  {[DEFAULT_ROLE]} ∪
  base.filter (λ role, role ∈ KNOWN_ROLES) (list_to_set (omap (group_role_map !!.) (elements groups))).

Inductive GroupRoleMapLoadError := map_shape | map_not_strings | map_unknown_role (role : string).

Definition string_item (kv : yaml * yaml) : option (string * string) :=
  match kv with (YStr k, YStr v) => Some (k, v) | _ => None end.

(** On the value the YAML reader returned. *)
Definition load_group_role_map (raw : yaml) : result GroupRoleMapLoadError (gmap string string) :=
  match raw with
  | YMap m =>
      match yget "group_role_map" m with
      | None => Err map_shape
      | Some (YMap items) =>
          match mapM string_item items with
          | None => Err map_not_strings
          | Some kvs =>
              match find (λ kv, negb (bool_decide (kv.2 ∈ KNOWN_ROLES))) kvs with
              | Some kv => Err (map_unknown_role kv.2)
              | None => Ok (list_to_map kvs)
              end
          end
      | Some _ => Err map_not_strings
      end
  | _ => Err map_shape
  end.

(** ** The introspection response *)

(** [json.loads] also accepts [Infinity], [-Infinity] and [NaN]. *)
Inductive NonFinite := pos_inf | neg_inf | not_a_number.
Inductive claim := plain (j : json) | nonfinite (f : NonFinite).
Abbreviation Payload := (gmap string claim).

Definition truthy (c : claim) : bool :=
  match c with
  | nonfinite _ => true
  | plain j =>
      match j with
      | JNull => false
      | JBool b => b
      | JNum n => negb (n =? 0)
      | JFloat q => negb (Qeq_bool q 0)
      | JStr s => negb (String.eqb s "")
      | JList l => match l with [] => false | _ => true end
      | JObj l => match l with [] => false | _ => true end
      end
  end.

(** [payload.get(key)]. *)
Definition claim_of (key : string) (p : Payload) : claim := default (plain JNull) (p !! key).

(** Why a request is not authenticated; [raises] is an exception no handler names. *)
Inductive AuthError := SessionError | IntrospectionUnavailable | M2MError | raises.

(** Numbers in the sense of [isinstance(v, (int, float))]. *)
Inductive number := finite (q : Q) | special (f : NonFinite).

Definition number_of (c : claim) : option number :=
  match c with
  | plain (JNum n) => Some (finite (inject_Z n))
  | plain (JFloat q) => Some (finite q)
  | plain (JBool b) => Some (finite (if b then 1 else 0))
  | nonfinite f => Some (special f)
  | _ => None
  end.

(** [time.time() >= exp]. *)
Definition lapsed (now : Z) (exp : number) : bool :=
  match exp with
  | finite q => Qle_bool (q * inject_Z 1000) (inject_Z now)
  | special neg_inf => true
  | special _ => false
  end.

(** [float(exp)] of an integer past the largest double raises. *)
Definition float_of (exp : number) : result AuthError number :=
  match exp with
  | finite q => if Qle_bool (inject_Z (2 ^ 1024 - 2 ^ 970)) (Qabs.Qabs q) then Err raises else Ok exp
  | special _ => Ok exp
  end.

Record SessionContext := mkSessionContext {
  sc_subject : claim;
  sc_roles : gset string;
  sc_scopes : gset string;
  sc_tier : TrustTier;
  sc_token_exp : number;
  sc_is_machine : bool;
}.

Definition has_role (sc : SessionContext) (roles : list string) : bool :=
  existsb (λ r, bool_decide (r ∈ sc_roles sc)) roles.

(** ** [session.py] *)

(** What the HTTP call came to: an [httpx] error or a body that is not JSON, a JSON
    value that is not an object, or an object. *)
Inductive IdpReply := idp_fails | idp_not_an_object | idp_says (p : Payload).

Abbreviation Cache := (gmap string (Payload * Z)).

Section access.
Variable sha256 : string → string.
Variable cache_ttl_s : Z.

Definition cache_get (token : string) (now : Z) (cache : Cache) : option Payload * Cache :=
  match cache !! sha256 token with
  | None => (None, cache)
  | Some (payload, cached_at) =>
      if cache_ttl_s * 1000 <? now - cached_at then (None, delete (sha256 token) cache) else (Some payload, cache)
  end.

Definition cache_put (token : string) (payload : Payload) (now : Z) (cache : Cache) : Cache :=
  <[sha256 token := (payload, now)]> cache.

(** A request asks the cache at [asked]; the IdP's reply is there at [answered]. *)
Record Asking := mkAsking { asked : Z; reply : IdpReply; answered : Z }.

Definition introspect_token (token : string) (a : Asking) (cache : Cache) : result AuthError Payload * Cache :=
  let '(cached, cache) := cache_get token (asked a) cache in
  match cached with
  | Some payload => (Ok payload, cache)
  | None =>
      match reply a with
      | idp_fails | idp_not_an_object => (Err IntrospectionUnavailable, cache)
      | idp_says payload => (Ok payload, cache_put token payload (answered a) cache)
      end
  end.

Definition _resolve_trust_tier (payload : Payload) : TrustTier :=
  match claim_of "trust_tier" payload with
  | plain (JStr s) => default INTERNAL (tier_of_value s)
  | _ => INTERNAL
  end.

(** [frozenset(payload.get("groups") or ())]. *)
Definition groups_of (c : claim) : result AuthError (gset string) :=
  if negb (truthy c) then Ok ∅ else
  match c with
  | plain v => match frozenset_of v with Some s => Ok s | None => Err raises end
  | nonfinite _ => Err raises
  end.

(** [scope_str.split()], of which only a string has one. *)
Definition scopes_of (c : claim) : result AuthError (gset string) :=
  if negb (truthy c) then Ok ∅ else
  match c with
  | plain (JStr s) =>
      Ok (list_to_set (map String.string_of_list_ascii (words (String.list_ascii_of_string s))))
  | _ => Err raises
  end.

(** The checks on an introspected interactive token, at [now]. *)
Definition session_of_payload (payload : Payload) (now : Z) (group_role_map : gmap string string)
    : result AuthError SessionContext :=
  _ ← guard_err (truthy (claim_of "active" payload)) SessionError;
  exp ← match number_of (claim_of "exp" payload) with Some n => Ok n | None => Err SessionError end;
  _ ← guard_err (negb (lapsed now exp)) SessionError;
  let subject := claim_of "sub" payload in
  _ ← guard_err (truthy subject) SessionError;
  groups ← groups_of (claim_of "groups" payload);
  scopes ← scopes_of (claim_of "scope" payload);
  token_exp ← float_of exp;
  Ok (mkSessionContext subject (resolve_roles groups group_role_map) scopes (_resolve_trust_tier payload)
        token_exp false).

Definition authenticate (token : option string) (a : Asking) (group_role_map : gmap string string) (cache : Cache)
    : result AuthError SessionContext * Cache :=
  match token with
  | None | Some "" => (Err SessionError, cache)
  | Some token =>
      let '(payload, cache) := introspect_token token a cache in
      (payload ← payload; session_of_payload payload (answered a) group_role_map, cache)
  end.

(** ** [m2m.py] *)

Record M2MGrant := mkM2MGrant { gr_scopes : gset string; gr_tier : TrustTier }.

Definition M2M_ROLES : gset string := {["submitter"]}.
Definition DEFAULT_M2M_GRANT : M2MGrant := mkM2MGrant {["scan:submit"]} PUBLIC.

Definition resolve_grant (service_account : string) (grants : gmap string M2MGrant) : M2MGrant :=
  default DEFAULT_M2M_GRANT (grants !! service_account).

(** [not allowed or subject not in allowed], on a value of any type. *)
Definition allowlisted (allowed : gset string) (subject : claim) : result AuthError string :=
  if bool_decide (allowed = ∅) then Err M2MError else
  match subject with
  | plain (JStr s) => if bool_decide (s ∈ allowed) then Ok s else Err M2MError
  | plain j => if hashable j then Err M2MError else Err raises
  | nonfinite _ => Err M2MError
  end.

Definition machine (service_account : string) (grants : gmap string M2MGrant) (exp : number) : SessionContext :=
  let grant := resolve_grant service_account grants in
  mkSessionContext (plain (JStr service_account)) M2M_ROLES (gr_scopes grant) (gr_tier grant) exp true.

Definition machine_of_payload (payload : Payload) (now : Z) (allowed : gset string) (grants : gmap string M2MGrant)
    : result AuthError SessionContext :=
  _ ← guard_err (truthy (claim_of "active" payload)) M2MError;
  let sub := claim_of "sub" payload in
  let subject := if truthy sub then sub else claim_of "client_id" payload in
  _ ← guard_err (truthy subject) M2MError;
  service_account ← allowlisted allowed subject;
  exp ← match number_of (claim_of "exp" payload) with Some n => Ok n | None => Err M2MError end;
  _ ← guard_err (negb (lapsed now exp)) M2MError;
  token_exp ← float_of exp;
  Ok (machine service_account grants token_exp).

Definition authenticate_client_credentials (token : string) (a : Asking) (allowed : gset string)
    (grants : gmap string M2MGrant) (cache : Cache) : result AuthError SessionContext * Cache :=
  if String.eqb token "" then (Err M2MError, cache) else
  let '(payload, cache) := introspect_token token a cache in
  (payload ← payload; machine_of_payload payload (answered a) allowed grants, cache).

(** *** [Authorization: Basic] *)

Definition b64_value (c : ascii) : option Z :=
  let n := code c in
  if (65 <=? n) && (n <=? 90) then Some (n - 65)
  else if (97 <=? n) && (n <=? 122) then Some (n - 71)
  else if (48 <=? n) && (n <=? 57) then Some (n + 4)
  else if n =? 43 then Some 62
  else if n =? 47 then Some 63
  else None.

(** [binascii.a2b_base64] in strict mode, one character at a time: the position in
    the group of four, the bits left over, the padding seen and whether any was. *)
Fixpoint a2b_base64 (quad left pads : Z) (started : bool) (l : list ascii) : option (list Z) :=
  match l with
  | [] => if quad =? 0 then Some [] else None
  | c :: rest =>
      if Ascii.eqb c "=" then
        if 2 <=? quad then
          if 4 <=? quad + (pads + 1) then match rest with [] => Some [] | _ => None end
          else a2b_base64 quad left (pads + 1) true rest
        else a2b_base64 quad left pads true rest
      else match b64_value c with
      | None => None
      | Some v =>
          if started then None
          else if quad =? 0 then a2b_base64 1 v 0 false rest
          else if quad =? 1 then cons (left * 4 + v / 16) <$> a2b_base64 2 (v mod 16) 0 false rest
          else if quad =? 2 then cons (left * 16 + v / 4) <$> a2b_base64 3 (v mod 4) 0 false rest
          else cons (left * 64 + v) <$> a2b_base64 0 0 0 false rest
      end
  end.

(** [base64.b64decode(text, validate=True)]. *)
Definition b64decode (text : list ascii) : option (list Z) :=
  match text with
  | c :: _ => if Ascii.eqb c "=" then None else a2b_base64 0 0 0 false text
  | [] => Some []
  end.

Definition string_of_bytes (bs : list Z) : string :=
  String.string_of_list_ascii (map (λ b, ascii_of_N (Z.to_N b)) bs).

(** [bytes.decode("utf-8")]: the text is its bytes. *)
Definition decode_strict (bs : list Z) : option string :=
  if forallb scalar (decode_utf8 bs) then Some (string_of_bytes bs) else None.

(** [text.partition(":")], [None] without a colon. *)
Fixpoint partition_colon (s : string) : option (string * string) :=
  match s with
  | "" => None
  | String c s' =>
      if Ascii.eqb c ":" then Some ("", s')
      else match partition_colon s' with Some (a, b) => Some (String c a, b) | None => None end
  end.

Definition lower_ascii (c : ascii) : ascii :=
  if (65 <=? code c) && (code c <=? 90) then ascii_of_N (Z.to_N (code c + 32)) else c.

(** [header.lower().startswith(scheme)], and what follows the scheme. *)
Fixpoint after_scheme (scheme header : list ascii) : option (list ascii) :=
  match scheme, header with
  | [], _ => Some header
  | s :: scheme', c :: header' => if Ascii.eqb (lower_ascii c) s then after_scheme scheme' header' else None
  | _ :: _, [] => None
  end.

Definition scheme_rest (scheme header : string) : option (list ascii) :=
  after_scheme (String.list_ascii_of_string scheme) (String.list_ascii_of_string header).

Definition _parse_basic_header (header : string) : option (string * string) :=
  rest ← scheme_rest "basic " header;
  bs ← b64decode (strip rest);
  text ← decode_strict bs;
  partition_colon text.

Definition _BASIC_LOCKOUT_THRESHOLD : Z := 5.
Definition _BASIC_LOCKOUT_WINDOW_S : Z := 900.
Definition basic_fail_key (service_account : string) : string := "skillscan:m2m:basic:failcount:" +:+ service_account.

Variable seconds : Z → Z.
Variable verify_password : string → string → bool.

(** One attempt with nothing in between. *)
Definition authenticate_basic_service_account (authorization_header : string) (accounts : gmap string string)
    (allowed : gset string) (grants : gmap string M2MGrant) (now : Z) (st : Counters)
    : result AuthError SessionContext * Counters :=
  match _parse_basic_header authorization_header with
  | None => (Err M2MError, st)
  | Some (service_account, password) =>
      let key := basic_fail_key service_account in
      let '(failures, _, st) := read_in_window seconds key _BASIC_LOCKOUT_WINDOW_S now st in
      if _BASIC_LOCKOUT_THRESHOLD <=? failures then (Err M2MError, st) else
      let failed := (incr_in_window seconds key _BASIC_LOCKOUT_WINDOW_S now st).2 in
      match accounts !! service_account with
      | None => (Err M2MError, failed)
      | Some stored_hash =>
          if negb (verify_password password stored_hash) then (Err M2MError, failed)
          else if negb (bool_decide (service_account ∈ allowed)) then (Err M2MError, st)
          else (Ok (machine service_account grants (special pos_inf)), delete key st)
      end
  end.

(** ** [dependencies.py] *)

Definition SESSION_COOKIE_NAME : string := "skillscan_session".
Definition BREAKGLASS_SESSION_COOKIE_NAME : string := "skillscan_breakglass_session".
Definition SAML_SESSION_COOKIE_NAME : string := "skillscan_saml_session".
Definition LOCAL_SESSION_COOKIE_NAME : string := "skillscan_local_session".
Definition SESSION_COOKIE_NAMES : list string :=
  [SESSION_COOKIE_NAME; BREAKGLASS_SESSION_COOKIE_NAME; SAML_SESSION_COOKIE_NAME; LOCAL_SESSION_COOKIE_NAME].
Definition CSRF_COOKIE_NAME : string := "csrf_token".

Record Request := mkRequest {
  rq_method : string;
  rq_cookies : gmap string string;
  rq_authorization : option string;
  rq_csrf_header : option string;
}.

Record AuthRuntime := mkAuthRuntime {
  ar_group_role_map : gmap string string;
  ar_allowed_m2m_service_accounts : gset string;
  ar_m2m_grants : gmap string M2MGrant;
  ar_breakglass : bool;
  ar_saml : bool;
  ar_local : bool;
  ar_m2m_basic_accounts : gmap string string;
  ar_m2m_basic : bool;
}.

(** What a request can change: Redis and the introspection cache. *)
Record AuthState := mkAuthState {
  st_sessions : SessionStore;
  st_counters : Counters;
  st_cache : Cache;
}.

Definition _extract_basic_header (rq : Request) : option string :=
  header ← rq_authorization rq;
  match scheme_rest "basic " header with Some _ => Some header | None => None end.

Definition _extract_bearer_token (rq : Request) : option string :=
  header ← rq_authorization rq;
  rest ← scheme_rest "bearer " header;
  Some (String.string_of_list_ascii (strip rest)).

(** A session that is checked again at the next request. *)
Definition human (subject : claim) (roles : gset string) (now : Z) : SessionContext :=
  mkSessionContext subject roles ∅ INTERNAL (finite (inject_Z (now + 1000) / inject_Z 1000)) false.

Definition _resolve_breakglass_session_context (rq : Request) (rt : AuthRuntime) (st : SessionStore) (now : Z)
    : option SessionContext :=
  if negb (ar_breakglass rt) then None else
  token ← rq_cookies rq !! BREAKGLASS_SESSION_COOKIE_NAME;
  subject ← resolve_breakglass_session sha256 st now token;
  Some (human (plain (JStr subject)) {["admin"]} now).

Definition _resolve_saml_session_context (rq : Request) (rt : AuthRuntime) (st : SessionStore) (now : Z)
    : option SessionContext :=
  if negb (ar_saml rt) then None else
  token ← rq_cookies rq !! SAML_SESSION_COOKIE_NAME;
  resolved ← resolve_saml_session sha256 st now token;
  Some (human (plain resolved.1) resolved.2 now).

(** [frozenset({role})] raises on a value that is not hashable. *)
Definition _resolve_local_session_context (rq : Request) (rt : AuthRuntime) (st : SessionStore) (now : Z)
    : option (result AuthError SessionContext) :=
  if negb (ar_local rt) then None else
  token ← rq_cookies rq !! LOCAL_SESSION_COOKIE_NAME;
  resolved ← resolve_local_session sha256 st now token;
  Some (if hashable resolved.2 then Ok (human (plain resolved.1) (strings_of [resolved.2]) now) else Err raises).

(** The Redis reads happen at [asked a]. *)
Definition get_session_context (rt : AuthRuntime) (rq : Request) (a : Asking) (st : AuthState)
    : result AuthError SessionContext * AuthState :=
  let now := asked a in
  match _resolve_breakglass_session_context rq rt (st_sessions st) now with
  | Some sc => (Ok sc, st)
  | None =>
  match _resolve_saml_session_context rq rt (st_sessions st) now with
  | Some sc => (Ok sc, st)
  | None =>
  match _resolve_local_session_context rq rt (st_sessions st) now with
  | Some r => (r, st)
  | None =>
      let with_cache r := (r.1, mkAuthState (st_sessions st) (st_counters st) r.2) in
      match _extract_bearer_token rq, _extract_basic_header rq with
      | Some bearer, _ =>
          with_cache (authenticate_client_credentials bearer a (ar_allowed_m2m_service_accounts rt)
                        (ar_m2m_grants rt) (st_cache st))
      | None, basic =>
          match basic, ar_m2m_basic rt with
          | Some header, true =>
              let r := authenticate_basic_service_account header (ar_m2m_basic_accounts rt)
                         (ar_allowed_m2m_service_accounts rt) (ar_m2m_grants rt) now (st_counters st) in
              (r.1, mkAuthState (st_sessions st) r.2 (st_cache st))
          | _, _ =>
              with_cache (authenticate (rq_cookies rq !! SESSION_COOKIE_NAME) a (ar_group_role_map rt) (st_cache st))
          end
      end
  end
  end
  end.

(** *** Guards of a route *)

(** The answers that end a request here: 401, 403, the CSRF 403, and 500 for an
    exception nothing handles. *)
Inductive Refusal := unauthenticated | forbidden | csrf_failed | server_error.

Definition as_refusal (e : AuthError) : Refusal := match e with raises => server_error | _ => unauthenticated end.

Definition require_role (roles : list string) (sc : SessionContext) : result Refusal SessionContext :=
  match roles with
  | [] => Ok sc
  | _ => if has_role sc roles then Ok sc else Err forbidden
  end.

Definition require_human_role (roles : list string) (sc : SessionContext) : result Refusal SessionContext :=
  sc ← require_role roles sc;
  if sc_is_machine sc then Err forbidden else Ok sc.

Definition request_has_session_cookie (rq : Request) : bool :=
  existsb (λ name, bool_decide (is_Some (rq_cookies rq !! name))) SESSION_COOKIE_NAMES.

Definition _SAFE_METHODS : list string := ["GET"; "HEAD"; "OPTIONS"].

(** [secrets.compare_digest] refuses text that is not ASCII with a [TypeError]: [None]. *)
Definition verify_csrf (cookie_token header_token : option string) : option bool :=
  match cookie_token, header_token with
  | None, _ | Some "", _ | _, None | _, Some "" => Some false
  | Some c, Some h => if is_ascii c && is_ascii h then Some (String.eqb c h) else None
  end.

Definition enforce_csrf (rq : Request) : result Refusal unit :=
  if bool_decide (rq_method rq ∈ _SAFE_METHODS) then Ok () else
  match verify_csrf (rq_cookies rq !! CSRF_COOKIE_NAME) (rq_csrf_header rq) with
  | Some true => Ok ()
  | Some false => Err csrf_failed
  | None => Err server_error
  end.

Definition require_csrf (rq : Request) : result Refusal unit :=
  if request_has_session_cookie rq then enforce_csrf rq else Ok ().

(** A route's guards: its own [require_csrf], if it has one, then its session. *)
Definition pass_guards (csrf machines : bool) (roles : list string) (rt : AuthRuntime) (rq : Request) (a : Asking)
    (st : AuthState) : result Refusal SessionContext * AuthState :=
  match (if csrf then require_csrf rq else Ok ()) with
  | Err e => (Err e, st)
  | Ok _ =>
      let '(r, st') := get_session_context rt rq a st in
      (match r with
       | Err e => Err (as_refusal e)
       | Ok sc => if machines then require_role roles sc else require_human_role roles sc
       end, st')
  end.

(** ** What stands behind an identity *)

(** The six ways a request is authenticated. *)
Inductive Credential (rt : AuthRuntime) (rq : Request) (a : Asking) (st : AuthState) : SessionContext → Prop :=
| by_breakglass token subject :
    ar_breakglass rt = true → rq_cookies rq !! BREAKGLASS_SESSION_COOKIE_NAME = Some token →
    resolve_breakglass_session sha256 (st_sessions st) (asked a) token = Some subject →
    Credential rt rq a st (human (plain (JStr subject)) {["admin"]} (asked a))
| by_saml token subject roles :
    ar_saml rt = true → rq_cookies rq !! SAML_SESSION_COOKIE_NAME = Some token →
    resolve_saml_session sha256 (st_sessions st) (asked a) token = Some (subject, roles) →
    Credential rt rq a st (human (plain subject) roles (asked a))
| by_local token subject role :
    ar_local rt = true → rq_cookies rq !! LOCAL_SESSION_COOKIE_NAME = Some token →
    resolve_local_session sha256 (st_sessions st) (asked a) token = Some (subject, role) →
    Credential rt rq a st (human (plain subject) (strings_of [role]) (asked a))
| by_token token payload cache' sc :
    rq_cookies rq !! SESSION_COOKIE_NAME = Some token →
    introspect_token token a (st_cache st) = (Ok payload, cache') →
    session_of_payload payload (answered a) (ar_group_role_map rt) = Ok sc →
    Credential rt rq a st sc
| by_bearer token payload cache' sc :
    _extract_bearer_token rq = Some token →
    introspect_token token a (st_cache st) = (Ok payload, cache') →
    machine_of_payload payload (answered a) (ar_allowed_m2m_service_accounts rt) (ar_m2m_grants rt) = Ok sc →
    Credential rt rq a st sc
| by_basic header service_account password stored_hash :
    ar_m2m_basic rt = true → _extract_basic_header rq = Some header →
    _parse_basic_header header = Some (service_account, password) →
    ar_m2m_basic_accounts rt !! service_account = Some stored_hash →
    verify_password password stored_hash = true →
    service_account ∈ ar_allowed_m2m_service_accounts rt →
    Credential rt rq a st (machine service_account (ar_m2m_grants rt) (special pos_inf)).

Lemma basic_Ok header accounts allowed grants now st sc st' :
  authenticate_basic_service_account header accounts allowed grants now st = (Ok sc, st') →
  ∃ sa pw h, _parse_basic_header header = Some (sa, pw) ∧ accounts !! sa = Some h ∧ verify_password pw h = true ∧
             sa ∈ allowed ∧ sc = machine sa grants (special pos_inf).
Proof.
  unfold authenticate_basic_service_account. destruct (_parse_basic_header header) as [[sa pw]|]; [|done].
  destruct (read_in_window _ _ _ _ _) as [[failures ttl] st1]. destruct (_ <=? _); [done|].
  destruct (accounts !! sa) as [h|] eqn:Eh; [|done]. destruct (verify_password pw h) eqn:Ev; [|done].
  case_bool_decide; cbn; [|done]. intros [= <- <-]. eauto 10.
Qed.

Lemma get_session_context_credential rt rq a st sc st' :
  get_session_context rt rq a st = (Ok sc, st') → Credential rt rq a st sc.
Proof.
  unfold get_session_context.
  destruct (_resolve_breakglass_session_context rq rt _ _) as [sc1|] eqn:E1.
  { intros [= <- <-]. unfold _resolve_breakglass_session_context in E1. destruct (ar_breakglass rt) eqn:Hw; [|done].
    cbn in E1. apply bind_Some in E1 as (token & Ht & E1). apply bind_Some in E1 as (subject & Hs & [= <-]).
    by eapply by_breakglass. }
  destruct (_resolve_saml_session_context rq rt _ _) as [sc2|] eqn:E2.
  { intros [= <- <-]. unfold _resolve_saml_session_context in E2. destruct (ar_saml rt) eqn:Hw; [|done].
    cbn in E2. apply bind_Some in E2 as (token & Ht & E2). apply bind_Some in E2 as ([subject roles] & Hs & [= <-]).
    by eapply by_saml. }
  destruct (_resolve_local_session_context rq rt _ _) as [r3|] eqn:E3.
  { intros [= -> <-]. unfold _resolve_local_session_context in E3. destruct (ar_local rt) eqn:Hw; [|done].
    cbn in E3. apply bind_Some in E3 as (token & Ht & E3). apply bind_Some in E3 as ([subject role] & Hs & E3).
    cbn in E3. destruct (hashable role); [|done]. injection E3 as <-. by eapply by_local. }
  destruct (_extract_bearer_token rq) as [bearer|] eqn:Eb.
  { unfold authenticate_client_credentials. destruct (String.eqb bearer ""); [done|].
    destruct (introspect_token bearer a (st_cache st)) as [[payload|e] cache'] eqn:Ei; cbn; [|done].
    intros [= Hm <-]. by eapply by_bearer. }
  destruct (_extract_basic_header rq) as [header|] eqn:Eh.
  - destruct (ar_m2m_basic rt) eqn:Hw; cycle 1.
    + unfold authenticate. destruct (rq_cookies rq !! SESSION_COOKIE_NAME) as [[|c s]|] eqn:Ec; try done.
      destruct (introspect_token _ a (st_cache st)) as [[payload|e] cache'] eqn:Ei; cbn; [|done].
      intros [= Hm <-]. by eapply by_token.
    + destruct (authenticate_basic_service_account _ _ _ _ _ _) as [r c'] eqn:Ea. cbn. intros [= -> <-].
      apply basic_Ok in Ea as (sa & pw & h & Hp & Ha & Hv & Hin & ->). by eapply by_basic.
  - unfold authenticate. destruct (rq_cookies rq !! SESSION_COOKIE_NAME) as [[|c s]|] eqn:Ec; try done.
    destruct (introspect_token _ a (st_cache st)) as [[payload|e] cache'] eqn:Ei; cbn; [|done].
    intros [= Hm <-]. by eapply by_token.
Qed.

Lemma session_of_payload_Ok payload now map_ sc :
  session_of_payload payload now map_ = Ok sc →
  truthy (claim_of "active" payload) = true ∧
  (∃ exp, number_of (claim_of "exp" payload) = Some exp ∧ lapsed now exp = false) ∧
  sc_subject sc = claim_of "sub" payload ∧ truthy (sc_subject sc) = true ∧ sc_is_machine sc = false ∧
  ∃ groups, groups_of (claim_of "groups" payload) = Ok groups ∧ sc_roles sc = resolve_roles groups map_.
Proof.
  unfold session_of_payload. intros H. ok_inv.
  destruct (number_of (claim_of "exp" payload)) as [exp|] eqn:En; ok_inv. bool_prop.
  split_and!; [done|eauto|done|done|done|eauto].
Qed.

Lemma allowlisted_Ok allowed subject sa : allowlisted allowed subject = Ok sa → sa ∈ allowed.
Proof.
  unfold allowlisted. case_bool_decide; [done|]. destruct subject as [[]|]; try done. cbn. case_bool_decide; [|done].
  by intros [= <-].
Qed.

Lemma machine_of_payload_Ok payload now allowed grants sc :
  machine_of_payload payload now allowed grants = Ok sc →
  truthy (claim_of "active" payload) = true ∧
  (∃ exp, number_of (claim_of "exp" payload) = Some exp ∧ lapsed now exp = false) ∧
  ∃ sa exp, sa ∈ allowed ∧ sc = machine sa grants exp.
Proof.
  unfold machine_of_payload. intros H. ok_inv.
  destruct (number_of (claim_of "exp" payload)) as [exp|] eqn:En; ok_inv. bool_prop.
  split_and!; [done|eauto|]. eauto using allowlisted_Ok.
Qed.

Lemma elem_of_resolve_roles role groups map_ :
  role ∈ resolve_roles groups map_ ↔
  role = DEFAULT_ROLE ∨ role ∈ KNOWN_ROLES ∧ ∃ g, g ∈ groups ∧ map_ !! g = Some role.
Proof.
  unfold resolve_roles. rewrite elem_of_union, elem_of_singleton, elem_of_filter, elem_of_list_to_set, list_elem_of_omap.
  setoid_rewrite elem_of_elements. done.
Qed.

(** C29: Who an administrator is.  A request that passes a route's [require_role("admin")]
    is a person's: it carries a break-glass session, or a SAML or local session
    recorded with the admin role, that Redis holds at this moment, or a token that
    introspection calls active and unexpired, of a group the map gives the admin
    role.  No service account is ever an administrator. *)
Theorem admin_routes_need_an_admin csrf rt rq a st sc st' :
  pass_guards csrf true ["admin"] rt rq a st = (Ok sc, st') →
  sc_is_machine sc = false ∧
  ((∃ token subject, ar_breakglass rt = true ∧ rq_cookies rq !! BREAKGLASS_SESSION_COOKIE_NAME = Some token ∧
      resolve_breakglass_session sha256 (st_sessions st) (asked a) token = Some subject) ∨
   (∃ token subject roles, ar_saml rt = true ∧ rq_cookies rq !! SAML_SESSION_COOKIE_NAME = Some token ∧
      resolve_saml_session sha256 (st_sessions st) (asked a) token = Some (subject, roles) ∧ "admin" ∈ roles) ∨
   (∃ token subject, ar_local rt = true ∧ rq_cookies rq !! LOCAL_SESSION_COOKIE_NAME = Some token ∧
      resolve_local_session sha256 (st_sessions st) (asked a) token = Some (subject, JStr "admin")) ∨
   (∃ token payload cache' groups group exp,
      rq_cookies rq !! SESSION_COOKIE_NAME = Some token ∧
      introspect_token token a (st_cache st) = (Ok payload, cache') ∧
      truthy (claim_of "active" payload) = true ∧
      number_of (claim_of "exp" payload) = Some exp ∧ lapsed (answered a) exp = false ∧
      groups_of (claim_of "groups" payload) = Ok groups ∧ group ∈ groups ∧
      ar_group_role_map rt !! group = Some "admin")).
Proof.
  unfold pass_guards. destruct (if csrf then _ else _) as [[]|]; [|done].
  destruct (get_session_context rt rq a st) as [[sc0|e] st1] eqn:E; [|done].
  cbn. destruct (bool_decide ("admin" ∈ sc_roles sc0)) eqn:Hr; cbn; [|done]. bool_prop. intros [= -> <-].
  destruct (get_session_context_credential _ _ _ _ _ _ E) as
    [token subject Hw Hc Hs|token subject roles Hw Hc Hs|token subject role Hw Hc Hs
    |token payload cache' sc Hc Hi Hp|token payload cache' sc Hc Hi Hp|header sa pw h Hw He Hp Ha Hv Hin].
  - split; [done|]. left. eauto.
  - split; [done|]. right. left. eauto 10.
  - split; [done|]. right. right. left. exists token, subject. split_and!; [done..|]. rewrite Hs.
    cbn in Hr. unfold strings_of in Hr. destruct role; cbn in Hr; set_solver.
  - apply session_of_payload_Ok in Hp as (Hact & (exp & Hexp & Hl) & _ & _ & Hm & groups & Hg & Hroles).
    split; [done|]. do 3 right. rewrite Hroles in Hr. apply elem_of_resolve_roles in Hr as [Hr|(_ & g & Hg' & Hmap)]; [done|].
    exists token, payload, cache', groups, g, exp. done.
  - apply machine_of_payload_Ok in Hp as (_ & _ & sa & exp & _ & ->). cbn in Hr. set_solver.
  - cbn in Hr. set_solver.
Qed.

Lemma has_cookie rq name :
  name ∈ SESSION_COOKIE_NAMES → is_Some (rq_cookies rq !! name) → request_has_session_cookie rq = true.
Proof. intros Hn Hs. apply existsb_true. exists name. split; [done|]. by apply bool_decide_eq_true. Qed.

(** People come with a session cookie, machines with a header. *)
Lemma credential_kind rt rq a st sc :
  Credential rt rq a st sc →
  if sc_is_machine sc then is_Some (rq_authorization rq) else request_has_session_cookie rq = true.
Proof.
  assert (Hn : ∀ name t, name ∈ SESSION_COOKIE_NAMES → rq_cookies rq !! name = Some t → request_has_session_cookie rq = true)
    by (intros; eapply has_cookie; eauto).
  unfold SESSION_COOKIE_NAMES in Hn.
  intros [token subject Hw Hc Hs|token subject roles Hw Hc Hs|token subject role Hw Hc Hs
    |token payload cache' sc' Hc Hi Hp|token payload cache' sc' Hc Hi Hp|header sa pw h Hw He Hp Ha Hv Hin]; cbn.
  - eapply Hn; [|done]. set_solver.
  - eapply Hn; [|done]. set_solver.
  - eapply Hn; [|done]. set_solver.
  - apply session_of_payload_Ok in Hp as (_ & _ & _ & _ & -> & _). eapply Hn; [|done]. set_solver.
  - apply machine_of_payload_Ok in Hp as (_ & _ & sa & exp & _ & ->). cbn.
    unfold _extract_bearer_token in Hc. destruct (rq_authorization rq); [eauto|done].
  - unfold _extract_basic_header in He. destruct (rq_authorization rq); [eauto|done].
Qed.

Lemma verify_csrf_true c h : verify_csrf c h = Some true → ∃ t, t ≠ "" ∧ c = Some t ∧ h = Some t.
Proof.
  unfold verify_csrf. destruct c as [[|x c]|]; [done| |done]. destruct h as [[|y h]|]; [done| |done].
  destruct (_ && _); [|done]. intros [= E]. change (String.eqb (String x c) (String y h) = true) in E.
  apply String.eqb_eq in E as ->. exists (String y h). done.
Qed.

(** C30: A forged request writes nothing.  A state-changing request that passes the
    guards of a route with [require_csrf] either repeats the browser's CSRF cookie,
    which is not empty, in its header, or it carries no session cookie at all and is
    a machine's, authenticated by its [Authorization] header; and a console route
    admits no machine, so there the token was repeated. *)
Theorem forged_writes_are_refused machines roles rt rq a st sc st' :
  pass_guards true machines roles rt rq a st = (Ok sc, st') → rq_method rq ∉ _SAFE_METHODS →
  (machines = false → sc_is_machine sc = false) ∧
  ((∃ t, t ≠ "" ∧ rq_cookies rq !! CSRF_COOKIE_NAME = Some t ∧ rq_csrf_header rq = Some t) ∨
   (sc_is_machine sc = true ∧ request_has_session_cookie rq = false ∧ is_Some (rq_authorization rq))).
Proof.
  unfold pass_guards. destruct (require_csrf rq) as [[]|] eqn:Ec; [|done].
  destruct (get_session_context rt rq a st) as [[sc0|e] st1] eqn:E; [|done].
  apply get_session_context_credential, credential_kind in E. intros Hadm Hm.
  assert (sc0 = sc ∧ (machines = false → sc_is_machine sc = false)) as [-> Hmach].
  { destruct machines.
    - unfold require_role in Hadm. destruct roles as [|r roles]; [by simplify_eq|].
      destruct (has_role sc0 (r :: roles)); by simplify_eq.
    - unfold require_human_role, require_role in Hadm.
      destruct roles as [|r roles]; [|destruct (has_role sc0 (r :: roles)); [|done]];
        cbn in Hadm; destruct (sc_is_machine sc0) eqn:Em; by simplify_eq. }
  split; [done|]. unfold require_csrf in Ec.
  destruct (request_has_session_cookie rq) eqn:Ek.
  - left. unfold enforce_csrf in Ec. rewrite bool_decide_false in Ec by done.
    destruct (verify_csrf _ _) as [[]|] eqn:Ev; try done. by apply verify_csrf_true.
  - right. destruct (sc_is_machine sc); [done|]. congruence.
Qed.

(** ** Freshness *)

(** The requests a process has served, with what the IdP said to each. *)
Fixpoint serve (rt : AuthRuntime) (served : list (Request * Asking)) (st : AuthState) : AuthState :=
  match served with
  | [] => st
  | (rq, a) :: rest => serve rt rest (get_session_context rt rq a st).2
  end.

Definition tokens_of (rq : Request) : list string :=
  option_list (_extract_bearer_token rq) ++ option_list (rq_cookies rq !! SESSION_COOKIE_NAME).

(** [payload] was said of a token with this digest, in answer to one of these requests. *)
Definition said (served : list (Request * Asking)) (digest : string) (payload : Payload) (at_ : Z) : Prop :=
  ∃ rq a token, (rq, a) ∈ served ∧ token ∈ tokens_of rq ∧ sha256 token = digest ∧
                reply a = idp_says payload ∧ answered a = at_.

Definition backed (served : list (Request * Asking)) (cache : Cache) : Prop :=
  ∀ digest payload at_, cache !! digest = Some (payload, at_) → said served digest payload at_.

Lemma said_mono l l' d p t : l ⊆ l' → said l d p t → said l' d p t.
Proof. intros Hl (rq & a & token & Hin & H). exists rq, a, token. split; [by apply Hl|done]. Qed.

Lemma introspect_spec token a cache r cache' :
  introspect_token token a cache = (r, cache') →
  (∀ d e, cache' !! d = Some e → cache !! d = Some e ∨
     d = sha256 token ∧ e.2 = answered a ∧ reply a = idp_says e.1) ∧
  ∀ payload, r = Ok payload →
    (∃ t, cache !! sha256 token = Some (payload, t) ∧ asked a - t <= cache_ttl_s * 1000) ∨ reply a = idp_says payload.
Proof.
  unfold introspect_token, cache_get. destruct (cache !! sha256 token) as [[p t]|] eqn:Ec.
  - destruct (_ <? _) eqn:Et.
    + assert (Hd : ∀ d e, delete (sha256 token) cache !! d = Some e → cache !! d = Some e)
        by (intros d e [_ ?]%lookup_delete_Some; done).
      destruct (reply a) as [| |p'] eqn:Er; intros [= <- <-]; (split; [intros d e He|intros payload [= <-]]); auto.
      unfold cache_put in He. destruct (decide (d = sha256 token)) as [->|Hne].
      * rewrite lookup_insert_eq in He. injection He as <-. auto.
      * rewrite lookup_insert_ne in He by done. auto.
    + apply Z.ltb_ge in Et. intros [= <- <-]. split; [auto|]. intros payload [= <-]. left. eauto.
  - destruct (reply a) as [| |p'] eqn:Er; intros [= <- <-]; (split; [intros d e He|intros payload [= <-]]); auto.
    unfold cache_put in He. destruct (decide (d = sha256 token)) as [->|Hne].
    + rewrite lookup_insert_eq in He. injection He as <-. auto.
    + rewrite lookup_insert_ne in He by done. auto.
Qed.

Lemma introspect_backed served rq a token cache r cache' :
  token ∈ tokens_of rq → backed served cache → introspect_token token a cache = (r, cache') →
  backed (served ++ [(rq, a)]) cache'.
Proof.
  intros Ht Hb Hi d p t He. apply introspect_spec in Hi as [Hi _].
  destruct (Hi _ _ He) as [Hold|(-> & Hat & Hr)].
  - eapply said_mono; [|by apply Hb]. set_solver.
  - cbn in *. subst t. exists rq, a, token. split_and!; [set_solver|done..].
Qed.

Lemma get_session_context_backed rt rq a served st :
  backed served (st_cache st) → backed (served ++ [(rq, a)]) (st_cache (get_session_context rt rq a st).2).
Proof.
  intros Hb. assert (Hb' : backed (served ++ [(rq, a)]) (st_cache st))
    by (intros d p t He; eapply said_mono; [|by apply Hb]; set_solver).
  assert (Hauth : backed (served ++ [(rq, a)])
    (authenticate (rq_cookies rq !! SESSION_COOKIE_NAME) a (ar_group_role_map rt) (st_cache st)).2).
  { unfold authenticate. destruct (rq_cookies rq !! SESSION_COOKIE_NAME) as [[|c s]|] eqn:Ec; [done| |done].
    destruct (introspect_token _ a (st_cache st)) as [r cache'] eqn:Ei. eapply introspect_backed; [|done..].
    unfold tokens_of. rewrite Ec. set_solver. }
  unfold get_session_context. do 3 (match goal with |- context [match ?x with Some _ => _ | None => _ end] => destruct x end; [done|]).
  destruct (_extract_bearer_token rq) as [bearer|] eqn:Eb.
  - cbn. unfold authenticate_client_credentials. destruct (String.eqb bearer ""); [done|].
    destruct (introspect_token bearer a (st_cache st)) as [r cache'] eqn:Ei. cbn. eapply introspect_backed; [|done..].
    unfold tokens_of. rewrite Eb. set_solver.
  - destruct (_extract_basic_header rq); [|done]. by destruct (ar_m2m_basic rt).
Qed.

Lemma serve_backed rt l served st :
  backed served (st_cache st) → backed (served ++ l) (st_cache (serve rt l st)).
Proof.
  revert served st. induction l as [|[rq a] l IH]; intros served st Hb; cbn; [by rewrite app_nil_r|].
  specialize (IH (served ++ [(rq, a)]) _ (get_session_context_backed rt rq a served st Hb)).
  by rewrite <-app_assoc in IH.
Qed.

(** No identity outlives its proof.  Whatever a process has served before, an
    authenticated request is backed by a session record that Redis holds now under
    the digest of its cookie, by a password checked now, or by the IdP: it said,
    in answer to a token with the digest of this one, that the token is active, and
    said so to this very request or at most the cache's lifetime ago.  So a token
    that is revoked at the IdP is refused when that time has passed. *)
Theorem identities_are_fresh rt served st rq a sc st' :
  st_cache st = ∅ → get_session_context rt rq a (serve rt served st) = (Ok sc, st') →
  (sc_is_machine sc = false ∧ ∃ prefix name token payload,
     (prefix, name) ∈ [(BREAKGLASS_PREFIX, BREAKGLASS_SESSION_COOKIE_NAME);
                       (_SAML_SESSION_KEY_PREFIX, SAML_SESSION_COOKIE_NAME);
                       (LOCAL_PREFIX, LOCAL_SESSION_COOKIE_NAME)] ∧
     rq_cookies rq !! name = Some token ∧
     resolve_session sha256 (st_sessions (serve rt served st)) (asked a) prefix token = Some payload) ∨
  (sc_is_machine sc = true ∧ ∃ header sa pw h,
     rq_authorization rq = Some header ∧ _parse_basic_header header = Some (sa, pw) ∧
     ar_m2m_basic_accounts rt !! sa = Some h ∧ verify_password pw h = true ∧
     sa ∈ ar_allowed_m2m_service_accounts rt ∧ sc_subject sc = plain (JStr sa)) ∨
  (∃ token payload at_,
     token ∈ tokens_of rq ∧ truthy (claim_of "active" payload) = true ∧
     said (served ++ [(rq, a)]) (sha256 token) payload at_ ∧
     (reply a = idp_says payload ∨ asked a - at_ <= cache_ttl_s * 1000)).
Proof.
  intros H0 E. set (s := serve rt served st) in *.
  assert (Hb : backed served (st_cache s)).
  { change served with ([] ++ served). apply serve_backed. intros d p t. by rewrite H0, lookup_empty. }
  assert (Hidp : ∀ token payload cache', token ∈ tokens_of rq → truthy (claim_of "active" payload) = true →
    introspect_token token a (st_cache s) = (Ok payload, cache') →
    ∃ token payload at_, token ∈ tokens_of rq ∧ truthy (claim_of "active" payload) = true ∧
     said (served ++ [(rq, a)]) (sha256 token) payload at_ ∧
     (reply a = idp_says payload ∨ asked a - at_ <= cache_ttl_s * 1000)).
  { intros token payload cache' Ht Hact Hi. apply introspect_spec in Hi as [_ Hi].
    destruct (Hi _ eq_refl) as [(t & Hc & Hle)|Hr].
    - exists token, payload, t. split_and!; [done..| |by right]. eapply said_mono; [|by apply Hb]. set_solver.
    - exists token, payload, (answered a). split_and!; [done..| |by left]. exists rq, a, token. split_and!; [set_solver|done..]. }
  destruct (get_session_context_credential _ _ _ _ _ _ E) as
    [token subject Hw Hc Hs|token subject roles Hw Hc Hs|token subject role Hw Hc Hs
    |token payload cache' sc Hc Hi Hp|token payload cache' sc Hc Hi Hp|header sa pw h Hw He Hp Ha Hv Hin].
  - left. split; [done|]. unfold resolve_breakglass_session in Hs. destruct (resolve_session _ _ _ _ _) as [p|] eqn:Er; [|done].
    do 4 eexists. split_and!; [|done..]. set_solver.
  - left. split; [done|]. unfold resolve_saml_session in Hs. destruct (resolve_session _ _ _ _ _) as [p|] eqn:Er; [|done].
    do 4 eexists. split_and!; [|done..]. set_solver.
  - left. split; [done|]. unfold resolve_local_session in Hs. destruct (resolve_session _ _ _ _ _) as [p|] eqn:Er; [|done].
    do 4 eexists. split_and!; [|done..]. set_solver.
  - right. right. apply session_of_payload_Ok in Hp as (Hact & _). eapply Hidp; [|done..]. unfold tokens_of. rewrite Hc. set_solver.
  - right. right. apply machine_of_payload_Ok in Hp as (Hact & _). eapply Hidp; [|done..]. unfold tokens_of. rewrite Hc. set_solver.
  - right. left. split; [done|]. apply bind_Some in He as (hd & Hrq & He).
    destruct (scheme_rest _ hd); [|done]. injection He as <-. eauto 10.
Qed.

(** ** The password path *)

(** Guessing a service account's password.  Five failed attempts lock the account:
    while the window of its counter is open, an attempt is refused without looking at
    the password and leaves the counter alone, whatever else it carries; and no answer
    tells an unknown account, a wrong password, a locked account or one that is not
    allowlisted apart. *)
Theorem basic_attempts_are_bounded header sa pw accounts allowed grants now st c e :
  (∀ ms, 0 <= ms → 0 <= seconds ms) →
  _parse_basic_header header = Some (sa, pw) → st !! basic_fail_key sa = Some (c, Some e) → now < e →
  let '(r, st') := authenticate_basic_service_account header accounts allowed grants now st in
  (if 5 <=? c then r = Err M2MError ∧ st' = st
   else match accounts !! sa with
        | Some h =>
            if verify_password pw h then
              if bool_decide (sa ∈ allowed) then is_ok r = true ∧ st' !! basic_fail_key sa = None
              else r = Err M2MError ∧ st' = st
            else r = Err M2MError ∧ st' !! basic_fail_key sa = Some (c + 1, Some e)
        | None => r = Err M2MError ∧ st' !! basic_fail_key sa = Some (c + 1, Some e)
        end).
Proof.
  intros Hsec Hp Hc Hn. unfold authenticate_basic_service_account. rewrite Hp.
  pose proof (read_spec seconds Hsec (basic_fail_key sa) _BASIC_LOCKOUT_WINDOW_S now st ltac:(done)) as [Hcount Hr].
  rewrite (live_in_window st (basic_fail_key sa) c e now Hc Hn) in Hcount, Hr.
  destruct (read_in_window _ _ _ _ _) as [[failures ttl] st1]. cbn [fst snd] in *. subst failures st1.
  unfold _BASIC_LOCKOUT_THRESHOLD. destruct (5 <=? c); [done|].
  pose proof (incr_counts seconds Hsec (basic_fail_key sa) _BASIC_LOCKOUT_WINDOW_S now st c e ltac:(done) Hc Hn) as [Hi _].
  destruct (accounts !! sa) as [h|]; [|done]. destruct (verify_password pw h); cbn; [|done].
  case_bool_decide; cbn; [|done]. split; [done|]. apply lookup_delete_eq.
Qed.
End access.

Module AccessSamples.

Definition sha (s : string) : string := s.
Definition whole_seconds (ms : Z) : Z := ms / 1000.
Definition plain_password (password stored : string) : bool := String.eqb password stored.

Definition runtime : AuthRuntime :=
  mkAuthRuntime {["sec" := "admin"; "dev" := "approver"; "x" := "root"]} {["shop"]} ∅ true true true {["shop" := "pw"]} true.

Definition alive (groups : list json) (exp : claim) : Payload :=
  {["active" := plain (JBool true); "sub" := plain (JStr "ann"); "exp" := exp; "groups" := plain (JList groups)]}.

Definition browser (cookies : list (string * string)) (csrf : option string) : Request :=
  mkRequest "POST" (list_to_map cookies) None csrf.

Definition sec_token : Asking := mkAsking 5000 (idp_says (alive [JStr "sec"; JStr "x"] (plain (JNum 100)))) 6000.
Definition ann : Request := browser [("skillscan_session", "tok"); ("csrf_token", "c")] (Some "c").
Definition nothing : AuthState := mkAuthState ∅ ∅ ∅.

Abbreviation pass_guards' := (pass_guards sha 30 whole_seconds plain_password).
Abbreviation session' := (get_session_context sha 30 whole_seconds plain_password).

Definition ann_admin : SessionContext :=
  mkSessionContext (plain (JStr "ann")) {["submitter"; "admin"]} ∅ INTERNAL (finite 100) false.

Lemma ann_admitted : ∃ st', pass_guards' true true ["admin"] runtime ann sec_token nothing = (Ok ann_admin, st').
Proof. eexists. vm_compute. reflexivity. Qed.

Lemma admin_routes_need_an_admin_witness :
  (∃ st', pass_guards' true true ["admin"] runtime ann sec_token nothing = (Ok ann_admin, st')) ∧ sc_is_machine ann_admin = false.
Proof.
  split; [apply ann_admitted|]. destruct ann_admitted as [st' E].
  exact (proj1 (admin_routes_need_an_admin sha 30 whole_seconds plain_password true runtime ann sec_token nothing _ _ E)).
Defined.

(** Without the header the same request is stopped; a machine needs no token. *)
Example without_the_token :
  (pass_guards' true true ["admin"] runtime (browser [("skillscan_session", "tok"); ("csrf_token", "c")] None) sec_token nothing).1
  = Err csrf_failed.
Proof. vm_compute. reflexivity. Qed.

Lemma forged_writes_are_refused_witness :
  (rq_method ann = "POST") ∧
  ((∃ t, t ≠ "" ∧ rq_cookies ann !! CSRF_COOKIE_NAME = Some t ∧ rq_csrf_header ann = Some t) ∨
   (sc_is_machine ann_admin = true ∧ request_has_session_cookie ann = false ∧ is_Some (rq_authorization ann))).
Proof.
  split; [done|]. destruct ann_admitted as [st' E].
  refine (proj2 (forged_writes_are_refused sha 30 whole_seconds plain_password true ["admin"] runtime ann sec_token nothing _ _ E _)).
  by_compute.
Defined.

(** The token is revoked after the first request: the second one, 29 seconds later,
    is still served from the cache, and the third is not. *)
Definition revoked (at_ : Z) : Asking := mkAsking at_ (idp_says {["active" := plain (JBool false)]}) at_.

Lemma ann_cached : ∃ st', session' runtime ann (revoked 35000) (serve sha 30 whole_seconds plain_password runtime [(ann, sec_token)] nothing)
  = (Ok ann_admin, st').
Proof. eexists. vm_compute. reflexivity. Qed.

Lemma identities_are_fresh_witness :
  (session' runtime ann (revoked 36001) (serve sha 30 whole_seconds plain_password runtime [(ann, sec_token)] nothing)).1
    = Err SessionError ∧
  ∃ at_, 35000 - at_ <= 30 * 1000.
Proof.
  split; [vm_compute; reflexivity|]. destruct ann_cached as [st' E].
  pose proof (identities_are_fresh sha 30 whole_seconds plain_password runtime [(ann, sec_token)] nothing ann (revoked 35000)
    _ _ eq_refl E) as [(_ & prefix & name & token & payload & H & Hc & _)|[[H _]|(token & payload & at_ & _ & Hact & _ & [H|H])]].
  - exfalso. repeat (apply elem_of_cons in H as [[= -> ->]|H]; [vm_compute in Hc; discriminate|]). by apply elem_of_nil in H.
  - discriminate H.
  - exfalso. injection H as <-. vm_compute in Hact. discriminate.
  - exists at_. exact H.
Defined.

(** [shop:pw], and [shop:no]. *)
Definition right_header : string := "Basic c2hvcDpwdw==".
Definition wrong_header : string := "basic  c2hvcDpubw== ".

Example headers_parse :
  _parse_basic_header right_header = Some ("shop", "pw") ∧ _parse_basic_header wrong_header = Some ("shop", "no") ∧
  _parse_basic_header "Basic c2hvcA==" = None ∧ _parse_basic_header "Basic c2hvcDpwdw=" = None.
Proof. vm_compute. done. Qed.

Lemma basic_attempts_are_bounded_witness :
  let st : Counters := {[basic_fail_key "shop" := (5, Some 900000)]} in
  authenticate_basic_service_account whole_seconds plain_password right_header {["shop" := "pw"]} {["shop"]} ∅ 1000 st
  = (Err M2MError, st).
Proof.
  intros st.
  pose proof (basic_attempts_are_bounded whole_seconds plain_password right_header "shop" "pw" {["shop" := "pw"]} {["shop"]} ∅
    1000 st 5 900000 ltac:(intros ms H; apply Z.div_pos; [exact H|done]) ltac:(vm_compute; reflexivity)
    ltac:(vm_compute; reflexivity) ltac:(done)) as H.
  destruct (authenticate_basic_service_account _ _ _ _ _ _ _ _) as [r st']. destruct H as [-> ->]. reflexivity.
Defined.

(** A response whose [exp] is NaN, which [json.loads] accepts, passes the expiry
    check at every time; one whose [groups] is a number ends in an unhandled
    exception instead of a refusal. *)
Example nan_never_lapses now : lapsed now (special not_a_number) = false.
Proof. done. Qed.

Example odd_groups_raise :
  (session' runtime ann (mkAsking 5000 (idp_says (<["groups" := plain (JNum 5)]> (alive [] (plain (JNum 100))))) 6000) nothing).1
  = Err raises.
Proof. vm_compute. reflexivity. Qed.
End AccessSamples.
