(* ===== verification/Login.v ===== *)
(** * Signing in and out: [admin/breakglass.py] and the login routes

    Break-glass arming and use, the login routes of [admin/router.py] and
    [gateway/auth/login_router.py] (break-glass, local accounts, OIDC, SAML) with
    [gateway/auth/oidc.py] and the request tracker of [gateway/auth/saml.py], and
    logout.  Random tokens are arguments; TOTP, the token and JWKS endpoints,
    id-token validation and the SAML library are parameters.  Instants are in
    milliseconds. *)

From S2P Require Import Prelude Models Json PyText Limits Sessions Policy Access.
From Stdlib Require Import QArith Ascii.
Open Scope string_scope.
Open Scope list_scope.
Open Scope Z_scope.

(** ** Break-glass *)

(** The two Redis keys: who armed it, and whether this arming was used; each with
    the instant it expires at. *)
Record Vault := mkVault { v_armed : option (string * Z); v_used : option Z }.

Definition _USED_KEY_TTL_S : Z := 3600.
Definition ARMING_TTL_S : Z := 900.

Definition armed_at (v : Vault) (now : Z) : bool :=
  match v_armed v with Some (_, e) => negb (e <=? now) | None => false end.
Definition used_at (v : Vault) (now : Z) : bool :=
  match v_used v with Some e => negb (e <=? now) | None => false end.

Definition is_armed (v : Vault) (now : Z) : bool := armed_at v now && negb (used_at v now).

Inductive BreakGlassError := same_person | not_a_known_admin | invalid_totp | already_armed.

(** The two writes of an activation, in their order. *)
Definition set_armed (a b : string) (ttl_s now : Z) (v : Vault) : Vault :=
  mkVault (Some (a +:+ "|" +:+ b, now + ttl_s * 1000)) (v_used v).
Definition clear_used (v : Vault) : Vault := mkVault (v_armed v) None.

(** [totp] is [verify_totp] on the secret and the code at this time. *)
Definition activate_breakglass (activator_a activator_b : string) (totp : bool) (known_admin_subjects : gset string)
    (ttl_s now : Z) (v : Vault) : result BreakGlassError Vault :=
  _ ← guard_err (negb (String.eqb activator_a activator_b)) same_person;
  _ ← guard_err (bool_decide (activator_b ∈ known_admin_subjects)) not_a_known_admin;
  _ ← guard_err totp invalid_totp;
  _ ← guard_err (negb (is_armed v now)) already_armed;
  Ok (clear_used (set_armed activator_a activator_b ttl_s now v)).

Definition deactivate_breakglass (v : Vault) : Vault := mkVault None (v_used v).

(** [SET ... NX]. *)
Definition claim_used (now : Z) (v : Vault) : option Vault :=
  if used_at v now then None else Some (mkVault (v_armed v) (Some (now + _USED_KEY_TTL_S * 1000))).

(** [None]: [compare_digest] raises on text that is not ASCII. *)
Definition authenticate_breakglass (supplied expected : string) (totp : bool) (now : Z) (v : Vault)
    : option bool * Vault :=
  if negb (armed_at v now) then (Some false, v) else
  match claim_used now v with
  | None => (Some false, v)
  | Some v' =>
      (if negb (is_ascii supplied && is_ascii expected) then None
       else if negb (String.eqb supplied expected) then Some false
       else Some totp, v')
  end.

(** ** The accounts a login sees *)

(** A row of [local_account]. *)
Record LocalAccountRow := mkLocalAccountRow {
  lar_username : string;
  lar_password_hash : string;
  lar_role : string;
  lar_status : string;
  lar_created_by : string;
  lar_created_at : Z;
  lar_updated_at : Z;
}.

Definition account_of (r : LocalAccountRow) : LocalAccount :=
  mkLocalAccount (lar_username r) (lar_password_hash r) (lar_role r).

(** [DbLocalAccountStore.fetch_accounts]. *)
Definition fetch_accounts (rows : gmap Z LocalAccountRow) : list LocalAccount :=
  map (λ kr, account_of kr.2) (base.filter (λ kr, lar_status kr.2 = "active") (map_to_list rows)).

Lemma elem_of_fetch rows a :
  a ∈ fetch_accounts rows → ∃ i r, rows !! i = Some r ∧ lar_status r = "active" ∧ a = account_of r.
Proof.
  unfold fetch_accounts. intros ([i r] & -> & [Hs Hi]%list_elem_of_filter)%list_elem_of_fmap.
  apply elem_of_map_to_list in Hi. by exists i, r.
Qed.

(** ** The state the routes share *)

Record AuthorizationRequestState := mkAuthorizationRequestState {
  ars_state : string;
  ars_nonce : string;
  ars_code_verifier : string;
  ars_redirect_uri : string;
}.

Record Site := mkSite {
  si_sessions : SessionStore;
  si_counters : Counters;
  si_vault : Vault;
  si_oidc : gmap string (AuthorizationRequestState * Z);
  si_saml : gmap string Z;
  si_intents : list AuditIntent;
  si_accounts : gmap Z LocalAccountRow;
}.

Definition with_sessions (f : SessionStore → SessionStore) (s : Site) : Site :=
  mkSite (f (si_sessions s)) (si_counters s) (si_vault s) (si_oidc s) (si_saml s) (si_intents s) (si_accounts s).
Definition with_vault (v : Vault) (s : Site) : Site :=
  mkSite (si_sessions s) (si_counters s) v (si_oidc s) (si_saml s) (si_intents s) (si_accounts s).
Definition with_counters (c : Counters) (s : Site) : Site :=
  mkSite (si_sessions s) c (si_vault s) (si_oidc s) (si_saml s) (si_intents s) (si_accounts s).
Definition with_oidc (m : gmap string (AuthorizationRequestState * Z)) (s : Site) : Site :=
  mkSite (si_sessions s) (si_counters s) (si_vault s) m (si_saml s) (si_intents s) (si_accounts s).
Definition with_saml (m : gmap string Z) (s : Site) : Site :=
  mkSite (si_sessions s) (si_counters s) (si_vault s) (si_oidc s) m (si_intents s) (si_accounts s).
Definition add_intent (i : AuditIntent) (s : Site) : Site :=
  mkSite (si_sessions s) (si_counters s) (si_vault s) (si_oidc s) (si_saml s) (si_intents s ++ [i]) (si_accounts s).
Definition with_accounts (m : gmap Z LocalAccountRow) (s : Site) : Site :=
  mkSite (si_sessions s) (si_counters s) (si_vault s) (si_oidc s) (si_saml s) (si_intents s) m.

(** A route's answer: a session cookie with its lifetime, a status code, or an
    exception nothing handles. *)
Inductive LoginReply := granted (cookie token : string) (max_age_s : Z) | refused (code : Z) | crashes.

Record Deployment := mkDeployment {
  dp_breakglass_enabled : bool;
  dp_breakglass_credential : option string;
  dp_local_auth_enabled : bool;
  dp_group_role_map : gmap string string;
  dp_breakglass_ttl_s : Z;
  dp_local_ttl_s : Z;
  dp_oidc : option (list string);  (* the redirect_uri allowlist *)
  dp_oidc_issuer : string;
  dp_saml : bool;
}.

Section login.
Variable sha256 : string → string.
Variable seconds : Z → Z.
Variable verify_password : string → string → bool.
Variable dp : Deployment.

(** *** [POST /v1/admin/breakglass/activate], for an admin's session *)

Definition known_admins : gset string :=
  list_to_set (map fst (base.filter (λ gr, gr.2 = "admin") (map_to_list (dp_group_role_map dp)))).

Definition activate_breakglass_endpoint (subject second_activator : string) (totp : bool) (now : Z)
    (expires_at : json) (s : Site) : option Z * Site :=
  match dp_breakglass_enabled dp, dp_breakglass_credential dp with
  | true, Some _ =>
      if String.eqb second_activator subject then (Some 403, s) else
      match activate_breakglass subject second_activator totp known_admins ARMING_TTL_S now (si_vault s) with
      | Err _ => (Some 403, s)
      | Ok v =>
          (None, add_intent (mkAuditIntent subject "breakglass_activated"
             (JObj [("activated_by", JList [JStr subject; JStr second_activator]); ("expires_at", expires_at)]))
             (with_vault v s))
      end
  | _, _ => (Some 404, s)
  end.

(** *** [POST /v1/admin/breakglass/login] *)

Definition login_breakglass (credential : string) (totp : bool) (token : string) (now : Z) (s : Site)
    : LoginReply * Site :=
  match dp_breakglass_enabled dp, dp_breakglass_credential dp with
  | true, Some expected =>
      let '(ok, v) := authenticate_breakglass credential expected totp now (si_vault s) in
      let s := with_vault v s in
      match ok with
      | None => (crashes, s)
      | Some false => (refused 401, s)
      | Some true =>
          match create_breakglass_session sha256 (dp_breakglass_ttl_s dp) "breakglass-admin" token now (si_sessions s) with
          | None => (crashes, s)
          | Some st =>
              (granted BREAKGLASS_SESSION_COOKIE_NAME token (dp_breakglass_ttl_s dp),
               add_intent (mkAuditIntent "breakglass-admin" "breakglass_login" (JObj [])) (with_sessions (λ _, st) s))
          end
      end
  | _, _ => (refused 404, s)
  end.

(** *** [POST /v1/admin/local/login] *)

Definition login_local (username password token : string) (now : Z) (s : Site)
    : LoginReply * Site :=
  if negb (dp_local_auth_enabled dp) then (refused 404, s) else
  let '(account, counters) := authenticate_local seconds verify_password (fetch_accounts (si_accounts s)) username password
    now (si_counters s) in
  let s := with_counters counters s in
  match account with
  | None => (refused 401, s)
  | Some account =>
      match create_local_session sha256 (dp_local_ttl_s dp) (la_username account) (la_role account) token now (si_sessions s) with
      | None => (crashes, s)
      | Some st =>
          (granted LOCAL_SESSION_COOKIE_NAME token (dp_local_ttl_s dp),
           add_intent (mkAuditIntent (la_username account) "local_login" (JObj [("role", JStr (la_role account))]))
             (with_sessions (λ _, st) s))
      end
  end.

(** *** SAML *)

Definition _REQUEST_ID_TTL_S : Z := 300.

Definition _prune (now : Z) (m : gmap string Z) : gmap string Z := base.filter (λ kv, now <= kv.2) m.

Definition register (request_id : string) (now : Z) (m : gmap string Z) : gmap string Z :=
  <[request_id := now + _REQUEST_ID_TTL_S * 1000]> (_prune now m).

Definition consume (request_id : string) (now : Z) (m : gmap string Z) : bool * gmap string Z :=
  let m := _prune now m in
  (bool_decide (is_Some (m !! request_id)), delete request_id m).

(** What the library makes of the response to [request_id]. *)
Inductive SamlOutcome := saml_raises
| saml_processed (errors authenticated : bool) (name_id : string) (groups : list string).

Variable saml_library : string → string → SamlOutcome.

Definition process_saml_response (saml_response request_id : string) (now : Z) (m : gmap string Z)
    : option (string * list string) * gmap string Z :=
  let '(known, m) := consume request_id now m in
  (if negb known then None else
   match saml_library saml_response request_id with
   | saml_raises => None
   | saml_processed errors authenticated name_id groups =>
       if errors || negb authenticated then None
       else if String.eqb name_id "" then None else Some (name_id, groups)
   end, m).

(** [request_id]: none when the library produced none, which raises. *)
Definition saml_login (request_id : option string) (now : Z) (s : Site) : option string * Site :=
  if negb (dp_saml dp) then (None, s) else
  match request_id with
  | Some id => if String.eqb id "" then (None, s) else (Some id, with_saml (register id now (si_saml s)) s)
  | None => (None, s)
  end.

Definition saml_acs (saml_response request_id : option string) (token : string) (now : Z) (s : Site)
    : LoginReply * Site :=
  if negb (dp_saml dp) then (refused 404, s) else
  match saml_response, request_id with
  | Some response, Some id =>
      if String.eqb id "" then (refused 400, s) else
      let '(signed, m) := process_saml_response response id now (si_saml s) in
      let s := with_saml m s in
      match signed with
      | None => (refused 401, s)
      | Some (name_id, groups) =>
          let roles := resolve_roles (list_to_set groups) (dp_group_role_map dp) in
          match create_saml_session sha256 name_id roles token now (si_sessions s) with
          | None => (crashes, s)
          | Some st => (granted SAML_SESSION_COOKIE_NAME token SAML_SESSION_TTL_S, with_sessions (λ _, st) s)
          end
      end
  | _, _ => (refused 400, s)
  end.

(** *** OIDC *)

Definition _OIDC_STATE_TTL_S : Z := 300.
Definition _OIDC_SESSION_COOKIE_TTL_S : Z := 28800.

Definition oidc_login (fresh : AuthorizationRequestState) (now : Z) (s : Site) : option string * Site :=
  match dp_oidc dp with
  | None => (None, s)
  | Some _ =>
      (Some (ars_state fresh),
       with_oidc (<[ars_state fresh := (fresh, now + _OIDC_STATE_TTL_S * 1000)]> (si_oidc s)) s)
  end.

Inductive OidcError := oidc_refused | oidc_raises.

(** The token endpoint, asked with the code and the verifier: an [httpx] error, a
    body that is not an object, or the two tokens of an object. *)
Inductive TokenReply := token_fails | token_not_an_object | tokens (id_token access_token : option string).
Inductive JwksReply := jwks_fails | jwks_bad_shape | jwks_keys (keys : json).

Variable token_endpoint : string → string → TokenReply.
Variable jwks_endpoint : JwksReply.
(** [JsonWebToken.decode] and [validate] with the configured claims and this nonce. *)
Variable valid_id_token : string → json → string → option (gmap string claim).

Definition validate_id_token (id_token : string) (keys : json) (nonce : string)
    : result OidcError (claim * gmap string claim) :=
  match valid_id_token id_token keys nonce with
  | None => Err oidc_refused
  | Some claims =>
      match claims !! "iss" with
      | Some (plain (JStr iss)) =>
          if negb (String.eqb iss (dp_oidc_issuer dp)) then Err oidc_refused
          else match claims !! "sub" with
               | Some sub => Ok (sub, claims)
               | None => Err oidc_raises
               end
      | _ => Err oidc_refused
      end
  end.

Definition present (o : option string) : option string :=
  match o with Some "" => None | _ => o end.

Definition complete_authorization (allowlist : list string) (stored : AuthorizationRequestState)
    (received_state received_redirect_uri code : string) : result OidcError (claim * gmap string claim * string) :=
  if negb (is_ascii received_state && is_ascii (ars_state stored)) then Err oidc_raises
  else if negb (String.eqb received_state (ars_state stored)) then Err oidc_refused
  else if negb (bool_decide (received_redirect_uri ∈ allowlist)) then Err oidc_refused
  else match token_endpoint code (ars_code_verifier stored) with
  | token_fails | token_not_an_object => Err oidc_raises
  | tokens id_token access_token =>
      match present id_token, present access_token with
      | Some id_token, Some access_token =>
          match jwks_endpoint with
          | jwks_fails => Err oidc_raises
          | jwks_bad_shape => Err oidc_refused
          | jwks_keys keys =>
              who ← validate_id_token id_token keys (ars_nonce stored);
              Ok (who, access_token)
          end
      | _, _ => Err oidc_refused
      end
  end.

Definition oidc_callback (code state : string) (now : Z) (s : Site) : LoginReply * Site :=
  match dp_oidc dp with
  | None => (refused 404, s)
  | Some allowlist =>
      match si_oidc s !! state with
      | None => (refused 401, s)
      | Some (stored, expires) =>
          if expires <=? now then (refused 401, s) else
          let s := with_oidc (delete state (si_oidc s)) s in
          match complete_authorization allowlist stored state (ars_redirect_uri stored) code with
          | Err oidc_refused => (refused 401, s)
          | Err oidc_raises => (crashes, s)
          | Ok (_, claims, access_token) =>
              match groups_of (default (plain JNull) (claims !! "groups")) with
              | Err _ => (crashes, s)
              | Ok _ => (granted SESSION_COOKIE_NAME access_token _OIDC_SESSION_COOKIE_TTL_S, s)
              end
          end
      end
  end.

(** *** [POST /v1/auth/logout], past its guards *)

Definition revoke_cookie (name : string) (revoke : string → SessionStore → SessionStore) (rq : Request) (st : SessionStore)
    : SessionStore :=
  match rq_cookies rq !! name with Some token => revoke token st | None => st end.

Definition logout (rq : Request) (s : Site) : Site :=
  with_sessions (λ st,
    revoke_cookie SAML_SESSION_COOKIE_NAME (revoke_saml_session sha256) rq
      (revoke_cookie BREAKGLASS_SESSION_COOKIE_NAME (revoke_breakglass_session sha256) rq
         (revoke_cookie LOCAL_SESSION_COOKIE_NAME (revoke_local_session sha256) rq st))) s.

(** ** One login per arming *)

Inductive GlassOp :=
| op_activate (subject second : string) (totp : bool)
| op_login (credential : string) (totp : bool) (token : string)
| op_deactivate.

(** The activations and the logins that succeeded, and the state after. *)
Definition glass_step (now : Z) (op : GlassOp) (s : Site) : nat * nat * Site :=
  match op with
  | op_activate subject second totp =>
      let '(r, s') := activate_breakglass_endpoint subject second totp now JNull s in
      (match r with None => 1 | Some _ => 0 end%nat, 0%nat, s')
  | op_login credential totp token =>
      let '(r, s') := login_breakglass credential totp token now s in
      (0%nat, match r with granted _ _ _ => 1 | _ => 0 end%nat, s')
  | op_deactivate => (0%nat, 0%nat, with_vault (deactivate_breakglass (si_vault s)) s)
  end.

Fixpoint glass_run (ops : list (Z * GlassOp)) (s : Site) : nat * nat * Site :=
  match ops with
  | [] => (0%nat, 0%nat, s)
  | (now, op) :: rest =>
      let '(a1, g1, s1) := glass_step now op s in
      let '(a2, g2, s2) := glass_run rest s1 in
      ((a1 + a2)%nat, (g1 + g2)%nat, s2)
  end.

(** Someone can still log in with what is armed. *)
Definition usable_arming (v : Vault) (now : Z) : bool :=
  match v_armed v with
  | Some (_, e) => (now <? e) && match v_used v with Some u => u <? e | None => true end
  | None => false
  end.

Definition arming_ends (v : Vault) (now : Z) : Prop := ∀ a e, v_armed v = Some (a, e) → e <= now + ARMING_TTL_S * 1000.

Definition one (b : bool) : nat := if b then 1%nat else 0%nat.

Lemma usable_earlier v now later : now <= later → usable_arming v later = true → usable_arming v now = true.
Proof.
  unfold usable_arming. destruct (v_armed v) as [[a e]|]; [|done]. intros Hle [H1%Z.ltb_lt H2]%andb_true_iff.
  apply andb_true_iff. split; [apply Z.ltb_lt; lia|done].
Qed.

Lemma claim_needs_usable now v v' :
  armed_at v now = true → claim_used now v = Some v' → arming_ends v now →
  usable_arming v now = true ∧ usable_arming v' now = false ∧ v_armed v' = v_armed v.
Proof.
  unfold armed_at, claim_used, usable_arming, arming_ends. intros Ha Hc Hb.
  destruct (used_at v now) eqn:Eu; [done|]. injection Hc as <-. cbn [v_armed v_used].
  destruct (v_armed v) as [[a e]|] eqn:Ea; [|done]. apply negb_true_iff, Z.leb_gt in Ha.
  specialize (Hb a e eq_refl). unfold ARMING_TTL_S in Hb. split_and!; [| |done].
  - rewrite (proj2 (Z.ltb_lt _ _) Ha). cbn. unfold used_at in Eu. destruct (v_used v) as [u|]; [|done].
    apply negb_false_iff, Z.leb_le in Eu. apply Z.ltb_lt. lia.
  - unfold _USED_KEY_TTL_S. apply andb_false_iff. right. apply Z.ltb_ge. lia.
Qed.

Lemma glass_step_counts now op s a g s' :
  glass_step now op s = (a, g, s') → arming_ends (si_vault s) now →
  arming_ends (si_vault s') now ∧ (g + one (usable_arming (si_vault s') now) <= a + one (usable_arming (si_vault s) now))%nat.
Proof.
  destruct op as [subject second totp|credential totp token|]; cbn [glass_step].
  - unfold activate_breakglass_endpoint. destruct (dp_breakglass_enabled dp), (dp_breakglass_credential dp); try (intros [= <- <- <-]; done).
    destruct (String.eqb second subject); [intros [= <- <- <-]; done|].
    destruct (activate_breakglass _ _ _ _ _ _ _) as [v|] eqn:Ea; [|intros [= <- <- <-]; done].
    intros [= <- <- <-]. intros Hb. unfold activate_breakglass in Ea. ok_inv. cbn. split; [|unfold one; repeat case_match; lia].
    intros a e [= <- <-]. lia.
  - unfold login_breakglass. destruct (dp_breakglass_enabled dp), (dp_breakglass_credential dp) as [expected|]; try (intros [= <- <- <-]; done).
    unfold authenticate_breakglass. destruct (armed_at (si_vault s) now) eqn:Ha; cbn [negb]; [|intros [= <- <- <-]; done].
    destruct (claim_used now (si_vault s)) as [v'|] eqn:Ec; [|intros [= <- <- <-]; done]. intros E Hb.
    destruct (claim_needs_usable _ _ _ Ha Ec Hb) as (Hu & Hu' & Hv).
    assert (si_vault s' = v' ∧ a = 0%nat ∧ (g <= 1)%nat) as (-> & -> & Hg).
    { repeat case_match; simplify_eq; cbn; auto with lia. }
    rewrite Hu, Hu'. cbn. split; [|lia]. intros x e. rewrite Hv. apply Hb.
  - intros [= <- <- <-] Hb. cbn. split; [by intros a e|lia].
Qed.

(** One arming, one login.  However activations, logins and disarmings follow
    one another, over any time, break-glass logins never outnumber the activations
    that succeeded (one more if something was armed to begin with): a second login
    needs a second activation, by two people, even if the first arming has not
    expired and even once the mark that it was used has. *)
Theorem one_login_per_arming ops now s a g s' :
  glass_run ops s = (a, g, s') → arming_ends (si_vault s) now → StronglySorted Z.le (now :: map fst ops) →
  (g <= a + one (usable_arming (si_vault s) now))%nat.
Proof.
  revert now s a g s'. induction ops as [|[t op] ops IH]; intros now s a g s' Hrun Hb Hs; cbn in Hrun.
  { injection Hrun as <- <- <-. lia. }
  destruct (glass_step t op s) as [[a1 g1] s1] eqn:E1. destruct (glass_run ops s1) as [[a2 g2] s2] eqn:E2.
  injection Hrun as <- <- <-. inversion Hs as [|? ? Hs' Hall]; subst. cbn in Hall. apply Forall_cons in Hall as [Hle _].
  assert (Hb1 : arming_ends (si_vault s) t) by (intros x e He; specialize (Hb x e He); lia).
  destruct (glass_step_counts _ _ _ _ _ _ E1 Hb1) as [Hb2 Hc]. specialize (IH t s1 a2 g2 s2 E2 Hb2 Hs').
  assert (one (usable_arming (si_vault s) t) <= one (usable_arming (si_vault s) now))%nat; [|lia].
  destruct (usable_arming (si_vault s) t) eqn:Hu; [|cbn; lia]. by rewrite (usable_earlier _ _ _ Hle Hu).
Qed.

(** ** Where sessions come from *)

(** What a session record was issued on. *)
Inductive Login :=
| local_by (account : LocalAccount) (password : string)
| breakglass_by (credential : string)
| saml_by (response request_id name_id : string) (groups : list string).

(** The record it leaves: its key prefix, its payload and its lifetime. *)
Definition record_of (l : Login) : string * json * Z :=
  match l with
  | local_by account _ =>
      (LOCAL_PREFIX, JObj [("subject", JStr (la_username account)); ("role", JStr (la_role account))], dp_local_ttl_s dp)
  | breakglass_by _ => (BREAKGLASS_PREFIX, JStr "breakglass-admin", dp_breakglass_ttl_s dp)
  | saml_by _ _ name_id groups =>
      (_SAML_SESSION_KEY_PREFIX,
       JObj [("subject", JStr name_id);
             ("roles", JList (map JStr (sorted_set (resolve_roles (list_to_set groups) (dp_group_role_map dp)))))],
       SAML_SESSION_TTL_S)
  end.

(** What happens to a site, and the account table whenever it is written. *)
Inductive Event :=
| signed_in (l : Login) (token : string) (at_ : Z)
| ended (prefix token : string)
| accounts_are (rows : gmap Z LocalAccountRow).

(** The account table as a history, newest event first, leaves it. *)
Fixpoint table_after (log : list Event) : gmap Z LocalAccountRow :=
  match log with
  | [] => ∅
  | accounts_are rows :: _ => rows
  | _ :: older => table_after older
  end.

(** The login was a good one, given what had happened before it. *)
Definition genuine (before : list Event) (l : Login) : Prop :=
  match l with
  | local_by account password =>
      (∃ i r, table_after before !! i = Some r ∧ lar_status r = "active" ∧ account = account_of r) ∧
      verify_password password (la_password_hash account) = true
  | breakglass_by credential => dp_breakglass_credential dp = Some credential
  | saml_by response request_id name_id groups =>
      name_id ≠ "" ∧ saml_library response request_id = saml_processed false true name_id groups
  end.

Definition when_granted (r : LoginReply) (l : Login) (now : Z) : list Event :=
  match r with granted _ token _ => [signed_in l token now] | _ => [] end.

Definition ended_by (rq : Request) : list Event :=
  omap (λ pn, ended pn.1 <$> rq_cookies rq !! pn.2)
    [(_SAML_SESSION_KEY_PREFIX, SAML_SESSION_COOKIE_NAME); (BREAKGLASS_PREFIX, BREAKGLASS_SESSION_COOKIE_NAME);
     (LOCAL_PREFIX, LOCAL_SESSION_COOKIE_NAME)].

(** One request at [now], and what it adds to the history; the account table is
    written by other routes ([Accounts.v]). *)
Inductive site_step (now : Z) (s : Site) : list Event → Site → Prop :=
| step_activate subject second totp expires r s' :
    activate_breakglass_endpoint subject second totp now expires s = (r, s') → site_step now s [] s'
| step_breakglass credential totp token r s' :
    login_breakglass credential totp token now s = (r, s') →
    site_step now s (when_granted r (breakglass_by credential) now) s'
| step_local_failed username password token r s' :
    login_local username password token now s = (r, s') →
    (∀ c t ttl, r ≠ granted c t ttl) → site_step now s [] s'
| step_local account username password token c t ttl s' :
    login_local username password token now s = (granted c t ttl, s') →
    find (λ a, String.eqb (la_username a) username) (fetch_accounts (si_accounts s)) = Some account →
    site_step now s [signed_in (local_by account password) token now] s'
| step_saml_login id r s' : saml_login id now s = (r, s') → site_step now s [] s'
| step_saml response id token name_id groups r s' :
    saml_acs (Some response) (Some id) token now s = (r, s') →
    (process_saml_response response id now (si_saml s)).1 = Some (name_id, groups) →
    site_step now s (when_granted r (saml_by response id name_id groups) now) s'
| step_saml_failed response id token r s' :
    saml_acs response id token now s = (r, s') → (∀ c t ttl, r ≠ granted c t ttl) → site_step now s [] s'
| step_oidc_login fresh r s' : oidc_login fresh now s = (r, s') → site_step now s [] s'
| step_oidc code state r s' : oidc_callback code state now s = (r, s') → site_step now s [] s'
| step_logout rq : site_step now s (ended_by rq) (logout rq s)
| step_accounts rows : site_step now s [accounts_are rows] (with_accounts rows s).

(** The history, newest event first. *)
Inductive site_reachable : Z → list Event → Site → Prop :=
| site_start now s : si_sessions s = ∅ → site_reachable now [accounts_are (si_accounts s)] s
| site_later now now' log s : site_reachable now log s → now <= now' → site_reachable now' log s
| site_next now log s events s' :
    site_reachable now log s → site_step now s events s' → site_reachable now (events ++ log) s'.

(** The record under [prefix] and [token] that is live at [now] was left by a login
    of the history, and no logout ended it since. *)
Definition issued (log : list Event) (now : Z) (prefix token : string) (payload : json) : Prop :=
  ∃ newer older l token' at_,
    log = newer ++ signed_in l token' at_ :: older ∧ genuine older l ∧ sha256 token' = sha256 token ∧
    record_of l = (prefix, payload, (record_of l).2) ∧ at_ <= now < at_ + (record_of l).2 * 1000 ∧
    ∀ token'', sha256 token'' = sha256 token → ended prefix token'' ∉ newer.

Definition all_issued (log : list Event) (now : Z) (st : SessionStore) : Prop :=
  ∀ later prefix token payload, now <= later → prefix ∈ session_prefixes →
    resolve_session sha256 st later prefix token = Some payload → issued log later prefix token payload.

Lemma issued_older e log now prefix token payload :
  (∀ token', e = ended prefix token' → sha256 token' ≠ sha256 token) →
  issued log now prefix token payload → issued (e :: log) now prefix token payload.
Proof.
  intros He (newer & older & l & token' & at_ & -> & Hg & Hd & Hr & Ht & Hn).
  exists (e :: newer), older, l, token', at_. split_and!; try done; try lia.
  intros t Et [Hin|Hin]%elem_of_cons; [by eapply He|by eapply Hn].
Qed.

Lemma created_issued log now st st' l token :
  all_issued log now st → genuine log l → (record_of l).1.1 ∈ session_prefixes →
  create_session sha256 (record_of l).1.1 (record_of l).2 (record_of l).1.2 token now st = Some st' →
  all_issued (signed_in l token now :: log) now st'.
Proof.
  intros Hi Hg Hp Hc later prefix token' payload Hle Hprefix.
  rewrite (resolve_created _ _ _ _ _ _ _ _ _ _ _ Hp Hprefix Hc). case_bool_decide as E.
  - destruct E as [E1 E2]. destruct (later <? _) eqn:El; [|done]. apply Z.ltb_lt in El. intros [= Ep].
    exists [], log, l, token, now. split_and!; try done; [|set_solver].
    destruct (record_of l) as [[p q] t]. cbn in *. congruence.
  - intros H. apply issued_older; [done|]. by apply Hi.
Qed.

Lemma deleted_issued log now st prefix token :
  prefix ∈ session_prefixes → all_issued log now st →
  all_issued (ended prefix token :: log) now (delete_session sha256 prefix token st).
Proof.
  intros Hp Hi later q u payload Hle Hq. rewrite resolve_deleted by done. case_bool_decide as E; [done|].
  intros H. apply issued_older; [|by apply Hi]. intros t [= -> ->] Et. by apply E.
Qed.

Lemma login_local_sessions username password token now s r s' :
  login_local username password token now s = (r, s') →
  si_sessions s' = si_sessions s ∧ (∀ c t ttl, r ≠ granted c t ttl) ∨
  ∃ account, r = granted LOCAL_SESSION_COOKIE_NAME token (dp_local_ttl_s dp) ∧
    find (λ a, String.eqb (la_username a) username) (fetch_accounts (si_accounts s)) = Some account ∧
    verify_password password (la_password_hash account) = true ∧
    create_local_session sha256 (dp_local_ttl_s dp) (la_username account) (la_role account) token now (si_sessions s)
      = Some (si_sessions s').
Proof.
  unfold login_local. destruct (dp_local_auth_enabled dp); cbn [negb]; [|intros [= <- <-]; auto].
  unfold authenticate_local. destruct (_is_locked_out _ _ _ _) as [locked st1].
  destruct locked; [intros [= <- <-]; auto|]. destruct (find _ _) as [account|] eqn:Ef; [|intros [= <- <-]; auto].
  destruct (verify_password password (la_password_hash account)) eqn:Ev; cbn [negb]; [|intros [= <- <-]; auto].
  cbn [si_sessions with_counters]. destruct (create_local_session _ _ _ _ _ _ _) as [st|] eqn:Ec; intros [= <- <-]; [|auto].
  right. exists account. auto.
Qed.

Lemma logout_issued log now rq s :
  all_issued log now (si_sessions s) → all_issued (ended_by rq ++ log) now (si_sessions (logout rq s)).
Proof.
  intros H. cbn [logout with_sessions si_sessions]. unfold ended_by, revoke_cookie. cbn [omap list_omap fst snd].
  destruct (rq_cookies rq !! LOCAL_SESSION_COOKIE_NAME), (rq_cookies rq !! BREAKGLASS_SESSION_COOKIE_NAME),
    (rq_cookies rq !! SAML_SESSION_COOKIE_NAME); cbn [fmap option_fmap option_map app];
    repeat (apply deleted_issued; [by_compute|]); done.
Qed.

Lemma table_after_ended l log : Forall (λ e, ∃ p t, e = ended p t) l → table_after (l ++ log) = table_after log.
Proof. by induction 1 as [|e l (p & t & ->) _ IH]. Qed.

Lemma ended_by_ends rq : Forall (λ e, ∃ p t, e = ended p t) (ended_by rq).
Proof.
  unfold ended_by. cbn [omap list_omap fst snd].
  destruct (rq_cookies rq !! LOCAL_SESSION_COOKIE_NAME), (rq_cookies rq !! BREAKGLASS_SESSION_COOKIE_NAME),
    (rq_cookies rq !! SAML_SESSION_COOKIE_NAME); cbn [fmap option_fmap option_map]; repeat constructor; eauto.
Qed.

(** Only its own writers change the account table. *)
Lemma step_table now log s events s' :
  table_after log = si_accounts s → site_step now s events s' → table_after (events ++ log) = si_accounts s'.
Proof.
  intros Ht [subject second totp expires r s1 E|credential totp token r s1 E|username password token r s1 E Hr
    |account username password token c t ttl s1 E Hf|id r s1 E|response id token name_id groups r s1 E Hp
    |response id token r s1 E Hr|fresh r s1 E|code state r s1 E|rq|rows].
  - unfold activate_breakglass_endpoint in E. repeat case_match; simplify_eq; done.
  - unfold login_breakglass in E. repeat case_match; simplify_eq; done.
  - unfold login_local in E. repeat case_match; simplify_eq; done.
  - unfold login_local in E. repeat case_match; simplify_eq; done.
  - unfold saml_login in E. repeat case_match; simplify_eq; done.
  - unfold saml_acs in E. repeat case_match; simplify_eq; done.
  - unfold saml_acs in E. repeat case_match; simplify_eq; done.
  - unfold oidc_login in E. repeat case_match; simplify_eq; done.
  - unfold oidc_callback in E. repeat case_match; simplify_eq; done.
  - by rewrite table_after_ended by apply ended_by_ends.
  - done.
Qed.

Lemma step_issued now log s events s' :
  table_after log = si_accounts s → all_issued log now (si_sessions s) → site_step now s events s' →
  all_issued (events ++ log) now (si_sessions s').
Proof.
  intros Htab Hi [subject second totp expires r s1 E|credential totp token r s1 E|username password token r s1 E Hr
    |account username password token c t ttl s1 E Hf|id r s1 E|response id token name_id groups r s1 E Hp
    |response id token r s1 E Hr|fresh r s1 E|code state r s1 E|rq|rows].
  - unfold activate_breakglass_endpoint in E. repeat case_match; simplify_eq; done.
  - unfold login_breakglass in E. destruct (dp_breakglass_enabled dp); [|by simplify_eq].
    destruct (dp_breakglass_credential dp) as [expected|] eqn:Ed; [|by simplify_eq].
    unfold authenticate_breakglass in E. destruct (armed_at _ _); cbn [negb] in E; [|by simplify_eq].
    destruct (claim_used _ _); [|by simplify_eq]. destruct (is_ascii credential && is_ascii expected); cbn [negb] in E; [|by simplify_eq].
    destruct (String.eqb credential expected) eqn:Ec; cbn [negb] in E; [|by simplify_eq]. str_prop. subst expected.
    destruct totp; [|by simplify_eq]. cbn [si_sessions with_vault] in E.
    destruct (create_breakglass_session _ _ _ _ _ _) as [st|] eqn:Em; simplify_eq; [|done].
    apply (created_issued _ _ _ _ (breakglass_by credential) token Hi); [done|by_compute|done].
  - destruct (login_local_sessions _ _ _ _ _ _ _ E) as [[-> _]|(account & -> & _)]; [done|].
    by edestruct Hr.
  - destruct (login_local_sessions _ _ _ _ _ _ _ E) as [[_ Hn]|(account' & _ & Hf' & Hv & Hc)]; [by destruct (Hn c t ttl)|].
    assert (account' = account) as -> by congruence. apply (created_issued _ _ _ _ (local_by account password) token Hi).
    + split; [|done]. apply find_some in Hf as [Hin _]. rewrite Htab. by apply elem_of_fetch, list_elem_of_In.
    + by_compute.
    + done.
  - unfold saml_login in E. repeat case_match; simplify_eq; done.
  - unfold saml_acs in E. destruct (dp_saml dp); cbn [negb] in E; [|by simplify_eq]. destruct (String.eqb id ""); [by simplify_eq|].
    destruct (process_saml_response response id now (si_saml s)) as [o m] eqn:Eo. cbn in Hp. subst o. cbn [si_sessions with_saml] in E.
    destruct (create_saml_session _ _ _ _ _ _) as [st|] eqn:Em; simplify_eq.
    apply (created_issued _ _ _ _ (saml_by response id name_id groups) token Hi); [|by_compute|done].
    unfold process_saml_response in Eo. destruct (consume _ _ _) as [known m']. destruct known; [|done]. cbn [negb] in Eo.
    cbn. destruct (saml_library response id) as [|errors auth n g]; [done|]. destruct errors, auth; try done. cbn in Eo.
    destruct (String.eqb n "") eqn:En; [done|]. str_prop. by simplify_eq.
  - unfold saml_acs in E. repeat case_match; simplify_eq; try done.
    by destruct (Hr SAML_SESSION_COOKIE_NAME token SAML_SESSION_TTL_S).
  - unfold oidc_login in E. repeat case_match; simplify_eq; done.
  - unfold oidc_callback in E. repeat case_match; simplify_eq; done.
  - by apply logout_issued.
  - intros later prefix token payload Hle Hp Hr. apply issued_older; [done|]. by apply Hi.
Qed.

(** C31: Sessions come from logins.  In every state the login and logout routes can
    reach, a cookie that resolves to a session was handed out by a login of that very
    kind (or is a second preimage of its digest): the account's row was in the
    table as it stood at that login, with the status "active", and the password was
    right for its hash; the break-glass credential was right; or the library had
    validated the SAML response.  The account table may be written in any way in
    between.  The record says who logged in with the role of that login, the
    login is younger than the session's lifetime, and no logout has ended it. *)
Theorem sessions_come_from_logins now log s prefix token payload :
  site_reachable now log s → prefix ∈ session_prefixes →
  resolve_session sha256 (si_sessions s) now prefix token = Some payload →
  issued log now prefix token payload.
Proof.
  intros Hr Hp Hs. assert (H : table_after log = si_accounts s ∧ all_issued log now (si_sessions s));
    [|destruct H as [_ H]; by eapply H; [lia|..]].
  clear Hp Hs prefix token payload. induction Hr as [now s Hs|now now' log s Hr [IHt IH] Hle|now log s events s' Hr [IHt IH] Hstep].
  - split; [done|]. intros later prefix token payload _ _. unfold resolve_session, redis_get. by rewrite Hs, lookup_empty.
  - split; [done|]. intros later prefix token payload Hl. apply IH. lia.
  - split; [by eapply step_table|]. by eapply step_issued.
Qed.

(** A SAML request id serves one response: whatever the first one came to, a second
    response to the same request is refused. *)
Theorem saml_request_is_used_once response response' id token token' now later s :
  dp_saml dp = true → id ≠ "" →
  (saml_acs (Some response') (Some id) token' later (saml_acs (Some response) (Some id) token now s).2).1 = refused 401.
Proof.
  intros Hd Hid. assert (Hn : si_saml (saml_acs (Some response) (Some id) token now s).2 !! id = None).
  { unfold saml_acs. rewrite Hd, (proj2 (String.eqb_neq _ _) Hid). cbn [negb].
    unfold process_saml_response, consume. destruct (if negb _ then _ else _) as [[n g]|]; [|apply lookup_delete_eq].
    destruct (create_saml_session _ _ _ _ _ _); apply lookup_delete_eq. }
  unfold saml_acs at 1. rewrite Hd, (proj2 (String.eqb_neq _ _) Hid). cbn [negb].
  unfold process_saml_response, consume.
  assert (_prune later (si_saml (saml_acs (Some response) (Some id) token now s).2) !! id = None) as ->; [|done].
  unfold _prune. by apply map_lookup_filter_None_2; left.
Qed.
End login.

Module LoginSamples.
Import AccessSamples.

Definition site (grm : gmap string string) : Deployment :=
  mkDeployment true (Some "vault-secret") true grm 900 28800 (Some ["https://app/cb"]) "https://idp" true.
Definition dp1 : Deployment := site {["admins" := "admin"]}.
Definition bob : LocalAccountRow := mkLocalAccountRow "bob" "pw" "auditor" "active" "root" 0 0.
Definition carl : LocalAccountRow := mkLocalAccountRow "carl" "pw" "admin" "disabled" "root" 0 0.
Definition empty_site : Site := mkSite ∅ ∅ (mkVault None None) ∅ ∅ [] {[1 := bob; 2 := carl]}.

Definition no_saml (response id : string) : SamlOutcome := saml_raises.
Definition validated (response id : string) : SamlOutcome := saml_processed false true "eve" ["admins"].

Abbreviation glass' := (glass_run sha dp1).

(** Armed at noon and used a second later; the second login is refused, also an hour
    later, until someone arms again. *)
Definition shift : list (Z * GlassOp) :=
  [(0, op_activate "ann" "admins" true); (1000, op_login "vault-secret" true "t1");
   (2000, op_login "vault-secret" true "t2"); (3700000, op_login "vault-secret" true "t3");
   (3800000, op_activate "ann" "admins" true); (3801000, op_login "vault-secret" true "t4")].

Lemma one_login_per_arming_witness : (glass' shift empty_site).1 = (2%nat, 2%nat) ∧ (2 <= 2 + 0)%nat.
Proof.
  split; [vm_compute; reflexivity|]. destruct (glass' shift empty_site) as [[a g] s'] eqn:E.
  pose proof (one_login_per_arming sha dp1 shift 0 empty_site a g s' E) as H. vm_compute in E. injection E as <- <- <-.
  apply H; [by intros x e|]. cbn. repeat first [apply SSorted_nil|apply SSorted_cons|apply Forall_nil_2|apply Forall_cons_2]; lia.
Defined.

(** The two writes of an activation are not one: a login between them is granted,
    and the second write then clears the mark it left, so that the same arming
    grants a second login. *)
Example one_arming_can_grant_two_logins :
  let armed := set_armed "ann" "admins" ARMING_TTL_S 0 (mkVault None None) in
  let '(first, v1) := authenticate_breakglass "vault-secret" "vault-secret" true 1 armed in
  let '(second, _) := authenticate_breakglass "vault-secret" "vault-secret" true 3 (clear_used v1) in
  first = Some true ∧ second = Some true.
Proof. vm_compute. done. Qed.

Definition signed : Site := (login_local sha whole_seconds plain_password dp1 "bob" "pw" "t" 1000 empty_site).2.

(** A disabled account does not get in. *)
Example carl_is_refused :
  (login_local sha whole_seconds plain_password dp1 "carl" "pw" "t" 1000 empty_site).1 = refused 401.
Proof. vm_compute. reflexivity. Qed.

Definition history : list Event :=
  [signed_in (local_by (account_of bob) "pw") "t" 1000; accounts_are (si_accounts empty_site)].

Lemma signed_reachable : ∀ now, 1000 <= now →
  site_reachable sha whole_seconds plain_password dp1 no_saml (λ _ _, token_fails) jwks_fails (λ _ _ _, None) now history signed.
Proof.
  intros now Hle. apply (site_later _ _ _ _ _ _ _ _ 1000); [|done].
  change history with ([signed_in (local_by (account_of bob) "pw") "t" 1000] ++ [accounts_are (si_accounts empty_site)]).
  apply (site_next _ _ _ _ _ _ _ _ 1000 [accounts_are (si_accounts empty_site)] empty_site); [by apply site_start|].
  apply (step_local sha whole_seconds plain_password dp1 no_saml (λ _ _, token_fails) jwks_fails (λ _ _ _, None) 1000 empty_site
    (account_of bob) "bob" "pw" "t" LOCAL_SESSION_COOKIE_NAME "t" 28800 signed); vm_compute; reflexivity.
Qed.

Lemma sessions_come_from_logins_witness :
  let payload := JObj [("subject", JStr "bob"); ("role", JStr "auditor")] in
  resolve_session sha (si_sessions signed) 2000 LOCAL_PREFIX "t" = Some payload ∧
  resolve_session sha (si_sessions signed) 28801000 LOCAL_PREFIX "t" = None ∧
  issued sha plain_password dp1 no_saml history 2000 LOCAL_PREFIX "t" payload.
Proof.
  split_and!; [vm_compute; reflexivity..|].
  apply (sessions_come_from_logins sha whole_seconds plain_password dp1 no_saml (λ _ _, token_fails) jwks_fails (λ _ _ _, None)
    2000 _ signed); [by apply signed_reachable|by_compute|vm_compute; reflexivity].
Defined.

(** The roles of a SAML session are those of its login: with the group gone from the
    map, the session still opens the administrator's routes. *)
Definition eve_in : Site :=
  (saml_acs sha dp1 validated (Some "r") (Some "id1") "tok" 2000 (saml_login dp1 (Some "id1") 1000 empty_site).2).2.

Definition eve : Request := mkRequest "GET" {[SAML_SESSION_COOKIE_NAME := "tok"]} None None.

Example saml_roles_outlive_the_map :
  let rt := mkAuthRuntime ∅ ∅ ∅ true true true ∅ true in
  is_ok (pass_guards sha 30 whole_seconds plain_password false false ["admin"] rt eve (mkAsking 20000000 idp_fails 20000000)
           (mkAuthState (si_sessions eve_in) ∅ ∅)).1 = true.
Proof. vm_compute. reflexivity. Qed.
End LoginSamples.
