(* ===== verification/Accounts.v ===== *)
(** * Local accounts and the group map: [admin/accounts_service.py]

    The rows of [local_account] and [group_role_mapping] with the service's
    operations, the routes' status codes, the first-boot list of
    [admin/local_auth.py] and the password format of [libs/common/password.py].
    scrypt is a parameter; a password is held as its UTF-8 bytes. *)

From S2P Require Import Prelude Models Json JsonText PyText Canonical Limits Sessions Policy Access Login.
From Stdlib Require Import QArith Ascii.
Open Scope string_scope.
Open Scope list_scope.
Open Scope Z_scope.

(** ** [libs/common/password.py] *)

Definition hex_byte (b : Z) : list ascii := [hexd (b / 16); hexd (b mod 16)].

(** [bytes.hex]. *)
Definition hex (bs : list Z) : list ascii := flat_map hex_byte bs.

Definition hex_value (c : ascii) : option Z :=
  let n := code c in
  if (48 <=? n) && (n <=? 57) then Some (n - 48)
  else if (97 <=? n) && (n <=? 102) then Some (n - 87)
  else if (65 <=? n) && (n <=? 70) then Some (n - 55)
  else None.

Definition hex_space (c : ascii) : bool := let n := code c in ((9 <=? n) && (n <=? 13)) || (n =? 32).

(** [bytes.fromhex]: pairs of digits, with white space between them. *)
Fixpoint fromhex (l : list ascii) : option (list Z) :=
  match l with
  | [] => Some []
  | c :: rest =>
      if hex_space c then fromhex rest else
      match rest with
      | [] => None
      | d :: rest' =>
          hi ← hex_value c; lo ← hex_value d; cons (hi * 16 + lo) <$> fromhex rest'
      end
  end.

Section password.
(** The password's bytes, the salt and the length asked for. *)
Variable scrypt : list Z → list Z → nat → list Z.

Definition _SCRYPT_DKLEN : nat := 32.

Definition hash_password (password : string) (salt : list Z) : string :=
  String.string_of_list_ascii
    (String.list_ascii_of_string "scrypt$" ++ hex salt ++ "$"%char :: hex (scrypt (str_bytes password) salt _SCRYPT_DKLEN)).

(** [None]: scrypt refuses to derive zero bytes, outside the handler. *)
Definition verify_password (password password_hash : string) : option bool :=
  match split_char "$" (String.list_ascii_of_string password_hash) with
  | [scheme; salt_hex; digest_hex] =>
      match fromhex salt_hex, fromhex digest_hex with
      | Some salt, Some expected =>
          if negb (bool_decide (scheme = String.list_ascii_of_string "scrypt")) then Some false
          else if bool_decide (expected = []) then None
          else Some (bool_decide (scrypt (str_bytes password) salt (length expected) = expected))
      | _, _ => Some false
      end
  | _ => Some false
  end.

Definition is_byte (b : Z) : Prop := 0 <= b < 256.

Lemma hexd_spec i : 0 <= i < 16 →
  hex_value (hexd i) = Some i ∧ hex_space (hexd i) = false ∧ hexd i ≠ "$"%char.
Proof.
  intros Hi. assert (H : ∃ n : nat, i = Z.of_nat n ∧ (n < 16)%nat) by (exists (Z.to_nat i); lia).
  destruct H as (n & -> & Hn). do 16 (destruct n as [|n]; [vm_compute; repeat split; discriminate|]). lia.
Qed.

Lemma fromhex_hex bs : Forall is_byte bs → fromhex (hex bs) = Some bs.
Proof.
  induction 1 as [|b bs Hb _ IH]; [done|]. unfold hex. cbn [flat_map hex_byte app fromhex].
  unfold is_byte in Hb. destruct (hexd_spec (b / 16)) as (-> & -> & _); [split; [apply Z.div_pos; lia|apply Z.div_lt_upper_bound; lia]|].
  destruct (hexd_spec (b mod 16)) as (-> & _ & _); [apply Z.mod_pos_bound; lia|]. cbn. fold (hex bs). rewrite IH. cbn.
  do 2 f_equal. rewrite (Z.div_mod b 16) at 3 by lia. lia.
Qed.

Lemma hex_no_dollar bs : Forall is_byte bs → "$"%char ∉ hex bs.
Proof.
  induction 1 as [|b bs Hb _ IH]; [apply not_elem_of_nil|]. unfold hex. cbn [flat_map hex_byte app]. unfold is_byte in Hb.
  destruct (hexd_spec (b / 16)) as (_ & _ & H1); [split; [apply Z.div_pos; lia|apply Z.div_lt_upper_bound; lia]|].
  destruct (hexd_spec (b mod 16)) as (_ & _ & H2); [apply Z.mod_pos_bound; lia|].
  intros [E|[E|E]%elem_of_cons]%elem_of_cons; [by apply H1|by apply H2|by apply IH].
Qed.

Lemma split_char_no sep l : sep ∉ l → split_char sep l = [l].
Proof.
  induction l as [|c l IH]; intros H; [done|]. cbn. apply not_elem_of_cons in H as [Hc Hl].
  destruct (Ascii.eqb_spec c sep) as [->|_]; [done|]. by rewrite IH.
Qed.

Lemma split_char_app sep l r : sep ∉ l → split_char sep (l ++ sep :: r) = l :: split_char sep r.
Proof.
  induction l as [|c l IH]; intros H; cbn; [by rewrite Ascii.eqb_refl|].
  apply not_elem_of_cons in H as [Hc Hl]. destruct (Ascii.eqb_spec c sep) as [->|_]; [done|]. by rewrite IH.
Qed.

Context (Hscrypt : ∀ p s n, length (scrypt p s n) = n ∧ Forall is_byte (scrypt p s n)).

(** A stored hash accepts exactly the passwords that derive the same key. *)
Lemma verify_hashed password password' salt :
  Forall is_byte salt →
  verify_password password' (hash_password password salt) =
    Some (bool_decide (scrypt (str_bytes password') salt _SCRYPT_DKLEN = scrypt (str_bytes password) salt _SCRYPT_DKLEN)).
Proof.
  intros Hs. unfold verify_password, hash_password. rewrite String.list_ascii_of_string_of_list_ascii.
  destruct (Hscrypt (str_bytes password) salt _SCRYPT_DKLEN) as [Hlen Hb].
  change (String.list_ascii_of_string "scrypt$") with (String.list_ascii_of_string "scrypt" ++ ["$"%char]).
  rewrite <-app_assoc. cbn [app]. rewrite split_char_app by by_compute.
  rewrite split_char_app by by apply hex_no_dollar. rewrite split_char_no by by apply hex_no_dollar.
  rewrite !fromhex_hex by done. rewrite bool_decide_true by done. cbn [negb].
  rewrite bool_decide_false; [by rewrite Hlen|]. intros E. rewrite E in Hlen. discriminate.
Qed.
End password.

(** ** The tables *)

Record GroupRoleMappingRow := mkGroupRoleMappingRow {
  gm_role : string;
  gm_updated_by : string;
  gm_updated_at : Z;
}.

(** Accounts by id, mappings by group name. *)
Record AdminStore := mkAdminStore {
  accounts : gmap Z LocalAccountRow;
  next_account_id : Z;
  mappings : gmap string GroupRoleMappingRow;
  admin_intents : list AuditIntent;
}.

Inductive AdminAccountError :=
| empty_username | unknown_role | password_too_short | username_taken
| nothing_to_change | unknown_status | no_such_account | last_active_admin
| empty_group_name | no_such_mapping.

Definition _MIN_PASSWORD_LENGTH : Z := 12.
Definition _ACCOUNT_STATUSES : list string := ["active"; "disabled"].

Definition _validate_role (role : string) : result AdminAccountError unit :=
  guard_err (bool_decide (role ∈ KNOWN_ROLES)) unknown_role.

Definition _validate_password (password : string) : result AdminAccountError unit :=
  guard_err (_MIN_PASSWORD_LENGTH <=? Z.of_nat (length (code_points password))) password_too_short.

Definition blank (s : string) : bool :=
  match strip (String.list_ascii_of_string s) with [] => true | _ => false end.

(** A write of an account row with its audit intent, in one transaction. *)
Definition put_account (account_id : Z) (row : LocalAccountRow) (intent : AuditIntent) (st : AdminStore) : AdminStore :=
  mkAdminStore (<[account_id := row]> (accounts st)) (next_account_id st) (mappings st) (admin_intents st ++ [intent]).

Definition put_mappings (m : gmap string GroupRoleMappingRow) (intent : AuditIntent) (st : AdminStore) : AdminStore :=
  mkAdminStore (accounts st) (next_account_id st) m (admin_intents st ++ [intent]).

Definition list_accounts (st : AdminStore) : list (Z * LocalAccountRow) :=
  sort_by (le_key str_le (λ kr, lar_username kr.2)) (map_to_list (accounts st)).

Definition list_group_role_mapping (st : AdminStore) : list (string * GroupRoleMappingRow) :=
  sort_by (le_key str_le fst) (map_to_list (mappings st)).

(** ** The operations; [hash] is the hash of the password given *)

Definition create_account (username role initial_password hash created_by : string) (now : Z) (st : AdminStore)
    : result AdminAccountError (Z * AdminStore) :=
  _ ← guard_err (negb (blank username)) empty_username;
  _ ← _validate_role role;
  _ ← _validate_password initial_password;
  _ ← guard_err (negb (existsb (λ kr, String.eqb (lar_username kr.2) username) (map_to_list (accounts st)))) username_taken;
  let row := mkLocalAccountRow username hash role "active" created_by now now in
  let intent := mkAuditIntent created_by "local_account_created" (JObj [("username", JStr username); ("role", JStr role)]) in
  Ok (next_account_id st,
      mkAdminStore (<[next_account_id st := row]> (accounts st)) (next_account_id st + 1) (mappings st)
        (admin_intents st ++ [intent])).

Definition _get_account_or_raise (account_id : Z) (st : AdminStore) : result AdminAccountError LocalAccountRow :=
  match accounts st !! account_id with Some row => Ok row | None => Err no_such_account end.

Definition active_admin (row : LocalAccountRow) : bool :=
  String.eqb (lar_role row) "admin" && String.eqb (lar_status row) "active".

Definition other_active_admins (account_id : Z) (st : AdminStore) : Z :=
  Z.of_nat (length (base.filter (λ kr, active_admin kr.2 = true ∧ kr.1 ≠ account_id) (map_to_list (accounts st)))).

Definition moved (from to : string) : json := JObj [("from", JStr from); ("to", JStr to)].

(** What an update decides on the rows it reads: the new row and its audit intent,
    [None] when nothing changes. *)
Definition plan_update (account_id : Z) (role status : option string) (actor : string) (now : Z) (st : AdminStore)
    : result AdminAccountError (option (LocalAccountRow * AuditIntent)) :=
  _ ← guard_err (negb (bool_decide (role = None ∧ status = None))) nothing_to_change;
  _ ← guard_err (match status with Some s => bool_decide (s ∈ _ACCOUNT_STATUSES) | None => true end) unknown_status;
  row ← _get_account_or_raise account_id st;
  let demoting_admin := match role with Some r => negb (String.eqb r "admin") | None => false end in
  let disabling := match status with Some s => negb (String.eqb s "active") | None => false end in
  _ ← guard_err (negb (active_admin row && (demoting_admin || disabling) && (other_active_admins account_id st =? 0)))
        last_active_admin;
  let new_role := default (lar_role row) role in
  let new_status := default (lar_status row) status in
  let role_changes := negb (String.eqb new_role (lar_role row)) in
  let status_changes := negb (String.eqb new_status (lar_status row)) in
  _ ← (if role_changes then _validate_role new_role else Ok ());
  if negb (role_changes || status_changes) then Ok None else
  let changes :=
    (if role_changes then [("role", moved (lar_role row) new_role)] else []) ++
    (if status_changes then [("status", moved (lar_status row) new_status)] else []) in
  Ok (Some (mkLocalAccountRow (lar_username row) (lar_password_hash row) new_role new_status (lar_created_by row)
              (lar_created_at row) now,
            mkAuditIntent actor "local_account_updated"
              (JObj [("account_id", JNum account_id); ("username", JStr (lar_username row)); ("changes", JObj changes)]))).

Definition commit_update (account_id : Z) (plan : option (LocalAccountRow * AuditIntent)) (st : AdminStore) : AdminStore :=
  match plan with Some (row, intent) => put_account account_id row intent st | None => st end.

Definition set_account_role_status (account_id : Z) (role status : option string) (actor : string) (now : Z)
    (st : AdminStore) : result AdminAccountError AdminStore :=
  plan ← plan_update account_id role status actor now st;
  Ok (commit_update account_id plan st).

Definition reset_password (account_id : Z) (new_password hash actor : string) (now : Z) (st : AdminStore)
    : result AdminAccountError AdminStore :=
  _ ← _validate_password new_password;
  row ← _get_account_or_raise account_id st;
  Ok (put_account account_id
        (mkLocalAccountRow (lar_username row) hash (lar_role row) (lar_status row) (lar_created_by row) (lar_created_at row) now)
        (mkAuditIntent actor "local_account_password_reset"
           (JObj [("account_id", JNum account_id); ("username", JStr (lar_username row))])) st).

Definition upsert_group_role_mapping (group_name role actor : string) (now : Z) (st : AdminStore)
    : result AdminAccountError AdminStore :=
  _ ← guard_err (negb (blank group_name)) empty_group_name;
  _ ← _validate_role role;
  Ok (put_mappings (<[group_name := mkGroupRoleMappingRow role actor now]> (mappings st))
        (mkAuditIntent actor "group_role_map_updated"
           (JObj [("group_name", JStr group_name); ("from_role", JOpt (gm_role <$> mappings st !! group_name));
                  ("to_role", JStr role)])) st).

Definition delete_group_role_mapping (group_name actor : string) (st : AdminStore)
    : result AdminAccountError AdminStore :=
  match mappings st !! group_name with
  | None => Err no_such_mapping
  | Some row =>
      Ok (put_mappings (delete group_name (mappings st))
            (mkAuditIntent actor "group_role_map_removed"
               (JObj [("group_name", JStr group_name); ("from_role", JStr (gm_role row))])) st)
  end.

(** ** The routes of [admin/router.py], past their guards *)

(** The process's own copy of the group map is changed after the commit. *)
Record AdminSite := mkAdminSite { ad_store : AdminStore; ad_group_role_map : gmap string string }.

Definition upsert_group_role_map_endpoint (group_name role actor : string) (now : Z) (s : AdminSite)
    : option Z * AdminSite :=
  match upsert_group_role_mapping group_name role actor now (ad_store s) with
  | Err _ => (Some 400, s)
  | Ok st => (None, mkAdminSite st (<[group_name := role]> (ad_group_role_map s)))
  end.

Definition delete_group_role_map_endpoint (group_name actor : string) (s : AdminSite) : option Z * AdminSite :=
  match delete_group_role_mapping group_name actor (ad_store s) with
  | Err _ => (Some 404, s)
  | Ok st => (None, mkAdminSite st (delete group_name (ad_group_role_map s)))
  end.

Definition on_store (r : result AdminAccountError AdminStore) (s : AdminSite) : option Z * AdminSite :=
  match r with Err _ => (Some 400, s) | Ok st => (None, mkAdminSite st (ad_group_role_map s)) end.

Definition create_account_endpoint (username role initial_password hash actor : string) (now : Z) (s : AdminSite)
    : option Z * AdminSite :=
  on_store (snd <$> create_account username role initial_password hash actor now (ad_store s)) s.

Definition update_account_endpoint (account_id : Z) (role status : option string) (actor : string) (now : Z) (s : AdminSite)
    : option Z * AdminSite :=
  on_store (set_account_role_status account_id role status actor now (ad_store s)) s.

Definition reset_account_password_endpoint (account_id : Z) (new_password hash actor : string) (now : Z) (s : AdminSite)
    : option Z * AdminSite :=
  on_store (reset_password account_id new_password hash actor now (ad_store s)) s.

(** ** [local_auth.py]: the first-boot list *)

Inductive LocalAuthError := accounts_not_json | accounts_not_a_list | account_fields | account_role | account_duplicate.

Definition json_str (o : option json) : option string := match o with Some (JStr s) => Some s | _ => None end.

Fixpoint load_entries (seen : list string) (l : list json) : result LocalAuthError (list LocalAccount) :=
  match l with
  | [] => Ok []
  | entry :: rest =>
      match json_str (json_get "username" entry), json_str (json_get "password_hash" entry),
            json_str (json_get "role" entry) with
      | Some username, Some password_hash, Some role =>
          _ ← guard_err (bool_decide (role ∈ KNOWN_ROLES)) account_role;
          _ ← guard_err (negb (bool_decide (username ∈ seen))) account_duplicate;
          more ← load_entries (username :: seen) rest;
          Ok (mkLocalAccount username password_hash role :: more)
      | _, _, _ => Err account_fields
      end
  end.

(** On what [json.loads] made of the text. *)
Definition load_local_accounts_from_json (raw : option json) : result LocalAuthError (list LocalAccount) :=
  match raw with
  | None => Err accounts_not_json
  | Some (JList l) => load_entries [] l
  | Some _ => Err accounts_not_a_list
  end.

(** ** Invariants of the account table *)

Record accounts_ok (st : AdminStore) : Prop := {
  ok_ids : ∀ i row, accounts st !! i = Some row → i < next_account_id st;
  ok_names : ∀ i j row row', accounts st !! i = Some row → accounts st !! j = Some row' →
    lar_username row = lar_username row' → i = j;
  ok_rows : ∀ i row, accounts st !! i = Some row → lar_role row ∈ KNOWN_ROLES ∧ lar_status row ∈ _ACCOUNT_STATUSES;
}.

Definition has_admin (st : AdminStore) : Prop := ∃ i row, accounts st !! i = Some row ∧ active_admin row = true.

(** One committed request of the admin API, by [actor]. *)
Inductive admin_step (actor : string) (st : AdminStore) : AdminStore → Prop :=
| adm_create username role password hash now i st' :
    create_account username role password hash actor now st = Ok (i, st') → admin_step actor st st'
| adm_update i role status now st' :
    set_account_role_status i role status actor now st = Ok st' → admin_step actor st st'
| adm_reset i password hash now st' :
    reset_password i password hash actor now st = Ok st' → admin_step actor st st'
| adm_map group role now st' :
    upsert_group_role_mapping group role actor now st = Ok st' → admin_step actor st st'
| adm_unmap group st' :
    delete_group_role_mapping group actor st = Ok st' → admin_step actor st st'.

Inductive admin_steps : AdminStore → AdminStore → Prop :=
| adm_refl st : admin_steps st st
| adm_trans actor st st' st'' : admin_step actor st st' → admin_steps st' st'' → admin_steps st st''.

(** Rewriting a row without renaming it keeps the table sound. *)
Lemma put_account_ok i row row' intent st :
  accounts_ok st → accounts st !! i = Some row → lar_username row' = lar_username row →
  lar_role row' ∈ KNOWN_ROLES → lar_status row' ∈ _ACCOUNT_STATUSES → accounts_ok (put_account i row' intent st).
Proof.
  intros [H1 H2 H3] Hi Hn Hr Hs. split; cbn.
  - intros j rj. rewrite lookup_insert_Some. intros [[<- <-]|[_ H]]; eauto.
  - intros j k rj rk. rewrite !lookup_insert_Some. intros [[<- <-]|[? Hj]] [[<- <-]|[? Hk]] E; [done|..|by eauto].
    + rewrite Hn in E. by eapply H2.
    + rewrite Hn in E. by eapply H2.
  - intros j rj. rewrite lookup_insert_Some. intros [[<- <-]|[_ H]]; eauto.
Qed.

Lemma other_admins_pos i st :
  other_active_admins i st ≠ 0 → ∃ j row, accounts st !! j = Some row ∧ active_admin row = true ∧ j ≠ i.
Proof.
  unfold other_active_admins. destruct (base.filter _ _) as [|[j row] l] eqn:E; [done|]. intros _.
  assert (Hin : (j, row) ∈ base.filter (λ kr, active_admin kr.2 = true ∧ kr.1 ≠ i) (map_to_list (accounts st))) by (rewrite E; left).
  apply list_elem_of_filter in Hin as [[Ha Hj] Hin]. apply elem_of_map_to_list in Hin. cbn in *. eauto.
Qed.

Lemma create_account_Ok username role password hash actor now st i st' :
  create_account username role password hash actor now st = Ok (i, st') →
  i = next_account_id st ∧ role ∈ KNOWN_ROLES ∧
  accounts st' = <[i := mkLocalAccountRow username hash role "active" actor now now]> (accounts st) ∧
  next_account_id st' = i + 1 ∧ mappings st' = mappings st ∧
  admin_intents st' = admin_intents st ++
    [mkAuditIntent actor "local_account_created" (JObj [("username", JStr username); ("role", JStr role)])] ∧
  ∀ j row, accounts st !! j = Some row → lar_username row ≠ username.
Proof.
  unfold create_account, _validate_role, _validate_password. intros H. ok_inv. bool_prop. simplify_eq. split_and!; try done.
  intros j row Hj E. match goal with H : existsb _ _ = false |- _ => rewrite existsb_false in H; specialize (H (j, row)) end.
  cbn in *. rewrite E, String.eqb_refl in *. by rewrite elem_of_map_to_list in *; intuition.
Qed.

(** What an accepted update leaves of the row. *)
Lemma plan_update_Ok i role status actor now st row' intent :
  plan_update i role status actor now st = Ok (Some (row', intent)) →
  ∃ row, accounts st !! i = Some row ∧ lar_username row' = lar_username row ∧ lar_password_hash row' = lar_password_hash row ∧
    lar_role row' = default (lar_role row) role ∧ lar_status row' = default (lar_status row) status ∧
    (lar_role row' = lar_role row ∨ lar_role row' ∈ KNOWN_ROLES) ∧
    (lar_status row' = lar_status row ∨ lar_status row' ∈ _ACCOUNT_STATUSES) ∧
    (active_admin row = true → active_admin row' = true ∨ other_active_admins i st ≠ 0) ∧
    ai_operator intent = actor.
Proof.
  unfold plan_update, _get_account_or_raise. intros H. ok_inv.
  destruct (accounts st !! i) as [row0|] eqn:Er; ok_inv. match type of Er with _ = Some ?r => rename r into row end. exists row.
  destruct (negb (negb _ || negb _)) eqn:Ec; [done|]. simplify_eq. cbn. split_and!; try done.
  - destruct (String.eqb_spec (default (lar_role row) role) (lar_role row)) as [->|_]; [by left|]. right. cbn in *.
    unfold _validate_role in *. ok_inv. by bool_prop.
  - destruct status as [s|]; [|by left]. right. cbn. by bool_prop.
  - intros Ha. destruct (Z.eqb_spec (other_active_admins i st) 0) as [E|E]; [|by right]. left.
    match goal with H : negb (active_admin row && _ && _) = true |- _ => rewrite Ha in H; cbn in H end.
    unfold active_admin in *. cbn. apply andb_true_iff in Ha as [Hr Hs]. apply andb_true_iff.
    destruct role as [r|], status as [s|]; cbn in *; rewrite ?andb_true_r in *; bool_prop; done.
Qed.

Lemma reset_password_Ok i password hash actor now st st' :
  reset_password i password hash actor now st = Ok st' →
  ∃ row, accounts st !! i = Some row ∧
    st' = put_account i
      (mkLocalAccountRow (lar_username row) hash (lar_role row) (lar_status row) (lar_created_by row) (lar_created_at row) now)
      (mkAuditIntent actor "local_account_password_reset"
        (JObj [("account_id", JNum i); ("username", JStr (lar_username row))])) st.
Proof.
  unfold reset_password, _get_account_or_raise. intros H. ok_inv.
  destruct (accounts st !! i) as [row|] eqn:Er; ok_inv. eauto.
Qed.

Lemma step_sound actor st st' :
  accounts_ok st → admin_step actor st st' → accounts_ok st' ∧ (has_admin st → has_admin st').
Proof.
  intros Hok [username role password hash now i s E|i role status now s E|i password hash now s E
    |group role now s E|group s E].
  - apply create_account_Ok in E as (-> & Hr & Ha & Hn & _ & _ & Hfresh). pose proof Hok as [H1 H2 H3]. split.
    + split; rewrite Ha; [rewrite Hn|..].
      * intros j row. rewrite lookup_insert_Some. intros [[<- _]|[_ H]]; [lia|]. apply H1 in H. lia.
      * intros j k rj rk. rewrite !lookup_insert_Some. intros [[<- <-]|[? Hj]] [[<- <-]|[? Hk]] En; [done|..|by eauto].
        -- by destruct (Hfresh _ _ Hk).
        -- by destruct (Hfresh _ _ Hj).
      * intros j row. rewrite lookup_insert_Some. intros [[<- <-]|[_ H]]; [|by eauto]. split; [done|by_compute].
    + intros (j & row & Hj & Hadm). exists j, row. split; [|done]. rewrite Ha, lookup_insert_ne; [done|].
      apply H1 in Hj. lia.
  - unfold set_account_role_status in E. ok_inv. destruct x as [[row' intent]|]; [|done].
    match goal with H : plan_update _ _ _ _ _ _ = _ |- _ =>
      apply plan_update_Ok in H as (row & Hi & Hn & _ & _ & _ & Hr & Hs & Hadm & _) end.
    destruct (ok_rows _ Hok _ _ Hi) as [Hr0 Hs0]. cbn [commit_update]. split.
    + eapply put_account_ok; try done; [destruct Hr as [->|]|destruct Hs as [->|]]; done.
    + intros (j & rj & Hj & Hja). destruct (decide (j = i)) as [->|Hne].
      * assert (rj = row) as -> by congruence. destruct (Hadm Hja) as [H|(k & rk & Hk & Hka & Hki)%other_admins_pos].
        -- exists i, row'. split; [apply lookup_insert_eq|done].
        -- exists k, rk. split; [|done]. cbn. by rewrite lookup_insert_ne.
      * exists j, rj. split; [|done]. cbn. by rewrite lookup_insert_ne.
  - apply reset_password_Ok in E as (row & Hi & ->). destruct (ok_rows _ Hok _ _ Hi) as [Hr0 Hs0]. split.
    + by eapply put_account_ok.
    + intros (j & rj & Hj & Hja). destruct (decide (j = i)) as [->|Hne].
      * assert (rj = row) as -> by congruence. eexists i, _. split; [apply lookup_insert_eq|done].
      * exists j, rj. split; [|done]. cbn. by rewrite lookup_insert_ne.
  - unfold upsert_group_role_mapping in E. ok_inv. destruct Hok. split; [by split|done].
  - unfold delete_group_role_mapping in E. destruct (mappings st !! group); [|done]. ok_inv. destruct Hok. split; [by split|done].
Qed.

(** C32: The accounts never lock their owners out.  Over any sequence of committed
    requests of the admin API, taken one after another, usernames stay unique, every
    role is a known one and every status active or disabled; and once there is an
    active administrator there always is one: the last cannot be demoted or disabled. *)
Theorem an_admin_remains st st' :
  admin_steps st st' → accounts_ok st → accounts_ok st' ∧ (has_admin st → has_admin st').
Proof.
  induction 1 as [st|actor st st' st'' Hstep _ IH]; intros Hok; [done|].
  destruct (step_sound _ _ _ Hok Hstep) as [H1 H2]. destruct (IH H1) as [H3 H4]. auto.
Qed.

(** Every committed change is audited once, under the name of who made it. *)
Theorem account_changes_are_audited actor st st' :
  admin_step actor st st' →
  st' = st ∨ ∃ intent, ai_operator intent = actor ∧ admin_intents st' = admin_intents st ++ [intent].
Proof.
  intros [username role password hash now i s E|i role status now s E|i password hash now s E
    |group role now s E|group s E].
  - right. apply create_account_Ok in E as (_ & _ & _ & _ & _ & H & _). eexists. by split; [|exact H].
  - unfold set_account_role_status in E. ok_inv. destruct x as [[row' intent]|]; [right|by left].
    match goal with H : plan_update _ _ _ _ _ _ = _ |- _ =>
      apply plan_update_Ok in H as (row & _ & _ & _ & _ & _ & _ & _ & _ & Hop) end. by exists intent.
  - apply reset_password_Ok in E as (row & Hi & ->). right. eexists. by split; [|reflexivity].
  - unfold upsert_group_role_mapping in E. ok_inv. right. eexists. by split; [|reflexivity].
  - unfold delete_group_role_mapping in E. destruct (mappings st !! group); [|done]. ok_inv. right. eexists. by split; [|reflexivity].
Qed.

(** No secret reaches the audit trail: what is recorded of an account's creation and
    of a reset does not depend on the password or its hash. *)
Theorem audit_keeps_no_secret username role i p h p' h' actor now st a1 a2 r1 r2 :
  create_account username role p h actor now st = Ok a1 → create_account username role p' h' actor now st = Ok a2 →
  reset_password i p h actor now st = Ok r1 → reset_password i p' h' actor now st = Ok r2 →
  admin_intents a1.2 = admin_intents a2.2 ∧ admin_intents r1 = admin_intents r2.
Proof.
  destruct a1 as [i1 a1], a2 as [i2 a2]. intros (_ & _ & _ & _ & _ & H1 & _)%create_account_Ok
    (_ & _ & _ & _ & _ & H2 & _)%create_account_Ok (row1 & Hi1 & ->)%reset_password_Ok (row2 & Hi2 & ->)%reset_password_Ok.
  assert (row1 = row2) as -> by congruence. cbn. by rewrite H1, H2.
Qed.

(** ** From an account to a login *)

Section logins.
Variable scrypt : list Z → list Z → nat → list Z.
Context (Hscrypt : ∀ p s n, length (scrypt p s n) = n ∧ Forall is_byte (scrypt p s n)).
Variable seconds : Z → Z.

Definition checks (password hash : string) : bool := bool_decide (verify_password scrypt password hash = Some true).

Lemma find_account st i row :
  accounts_ok st → accounts st !! i = Some row → lar_status row = "active" →
  find (λ a, String.eqb (la_username a) (lar_username row)) (fetch_accounts (accounts st)) =
    Some (mkLocalAccount (lar_username row) (lar_password_hash row) (lar_role row)).
Proof.
  intros Hok Hi Hs. destruct (find _ _) as [a|] eqn:E.
  - apply find_some in E as [Hin He]. str_prop. unfold fetch_accounts in Hin. apply in_map_iff in Hin as ([j rj] & <- & Hj).
    apply list_elem_of_In, list_elem_of_filter in Hj as [_ Hj]. apply elem_of_map_to_list in Hj. cbn in *.
    assert (j = i) as -> by by eapply ok_names. by simplify_eq.
  - eapply (find_none _ _) with (x := mkLocalAccount (lar_username row) (lar_password_hash row) (lar_role row)) in E.
    { cbn in E. by rewrite String.eqb_refl in E. } unfold fetch_accounts. apply in_map_iff.
    exists (i, row). split; [done|]. apply list_elem_of_In, list_elem_of_filter. split; [done|]. by apply elem_of_map_to_list.
Qed.

Lemma find_no_account st username :
  (∀ i row, accounts st !! i = Some row → lar_username row = username → lar_status row ≠ "active") →
  find (λ a, String.eqb (la_username a) username) (fetch_accounts (accounts st)) = None.
Proof.
  intros H. destruct (find _ _) as [a|] eqn:E; [|done]. apply find_some in E as [Hin He]. str_prop.
  unfold fetch_accounts in Hin. apply in_map_iff in Hin as ([j rj] & <- & Hj).
  apply list_elem_of_In, list_elem_of_filter in Hj as [Hs Hj]. apply elem_of_map_to_list in Hj. by destruct (H j rj Hj He).
Qed.

(** An account opens exactly what it should.  Right after its creation, a login
    with the username and the initial password succeeds with the account's role; and
    after it was disabled, no password does. *)
Theorem created_account_logs_in username role password salt actor now st i st' st'' later c :
  accounts_ok st → Forall is_byte salt →
  create_account username role password (hash_password scrypt password salt) actor now st = Ok (i, st') →
  set_account_role_status i None (Some "disabled") actor later st' = Ok st'' →
  live c later (fail_key username) = None →
  (authenticate_local seconds checks (fetch_accounts (accounts st')) username password later c).1 =
    Some (mkLocalAccount username (hash_password scrypt password salt) role) ∧
  ∀ p, (authenticate_local seconds checks (fetch_accounts (accounts st'')) username p later c).1 = None.
Proof.
  intros Hok Hsalt Hc Hu Hl. assert (Hok' : accounts_ok st') by (eapply step_sound; [done|]; by eapply adm_create).
  apply create_account_Ok in Hc as (-> & _ & Ha & _).
  assert (Hi : accounts st' !! next_account_id st = Some
    (mkLocalAccountRow username (hash_password scrypt password salt) role "active" actor now now))
    by (rewrite Ha; apply lookup_insert_eq).
  assert (Hlock : ∀ accs p, (authenticate_local seconds checks accs username p later c).1 =
    match find (λ a, String.eqb (la_username a) username) accs with
    | Some a => if checks p (la_password_hash a) then Some a else None
    | None => None
    end).
  { intros accs p. unfold authenticate_local, _is_locked_out, read_in_window. rewrite Hl. cbn.
    destruct (find _ accs) as [a|]; [|done]. by destruct (checks p (la_password_hash a)). }
  split.
  - rewrite Hlock. pose proof (find_account st' _ _ Hok' Hi eq_refl) as Hf.
    cbn [lar_username lar_password_hash lar_role] in Hf. rewrite Hf. cbn [la_password_hash].
    unfold checks. rewrite verify_hashed by done. by rewrite !bool_decide_true by (rewrite ?bool_decide_true; done).
  - intros p. rewrite Hlock, find_no_account; [done|]. intros j row Hj En Hs.
    unfold set_account_role_status in Hu. ok_inv. destruct x as [[row' intent]|].
    + match goal with H : plan_update _ _ _ _ _ _ = _ |- _ =>
        apply plan_update_Ok in H as (row0 & Hi0 & Hn0 & _ & _ & Hst & _) end.
      cbn in Hj. rewrite lookup_insert_Some in Hj. destruct Hj as [[<- <-]|[Hne Hj]]; [by rewrite Hst in Hs|].
      apply Hne. eapply (ok_names _ Hok'); [exact Hi|exact Hj|]. cbn. congruence.
    + (* nothing to change means it was disabled already *)
      match goal with H : plan_update _ _ _ _ _ _ = _ |- _ => unfold plan_update, _get_account_or_raise in H; rewrite Hi in H; ok_inv end.
      repeat case_match; simplify_eq.
Qed.
End logins.

(** ** The map in memory *)

(** The group map the requests are judged by is the table's.  The two routes that
    edit it keep the process's copy and the committed rows the same map, whether they
    succeed or are refused; and roles outside the known ones never enter it. *)
Theorem group_map_follows_the_table s group role actor now r s' :
  ad_group_role_map s = gm_role <$> mappings (ad_store s) →
  (upsert_group_role_map_endpoint group role actor now s = (r, s') ∨
   delete_group_role_map_endpoint group actor s = (r, s')) →
  ad_group_role_map s' = gm_role <$> mappings (ad_store s') ∧
  (map_Forall (λ _ role, role ∈ KNOWN_ROLES) (ad_group_role_map s) → map_Forall (λ _ role, role ∈ KNOWN_ROLES) (ad_group_role_map s')).
Proof.
  intros Hs [E|E].
  - unfold upsert_group_role_map_endpoint, upsert_group_role_mapping, _validate_role in E.
    destruct (blank group); [cbn in E; by simplify_eq|]. case_bool_decide as Hr; cbn in E; simplify_eq; [|done].
    cbn [ad_group_role_map ad_store put_mappings mappings]. rewrite fmap_insert, Hs. split; [done|]. intros H. by apply map_Forall_insert_2.
  - unfold delete_group_role_map_endpoint, delete_group_role_mapping in E.
    destruct (mappings (ad_store s) !! group); simplify_eq; [|done].
    cbn [ad_group_role_map ad_store put_mappings mappings]. rewrite fmap_delete, Hs. split; [done|].
    intros H. by apply map_Forall_delete.
Qed.

(** The first-boot list: accepted accounts are the entries in order, with known roles
    and distinct names. *)
Theorem loaded_accounts_are_sound raw accs :
  load_local_accounts_from_json (Some raw) = Ok accs →
  NoDup (map la_username accs) ∧ Forall (λ a, la_role a ∈ KNOWN_ROLES) accs ∧
  ∃ l, raw = JList l ∧
    Forall2 (λ e a, json_get "username" e = Some (JStr (la_username a)) ∧
                    json_get "password_hash" e = Some (JStr (la_password_hash a)) ∧
                    json_get "role" e = Some (JStr (la_role a))) l accs.
Proof.
  destruct raw as [| | | | |l|]; try done. cbn. intros H.
  assert (Hg : ∀ seen accs, load_entries seen l = Ok accs →
    NoDup (map la_username accs) ∧ (∀ u, u ∈ map la_username accs → u ∉ seen) ∧ Forall (λ a, la_role a ∈ KNOWN_ROLES) accs ∧
    Forall2 (λ e a, json_get "username" e = Some (JStr (la_username a)) ∧
                    json_get "password_hash" e = Some (JStr (la_password_hash a)) ∧
                    json_get "role" e = Some (JStr (la_role a))) l accs).
  { clear H accs. induction l as [|e l IH]; intros seen accs; cbn [load_entries].
    - intros [= <-]. split_and!; [constructor|set_solver|constructor..].
    - destruct (json_get "username" e) as [[| | | |u| |]|] eqn:Eu; cbn; try done.
      destruct (json_get "password_hash" e) as [[| | | |h| |]|] eqn:Eh; cbn; try done.
      destruct (json_get "role" e) as [[| | | |r| |]|] eqn:Er; cbn; try done.
      intros H. ok_inv. bool_prop. match goal with H : load_entries _ _ = _ |- _ => apply IH in H as (H1 & H2 & H3 & H4) end.
      cbn. split_and!.
      + apply NoDup_cons. split; [|done]. intros Hin. apply H2 in Hin. set_solver.
      + intros v [->|Hv]%elem_of_cons; [done|]. apply H2 in Hv. set_solver.
      + by constructor.
      + by constructor. }
  apply Hg in H as (H1 & _ & H3 & H4). split_and!; [done..|eauto].
Qed.

Module AccountSamples.
Import AccessSamples.

Definition row (name role : string) : LocalAccountRow := mkLocalAccountRow name "h" role "active" "root" 0 0.
Definition two_admins : AdminStore := mkAdminStore {[1 := row "ann" "admin"; 2 := row "bob" "admin"]} 3 ∅ [].

Lemma two_admins_ok : accounts_ok two_admins.
Proof.
  assert (H : ∀ i r, accounts two_admins !! i = Some r → (i = 1 ∧ r = row "ann" "admin") ∨ (i = 2 ∧ r = row "bob" "admin")).
  { intros i r. cbn. rewrite lookup_insert_Some, lookup_singleton_Some. naive_solver. }
  split.
  - intros i r Hi. cbn. apply H in Hi as [[-> _]|[-> _]]; lia.
  - intros i j r r' Hi Hj. apply H in Hi as [[-> ->]|[-> ->]], Hj as [[-> ->]|[-> ->]]; done.
  - intros i r Hi. apply H in Hi as [[-> ->]|[-> ->]]; split; by_compute.
Qed.

(** Ann disables Bob; she cannot then demote herself. *)
Definition bob_disabled : AdminStore :=
  match set_account_role_status 2 None (Some "disabled") "ann" 5 two_admins with Ok st => st | Err _ => two_admins end.

Lemma an_admin_remains_witness :
  set_account_role_status 1 (Some "auditor") None "ann" 6 bob_disabled = Err last_active_admin ∧ has_admin bob_disabled.
Proof.
  split; [vm_compute; reflexivity|]. refine (proj2 (an_admin_remains two_admins bob_disabled _ two_admins_ok) _).
  - eapply adm_trans; [|apply adm_refl]. apply (adm_update "ann" two_admins 2 None (Some "disabled") 5). vm_compute. reflexivity.
  - exists 1, (row "ann" "admin"). split; vm_compute; reflexivity.
Defined.

(** The check and the write are not one step: two administrators who disable each
    other at the same moment, each on its own snapshot, both commit, and no active
    administrator is left. *)
Example admins_can_lock_each_other_out :
  match plan_update 1 None (Some "disabled") "bob" 5 two_admins, plan_update 2 None (Some "disabled") "ann" 5 two_admins with
  | Ok p1, Ok p2 =>
      base.filter (λ kr, active_admin kr.2 = true) (map_to_list (accounts (commit_update 2 p2 (commit_update 1 p1 two_admins)))) = []
  | _, _ => False
  end.
Proof. vm_compute. reflexivity. Qed.

(** A derivation that tells passwords apart by their length and first byte. *)
Definition toy_scrypt (p s : list Z) (n : nat) : list Z := repeat ((Z.of_nat (length p) + default 0 (head p)) mod 256) n.

Lemma toy_scrypt_ok p s n : length (toy_scrypt p s n) = n ∧ Forall is_byte (toy_scrypt p s n).
Proof.
  unfold toy_scrypt. split; [apply repeat_length|]. apply Forall_forall. intros b Hb%list_elem_of_In%repeat_spec. subst b.
  unfold is_byte. apply Z.mod_pos_bound. lia.
Qed.

Definition eve_hash : string := hash_password toy_scrypt "correct horse" [1; 171].

Lemma created_account_logs_in_witness :
  checks toy_scrypt "wrong horse" eve_hash = false ∧
  ∃ st', create_account "eve" "auditor" "correct horse" eve_hash "ann" 7 two_admins = Ok (3, st') ∧
    (authenticate_local whole_seconds (checks toy_scrypt) (fetch_accounts (accounts st')) "eve" "correct horse" 9 ∅).1 =
      Some (mkLocalAccount "eve" eve_hash "auditor").
Proof.
  split; [vm_compute; reflexivity|]. eexists. split; [vm_compute; reflexivity|].
  eapply (created_account_logs_in toy_scrypt toy_scrypt_ok whole_seconds "eve" "auditor" "correct horse" [1; 171] "ann" 7 two_admins 3);
    [exact two_admins_ok|repeat constructor; lia|vm_compute; reflexivity|vm_compute; reflexivity|vm_compute; reflexivity].
Defined.

Lemma group_map_follows_the_table_witness :
  let s := mkAdminSite two_admins ∅ in
  ad_group_role_map (upsert_group_role_map_endpoint "sec" "admin" "ann" 5 s).2 =
    gm_role <$> mappings (ad_store (upsert_group_role_map_endpoint "sec" "admin" "ann" 5 s).2).
Proof.
  intros s. destruct (upsert_group_role_map_endpoint "sec" "admin" "ann" 5 s) as [r s'] eqn:E.
  refine (proj1 (group_map_follows_the_table s "sec" "admin" "ann" 5 r s' _ (or_introl E))). vm_compute. reflexivity.
Defined.

(** A stored hash whose digest is empty makes [verify_password] raise. *)
Example empty_digest_raises : verify_password toy_scrypt "x" "scrypt$00$" = None.
Proof. vm_compute. reflexivity. Qed.
End AccountSamples.
