(* ===== verification/Keyword.v ===== *)
(** * The reference engines: [libs/skillscan_core/engines.py]

    [StaticKeywordEngine], which every scan requires: substring matching on the
    lines of each file, decoded as UTF-8 with replacement.  [time.time()] is read
    before each file; SHA-256 and the text of a float are parameters.  Then the
    two test doubles. *)

From S2P Require Import Prelude Float64 Models Scoring Gate GateSafety Canonical Unpack Adapter Json JsonText PyText Access.
From Stdlib Require Import QArith Ascii.
Open Scope string_scope.
Open Scope list_scope.
Open Scope Z_scope.

(** ** [bytes.decode("utf-8", errors="replace")] *)

Definition REPLACEMENT : Z := 65533.

(** A lead byte: how many bytes follow, the range of the next one, its bits. *)
Definition lead (b : Z) : option (nat * Z * Z * Z) :=
  if (194 <=? b) && (b <=? 223) then Some (1%nat, 128, 191, b - 192)
  else if b =? 224 then Some (2%nat, 160, 191, 0)
  else if b =? 237 then Some (2%nat, 128, 159, 13)
  else if (225 <=? b) && (b <=? 239) then Some (2%nat, 128, 191, b - 224)
  else if b =? 240 then Some (3%nat, 144, 191, 0)
  else if (241 <=? b) && (b <=? 243) then Some (3%nat, 128, 191, b - 240)
  else if b =? 244 then Some (3%nat, 128, 143, 4)
  else None.

(** [pending]: the sequence being read.  One that breaks off becomes one
    replacement character, and the byte that broke it is read afresh. *)
Fixpoint decode_replace (pending : option (nat * Z * Z * Z)) (bs : list Z) : points :=
  match bs with
  | [] => match pending with Some _ => [REPLACEMENT] | None => [] end
  | b :: rest =>
      let afresh (_ : unit) :=
        if b <? 128 then b :: decode_replace None rest
        else match lead b with
             | None => REPLACEMENT :: decode_replace None rest
             | Some p => decode_replace (Some p) rest
             end in
      match pending with
      | None => afresh tt
      | Some (need, lo, hi, acc) =>
          if (lo <=? b) && (b <=? hi) then
            let acc := acc * 64 + (b - 128) in
            match need with
            | 0%nat | 1%nat => acc :: decode_replace None rest
            | S need => decode_replace (Some (need, 128, 191, acc)) rest
            end
          else REPLACEMENT :: afresh tt
      end
  end.

Definition decode (data : bytes) : points := decode_replace None data.

(** ** [str.splitlines] *)

Definition is_break (c : Z) : bool :=
  ((10 <=? c) && (c <=? 13)) || ((28 <=? c) && (c <=? 30)) || (c =? 133) || (c =? 8232) || (c =? 8233).

Fixpoint splitlines (text : points) : list points :=
  match text with
  | [] => []
  | c :: rest =>
      if is_break c then
        [] :: match rest with
              | d :: rest' => if (c =? 13) && (d =? 10) then splitlines rest' else splitlines rest
              | [] => []
              end
      else match splitlines rest with
           | [] => [[c]]
           | w :: ws => (c :: w) :: ws
           end
  end.

(** ** [pattern in line] *)

Fixpoint occurs (pattern text : list Z) : bool :=
  starts_with pattern text || match text with [] => false | _ :: text' => occurs pattern text' end.

(** ** The rules *)

Record KeywordRule := mkKeywordRule {
  kw_pattern : string;
  kw_rule_id : string;
  kw_category : DetectionCategory;
  kw_severity : Severity;
  kw_trifecta : option TrifectaSignal;
  kw_title : string;
  kw_confidence : Q;
}.

Definition _STATIC_KEYWORD_PATTERNS : list KeywordRule :=
  [mkKeywordRule "eval(" "static.eval_call" CODE HIGH None
     "检测到 eval() 调用" (1 # 2);
   mkKeywordRule "curl http" "static.curl_http" NETWORK_INTEL MEDIUM (Some EXTERNAL_EGRESS)
     "通过 curl 向 http(s) 端点发起出站请求" (1 # 2);
   mkKeywordRule "os.environ" "static.os_environ" DATA_CREDENTIAL MEDIUM (Some PRIVATE_DATA_ACCESS)
     "访问环境变量" (rnd64 (7 # 10));
   mkKeywordRule "input(" "static.input_call" INSTRUCTION LOW (Some UNTRUSTED_INPUT)
     "交互式 input() 调用" (1 # 2)].

Definition keyword_test_item (rule_id : string) : string :=
  if String.eqb rule_id "static.eval_call" then "CODE-02"
  else if String.eqb rule_id "static.curl_http" then "NET-05"
  else if String.eqb rule_id "static.os_environ" then "CRED-03"
  else if String.eqb rule_id "static.input_call" then "GEN-01"
  else "".

Definition keyword_risk (rule_id : string) : string :=
  if String.eqb rule_id "static.eval_call" then "eval() 会将字符串当作 Python 代码动态执行，如果该字符串包含任何用户输入或外部数据，攻击者可借此注入并执行任意代码；即使参数看似固定，也建议改用更安全的替代方案（如 ast.literal_eval 仅用于解析字面量）。"
  else if String.eqb rule_id "static.curl_http" then "该行代码通过 curl 向外部 http(s) 端点发起出站网络请求，可能用于从远程下载并执行代码、向攻击者控制的服务器回传数据，或与命令与控制（C2）服务器通信；建议核实目标地址的可信度及请求的必要性。"
  else if String.eqb rule_id "static.os_environ" then "该行代码读取了进程环境变量，环境变量中常常存放 API 密钥、数据库凭据、云服务账号等敏感信息；如果 Skill 将读取到的值回传/打印/写入日志，可能造成凭据泄露，建议核实读取的具体变量及其后续用途。"
  else if String.eqb rule_id "static.input_call" then "该行代码通过 input() 接收交互式用户输入，如果后续未经校验就将其用于文件路径、shell 命令、SQL 查询等敏感操作，可能引入路径穿越、命令注入、SQL 注入等风险；建议核实输入后续的使用方式。"
  else "".

Definition encode (s : points) : bytes := s ≫= utf8_char.
Definition text_of (s : points) : string := string_of_bytes (encode s).

(** ** Reading the text: nothing hides a keyword *)

Definition ascii_point (c : Z) : Prop := 0 <= c < 128.

Lemma starts_with_app p l : starts_with p l = true ↔ ∃ r, l = p ++ r.
Proof.
  revert l. induction p as [|x p IH]; intros l; cbn; [naive_solver|]. destruct l as [|y l]; [naive_solver|].
  rewrite andb_true_iff, Z.eqb_eq, IH. naive_solver.
Qed.

(** A sequence being read stands for a point outside ASCII. *)
Definition beyond (p : nat * Z * Z * Z) : Prop :=
  let '(need, lo, _, acc) := p in
  match need with
  | 0%nat => False
  | S n => 128 <= lo ∧ 0 <= acc ∧ 128 <= (acc * 64 + (lo - 128)) * 64 ^ Z.of_nat n
  end.

Lemma lead_beyond b p : lead b = Some p → beyond p.
Proof.
  unfold lead. intros H. repeat case_match; simplify_eq; cbn; bool_prop;
    repeat match goal with H : (_ <=? _) = true |- _ => apply Z.leb_le in H end; lia.
Qed.

(** What is read in the middle of a sequence starts with no ASCII character. *)
Lemma pending_head p bs c r : beyond p → decode_replace (Some p) bs = c :: r → 128 <= c.
Proof.
  revert p. induction bs as [|b bs IH]; intros [[[need lo] hi] acc] Hb; cbn; [by intros [= <- _]|].
  destruct need as [|need]; [done|]. destruct Hb as (Hlo & Hacc & Hge).
  destruct ((lo <=? b) && (b <=? hi)) eqn:E; [|by intros [= <- _]].
  apply andb_true_iff in E as [E1%Z.leb_le _]. destruct need as [|need].
  - intros [= <- _]. cbn in Hge. lia.
  - apply IH. cbn. split_and!; [lia|lia|].
    replace (Z.of_nat (S need)) with (1 + Z.of_nat need) in Hge by lia. rewrite Z.pow_add_r in Hge by lia.
    pose proof (Z.pow_pos_nonneg 64 (Z.of_nat need)). nia.
Qed.

Lemma starts_decode p bs :
  Forall ascii_point p → starts_with p (decode_replace None bs) = starts_with p bs.
Proof.
  intros Hp. revert bs. induction Hp as [|x p Hx Hp IH]; intros bs; [done|]. destruct bs as [|b bs]; [done|].
  cbn [decode_replace]. destruct (b <? 128) eqn:Eb; [cbn; by rewrite IH|]. apply Z.ltb_ge in Eb.
  unfold ascii_point in Hx. transitivity false; [|cbn; symmetry; apply andb_false_iff; left; apply Z.eqb_neq; lia].
  destruct (lead b) as [q|] eqn:El.
  - destruct (decode_replace (Some q) bs) as [|c r] eqn:Ed; [done|]. apply pending_head in Ed; [|by eapply lead_beyond].
    cbn. apply andb_false_iff. left. apply Z.eqb_neq. lia.
  - cbn. apply andb_false_iff. left. apply Z.eqb_neq. unfold REPLACEMENT. lia.
Qed.

Lemma occurs_beyond x p c l : ascii_point x → 128 <= c → occurs (x :: p) (c :: l) = occurs (x :: p) l.
Proof. intros [? ?] ?. cbn. by rewrite (proj2 (Z.eqb_neq x c)) by lia. Qed.

(** Decoding neither makes nor hides an ASCII word. *)
Lemma occurs_decode x p bs :
  Forall ascii_point (x :: p) → occurs (x :: p) (decode bs) = occurs (x :: p) bs.
Proof.
  intros Hp. assert (Hx : ascii_point x) by by inversion Hp.
  assert (H : ∀ pending, (∀ q, pending = Some q → beyond q) → occurs (x :: p) (decode_replace pending bs) = occurs (x :: p) bs);
    [|by apply H].
  assert (HR : 128 <= REPLACEMENT) by (unfold REPLACEMENT; lia).
  induction bs as [|b bs IH]; intros pending Hpend.
  { destruct pending; [by apply occurs_beyond|done]. }
  set (afresh := if b <? 128 then b :: decode_replace None bs
        else match lead b with None => REPLACEMENT :: decode_replace None bs | Some q => decode_replace (Some q) bs end).
  assert (Ha : occurs (x :: p) afresh = occurs (x :: p) (b :: bs)).
  { unfold afresh. destruct (b <? 128) eqn:Eb.
    - change (occurs (x :: p) (b :: ?l)) with (starts_with (x :: p) (b :: l) || occurs (x :: p) l).
      rewrite IH by done. f_equal. cbn. rewrite starts_decode; [done|]. by inversion Hp.
    - apply Z.ltb_ge in Eb. rewrite (occurs_beyond x p b bs) by done. destruct (lead b) as [q|] eqn:El.
      + apply IH. intros ? [= <-]. by eapply lead_beyond.
      + rewrite occurs_beyond by done. by apply IH. }
  destruct pending as [q|]; [|exact Ha]. pose proof (Hpend q eq_refl) as Hq. destruct q as [[[need lo] hi] acc].
  cbn [decode_replace]. fold afresh. destruct ((lo <=? b) && (b <=? hi)) eqn:E; [|by rewrite occurs_beyond].
  apply andb_true_iff in E as [E1%Z.leb_le E2%Z.leb_le]. destruct need as [|need]; [done|]. destruct Hq as (Hlo & Hacc & Hge).
  rewrite (occurs_beyond x p b bs) by (done || lia). destruct need as [|need].
  - rewrite occurs_beyond; [by apply IH|done|]. cbn in Hge. lia.
  - apply IH. intros ? [= <-]. cbn. split_and!; [lia|lia|].
    replace (Z.of_nat (S need)) with (1 + Z.of_nat need) in Hge by lia. rewrite Z.pow_add_r in Hge by lia.
    pose proof (Z.pow_pos_nonneg 64 (Z.of_nat need)). nia.
Qed.

(** Nor does the splitting into lines, for a word without line breaks. *)
Lemma starts_lines x p text :
  Forall (λ c, is_break c = false) (x :: p) →
  starts_with (x :: p) text = match splitlines text with w :: _ => starts_with (x :: p) w | [] => false end.
Proof.
  revert x p. induction text as [|c text IH]; intros x p Hp; [done|]. apply Forall_cons in Hp as [Hx Hp].
  cbn [splitlines]. destruct (is_break c) eqn:Ec.
  - cbn. destruct (Z.eqb_spec x c) as [->|_]; [congruence|done].
  - assert (Ht : starts_with p text = starts_with p (match splitlines text with w :: _ => w | [] => [] end)).
    { destruct p as [|y p]; [done|]. rewrite IH by done. by destruct (splitlines text). }
    destruct (splitlines text) as [|w ws]; cbn [starts_with]; by rewrite Ht.
Qed.

Lemma occurs_lines x p text :
  Forall (λ c, is_break c = false) (x :: p) →
  occurs (x :: p) text = existsb (occurs (x :: p)) (splitlines text).
Proof.
  intros Hp. remember (length text) as n eqn:Hn. revert text Hn. induction (lt_wf n) as [n _ IH]. intros text ->.
  destruct text as [|c text]; [done|].
  change (occurs (x :: p) (c :: text)) with (starts_with (x :: p) (c :: text) || occurs (x :: p) text).
  rewrite starts_lines by done. cbn [splitlines]. destruct (is_break c) eqn:Ec.
  - cbn [existsb orb starts_with occurs]. destruct text as [|d text]; [done|].
    destruct ((c =? 13) && (d =? 10)) eqn:E.
    + change (occurs (x :: p) (d :: text)) with (starts_with (x :: p) (d :: text) || occurs (x :: p) text).
      rewrite <-(IH (length text)) by (done || cbn; lia). apply andb_true_iff in E as [_ ->%Z.eqb_eq].
      rewrite starts_lines by done. done.
    + by apply (IH (length (d :: text))); [cbn; lia|].
  - rewrite (IH (length text)) by (done || cbn; lia).
    destruct (splitlines text) as [|w ws]; [cbn; by rewrite !orb_false_r|].
    cbn [existsb]. change (occurs (x :: p) (c :: w)) with (starts_with (x :: p) (c :: w) || occurs (x :: p) w).
    by rewrite orb_assoc.
Qed.

Lemma keyword_patterns_plain r :
  r ∈ _STATIC_KEYWORD_PATTERNS →
  ∃ x p, str_bytes (kw_pattern r) = x :: p ∧ Forall ascii_point (x :: p) ∧ Forall (λ c, is_break c = false) (x :: p).
Proof.
  intros Hr. assert (Hall : forallb (λ r, match str_bytes (kw_pattern r) with
    | [] => false
    | l => forallb (λ c, (0 <=? c) && (c <? 128) && negb (is_break c)) l
    end) _STATIC_KEYWORD_PATTERNS = true) by by vm_compute.
  rewrite forallb_forall in Hall. specialize (Hall r (proj1 (list_elem_of_In _ _) Hr)). cbv beta in Hall.
  destruct (str_bytes (kw_pattern r)) as [|x p]; [done|]. exists x, p. rewrite forallb_forall in Hall.
  split_and!; [done|..]; apply Forall_forall; intros c Hc%list_elem_of_In; apply Hall in Hc; unfold ascii_point;
    rewrite !andb_true_iff, Z.leb_le, Z.ltb_lt, negb_true_iff in Hc; naive_solver.
Qed.

Lemma rule_ids_distinct r r' :
  r ∈ _STATIC_KEYWORD_PATTERNS → r' ∈ _STATIC_KEYWORD_PATTERNS → kw_rule_id r = kw_rule_id r' → r = r'.
Proof.
  unfold _STATIC_KEYWORD_PATTERNS. rewrite !elem_of_cons, !elem_of_nil.
  intros Hr Hr'. destruct Hr as [->|[->|[->|[->|Hr]]]], Hr' as [->|[->|[->|[->|Hr']]]]; cbn [kw_rule_id];
    (discriminate || reflexivity || done).
Qed.

Section engine.
Variable sha256 : bytes → string.
Variable repr_float : Q → string.

Definition trifecta_value (t : option TrifectaSignal) : string :=
  match t with
  | None => ""
  | Some PRIVATE_DATA_ACCESS => "private_data_access"
  | Some UNTRUSTED_INPUT => "untrusted_input"
  | Some EXTERNAL_EGRESS => "external_egress"
  end.

Definition sev_digit (s : Severity) : string :=
  match s with NONE => "0" | LOW => "1" | MEDIUM => "2" | HIGH => "3" | CRITICAL => "4" end.

Definition colon_char : ascii := ":"%char.
Definition newline_char : ascii := ascii_of_nat 10.
Definition newline : string := String newline_char "".

(** One line of the digest's input, for a table and its catalog ids. *)
Definition rule_line (items : string → string) (r : KeywordRule) : string :=
  kw_rule_id r +:+ ":" +:+ items (kw_rule_id r) +:+ ":" +:+ kw_pattern r +:+ ":" +:+ category_value (kw_category r)
    +:+ ":" +:+ sev_digit (kw_severity r) +:+ ":" +:+ trifecta_value (kw_trifecta r) +:+ ":"
    +:+ repr_float (kw_confidence r) +:+ newline.

Definition ruleset_text (items : string → string) (table : list KeywordRule) : string :=
  foldr String.append "" (map (rule_line items) table).

Definition ruleset_digest (items : string → string) (table : list KeywordRule) : string :=
  sha256 (str_bytes (ruleset_text items table)).

Definition _static_keyword_ruleset_digest : string := ruleset_digest keyword_test_item _STATIC_KEYWORD_PATTERNS.

Definition static_keyword_metadata : EngineMetadata :=
  mkEngineMetadata "static-keyword" "1.0.0" _static_keyword_ruleset_digest [STATIC] false false true.

Definition keyword_finding (path : points) (line_no : Z) (line : points) (r : KeywordRule) : Finding :=
  mkFinding (kw_rule_id r) (keyword_test_item (kw_rule_id r)) (kw_category r) (kw_title r) (kw_severity r)
    (kw_confidence r) "static-keyword" STATIC (match kw_trifecta r with Some t => {[t]} | None => ∅ end)
    (Some (text_of path)) (Some line_no) (Some (sha256 (encode line))) (keyword_risk (kw_rule_id r)).

Definition scan_line (path : points) (line_no : Z) (line : points) : list Finding :=
  map (keyword_finding path line_no line) (base.filter (λ r, occurs (str_bytes (kw_pattern r)) line = true) _STATIC_KEYWORD_PATTERNS).

Fixpoint scan_lines (path : points) (line_no : Z) (lines : list points) : list Finding :=
  match lines with
  | [] => []
  | line :: rest => scan_line path line_no line ++ scan_lines path (line_no + 1) rest
  end.

Definition scan_file (path : points) (data : bytes) : list Finding := scan_lines path 1 (splitlines (decode data)).

(** The loop over the files; [clock] gives the time at each, counted from the first. *)
Fixpoint scan_files (deadline : option Q) (clock : nat → Q) (files : Files) : list Finding * bool :=
  match files with
  | [] => ([], false)
  | (path, data) :: rest =>
      if match deadline with Some d => qlt d (clock 0%nat) | None => false end then ([], true)
      else let '(more, timed_out) := scan_files deadline (λ n, clock (S n)) rest in
           (scan_file path data ++ more, timed_out)
  end.

Definition static_keyword_analyze (files : Files) (deadline : option Q) (clock : nat → Q) : EngineResult :=
  let '(findings, timed_out) := scan_files deadline clock files in
  mkEngineResult static_keyword_metadata findings (if timed_out then TIMEOUT else OK) MODE_STATIC false
    (if timed_out then Some "deadline exceeded" else None).

(** ** What is reported *)

Lemma elem_of_scan_lines f path n lines :
  f ∈ scan_lines path n lines ↔
  ∃ i line r, lines !! i = Some line ∧ r ∈ _STATIC_KEYWORD_PATTERNS ∧ occurs (str_bytes (kw_pattern r)) line = true ∧
              f = keyword_finding path (n + Z.of_nat i) line r.
Proof.
  revert n. induction lines as [|l lines IH]; intros n; cbn [scan_lines].
  { rewrite elem_of_nil. split; [done|]. by intros (i & line & r & H & _). }
  rewrite elem_of_app, IH. unfold scan_line. rewrite list_elem_of_In, in_map_iff. setoid_rewrite <-list_elem_of_In.
  setoid_rewrite list_elem_of_filter. split.
  - intros [(r & <- & Ho & Hr)|(i & line & r & Hi & Hr & Ho & ->)].
    + exists 0%nat, l, r. rewrite Z.add_0_r. done.
    + exists (S i), line, r. replace (n + Z.of_nat (S i)) with (n + 1 + Z.of_nat i) by lia. done.
  - intros ([|i] & line & r & Hi & Hr & Ho & ->); cbn in Hi.
    + left. injection Hi as ->. exists r. rewrite Z.add_0_r. done.
    + right. exists i, line, r. replace (n + Z.of_nat (S i)) with (n + 1 + Z.of_nat i) by lia. done.
Qed.

(** A rule is reported for a file exactly when its pattern occurs in the bytes. *)
Lemma scan_file_reports path data r :
  r ∈ _STATIC_KEYWORD_PATTERNS →
  (∃ f, f ∈ scan_file path data ∧ rule_id f = kw_rule_id r) ↔ occurs (str_bytes (kw_pattern r)) data = true.
Proof.
  intros Hr. destruct (keyword_patterns_plain r Hr) as (x & p & Ep & Ha & Hb).
  assert (Ho : occurs (str_bytes (kw_pattern r)) data = existsb (occurs (str_bytes (kw_pattern r))) (splitlines (decode data)))
    by (rewrite Ep, <-occurs_lines, occurs_decode; done).
  rewrite Ho, existsb_true. unfold scan_file. split.
  - intros (f & (i & line & r' & Hi & Hr' & Hoc & ->)%elem_of_scan_lines & E). cbn in E.
    apply (rule_ids_distinct r' r) in E as ->; [|done..]. exists line. split; [by eapply list_elem_of_lookup_2|done].
  - intros (line & Hl & Hoc). apply list_elem_of_lookup in Hl as [i Hi].
    exists (keyword_finding path (1 + Z.of_nat i) line r). split; [|done]. apply elem_of_scan_lines. eauto 10.
Qed.

(** C35: Nothing in a file hides a keyword.  The engine reports a rule for a file
    exactly when the bytes of its pattern occur anywhere in the file's raw bytes:
    invalid or truncated UTF-8 around it, other scripts and every kind of line break
    make no difference. *)
Theorem keyword_reported_iff path data r :
  r ∈ _STATIC_KEYWORD_PATTERNS →
  (∃ f, f ∈ scan_file path data ∧ rule_id f = kw_rule_id r) ↔ occurs (str_bytes (kw_pattern r)) data = true.
Proof. apply scan_file_reports. Qed.

(** ** From the bytes to the verdict *)

Lemma scan_files_all files clock deadline findings :
  scan_files deadline clock files = (findings, false) → findings = files ≫= λ f, scan_file f.1 f.2.
Proof.
  revert clock findings. induction files as [|[path data] files IH]; intros clock findings; cbn; [by intros [= <-]|].
  destruct (match deadline with Some _ => _ | None => _ end); [done|].
  destruct (scan_files _ _ files) as [more t] eqn:E. intros [= <- ->]. by rewrite (IH _ _ E).
Qed.

Lemma analyze_usable files deadline clock :
  usable (static_keyword_analyze files deadline clock) = true →
  er_findings (static_keyword_analyze files deadline clock) = files ≫= λ f, scan_file f.1 f.2.
Proof.
  unfold static_keyword_analyze. destruct (scan_files deadline clock files) as [findings []] eqn:E; [done|]. intros _. cbn.
  by eapply scan_files_all.
Qed.

(** The fatal trifecta, from the bytes of a package to the verdict.  If the engine
    finished, and the three words it takes for outbound requests, access to secrets
    and untrusted input occur anywhere in the files, in one file or several, the
    verdict is BLOCK at every trust tier (fail-closed when a required engine is
    missing), whatever the other engines report, unless a rule of the scan is waived. *)
Theorem keyword_trifecta_blocks exp64 ch rs p t al now mc mc' mf sid sr files deadline clock :
  GatePolicy_ok p → aggregate ch rs p mc mf = Ok sr → (mc <= 1 # 2)%Q →
  static_keyword_analyze files deadline clock ∈ rs →
  usable (static_keyword_analyze files deadline clock) = true →
  (∀ word, word ∈ ["curl http"; "os.environ"; "input("] → ∃ file, file ∈ files ∧ occurs (str_bytes word) file.2 = true) →
  (∀ f, f ∈ all_findings rs → active_waiver al now ch sid (rule_id f) = false) →
  vr_verdict (gate_decide exp64 sr p t al now mc' sid) ≠ PASS ∧
  (sr_required_ok sr = true → vr_verdict (gate_decide exp64 sr p t al now mc' sid) = BLOCK).
Proof.
  intros Hp Hagg Hmc Hin Hu Hw Hnw.
  assert (Hsig : ∀ r sgn, r ∈ _STATIC_KEYWORD_PATTERNS → kw_trifecta r = Some sgn → (1 # 2 <= kw_confidence r)%Q →
    (∃ file, file ∈ files ∧ occurs (str_bytes (kw_pattern r)) file.2 = true) → sgn ∈ signals (counted mc (all_findings rs))).
  { intros r sgn Hr Ht Hc (file & Hf & Ho). destruct (proj2 (scan_file_reports file.1 file.2 r Hr) Ho) as (f & Hfin & Hid).
    apply elem_of_signals. unfold scan_file in Hfin. apply elem_of_scan_lines in Hfin as (i & line & r' & Hi & Hr' & Hoc & ->).
    apply (rule_ids_distinct r' r) in Hid as ->; [|done..].
    exists (keyword_finding file.1 (1 + Z.of_nat i) line r). split; [|cbn; rewrite Ht; set_solver].
    apply elem_of_counted. split; [|apply qle_iff; cbn; by eapply Qle_trans].
    apply elem_of_all_findings. exists (static_keyword_analyze files deadline clock). split.
    - apply elem_of_usable_results. split_and!; [done| |done]. unfold static_keyword_analyze. by destruct (scan_files _ _ _).
    - rewrite analyze_usable by done. apply list_elem_of_bind. exists file. split; [|done].
      apply elem_of_scan_lines. eauto 10. }
  eapply blocked_unless_closed, trifecta_verdict; [exact Hp|exact Hagg|exact Hnw|].
  rewrite (ag_trifecta _ _ _ _ _ _ (aggregate_Ok _ _ _ _ _ _ Hagg)). apply bool_decide_eq_true.
  assert (Hall : ∀ i r sgn, _STATIC_KEYWORD_PATTERNS !! i = Some r → kw_trifecta r = Some sgn →
    kw_pattern r ∈ ["curl http"; "os.environ"; "input("] → qle (1 # 2) (kw_confidence r) = true →
    sgn ∈ signals (counted mc (all_findings rs))).
  { intros i r sgn Hi Ht Hin' Hc. eapply (Hsig r); [by eapply list_elem_of_lookup_2|done|by apply qle_iff|by apply Hw]. }
  intros s _. destruct s;
    [apply (Hall 2%nat _ _ eq_refl)|apply (Hall 3%nat _ _ eq_refl)|apply (Hall 1%nat _ _ eq_refl)]; first [reflexivity | by_compute | by vm_compute].
Qed.

(** ** The digest covers what is scored *)

Definition la := String.list_ascii_of_string.

(** The shape the digest relies on: no separator in the two ids, no newline in any field. *)
Definition plain_rule (items : string → string) (r : KeywordRule) : Prop :=
  colon_char ∉ la (kw_rule_id r) ∧ newline_char ∉ la (kw_rule_id r) ∧
  colon_char ∉ la (items (kw_rule_id r)) ∧ newline_char ∉ la (items (kw_rule_id r)) ∧
  newline_char ∉ la (kw_pattern r).

Definition same_scoring (items items' : string → string) (r r' : KeywordRule) : Prop :=
  kw_rule_id r = kw_rule_id r' ∧ items (kw_rule_id r) = items' (kw_rule_id r') ∧ kw_pattern r = kw_pattern r' ∧
  kw_category r = kw_category r' ∧ kw_severity r = kw_severity r' ∧ kw_trifecta r = kw_trifecta r' ∧
  (kw_confidence r == kw_confidence r')%Q.

Lemma la_inj s t : la s = la t → s = t.
Proof.
  intros E%(f_equal String.string_of_list_ascii). unfold la in E. by rewrite !String.string_of_list_ascii_of_string in E.
Qed.

Lemma app_sep_inj_last {A} (l1 l2 r1 r2 : list A) x :
  x ∉ r1 → x ∉ r2 → l1 ++ x :: r1 = l2 ++ x :: r2 → l1 = l2 ∧ r1 = r2.
Proof.
  intros H1 H2 E. apply (f_equal reverse) in E. rewrite !reverse_app, !reverse_cons, <-!app_assoc in E. cbn in E.
  apply app_sep_inj in E as [E1 E2]; [|by rewrite elem_of_reverse..]. by apply (inj reverse) in E1, E2.
Qed.

Definition line_chars (items : string → string) (r : KeywordRule) : list ascii :=
  la (kw_rule_id r) ++ colon_char :: la (items (kw_rule_id r)) ++ colon_char :: la (kw_pattern r) ++ colon_char ::
  la (category_value (kw_category r)) ++ colon_char :: la (sev_digit (kw_severity r)) ++ colon_char ::
  la (trifecta_value (kw_trifecta r)) ++ colon_char :: la (repr_float (kw_confidence r)).

Lemma rule_line_chars items r : la (rule_line items r) = line_chars items r ++ [newline_char].
Proof. unfold rule_line, line_chars, la. rewrite !list_ascii_app. cbn. repeat (rewrite <-!app_assoc; cbn). done. Qed.

Context (Hlaws : float_repr_laws repr_float).

Lemma float_chars q c : number_char c = false → c ∉ la (repr_float q).
Proof.
  intros Hc Hin. pose proof (fr_chars _ Hlaws q) as H. rewrite forallb_forall in H.
  specialize (H c (proj1 (list_elem_of_In _ _) Hin)). congruence.
Qed.

(** The values of the enumerations are distinct words without separators. *)
Lemma enum_values :
  (∀ c, Forall (λ x, x ≠ colon_char ∧ x ≠ newline_char) (la (category_value c))) ∧
  (∀ s, Forall (λ x, x ≠ colon_char ∧ x ≠ newline_char) (la (sev_digit s))) ∧
  (∀ t, Forall (λ x, x ≠ colon_char ∧ x ≠ newline_char) (la (trifecta_value t))) ∧
  (∀ c c', category_value c = category_value c' → c = c') ∧
  (∀ s s', sev_digit s = sev_digit s' → s = s') ∧
  (∀ t t', trifecta_value t = trifecta_value t' → t = t').
Proof.
  split_and!; [intros []|intros []|intros [[]|]|intros [] []|intros [] []|intros [[]|] [[]|]];
    (discriminate || reflexivity || (repeat constructor; done)).
Qed.

Lemma no_sep l x : Forall (λ y, y ≠ colon_char ∧ y ≠ newline_char) l → x = colon_char ∨ x = newline_char → x ∉ l.
Proof. rewrite Forall_forall. intros H Hx Hin. destruct (H x Hin). by destruct Hx. Qed.

Lemma line_inj items items' r r' :
  plain_rule items r → plain_rule items' r' → line_chars items r = line_chars items' r' → same_scoring items items' r r'.
Proof.
  intros (A1 & _ & A3 & _ & _) (B1 & _ & B3 & _ & _) E. unfold line_chars in E.
  destruct enum_values as (Hc & Hs & Ht & Ic & Is & It).
  apply app_sep_inj in E as [E1%la_inj E]; [|done..]. apply app_sep_inj in E as [E2%la_inj E]; [|done..].
  assert (Hshape : ∀ p c s t f : list ascii, p ++ colon_char :: c ++ colon_char :: s ++ colon_char :: t ++ colon_char :: f =
    (((p ++ colon_char :: c) ++ colon_char :: s) ++ colon_char :: t) ++ colon_char :: f)
    by (intros; by rewrite <-!app_assoc).
  rewrite !Hshape in E. apply app_sep_inj_last in E as [E E7%la_inj]; [|by apply float_chars..].
  do 3 (apply app_sep_inj_last in E as [E ?%la_inj]; [|by apply no_sep; [done|left]..]).
  apply la_inj in E. split_and!; auto. by apply (fr_value _ Hlaws).
Qed.

Lemma line_no_newline items r : plain_rule items r → newline_char ∉ line_chars items r.
Proof.
  intros (_ & A2 & _ & A4 & A5). destruct enum_values as (Hc & Hs & Ht & _). unfold line_chars.
  repeat (apply not_elem_of_app; split; [by assumption || (apply no_sep; auto)|apply not_elem_of_cons; split; [done|]]).
  by apply float_chars.
Qed.

Lemma ruleset_text_inj items items' table table' :
  Forall (plain_rule items) table → Forall (plain_rule items') table' →
  ruleset_text items table = ruleset_text items' table' → Forall2 (same_scoring items items') table table'.
Proof.
  intros H. revert table'. unfold ruleset_text.
  induction H as [|r table Hr H IH]; intros table' H' E; destruct H' as [|r' table' Hr' H']; [constructor|..].
  1, 2: apply (f_equal la) in E; cbn in E; unfold la in E; rewrite list_ascii_app in E;
    fold la in E; rewrite rule_line_chars in E; cbn in E; destruct (line_chars _ _); cbn in E; discriminate E.
  cbn in E. apply (f_equal la) in E. unfold la in E. rewrite !list_ascii_app in E. fold la in E.
  rewrite !rule_line_chars, <-!app_assoc in E. cbn in E.
  apply app_sep_inj in E as [E1 E2%la_inj]; [|by apply line_no_newline..]. constructor; [by apply line_inj|by apply IH].
Qed.

(** INV-7, the rule table behind the cache.  The digest that enters the cache key
    changes with any field that is scored: tables with the same digest agree rule by
    rule on id, catalog item, pattern, category, severity, trifecta signal and
    confidence, or are a SHA-256 collision. *)
Theorem ruleset_digest_covers_scoring items items' table table' :
  Forall (plain_rule items) table → Forall (plain_rule items') table' →
  ruleset_digest items table = ruleset_digest items' table' →
  Forall2 (same_scoring items items') table table' ∨
  (ruleset_text items table ≠ ruleset_text items' table' ∧
   sha256 (str_bytes (ruleset_text items table)) = sha256 (str_bytes (ruleset_text items' table'))).
Proof.
  intros H H' E. destruct (decide (ruleset_text items table = ruleset_text items' table')) as [Et|Et]; [left|by right].
  by apply ruleset_text_inj.
Qed.

End engine.

(** ** The doubles: [MockLLMEngine] and [FailingEngine] *)

Definition mock_llm_metadata : EngineMetadata :=
  mkEngineMetadata "mock-llm" "0.0.0" "n/a" [SEMANTIC_LLM] false true false.

Definition mock_llm_analyze (canned_findings : list Finding) (files : Files) (deadline : option Q) : EngineResult :=
  mkEngineResult mock_llm_metadata canned_findings OK MODE_STATIC true None.

Definition failing_analyze (metadata : EngineMetadata) (failure_status : EngineStatus) (error_message : string)
    (files : Files) (deadline : option Q) : EngineResult :=
  mkEngineResult metadata [] failure_status MODE_STATIC false (Some error_message).

(** ** Samples *)
Module KeywordSamples.
Import Samples JsonSamples.

Definition no_digest (b : bytes) : string := "".

(** Two files: a shell script with a truncated character, and a Python file. *)
Definition shell : bytes := [35; 226; 130] ++ str_bytes "curl http://x" ++ [13; 10; 255].
Definition python : bytes := str_bytes "x = input()" ++ [12] ++ str_bytes "print(os.environ)".
Definition package : Files := [([97], shell); ([98], python)].

Definition floor_result : EngineResult := static_keyword_analyze no_digest fraction package (Some 5%Q) (λ _, 5%Q).
Definition engines_run : list EngineResult := [engine "floor" OK []; floor_result].

Lemma keyword_reported_iff_witness :
  ∃ f, f ∈ scan_file no_digest [97] shell ∧ rule_id f = "static.curl_http".
Proof.
  apply (keyword_reported_iff no_digest [97] shell
           (mkKeywordRule "curl http" "static.curl_http" NETWORK_INTEL MEDIUM (Some EXTERNAL_EGRESS)
             "通过 curl 向 http(s) 端点发起出站请求" (1 # 2))); [right; left|vm_compute; reflexivity].
Defined.

Lemma keyword_trifecta_blocks_witness :
  vr_verdict (gate_decide exp_step (scanned engines_run 1) policy INTERNAL [waiver "z"] 0 0 None) = BLOCK.
Proof.
  apply (keyword_trifecta_blocks no_digest fraction exp_step "h" engines_run policy INTERNAL [waiver "z"] 0 0 0 1 None
           (scanned engines_run 1) package (Some 5%Q) (λ _, 5%Q) policy_ok).
  - vm_compute. reflexivity.
  - done.
  - right. left.
  - reflexivity.
  - apply Forall_forall. repeat constructor;
      [exists ([97], shell)|exists ([98], python)|exists ([98], python)]; (split; [by repeat constructor|vm_compute; reflexivity]).
  - apply Forall_forall. vm_compute. repeat constructor.
  - vm_compute. reflexivity.
Defined.

Lemma shipped_rules_plain : Forall (plain_rule keyword_test_item) _STATIC_KEYWORD_PATTERNS.
Proof. repeat (apply Forall_cons; split; [unfold plain_rule; split_and!; by_compute|]). by apply Forall_nil. Qed.

Definition upgraded : list KeywordRule :=
  [mkKeywordRule "eval(" "static.eval_call" CODE CRITICAL None "检测到 eval() 调用" (1 # 2)].

(** A severity upgrade alone changes the digest's input. *)
Lemma ruleset_digest_covers_scoring_witness :
  Forall2 (same_scoring keyword_test_item keyword_test_item) upgraded upgraded ∨
  (ruleset_text fraction keyword_test_item upgraded ≠ ruleset_text fraction keyword_test_item upgraded ∧
   no_digest (str_bytes (ruleset_text fraction keyword_test_item upgraded)) =
   no_digest (str_bytes (ruleset_text fraction keyword_test_item upgraded))).
Proof.
  apply (ruleset_digest_covers_scoring no_digest fraction fraction_laws keyword_test_item keyword_test_item upgraded upgraded);
    [..|reflexivity]; (apply Forall_cons; split; [unfold plain_rule; split_and!; by_compute|by apply Forall_nil]).
Defined.

Example severity_upgrade_changes_the_input :
  ruleset_text fraction keyword_test_item upgraded ≠ ruleset_text fraction keyword_test_item (take 1 _STATIC_KEYWORD_PATTERNS).
Proof. vm_compute. discriminate. Qed.
End KeywordSamples.
