(* ===== verification/Detectors.v ===== *)
(** * In-house detectors: file types and declared permissions

    [detectors/_engine_base.py], [detectors/file_type.py],
    [detectors/skill_permissions.py] and [libs/common/frontmatter.py].  A package is
    the dict of its paths and contents.  SHA-256, [repr], the text of a float,
    [str.lower] outside ASCII and the YAML loader are parameters.  A string a manifest
    declares is held as UTF-8; a byte that is no part of a sequence stands for a lone
    surrogate, which does not encode. *)

From S2P Require Import Prelude Float64 Models Scoring Gate GateSafety Canonical Lifecycle Unpack Adapter Json JsonText PyText Package Access Keyword.
From Stdlib Require Import QArith Ascii.
Open Scope string_scope.
Open Scope list_scope.
Open Scope Z_scope.

(** ** [run_with_deadline] *)

(** [scan]: [None] when the detector raised. *)
Definition run_with_deadline (metadata : EngineMetadata) (scan : Files → option (list Finding)) (files : Files)
    (deadline : option Q) (now : Q) : option EngineResult :=
  if match deadline with Some d => qlt d now | None => false end
  then Some (mkEngineResult metadata [] TIMEOUT MODE_STATIC false (Some "deadline exceeded"))
  else findings ← scan files; Some (mkEngineResult metadata findings OK MODE_STATIC false None).

(** ** File types: [file_type.py] *)

Record Magic := mkMagic {
  mg_rule_id : string;
  mg_bytes : bytes;
  mg_severity : Severity;
  mg_description : string;
}.

Definition _ALLOWED_EXTENSIONS : list string :=
  [".adoc"; ".babelrc"; ".bash"; ".bmp"; ".c"; ".cc"; ".cfg"; ".cjs"; ".conf"; ".cpp"; ".cs"; ".css"; ".csv";
   ".cts"; ".dockerignore"; ".dtd"; ".editorconfig"; ".env"; ".eot"; ".eslintrc"; ".gif"; ".gitattributes";
   ".gitignore"; ".go"; ".h"; ".hpp"; ".htm"; ".html"; ".ico"; ".ini"; ".java"; ".jpeg"; ".jpg"; ".js"; ".json";
   ".json5"; ".jsonc"; ".jsx"; ".kt"; ".less"; ".lock"; ".lua"; ".map"; ".md"; ".mdx"; ".mjs"; ".mts"; ".npmrc";
   ".nvmrc"; ".otf"; ".pdf"; ".php"; ".pl"; ".png"; ".prettierrc"; ".properties"; ".py"; ".pyi"; ".r"; ".rb";
   ".rs"; ".rst"; ".scala"; ".scss"; ".sh"; ".sql"; ".svg"; ".swift"; ".toml"; ".ts"; ".tsv"; ".tsx"; ".ttf";
   ".txt"; ".webp"; ".woff"; ".woff2"; ".xml"; ".xsd"; ".yaml"; ".yml"; ".zsh"].

Definition _UNEXPECTED_EXTENSION_RISK : string :=
  "Skill 包内出现了不在允许清单内的文件类型。正常 Skill 应只包含源码、文档和少量配置/资源文件；未预期的扩展名可能是被恶意植入的可执行文件、脚本或数据外泄载荷，伪装成普通文件以规避审查，建议人工核查该文件的实际用途。".

Definition _MAGIC_SIGNATURE_RISK : string :=
  "该文件的真实内容（按文件头魔数判断）与其声称的扩展名不一致，是攻击者常用的伪装手法——将可执行文件/二进制程序改名为看似无害的扩展名（如 .txt/.png）以规避基于扩展名的审查或诱导用户直接双击运行；一旦被执行可能导致任意代码执行、后门植入等严重后果，建议人工核查该文件的真实来源与用途。".

Definition file_test_item (rule_id : string) : string :=
  if String.eqb rule_id "file.elf_binary" then "FILE-01"
  else if String.eqb rule_id "file.pe_binary" then "FILE-01"
  else if String.eqb rule_id "file.macho_binary" then "FILE-01"
  else if String.eqb rule_id "file.macho_or_java_class" then "FILE-01"
  else if String.eqb rule_id "file.shebang_script" then "FILE-01"
  else if String.eqb rule_id "file.unexpected_extension" then "FILE-02"
  else "".

Definition _MAGIC_SIGNATURE_CONFIDENCE : Q := rnd64 (95 # 100).
Definition _UNEXPECTED_EXTENSION_SEVERITY : Severity := LOW.
Definition _UNEXPECTED_EXTENSION_CONFIDENCE : Q := rnd64 (6 # 10).

Definition _MAGIC_SIGNATURES : list Magic :=
  [mkMagic "file.elf_binary" [127; 69; 76; 70] CRITICAL "ELF 可执行文件/库";
   mkMagic "file.pe_binary" [77; 90] CRITICAL "Windows PE 可执行文件";
   mkMagic "file.macho_binary" [254; 237; 250; 206] CRITICAL "Mach-O 可执行文件（32 位）";
   mkMagic "file.macho_binary" [254; 237; 250; 207] CRITICAL "Mach-O 可执行文件（64 位）";
   mkMagic "file.macho_binary" [206; 250; 237; 254] CRITICAL "Mach-O 可执行文件（32 位，字节序反转）";
   mkMagic "file.macho_binary" [207; 250; 237; 254] CRITICAL "Mach-O 可执行文件（64 位，字节序反转）";
   mkMagic "file.macho_or_java_class" [202; 254; 186; 190] HIGH "Mach-O 通用二进制文件或 Java .class 文件";
   mkMagic "file.shebang_script" [35; 33] MEDIUM "可执行脚本（含 shebang）"].

(** [path.rsplit(sep, 1)[-1]]: what follows the last separator. *)
Fixpoint after_last (sep : Z) (s : points) : points :=
  match s with
  | [] => []
  | c :: s' => if bool_decide (sep ∈ s') then after_last sep s' else if c =? sep then s' else c :: s'
  end.

Section file_type.
Variable sha256 : bytes → string.
Variable py_repr : string → string.
Variable repr_float : Q → string.
Variable py_lower : points → points.

Definition magic_line (m : Magic) : bytes :=
  str_bytes (mg_rule_id m) ++ str_bytes ":" ++ mg_bytes m ++
  str_bytes (":" +:+ sev_digit (mg_severity m) +:+ ":" +:+ repr_float _MAGIC_SIGNATURE_CONFIDENCE +:+ ":"
             +:+ file_test_item (mg_rule_id m) +:+ newline).

Definition file_type_metadata : EngineMetadata :=
  mkEngineMetadata "inhouse-file-type" "1.0.0"
    (sha256 (str_bytes ("category:" +:+ category_value FILE_PACKAGE +:+ newline) ++ (_MAGIC_SIGNATURES ≫= magic_line) ++
       str_bytes ("file.unexpected_extension:" +:+ sev_digit _UNEXPECTED_EXTENSION_SEVERITY +:+ ":"
                  +:+ repr_float _UNEXPECTED_EXTENSION_CONFIDENCE +:+ ":" +:+ file_test_item "file.unexpected_extension" +:+ newline) ++
       str_bytes (join "," (sort_by str_le _ALLOWED_EXTENSIONS))))
    [STATIC] false false true.

Definition _extension_of (path : points) : points :=
  let name := after_last slash path in
  if bool_decide (dot ∈ name) then dot :: py_lower (after_last dot name) else [].

Definition or_text (ext : points) (text : string) : string := match ext with [] => text | _ => text_of ext end.

Definition extension_finding (path ext : points) (data : bytes) : Finding :=
  mkFinding "file.unexpected_extension" (file_test_item "file.unexpected_extension") FILE_PACKAGE
    ("非预期的文件类型：" +:+ or_text ext "（无扩展名）") _UNEXPECTED_EXTENSION_SEVERITY _UNEXPECTED_EXTENSION_CONFIDENCE
    "inhouse-file-type" STATIC ∅ (Some (text_of path)) None
    (match data with [] => None | _ => Some (sha256 (take 64 data)) end)
    (_UNEXPECTED_EXTENSION_RISK +:+ "（实际扩展名：" +:+ or_text ext "（无扩展名）" +:+ "）").

Definition magic_finding (path ext : points) (data : bytes) (m : Magic) : Finding :=
  mkFinding (mg_rule_id m) (file_test_item (mg_rule_id m)) FILE_PACKAGE
    ("通过文件头魔数识别出：" +:+ mg_description m) (mg_severity m) _MAGIC_SIGNATURE_CONFIDENCE
    "inhouse-file-type" STATIC ∅ (Some (text_of path)) None (Some (sha256 (take 64 data)))
    (_MAGIC_SIGNATURE_RISK +:+ "（文件头魔数识别为：" +:+ mg_description m +:+ "，声称的扩展名为 "
       +:+ py_repr (or_text ext "（无）") +:+ "）").

Definition file_type_scan_file (path : points) (data : bytes) : list Finding :=
  let ext := _extension_of path in
  (if bool_decide (ext ∈ map str_bytes _ALLOWED_EXTENSIONS) then [] else [extension_finding path ext data]) ++
  match find (λ m, starts_with (mg_bytes m) data) _MAGIC_SIGNATURES with
  | Some m => [magic_finding path ext data m]
  | None => []
  end.

Definition file_type_scan (files : Files) : list Finding := files ≫= λ f, file_type_scan_file f.1 f.2.

Definition file_type_analyze (files : Files) (deadline : option Q) (now : Q) : option EngineResult :=
  run_with_deadline file_type_metadata (λ files, Some (file_type_scan files)) files deadline now.
End file_type.

(** ** Frontmatter: [libs/common/frontmatter.py] *)

Definition _MAX_FRONTMATTER_BYTES : Z := 64 * 1024.

(** [text.split(sep, 1)[0]], or [None] when the separator does not occur. *)
Fixpoint before_first (sep text : bytes) : option bytes :=
  if starts_with sep text then Some []
  else match text with [] => None | c :: text' => cons c <$> before_first sep text' end.

Section frontmatter.
(** The loader without aliases on a block's text; [None] when it raises. *)
Variable yaml_load : string → option json.

(** UTF-8 keeps [splits]: the text is its bytes. *)
Definition parse_frontmatter (data : bytes) : option (list (string * json)) :=
  if negb (starts_with (str_bytes "---") data) then None
  else
    text ← decode_strict data;
    before ← before_first (10 :: str_bytes "---") (str_bytes text);
    let block := drop 3 before in
    if _MAX_FRONTMATTER_BYTES <? Z.of_nat (length block) then None
    else match yaml_load (string_of_bytes block) with
         | Some (JObj fields) => Some fields
         | _ => None
         end.
End frontmatter.

(** ** Declared permissions: [skill_permissions.py] *)

Definition _EXECUTION_TOOLS : list string := ["Bash"; "Execute"; "Shell"; "Run"].
Definition _NETWORK_TOOLS : list string := ["WebFetch"; "WebSearch"; "Fetch"; "HttpRequest"].

Definition _ROOT_MANIFEST_RESOLUTION_VERSION : string :=
  "skill_package.root_skill_md_path-v2:single-shared-wrapper+structural-dir-exclusion+root-metadata-tolerance".

Definition perm_test_item (rule_id : string) : string :=
  if String.eqb rule_id "perm.dangerous_tool_combination" then "PERM-05"
  else if String.eqb rule_id "perm.unrestricted_bash" then "PERM-05"
  else if String.eqb rule_id "perm.undeclared_permissions" then "PERM-04"
  else if String.eqb rule_id "perm.malformed_frontmatter" then "PERM-04"
  else "".

Definition perm_severity (rule_id : string) : Severity :=
  if String.eqb rule_id "perm.dangerous_tool_combination" then HIGH
  else if String.eqb rule_id "perm.unrestricted_bash" then MEDIUM
  else LOW.

Definition perm_confidence : Q := rnd64 (9 # 10).

Definition perm_risk (rule_id : string) : string :=
  if String.eqb rule_id "perm.dangerous_tool_combination" then "SKILL.md 同时声明了命令执行类工具与网络访问类工具。二者单独存在都可能是正当需求，但组合在一起构成完整的数据外泄链路：先在宿主机上读取或收集数据，再直接发往外部端点，全程不需要任何额外落地文件，因此也不会被针对文件写入的检测发现。"
  else if String.eqb rule_id "perm.unrestricted_bash" then "SKILL.md 声明了不带任何参数约束的命令执行权限。Agent 据此可执行任意命令，该 Skill 的实际能力边界完全取决于其运行时提示词内容，静态审查无法界定。受约束的写法（如 `Bash(git status)`）能把权限收敛到具体命令。"
  else if String.eqb rule_id "perm.undeclared_permissions" then "该 Skill 包含可执行脚本目录，但 SKILL.md 未声明任何权限。缺少声明意味着无法在准入阶段按最小权限原则审查它——审查者无从判断这些脚本预期需要什么能力，也无法在运行时对其做任何收敛（FR-PAR-013 要求记录声明的权限供门禁使用）。"
  else if String.eqb rule_id "perm.malformed_frontmatter" then "SKILL.md 的 frontmatter 无法解析为合法映射。无法解析即无法审查其声明的权限，本系统对这部分内容不具备可见性，需人工确认该文件的来源与完整性。"
  else "".

(** [entry.split("(", 1)[0].strip()]. *)
Definition _base_tool (entry : string) : string :=
  Lifecycle.strip (string_of_bytes (cut_at 40 (str_bytes entry)).1).

Definition has_paren (entry : string) : bool := (cut_at 40 (str_bytes entry)).2.

(** [text.encode("utf-8")]. *)
Definition encodes (s : string) : bool := forallb scalar (code_points s).

Definition strings_of (l : list json) : list string := omap (λ v, match v with JStr s => Some s | _ => None end) l.

Section permissions.
Variable sha256 : bytes → string.
Variable repr_float : Q → string.
Variable yaml_load : string → option json.

Definition perm_metadata : EngineMetadata :=
  let rule rule_id := rule_id +:+ ":" +:+ perm_test_item rule_id +:+ ":" +:+ category_value PERMISSION +:+ ":"
                      +:+ sev_digit (perm_severity rule_id) +:+ ":" +:+ repr_float perm_confidence +:+ newline in
  mkEngineMetadata "inhouse-skill-permissions" "1.0.0"
    (sha256 (str_bytes (
       foldr String.append "" (map rule (sort_by str_le ["perm.dangerous_tool_combination"; "perm.unrestricted_bash";
                                                         "perm.undeclared_permissions"; "perm.malformed_frontmatter"]))
       +:+ foldr String.append "" (map (λ tool, tool +:+ newline) (sort_by str_le (_EXECUTION_TOOLS ++ _NETWORK_TOOLS)))
       +:+ foldr String.append "" (map (λ key, "permission_key:" +:+ key +:+ newline) _PERMISSION_KEYS)
       +:+ _ROOT_MANIFEST_RESOLUTION_VERSION +:+ newline)))
    [STATIC] false false true.

(** [None]: [evidence.encode] raised. *)
Definition perm_finding (rule_id : string) (path : points) (title evidence : string) : option Finding :=
  if encodes evidence then
    Some (mkFinding rule_id (perm_test_item rule_id) PERMISSION title (perm_severity rule_id) perm_confidence
      "inhouse-skill-permissions" STATIC ∅ (Some (text_of path)) None (Some (sha256 (str_bytes evidence))) (perm_risk rule_id))
  else None.

Definition perm_scan (files : Files) : option (list Finding) :=
  let skill_md_path := root_skill_md_path (map fst files) in
  let root_data := snd <$> find (λ f, bool_decide (f.1 = skill_md_path)) files in
  let has_scripts := existsb (λ f, starts_with (str_bytes "scripts/") f.1 || occurs (str_bytes "/scripts/") f.1) files in
  let report rule title evidence := perm_finding rule skill_md_path title evidence in
  let alone rule title := if has_scripts then f ← report rule title (text_of skill_md_path); Some [f] else Some [] in
  match root_data with
  | None => alone "perm.undeclared_permissions" "缺少根目录 SKILL.md，含可执行脚本但未声明任何权限"
  | Some data =>
      match parse_frontmatter yaml_load data with
      | None => alone "perm.malformed_frontmatter" "SKILL.md frontmatter 无法解析"
      | Some frontmatter =>
          let entries := strings_of (declared_tools frontmatter) in
          match entries with
          | [] => alone "perm.undeclared_permissions" "含可执行脚本但未声明任何权限"
          | _ =>
              let bases : gset string := list_to_set (map _base_tool entries) in
              let names (l : list string) := existsb (λ b, bool_decide (b ∈ l)) (elements bases) in
              combination ← (if names _EXECUTION_TOOLS && names _NETWORK_TOOLS then
                               f ← report "perm.dangerous_tool_combination" "同时声明命令执行与网络访问权限"
                                     (join "," (sort_by str_le (elements bases)));
                               Some [f]
                             else Some []);
              let unscoped := sort_by str_le
                (base.filter (λ e, bool_decide (_base_tool e ∈ _EXECUTION_TOOLS) && negb (has_paren e) = true) entries) in
              match unscoped with
              | [] => Some combination
              | _ => f ← report "perm.unrestricted_bash" "声明了不带参数约束的命令执行权限" (join "," unscoped);
                     Some (combination ++ [f])
              end
          end
      end
  end.

Definition perm_analyze (files : Files) (deadline : option Q) (now : Q) : option EngineResult :=
  run_with_deadline perm_metadata perm_scan files deadline now.
End permissions.

(** ** Executables under any name *)

(** ELF, PE and the four byte orders of Mach-O. *)
Definition executable_headers : list bytes :=
  [[127; 69; 76; 70]; [77; 90]; [254; 237; 250; 206]; [254; 237; 250; 207]; [206; 250; 237; 254]; [207; 250; 237; 254]].

Definition executable (data : bytes) : Prop := ∃ header, header ∈ executable_headers ∧ starts_with header data = true.

Lemma executable_signature data :
  executable data ↔ ∃ m, find (λ m, starts_with (mg_bytes m) data) _MAGIC_SIGNATURES = Some m ∧ mg_severity m = CRITICAL.
Proof.
  unfold executable, executable_headers, _MAGIC_SIGNATURES. split.
  - intros (h & Hh & Hs). rewrite !elem_of_cons, elem_of_nil in Hh.
    apply starts_with_app in Hs as [rest ->]. destruct Hh as [->|[->|[->|[->|[->|[->|[]]]]]]]; eexists; (split; reflexivity).
  - intros (m & Hf & Hc). pose proof (find_some _ _ Hf) as [Hin Hs].
    exists (mg_bytes m). split; [|done]. clear Hf Hs. cbn [In] in Hin.
    destruct Hin as [<-|[<-|[<-|[<-|[<-|[<-|[<-|[<-|[]]]]]]]]]; try discriminate Hc; by_compute.
Qed.

Section executables.
Context (sha256 : bytes → string) (py_repr : string → string) (repr_float : Q → string) (py_lower : points → points).

(** An executable is reported as CRITICAL under any name.  A file gets a CRITICAL
    finding exactly when its first bytes are the header of an ELF, PE or Mach-O
    file: neither the claimed extension nor the order of the signature table, where
    the first match wins, hides one. *)
Theorem executables_are_critical path data :
  (∃ f, f ∈ file_type_scan_file sha256 py_repr py_lower path data ∧ severity f = CRITICAL) ↔ executable data.
Proof.
  rewrite executable_signature. unfold file_type_scan_file. split.
  - intros (f & Hf & Hc). apply elem_of_app in Hf as [Hf|Hf].
    + case_bool_decide; [by apply elem_of_nil in Hf|]. apply list_elem_of_singleton in Hf as ->. discriminate Hc.
    + destruct (find _ _) as [m|]; [|by apply elem_of_nil in Hf]. apply list_elem_of_singleton in Hf as ->. eauto.
  - intros (m & -> & Hc). exists (magic_finding sha256 py_repr path (_extension_of py_lower path) data m). split; [|exact Hc].
    apply elem_of_app. right. by apply list_elem_of_singleton.
Qed.

(** From the header of one file to the verdict.  A package that carries an
    executable in any file, whatever its name, never passes at any trust tier once
    the detector has run, unless a header rule is waived. *)
Theorem executable_never_passes exp64 ch rs p t al now mf sid sr files deadline clock r file :
  GatePolicy_ok p → Forall Finding_ok (all_findings rs) → aggregate ch rs p 0 mf = Ok sr →
  file_type_analyze sha256 py_repr repr_float py_lower files deadline clock = Some r → r ∈ rs → usable r = true →
  file ∈ files → executable file.2 →
  (∀ m, m ∈ _MAGIC_SIGNATURES → active_waiver al now ch sid (mg_rule_id m) = false) →
  vr_verdict (gate_decide exp64 sr p t al now 0 sid) ≠ PASS.
Proof.
  intros Hp Hok Hagg Hrun Hr Hu Hfile Hex Hnw Hpass.
  destruct (proj1 (executable_signature file.2) Hex) as (m & Em & Hc).
  pose (f := magic_finding sha256 py_repr file.1 (_extension_of py_lower file.1) file.2 m).
  destruct (passed_finding_below exp64 ch rs p t al now mf sid sr f Hp Hok Hagg Hpass) as [Hb _]; [|by apply Hnw, list_elem_of_In, (find_some _ _ Em)|].
  - unfold file_type_analyze, run_with_deadline in Hrun.
    destruct (match deadline with Some _ => _ | None => _ end); injection Hrun as <-; [discriminate Hu|].
    apply elem_of_all_findings. eexists. split; [apply elem_of_usable_results; split_and!; [exact Hr|done|done]|].
    apply list_elem_of_bind. exists file. split; [|done]. unfold file_type_scan_file. rewrite Em.
    apply elem_of_app. right. apply list_elem_of_singleton. reflexivity.
  - change (severity f) with (mg_severity m) in Hb. rewrite Hc in Hb. by destruct (block_threshold p t).
Qed.
End executables.

(** ** What a package without permission findings has declared *)

Section declared.
Context (sha256 : bytes → string) (yaml_load : string → option json).

Definition has_scripts (files : Files) : bool :=
  existsb (λ f, starts_with (str_bytes "scripts/") f.1 || occurs (str_bytes "/scripts/") f.1) files.

(** The tools that the manifest at the package root declares. *)
Definition manifest_tools (files : Files) : list string :=
  match snd <$> find (λ f, bool_decide (f.1 = root_skill_md_path (map fst files))) files with
  | None => []
  | Some data => match parse_frontmatter yaml_load data with
                 | None => []
                 | Some frontmatter => strings_of (declared_tools frontmatter)
                 end
  end.

Lemma existsb_bases entries (l : list string) :
  existsb (λ b, bool_decide (b ∈ l)) (elements (list_to_set (map _base_tool entries) : gset string)) = true ↔
  ∃ e, e ∈ entries ∧ _base_tool e ∈ l.
Proof.
  rewrite existsb_true. setoid_rewrite elem_of_elements. setoid_rewrite elem_of_list_to_set. setoid_rewrite bool_decide_eq_true.
  split.
  - intros (b & (e & -> & He)%list_elem_of_fmap & Hb). eauto.
  - intros (e & He & Hb). exists (_base_tool e). split; [|done]. apply list_elem_of_fmap. eauto.
Qed.

Lemma unscoped_nil entries :
  sort_by str_le (base.filter (λ e, bool_decide (_base_tool e ∈ _EXECUTION_TOOLS) && negb (has_paren e) = true) entries) = [] ↔
  ∀ e, e ∈ entries → _base_tool e ∈ _EXECUTION_TOOLS → has_paren e = true.
Proof.
  set (l := base.filter _ entries). transitivity (l = []).
  { split; [|intros ->; done]. intros E. apply Permutation_nil. rewrite <-E. apply sort_by_perm. }
  split.
  - intros E e He Hb. destruct (has_paren e) eqn:Ep; [done|]. assert (Hin : e ∈ l); [|by rewrite E in Hin; apply elem_of_nil in Hin].
    apply list_elem_of_filter. split; [|done]. by rewrite bool_decide_true, Ep by done.
  - intros H. destruct l as [|e l'] eqn:E; [done|]. assert (Hin : e ∈ l) by (rewrite E; left).
    apply list_elem_of_filter in Hin as [[Hb%bool_decide_eq_true Hp]%andb_true_iff He]. by rewrite (H e He Hb) in Hp.
Qed.

(** What the absence of a permission finding means.  The detector reports nothing
    exactly when the manifest at the package root declares tools, no two of which
    combine command execution with network access and every execution tool of which
    carries a scope, or when nothing is declared and there are no scripts: a manifest
    anywhere else, or one that cannot be read, does not count as a declaration. *)
Theorem no_permission_finding_iff files :
  perm_scan sha256 yaml_load files = Some [] ↔
  match manifest_tools files with
  | [] => has_scripts files = false
  | entries =>
      (∀ e, e ∈ entries → _base_tool e ∈ _EXECUTION_TOOLS → has_paren e = true) ∧
      ¬ ((∃ e, e ∈ entries ∧ _base_tool e ∈ _EXECUTION_TOOLS) ∧ ∃ e, e ∈ entries ∧ _base_tool e ∈ _NETWORK_TOOLS)
  end.
Proof.
  assert (Halone : ∀ rule title path, (if has_scripts files then f ← perm_finding sha256 rule path title (text_of path); Some [f] else Some []) =
    Some [] ↔ has_scripts files = false).
  { intros rule title path. destruct (has_scripts files); [|done]. destruct (perm_finding _ _ _ _ _); done. }
  unfold perm_scan, manifest_tools. fold (has_scripts files).
  destruct (snd <$> find _ files) as [data|]; [|apply Halone].
  destruct (parse_frontmatter yaml_load data) as [fm|]; [|apply Halone].
  destruct (strings_of (declared_tools fm)) as [|e0 es]; [apply Halone|]. set (entries := e0 :: es).
  rewrite <-unscoped_nil, <-!existsb_bases, <-andb_true_iff.
  destruct (existsb _ _ && existsb _ _).
  - split; [|by intros [_ []]]. destruct (perm_finding _ "perm.dangerous_tool_combination" _ _ _) as [f|]; cbn [mbind option_bind]; [|by intros [=]].
    destruct (sort_by _ _) as [|u us]; [by intros [=]|]. destruct (perm_finding _ _ _ _ _); cbn; by intros [=].
  - cbn [mbind option_bind]. destruct (sort_by _ _) as [|u us]; [naive_solver|].
    split; [|by intros [? _]]. destruct (perm_finding _ _ _ _ _); cbn; by intros [=].
Qed.
End declared.

Module DetectorSamples.
Import Samples.

Definition no_digest (b : bytes) : string := "0".
Definition same_text (s : string) : string := s.
Definition no_float (q : Q) : string := "".

(** A PE header under the name of a text file. *)
Definition disguised : Files := [(str_bytes "notes.txt", [77; 90; 144; 0])].

Definition disguised_run : EngineResult :=
  mkEngineResult (file_type_metadata no_digest no_float) (file_type_scan no_digest same_text Package.lower disguised)
    OK MODE_STATIC false None.
Definition detectors_run : list EngineResult := [engine "floor" OK []; disguised_run].

Lemma executable_never_passes_witness :
  vr_verdict (gate_decide exp_step (scanned detectors_run 10) policy INTERNAL [waiver "z"] 0 0 None) ≠ PASS.
Proof.
  apply (executable_never_passes no_digest same_text no_float Package.lower exp_step "h" detectors_run policy INTERNAL [waiver "z"]
           0 10 None (scanned detectors_run 10) disguised (Some 5%Q) 5%Q disguised_run
           (str_bytes "notes.txt", [77; 90; 144; 0]) policy_ok).
  - apply Forall_cons. split; [split_and!; [vm_compute; done..|intros h [= <-]; reflexivity]|by apply Forall_nil].
  - vm_compute. reflexivity.
  - vm_compute. reflexivity.
  - right. left.
  - reflexivity.
  - left.
  - exists [77; 90]. split; [by_compute|reflexivity].
  - apply Forall_forall. vm_compute. repeat constructor.
Defined.

(** The extension of the name changes nothing; the last dot counts, and a dot file is its own extension. *)
Example extensions :
  map (_extension_of Package.lower) [str_bytes "a/b.tar.GZ"; str_bytes ".gitignore"; str_bytes "a.b/Makefile"] =
  [str_bytes ".gz"; str_bytes ".gitignore"; []].
Proof. vm_compute. reflexivity. Qed.

(** A loader that reads one declaration. *)
Definition loads (tools : list json) (block : string) : option json := Some (JObj [("allowed-tools", JList tools)]).
Definition manifest : bytes := str_bytes "---" ++ [10] ++ str_bytes "x" ++ [10] ++ str_bytes "---".
Definition skill : Files := [(str_bytes "SKILL.md", manifest); (str_bytes "scripts/run.sh", [])].

Definition rules_of (tools : list json) : option (list string) :=
  map rule_id <$> perm_scan no_digest (loads tools) skill.

Example scoped_tools_are_clean : rules_of [JStr "Bash(git status)"; JStr "Read"; JNum 3] = Some [].
Proof. vm_compute. reflexivity. Qed.

Example unscoped_and_combined :
  rules_of [JStr " Bash"; JStr "WebFetch"] = Some ["perm.dangerous_tool_combination"; "perm.unrestricted_bash"].
Proof. vm_compute. reflexivity. Qed.

(** A declared tool with a lone surrogate, which a YAML escape can spell: the digest of
    the evidence cannot be taken and the required detector raises. *)
Example surrogate_tool_raises :
  rules_of [JStr "Bash"; JStr (string_of_bytes ([255] ++ str_bytes "(")); JStr "Fetch"] = None.
Proof. vm_compute. reflexivity. Qed.
End DetectorSamples.
