(* ===== verification/McpConfig.v ===== *)
(** * Bundled MCP configurations

    [engine_runner/detectors/mcp_config.py]: a package may bring its own [.mcp.json],
    which decides the servers an agent launches.  The detector reads the declarations and
    reports launch lines with shell syntax, endpoints that are not local, environment
    variables that look like credentials, and files it cannot read.  [json.loads] is that
    of JsonRead.v, the patterns are compiled and matched as Regex.v has it; [urlsplit],
    [ipaddress], SHA-256, the text of a float and the character database are parameters. *)

From S2P Require Import Prelude Float64 Models Scoring Gate GateSafety Canonical Unpack Adapter Json JsonText PyText JsonRead Regex Package Access Keyword Detectors TextDetectors.
From Stdlib Require Import QArith Ascii.
Open Scope string_scope.
Open Scope list_scope.
Open Scope Z_scope.

(** ** The tables *)

Definition _SHELL_METACHARS : string := "[;|`<>]|&&|(?<!&)&(?!&)|\$\(|\bsh\s+-c\b|\bbash\s+-c\b".

Definition _SENSITIVE_ENV : string :=
  "(TOKEN|SECRET|PASSWORD|PASSWD|CREDENTIAL|_KEY$|APIKEY|API_KEY|^AWS_|^AZURE_|^GCP_)".

Definition _LOCAL_HOSTNAMES : list string := ["localhost"].
Definition _HOST_CLASSIFICATION_VERSION : string := "ipaddress-v2:loopback|private|link_local+localhost".

Definition mcp_risk (rule_id : string) : string :=
  if String.eqb rule_id "mcp.command_injection_server" then "随包 .mcp.json 声明的 MCP server 启动命令中含 shell 元字符或 `sh -c` 形式。Agent 启动该 server 时会以 shell 解释这条命令，攻击者可借此在宿主机上执行任意指令——这条路径不经过 Skill 的脚本目录，因此绕开了针对 scripts/ 的所有检测。"
  else if String.eqb rule_id "mcp.remote_server_endpoint" then "随包 .mcp.json 指向一个非本机的 MCP server 端点。Agent 会把工具调用连同其上下文发往该端点，而端点内容与工具描述由对方控制，可用于工具描述投毒或数据外泄；在要求零外网连接的部署中，这也直接违反网络边界约束。"
  else if String.eqb rule_id "mcp.excessive_env_passthrough" then "随包 .mcp.json 把疑似凭据的环境变量透传给 MCP server 进程。该 server 由 Skill 自带、不受本系统信任，拿到 token/密钥后可在本系统的检测视野之外使用它们。"
  else if String.eqb rule_id "mcp.malformed_config" then "随包 .mcp.json 无法被解析为合法的 MCP 配置。无法解析意味着无法审查其中声明了哪些 server、以什么权限运行——本系统对这部分内容不具备可见性，需人工确认该文件的来源与意图。"
  else "".

Definition _MAX_CONFIG_BYTES : Z := 1 * 1024 * 1024.

Definition mcp_test_item (rule_id : string) : string * DetectionCategory :=
  if String.eqb rule_id "mcp.command_injection_server" then ("CODE-01", CODE)
  else if String.eqb rule_id "mcp.remote_server_endpoint" then ("MCP-04", BUNDLED_COMPONENT)
  else if String.eqb rule_id "mcp.excessive_env_passthrough" then ("CRED-04", DATA_CREDENTIAL)
  else ("GEN-01", BUNDLED_COMPONENT).

Definition mcp_severity (rule_id : string) : Severity :=
  if String.eqb rule_id "mcp.command_injection_server" then HIGH
  else if String.eqb rule_id "mcp.remote_server_endpoint" then MEDIUM
  else if String.eqb rule_id "mcp.excessive_env_passthrough" then HIGH
  else LOW.

Definition mcp_confidence : Q := rnd64 (9 # 10).

Definition MCP_RULES : list string :=
  ["mcp.command_injection_server"; "mcp.remote_server_endpoint"; "mcp.excessive_env_passthrough"; "mcp.malformed_config"].

Definition _is_mcp_config (path : points) : bool := bool_decide (after_last slash path = str_bytes ".mcp.json").

(** What [ipaddress.ip_address] says of a literal address. *)
Record ip := mkIp { is_loopback : bool; is_private : bool; is_link_local : bool }.

(** [sep.join(parts)] *)
Fixpoint join_points (sep : points) (parts : list points) : points :=
  match parts with
  | [] => []
  | [p] => p
  | p :: parts => p ++ sep ++ join_points sep parts
  end.

Definition strs_of (l : list value) : list points := omap (λ v, match v with v_str s => Some s | _ => None end) l.

Section mcp.
Variable sha256 : bytes → string.
Variable repr_float : Q → string.
Variables wide_word wide_digit : Z → bool.
(** The nesting at which [json.loads] raises [RecursionError]. *)
Variable recursion_limit : nat.
(** [urlsplit(url).hostname]: [None] when it raises [ValueError]. *)
Variable hostname : points → option (option points).
(** [ipaddress.ip_address(host)]: [None] when it raises [ValueError]. *)
Variable ip_address : points → option ip.

Local Abbreviation search := (search wide_word wide_digit).

Definition mcp_metadata : EngineMetadata :=
  let rule rule_id := rule_id +:+ ":" +:+ (mcp_test_item rule_id).1 +:+ ":" +:+ category_value (mcp_test_item rule_id).2
                      +:+ ":" +:+ sev_digit (mcp_severity rule_id) +:+ ":" +:+ repr_float mcp_confidence +:+ newline in
  in_house sha256 "inhouse-mcp-config"
    (foldr String.append "" (map rule (sort_by str_le MCP_RULES)) +:+
     _SHELL_METACHARS +:+ newline +:+ _SENSITIVE_ENV +:+ newline +:+ _HOST_CLASSIFICATION_VERSION +:+ newline +:+
     "max_config_bytes:" +:+ decimal _MAX_CONFIG_BYTES +:+ newline +:+
     foldr String.append "" (map (λ h, "local_hostname:" +:+ h +:+ newline) (sort_by str_le _LOCAL_HOSTNAMES))).

(** [None]: [evidence.encode("utf-8")] raised. *)
Definition mcp_finding (rule_id : string) (path : points) (title : string) (evidence : points) : option Finding :=
  if forallb scalar evidence then
    Some (mkFinding rule_id (mcp_test_item rule_id).1 (mcp_test_item rule_id).2 title (mcp_severity rule_id) mcp_confidence
      "inhouse-mcp-config" STATIC ∅ (Some (text_of path)) None (Some (sha256 (encode evidence))) (mcp_risk rule_id))
  else None.

Definition _is_remote_endpoint (url : points) : bool :=
  match hostname url with
  | None => true
  | Some None | Some (Some []) => true
  | Some (Some host) =>
      if bool_decide (lower host ∈ map str_bytes _LOCAL_HOSTNAMES) then false
      else match ip_address host with
           | None => true
           | Some ip => negb (is_loopback ip || is_private ip || is_link_local ip)
           end
  end.

(** The [mcpServers] mapping. *)
Definition _parse_config (data : bytes) : option (list (points * value)) :=
  if _MAX_CONFIG_BYTES <? Z.of_nat (length data) then None
  else
    text ← decode_points data;
    parsed ← json_loads recursion_limit text;
    match parsed with
    | v_dict fields => match lookup_field (str_bytes "mcpServers") fields with Some (v_dict servers) => Some servers | _ => None end
    | _ => None
    end.

Definition get (key : string) (spec : list (points * value)) : option value := lookup_field (str_bytes key) spec.

(** [" ".join(parts)]: the command and its arguments, as far as they are text. *)
Definition launch_line (spec : list (points * value)) : points :=
  join_points [32]
    (match get "command" spec with Some (v_str command) => [command] | _ => [] end ++
     match get "args" spec with Some (v_list args) => strs_of args | _ => [] end).

Definition shell_syntax (line : points) : bool := search (compiled false _SHELL_METACHARS) line.

Definition sensitive (name : points) : bool := search (compiled true _SENSITIVE_ENV) name.

Definition endpoint (spec : list (points * value)) : option points :=
  match get "url" spec with Some (v_str url) => if bool_decide (url = []) then None else Some url | _ => None end.

Definition leaked (spec : list (points * value)) : list points :=
  match get "env" spec with
  | Some (v_dict env) => sort_by points_le (base.filter (λ k, sensitive k = true) (map fst env))
  | _ => []
  end.

Definition titled (title : string) (name : points) : string := title +:+ "：" +:+ text_of name.

Definition _scan_one_server (path name : points) (spec : value) : option (list Finding) :=
  match spec with
  | v_dict spec =>
      commands ← (let joined := launch_line spec in
        if negb (bool_decide (joined = [])) && shell_syntax joined
        then f ← mcp_finding "mcp.command_injection_server" path (titled "MCP server 启动命令含 shell 元字符" name) joined; Some [f]
        else Some []);
      endpoints ← (match endpoint spec with
        | Some url =>
            if _is_remote_endpoint url
            then f ← mcp_finding "mcp.remote_server_endpoint" path (titled "MCP server 指向非本机端点" name) url; Some [f]
            else Some []
        | None => Some []
        end);
      environment ← (match leaked spec with
        | [] => Some []
        | names =>
            f ← mcp_finding "mcp.excessive_env_passthrough" path (titled "MCP server 透传疑似凭据的环境变量" name)
                  (join_points [44] names); Some [f]
        end);
      Some (commands ++ endpoints ++ environment)
  | _ =>
      f ← mcp_finding "mcp.malformed_config" path (titled "MCP server 定义格式非法" name) (name ++ 58 :: str_bytes (type_name spec));
      Some [f]
  end.

Definition mcp_scan_file (path : points) (data : bytes) : option (list Finding) :=
  if _is_mcp_config path then
    match _parse_config data with
    | None => f ← mcp_finding "mcp.malformed_config" path "随包 .mcp.json 无法解析" path; Some [f]
    | Some servers => mjoin <$> mapM (λ s, _scan_one_server path s.1 s.2) servers
    end
  else Some [].

Definition mcp_scan (files : Files) : option (list Finding) := mjoin <$> mapM (λ f, mcp_scan_file f.1 f.2) files.

Definition mcp_analyze (files : Files) (deadline : option Q) (now : Q) : option EngineResult :=
  run_with_deadline mcp_metadata mcp_scan files deadline now.
End mcp.

(** ** What counts as shell syntax *)

Section shell.
Context (wide_word wide_digit : Z → bool).
Local Abbreviation found := (found wide_word wide_digit).
Local Abbreviation word := (word wide_word).

(** [name -c], each a word of its own. *)
Definition interprets (name : string) (line : points) : Prop :=
  ∃ pre spaces post, line = pre ++ str_bytes name ++ spaces ++ str_bytes "-c" ++ post ∧
    spaces ≠ [] ∧ Forall (λ c, space c = true) spaces ∧ head_in word (reverse pre) = false ∧ head_in word post = false.

Definition shell_line (line : points) : Prop :=
  (∃ c, c ∈ str_bytes ";|`<>&" ∧ c ∈ line) ∨ (∃ pre post, line = pre ++ str_bytes "$(" ++ post) ∨
  interprets "sh" line ∨ interprets "bash" line.

Definition interpreter_re (name : string) : re :=
  r_seq r_bound (lits (str_bytes name) (r_seq (r_rep (r_set false [i_space]) 1 None) (lits (str_bytes "-c") r_bound))).

Lemma interpreter_found name line :
  head_in word (str_bytes name) = true → found (interpreter_re name) line ↔ interprets name line.
Proof.
  intros Hn. unfold Regex.found, interprets, interpreter_re. set (s := str_bytes name) in *. split.
  - intros (b & w & a & -> & (w0 & w1 & -> & [-> Hb] & Hs)). cbn [app reverse] in Hb, Hs. rewrite sem_lits in Hs.
    destruct Hs as (w2 & -> & (w3 & w4 & -> & Hsp & Hc)). rewrite sem_some in Hsp. rewrite sem_lits in Hc.
    destruct Hsp as [Hne Hsp], Hc as (w5 & -> & [-> Hend]).
    exists (reverse b), w3, a. rewrite reverse_involutive. split_and!.
    + cbn [app]. by rewrite app_nil_r, <-!app_assoc.
    + done.
    + eapply Forall_impl; [exact Hsp|]. intros d. unfold in_set. cbn. by rewrite orb_false_r.
    + unfold boundary in Hb. destruct s as [|x s]; [done|]. cbn in Hn, Hb. rewrite Hn in Hb. by destruct (head_in word b).
    + cbn [app] in Hend. unfold boundary in Hend. cbn in Hend. by destruct (head_in word a).
  - intros (pre & spaces & post & -> & Hne & Hsp & Hpre & Hpost).
    exists (reverse pre), (s ++ spaces ++ str_bytes "-c"), post. rewrite reverse_involutive. split; [by rewrite <-!app_assoc|].
    exists [], (s ++ spaces ++ str_bytes "-c"). split; [done|]. split.
    + split; [done|]. unfold boundary. rewrite Hpre. destruct s as [|x s]; [done|]. cbn in Hn |- *. by rewrite Hn.
    + rewrite sem_lits. eexists. split; [done|]. exists spaces, (str_bytes "-c"). split; [done|]. split.
      * rewrite sem_some. split; [done|]. eapply Forall_impl; [exact Hsp|]. intros d Hd. unfold in_set. cbn. by rewrite Hd.
      * rewrite sem_lits. exists []. rewrite app_nil_r. split; [done|]. split; [done|]. cbn [app]. unfold boundary. by rewrite Hpost.
Qed.

Lemma other_head c s : head s ≠ Some c → head_in (in_set wide_word wide_digit false [i_char c]) s = false.
Proof. destruct s as [|d s]; [done|]. intros H. cbn. unfold in_set. cbn. rewrite orb_false_r. apply Z.eqb_neq. by intros ->. Qed.

(** One ampersand or several: any is found. *)
Lemma ampersand_found line :
  found (r_alt (lits [38] (r_set false [i_char 38]))
           (r_seq (r_not_behind false [i_char 38]) (r_seq (r_set false [i_char 38]) (r_not_ahead false [i_char 38])))) line ↔
  38 ∈ line.
Proof.
  unfold Regex.found. split.
  - intros (b & w & a & -> & [Hs|Hs]).
    + apply sem_lits in Hs as (w' & -> & _). set_solver.
    + destruct Hs as (w1 & w2 & -> & [-> _] & (w3 & w4 & -> & (c & -> & Hc) & [-> _])). unfold in_set in Hc. cbn in Hc.
      rewrite orb_false_r in Hc. apply Z.eqb_eq in Hc as ->. set_solver.
  - intros (pre & post & -> & Hpre)%list_elem_of_split_l. destruct (decide (head post = Some 38)) as [Hd|Hd].
    + destruct post as [|d post]; [done|]. injection Hd as ->.
      exists (reverse pre), [38; 38], post. rewrite reverse_involutive. split; [done|]. left. rewrite sem_lits.
      exists [38]. split; [done|]. by exists 38.
    + exists (reverse pre), [38], post. rewrite reverse_involutive. split; [done|]. right.
      exists [], [38]. split; [done|]. split; [split; [done|]|].
      * apply other_head. intros [r E]%head_Some. apply Hpre. rewrite <-elem_of_reverse, E. by left.
      * exists [38], []. split; [done|]. split; [by exists 38|]. split; [done|]. by apply other_head.
Qed.

Lemma metachars_compiled :
  compiled false _SHELL_METACHARS =
  r_alt (r_set false (map i_char (str_bytes ";|`<>")))
    (r_alt (lits [38] (r_set false [i_char 38]))
      (r_alt (r_seq (r_not_behind false [i_char 38]) (r_seq (r_set false [i_char 38]) (r_not_ahead false [i_char 38])))
        (r_alt (lits [36] (r_set false [i_char 40])) (r_alt (interpreter_re "sh") (interpreter_re "bash"))))).
Proof. vm_compute. reflexivity. Qed.

Lemma pair_found a b line : found (lits [a] (r_set false [i_char b])) line ↔ ∃ pre post, line = pre ++ [a; b] ++ post.
Proof.
  unfold Regex.found. setoid_rewrite sem_lits. split.
  - intros (x & w & y & -> & w' & -> & c & -> & Hc). unfold in_set in Hc. cbn in Hc. rewrite orb_false_r in Hc.
    apply Z.eqb_eq in Hc as ->. by exists (reverse x), y.
  - intros (pre & post & ->). exists (reverse pre), [a; b], post. rewrite reverse_involutive. split; [done|].
    exists [b]. split; [done|]. exists b. split; [done|]. unfold in_set. cbn. by rewrite Z.eqb_refl.
Qed.

(** The pattern fires exactly on shell syntax: no spelling of an ampersand escapes. *)
Lemma shell_syntax_iff line : shell_syntax wide_word wide_digit line = true ↔ shell_line line.
Proof.
  unfold shell_syntax, shell_line. rewrite search_iff, metachars_compiled. rewrite !found_alt. rewrite !interpreter_found by done.
  rewrite (pair_found 36 40), found_set. pose proof (ampersand_found line) as Ha. rewrite found_alt in Ha.
  assert ((∃ c, c ∈ str_bytes ";|`<>&" ∧ c ∈ line) ↔
          (∃ c, c ∈ line ∧ existsb (in_item wide_word wide_digit c) (map i_char (str_bytes ";|`<>")) = true) ∨ 38 ∈ line) as ->.
  { setoid_rewrite existsb_exists. split.
    - intros (c & Hc & Hl). change (str_bytes ";|`<>&") with (str_bytes ";|`<>" ++ [38]) in Hc.
      apply elem_of_app in Hc as [Hc| ->%list_elem_of_singleton]; [left|by right]. exists c. split; [done|]. exists (i_char c).
      rewrite <-list_elem_of_In. split; [by apply list_elem_of_fmap_2|]. cbn. by rewrite Z.eqb_refl.
    - intros [(c & Hl & i & Hi%list_elem_of_In & Hc)|Hl]; [|by exists 38; split; [vm_compute; set_solver|]].
      apply list_elem_of_fmap in Hi as (d & -> & Hd). cbn in Hc. apply Z.eqb_eq in Hc as ->. exists d. split; [|done].
      change (str_bytes ";|`<>&") with (str_bytes ";|`<>" ++ [38]). apply elem_of_app. by left. }
  change (str_bytes "$(") with [36; 40]. tauto.
Qed.
End shell.

(** ** What counts as a credential *)

Section credentials.
Context (wide_word wide_digit : Z → bool).
Local Abbreviation found := (found wide_word wide_digit).
Local Abbreviation sem := (sem wide_word wide_digit).

(** Equal up to case. *)
Definition same_letter (c d : Z) : Prop := existsb (in_item wide_word wide_digit d) (folded c) = true.

Definition occurs_in (w : string) (name : points) : Prop :=
  ∃ pre w' post, name = pre ++ w' ++ post ∧ Forall2 same_letter (str_bytes w) w'.

Definition CREDENTIAL_WORDS : list string := ["TOKEN"; "SECRET"; "PASSWORD"; "PASSWD"; "CREDENTIAL"; "APIKEY"; "API_KEY"].
Definition CLOUD_PREFIXES : list string := ["AWS_"; "AZURE_"; "GCP_"].

(** The name contains a word for a credential, ends in [_KEY] (a final line feed aside)
    or has a cloud's prefix, whatever the case. *)
Definition credential_name (name : points) : Prop :=
  (∃ w, w ∈ CREDENTIAL_WORDS ∧ occurs_in w name) ∨
  (∃ pre w' post, name = pre ++ w' ++ post ∧ Forall2 same_letter (str_bytes "_KEY") w' ∧ at_end post = true) ∨
  (∃ w, w ∈ CLOUD_PREFIXES ∧ ∃ w' post, name = w' ++ post ∧ Forall2 same_letter (str_bytes w) w').

Definition ic_lits (s : points) (r : re) : re := foldr (λ c r, seq_of (r_set false (folded c)) r) r s.

Lemma sem_seq_of r1 r2 b w a : sem (seq_of r1 r2) b w a ↔ sem (r_seq r1 r2) b w a.
Proof.
  destruct r2; try done. cbn. split; [intros H; exists w, []; by rewrite app_nil_r|].
  intros (w1 & w2 & -> & H & ->). by rewrite app_nil_r.
Qed.

Lemma sem_ic_lits s r b w a :
  sem (ic_lits s r) b w a ↔ ∃ w1 w2, w = w1 ++ w2 ∧ Forall2 same_letter s w1 ∧ sem r (reverse w1 ++ b) w2 a.
Proof.
  revert b w. induction s as [|c s IH]; intros b w.
  - cbn [ic_lits foldr]. split; [intros H; by exists [], w|]. by intros (w1 & w2 & -> & ->%Forall2_nil_inv_l & H).
  - cbn [ic_lits foldr]. fold (ic_lits s r). rewrite sem_seq_of. cbn [Regex.sem]. setoid_rewrite IH. split.
    + intros (? & ? & -> & (d & -> & Hd) & (w1 & w2 & -> & Hs & Hr)). exists (d :: w1), w2. split; [done|].
      split; [by constructor|]. by rewrite reverse_cons, <-app_assoc.
    + intros (? & w2 & -> & (d & w1 & Hd & Hs & ->)%Forall2_cons_inv_l & Hr). exists [d], (w1 ++ w2). split; [done|].
      split; [by exists d|]. exists w1, w2. split; [done|]. split; [done|]. by rewrite reverse_cons, <-app_assoc in Hr.
Qed.

Definition cloud_re (w : string) : re := r_seq r_bol (ic_lits (str_bytes w) r_eps).
Definition word_re (w : string) : re := ic_lits (str_bytes w) r_eps.

Lemma env_compiled :
  compiled true _SENSITIVE_ENV =
  foldr r_alt (cloud_re "GCP_")
    (map word_re ["TOKEN"; "SECRET"; "PASSWORD"; "PASSWD"; "CREDENTIAL"] ++ [ic_lits (str_bytes "_KEY") r_eol] ++
     map word_re ["APIKEY"; "API_KEY"] ++ map cloud_re ["AWS_"; "AZURE_"]).
Proof. vm_compute. reflexivity. Qed.

Lemma word_re_found w name : found (word_re w) name ↔ occurs_in w name.
Proof.
  unfold Regex.found, word_re, occurs_in. setoid_rewrite sem_ic_lits. split.
  - intros (b & ? & a & -> & w1 & ? & -> & Hs & ->). exists (reverse b), w1, a. by rewrite app_nil_r.
  - intros (pre & w' & post & -> & Hs). exists (reverse pre), w', post. rewrite reverse_involutive. split; [done|].
    exists w', []. by rewrite app_nil_r.
Qed.

Lemma key_re_found w name :
  found (ic_lits (str_bytes w) r_eol) name ↔
  ∃ pre w' post, name = pre ++ w' ++ post ∧ Forall2 same_letter (str_bytes w) w' ∧ at_end post = true.
Proof.
  unfold Regex.found. setoid_rewrite sem_ic_lits. split.
  - intros (b & ? & a & -> & w1 & ? & -> & Hs & -> & He). exists (reverse b), w1, a. by rewrite app_nil_r.
  - intros (pre & w' & post & -> & Hs & He). exists (reverse pre), w', post. rewrite reverse_involutive. split; [done|].
    exists w', []. rewrite app_nil_r. split; [done|]. by split.
Qed.

Lemma cloud_re_found w name :
  found (cloud_re w) name ↔ ∃ w' post, name = w' ++ post ∧ Forall2 same_letter (str_bytes w) w'.
Proof.
  unfold Regex.found, cloud_re. split.
  - intros (b & ? & a & -> & ? & ? & -> & [-> ->] & (w1 & ? & -> & Hs & ->)%sem_ic_lits). exists w1, a. cbn. by rewrite app_nil_r.
  - intros (w' & post & -> & Hs). exists [], w', post. split; [done|]. exists [], w'. split; [done|]. split; [done|].
    apply sem_ic_lits. exists w', []. by rewrite app_nil_r.
Qed.

Lemma sensitive_iff name : sensitive wide_word wide_digit name = true ↔ credential_name name.
Proof.
  unfold sensitive, credential_name, CREDENTIAL_WORDS, CLOUD_PREFIXES. rewrite search_iff, env_compiled.
  cbn [map app foldr]. rewrite !found_alt, !word_re_found, key_re_found, !cloud_re_found.
  rewrite <-!Exists_exists, !Exists_cons, !Exists_nil. tauto.
Qed.
Lemma leaked_nil fields :
  leaked wide_word wide_digit fields = [] ↔
  ∀ env key, get "env" fields = Some (v_dict env) → key ∈ map fst env → ¬ credential_name key.
Proof.
  unfold leaked. destruct (get "env" fields) as [[| | | | | |env']|]; try naive_solver. setoid_rewrite <-sensitive_iff. split.
  - intros E env key [= <-] Hk Hs. assert (key ∈ sort_by points_le (base.filter (λ k, sensitive wide_word wide_digit k = true) (map fst env'))) as H.
    { rewrite sort_by_perm. by apply list_elem_of_filter. }
    rewrite E in H. by apply elem_of_nil in H.
  - intros H. destruct (sort_by _ _) as [|k l] eqn:E; [done|]. exfalso.
    assert (k ∈ k :: l) as Hk by by left. rewrite <-E, sort_by_perm in Hk. apply list_elem_of_filter in Hk as [Hs Hk]. by eapply H.
Qed.
End credentials.

(** ** What a report says *)

Section reports.
Context (sha256 : bytes → string) (repr_float : Q → string) (wide_word wide_digit : Z → bool) (recursion_limit : nat).
Context (hostname : points → option (option points)) (ip_address : points → option ip).

Local Abbreviation scan_one := (_scan_one_server sha256 wide_word wide_digit hostname ip_address).
Local Abbreviation scan_file := (mcp_scan_file sha256 wide_word wide_digit recursion_limit hostname ip_address).
Local Abbreviation scan := (mcp_scan sha256 wide_word wide_digit recursion_limit hostname ip_address).

(** A declaration with nothing to report. *)
Definition harmless (spec : value) : Prop :=
  ∃ fields, spec = v_dict fields ∧ ¬ shell_line wide_word (launch_line fields) ∧
    (∀ url, endpoint fields = Some url → _is_remote_endpoint hostname ip_address url = false) ∧
    (∀ env key, get "env" fields = Some (v_dict env) → key ∈ map fst env → ¬ credential_name wide_word wide_digit key).

Lemma empty_line_is_no_shell : ¬ shell_line wide_word [].
Proof.
  intros [(c & _ & Hc)|[(pre & post & E)|[(pre & sp & post & E & _)|(pre & sp & post & E & _)]]]; [by apply elem_of_nil in Hc|..];
    by destruct pre.
Qed.

Lemma scan_one_nil path name spec : scan_one path name spec = Some [] ↔ harmless spec.
Proof.
  unfold _scan_one_server, harmless.
  destruct spec as [| | | | | |fields]; [split; [intros (? & _ & [=])%bind_Some|by intros (? & [=] & _)]..|split].
  - intros (c & Hc & (e & He & (v & Hv & [= (-> & (-> & ->)%app_nil)%app_nil])%bind_Some)%bind_Some)%bind_Some.
    exists fields. split; [done|]. split_and!.
    + rewrite <-shell_syntax_iff. intros Hs. rewrite Hs, andb_true_r in Hc. case_bool_decide as Hl; cbn in Hc.
      * rewrite Hl, shell_syntax_iff in Hs. by apply empty_line_is_no_shell in Hs.
      * by apply bind_Some in Hc as (? & _ & [=]).
    + intros url Hu. rewrite Hu in He. destruct (_is_remote_endpoint _ _ _); [|done]. by apply bind_Some in He as (? & _ & [=]).
    + apply leaked_nil. destruct (leaked _ _ _); [done|]. by apply bind_Some in Hv as (? & _ & [=]).
  - intros (? & [= <-] & Hs & Hu & He). rewrite <-shell_syntax_iff in Hs. apply not_true_iff_false in Hs. rewrite Hs, andb_false_r. cbn.
    apply leaked_nil in He as ->. destruct (endpoint fields) as [url|] eqn:E; [|done]. by rewrite (Hu url).
Qed.

Lemma mjoin_nil {A B} (f : A → option (list B)) l : mjoin <$> mapM f l = Some [] ↔ ∀ x, x ∈ l → f x = Some [].
Proof.
  induction l as [|x l IH]; [cbn; split; [by intros _ x ?%elem_of_nil|done]|]. cbn [mapM]. split.
  - intros (? & (y & Hy & (ys & Hys & [= <-])%bind_Some)%bind_Some & E)%fmap_Some. cbn in E. symmetry in E.
    apply app_nil in E as [-> E]. intros z [->|Hz]%elem_of_cons; [done|]. revert z Hz. apply IH, fmap_Some. exists ys. split; [done|exact (eq_sym E)].
  - intros H. assert (mjoin <$> mapM f l = Some []) as E by (apply IH; intros; apply H; by right).
    apply fmap_Some in E as (ys & Hys & E). apply fmap_Some. exists ([] :: ys). split; [|done].
    rewrite (H x) by by left. by rewrite Hys.
Qed.

(** what silence means.  The detector returns and reports nothing exactly when every
    [.mcp.json] of the package, in whatever directory, can be read and declares only
    harmless servers: a launch line without a separator, pipe, redirection, ampersand,
    backtick, [$(] or interpreter with [-c]; no endpoint, or a local one; and no
    environment variable named like a credential. *)
Theorem mcp_silent_iff files :
  scan files = Some [] ↔
  ∀ path data, (path, data) ∈ files → _is_mcp_config path = true →
    ∃ servers, _parse_config recursion_limit data = Some servers ∧ ∀ name spec, (name, spec) ∈ servers → harmless spec.
Proof.
  unfold mcp_scan. rewrite mjoin_nil. split.
  - intros H path data Hin Hc. specialize (H _ Hin). cbn in H. unfold mcp_scan_file in H. rewrite Hc in H.
    destruct (_parse_config _ data) as [servers|]; [|by apply bind_Some in H as (? & _ & [=])].
    exists servers. split; [done|]. intros name spec Hs. rewrite mjoin_nil in H. by apply (scan_one_nil path name), (H (name, spec)).
  - intros H [path data] Hin. cbn. unfold mcp_scan_file. destruct (_is_mcp_config path) eqn:Hc; [|done].
    destruct (H path data Hin Hc) as (servers & -> & Hs). rewrite mjoin_nil. intros [name spec] Hn. by eapply scan_one_nil, Hs.
Qed.

(** *** What reaches the gate *)

(** Of a server's declaration, what the findings of each rule rest on. *)
Lemma scan_one_high path name fields fs :
  scan_one path name (v_dict fields) = Some fs →
  (shell_line wide_word (launch_line fields) →
     ∃ f, f ∈ fs ∧ rule_id f = "mcp.command_injection_server" ∧ severity f = HIGH) ∧
  (leaked wide_word wide_digit fields ≠ [] →
     ∃ f, f ∈ fs ∧ rule_id f = "mcp.excessive_env_passthrough" ∧ severity f = HIGH).
Proof.
  intros (c & Hc & (e & _ & (v & Hv & [= <-])%bind_Some)%bind_Some)%bind_Some. split.
  - intros Hs. rewrite bool_decide_false in Hc by (intros E; rewrite E in Hs; by apply empty_line_is_no_shell in Hs).
    apply (shell_syntax_iff wide_word wide_digit) in Hs. rewrite Hs in Hc. cbn in Hc. apply bind_Some in Hc as (f & Hf & [= <-]).
    exists f. split; [by left|]. unfold mcp_finding in Hf. destruct (forallb _ _); by simplify_eq.
  - intros Hl. destruct (leaked _ _ fields) as [|k ks]; [done|]. apply bind_Some in Hv as (f & Hf & [= <-]).
    exists f. split; [set_solver|]. unfold mcp_finding in Hf. destruct (forallb _ _); by simplify_eq.
Qed.

Lemma mjoin_member {A B} (f : A → option (list B)) l ys x :
  mjoin <$> mapM f l = Some ys → x ∈ l → ∃ y, f x = Some y ∧ y ⊆ ys.
Proof.
  intros (yss & Hm & ->)%fmap_Some Hx. destruct (mapM_member _ _ _ _ Hm Hx) as (y & Hy & Hin). exists y. split; [done|].
  intros z Hz. apply list_elem_of_join. eauto.
Qed.

Lemma scan_member files fs path data servers name spec :
  scan files = Some fs → (path, data) ∈ files → _is_mcp_config path = true → _parse_config recursion_limit data = Some servers →
  (name, spec) ∈ servers → ∃ gs, scan_one path name spec = Some gs ∧ gs ⊆ fs.
Proof.
  intros H Hin Hc Hp Hs. destruct (mjoin_member _ _ _ _ H Hin) as (ys & Hy & Hsub). cbn in Hy. unfold mcp_scan_file in Hy.
  rewrite Hc, Hp in Hy. destruct (mjoin_member _ _ _ _ Hy Hs) as (gs & Hg & Hsub'). exists gs. split; [done|]. set_solver.
Qed.
End reports.

(** C39: No shell behind a PASS.  When the detector has run on the package, the policy
    sends HIGH findings to review and no active waiver names its two HIGH rules, then a
    package that passes declares, in the configurations that can be read, no server whose
    launch line holds shell syntax and none that is handed a variable named like a
    credential. *)
Theorem passed_servers_are_plain sha256 repr_float wide_word wide_digit limit hostname ip_address
    exp64 ch rs p t al now mf sid sr files deadline clock r path data servers name fields :
  GatePolicy_ok p → Forall Finding_ok (all_findings rs) → aggregate ch rs p 0 mf = Ok sr →
  vr_verdict (gate_decide exp64 sr p t al now 0 sid) = PASS → sev_le (review_on_severity p) HIGH = true →
  mcp_analyze sha256 repr_float wide_word wide_digit limit hostname ip_address files deadline clock = Some r →
  r ∈ rs → usable r = true →
  active_waiver al now ch sid "mcp.command_injection_server" = false →
  active_waiver al now ch sid "mcp.excessive_env_passthrough" = false →
  (path, data) ∈ files → _is_mcp_config path = true → _parse_config limit data = Some servers →
  (name, v_dict fields) ∈ servers →
  ¬ shell_line wide_word (launch_line fields) ∧
  ∀ env key, get "env" fields = Some (v_dict env) → key ∈ map fst env → ¬ credential_name wide_word wide_digit key.
Proof.
  intros Hp Hok Hagg Hpass Hrev Hrun Hr Hu Hw1 Hw2 Hin Hc Hparse Hs.
  unfold mcp_analyze, run_with_deadline in Hrun.
  destruct (match deadline with Some _ => _ | None => _ end); [injection Hrun as <-; discriminate Hu|].
  apply bind_Some in Hrun as (fs & Hscan & [= <-]).
  destruct (scan_member _ _ _ _ _ _ _ _ _ _ _ _ _ Hscan Hin Hc Hparse Hs) as (gs & Hg & Hsub).
  assert (∀ f, f ∈ gs → severity f = HIGH → active_waiver al now ch sid (rule_id f) = false → False) as Hno.
  { intros f Hf Hsev Hw. destruct (passed_finding_below _ _ _ _ _ _ _ _ _ _ f Hp Hok Hagg Hpass) as [_ Hb]; [|done|].
    - apply elem_of_all_findings. eexists. split; [apply elem_of_usable_results; split; [exact Hr|done]|]. by apply Hsub.
    - rewrite Hsev in Hb. congruence. }
  destruct (scan_one_high _ _ _ _ _ _ _ _ _ Hg) as [Hsh Henv]. split.
  - intros H. destruct (Hsh H) as (f & Hf & Hid & Hsev). apply (Hno f Hf Hsev). by rewrite Hid.
  - apply leaked_nil. destruct (leaked wide_word wide_digit fields) eqn:E; [done|]. exfalso.
    destruct (Henv ltac:(done)) as (f & Hf & Hid & Hsev). apply (Hno f Hf Hsev). by rewrite Hid.
Qed.

(** ** Examples *)

Module McpSamples.
Import Gate.Samples TextSamples.

Definition here : points := str_bytes "tools/.mcp.json".
Definition no_host (url : points) : option (option points) := None.
Definition no_ip (host : points) : option ip := None.

(** Single quotes in these texts stand for double ones. *)
Definition quoted (s : string) : bytes := (λ b, if b =? 39 then 34 else b) <$> str_bytes s.

Definition mcp_of (s : string) : option (list (string * Severity)) :=
  map (λ f, (rule_id f, severity f)) <$> mcp_scan digest cjk no_digit 900 no_host no_ip [(here, quoted s)].

(** The spellings the comments of the detector discuss. *)
Example launch_lines :
  map (λ args, mcp_of ("{'mcpServers': {'a': {'command': 'npx', 'args': [" +:+ args +:+ "]}}}"))
    ["'-y', '${WORKSPACE_DIR}'"; "'srv.js', '&', 'wget http://x/y'"; "'srv.js', '>', '/home/u/.bashrc'"; "'$(id)'"] =
  [Some []; Some [("mcp.command_injection_server", HIGH)]; Some [("mcp.command_injection_server", HIGH)];
   Some [("mcp.command_injection_server", HIGH)]].
Proof. vm_compute. reflexivity. Qed.

(** A line feed separates commands as a semicolon does, [-lc] runs a command as [-c]
    does, and so does another shell: none is shell syntax here. *)
Example unseen_shells :
  map (λ args, mcp_of ("{'mcpServers': {'a': {'command': 'env', 'args': [" +:+ args +:+ "]}}}"))
    ["'bash', '-c', 'id'"; "'bash', '-lc', 'id'"; "'zsh', '-c', 'id'"; "'a\nid'"] =
  [Some [("mcp.command_injection_server", HIGH)]; Some []; Some []; Some []].
Proof. vm_compute. reflexivity. Qed.

(** A comma too many, and a shell command is a LOW finding about the format. *)
Example unreadable_config_hides_servers :
  mcp_of "{'mcpServers': {'a': {'command': 'sh -c id'}}}" = Some [("mcp.command_injection_server", HIGH)] ∧
  mcp_of "{'mcpServers': {'a': {'command': 'sh -c id'},}}" = Some [("mcp.malformed_config", LOW)].
Proof. split; vm_compute; reflexivity. Qed.

(** A lone surrogate, which JSON can escape, makes the detector raise where it means to
    report. *)
Example surrogate_raises :
  mcp_of "{'mcpServers': {'a': {'command': 'id; \ud800'}}}" = None ∧ mcp_of "{'mcpServers': {'\ud800': 1}}" = None.
Proof. split; vm_compute; reflexivity. Qed.

Definition plain_config : bytes := quoted "{'mcpServers': {'a': {'command': 'npx', 'env': {'HOME': '/'}}}}".
Definition plain_files : Files := [(here, plain_config)].

Lemma mcp_silent_iff_witness :
  ∃ servers, _parse_config 900 plain_config = Some servers ∧
    ∀ name spec, (name, spec) ∈ servers → harmless cjk no_digit no_host no_ip spec.
Proof.
  refine (proj1 (mcp_silent_iff digest cjk no_digit 900 no_host no_ip plain_files) _ here plain_config _ _);
    [vm_compute; reflexivity|by left|vm_compute; reflexivity].
Defined.

Definition plain_run : option EngineResult := mcp_analyze digest no_float cjk no_digit 900 no_host no_ip plain_files None 0.
Definition plain_result : EngineResult := default (engine "floor" OK []) plain_run.
Definition plain_results : list EngineResult := [engine "floor" OK []; plain_result].
Definition plain_scan : ScanResult :=
  match aggregate "h" plain_results policy 0 50 with Ok sr => sr | Err _ => scanned [] 0 end.
Definition plain_fields : list (points * value) :=
  [(str_bytes "command", v_str (str_bytes "npx")); (str_bytes "env", v_dict [(str_bytes "HOME", v_str (str_bytes "/"))])].

Lemma passed_servers_are_plain_witness : ¬ shell_line cjk (launch_line plain_fields).
Proof.
  refine (proj1 (passed_servers_are_plain digest no_float cjk no_digit 900 no_host no_ip exp_step "h" plain_results policy INTERNAL
    [] 0 50 None plain_scan plain_files None 0 plain_result here plain_config [(str_bytes "a", v_dict plain_fields)]
    (str_bytes "a") plain_fields policy_ok _ _ _ _ _ _ _ _ _ _ _ _ _));
    [vm_compute; constructor|vm_compute; reflexivity|vm_compute; reflexivity|reflexivity|vm_compute; reflexivity|right; by left
    |vm_compute; reflexivity|reflexivity|reflexivity|by left|vm_compute; reflexivity|vm_compute; reflexivity|by left].
Defined.
End McpSamples.
