(* ===== verification/Timeouts.v ===== *)
(** * Engine timeouts: [services/engine_runner/timeouts.py]

    How long each engine's subprocess may run, read from the environment at start:
    a global default, overrides per engine as a JSON object, a built-in default for
    the agent engine and the deprecated variable it replaces.  [float(text)] is
    modelled for ASCII digits; [json.loads] is a parameter. *)

From S2P Require Import Prelude Float64 Lifecycle Json PyText Access.
From Stdlib Require Import QArith Ascii Lqa.
Open Scope string_scope.
Open Scope list_scope.
Open Scope Z_scope.

(** ** [float(text)] *)

(** Underscores may only stand between two digits. *)
Fixpoint drop_underscores (after_digit : bool) (l : list ascii) : option (list ascii) :=
  match l with
  | [] => Some []
  | c :: l' =>
      if Ascii.eqb c "_" then
        match l' with
        | d :: _ => if after_digit && is_digit d then drop_underscores false l' else None
        | [] => None
        end
      else cons c <$> drop_underscores (is_digit c) l'
  end.

Fixpoint span_digits (acc : Z) (n : nat) (l : list ascii) : Z * nat * list ascii :=
  match l with
  | c :: l' => if is_digit c then span_digits (acc * 10 + (code c - 48)) (S n) l' else (acc, n, l)
  | [] => (acc, n, [])
  end.

Definition sign_of (l : list ascii) : Z * list ascii :=
  match l with
  | c :: l' => if Ascii.eqb c "-" then (-1, l') else if Ascii.eqb c "+" then (1, l') else (1, l)
  | [] => (1, [])
  end.

Definition lower_ascii (c : ascii) : ascii :=
  if (65 <=? code c) && (code c <=? 90) then ascii_of_N (Z.to_N (code c + 32)) else c.

(** A finite result that leaves the range of a double becomes infinite. *)
Definition to_double (q : Q) : pyfloat :=
  let r := rnd64 q in
  if Qle_bool (inject_Z (2 ^ 1024)) r then Inf false
  else if Qle_bool r (inject_Z (- 2 ^ 1024)) then Inf true
  else Fin r.

Definition py_float (text : string) : option pyfloat :=
  l ← drop_underscores false (String.list_ascii_of_string (Lifecycle.strip text));
  let '(sign, body) := sign_of l in
  let word := String.string_of_list_ascii (map lower_ascii body) in
  if String.eqb word "nan" then Some NaN
  else if String.eqb word "inf" || String.eqb word "infinity" then Some (Inf (sign <? 0))
  else
    let '(whole, n, rest) := span_digits 0 0 body in
    let '(mantissa, m, rest) :=
      match rest with
      | c :: rest' => if Ascii.eqb c "." then span_digits whole 0 rest' else (whole, 0%nat, rest)
      | [] => (whole, 0%nat, [])
      end in
    if (n + m =? 0)%nat then None
    else
      let scaled (e : Z) := Some (to_double (inject_Z (sign * mantissa) * (10 # 1) ^ (e - Z.of_nat m))%Q) in
      match rest with
      | [] => scaled 0
      | c :: rest' =>
          if Ascii.eqb (lower_ascii c) "e" then
            let '(esign, digits) := sign_of rest' in
            match span_digits 0 0 digits with
            | (e, S _, []) => scaled (esign * e)
            | _ => None
            end
          else None
      end.

Example py_float_examples :
  map py_float ["60"; " 1_0.5 "; "-.5e1"; "1e"; "1__0"; "."; ""; "nan"; "-Infinity"; "1e400"; "0.1"; "5_"]
  = [Some (Fin 60); Some (Fin (21 # 2)); Some (Fin (-5)); None; None; None; None; Some NaN; Some (Inf true);
     Some (Inf false); Some (Fin (rnd64 (1 # 10))); None].
Proof. vm_compute. reflexivity. Qed.

(** ** The settings *)

Definition GLOBAL_TIMEOUT_ENV : string := "SKILLSCAN_ENGINE_TIMEOUT_S".
Definition PER_ENGINE_TIMEOUT_ENV : string := "SKILLSCAN_ENGINE_TIMEOUTS_JSON".
Definition LEGACY_LLM_TIMEOUT_ENV : string := "SKILLSCAN_LLM_ENGINE_TIMEOUT_S".
Definition DEFAULT_ENGINE_TIMEOUT_S : Q := 60.
Definition _AIG_ENGINE_NAME : string := "aig-mcp-scan".
Definition BUILTIN_ENGINE_TIMEOUT_S : gmap string Q := {[_AIG_ENGINE_NAME := 240%Q]}.

Record EngineTimeouts := mkEngineTimeouts {
  default_s : Q;
  per_engine_s : gmap string Q;
}.

(** [EngineTimeoutConfigError] by its message; [overflow] is the [OverflowError] of
    [float] on an integer beyond the doubles. *)
Inductive TimeoutConfigError :=
| not_a_number_text | not_finite_seconds | not_positive | not_valid_json | not_an_object | unknown_engine
| not_seconds | legacy_conflict | overflow.

Definition for_engine (t : EngineTimeouts) (name : string) : Q := default (default_s t) (per_engine_s t !! name).

(** [math.fsum] rounds the exact sum once. *)
Definition total_budget_s (t : EngineTimeouts) (engine_names : list string) : Q :=
  rnd64 (foldr Qplus 0%Q (map (for_engine t) engine_names)).

Abbreviation Env := (gmap string string).

Definition _setting (env : Env) (key : string) : option string :=
  let stripped := Lifecycle.strip (default "" (env !! key)) in
  if String.eqb stripped "" then None else Some stripped.

Definition _checked_seconds (value : pyfloat) : result TimeoutConfigError Q :=
  match value with
  | Fin v => if Qle_bool v 0 then Err not_positive else Ok v
  | _ => Err not_finite_seconds
  end.

Definition _parse_seconds (raw : string) : result TimeoutConfigError Q :=
  match py_float raw with
  | None => Err not_a_number_text
  | Some value => _checked_seconds value
  end.

(** What [json.loads] made of the text, as far as it is looked at. *)
Inductive Loaded := loaded_error | loaded_object (fields : list (string * claim)) | loaded_other.

(** [float(value)] of what is an [int] or a [float] and no [bool]. *)
Definition seconds_of (c : claim) : result TimeoutConfigError pyfloat :=
  match c with
  | plain (JNum n) => match to_double (inject_Z n) with Fin q => Ok (Fin q) | _ => Err overflow end
  | plain (JFloat q) => Ok (Fin q)
  | nonfinite pos_inf => Ok (Inf false)
  | nonfinite neg_inf => Ok (Inf true)
  | nonfinite not_a_number => Ok NaN
  | plain _ => Err not_seconds
  end.

Section timeouts.
Variable loads : string → Loaded.

Fixpoint read_overrides (known_engines : gset string) (fields : list (string * claim)) (overrides : gmap string Q)
    : result TimeoutConfigError (gmap string Q) :=
  match fields with
  | [] => Ok overrides
  | (name, value) :: rest =>
      if negb (bool_decide (name ∈ known_engines)) then Err unknown_engine
      else v ← seconds_of value;
           s ← _checked_seconds v;
           read_overrides known_engines rest (<[name := s]> overrides)
  end.

Definition _parse_overrides (raw : option string) (known_engines : gset string) : result TimeoutConfigError (gmap string Q) :=
  match raw with
  | None => Ok ∅
  | Some text =>
      match loads text with
      | loaded_error => Err not_valid_json
      | loaded_other => Err not_an_object
      | loaded_object fields => read_overrides known_engines fields ∅
      end
  end.

Definition _apply_legacy_llm_timeout (env : Env) (per_engine overrides : gmap string Q)
    : result TimeoutConfigError (gmap string Q) :=
  match _setting env LEGACY_LLM_TIMEOUT_ENV with
  | None => Ok per_engine
  | Some raw =>
      legacy_s ← _parse_seconds raw;
      match overrides !! _AIG_ENGINE_NAME with
      | Some explicit => if Qeq_bool explicit legacy_s then Ok (<[_AIG_ENGINE_NAME := legacy_s]> per_engine) else Err legacy_conflict
      | None => Ok (<[_AIG_ENGINE_NAME := legacy_s]> per_engine)
      end
  end.

Definition from_env (env : Env) (known_engines : gset string) : result TimeoutConfigError EngineTimeouts :=
  seconds ← match _setting env GLOBAL_TIMEOUT_ENV with
            | None => Ok DEFAULT_ENGINE_TIMEOUT_S
            | Some raw => _parse_seconds raw
            end;
  overrides ← _parse_overrides (_setting env PER_ENGINE_TIMEOUT_ENV) known_engines;
  per_engine ← _apply_legacy_llm_timeout env (overrides ∪ BUILTIN_ENGINE_TIMEOUT_S) overrides;
  Ok (mkEngineTimeouts seconds per_engine).

(** ** What a configuration that starts guarantees *)

Lemma checked_positive v s : _checked_seconds v = Ok s → (0 < s)%Q ∧ v = Fin s.
Proof.
  destruct v as [q| |]; cbn; [|done..]. destruct (Qle_bool q 0) eqn:E; [done|]. intros [= <-]. split; [|done].
  by apply qle_false.
Qed.

Lemma parse_positive raw s : _parse_seconds raw = Ok s → (0 < s)%Q.
Proof. unfold _parse_seconds. destruct (py_float raw); [|done]. by intros [? _]%checked_positive. Qed.

(** The overrides are exactly the last values given for known engines. *)
Lemma read_overrides_spec known fields acc overrides :
  read_overrides known fields acc = Ok overrides →
  (∀ name, name ∈ fields.*1 → name ∈ known) ∧
  (∀ name, name ∉ fields.*1 → overrides !! name = acc !! name) ∧
  (∀ name s, overrides !! name = Some s → acc !! name = Some s ∨ (0 < s)%Q ∧ ∃ v, (name, v) ∈ fields ∧ seconds_of v = Ok (Fin s)).
Proof.
  revert acc. induction fields as [|[name v] fields IH]; intros acc; cbn [read_overrides].
  { intros [= <-]. split_and!; [set_solver|done|by left]. }
  case_bool_decide as Hk; [|done]. cbn [negb]. intros (q & Hq & (s & Hs & H)%bind_Ok)%bind_Ok.
  apply checked_positive in Hs as [Hpos ->]. destruct (IH _ H) as (H1 & H2 & H3). cbn [fmap list_fmap fst]. split_and!.
  - intros name' [->|Hin]%elem_of_cons; auto.
  - intros name' [Hne Hni]%not_elem_of_cons. rewrite H2 by done. by rewrite lookup_insert_ne.
  - intros name' s' Hl. destruct (H3 name' s' Hl) as [Ha|(Hp & v' & Hv & Hsec)].
    + destruct (decide (name' = name)) as [->|Hne].
      * rewrite lookup_insert_eq in Ha. injection Ha as <-. right. split; [done|]. exists v. split; [left|done].
      * rewrite lookup_insert_ne in Ha by done. by left.
    + right. split; [done|]. exists v'. split; [by right|done].
Qed.

Lemma overrides_positive raw known overrides name s :
  _parse_overrides raw known = Ok overrides → overrides !! name = Some s → (0 < s)%Q ∧ name ∈ known.
Proof.
  destruct raw as [text|]; cbn; [|by intros [= <-]]. destruct (loads text) as [|fields|]; [done| |done].
  intros (H1 & H2 & H3)%read_overrides_spec Hl. destruct (H3 name s Hl) as [Ha|(Hp & v & Hv & _)]; [done|]. split; [done|].
  apply H1. apply list_elem_of_fmap. by exists (name, v).
Qed.

(** What the settings ask for an engine, in their order of precedence. *)
Definition requested (seconds : Q) (overrides : gmap string Q) (legacy : option Q) (name : string) : Q :=
  match overrides !! name with
  | Some s => s
  | None => if String.eqb name _AIG_ENGINE_NAME then default 240%Q legacy else seconds
  end.

Lemma parse_read raw s : _parse_seconds raw = Ok s → py_float raw = Some (Fin s).
Proof. unfold _parse_seconds. destruct (py_float raw); [|done]. by intros [_ ->]%checked_positive. Qed.

(** Outside the agent engine the built-in table says nothing. *)
Lemma builtin_only_agent overrides seconds name : name ≠ _AIG_ENGINE_NAME →
  default seconds ((overrides ∪ BUILTIN_ENGINE_TIMEOUT_S) !! name) = default seconds (overrides !! name).
Proof.
  intros Hn. rewrite lookup_union. unfold BUILTIN_ENGINE_TIMEOUT_S. rewrite lookup_singleton_ne by done.
  by destruct (overrides !! name).
Qed.

(** The deprecated setting, when it is given. *)
Lemma legacy_spec env overrides base per :
  _apply_legacy_llm_timeout env base overrides = Ok per →
  match _setting env LEGACY_LLM_TIMEOUT_ENV with
  | None => per = base
  | Some raw => ∃ s, (0 < s)%Q ∧ py_float raw = Some (Fin s) ∧ per = <[_AIG_ENGINE_NAME := s]> base ∧
                     ∀ s', overrides !! _AIG_ENGINE_NAME = Some s' → (s' == s)%Q
  end.
Proof.
  unfold _apply_legacy_llm_timeout. destruct (_setting env LEGACY_LLM_TIMEOUT_ENV) as [raw|]; [|by intros [= <-]].
  intros (s & Hl & Hp)%bind_Ok. exists s. split; [by eapply parse_positive|]. split; [by apply parse_read|].
  destruct (overrides !! _AIG_ENGINE_NAME) as [s0|]; [destruct (Qeq_bool s0 s) eqn:E; [|done]|]; injection Hp as <-;
    (split; [done|]); intros s' Hs'; [injection Hs' as <-; by apply Qeq_bool_iff|done].
Qed.

Lemma per_engine_spec env raw known seconds overrides per :
  (0 < seconds)%Q → _parse_overrides raw known = Ok overrides →
  _apply_legacy_llm_timeout env (overrides ∪ BUILTIN_ENGINE_TIMEOUT_S) overrides = Ok per →
  ∃ legacy,
    (∀ name, (for_engine (mkEngineTimeouts seconds per) name == requested seconds overrides legacy name)%Q ∧
             (0 < for_engine (mkEngineTimeouts seconds per) name)%Q) ∧
    (_setting env LEGACY_LLM_TIMEOUT_ENV = None → legacy = None) ∧
    (∀ raw, _setting env LEGACY_LLM_TIMEOUT_ENV = Some raw → ∃ s, legacy = Some s ∧ py_float raw = Some (Fin s)).
Proof.
  intros Hsec Ho Hp%legacy_spec. unfold for_engine, requested. cbn [default_s per_engine_s].
  assert (Hpos : ∀ name s, overrides !! name = Some s → (0 < s)%Q) by (intros; by eapply overrides_positive).
  destruct (_setting env LEGACY_LLM_TIMEOUT_ENV) as [text|].
  - destruct Hp as (s & Hs & Hf & -> & Heq). exists (Some s). split; [|split; [done|intros raw' [= <-]; eauto]].
    intros name. destruct (String.eqb_spec name _AIG_ENGINE_NAME) as [->|Hn].
    + rewrite lookup_insert_eq. cbn [default id]. split; [|done].
      destruct (overrides !! _AIG_ENGINE_NAME) as [s0|]; [by rewrite (Heq s0)|done].
    + rewrite lookup_insert_ne, builtin_only_agent by done. destruct (overrides !! name) eqn:En; cbn; [|done].
      split; [done|by eapply Hpos].
  - subst per. exists None. split; [|done]. intros name. destruct (String.eqb_spec name _AIG_ENGINE_NAME) as [->|Hn].
    + rewrite lookup_union. unfold BUILTIN_ENGINE_TIMEOUT_S. rewrite lookup_singleton_eq.
      destruct (overrides !! _AIG_ENGINE_NAME) as [s0|] eqn:En; cbn; [|done]. split; [done|by eapply Hpos].
    + rewrite builtin_only_agent by done. destruct (overrides !! name) eqn:En; cbn; [|done]. split; [done|by eapply Hpos].
Qed.

(** A timeout configuration is applied exactly or not at all.  When the settings
    are accepted, every override names an engine of the service, every engine's timeout is a positive
    number of seconds, and it is the engine's own override, else (for the agent
    engine) the deprecated setting or its built-in 240 s, else the global default:
    no setting is dropped and raising the default lowers no engine. *)
Theorem timeouts_apply_exactly env known t :
  from_env env known = Ok t →
  ∃ seconds overrides legacy,
    _parse_overrides (_setting env PER_ENGINE_TIMEOUT_ENV) known = Ok overrides ∧
    (∀ name, (for_engine t name == requested seconds overrides legacy name)%Q ∧ (0 < for_engine t name)%Q) ∧
    (∀ name s, overrides !! name = Some s → name ∈ known) ∧
    (_setting env GLOBAL_TIMEOUT_ENV = None → seconds = DEFAULT_ENGINE_TIMEOUT_S) ∧
    (∀ raw, _setting env GLOBAL_TIMEOUT_ENV = Some raw → py_float raw = Some (Fin seconds)) ∧
    (_setting env LEGACY_LLM_TIMEOUT_ENV = None → legacy = None) ∧
    (∀ raw, _setting env LEGACY_LLM_TIMEOUT_ENV = Some raw → ∃ s, legacy = Some s ∧ py_float raw = Some (Fin s)).
Proof.
  unfold from_env. intros (seconds & Hs & (overrides & Ho & (per & Hp & [= <-])%bind_Ok)%bind_Ok)%bind_Ok.
  assert (Hsec : (0 < seconds)%Q).
  { destruct (_setting env GLOBAL_TIMEOUT_ENV); [by eapply parse_positive|]. injection Hs as <-. done. }
  destruct (per_engine_spec env _ known seconds overrides per Hsec Ho Hp) as (legacy & Hall & Hl1 & Hl2).
  exists seconds, overrides, legacy. split_and!; [done|done|..|done|done].
  - intros name s Hl. by eapply overrides_positive.
  - intros E. rewrite E in Hs. by injection Hs.
  - intros raw E. rewrite E in Hs. by apply parse_read.
Qed.
End timeouts.

Module TimeoutSamples.
(** A loader that knows two documents. *)
Definition sample_loads (text : string) : Loaded :=
  if String.eqb text "A" then loaded_object [("bandit", plain (JNum 90)); ("aig-mcp-scan", plain (JFloat (601 # 2)))]
  else if String.eqb text "B" then loaded_object [("bandit", nonfinite not_a_number)]
  else if String.eqb text "C" then loaded_object [("bandti", plain (JNum 90))]
  else if String.eqb text "D" then loaded_object [("bandit", plain (JBool true))]
  else loaded_error.

Definition engines : gset string := {["bandit"; "yara"; "aig-mcp-scan"]}.
Definition env (global overrides legacy : string) : Env :=
  {[GLOBAL_TIMEOUT_ENV := global; PER_ENGINE_TIMEOUT_ENV := overrides; LEGACY_LLM_TIMEOUT_ENV := legacy]}.

Definition configured : EngineTimeouts :=
  match from_env sample_loads (env "75" "A" " 300.5 ") engines with Ok t => t | Err _ => mkEngineTimeouts 0 ∅ end.

Lemma timeouts_apply_exactly_witness : (0 < for_engine configured "yara")%Q.
Proof.
  destruct (timeouts_apply_exactly sample_loads (env "75" "A" " 300.5 ") engines configured) as (s & o & l & _ & H & _).
  - vm_compute. reflexivity.
  - apply H.
Defined.

Example precedence :
  map (for_engine configured) ["bandit"; "yara"; "aig-mcp-scan"] = [90; 75; 601 # 2]%Q.
Proof. vm_compute. reflexivity. Qed.

Definition refused (global overrides legacy : string) : option TimeoutConfigError :=
  match from_env sample_loads (env global overrides legacy) engines with Err e => Some e | Ok _ => None end.

(** Every mistake stops the start: NaN, a misspelt engine, a boolean, zero, a conflict with the deprecated setting. *)
Example mistakes_are_refused :
  [refused "" "B" ""; refused "" "C" ""; refused "" "D" ""; refused "0" "" ""; refused "inf" "" ""; refused "" "A" "60"; refused "x" "" ""]
  = [Some not_finite_seconds; Some unknown_engine; Some not_seconds; Some not_positive; Some not_finite_seconds;
     Some legacy_conflict; Some not_a_number_text].
Proof. vm_compute. reflexivity. Qed.
End TimeoutSamples.
