(* ===== verification/Aig.v ===== *)
(** * The AI-Infra-Guard adapter: [services/engine_runner/adapters/aig.py]

    The one engine that is only a language model: the environment and command line its
    subprocess gets, and the findings its log is read for.  The model's text arrives as
    bytes; lower case outside ASCII, the character database behind [\w], SHA-256 and the
    check of the endpoint (PinnedDns.v) are parameters. *)

From S2P Require Import Prelude Float64 Models Canonical Unpack Adapter Json JsonText PyText Regex Package Keyword Timeouts.
From Stdlib Require Import QArith.
Open Scope string_scope.
Open Scope list_scope.
Open Scope Z_scope.

Definition _ENGINE_NAME : string := "aig-mcp-scan".
Definition _PLACEHOLDER_API_KEY : string := "internal-vllm-no-auth-enforced".

Definition aig_metadata (ruleset_digest version : string) : EngineMetadata :=
  mkEngineMetadata _ENGINE_NAME version ruleset_digest [SEMANTIC_LLM] false true true.

(** ** The subprocess *)

(** [_ArgvBuilder.__call__]. *)
Definition aig_argv (interpreter script base_url model target_dir : string) : list string :=
  [interpreter; script; "--repo"; target_dir; "--base_url"; base_url; "--model"; model; "--language"; "zh"].

Definition env_pairs (openai_base_url model key : string) (path : option string) : list (string * string) :=
  [("PATH", default "" path); ("OPENROUTER_API_KEY", key);
   ("DEFAULT_BASE_URL", openai_base_url); ("DEFAULT_MODEL", model);
   ("THINKING_BASE_URL", openai_base_url); ("THINKING_MODEL", model); ("THINKING_API_KEY", key);
   ("CODING_BASE_URL", openai_base_url); ("CODING_MODEL", model); ("CODING_API_KEY", key);
   ("FAST_BASE_URL", openai_base_url); ("FAST_MODEL", model); ("FAST_API_KEY", key)].

(** [api_key or _PLACEHOLDER_API_KEY]. *)
Definition key_or_placeholder (api_key : option string) : string :=
  match api_key with Some k => if String.eqb k "" then _PLACEHOLDER_API_KEY else k | None => _PLACEHOLDER_API_KEY end.

(** [_build_env]: [check] is what [require_internal_endpoint] says this time. *)
Definition _build_env (check : string → result string string) (openai_base_url model : string) (api_key : option string) (path : option string)
    : result string (gmap string string) :=
  _ ← check openai_base_url; Ok (list_to_map (env_pairs openai_base_url model (key_or_placeholder api_key) path)).

(** ** What the log says *)

Definition part (p : string) : re := default r_eps (compile_dotall p).
(** The group is the second part. *)
Definition _VULN_BLOCK_RE : list re := [part "<vuln>\s*"; part "(.*?)"; part "\s*</vuln>"].
Definition tag_re (tag : string) : list re := [part ("<" +:+ tag +:+ ">\s*"); part "(.*?)"; part ("\s*</" +:+ tag +:+ ">")].

Definition aig_LEVEL_TO_SEVERITY (level : points) : Severity :=
  if bool_decide (level = str_bytes "critical") then CRITICAL
  else if bool_decide (level = str_bytes "high") then HIGH
  else if bool_decide (level = str_bytes "medium") then MEDIUM
  else if bool_decide (level = str_bytes "low") then LOW
  else MEDIUM.

Definition _KEYWORD_RULES : list (list string * string * DetectionCategory) :=
  [
   (["tool poisoning"; "tool description"; "hidden instruction"; "工具描述投毒"; "隐藏指令"], "MCP-01", INSTRUCTION);
   (["impersonat"; "typosquat"; "冒充"; "仿冒"], "MCP-02", SUPPLY_CHAIN);
   (["cross-server"; "cross server"; "cross-domain"; "跨域"; "跨server"], "MCP-03", PERMISSION);
   (["server config"; "tls"; "https"; "unauthenticated"; "server卫生"; "配置卫生"], "MCP-04", PERMISSION);
   (["behavior"; "description mismatch"; "行为与描述"; "行为不符"], "PROMPT-05", INSTRUCTION);
   (["credential"; "token"; "secret"; "api key"; "凭据"; "令牌"; "密钥泄露"], "CRED-04", DATA_CREDENTIAL);
   (["command injection"; "code injection"; "rce"; "命令注入"; "代码注入"], "CODE-01", CODE);
   (["deserializ"; "反序列化"], "CODE-07", CODE);
   (["path traversal"; "arbitrary file"; "路径穿越"; "任意文件"], "FILE-04", FILE_PACKAGE);
   (["ssrf"; "server-side request forgery"], "NET-06", NETWORK_INTEL);
   (["exfil"; "外传"; "外泄"], "NET-04", NETWORK_INTEL)].

Section parsing.
Variables wide_word wide_digit : Z → bool.
Variable py_lower : points → points.
Variable sha256 : bytes → string.

Definition _extract_tag (block : points) (tag : string) : option points := strip_points <$> search_group wide_word wide_digit (tag_re tag) block.

Definition aig_classify (risk_type title : points) : string * DetectionCategory :=
  let haystack := py_lower (risk_type ++ 32 :: title) in
  match find (λ rule, existsb (λ kw, occurs (code_points kw) haystack) rule.1.1) _KEYWORD_RULES with
  | Some (_, test_item_id, category) => (test_item_id, category)
  | None => ("GEN-01", INSTRUCTION)
  end.

Definition underscored (s : points) : points := map (λ c, if c =? 32 then 95 else c) s.

(** A block without a title, a description or a type of risk is dropped. *)
Definition aig_block (block : points) : option Finding :=
  title ← _extract_tag block "title";
  desc ← _extract_tag block "desc";
  risk_type ← _extract_tag block "risk_type";
  let level := match _extract_tag block "level" with Some (c :: l) => c :: l | _ => str_bytes "medium" end in
  if bool_decide (title = []) || bool_decide (desc = []) || bool_decide (risk_type = []) then None
  else let '(test_item_id, category) := aig_classify risk_type title in
       Some (mkFinding (text_of (str_bytes "aig." ++ underscored (py_lower risk_type))) test_item_id category (text_of (take 200 title))
               (aig_LEVEL_TO_SEVERITY (py_lower level)) (rnd64 (6 # 10)) "aig-mcp-scan" SEMANTIC_LLM ∅ None None
               (Some (sha256 (encode desc))) (text_of (take 200 desc))).

Definition parse_stderr (stderr : bytes) : list Finding :=
  omap aig_block (findall wide_word wide_digit _VULN_BLOCK_RE (decode stderr)).

(** [parse_output]: the log goes to the standard error; the parser does not raise. *)
Definition aig_parse_output (stderr : option bytes) : Parsed := parsed (parse_stderr (default [] stderr)).
End parsing.

(** [make_adapter], once its check has passed. *)
Definition aig_adapter (interpreter ruleset_digest version : string) (timeout_s : Q) : Adapter :=
  mkAdapter (aig_metadata ruleset_digest version) interpreter timeout_s true.

(** ** What is reported *)

Section reported.
Context (wide_word wide_digit : Z → bool) (py_lower : points → points) (sha256 : bytes → string).
Local Abbreviation parse_stderr := (parse_stderr wide_word wide_digit py_lower sha256).

Lemma aig_block_inv block f : aig_block wide_word wide_digit py_lower sha256 block = Some f →
  is_llm_sourced f = true ∧ source_engine f = _ENGINE_NAME ∧ sev_le LOW (severity f) = true ∧ rule_id f ≠ "" ∧ trifecta_signals f = ∅ ∧
  test_item_id f ∈ "GEN-01" :: map (λ rule, rule.1.2) _KEYWORD_RULES.
Proof.
  unfold aig_block. destruct (_extract_tag _ _ block "title") as [title|]; [|done]. destruct (_extract_tag _ _ block "desc") as [desc|]; [|done].
  destruct (_extract_tag _ _ block "risk_type") as [risk_type|]; [|done]. cbn [mbind option_bind]. destruct (_ || _); [done|].
  destruct (aig_classify py_lower risk_type title) as [item category] eqn:Ec. intros [= <-]. cbn. split_and!; try done.
  - unfold aig_LEVEL_TO_SEVERITY. repeat case_bool_decide; done.
  - unfold aig_classify in Ec. destruct (find _ _) as [[[kws i] c]|] eqn:Ef; [|simplify_eq; by left].
    apply find_some in Ef as [Hin%list_elem_of_In _]. simplify_eq. right. by apply (list_elem_of_fmap_2 (λ rule : list string * string * DetectionCategory, rule.1.2)) in Hin.
Qed.

(** the model's word is only the model's word.  Whatever the subprocess writes, every
    finding that is read from it is marked as a language model's, has a severity and a
    rule, carries no trifecta signal and falls under an item of the adapter's table. *)
Theorem aig_findings_are_the_models stderr f :
  f ∈ parse_stderr stderr →
  is_llm_sourced f = true ∧ source_engine f = _ENGINE_NAME ∧ sev_le LOW (severity f) = true ∧ rule_id f ≠ "" ∧ trifecta_signals f = ∅ ∧
  test_item_id f ∈ "GEN-01" :: map (λ rule, rule.1.2) _KEYWORD_RULES.
Proof. intros (block & _ & H)%list_elem_of_omap. by apply aig_block_inv in H. Qed.
End reported.

(** ** Where it talks to *)

Definition names_an_address (name : string) : bool := String.eqb (String.substring (String.length name - 9) 9 name) "_BASE_URL".

(** every model role is pinned to the checked endpoint.  The environment is built only
    when the endpoint passes the check at that moment; each variable that names a base
    address holds that endpoint, the four roles have one, and the address on the command
    line is the same. *)
Theorem aig_talks_to_the_checked_endpoint check url model api_key path env interpreter script target :
  _build_env check url model api_key path = Ok env →
  (∃ x, check url = Ok x) ∧
  (∀ name v, env !! name = Some v → names_an_address name = true → v = url) ∧
  Forall (λ role, env !! (role +:+ "_BASE_URL") = Some url) ["DEFAULT"; "THINKING"; "CODING"; "FAST"] ∧
  ∃ before after, aig_argv interpreter script url model target = before ++ ["--base_url"; url] ++ after.
Proof.
  unfold _build_env. intros H. apply bind_Ok in H as (x & Hc & H). split; [by exists x|].
  assert (env = list_to_map (env_pairs url model (key_or_placeholder api_key) path)) as -> by congruence. clear H. split_and!.
  - intros name v Hin Hsuf. apply elem_of_list_to_map_2 in Hin. unfold env_pairs in Hin.
    repeat (apply elem_of_cons in Hin as [[= -> ->]|Hin]; [done|]). by apply elem_of_nil in Hin.
  - repeat constructor.
  - by exists [interpreter; script; "--repo"; target], ["--model"; model; "--language"; "zh"].
Qed.

(** ** Reading well-formed blocks *)

(** Where [s] occurs first. *)
Fixpoint find_at (s text : points) : option nat :=
  if starts_with s text then Some 0%nat else match text with [] => None | _ :: text => S <$> find_at s text end.

Lemma find_at_first s pre post n : find_at s (pre ++ s ++ post) = Some n → (n <= length pre)%nat.
Proof.
  revert n. induction pre as [|c pre IH]; intros n H.
  - cbn in H. assert (starts_with s (s ++ post) = true) as E by (apply starts_with_app; by exists post). destruct (s ++ post); cbn [find_at] in H; rewrite E in H; by simplify_eq.
  - cbn [app find_at] in H. destruct (starts_with s _); [simplify_eq; lia|]. apply fmap_Some in H as (k & Hk & ->). apply IH in Hk. cbn. lia.
Qed.

(** Text without the first character of [s] hides no occurrence. *)
Lemma find_at_skip c s x text : c ∉ x → find_at (c :: s) (x ++ text) = Nat.add (length x) <$> find_at (c :: s) text.
Proof.
  intros Hx. induction x as [|d x IH]; [cbn; by destruct (find_at _ text)|]. apply not_elem_of_cons in Hx as [Hd Hx].
  cbn [app find_at starts_with]. destruct (Z.eqb_spec c d); [done|]. cbn. rewrite (IH Hx). by destruct (find_at (c :: s) text).
Qed.

Section matching_blocks.
Context (wide_word wide_digit : Z → bool).
Local Abbreviation m := (m wide_word wide_digit).
Local Abbreviation match_parts := (match_parts wide_word wide_digit).
Definition spaces : re := r_rep (r_set false [i_space]) 0 None.

Lemma m_lits {A} s r (k : points → points → option A) b a : m (lits s r) k b (s ++ a) = m r k (reverse s ++ b) a.
Proof.
  revert b. induction s as [|c s IH]; intros b; [done|]. cbn [lits foldr app Regex.m]. unfold in_set. cbn [existsb in_item].
  rewrite Z.eqb_refl. cbn [orb xorb]. fold (lits s r). by rewrite IH, reverse_cons, <-app_assoc.
Qed.

Lemma m_lits_None {A} s r (k : points → points → option A) b a : starts_with s a = false → m (lits s r) k b a = None.
Proof.
  revert b a. induction s as [|c s IH]; intros b a H; [done|]. cbn in H |- *. destruct a as [|d a]; [done|]. unfold in_set. cbn.
  rewrite Z.eqb_sym. destruct (c =? d); cbn in *; [by apply IH|done].
Qed.

(** Text that does not start with space. *)
Definition flush (a : points) : Prop := head_in space a = false.

Lemma m_spaces {A} (k : points → points → option A) b a : flush a → m spaces k b a = k b a.
Proof.
  intros H. unfold spaces. cbn [Regex.m]. destruct a as [|c a]; [done|]. cbn [length repeat_m Regex.m]. unfold in_set. cbn. cbn in H. by rewrite H.
Qed.

(** The lazy dot stops at the first place where the rest matches. *)
Lemma m_lazy_any {A} x : ∀ (k : points → points → option A) b a fuel, (length x <= fuel)%nat →
  (∀ x1 x2, x = x1 ++ x2 → x2 ≠ [] → k (reverse x1 ++ b) (x2 ++ a) = None) →
  k (reverse x ++ b) a ≠ None →
  lazy_m (m (r_set true [])) fuel k b (x ++ a) = k (reverse x ++ b) a.
Proof.
  induction x as [|c x IH]; intros k b a fuel Hf Hno Hyes.
  - cbn in Hyes |- *. destruct fuel; cbn [lazy_m]; by destruct (k b a).
  - destruct fuel as [|fuel]; [cbn in Hf; lia|]. cbn [app lazy_m]. pose proof (Hno [] (c :: x) eq_refl ltac:(done)) as H0. cbn [app reverse] in H0.
    change (reverse [] ++ b) with b in H0. rewrite H0. cbn [Regex.m]. unfold in_set at 1. cbn [existsb xorb].
    rewrite (proj2 (Nat.ltb_lt _ _)) by (cbn; lia). rewrite reverse_cons, <-app_assoc in Hyes |- *. cbn [app] in *.
    apply IH; [cbn in Hf; lia| |done]. intros x1 x2 -> Hx2. specialize (Hno (c :: x1) x2 eq_refl Hx2). by rewrite reverse_cons, <-app_assoc in Hno.
Qed.

(** The three parts of a pattern for a tag. *)
Definition tag_parts (open close : points) (last_char : Z) : list re :=
  [lits open spaces; r_lazy (r_set true []); r_seq spaces (lits close (r_set false [i_char last_char]))].

Definition trimmed (x : points) : Prop := flush x ∧ flush (reverse x).

Lemma close_sem close e b w a :
  sem wide_word wide_digit (r_seq spaces (lits close (r_set false [i_char e]))) b w a ↔
  ∃ sp, w = sp ++ close ++ [e] ∧ Forall (λ c, space c = true) sp.
Proof.
  split.
  - intros (sp & w2 & -> & Hsp & H). apply sem_lits in H as (w' & -> & (c & -> & Hc)). unfold in_set in Hc. cbn in Hc. rewrite orb_false_r in Hc.
    apply Z.eqb_eq in Hc as ->. exists sp. split; [done|]. apply sem_any_number in Hsp. eapply Forall_impl; [exact Hsp|]. intros c Hc. unfold in_set in Hc. cbn in Hc.
    by rewrite orb_false_r in Hc.
  - intros (sp & -> & Hsp). exists sp, (close ++ [e]). split; [done|]. split.
    + apply sem_any_number. eapply Forall_impl; [exact Hsp|]. intros c Hc. unfold in_set. cbn. by rewrite Hc.
    + apply sem_lits. exists [e]. split; [done|]. exists e. split; [done|]. unfold in_set. cbn. by rewrite Z.eqb_refl.
Qed.

Lemma match_tag open close e x rest b :
  trimmed x → flush ((close ++ [e]) ++ rest) → find_at (close ++ [e]) (x ++ (close ++ [e]) ++ rest) = Some (length x) →
  match_parts (tag_parts open close e) b (open ++ x ++ (close ++ [e]) ++ rest) =
  Some [x ++ (close ++ [e]) ++ rest; (close ++ [e]) ++ rest; rest].
Proof.
  intros [Hflush Htrim] Hclose Hfirst. unfold Regex.match_parts, tag_parts. cbn [parts_m]. rewrite m_lits, m_spaces by (by destruct x). cbn [Regex.m].
  set (k := λ b0 a0, parts_m wide_word wide_digit [r_seq spaces (lits close (r_set false [i_char e]))] [a0; x ++ (close ++ [e]) ++ rest] b0 a0).
  assert (Hyes : k (reverse x ++ reverse open ++ b) ((close ++ [e]) ++ rest) = Some [x ++ (close ++ [e]) ++ rest; (close ++ [e]) ++ rest; rest]).
  { unfold k. cbn [parts_m Regex.m]. rewrite m_spaces by done. rewrite <-(app_assoc close [e] rest) at 1. rewrite m_lits. cbn [app Regex.m].
    unfold in_set. cbn. by rewrite Z.eqb_refl. }
  change (lazy_m (m (r_set true [])) (length (x ++ (close ++ [e]) ++ rest)) k (reverse open ++ b) (x ++ (close ++ [e]) ++ rest) =
          Some [x ++ (close ++ [e]) ++ rest; (close ++ [e]) ++ rest; rest]).
  rewrite m_lazy_any; [done|rewrite length_app; lia| |by rewrite Hyes].
  intros x1 x2 Hx Hx2. destruct (k (reverse x1 ++ reverse open ++ b) (x2 ++ (close ++ [e]) ++ rest)) as [t|] eqn:E; [|done]. exfalso.
  unfold k in E. cbn [parts_m] in E. apply m_sound in E as (w & a' & Ew & (sp & -> & Hsp)%close_sem & _).
  rewrite <-(app_assoc sp (close ++ [e]) a') in Ew. destruct (decide (length sp < length x2)%nat) as [Hl|Hl].
  - rewrite Hx, <-app_assoc, Ew, app_assoc in Hfirst. apply find_at_first in Hfirst. rewrite !length_app in Hfirst. lia.
  - apply (f_equal (take (length x2))) in Ew. rewrite take_app_length, take_app_le in Ew by lia.
    assert (Forall (λ c, space c = true) x2) as Hall by (rewrite Ew; by apply Forall_take).
    unfold flush in Htrim. rewrite Hx, reverse_app in Htrim. destruct x2 as [|c x2 _] using rev_ind; [done|].
    apply Forall_app in Hall as [_ [Hc _]%Forall_cons]. rewrite reverse_snoc in Htrim. change (space c = false) in Htrim. cbn beta in Hc. by rewrite Hc in Htrim.
Qed.

(** A search skips what does not open the tag. *)
Lemma group_at open close e pre text b :
  find_at open (pre ++ text) = Some (length pre) →
  group_from wide_word wide_digit (tag_parts open close e) b (pre ++ text) =
  group_from wide_word wide_digit (tag_parts open close e) (reverse pre ++ b) text.
Proof.
  revert b. induction pre as [|c pre IH]; intros b H; [done|]. cbn [app find_at length] in H. destruct (starts_with open (c :: pre ++ text)) eqn:E; [done|].
  apply fmap_Some in H as (n & Hn & [= <-]). cbn [app group_from].
  assert (match_parts (tag_parts open close e) b (c :: pre ++ text) = None) as ->.
  { unfold Regex.match_parts, tag_parts. cbn [parts_m]. by rewrite m_lits_None. }
  rewrite (IH (c :: b) Hn). by rewrite reverse_cons, <-app_assoc.
Qed.

Lemma search_tag open close e pre x post :
  find_at open (pre ++ open ++ x ++ (close ++ [e]) ++ post) = Some (length pre) →
  trimmed x → flush ((close ++ [e]) ++ post) → find_at (close ++ [e]) (x ++ (close ++ [e]) ++ post) = Some (length x) →
  search_group wide_word wide_digit (tag_parts open close e) (pre ++ open ++ x ++ (close ++ [e]) ++ post) = Some x.
Proof.
  intros Ho Ht Hf Hc. unfold search_group. rewrite group_at by done. rewrite app_nil_r.
  destruct (open ++ x ++ (close ++ [e]) ++ post) eqn:E; cbn [group_from]; rewrite <-E, match_tag by done; by rewrite span_app.
Qed.

(** A block as it is asked for, whose texts hold no angle bracket. *)
Record Vuln := mkVuln { vu_title : points; vu_desc : points; vu_risk : points; vu_level : points }.
Definition tagged (tag : string) (x : points) : points := str_bytes ("<" +:+ tag +:+ ">") ++ x ++ (str_bytes ("</" +:+ tag) ++ [62]).
Definition vuln_block (v : Vuln) : points :=
  tagged "title" (vu_title v) ++ tagged "desc" (vu_desc v) ++ tagged "risk_type" (vu_risk v) ++ tagged "level" (vu_level v).
Definition plain_text (x : points) : Prop := x ≠ [] ∧ trimmed x ∧ 60 ∉ x.
Definition plain_vuln (v : Vuln) : Prop := plain_text (vu_title v) ∧ plain_text (vu_desc v) ∧ plain_text (vu_risk v) ∧ plain_text (vu_level v).

(** A tag after others. *)
Lemma search_tagged tag pre x post :
  tag_re tag = tag_parts (str_bytes ("<" +:+ tag +:+ ">")) (str_bytes ("</" +:+ tag)) 62 → plain_text x →
  find_at (str_bytes ("<" +:+ tag +:+ ">")) (pre ++ tagged tag x ++ post) = Some (length pre) →
  search_group wide_word wide_digit (tag_re tag) (pre ++ tagged tag x ++ post) = Some x.
Proof.
  intros -> (Hne & Ht & Hx) Hf. unfold tagged in *. rewrite <-!(app_assoc (str_bytes ("<" +:+ tag +:+ ">"))), <-(app_assoc x) in *.
  apply search_tag; [done|done|done|].
  change (str_bytes ("</" +:+ tag) ++ [62]) with (60 :: (47 :: str_bytes tag) ++ [62]).
  rewrite find_at_skip by done. set (cl := 60 :: (47 :: str_bytes tag) ++ [62]).
  assert (starts_with cl (cl ++ post) = true) as E by (apply starts_with_app; by exists post).
  assert (find_at cl (cl ++ post) = Some 0%nat) as -> by (unfold cl in *; cbn [app find_at] in *; by rewrite E).
  cbn. f_equal. lia.
Qed.

(** Words that differ before either ends. *)
Fixpoint clash (s w : points) : bool := match s, w with c :: s, d :: w => negb (c =? d) || clash s w | _, _ => false end.
Fixpoint all_clash (s w : points) : bool := match w with [] => true | _ :: w' => clash s w && all_clash s w' end.

Lemma clash_starts s w text : clash s w = true → starts_with s (w ++ text) = false.
Proof.
  revert w. induction s as [|c s IH]; intros w H; [done|]. destruct w as [|d w]; [done|]. cbn in H |- *. destruct (c =? d); cbn in *; [by apply IH|done].
Qed.

Lemma find_at_word s w text : all_clash s w = true → find_at s (w ++ text) = Nat.add (length w) <$> find_at s text.
Proof.
  induction w as [|c w IH]; intros H; [cbn; by destruct (find_at s text)|]. cbn [all_clash] in H. apply andb_true_iff in H as [Hc H].
  apply (clash_starts _ _ text) in Hc. cbn [app] in Hc |- *. cbn [find_at]. rewrite Hc, (IH H). by destruct (find_at s text).
Qed.

Lemma skip_tag s tag x text : all_clash (60 :: s) (str_bytes ("<" +:+ tag +:+ ">")) = true → all_clash (60 :: s) (str_bytes ("</" +:+ tag) ++ [62]) = true → 60 ∉ x →
  find_at (60 :: s) (tagged tag x ++ text) = Nat.add (length (tagged tag x)) <$> find_at (60 :: s) text.
Proof.
  intros H1 H2 Hx. unfold tagged. rewrite <-!(app_assoc (str_bytes ("<" +:+ tag +:+ ">"))), <-(app_assoc x).
  rewrite find_at_word, find_at_skip, find_at_word by done. destruct (find_at (60 :: s) text); [|done]. cbn [fmap option_fmap option_map]. f_equal.
  rewrite !length_app. lia.
Qed.

Lemma find_here s text : find_at s (s ++ text) = Some 0%nat.
Proof.
  assert (starts_with s (s ++ text) = true) as E by (apply starts_with_app; by exists text). destruct (s ++ text); cbn [find_at]; by rewrite E.
Qed.

(** The four fields of a block. *)
Lemma block_fields v : plain_vuln v →
  search_group wide_word wide_digit (tag_re "title") (vuln_block v) = Some (vu_title v) ∧
  search_group wide_word wide_digit (tag_re "desc") (vuln_block v) = Some (vu_desc v) ∧
  search_group wide_word wide_digit (tag_re "risk_type") (vuln_block v) = Some (vu_risk v) ∧
  search_group wide_word wide_digit (tag_re "level") (vuln_block v) = Some (vu_level v).
Proof.
  destruct v as [t d r l]. intros (Ht & Hd & Hr & Hl). cbn in *. unfold vuln_block. cbn.
  assert (60 ∉ t ∧ 60 ∉ d ∧ 60 ∉ r) as (Ht' & Hd' & Hr') by (split_and!; [apply Ht|apply Hd|apply Hr]).
  split_and!.
  - apply (search_tagged "title" []); [reflexivity|done|]. rewrite app_nil_l. unfold tagged at 1. rewrite <-!app_assoc. apply find_here.
  - apply (search_tagged "desc" (tagged "title" t)); [reflexivity|done|]. rewrite (skip_tag (str_bytes "desc>") "title") by done. unfold tagged at 2.
    rewrite <-!app_assoc. change (60 :: str_bytes "desc>") with (str_bytes ("<" +:+ "desc" +:+ ">")). rewrite find_here. cbn. f_equal. lia.
  - change (tagged "title" t ++ tagged "desc" d ++ tagged "risk_type" r ++ tagged "level" l) with
      (tagged "title" t ++ (tagged "desc" d ++ (tagged "risk_type" r ++ tagged "level" l))). rewrite (app_assoc (tagged "title" t)).
    apply search_tagged; [reflexivity|done|]. rewrite <-app_assoc, !(skip_tag (str_bytes "risk_type>")) by done. unfold tagged at 3.
    rewrite <-!app_assoc. change (60 :: str_bytes "risk_type>") with (str_bytes ("<" +:+ "risk_type" +:+ ">")). rewrite find_here. cbn. f_equal. rewrite length_app. lia.
  - rewrite <-(app_nil_r (tagged "level" l)). rewrite (app_assoc (tagged "desc" d)), (app_assoc (tagged "title" t)).
    apply search_tagged; [reflexivity|done|]. rewrite <-!app_assoc, !(skip_tag (str_bytes "level>")) by done. unfold tagged at 4.
    rewrite <-!app_assoc. change (60 :: str_bytes "level>") with (str_bytes ("<" +:+ "level" +:+ ">")). rewrite find_here. cbn. f_equal. rewrite !length_app. lia.
Qed.

Lemma findall_skip rs w : ∀ b a, findall_from wide_word wide_digit rs (length w) b (w ++ a) = findall_from wide_word wide_digit rs 0 (reverse w ++ b) a.
Proof. induction w as [|c w IH]; intros b a; [done|]. cbn [length app findall_from]. rewrite IH. by rewrite reverse_cons, <-app_assoc. Qed.

Lemma findall_noise open close e noise text b : 60 ∉ noise →
  findall_from wide_word wide_digit (tag_parts (60 :: open) close e) 0 b (noise ++ text) =
  findall_from wide_word wide_digit (tag_parts (60 :: open) close e) 0 (reverse noise ++ b) text.
Proof.
  revert b. induction noise as [|c noise IH]; intros b H; [done|]. apply not_elem_of_cons in H as [Hc H]. cbn [app findall_from].
  assert (match_parts (tag_parts (60 :: open) close e) b (c :: noise ++ text) = None) as ->.
  { unfold Regex.match_parts, tag_parts. cbn [parts_m]. rewrite m_lits_None; [done|]. cbn [starts_with]. by destruct (Z.eqb_spec 60 c). }
  rewrite (IH (c :: b) H). by rewrite reverse_cons, <-app_assoc.
Qed.

Lemma vuln_re : _VULN_BLOCK_RE = tag_parts (str_bytes "<vuln>") (str_bytes "</vuln") 62.
Proof. reflexivity. Qed.

Lemma findall_block v rest b : plain_vuln v → ∃ b',
  findall_from wide_word wide_digit _VULN_BLOCK_RE 0 b (tagged "vuln" (vuln_block v) ++ rest) =
  vuln_block v :: findall_from wide_word wide_digit _VULN_BLOCK_RE 0 b' rest.
Proof.
  intros Hv. rewrite vuln_re. unfold tagged. rewrite <-!(app_assoc (str_bytes ("<" +:+ "vuln" +:+ ">"))), <-(app_assoc (vuln_block v)).
  assert (Hm : match_parts (tag_parts (str_bytes "<vuln>") (str_bytes "</vuln") 62) b
            (str_bytes "<vuln>" ++ vuln_block v ++ (str_bytes "</vuln" ++ [62]) ++ rest) =
          Some [vuln_block v ++ (str_bytes "</vuln" ++ [62]) ++ rest; (str_bytes "</vuln" ++ [62]) ++ rest; rest]).
  { apply match_tag; [|done|].
    - split; [done|]. assert (∃ y, vuln_block v = y ++ [62]) as [y E] by (eexists; unfold vuln_block, tagged; rewrite !app_assoc; reflexivity).
      unfold flush. by rewrite E, reverse_snoc.
    - destruct Hv as (Ht & Hd & Hr & Hl). unfold vuln_block. rewrite <-!app_assoc.
      rewrite !(skip_tag (str_bytes "/vuln>")) by (reflexivity || apply Ht || apply Hd || apply Hr || apply Hl).
      change (60 :: str_bytes "/vuln>") with (str_bytes "</vuln" ++ [62]). rewrite app_assoc, find_here. cbn. f_equal. rewrite !length_app. lia. }
  remember (str_bytes "<vuln>" ++ vuln_block v ++ (str_bytes "</vuln" ++ [62])) as whole eqn:Hw.
  assert (str_bytes "<vuln>" ++ vuln_block v ++ (str_bytes "</vuln" ++ [62]) ++ rest = whole ++ rest) as Ew by (subst; by rewrite <-!app_assoc).
  change (str_bytes ("<" +:+ "vuln" +:+ ">")) with (str_bytes "<vuln>"). change (str_bytes ("</" +:+ "vuln")) with (str_bytes "</vuln").
  rewrite Ew in Hm |- *. destruct whole as [|c whole]; [done|]. cbn [app findall_from]. cbn [app] in Hm. rewrite Hm.
  change (c :: whole ++ rest) with ((c :: whole) ++ rest). rewrite !span_app. cbn [length pred]. rewrite findall_skip. by eexists.
Qed.

Definition report_text (reports : list (points * Vuln)) (tail : points) : points :=
  concat (map (λ nv, nv.1 ++ tagged "vuln" (vuln_block nv.2)) reports) ++ tail.

Lemma findall_reports reports tail b : Forall (λ nv, 60 ∉ nv.1 ∧ plain_vuln nv.2) reports → 60 ∉ tail →
  findall_from wide_word wide_digit _VULN_BLOCK_RE 0 b (report_text reports tail) = map (λ nv, vuln_block nv.2) reports.
Proof.
  intros Hall Htail. revert b. induction Hall as [|[noise v] reports [Hn Hv] _ IH]; intros b.
  - unfold report_text. cbn [map concat app]. rewrite vuln_re, <-(app_nil_r tail). by rewrite (findall_noise (str_bytes "vuln>")).
  - unfold report_text. cbn [map concat fst snd]. rewrite <-!app_assoc. rewrite vuln_re at 1. rewrite (findall_noise (str_bytes "vuln>")) by done.
    change (tag_parts (60 :: str_bytes "vuln>") (str_bytes "</vuln") 62) with _VULN_BLOCK_RE.
    destruct (findall_block v (report_text reports tail) (reverse noise ++ b) Hv) as [b' E]. unfold report_text in E. rewrite E. f_equal. apply IH.
Qed.
End matching_blocks.

Section read_back.
Context (wide_word wide_digit : Z → bool) (py_lower : points → points) (sha256 : bytes → string).

Lemma strip_trimmed x : trimmed x → strip_points x = x.
Proof.
  intros [H1 H2]. unfold strip_points. assert (∀ y, flush y → lstrip_points y = y) as Hl.
  { intros [|c y] H; [done|]. cbn. unfold flush in H. cbn [head_in] in H. change (is_uspace c) with (space c). by rewrite H. }
  rewrite (Hl x H1), (Hl (rev x)); [apply rev_involutive|]. rewrite rev_alt. exact H2.
Qed.

(** The finding of a block. *)
Definition finding_of (v : Vuln) : Finding :=
  let '(test_item_id, category) := aig_classify py_lower (vu_risk v) (vu_title v) in
  mkFinding (text_of (str_bytes "aig." ++ underscored (py_lower (vu_risk v)))) test_item_id category (text_of (take 200 (vu_title v)))
    (aig_LEVEL_TO_SEVERITY (py_lower (vu_level v))) (rnd64 (6 # 10)) "aig-mcp-scan" SEMANTIC_LLM ∅ None None
    (Some (sha256 (encode (vu_desc v)))) (text_of (take 200 (vu_desc v))).

(** well-formed reports are read back.  From a log that holds vulnerability blocks with
    any other lines between them, the adapter reads exactly the reported ones, in their
    order: each with its title, description, type of risk and level. *)
Theorem well_formed_reports_are_read stderr reports tail :
  decode stderr = report_text reports tail → Forall (λ nv, 60 ∉ nv.1 ∧ plain_vuln nv.2) reports → 60 ∉ tail →
  parse_stderr wide_word wide_digit py_lower sha256 stderr = map (λ nv, finding_of nv.2) reports.
Proof.
  intros Hd Hall Htail. unfold parse_stderr, findall. rewrite Hd, findall_reports by done. clear Hd.
  induction Hall as [|[noise v] reports [_ Hv] _ IH]; [done|]. cbn [map fst snd omap list_omap].
  assert (aig_block wide_word wide_digit py_lower sha256 (vuln_block v) = Some (finding_of v)) as ->; [|f_equal; apply IH].
  { destruct (block_fields wide_word wide_digit v Hv) as (H1 & H2 & H3 & H4). destruct Hv as ((Ht & Ht' & _) & (Hd' & Hd'' & _) & (Hr & Hr' & _) & (Hl & Hl' & _)).
    unfold aig_block, _extract_tag. rewrite H1, H2, H3, H4. cbn [fmap option_fmap option_map mbind option_bind]. rewrite !strip_trimmed by done.
    rewrite !bool_decide_eq_false_2 by done. cbn [orb]. unfold finding_of. destruct (vu_level v) eqn:El; [done|]. by destruct (aig_classify _ _ _). }
Qed.
End read_back.

(** ** Instances *)

Module AigSamples.
Definition none (c : Z) : bool := false.
Definition digest (b : bytes) : string := "00".
Definition t (s : string) : points := str_bytes s.
Definition sample : Vuln := mkVuln (t "Leak of a token") (t "it prints it") (t "Credential theft") (t "High").
Definition log_text : points := report_text [(t "INFO start ", sample)] (t " done").

Lemma sample_plain : plain_vuln sample.
Proof.
  repeat split; try done; apply (bool_decide_unpack _); vm_compute; exact I.
Qed.

Lemma well_formed_reports_are_read_witness :
  map (λ f, (rule_id f, test_item_id f, severity f)) (parse_stderr none none lower digest log_text) = [("aig.credential_theft", "CRED-04", HIGH)].
Proof.
  rewrite (well_formed_reports_are_read none none lower digest log_text [(t "INFO start ", sample)] (t " done")).
  - vm_compute. reflexivity.
  - vm_compute. reflexivity.
  - constructor; [|constructor]. split; [apply (bool_decide_unpack _); vm_compute; exact I|exact sample_plain].
  - apply (bool_decide_unpack _). vm_compute. exact I.
Defined.

Lemma aig_findings_are_the_models_witness : Forall (λ f, is_llm_sourced f = true) (parse_stderr none none lower digest log_text).
Proof.
  apply Forall_forall. intros f Hf. exact (proj1 (aig_findings_are_the_models none none lower digest log_text f Hf)).
Defined.

Definition accepts (url : string) : result string string := if String.eqb url "http://vllm:8000/v1" then Ok url else Err "not internal".

Lemma aig_talks_to_the_checked_endpoint_witness :
  ∃ env, _build_env accepts "http://vllm:8000/v1" "m" None None = Ok env ∧ env !! "FAST_BASE_URL" = Some "http://vllm:8000/v1".
Proof.
  eexists. split; [reflexivity|].
  destruct (aig_talks_to_the_checked_endpoint accepts "http://vllm:8000/v1" "m" None None _ "py" "main.py" "/t" eq_refl) as (_ & _ & H & _).
  rewrite Forall_forall in H. apply (H "FAST"). do 3 right. by left.
Defined.

(** A block without a level is of medium severity, one without a description is dropped,
    and a title with a tag in it is cut at the tag's end. *)
Example odd_blocks :
  map (λ f, (title f, severity f))
    (parse_stderr none none lower digest
       (t "<vuln><title>A</title><desc>d</desc><risk_type>x</risk_type></vuln><vuln><title>B</title><risk_type>x</risk_type></vuln><vuln><title> C </title>D</title><desc>d</desc><risk_type>x</risk_type><level>none</level></vuln>")) =
  [("A", MEDIUM); ("C", MEDIUM)].
Proof. vm_compute. reflexivity. Qed.
End AigSamples.
