(* ===== verification/Retention.v ===== *)
(** * Retention of engine health: [orchestration/retention.py]

    The pass that deletes old rows of [scan_engine_health], its window from the
    environment and the lease behind which [worker_tick] drives it.  Datetimes are
    microseconds since the epoch.  Which rows a [DELETE ... LIMIT] takes is the
    database's choice; other transactions commit rows between the statements. *)

From S2P Require Import Prelude Float64 Models Json Orchestration Timeouts.
From Stdlib Require Import QArith Qround Sorted Lqa.
Open Scope string_scope.
Open Scope list_scope.
Open Scope Z_scope.

Definition RETENTION_DAYS_ENV : string := "SKILLSCAN_ENGINE_HEALTH_RETENTION_DAYS".
Definition DEFAULT_RETENTION_DAYS : Q := 26.
Definition MINIMUM_RETENTION_DAYS : Q := 1.
Definition RETENTION_BATCH : nat := Z.to_nat 1000.
Definition RETENTION_MAX_BATCHES : nat := 20.

(** ** The window *)

(** [x < y] for a finite [y]. *)
Definition below (x : pyfloat) (y : Q) : bool :=
  match x with Fin q => qlt q y | Inf negative => negative | NaN => false end.

Definition retention_days (env : Env) : pyfloat :=
  match env !! RETENTION_DAYS_ENV with
  | None => Fin DEFAULT_RETENTION_DAYS
  | Some raw =>
      match py_float raw with
      | None => Fin DEFAULT_RETENTION_DAYS
      | Some days => if below days MINIMUM_RETENTION_DAYS then Fin DEFAULT_RETENTION_DAYS else days
      end
  end.

Inductive ClockError := value_error | overflow_error.

Definition trunc (q : Q) : Z := if Qle_bool 0 q then Qfloor q else Qceiling q.

Definition US_PER_DAY : Z := 86400000000.

(** [timedelta(days=days)]: the fraction of a day is one float product, the
    microsecond is rounded to even. *)
Definition timedelta_days (days : pyfloat) : result ClockError Z :=
  match days with
  | NaN => Err value_error
  | Inf _ => Err overflow_error
  | Fin q =>
      let whole := trunc q in
      let us := fmul (inject_Z US_PER_DAY) (q - inject_Z whole) in
      let total := round_half_even (inject_Z (whole * US_PER_DAY) + us)%Q in
      if Z.abs (total / US_PER_DAY) <=? 999999999 then Ok total else Err overflow_error
  end.

(** [datetime.min]. *)
Definition DATETIME_MIN : Z := -62135596800000000.

Definition retention_cutoff (now : Z) (days : pyfloat) : result ClockError Z :=
  delta ← timedelta_days days;
  if now - delta <? DATETIME_MIN then Err overflow_error else Ok (now - delta).

(** ** The pass *)

Abbreviation Health := (gmap (string * string) ScanEngineHealthRow).

Definition eligible (cutoff : Z) (h : Health) : gset (string * string) :=
  dom (base.filter (λ kv : string * string * ScanEngineHealthRow, hr_recorded_at kv.2 < cutoff) h).

Definition set_health (f : Health → Health) (st : OrchStore) : OrchStore :=
  mkOrchStore (jobs st) (submitters st) (results st) (f (health st)).

(** How a pass ended. *)
Inductive SweepEnd := drained | budget_exhausted | database_failed.

Section sweep.
(** The rows a bounded delete takes of the eligible ones. *)
Variable pick : nat → gset (string * string) → gset (string * string).
(** Whether the statement of a batch commits, and what others commit before it. *)
Variable database : nat → bool.
Variable written : nat → Health.

(** [retention_delete_stmt]: the rows that remain, and the rowcount. *)
Definition delete_batch (cutoff : Z) (limit : nat) (h : Health) : Health * nat :=
  let gone := pick limit (eligible cutoff h) in
  (base.filter (λ kv : string * string * ScanEngineHealthRow, kv.1 ∉ gone) h, size gone).

Fixpoint sweep_batches (n i : nat) (cutoff : Z) (batch_size deleted : nat) (st : OrchStore) : OrchStore * nat * SweepEnd :=
  match n with
  | O => (st, deleted, budget_exhausted)
  | S n' =>
      let st := set_health (λ h, written i ∪ h) st in
      if database i then
        let '(h, batch) := delete_batch cutoff batch_size (health st) in
        let st := set_health (λ _, h) st in
        if (batch <? batch_size)%nat then (st, (deleted + batch)%nat, drained)
        else sweep_batches n' (S i) cutoff batch_size (deleted + batch)%nat st
      else (st, deleted, database_failed)
  end.

Definition sweep_engine_health_retention (env : Env) (days : option pyfloat) (now : Z) (batch_size max_batches : nat) (st : OrchStore)
    : result ClockError (OrchStore * nat) :=
  cutoff ← retention_cutoff now (default (retention_days env) days);
  let '(st, deleted, _) := sweep_batches max_batches 0 cutoff batch_size 0 st in
  Ok (st, deleted).
End sweep.

(** ** The lease: [run_engine_health_retention] *)

Definition _HEALTH_RETENTION_INTERVAL_S : Q := 3600.

(** [SET key NX EX interval_s]: the lease is when the key expires. *)
Definition take_lease (interval_s now : Q) (lease : option Q) : option Q * bool :=
  if match lease with Some expiry => qlt now expiry | None => false end then (lease, false)
  else (Some (now + interval_s)%Q, true).

(** [redis]: [false] when the command fails; the pass is skipped. *)
Definition run_engine_health_retention {A} (interval_s now : Q) (redis : bool) (lease : option Q) (sweep : A → result ClockError (A * nat)) (st : A)
    : option Q * result ClockError (A * nat) :=
  if negb redis then (lease, Ok (st, 0%nat))
  else let '(lease, acquired) := take_lease interval_s now lease in
       (lease, if acquired then sweep st else Ok (st, 0%nat)).

(** The times at which a sequence of ticks, of any number of replicas, runs a pass. *)
Fixpoint pass_times (interval_s : Q) (ticks : list (Q * bool)) (lease : option Q) : list Q :=
  match ticks with
  | [] => []
  | (now, redis) :: rest =>
      if negb redis then pass_times interval_s rest lease
      else let '(lease, acquired) := take_lease interval_s now lease in
           (if acquired then [now] else []) ++ pass_times interval_s rest lease
  end.

(** ** What a pass deletes *)

Section pass.
Context (pick : nat → gset (string * string) → gset (string * string)) (database : nat → bool) (written : nat → Health).

(** What is known of [DELETE ... LIMIT n]: it takes rows of the condition, as many as it may. *)
Class BoundedDelete : Prop := {
  pick_subset : ∀ n s, pick n s ⊆ s;
  pick_size : ∀ n s, size (pick n s) = Nat.min n (size s);
}.

Lemma elem_of_eligible cutoff h key :
  key ∈ eligible cutoff h ↔ ∃ r, h !! key = Some r ∧ hr_recorded_at r < cutoff.
Proof.
  unfold eligible. rewrite elem_of_dom. unfold is_Some. setoid_rewrite map_lookup_filter_Some. done.
Qed.

Lemma elem_of_delete_batch cutoff limit h key r :
  (delete_batch pick cutoff limit h).1 !! key = Some r ↔ h !! key = Some r ∧ key ∉ pick limit (eligible cutoff h).
Proof. unfold delete_batch. cbn. rewrite map_lookup_filter_Some. done. Qed.

Lemma eligible_delete_batch cutoff limit h :
  eligible cutoff (delete_batch pick cutoff limit h).1 = eligible cutoff h ∖ pick limit (eligible cutoff h).
Proof.
  apply set_eq. intros key. rewrite elem_of_difference, !elem_of_eligible. setoid_rewrite elem_of_delete_batch. naive_solver.
Qed.

(** What others write during a pass: rows recorded now, for scans that have no old rows. *)
Definition fresh_writes (cutoff : Z) (st : OrchStore) : Prop :=
  ∀ i key r, written i !! key = Some r → cutoff <= hr_recorded_at r ∧ key ∉ eligible cutoff (health st).

Lemma eligible_written cutoff h i :
  (∀ key r, written i !! key = Some r → cutoff <= hr_recorded_at r ∧ key ∉ eligible cutoff h) →
  eligible cutoff (written i ∪ h) = eligible cutoff h.
Proof.
  intros Hw. apply set_eq. intros key. rewrite !elem_of_eligible. setoid_rewrite lookup_union_Some_raw. split.
  - intros (r & [H|[_ H]] & Hr); [apply Hw in H as [? _]; lia|eauto].
  - intros (r & H & Hr). exists r. split; [|done]. right. split; [|done]. destruct (written i !! key) as [r'|] eqn:E; [|done].
    apply Hw in E as [_ Hn]. destruct Hn. apply elem_of_eligible. eauto.
Qed.

(** Whatever the database does, a row inside the window that nobody rewrites stays. *)
Lemma window_row_stays `{!BoundedDelete} n i cutoff batch deleted st key r :
  health st !! key = Some r → cutoff <= hr_recorded_at r → (∀ j, written j !! key = None) →
  health (sweep_batches pick database written n i cutoff batch deleted st).1.1 !! key = Some r.
Proof.
  intros Hl Hr Hw. revert i deleted st Hl. induction n as [|n IH]; intros i deleted st Hl; [done|]. cbn [sweep_batches].
  assert (Hu : (written i ∪ health st) !! key = Some r) by (apply lookup_union_Some_raw; right; by rewrite Hw).
  destruct (database i); [|done]. destruct (delete_batch _ _ _ _) as [h b] eqn:E.
  assert (Hh : h !! key = Some r).
  { change h with (h, b).1. rewrite <-E. apply elem_of_delete_batch. split; [done|]. intros Hin%pick_subset.
    apply elem_of_eligible in Hin as (r' & Hr' & Hlt). cbn in Hr'. rewrite Hu in Hr'. injection Hr' as <-. lia. }
  destruct (b <? batch)%nat; [done|]. by apply IH.
Qed.

Lemma sweep_tables n i cutoff batch deleted st :
  let st' := (sweep_batches pick database written n i cutoff batch deleted st).1.1 in
  jobs st' = jobs st ∧ submitters st' = submitters st ∧ results st' = results st.
Proof.
  revert i deleted st. induction n as [|n IH]; intros i deleted st; [done|]. cbn [sweep_batches].
  destruct (database i); [|done]. destruct (delete_batch _ _ _ _) as [h b]. destruct (b <? batch)%nat; [done|].
  destruct (IH (S i) (deleted + b)%nat (set_health (λ _, h) (set_health (λ h, written i ∪ h) st))) as (-> & -> & ->). done.
Qed.

(** The arithmetic of a pass in which every statement commits. *)
Lemma sweep_counts `{!BoundedDelete} n i cutoff batch deleted st :
  (0 < batch)%nat → (∀ j, database j = true) → fresh_writes cutoff st →
  let E := size (eligible cutoff (health st)) in
  let '(st', deleted', _) := sweep_batches pick database written n i cutoff batch deleted st in
  deleted' = (deleted + Nat.min E (batch * n))%nat ∧ size (eligible cutoff (health st')) = (E - batch * n)%nat ∧
  eligible cutoff (health st') ⊆ eligible cutoff (health st).
Proof.
  intros Hb Hdb. revert i deleted st. induction n as [|n IH]; intros i deleted st Hw; cbn zeta.
  { cbn. rewrite Nat.mul_0_r, Nat.min_0_r, Nat.add_0_r, Nat.sub_0_r. done. }
  cbn [sweep_batches]. rewrite Hdb. set (h1 := written i ∪ health st).
  assert (He : eligible cutoff h1 = eligible cutoff (health st)) by (apply eligible_written; intros; by eapply Hw).
  destruct (delete_batch pick cutoff batch _) as [h b] eqn:Ed. cbn in Ed. fold h1 in Ed.
  assert (Eh : eligible cutoff h = eligible cutoff (health st) ∖ pick batch (eligible cutoff (health st)))
    by (change h with (h, b).1; rewrite <-Ed, eligible_delete_batch; by rewrite He).
  assert (Eb : b = Nat.min batch (size (eligible cutoff (health st))))
    by (change b with (h, b).2; rewrite <-Ed; unfold delete_batch; cbn; by rewrite He, pick_size).
  assert (Es : size (eligible cutoff h) = (size (eligible cutoff (health st)) - b)%nat).
  { rewrite Eh, size_difference by apply pick_subset. by rewrite pick_size, Eb. }
  assert (Esub : eligible cutoff h ⊆ eligible cutoff (health st)) by (rewrite Eh; set_solver).
  destruct (b <? batch)%nat eqn:Elt.
  - apply Nat.ltb_lt in Elt. cbn. split_and!; [nia|nia|done].
  - apply Nat.ltb_ge in Elt.
    specialize (IH (S i) (deleted + b)%nat (set_health (λ _, h) (set_health (λ h, written i ∪ h) st))).
    destruct (sweep_batches _ _ _ _ _ _ _ _ _) as [[st' d'] e]. cbn in IH.
    destruct IH as (-> & -> & Hs); [intros j key r Hj; destruct (Hw j key r Hj); split; [done|]; cbn; set_solver|].
    split_and!; [nia|nia|set_solver].
Qed.

(** What a retention pass deletes.  A pass that the database lets finish deletes
    exactly as many expired rows as its budget allows, so repeated passes drain any
    backlog; every row inside the window survives it, also one written while it ran,
    and no other table changes. *)
Theorem retention_pass `{!BoundedDelete} env days now batch max st st' deleted cutoff :
  (0 < batch)%nat → (∀ j, database j = true) →
  retention_cutoff now (default (retention_days env) days) = Ok cutoff → fresh_writes cutoff st →
  sweep_engine_health_retention pick database written env days now batch max st = Ok (st', deleted) →
  deleted = Nat.min (size (eligible cutoff (health st))) (batch * max) ∧
  size (eligible cutoff (health st')) = (size (eligible cutoff (health st)) - deleted)%nat ∧
  (∀ key r, health st !! key = Some r → cutoff <= hr_recorded_at r → (∀ j, written j !! key = None) →
            health st' !! key = Some r) ∧
  jobs st' = jobs st ∧ submitters st' = submitters st ∧ results st' = results st.
Proof.
  intros Hb Hdb Hc Hw. unfold sweep_engine_health_retention. rewrite Hc. cbn [mbind result_bind].
  pose proof (sweep_counts max 0 cutoff batch 0 st Hb Hdb Hw) as Hn.
  pose proof (sweep_tables max 0 cutoff batch 0 st) as Ht.
  pose proof (λ key r, window_row_stays max 0 cutoff batch 0 st key r) as Hk.
  destruct (sweep_batches _ _ _ _ _ _ _ _ _) as [[s d] e]. cbn in Hn, Ht, Hk. intros [= <- <-].
  destruct Hn as (-> & -> & _). split_and!; [done|lia|done|apply Ht..].
Qed.
End pass.

(** ** Passes do not crowd *)

Lemma pass_times_after interval ticks lease expiry :
  lease = Some expiry → Sorted Qle (map fst ticks) → Forall (λ t, expiry <= t)%Q (pass_times interval ticks lease).
Proof.
  revert lease expiry. induction ticks as [|[now redis] ticks IH]; intros lease expiry -> Hs; cbn; [constructor|].
  assert (Hs' : Sorted Qle (map fst ticks)) by by inversion Hs. destruct redis; cbn [negb]; [|by apply IH].
  unfold take_lease. destruct (qlt now expiry) eqn:E; cbn; [by apply IH|]. apply qlt_false in E. constructor; [done|].
  assert (Hle : Forall (Qle now) (map fst ticks)).
  { apply Sorted_StronglySorted in Hs; [by inversion Hs|]. intros x y z. apply Qle_trans. }
  clear IH. remember (Some (now + interval)%Q) as l eqn:El. clear El. revert l. clear -Hle E. induction ticks as [|[t r] ticks IH]; intros l; cbn; [constructor|].
  apply Forall_cons in Hle as [Ht Hle]. destruct r; cbn [negb]; [|by apply IH].
  destruct (take_lease interval t l) as [l' []]; cbn; [|by apply IH]. constructor; [|by apply IH]. cbn in Ht. by eapply Qle_trans.
Qed.

(** The passes of all replicas keep their distance.  Whatever the number of
    replicas and the ticks that reach Redis, two retention passes start at least one
    interval apart. *)
Theorem passes_are_spaced interval ticks lease :
  Sorted Qle (map fst ticks) → Sorted (λ t t', t + interval <= t')%Q (pass_times interval ticks lease).
Proof.
  revert lease. induction ticks as [|[now redis] ticks IH]; intros lease Hs; cbn; [constructor|].
  assert (Hs' : Sorted Qle (map fst ticks)) by by inversion Hs. destruct redis; cbn [negb]; [|by apply IH].
  unfold take_lease. destruct (match lease with Some _ => _ | None => _ end); cbn; [by apply IH|].
  constructor; [by apply IH|]. pose proof (pass_times_after interval ticks (Some (now + interval)%Q) _ eq_refl Hs') as H.
  destruct (pass_times _ _ _); constructor. by inversion H.
Qed.

Module RetentionSamples.
(** A database that takes the first rows in key order. *)
Definition first_rows (n : nat) (s : gset (string * string)) : gset (string * string) := list_to_set (take n (elements s)).

#[export] Instance first_rows_laws : BoundedDelete first_rows.
Proof.
  split; intros n s; unfold first_rows.
  - intros x. rewrite elem_of_list_to_set. intros Hx%elem_of_take. destruct Hx as (i & Hi & _).
    apply elem_of_elements. by eapply list_elem_of_lookup_2.
  - rewrite size_list_to_set by (eapply sublist_NoDup; [apply (NoDup_elements s)|apply sublist_take]). by rewrite length_take.
Qed.

Definition row (at_ : Z) : ScanEngineHealthRow := mkScanEngineHealthRow "reported" None None None None at_.
Definition day (n : Z) : Z := n * US_PER_DAY.
Definition store : OrchStore :=
  mkOrchStore ∅ ∅ ∅ {[("a", "x") := row (day 1); ("b", "x") := row (day 2); ("c", "x") := row (day 3); ("d", "x") := row (day 90)]}.
Definition burst (i : nat) : Health := match i with 1%nat => {[("e", "x") := row (day 100)]} | _ => ∅ end.

Definition swept : OrchStore :=
  match sweep_engine_health_retention first_rows (λ _, true) burst ∅ None (day 100) 2 1 store with Ok (st, _) => st | Err _ => store end.

(** Three rows are expired and the budget is two: two go, one waits for the next pass. *)
Lemma retention_pass_witness :
  (2 = Nat.min (size (eligible (day 74) (health store))) (2 * 1) ∧ size (eligible (day 74) (health swept)) = 3 - 2)%nat ∧
  health swept !! ("d", "x") = Some (row (day 90)).
Proof.
  destruct (retention_pass first_rows (λ _, true) burst ∅ None (day 100) 2 1 store swept 2 (day 74)) as (H1 & H2 & H3 & _).
  - lia.
  - done.
  - vm_compute. reflexivity.
  - intros i key r. destruct i as [|[|i]]; cbn; [by rewrite lookup_empty| |by rewrite lookup_empty].
    intros [<- <-]%lookup_singleton_Some. split; [by vm_compute|]. by vm_compute.
  - vm_compute. reflexivity.
  - split; [split; [exact H1|vm_compute; reflexivity]|]. apply H3; [vm_compute; reflexivity|by vm_compute|].
    intros [|[|j]]; vm_compute; reflexivity.
Defined.

Lemma passes_are_spaced_witness :
  Sorted (λ t t', t + 3600 <= t')%Q (pass_times _HEALTH_RETENTION_INTERVAL_S [(0, true); (1, true); (3599, false); (3600, true); (3601, true)]%Q None).
Proof. apply passes_are_spaced. repeat constructor; done. Defined.

(** A window of NaN or infinity is not below the minimum and is kept; the cutoff then
    raises, outside the handler that keeps a pass from raising. *)
Example odd_windows_raise :
  map (λ raw, retention_cutoff (day 20000) (retention_days {[RETENTION_DAYS_ENV := raw]})) ["nan"; "inf"; "1e6"; "0.5"; "-inf"; "x"; "30"]
  = [Err value_error; Err overflow_error; Err overflow_error; Ok (day 19974); Ok (day 19974); Ok (day 19974); Ok (day 19970)].
Proof. vm_compute. reflexivity. Qed.
End RetentionSamples.
