(* ===== verification/EngineOutput.v ===== *)
(** * What the engines reported: the output parsers

    [adapters/bandit.py], [adapters/skillspector.py], [adapters/osv.py] and
    [adapters/yara.py]: from what a finished subprocess left behind to findings.
    [None] is any exception; [SubprocessEngineAdapter.analyze] turns it into ERROR.
    [json.loads], SHA-256, [repr] and [str] of a container are parameters.  A field
    that a [Finding] does not check is taken as the engines write it: a line number
    is an integer and a path a string, or the parser counts as having raised. *)

From S2P Require Import Prelude Float64 Models Canonical Lifecycle Unpack Adapter Json JsonText PyText Readback Package Access Keyword Detectors Timeouts.
From Stdlib Require Import QArith Ascii.
Open Scope string_scope.
Open Scope list_scope.
Open Scope Z_scope.

(** ** Python's dynamic operations on JSON values *)

Section dynamic.
(** [str] of a float, list or dict. *)
Variable py_str : json → string.

Definition str_of (j : json) : string :=
  match j with
  | JStr s => s
  | JNull => "None"
  | JBool b => if b then "True" else "False"
  | JNum z => decimal z
  | _ => py_str j
  end.
End dynamic.

(** [for x in value]. *)
Definition iterate (j : json) : option (list json) :=
  match j with
  | JList l => Some l
  | JObj fields => Some (map (λ kv, JStr kv.1) fields)
  | JStr s => Some (map (λ c, JStr (text_of [c])) (code_points s))
  | _ => None
  end.

(** [value.get(key, default)]. *)
Definition get (key : string) (dflt j : json) : option json :=
  match j with JObj _ => Some (default dflt (json_get key j)) | _ => None end.

(** [value[key]] on what should be a dict. *)
Definition index (key : string) (j : json) : option json := json_get key j.

Definition json_truthy (j : json) : bool := truthy (plain j).

Definition assoc (key : string) (table : list (string * string)) : option string :=
  snd <$> find (λ kv, String.eqb kv.1 key) table.

(** The fields of a [Finding] that are not checked. *)
Definition line_of (j : json) : option (option Z) :=
  match j with JNull => Some None | JNum z => Some (Some z) | _ => None end.
Definition path_of (j : json) : option (option string) :=
  match j with JNull => Some None | JStr s => Some (Some s) | _ => None end.

Definition nonempty (s : string) : option string := if String.eqb s "" then None else Some s.

(** ** bandit *)

Definition bandit_severity (s : string) : Severity :=
  if String.eqb s "LOW" then LOW else if String.eqb s "HIGH" then HIGH else MEDIUM.
Definition bandit_confidence (s : string) : Q :=
  if String.eqb s "LOW" then rnd64 (3 # 10) else if String.eqb s "MEDIUM" then rnd64 (6 # 10)
  else if String.eqb s "HIGH" then rnd64 (9 # 10) else (1 # 2).

Definition _TEST_ID_TITLES : list (string * string) :=
  [("B101", "使用了 assert 语句（生产环境以 -O 运行时会被优化掉，不能作为安全校验）");
   ("B102", "使用了 exec()");
   ("B103", "设置了过于宽松的文件权限");
   ("B104", "硬编码绑定到所有网络接口（0.0.0.0）");
   ("B105", "硬编码的密码字符串");
   ("B106", "函数参数中硬编码的密码");
   ("B107", "函数默认参数中硬编码的密码");
   ("B108", "硬编码的可预测临时目录路径");
   ("B110", "try/except 吞掉异常后直接 pass");
   ("B112", "try/except 吞掉异常后直接 continue");
   ("B113", "网络请求未设置超时时间");
   ("B201", "Flask 应用开启了 debug=True");
   ("B202", "tarfile 解压未校验成员路径（可能导致路径穿越）");
   ("B301", "使用 pickle/dill/shelve 反序列化不可信数据");
   ("B302", "使用 marshal 反序列化，存在风险");
   ("B303", "使用了不安全的 MD2/MD4/MD5/SHA1 哈希算法");
   ("B304", "使用了不安全的加密算法（ARC2/ARC4/Blowfish/DES/XOR 等）");
   ("B305", "使用了不安全的加密模式（如 ECB）");
   ("B306", "使用了不安全且已废弃的 tempfile.mktemp()");
   ("B307", "使用了可能不安全的 eval()，建议改用 ast.literal_eval");
   ("B308", "使用了 Django mark_safe()，可能引入 XSS 风险");
   ("B310", "urllib 打开 URL 时未校验协议（file:/ 等非常规协议可能非预期）");
   ("B311", "使用了非密码学安全的伪随机数生成器");
   ("B312", "调用了 telnet 相关函数，telnet 协议不加密");
   ("B313", "使用 cElementTree 解析不可信 XML，存在 XML 攻击风险");
   ("B314", "使用 ElementTree 解析不可信 XML，存在 XML 攻击风险");
   ("B315", "使用 expatreader 解析不可信 XML，存在 XML 攻击风险");
   ("B316", "使用 expatbuilder 解析不可信 XML，存在 XML 攻击风险");
   ("B317", "使用 xml.sax 解析不可信 XML，存在 XML 攻击风险");
   ("B318", "使用 minidom 解析不可信 XML，存在 XML 攻击风险");
   ("B319", "使用 pulldom 解析不可信 XML，存在 XML 攻击风险");
   ("B321", "调用了 FTP 相关函数，FTP 协议不加密");
   ("B323", "使用了未校验证书的 SSL 上下文（_create_unverified_context）");
   ("B324", "使用了不安全的哈希算法（hashlib.md5/sha1 等）");
   ("B401", "导入了 telnet 相关模块，telnet 协议不加密");
   ("B402", "导入了 FTP 相关模块，FTP 协议不加密");
   ("B403", "导入了 pickle/dill/shelve 模块，需关注反序列化风险");
   ("B404", "导入了 subprocess 模块，需关注命令注入风险");
   ("B405", "导入 xml.etree，解析不可信 XML 存在攻击风险");
   ("B406", "导入 xml.sax，解析不可信 XML 存在攻击风险");
   ("B407", "导入 xml.dom.expatbuilder，解析不可信 XML 存在攻击风险");
   ("B408", "导入 xml.dom.minidom，解析不可信 XML 存在攻击风险");
   ("B409", "导入 xml.dom.pulldom，解析不可信 XML 存在攻击风险");
   ("B411", "导入 xmlrpc，解析不可信 XML 存在攻击风险");
   ("B412", "导入了存在 httpoxy 类问题的 CGI 相关模块");
   ("B413", "导入了已废弃且不再维护的 pyCrypto 库");
   ("B415", "导入了 IPMI 相关模块，IPMI 协议不加密");
   ("B501", "请求未校验 TLS 证书");
   ("B502", "使用了不安全的 SSL/TLS 版本");
   ("B503", "使用了不安全的 SSL 默认配置");
   ("B504", "创建 SSL 上下文时未指定协议版本");
   ("B505", "使用了强度不足的加密密钥");
   ("B506", "使用了不安全的 yaml.load（应使用 safe_load）");
   ("B507", "SSH 连接未校验主机密钥");
   ("B508", "使用了不安全的 SNMP 版本");
   ("B509", "使用了弱加密的 SNMP 配置");
   ("B601", "调用了存在注入风险的 paramiko 命令");
   ("B602", "subprocess.Popen 使用 shell=True，存在命令注入风险");
   ("B603", "调用子进程时未显式设置 shell=False（需人工核查）");
   ("B604", "函数调用使用了 shell=True，存在命令注入风险");
   ("B605", "以 shell 方式启动进程，存在命令注入风险");
   ("B606", "未经 shell 启动进程（需人工核查参数来源）");
   ("B607", "以部分路径（非绝对路径）启动进程");
   ("B608", "硬编码的 SQL 拼接语句，存在 SQL 注入风险");
   ("B609", "Linux 命令中使用通配符，存在注入风险");
   ("B610", "Django QuerySet.extra() 存在 SQL 注入风险");
   ("B611", "Django RawSQL 存在 SQL 注入风险");
   ("B612", "日志配置监听地址不安全");
   ("B613", "检测到 Trojan Source 类隐藏字符攻击（双向控制符等）");
   ("B614", "使用了不安全的 PyTorch 模型加载方式");
   ("B615", "从 HuggingFace 下载模型时校验不充分");
   ("B701", "Jinja2 模板关闭了自动转义，存在 XSS 风险");
   ("B702", "使用了 Mako 模板，需关注其默认不转义带来的 XSS 风险");
   ("B703", "Django mark_safe() 使用不当，存在 XSS 风险");
   ("B704", "markupsafe Markup 使用不当，存在 XSS 风险")].

Definition bandit_risks : list (string * string) :=
  [("B101", "assert 语句在 Python 以 -O/-OO 优化模式运行时会被整体移除，如果代码把assert 当作权限校验、输入校验等安全检查手段，这些检查会在生产环境静默失效而不报任何错误；安全校验应使用普通的 if 判断并显式抛出异常。");
   ("B102", "exec() 会动态执行字符串形式的 Python 代码，如果该字符串包含任何用户输入或外部数据，攻击者可借此注入并执行任意代码。");
   ("B103", "该文件权限设置过于宽松（如 0o777、group/other 可写），可能允许同一主机上的其他非特权用户读取或篡改这个文件，尤其在文件包含凭据、配置或可执行代码时风险更高。");
   ("B104", "将服务绑定到 0.0.0.0 会让其在所有网络接口上监听，如果该服务本意只是本机调试用途，这会意外地把它暴露给同一网络内的其他主机访问。");
   ("B105", "代码中硬编码了密码字符串，一旦代码或版本历史泄露，该密码即随之泄露；应改为从环境变量、密钥管理服务或配置中读取。");
   ("B106", "函数调用的参数中硬编码了密码，与硬编码密码字符串同样的风险——凭据随源码一起暴露，应改为从密钥管理服务或环境变量注入。");
   ("B107", "函数的默认参数值里硬编码了密码，调用方若未显式传参就会静默使用这个泄露的默认凭据，风险与直接硬编码密码相同。");
   ("B108", "使用固定、可预测的 /tmp 或 /var/tmp 路径存在 TOCTOU（检查时间-使用时间）竞争风险：攻击者可在文件被创建前抢先放置符号链接或恶意文件，劫持后续的读写操作；应改用 tempfile.mkstemp() 等原子创建的安全 API。");
   ("B110", "try/except 捕获异常后直接 pass 会静默吞掉所有错误（包括安全相关的失败，如权限校验异常），使问题在无任何日志或告警的情况下被掩盖，增加排查和检测难度。");
   ("B112", "try/except 捕获异常后直接 continue，同样会静默吞掉异常并继续循环，可能掩盖安全相关的失败而不留下任何痕迹。");
   ("B113", "网络请求未设置超时时间，如果对端不响应，调用方会无限期挂起，容易被用于制造资源耗尽型的拒绝服务，也会拖累整体系统的可用性。");
   ("B201", "Flask 应用开启了 debug=True，调试模式会在报错页面暴露详细的堆栈信息和本地变量，且自带的交互式调试器（Werkzeug debugger）在某些配置下可被远程利用执行任意代码，生产环境绝不应开启。");
   ("B202", "tarfile 解压时未校验成员的目标路径，恶意构造的归档文件可以在条目名中包含 ../ 或绝对路径，解压时逃逸出预期目录，覆盖任意位置的文件（即 Zip Slip / 路径穿越）。");
   ("B301", "pickle/dill/shelve 的反序列化过程可以执行任意 Python 代码（通过自定义 __reduce__ 等机制），对不可信来源的数据反序列化等同于让攻击者在本进程内执行任意代码。");
   ("B302", "marshal 是 Python 内部字节码序列化格式，未文档化且不保证版本兼容性，对不可信数据使用同样存在类似 pickle 的代码执行风险。");
   ("B303", "MD2/MD4/MD5/SHA1 均已被证实存在实用化的碰撞攻击，不应再用于密码存储、数字签名、完整性校验等安全场景；建议改用 SHA-256 及以上，密码存储应使用 bcrypt/scrypt/Argon2。");
   ("B304", "ARC2/ARC4/Blowfish/DES/XOR 等算法密钥强度不足或存在已知的密码学缺陷，无法为现代威胁模型提供有效的机密性保护；建议改用 AES-256（GCM 模式）等现代对称加密算法。");
   ("B305", "ECB 等不安全的加密模式对相同明文分组会产生相同密文分组，无法隐藏数据的结构性特征，存在明文模式泄露风险；建议改用 GCM/CBC（配合随机 IV）等模式。");
   ("B306", "tempfile.mktemp() 只预测一个尚不存在的文件名，不会原子性创建文件，在预测文件名和实际打开文件之间存在竞争窗口，攻击者可抢先创建同名文件或符号链接进行劫持；应改用 tempfile.mkstemp()。");
   ("B307", "eval() 会将字符串当作 Python 表达式动态求值执行，如果参数包含任何用户输入或外部数据，攻击者可借此注入执行任意代码；仅需要解析字面量时应改用 ast.literal_eval。");
   ("B308", "Django 的 mark_safe() 会告诉模板引擎该内容已经是安全的、无需转义，如果标记的内容包含未经清理的用户输入，会导致其在渲染时不被转义直接输出，引入存储型/反射型 XSS 风险。");
   ("B310", "urllib 打开 URL 时未校验协议，如果目标地址来自用户输入，攻击者可以构造 file:// 等非常规协议读取本地文件，或利用其他协议处理器产生非预期行为（SSRF 的一种变体）。");
   ("B311", "random 模块基于梅森旋转算法，是可预测的伪随机数生成器，如果被用于生成密码、令牌、会话 ID 等安全相关的值，攻击者可能预测或还原后续输出；此类场景应改用 secrets 模块。");
   ("B312", "telnet 协议明文传输所有数据（包括账号密码），中间人可直接窃听或篡改会话内容；应改用 SSH 等加密协议。");
   ("B313", "解析不可信来源的 XML 时如果未禁用外部实体/DTD 解析，攻击者可构造 XXE（XML外部实体注入）payload 读取服务器本地文件或发起 SSRF 请求；应使用 defusedxml 等加固过的解析器，或显式禁用外部实体解析。");
   ("B314", "解析不可信来源的 XML 时如果未禁用外部实体/DTD 解析，攻击者可构造 XXE payload 读取服务器本地文件或发起 SSRF 请求；应使用 defusedxml 等加固过的解析器。");
   ("B315", "解析不可信来源的 XML 时如果未禁用外部实体/DTD 解析，攻击者可构造 XXE payload 读取服务器本地文件或发起 SSRF 请求；应使用 defusedxml 等加固过的解析器。");
   ("B316", "解析不可信来源的 XML 时如果未禁用外部实体/DTD 解析，攻击者可构造 XXE payload 读取服务器本地文件或发起 SSRF 请求；应使用 defusedxml 等加固过的解析器。");
   ("B317", "解析不可信来源的 XML 时如果未禁用外部实体/DTD 解析，攻击者可构造 XXE payload 读取服务器本地文件或发起 SSRF 请求；应使用 defusedxml 等加固过的解析器。");
   ("B318", "解析不可信来源的 XML 时如果未禁用外部实体/DTD 解析，攻击者可构造 XXE payload 读取服务器本地文件或发起 SSRF 请求；应使用 defusedxml 等加固过的解析器。");
   ("B319", "解析不可信来源的 XML 时如果未禁用外部实体/DTD 解析，攻击者可构造 XXE payload 读取服务器本地文件或发起 SSRF 请求；应使用 defusedxml 等加固过的解析器。");
   ("B321", "FTP 协议明文传输账号密码和数据，中间人可直接窃听或篡改传输内容；应改用 SFTP/FTPS 等加密协议。");
   ("B323", "使用未校验证书的 SSL 上下文等于关闭了 TLS 的身份验证能力，无法防御中间人攻击——连接看似加密，实际上任何人都可以冒充目标服务器。");
   ("B324", "hashlib.md5/sha1 等算法已被证实存在实用化的碰撞攻击，不应再用于密码存储、数字签名、完整性校验等安全场景；建议改用 SHA-256 及以上（若仅用于非安全目的的缓存 key 等场景则风险较低，需结合调用位置判断）。");
   ("B401", "telnet 模块用于建立明文传输的会话（含账号密码），中间人可直接窃听或篡改内容；应改用 SSH 等加密协议。");
   ("B402", "FTP 相关模块用于建立明文传输的会话（含账号密码），中间人可直接窃听或篡改内容；应改用 SFTP/FTPS 等加密协议。");
   ("B403", "pickle/dill/shelve 的反序列化可以执行任意代码，导入这些模块意味着代码里可能存在对不可信数据的反序列化操作，需要人工核查具体调用点的数据来源。");
   ("B404", "subprocess 模块用于启动子进程，如果传给它的命令或参数拼接了用户输入且未经妥善转义/参数化，可能被注入额外命令；需要人工核查具体调用点的参数构造方式。");
   ("B405", "xml.etree 默认不禁用外部实体解析，对不可信 XML 输入存在 XXE 攻击风险；应使用 defusedxml 等加固过的解析器。");
   ("B406", "xml.sax 默认不禁用外部实体解析，对不可信 XML 输入存在 XXE 攻击风险；应使用 defusedxml 等加固过的解析器。");
   ("B407", "xml.dom.expatbuilder 默认不禁用外部实体解析，对不可信 XML 输入存在 XXE 攻击风险；应使用 defusedxml 等加固过的解析器。");
   ("B408", "xml.dom.minidom 默认不禁用外部实体解析，对不可信 XML 输入存在 XXE 攻击风险；应使用 defusedxml 等加固过的解析器。");
   ("B409", "xml.dom.pulldom 默认不禁用外部实体解析，对不可信 XML 输入存在 XXE 攻击风险；应使用 defusedxml 等加固过的解析器。");
   ("B411", "xmlrpc 默认不禁用外部实体解析，对不可信 XML-RPC 请求存在 XXE 攻击风险；应使用加固过的解析方式。");
   ("B412", "存在 httpoxy 类问题的 CGI 相关模块会把 HTTP 请求头 Proxy 字段映射为环境变量 HTTP_PROXY，攻击者可借此让服务端后续的出站请求被重定向到攻击者控制的代理，造成请求劫持或凭据泄露。");
   ("B413", "pyCrypto 库自 2013 年起已不再维护，其中已知存在未修复的安全漏洞；应迁移到积极维护的 pyca/cryptography 或 PyCryptodome。");
   ("B415", "IPMI 协议的部分认证机制存在已知的严重缺陷（如 RAKP 远程哈希提取漏洞），且常以明文/弱加密方式传输管理凭据，应确保仅在隔离的管理网络中使用并采用最新的加固配置。");
   ("B501", "发起请求时未校验 TLS 证书等于关闭了对端身份验证，无法防御中间人攻击——连接看似加密，实际上任何人都可以冒充目标服务器窃听或篡改数据。");
   ("B502", "使用了已被认为不安全的 SSL/TLS 协议版本（如 SSLv2/SSLv3/TLS 1.0），这些版本存在已知的协议层漏洞（如 POODLE），应强制使用 TLS 1.2 及以上。");
   ("B503", "使用了不安全的 SSL 默认配置（如允许弱密码套件），可能被降级攻击利用协商到较弱的加密算法，应显式指定强密码套件和最低协议版本。");
   ("B504", "创建 SSL 上下文时未显式指定协议版本，可能因平台/库版本差异悄悄协商到过时的不安全协议；应显式指定 TLS 1.2 及以上。");
   ("B505", "使用了强度不足的加密密钥长度（如 RSA < 2048 位），在现代算力下可能被暴力破解或数论攻击恢复私钥，应使用符合当前推荐强度的密钥长度。");
   ("B506", "yaml.load() 在未指定安全 Loader 时可以反序列化并执行任意 Python 对象构造（包括代码执行），对不可信 YAML 输入存在与 pickle 类似的任意代码执行风险；应改用 yaml.safe_load()。");
   ("B507", "SSH 连接未校验主机密钥（如 AutoAddPolicy），无法确认对端身份，存在被中间人攻击冒充目标主机的风险；应校验已知主机密钥或使用严格的主机密钥策略。");
   ("B508", "使用了不安全的 SNMP 版本（v1/v2c），其认证仅依赖明文传输的 community string，几乎没有真正的访问控制或加密保护；应升级到 SNMPv3 并启用认证与加密。");
   ("B509", "SNMP 配置使用了弱加密或弱认证参数，即使使用 SNMPv3 也可能因配置不当而被中间人窃听或伪造管理请求；应使用强认证协议和加密算法。");
   ("B601", "调用了存在命令注入风险的 paramiko 相关命令执行方法，如果拼接的命令包含用户输入且未妥善转义，攻击者可注入额外的 shell 命令在远程主机上执行。");
   ("B602", "subprocess.Popen 使用 shell=True 会让参数经过 shell 解释执行，如果命令字符串中拼接了用户输入且未妥善转义，攻击者可通过 shell 元字符注入并执行任意命令。");
   ("B603", "调用子进程时未显式指定 shell=False，需要人工核查传入的命令列表本身是否来自可信来源，避免遗漏潜在的命令注入路径。");
   ("B604", "以 shell=True 方式调用函数会让参数经过 shell 解释执行，如果参数拼接了用户输入且未妥善转义，攻击者可通过 shell 元字符注入并执行任意命令。");
   ("B605", "以 shell 方式启动进程会让命令字符串整体交给 shell 解释执行，如果字符串拼接了用户输入且未妥善转义，攻击者可注入额外命令。");
   ("B606", "未经 shell 启动进程本身更安全（参数不会被 shell 解释），但仍需人工核查传入的可执行文件路径和参数是否可能被外部输入影响。");
   ("B607", "以相对路径（非绝对路径）启动进程时，实际执行的二进制文件由当前 PATH 环境变量决定，攻击者如果能在 PATH 靠前的目录中放置同名恶意程序，就能劫持执行流程；应使用绝对路径指定可执行文件。");
   ("B608", "通过字符串拼接构造 SQL 语句，如果拼接的内容包含未经参数化处理的用户输入，攻击者可注入额外的 SQL 逻辑，读取/篡改/删除数据库中的任意数据，甚至在部分数据库上执行系统命令；应始终使用参数化查询或 ORM 提供的安全接口。");
   ("B609", "Linux 命令中使用了通配符（如 *），当命令实际以 shell 展开该通配符时，攻击者可以在目标目录下放置以 - 开头的文件名，被 shell 展开后当作命令行选项注入，篡改命令的实际行为（wildcard injection）。");
   ("B610", "Django QuerySet.extra() 允许直接嵌入原始 SQL 片段，如果嵌入内容包含未经参数化处理的用户输入，存在 SQL 注入风险；应优先使用 ORM 的标准查询接口。");
   ("B611", "Django RawSQL() 允许直接执行原始 SQL 语句，如果语句中包含未经参数化处理的用户输入，存在 SQL 注入风险；应优先使用 ORM 的标准查询接口或对参数使用占位符。");
   ("B612", "日志配置监听地址不安全（如绑定到所有网络接口且缺乏访问控制），可能允许网络上的其他主机连接日志服务并读取或注入日志内容。");
   ("B613", "检测到 Unicode 双向控制符等隐藏字符攻击（Trojan Source）：这类字符可以让源码在编辑器/终端里显示的逻辑与编译器/解释器实际执行的逻辑不一致，攻击者可借此在代码审查中隐藏恶意逻辑而不被发现。");
   ("B614", "使用了不安全的 PyTorch 模型加载方式（如未加 weights_only=True 的 torch.load），恶意构造的模型文件可以在反序列化过程中执行任意代码，等同于对不可信数据执行 pickle 反序列化。");
   ("B615", "从 HuggingFace 下载模型时未做充分的来源/完整性校验，如果被诱导指向被投毒或仿冒的模型仓库，加载得到的可能是被植入后门或恶意代码的模型文件。");
   ("B701", "Jinja2 模板关闭了自动转义（autoescape=False），如果模板中渲染了未经清理的用户输入，会导致其在 HTML 输出中不被转义直接展示，引入存储型/反射型 XSS 风险。");
   ("B702", "Mako 模板默认不自动转义输出内容，如果模板中渲染了未经清理的用户输入且未显式转义，会引入 XSS 风险。");
   ("B703", "Django mark_safe() 使用不当（标记了包含未清理用户输入的内容为安全），会导致其在模板渲染时跳过转义直接输出，引入 XSS 风险。");
   ("B704", "markupsafe 的 Markup 对象使用不当（包裹了未清理的用户输入），会让内容在渲染时被当作已转义的安全 HTML 直接输出，引入 XSS 风险。")].

Definition _test_item_id_and_category (test_id : string) : string * DetectionCategory :=
  let among (l : list string) := bool_decide (test_id ∈ l) in
  if among ["B108"] then ("FILE-06", FILE_PACKAGE)
  else if among ["B303"; "B304"; "B305"; "B311"; "B324"] then ("CODE-10", CODE)
  else if among ["B602"; "B603"; "B605"; "B607"] then ("CODE-01", CODE)
  else if among ["B608"] then ("CODE-08", CODE)
  else if among ["B307"] then ("CODE-02", CODE)
  else if among ["B301"] then ("CODE-07", CODE)
  else ("GEN-01", CODE).

Definition bandit_report_name : points := str_bytes "bandit-report.json".
Definition _SARIF_OUTPUT_NAME : points := str_bytes "report.sarif".

(** [path.is_file()] and [path.read_bytes()] at the top of the target directory. *)
Definition read_report (name : points) (tree : Tree) : option bytes :=
  match tree !! [name] with Some (File data) => Some data | _ => None end.

Section parsers.
Variable sha256 : bytes → string.
Variable py_str : json → string.
Variable py_repr : string → string.
(** [json.loads] of bytes, and of a text. *)
Variable loads : bytes → option json.
Variable loads_text : points → option json.

Local Abbreviation str := (str_of py_str).

(** [hashlib.sha256(text.encode("utf-8")).hexdigest()]. *)
Definition digest_of (text : string) : option string := if encodes text then Some (sha256 (str_bytes text)) else None.

Definition bandit_result (result : json) : option Finding :=
  test_id ← str <$> index "test_id" result;
  let '(test_item_id, category) := _test_item_id_and_category test_id in
  severity ← (λ j, bandit_severity (str j)) <$> get "issue_severity" JNull result;
  confidence ← (λ j, bandit_confidence (str j)) <$> get "issue_confidence" JNull result;
  code_snippet ← str <$> get "code" (JStr "") result;
  test_name ← str <$> get "test_name" (JStr test_id) result;
  let title := default test_name (assoc test_id _TEST_ID_TITLES) in
  filename ← str <$> get "filename" JNull result;
  line ← get "line_number" JNull result;
  start_line ← line_of line;
  snippet_hash ← (if String.eqb code_snippet "" then Some None else Some <$> digest_of code_snippet);
  Some (mkFinding ("bandit." +:+ test_id) test_item_id category title severity confidence "bandit" STATIC ∅
          (nonempty filename) start_line snippet_hash
          (default (title +:+ "（bandit " +:+ test_id +:+ "，具体风险说明请参考 bandit 官方文档）") (assoc test_id bandit_risks))).

Definition bandit_parse (tree : Tree) : option (list Finding) :=
  data ← read_report bandit_report_name tree;
  payload ← loads data;
  value ← index "results" payload;
  results ← iterate value;
  mapM bandit_result results.

(** ** skillspector *)

Definition _LEVEL_TO_SEVERITY (level : string) : Severity :=
  if String.eqb level "error" then HIGH else if String.eqb level "note" then LOW else MEDIUM.

Definition _RULE_ID_TITLES : list (string * string) :=
  [("AS1", "访问 Agent 配置目录");
   ("AS2", "访问 MCP 配置");
   ("AS3", "枚举其它 Skill");
   ("E1", "向外部传输数据");
   ("E2", "收集环境变量");
   ("E3", "枚举文件系统");
   ("E4", "上下文信息泄露");
   ("E5", "向云存储外泄数据");
   ("EA1", "不受限制的工具访问权限");
   ("EA2", "未经确认的自主决策行为");
   ("EA3", "权限/职责范围蔓延");
   ("EA4", "无边界的资源访问");
   ("MP1", "持久化上下文注入");
   ("MP2", "上下文窗口填塞攻击");
   ("MP3", "记忆篡改");
   ("OH1", "未经校验的输出注入");
   ("OH2", "跨上下文输出");
   ("OH3", "无边界输出");
   ("P1", "指令覆盖");
   ("P2", "隐藏指令（含 Unicode Tag / ASCII 走私变体）");
   ("P3", "数据外泄指令");
   ("P4", "行为操纵");
   ("P5", "有害内容注入");
   ("P6", "直接提取系统提示词");
   ("P7", "间接提取系统提示词");
   ("P8", "通过工具外泄提示词");
   ("PE1", "权限过度");
   ("PE2", "以 sudo/root 权限执行");
   ("PE3", "访问凭据");
   ("PE4", "访问 Docker Socket");
   ("PE5", "特权容器/容器逃逸");
   ("RA1", "自我修改");
   ("RA2", "会话持久化");
   ("SC1", "依赖未锁定版本");
   ("SC2", "拉取外部脚本");
   ("SC3", "混淆代码");
   ("TM1", "工具参数滥用");
   ("TM2", "工具链式调用滥用");
   ("TM3", "不安全的默认配置");
   ("TM4", "特权 Kubernetes 工作负载");
   ("AR1", "反拒绝话术（诱导模型不要拒绝执行）");
   ("AR2", "反拒绝话术（诱导模型不要拒绝执行）");
   ("AR3", "反拒绝话术（诱导模型不要拒绝执行）");
   ("SSRF1", "访问云元数据服务");
   ("SSRF2", "发起内网请求");
   ("SSRF3", "动态请求目标（可能被用于 SSRF）")].

Definition _TEMPLATED_RULE_ID_PREFIXES : list (string * string) :=
  [("SC4", "已知存在漏洞的依赖");
   ("SC5", "已废弃/无人维护的依赖");
   ("SC6", "疑似域名抢注式仿冒包名");
   ("TR1", "触发词范围过宽");
   ("TR2", "触发词与内置命令冲突");
   ("TR3", "诱导性关键词触发")].

Definition _TEST_ITEM_ID_BY_RULE_ID : list (string * string) :=
  [("AS1", "CRED-07");
   ("AS2", "CRED-03");
   ("E1", "NET-04");
   ("E2", "CRED-03");
   ("E3", "CRED-07");
   ("E4", "CRED-04");
   ("E5", "NET-04");
   ("EA1", "PERM-05");
   ("EA3", "PERM-05");
   ("EA4", "PERM-05");
   ("MP1", "PERM-06");
   ("MP3", "PERM-06");
   ("P1", "PROMPT-01");
   ("P2", "PROMPT-03");
   ("P3", "PROMPT-04");
   ("P4", "PROMPT-04");
   ("P5", "PROMPT-04");
   ("PE1", "PERM-05");
   ("PE2", "PERM-01");
   ("PE3", "CRED-03");
   ("PE4", "PERM-03");
   ("PE5", "PERM-03");
   ("SC1", "SUPPLY-04");
   ("SC2", "SUPPLY-03");
   ("SC3", "CODE-05");
   ("SC4", "SUPPLY-02");
   ("SC5", "SUPPLY-02");
   ("SC6", "SUPPLY-05");
   ("TM4", "PERM-03");
   ("AR1", "PROMPT-04");
   ("AR2", "PROMPT-04");
   ("AR3", "PROMPT-04");
   ("SSRF1", "NET-06");
   ("SSRF2", "NET-06");
   ("SSRF3", "NET-06");
   ("TP1", "MCP-01");
   ("TP2", "MCP-01");
   ("TP3", "MCP-01");
   ("TP4", "MCP-01")].

Definition skillspector_risks : list (string * string) :=
  [("AS1", "该 Skill 代码访问了宿主 Agent 的配置目录，可能读取到其他 Skill 的配置、权限声明或敏感设置，存在越权读取宿主 Agent 内部状态的风险。");
   ("AS2", "该 Skill 代码访问了 MCP（Model Context Protocol）配置，可能获取到其他 MCP 服务器的连接信息、凭据或工具定义，存在横向越权访问的风险。");
   ("AS3", "该 Skill 代码枚举了宿主环境中安装的其他 Skill，可能被用于侦察攻击面、寻找可利用的其他 Skill，或为后续针对性攻击收集情报。");
   ("E1", "该 Skill 代码向外部传输数据，如果传输内容包含用户对话、凭据或本地文件内容，存在数据外泄的风险；建议核实传输目标和传输内容的必要性。");
   ("E2", "该 Skill 代码收集了环境变量，环境变量中常存放 API 密钥、数据库凭据等敏感信息，收集行为本身可能是数据外泄链条的第一步。");
   ("E3", "该 Skill 代码枚举了文件系统，可能被用于定位敏感文件（凭据、配置、其他用户数据）作为后续外泄的前置侦察步骤。");
   ("E4", "该 Skill 代码存在上下文信息泄露：可能把宿主 Agent 的系统提示词、对话历史或其他 Skill 的上下文内容意外暴露给外部或非预期的接收方。");
   ("E5", "该 Skill 代码向云存储服务外泄数据，如果上传内容包含用户敏感信息，攻击者控制的云存储目标将持续获得数据外泄的能力。");
   ("EA1", "该 Skill 声明或实现了不受限制的工具访问权限，一旦被滥用或遭受提示注入攻击，可被诱导调用任意工具执行超出预期范围的操作。");
   ("EA2", "该 Skill 存在未经用户确认即执行自主决策行为的模式，缺乏人工把关环节，一旦决策逻辑被误导或攻击，后果无法被及时拦截。");
   ("EA3", "该 Skill 存在权限/职责范围蔓延（scope creep）：其实际行为超出了名义功能所需的最小权限范围，扩大了潜在的攻击面和误用空间。");
   ("EA4", "该 Skill 存在无边界的资源访问：对文件、网络、系统资源等的访问缺乏明确的范围限制，一旦被滥用可能波及预期范围之外的资源。");
   ("MP1", "该 Skill 涉嫌持久化上下文注入：试图将恶意指令写入会被跨会话/跨任务持续加载的记忆或上下文存储中，实现一次注入、长期生效的攻击。");
   ("MP2", "该 Skill 涉嫌上下文窗口填塞攻击：通过灌入大量无关或误导性内容占满上下文窗口，挤出真正的系统指令或安全约束，操纵模型后续行为。");
   ("MP3", "该 Skill 涉嫌记忆篡改：试图修改、覆盖或污染 Agent 已持久化的记忆内容，使其在未来的交互中基于被篡改的错误信息做出决策。");
   ("OH1", "该 Skill 存在未经校验的输出注入：把不可信的外部内容未经清理地混入模型输出或后续处理流程，可能夹带隐藏指令影响下游处理逻辑。");
   ("OH2", "该 Skill 存在跨上下文输出：把一个上下文/会话中的内容不加区分地带入另一个上下文，可能造成信息串扰或跨用户的数据泄露。");
   ("OH3", "该 Skill 存在无边界输出：对模型或工具的输出内容缺乏格式/范围校验，可能被用于绕过下游系统对输出内容的安全假设。");
   ("P1", "该 Skill 内容试图覆盖/替换宿主 Agent 此前的系统指令，属于直接提示词注入攻击的典型手法，可能劫持 Agent 的行为逻辑。");
   ("P2", "该 Skill 内容中检测到隐藏指令（含 Unicode Tag 或 ASCII 走私变体等隐写手法），这类指令对人类审查者不可见，但可能被模型正常解析执行，是极具隐蔽性的提示词注入手法。");
   ("P3", "该 Skill 内容包含试图诱导模型外泄数据的指令，可能诱使 Agent 把对话历史、系统提示词或其他敏感上下文回传给攻击者控制的位置。");
   ("P4", "该 Skill 内容包含试图操纵模型行为的指令，可能诱导 Agent 偏离用户真实意图，执行攻击者预设的行为。");
   ("P5", "该 Skill 内容包含有害内容注入，试图诱导模型生成违反使用政策、危害用户或第三方的输出内容。");
   ("P6", "该 Skill 内容包含试图直接提取宿主 Agent 系统提示词的指令，一旦得逞将暴露该 Agent 的内部配置、安全策略和业务逻辑细节。");
   ("P7", "该 Skill 内容包含试图间接提取宿主 Agent 系统提示词的指令（如诱导模型复述/总结/翻译其指令），比直接提取更隐蔽，同样会暴露内部配置。");
   ("P8", "该 Skill 内容包含试图通过调用工具间接外泄系统提示词的指令，利用工具调用的副作用（如写入文件、发起请求）把提示词内容带出模型上下文。");
   ("PE1", "该 Skill 声明或请求了过度的权限，超出其实际功能所需的最小权限范围，一旦被滥用或攻破，影响面会远大于其本职功能所需。");
   ("PE2", "该 Skill 以 sudo/root 等特权身份执行，一旦其逻辑存在漏洞或被恶意利用，攻击者可直接获得系统级权限，后果远比普通用户权限严重。");
   ("PE3", "该 Skill 代码访问了凭据（密钥、令牌、密码等），如果访问行为超出其功能所需范围，存在凭据被滥用或进一步外泄的风险。");
   ("PE4", "该 Skill 代码访问了 Docker Socket，这等同于获得宿主机的完整控制权（可创建特权容器挂载宿主文件系统），是极高危的容器逃逸攻击面。");
   ("PE5", "该 Skill 涉及特权容器或容器逃逸手法，一旦得逞可突破容器隔离边界，直接威胁宿主机或整个集群的安全。");
   ("RA1", "该 Skill 存在自我修改行为：运行时修改自身或其他 Skill 的代码/配置，可能被用于持久化恶意逻辑或规避基于静态内容的安全检测。");
   ("RA2", "该 Skill 存在会话持久化行为：试图在正常会话结束后仍保持某种形式的存在或影响力（如后台任务、定时触发），扩大了潜在的持续性风险。");
   ("SC1", "该 Skill 依赖未锁定版本的第三方组件，实际安装的版本可能在发布后被替换为包含漏洞或恶意代码的新版本（依赖混淆/投毒风险），建议锁定精确版本并校验哈希。");
   ("SC2", "该 Skill 运行时从外部拉取脚本执行，脚本内容不受 Skill 包本身的审查覆盖，如果拉取源被劫持或本身恶意，等同于引入了未经审查的任意代码执行入口。");
   ("SC3", "该 Skill 代码经过混淆处理，混淆本身会显著增加安全审查和逆向分析的难度，是恶意软件常用的规避检测手法，即使功能本身无害也应人工核查混淆的必要性。");
   ("TM1", "该 Skill 存在工具参数滥用：向宿主 Agent 的工具传递了超出预期范围或语义异常的参数，可能被用于触发工具的非预期行为。");
   ("TM2", "该 Skill 存在工具链式调用滥用：通过组合多个工具的调用顺序绕过单个工具自身的安全限制，达成任一工具单独调用都无法完成的危险操作。");
   ("TM3", "该 Skill 使用了不安全的默认配置，在未显式加固的情况下暴露了不必要的功能或权限，扩大了攻击面。");
   ("TM4", "该 Skill 涉及特权 Kubernetes 工作负载配置，一旦被滥用可能突破 Pod 隔离边界，威胁整个集群的安全（等同于容器逃逸风险在编排层面的体现）。");
   ("AR1", "该 Skill 内容包含反拒绝话术，试图诱导模型不要拒绝执行请求（即使该请求违反安全策略），是绕过模型自身安全对齐机制的常见手法。");
   ("AR2", "该 Skill 内容包含反拒绝话术，试图诱导模型不要拒绝执行请求（即使该请求违反安全策略），是绕过模型自身安全对齐机制的常见手法。");
   ("AR3", "该 Skill 内容包含反拒绝话术，试图诱导模型不要拒绝执行请求（即使该请求违反安全策略），是绕过模型自身安全对齐机制的常见手法。");
   ("SSRF1", "该 Skill 代码访问了云元数据服务（如 169.254.169.254），这类端点常常无需额外认证即可返回云实例的临时凭据、角色权限等高度敏感信息，是云环境下最常见的 SSRF 利用目标之一。");
   ("SSRF2", "该 Skill 代码发起了指向内网地址的请求，如果请求目标可被外部输入控制，攻击者可借此探测或访问部署环境内网中原本不可直接从外部访问的服务（服务端请求伪造）。");
   ("SSRF3", "该 Skill 代码的请求目标地址是动态构造的，如果构造过程中包含未经校验的外部输入，可能被用于发起 SSRF 攻击，实际风险取决于目标地址的可控范围，需人工核查。")].

Definition _title_for (rule_id message : string) : string :=
  match assoc rule_id _RULE_ID_TITLES with
  | Some title => title
  | None =>
      if String.eqb message "" then rule_id
      else match assoc rule_id _TEMPLATED_RULE_ID_PREFIXES with
           | Some prefix => prefix +:+ "：" +:+ message
           | None => py_take 200 message
           end
  end.

Definition _category_for_rule_id (rule_id : string) : DetectionCategory :=
  let lowered := Package.lower (code_points rule_id) in
  default INSTRUCTION (snd <$> find (λ kc, occurs (str_bytes kc.1) lowered)
    [("inject", INSTRUCTION); ("credential", DATA_CREDENTIAL); ("secret", DATA_CREDENTIAL); ("network", NETWORK_INTEL);
     ("exfil", NETWORK_INTEL); ("permission", PERMISSION); ("privilege", PERMISSION); ("sandbox", PERMISSION);
     ("supply", SUPPLY_CHAIN); ("depend", SUPPLY_CHAIN)]).

(** [locations[0].get(...)...] where there are locations. *)
Definition sarif_location (locations : json) : option (option string * option Z) :=
  if json_truthy locations then
    match locations with
    | JList (first :: _) =>
        physical ← get "physicalLocation" (JObj []) first;
        artifact ← get "artifactLocation" (JObj []) physical;
        uri ← get "uri" JNull artifact;
        region ← get "region" (JObj []) physical;
        line ← get "startLine" JNull region;
        path ← path_of uri;
        start_line ← line_of line;
        Some (path, start_line)
    | _ => None
    end
  else Some (None, None).

Definition sarif_result (result : json) : option Finding :=
  rule_id ← str <$> get "ruleId" (JStr "unknown") result;
  level ← str <$> get "level" (JStr "warning") result;
  text ← get "message" (JObj []) result;
  message ← str <$> get "text" (JStr "") text;
  locations ← get "locations" (JList []) result;
  where_ ← sarif_location locations;
  snippet_hash ← (if String.eqb message "" then Some None else Some <$> digest_of message);
  Some (mkFinding ("skillspector." +:+ rule_id) (default "GEN-01" (assoc rule_id _TEST_ITEM_ID_BY_RULE_ID))
          (_category_for_rule_id rule_id) (_title_for rule_id message) (_LEVEL_TO_SEVERITY level) (3 # 4)
          "skillspector" SEMANTIC_LLM ∅ where_.1 where_.2 snippet_hash
          (default (py_take 200 message) (assoc rule_id skillspector_risks))).

Definition sarif_run (run : json) : option (list Finding) :=
  value ← get "results" (JList []) run;
  results ← iterate value;
  mapM sarif_result results.

Definition parse_sarif (data : bytes) : option (list Finding) :=
  payload ← loads data;
  value ← index "runs" payload;
  runs ← iterate value;
  mjoin <$> mapM sarif_run runs.

Definition skillspector_parse (tree : Tree) : option (list Finding) :=
  data ← read_report _SARIF_OUTPUT_NAME tree;
  parse_sarif data.

(** ** osv-scanner *)

(** [score >= bound] on floats. *)
Definition reaches (score : pyfloat) (bound : Q) : bool := fle (Fin bound) score.

Definition _severity_from_max_severity (raw : string) : Severity :=
  match py_float raw with
  | None => MEDIUM
  | Some score => if reaches score 9 then CRITICAL else if reaches score 7 then HIGH else if reaches score 4 then MEDIUM else LOW
  end.

Definition _NO_PACKAGE_SOURCES_RETURNCODE : Z := 128.
Definition _EXPECTED_RETURNCODES : list Z := [0; 1].

(** [bytes.strip()] leaves nothing. *)
Definition blank (out : bytes) : bool := forallb (λ b, (b =? 32) || ((9 <=? b) && (b <=? 13))) out.

(** One id of a group: what is not hashable raises, what is no string is never looked up. *)
Definition record_id (sev : Severity) (m : gmap string Severity) (id : json) : option (gmap string Severity) :=
  match id with
  | JStr s => Some (<[s := sev]> m)
  | JList _ | JObj _ => None
  | _ => Some m
  end.

Fixpoint fold_opt {A B} (f : A → B → option A) (l : list B) (a : A) : option A :=
  match l with [] => Some a | b :: l' => a' ← f a b; fold_opt f l' a' end.

Definition osv_group (m : gmap string Severity) (group : json) : option (gmap string Severity) :=
  raw ← get "max_severity" (JStr "") group;
  value ← get "ids" (JList []) group;
  ids ← iterate value;
  fold_opt (record_id (_severity_from_max_severity (str raw))) ids m.

Definition osv_vulnerability (source_path pkg_name pkg_version : string) (severities : gmap string Severity) (vuln : json)
    : option Finding :=
  vuln_id ← str <$> get "id" (JStr "unknown") vuln;
  summary ← get "summary" JNull vuln;
  details ← get "details" JNull vuln;
  let text := str (if json_truthy summary then summary else if json_truthy details then details else JStr vuln_id) in
  snippet_hash ← digest_of (pkg_name +:+ "@" +:+ pkg_version);
  Some (mkFinding ("osv." +:+ vuln_id) "SUPPLY-02" SUPPLY_CHAIN
          ("已知漏洞 " +:+ vuln_id +:+ "，影响 " +:+ pkg_name +:+ "@" +:+ pkg_version)
          (default MEDIUM (severities !! vuln_id)) (rnd64 (9 # 10)) "osv-scanner" SCA ∅ (nonempty source_path) None (Some snippet_hash)
          ("该依赖组件存在已被 osv.dev 收录的已知安全漏洞，可能被攻击者利用造成远程代码执行、权限提升、拒绝服务等后果，具体应以下方官方漏洞描述为准："
             +:+ py_take 200 text)).

Definition osv_package (source_path : string) (pkg_result : json) : option (list Finding) :=
  package ← get "package" (JObj []) pkg_result;
  pkg_name ← str <$> get "name" (JStr "unknown") package;
  pkg_version ← str <$> get "version" (JStr "unknown") package;
  groups ← get "groups" (JList []) pkg_result ≫= iterate;
  severities ← fold_opt osv_group groups ∅;
  vulns ← get "vulnerabilities" (JList []) pkg_result ≫= iterate;
  mapM (osv_vulnerability source_path pkg_name pkg_version severities) vulns.

Definition osv_source (source_result : json) : option (list Finding) :=
  source ← get "source" (JObj []) source_result;
  source_path ← str <$> get "path" (JStr "") source;
  packages ← get "packages" (JList []) source_result ≫= iterate;
  mjoin <$> mapM (osv_package source_path) packages.

Definition osv_payload (payload : json) : option (list Finding) :=
  value ← index "results" payload;
  results ← iterate value;
  mjoin <$> mapM osv_source results.

(** [error_text]: the message of what was raised. *)
Definition osv_parse (error_text : string) (returncode : Z) (stdout : bytes) : Parsed :=
  if returncode =? _NO_PACKAGE_SOURCES_RETURNCODE then
    nothing_in_scope "osv-scanner found no package sources to scan (exit 128): this package declares no dependency manifest or lockfile, so there was nothing for an SCA engine to resolve - not a clean SCA result"
  else if negb (bool_decide (returncode ∈ _EXPECTED_RETURNCODES)) then parse_raises error_text
  else if blank stdout then parsed []
  else match loads stdout ≫= osv_payload with
       | Some findings => parsed findings
       | None => parse_raises error_text
       end.

(** ** yara *)

Fixpoint span_nonspace (s : points) : points * points :=
  match s with
  | [] => ([], [])
  | c :: s' => if is_uspace c then ([], s) else let '(a, b) := span_nonspace s' in (c :: a, b)
  end.

(** The last closing bracket that space and then text follows: what is before it,
    and the text. *)
Fixpoint split_meta (s : points) : option (points * points) :=
  match s with
  | [] => None
  | c :: s' =>
      match split_meta s' with
      | Some (meta, path) => Some (c :: meta, path)
      | None =>
          if c =? 93 then
            match s' with
            | d :: _ => if is_uspace d then match lstrip_points s' with [] => None | path => Some ([], path) end else None
            | [] => None
            end
          else None
      end
  end.

(** [_MATCH_LINE_RE] on a stripped line: rule, metadata, path. *)
Definition match_line (line : points) : option (points * points * points) :=
  let '(rule, rest) := span_nonspace line in
  match rule, rest with
  | _ :: _, _ :: _ =>
      match lstrip_points rest with
      | 91 :: inner => '(meta, path) ← split_meta inner; Some (rule, meta, path)
      | _ => None
      end
  | _, _ => None
  end.

(** Up to the closing quote, backslash pairs kept together. *)
Fixpoint quoted (s : points) : option points :=
  match s with
  | [] => None
  | c :: s' =>
      if c =? 34 then Some []
      else if c =? 92 then match s' with d :: s'' => (λ r, c :: d :: r) <$> quoted s'' | [] => None end
      else cons c <$> quoted s'
  end.

(** [_FINDINGS_JSON_RE.search]. *)
Fixpoint findings_json (s : points) : option points :=
  let key := str_bytes "findings_json=" ++ [34] in
  match (if starts_with key s then quoted (drop (length key) s) else None) with
  | Some r => Some r
  | None => match s with [] => None | _ :: s' => findings_json s' end
  end.

Definition octal (c : Z) : bool := (48 <=? c) && (c <=? 55).

(** [None]: an octal escape beyond a byte. *)
Fixpoint unescape (s : points) : option bytes :=
  match s with
  | [] => Some []
  | c :: s' =>
      let keep (b : Z) (r : points) := cons (if b <? 128 then b else 63) <$> unescape r in
      if c =? 92 then
        match s' with
        | d :: s1 =>
            if (d =? 34) || (d =? 92) then cons d <$> unescape s1
            else match s1 with
                 | e :: f :: s2 =>
                     if octal d && octal e && octal f then
                       let b := (d - 48) * 64 + (e - 48) * 8 + (f - 48) in
                       if b <? 256 then cons b <$> unescape s2 else None
                     else keep c s'
                 | _ => keep c s'
                 end
        | [] => keep c s'
        end
      else keep c s'
  end.

Definition _unescape_yara_meta_string (escaped : points) : option points := decode <$> unescape escaped.

Definition yara_severity (s : string) : Severity :=
  if String.eqb s "LOW" then LOW else if String.eqb s "MEDIUM" then MEDIUM else if String.eqb s "CRITICAL" then CRITICAL else HIGH.

Definition all_categories : list DetectionCategory :=
  [INSTRUCTION; CODE; DATA_CREDENTIAL; NETWORK_INTEL; PERMISSION; FILE_PACKAGE; SUPPLY_CHAIN; BUNDLED_COMPONENT].

Definition yara_category (s : string) : DetectionCategory :=
  default NETWORK_INTEL (find (λ c, String.eqb (category_value c) s) all_categories).

Definition yara_line (line : points) : option Finding :=
  '(rule, meta, path) ← match_line line;
  escaped ← findings_json meta;
  raw_json ← _unescape_yara_meta_string escaped;
  decoded ← loads_text raw_json;
  severity ← (λ j, yara_severity (str j)) <$> get "severity" JNull decoded;
  category ← (λ j, yara_category (str j)) <$> get "category" JNull decoded;
  rule_id ← str <$> get "rule_id" (JStr (text_of rule)) decoded;
  test_item_id ← str <$> get "test_item_id" (JStr "NET-03") decoded;
  title ← str <$> get "title" (JStr (text_of rule)) decoded;
  risk ← get "risk" JNull decoded;
  if String.eqb rule_id "" then None
  else Some (mkFinding rule_id test_item_id category title severity (rnd64 (85 # 100)) "yara" STATIC ∅
               (Some (text_of path)) None (Some (sha256 (encode line)))
               (if json_truthy risk then str risk else "匹配到 yara 规则 " +:+ py_repr (text_of rule))).

Definition yara_parse (stdout : bytes) : option (list Finding) :=
  mapM yara_line (base.filter (λ line, line ≠ []) (map strip_points (splitlines (decode stdout)))).
End parsers.

(** ** Nothing that was reported is dropped *)

Section complete.
Context (sha256 : bytes → string) (py_str : json → string) (loads : bytes → option json).
Hypothesis sha256_hex : ∀ b, is_hex_digest (sha256 b) = true.

Lemma fmap_bind_Some {A B C} (m : option A) (f : A → B) (g : B → option C) c :
  (f <$> m) ≫= g = Some c → ∃ a, m = Some a ∧ g (f a) = Some c.
Proof. destruct m; cbn; [eauto|done]. Qed.

(** Takes a sequence of binds that succeeded apart. *)
Ltac run_binds := repeat match goal with
  | H : (_ <$> _) ≫= _ = Some _ |- _ => apply fmap_bind_Some in H as (? & ? & H)
  | H : _ ≫= _ = Some _ |- _ => apply bind_Some in H as (? & ? & H)
  end.

Lemma bandit_confidence_range s : (0 <= bandit_confidence s)%Q ∧ (bandit_confidence s <= 1)%Q.
Proof. unfold bandit_confidence. repeat case_match; split; by vm_compute. Qed.

Lemma digest_hex text h : digest_of sha256 text = Some h → is_hex_digest h = true.
Proof. unfold digest_of. destruct (encodes text); [|done]. intros [= <-]. apply sha256_hex. Qed.

(** What one result of a report becomes. *)
Definition bandit_reported (result : json) (f : Finding) : Prop :=
  ∃ id sev, index "test_id" result = Some id ∧ get "issue_severity" JNull result = Some sev ∧
    rule_id f = "bandit." +:+ str_of py_str id ∧ severity f = bandit_severity (str_of py_str sev) ∧
    test_item_id f = (_test_item_id_and_category (str_of py_str id)).1 ∧ Finding_ok f.

Lemma bandit_result_reported result f : bandit_result sha256 py_str result = Some f → bandit_reported result f.
Proof.
  unfold bandit_result. intros H. apply fmap_bind_Some in H as (id & Hid & H).
  destruct (_test_item_id_and_category (str_of py_str id)) as [item category] eqn:Et. run_binds. injection H as <-.
  do 2 eexists. split; [exact Hid|]. split; [eassumption|]. split; [reflexivity|]. split; [reflexivity|]. split; [by rewrite Et|].
  split_and!; cbn; [done|apply bandit_confidence_range..| |].
  - unfold bandit_severity. by repeat case_match.
  - intros h ->. destruct (String.eqb _ ""); [done|].
    match goal with H : Some <$> _ = Some (Some h) |- _ => apply fmap_Some in H as (h' & Hd & [= ->]) end. by eapply digest_hex.
Qed.

(** Bandit's report is taken whole.  When the parser accepts a report, it turned
    every result of it, in order, into one well-formed finding with that result's
    test, severity and a catalog item; a result it cannot read makes the whole run an
    error instead of being skipped. *)
Theorem bandit_report_is_complete tree fs :
  bandit_parse sha256 py_str loads tree = Some fs →
  ∃ data payload value results,
    read_report bandit_report_name tree = Some data ∧ loads data = Some payload ∧
    index "results" payload = Some value ∧ iterate value = Some results ∧ Forall2 bandit_reported results fs.
Proof.
  unfold bandit_parse. intros (data & Hd & (payload & Hp & (value & Hv & (results & Hr & H)%bind_Some)%bind_Some)%bind_Some)%bind_Some.
  do 4 eexists. split_and!; try eassumption. apply mapM_Some in H. eapply Forall2_impl; [exact H|]. intros. by apply bandit_result_reported.
Qed.

(** A member of a list is translated, with the lists of findings joined. *)
Lemma mapM_join_member {A} (g : A → option (list Finding)) l fs x :
  mjoin <$> mapM g l = Some fs → x ∈ l → ∃ ys, g x = Some ys ∧ ∀ f, f ∈ ys → f ∈ fs.
Proof.
  intros (yss & H & ->)%fmap_Some Hx. destruct (mapM_member _ _ _ _ H Hx) as (ys & E & Hin). exists ys. split; [done|].
  intros f Hf. apply list_elem_of_join. eauto.
Qed.

(** The severity of a vulnerability is never NONE. *)
Lemma fold_opt_ind {A B} (g : A → B → option A) (P : A → Prop) l a a' :
  (∀ a b a', P a → g a b = Some a' → P a') → P a → fold_opt g l a = Some a' → P a'.
Proof.
  intros Hg. revert a. induction l as [|b l IH]; intros a Ha; cbn; [by intros [= <-]|].
  intros (a1 & H1 & H2)%bind_Some. eapply IH; [|exact H2]. by eapply Hg.
Qed.

Lemma groups_graded groups severities id :
  fold_opt (osv_group py_str) groups ∅ = Some severities → default MEDIUM (severities !! id) ≠ NONE.
Proof.
  intros H. enough (Hall : ∀ k s, severities !! k = Some s → s ≠ NONE).
  { destruct (severities !! id) eqn:E; [by eapply Hall|done]. }
  revert H. apply (fold_opt_ind _ (λ m : gmap string Severity, ∀ k s, m !! k = Some s → s ≠ NONE)); [|done].
  intros m group m' Hm. unfold osv_group. intros (raw & _ & (value & _ & (ids & _ & H)%bind_Some)%bind_Some)%bind_Some.
  revert H. apply (fold_opt_ind _ (λ m : gmap string Severity, ∀ k s, m !! k = Some s → s ≠ NONE)); [|done].
  intros m1 i m2 Hm1. unfold record_id. destruct i; intros [= <-]; try done. intros k s' [[_ <-]|[_ ?]]%lookup_insert_Some; [|by eapply Hm1].
  unfold _severity_from_max_severity. destruct (py_float _); repeat case_match; done.
Qed.

(** Osv-scanner's report is taken whole.  Every vulnerability that the payload
    lists for any package of any source becomes a finding under its id. *)
Theorem osv_drops_no_vulnerability payload fs results source packages package vulns vuln id :
  osv_payload sha256 py_str payload = Some fs →
  index "results" payload ≫= iterate = Some results → source ∈ results →
  get "packages" (JList []) source ≫= iterate = Some packages → package ∈ packages →
  get "vulnerabilities" (JList []) package ≫= iterate = Some vulns → vuln ∈ vulns →
  get "id" (JStr "unknown") vuln = Some id →
  ∃ f, f ∈ fs ∧ rule_id f = "osv." +:+ str_of py_str id ∧ Finding_ok f.
Proof.
  intros H Hr Hs Hp Hpk Hv Hvin Hid. unfold osv_payload in H.
  apply bind_Some in Hr as (value & Ev & Hr). rewrite Ev in H. cbn [mbind option_bind] in H. rewrite Hr in H. cbn [mbind option_bind] in H.
  destruct (mapM_join_member _ _ _ _ H Hs) as (f1 & E1 & Hin1). unfold osv_source in E1.
  apply bind_Some in E1 as (src & _ & E1). apply fmap_bind_Some in E1 as (path & _ & E1). rewrite Hp in E1. cbn [mbind option_bind] in E1.
  destruct (mapM_join_member _ _ _ _ E1 Hpk) as (f2 & E2 & Hin2). unfold osv_package in E2.
  apply bind_Some in E2 as (pkg & _ & E2). apply fmap_bind_Some in E2 as (name & _ & E2). apply fmap_bind_Some in E2 as (version & _ & E2).
  apply bind_Some in E2 as (groups & _ & E2). apply bind_Some in E2 as (sevs & Hsev & E2). rewrite Hv in E2. cbn [mbind option_bind] in E2.
  destruct (mapM_member _ _ _ _ E2 Hvin) as (f & E & Hf). exists f. split; [by apply Hin1, Hin2|].
  unfold osv_vulnerability in E. rewrite Hid in E. cbn [fmap option_fmap option_map mbind option_bind] in E. run_binds. injection E as <-.
  split; [done|]. split_and!; cbn; try by vm_compute.
  - by apply (groups_graded groups sevs).
  - intros h [= <-]. by eapply digest_hex.
Qed.
End complete.

(** ** A run without a report *)

Section reports.
Context (target : list points) (fits : list points → bool) (run : Tree → Q → Run).
Context (py_repr : points → string) (float_text : Q → string) (int_text : Z → string).
Context (sha256 : bytes → string) (py_str : json → string) (loads : bytes → option json).
(** What the subprocess leaves of the directory it ran on. *)
Variable leaves : Tree → Tree.
Variable error_text : string.

(** The two engines that write their report to a file next to what they scan. *)
Inductive reporter := bandit | skillspector.

Definition report_name (e : reporter) : points :=
  match e with bandit => bandit_report_name | skillspector => _SARIF_OUTPUT_NAME end.

Definition parse_report (e : reporter) (tree : Tree) : option (list Finding) :=
  match e with
  | bandit => bandit_parse sha256 py_str loads tree
  | skillspector => skillspector_parse sha256 py_str loads tree
  end.

Definition report_output (e : reporter) (tree : Tree) (returncode : Z) (files : Files) : Parsed :=
  match parse_report e (leaves tree) with Some findings => parsed findings | None => parse_raises error_text end.

Definition run_reporter (e : reporter) : Adapter → Files → option Q → Q → option EngineResult :=
  analyze target fits run (report_output e) py_repr float_text int_text.

(** An engine that wrote no report has not found the package clean.  When a run
    of bandit or skillspector counts as usable, its findings are those of a report
    file that lay in the directory after the run; without one the result is an error. *)
Theorem usable_run_has_a_report e ad files deadline now r :
  run_reporter e ad files deadline now = Some r → usable r = true →
  ∃ tree data, materialize target fits files ∅ = materialized tree ∧
    read_report (report_name e) (leaves tree) = Some data ∧ parse_report e (leaves tree) = Some (er_findings r) ∧ er_status r = OK.
Proof.
  unfold run_reporter, analyze. intros H Hu. destruct (relative_timeout ad deadline now) as [timeout|]; [|by injection H as <-].
  destruct (materialize target fits files ∅) as [path| |tree]; [by injection H as <-|done|].
  destruct (run tree timeout) as [|text|text|rc]; [by injection H as <-..|].
  destruct (negb (rc =? 0) && _); [by injection H as <-|]. unfold report_output in H.
  destruct (parse_report e (leaves tree)) as [fs|] eqn:Ep; injection H as <-; [|done].
  destruct e; cbn in Ep |- *; unfold bandit_parse, skillspector_parse in Ep; apply bind_Some in Ep as (data & Hd & Ep);
    exists tree, data; (split_and!; [done|done| |done]); unfold bandit_parse, skillspector_parse; by rewrite Hd.
Qed.
End reports.

Module OutputSamples.
Definition hex (b : bytes) : string := "0".
Definition text_of_json (j : json) : string := "".
Definition no_text (s : string) : string := s.
Definition no_points (p : points) : string := "".
Definition no_q (q : Q) : string := "".
Definition no_z (z : Z) : string := "".
Definition all_fit (p : list points) : bool := true.

(** A loader that reads three documents. *)
Definition issue : json :=
  JObj [("test_id", JStr "B602"); ("issue_severity", JStr "HIGH"); ("filename", JStr "a.py"); ("line_number", JNum 3); ("code", JStr "x")].
Definition cve (id : string) : json := JObj [("id", JStr id)].
Definition affected : json :=
  JObj [("package", JObj [("name", JStr "p"); ("version", JStr "1")]);
        ("groups", JList [JObj [("ids", JList [JStr "CVE-1"]); ("max_severity", JStr "9.8")]]);
        ("vulnerabilities", JList [cve "CVE-1"; cve "CVE-2"])].
Definition advisory : json := JObj [("source", JObj [("path", JStr "go.sum")]); ("packages", JList [affected])].
Definition sample_loads (b : bytes) : option json :=
  match b with
  | [1] => Some (JObj [("results", JList [issue])])
  | [2] => Some (JObj [("results", JList [])])
  | [3] => Some (JObj [("results", JList [advisory])])
  | _ => None
  end.

Definition reported_tree : Tree := {[ [bandit_report_name] := File [1] ]}.

Lemma bandit_report_is_complete_witness :
  ∃ f, bandit_parse hex text_of_json sample_loads reported_tree = Some [f] ∧ rule_id f = "bandit.B602" ∧ severity f = HIGH.
Proof.
  destruct (bandit_parse hex text_of_json sample_loads reported_tree) as [fs|] eqn:E; [|vm_compute in E; discriminate E].
  destruct (bandit_report_is_complete hex text_of_json sample_loads (λ b, eq_refl) reported_tree fs E) as (data & payload & value & results & H1 & H2 & H3 & H4 & H5).
  vm_compute in H1. injection H1 as <-. injection H2 as <-. injection H3 as <-. injection H4 as <-.
  inversion H5 as [|r f rs fs' Hf Hrest]; subst. inversion Hrest; subst. exists f. split; [done|].
  destruct Hf as (id & sev & Hid & Hsev & -> & -> & _). injection Hid as <-. injection Hsev as <-. done.
Defined.

Lemma osv_drops_no_vulnerability_witness :
  ∃ fs f, osv_payload hex text_of_json (JObj [("results", JList [advisory])]) = Some fs ∧ f ∈ fs ∧ rule_id f = "osv.CVE-2".
Proof.
  destruct (osv_payload hex text_of_json (JObj [("results", JList [advisory])])) as [fs|] eqn:E; [|vm_compute in E; discriminate E].
  exists fs. destruct (osv_drops_no_vulnerability hex text_of_json (λ b, eq_refl) (JObj [("results", JList [advisory])]) fs [advisory] advisory
    [affected] affected [cve "CVE-1"; cve "CVE-2"] (cve "CVE-2") (JStr "CVE-2") E eq_refl) as (f & Hf & Hr & _).
  - left.
  - reflexivity.
  - left.
  - reflexivity.
  - right. left.
  - reflexivity.
  - exists f. done.
Defined.

(** Grades: the group's score, MEDIUM where there is none, LOW for a score that is not a number. *)
Example osv_grades :
  map _severity_from_max_severity ["9.8"; "7.0"; "5"; "1"; ""; "high"; "nan"] = [CRITICAL; HIGH; MEDIUM; LOW; MEDIUM; MEDIUM; LOW].
Proof. vm_compute. reflexivity. Qed.

(** Only the exit codes of a finished scan can be clean; 128 is reported apart. *)
Example osv_exit_codes :
  map (λ rc, match osv_parse hex text_of_json sample_loads "e" rc [2] with parsed _ => 0 | nothing_in_scope _ => 1 | parse_raises _ => 2 end)
    [0; 1; 127; 128; 129] = [0; 0; 2; 1; 2].
Proof. vm_compute. reflexivity. Qed.

Definition bandit_adapter : Adapter :=
  mkAdapter (mkEngineMetadata "bandit" "1.9.4" "d" [STATIC] false false true) "bandit" 60 false.

Definition run_bandit (leaves : Tree → Tree) (files : Files) : option EngineResult :=
  run_reporter [[116]] all_fit (λ _ _, run_completed 2) no_points no_q no_z hex text_of_json sample_loads leaves "e" bandit
    bandit_adapter files (Some 100%Q) 70%Q.

Definition writes_report (t : Tree) : Tree := <[[bandit_report_name] := File [1]]> t.

Lemma usable_run_has_a_report_witness :
  ∃ tree data, materialize [[116]] all_fit [] ∅ = materialized tree ∧ read_report bandit_report_name (writes_report tree) = Some data.
Proof.
  destruct (run_bandit writes_report []) as [r|] eqn:E; [|vm_compute in E; discriminate E].
  destruct (usable_run_has_a_report [[116]] all_fit (λ _ _, run_completed 2) no_points no_q no_z hex text_of_json sample_loads writes_report "e" bandit
    bandit_adapter [] (Some 100%Q) 70%Q r E) as (tree & data & H1 & H2 & _); [|by exists tree, data].
  vm_compute in E. injection E as <-. reflexivity.
Defined.

(** A package can bring the report itself: when bandit ends without writing one, the
    file of that name in the package is read as bandit's report. *)
Example package_forges_the_report :
  er_status <$> run_bandit id [] = Some ERROR ∧
  (λ r, (er_status r, er_findings r)) <$> run_bandit id [(bandit_report_name, [2])] = Some (OK, []).
Proof. vm_compute. done. Qed.

(** One match of a YARA rule, as [yara -m] prints it. *)
Definition quote_mark : bytes := [34].
Definition meta (body : bytes) : bytes := str_bytes "c2 [findings_json=" ++ quote_mark ++ body ++ quote_mark ++ str_bytes "] ".
Definition yara_loads (text : points) : option json := Some (JObj [("rule_id", JStr "yara.c2"); ("severity", JStr "CRITICAL")]).
Definition yara_rules (stdout : bytes) : option (list (string * option string)) :=
  map (λ f, (rule_id f, file_path f)) <$> yara_parse hex text_of_json no_text yara_loads stdout.

(** A line break in the name of a matching file makes the whole run unreadable: every match of the run is lost. *)
Example line_break_in_a_name_loses_the_run :
  yara_rules (meta (str_bytes "{}") ++ str_bytes "/t/a.py" ++ [10]) = Some [("yara.c2", Some "/t/a.py")] ∧
  yara_rules (meta (str_bytes "{}") ++ str_bytes "/t/a" ++ [10] ++ str_bytes "b.py" ++ [10]) = None.
Proof. vm_compute. done. Qed.
End OutputSamples.
