(* ===== verification/PinnedDns.v ===== *)
(** * Internal endpoints only: [libs/common/pinned_dns.py], [libs/common/config.py]

    The resolver that the process installs over [socket.getaddrinfo], the check of a
    configured endpoint and the settings that use it (INV-14).  Every lookup is given
    the answer that the network's DNS would give at that moment, which an attacker may
    choose; [ipaddress] and [urlparse] are parameters.  The threads of the process
    interleave between the lookups: the lock covers each access to the pins. *)

From S2P Require Import Prelude Float64.
From Stdlib Require Import QArith Lqa.
Open Scope string_scope.
Open Scope list_scope.
Open Scope Z_scope.

Record AddrInfo := mkAddrInfo {
  ai_family : Z;
  ai_type : Z;
  ai_proto : Z;
  ai_canon : string;
  ai_addr : string;
  ai_port : option Z;
  ai_rest : list Z;
}.

(** What a live lookup answers; [None] is an [OSError]. *)
Abbreviation Answer := (option (list AddrInfo)).

Inductive Host := host_str (name : string) | host_bytes (name : list Z) | host_none.

(** [no_resolution] is the [OSError] of a live lookup; the others are [ValueError]s. *)
Inductive DnsError := no_resolution | cannot_pin_failed | cannot_pin_empty | cannot_pin_unparseable | cannot_pin_public.

Definition _PIN_TTL_S : Q := 60.

(** The module's globals. *)
Record PinState := mkPinState {
  _pins : gmap string (list AddrInfo * Q);
  _installed : bool;
}.

Section pinned_dns.
(** [ipaddress.ip_address(addr)]: [None] when it does not parse, else whether the
    address is private, loopback or link-local. *)
Variable is_internal : string → option bool.

Fixpoint check_infos (infos : list AddrInfo) : result DnsError unit :=
  match infos with
  | [] => Ok ()
  | info :: rest =>
      match is_internal (ai_addr info) with
      | None => Err cannot_pin_unparseable
      | Some false => Err cannot_pin_public
      | Some true => check_infos rest
      end
  end.

Definition _validate_and_resolve (answer : Answer) : result DnsError (list AddrInfo) :=
  match answer with
  | None => Err cannot_pin_failed
  | Some [] => Err cannot_pin_empty
  | Some infos => _ ← check_infos infos; Ok infos
  end.

(** On an error the pins stay as they are and nothing is installed. *)
Definition pin_internal_host (hostname : string) (answer : Answer) (now : Q) (st : PinState) : result DnsError PinState :=
  infos ← _validate_and_resolve answer;
  Ok (mkPinState (<[hostname := (infos, now)]> (_pins st)) true).

Definition _reshape_for_port (infos : list AddrInfo) (port : option Z) : list AddrInfo :=
  map (λ i, mkAddrInfo (ai_family i) (ai_type i) (ai_proto i) (ai_canon i) (ai_addr i) port (ai_rest i)) infos.

Definition live (answer : Answer) : result DnsError (list AddrInfo) :=
  match answer with None => Err no_resolution | Some infos => Ok infos end.

(** Also whether the observer of rebinding attempts is told. *)
Definition _patched_getaddrinfo (host : Host) (port : option Z) (answer : Answer) (now : Q) (st : PinState)
    : result DnsError (list AddrInfo) * PinState * bool :=
  match host with
  | host_str name =>
      match _pins st !! name with
      | Some (infos, pinned_at) =>
          if qle _PIN_TTL_S (fsub now pinned_at) then
            match _validate_and_resolve answer with
            | Err e => (Err e, st, true)
            | Ok infos => (Ok (_reshape_for_port infos port), mkPinState (<[name := (infos, now)]> (_pins st)) (_installed st), false)
            end
          else (Ok (_reshape_for_port infos port), st, false)
      | None => (live answer, st, false)
      end
  | _ => (live answer, st, false)
  end.

(** [socket.getaddrinfo] as the process sees it. *)
Definition getaddrinfo (host : Host) (port : option Z) (answer : Answer) (now : Q) (st : PinState)
    : result DnsError (list AddrInfo) * PinState * bool :=
  if _installed st then _patched_getaddrinfo host port answer now st else (live answer, st, false).

(** ** [config.py] *)

(** [Err]: a [ValueError] of the installed resolver, which the handler does not name. *)
Definition is_internal_host (hostname : string) (answer : Answer) (now : Q) (st : PinState) : result DnsError bool * PinState :=
  match getaddrinfo (host_str hostname) None answer now st with
  | (Err no_resolution, st, _) => (Ok false, st)
  | (Err e, st, _) => (Err e, st)
  | (Ok [], st, _) => (Ok false, st)
  | (Ok infos, st, _) => (Ok (match check_infos infos with Ok _ => true | Err _ => false end), st)
  end.

(** [urlparse(url)]: the scheme and the hostname. *)
Variable urlparse : string → string * option string.

Inductive EndpointError := bad_scheme | no_hostname | not_internal | pin_failed (e : DnsError).

(** [answers]: what DNS says to the check and then to the pin; [times], the clock at the two. *)
Definition require_internal_endpoint (url : string) (answers : Answer * Answer) (times : Q * Q) (st : PinState)
    : result EndpointError string * PinState :=
  let '(scheme, hostname) := urlparse url in
  if negb (bool_decide (scheme ∈ ["http"; "https"])) then (Err bad_scheme, st) else
  match hostname with
  | None => (Err no_hostname, st)
  | Some name =>
      if String.eqb name "" then (Err no_hostname, st) else
      match is_internal_host name answers.1 times.1 st with
      | (Err e, st) => (Err (pin_failed e), st)
      | (Ok false, st) => (Err not_internal, st)
      | (Ok true, st) =>
          match pin_internal_host name answers.2 times.2 st with
          | Err e => (Err (pin_failed e), st)
          | Ok st => (Ok url, st)
          end
      end
  end.

(** The settings' validators check their endpoints one after the other. *)
Fixpoint require_all (urls : list string) (answers : nat → Answer * Answer) (times : nat → Q * Q) (st : PinState)
    : option EndpointError * PinState :=
  match urls with
  | [] => (None, st)
  | url :: rest =>
      match require_internal_endpoint url (answers 0%nat) (times 0%nat) st with
      | (Err e, st) => (Some e, st)
      | (Ok _, st) => require_all rest (λ n, answers (S n)) (λ n, times (S n)) st
      end
  end.
End pinned_dns.

(** ** The settings *)

Record OidcSettings := mkOidcSettings {
  issuer : string;
  authorization_endpoint : string;
  token_endpoint : string;
  jwks_uri : string;
}.
Definition oidc_endpoints (s : OidcSettings) : list string :=
  [issuer s; authorization_endpoint s; token_endpoint s; jwks_uri s].

Record SamlSettings := mkSamlSettings {
  idp_sso_url : string;
  idp_slo_url : option string;
}.
Definition saml_endpoints (s : SamlSettings) : list string :=
  idp_sso_url s :: match idp_slo_url s with Some url => if String.eqb url "" then [] else [url] | None => [] end.

Record SessionSettings := mkSessionSettings {
  introspection_endpoint : string;
  introspection_cache_ttl_s : Z;
  access_token_ttl_s : Z;
}.

Record MarketplaceSettings := mkMarketplaceSettings {
  api_base_url : string;
  poll_token : string;
  write_token : string;
}.

Record ReconciliationSettings := mkReconciliationSettings {
  poll_enabled : bool;
  push_enabled : bool;
  push_hmac_secret : option string;
  push_replay_window_s : Z;
  push_auto_quarantine_enabled : bool;
}.

Inductive SettingsError := endpoint_error (e : EndpointError) | cache_ttl_too_long | access_ttl_too_long | same_token | secret_required.

Section settings.
Variable is_internal : string → option bool.
Variable urlparse : string → string * option string.
Variable answers : nat → Answer * Answer.
Variable times : nat → Q * Q.

Local Abbreviation require := (λ urls, require_all is_internal urlparse urls answers times).

Definition with_endpoints (urls : list string) (rest : option SettingsError) (st : PinState) : option SettingsError * PinState :=
  match require urls st with
  | (Some e, st) => (Some (endpoint_error e), st)
  | (None, st) => (rest, st)
  end.

Definition validate_oidc (s : OidcSettings) : PinState → option SettingsError * PinState := with_endpoints (oidc_endpoints s) None.
Definition validate_saml (s : SamlSettings) : PinState → option SettingsError * PinState := with_endpoints (saml_endpoints s) None.
Definition validate_session (s : SessionSettings) : PinState → option SettingsError * PinState :=
  with_endpoints [introspection_endpoint s]
    (if 30 <? introspection_cache_ttl_s s then Some cache_ttl_too_long
     else if 600 <? access_token_ttl_s s then Some access_ttl_too_long else None).
Definition validate_vault (addr : string) : PinState → option SettingsError * PinState := with_endpoints [addr] None.
Definition validate_marketplace (s : MarketplaceSettings) : PinState → option SettingsError * PinState :=
  with_endpoints [api_base_url s] (if String.eqb (poll_token s) (write_token s) then Some same_token else None).
End settings.

Definition validate_reconciliation (s : ReconciliationSettings) : option SettingsError :=
  if push_enabled s && match push_hmac_secret s with None => true | Some secret => String.eqb secret "" end
  then Some secret_required else None.

(** ** The process after a host was pinned *)

Section trace.
Context (is_internal : string → option bool) (urlparse : string → string * option string).

(** What the threads of the process do, with the answer DNS gives each time. *)
Inductive Op :=
| op_pin (hostname : string) (answer : Answer) (now : Q)
| op_lookup (host : Host) (port : option Z) (answer : Answer) (now : Q)
| op_require (url : string) (answers : Answer * Answer) (times : Q * Q).

Definition step (op : Op) (st : PinState) : PinState :=
  match op with
  | op_pin hostname answer now => match pin_internal_host is_internal hostname answer now st with Ok st' => st' | Err _ => st end
  | op_lookup host port answer now => (getaddrinfo is_internal host port answer now st).1.2
  | op_require url answers times => (require_internal_endpoint is_internal urlparse url answers times st).2
  end.

Definition run (ops : list Op) (st : PinState) : PinState := foldl (λ st op, step op st) st ops.

(** The outcomes of the lookups of a name. *)
Fixpoint lookups (name : string) (ops : list Op) (st : PinState) : list (result DnsError (list AddrInfo)) :=
  match ops with
  | [] => []
  | op :: rest =>
      match op with
      | op_lookup (host_str n) port answer now =>
          if String.eqb n name then [(getaddrinfo is_internal (host_str n) port answer now st).1.1] else []
      | _ => []
      end ++ lookups name rest (step op st)
  end.

Definition internal_only (infos : list AddrInfo) : Prop := infos ≠ [] ∧ Forall (λ i, is_internal (ai_addr i) = Some true) infos.

(** Every pin holds validated addresses, and the resolver is installed once there is one. *)
Definition pins_ok (st : PinState) : Prop :=
  (∀ name p, _pins st !! name = Some p → internal_only p.1) ∧ (_pins st ≠ ∅ → _installed st = true).

Definition boot : PinState := mkPinState ∅ false.

Lemma boot_ok : pins_ok boot.
Proof. split; [|done]. intros name p H. cbn in H. by rewrite lookup_empty in H. Qed.

Lemma check_infos_ok infos : check_infos is_internal infos = Ok () → Forall (λ i, is_internal (ai_addr i) = Some true) infos.
Proof.
  induction infos as [|i infos IH]; cbn; [constructor|]. destruct (is_internal (ai_addr i)) as [[]|] eqn:E; [|done..].
  intros H. constructor; [done|by apply IH].
Qed.

Lemma validated answer infos : _validate_and_resolve is_internal answer = Ok infos → internal_only infos.
Proof.
  destruct answer as [[|i l]|]; cbn [_validate_and_resolve]; [done| |done].
  intros ([] & Hc & [= <-])%bind_Ok. split; [done|by apply check_infos_ok].
Qed.

Lemma reshaped infos port : internal_only infos → internal_only (_reshape_for_port infos port).
Proof.
  intros [Hne Hall]. unfold _reshape_for_port. split; [by destruct infos|]. rewrite Forall_map. done.
Qed.

Lemma pin_ok hostname answer now st st' :
  pins_ok st → pin_internal_host is_internal hostname answer now st = Ok st' → pins_ok st' ∧ is_Some (_pins st' !! hostname) ∧ dom (_pins st) ⊆ dom (_pins st').
Proof.
  intros [Hp Hi] (infos & Hv & [= <-])%bind_Ok. split_and!; cbn [_pins].
  - split; [|done]. intros name p. cbn. intros [[<- <-]|[_ ?]]%lookup_insert_Some; [by apply validated in Hv|by eapply Hp].
  - rewrite lookup_insert_eq. eauto.
  - rewrite dom_insert. set_solver.
Qed.

Lemma lookup_ok host port answer now st :
  pins_ok st → pins_ok (getaddrinfo is_internal host port answer now st).1.2 ∧
               dom (_pins st) ⊆ dom (_pins (getaddrinfo is_internal host port answer now st).1.2).
Proof.
  intros Hst. pose proof Hst as [Hp Hi]. unfold getaddrinfo. destruct (_installed st) eqn:Ei; [|by split]. unfold _patched_getaddrinfo.
  destruct host as [name| |]; [|by split..]. destruct (_pins st !! name) as [[infos at_]|] eqn:E; [|by split].
  destruct (qle _ _); [|by split]. destruct (_validate_and_resolve _ answer) as [infos'|] eqn:Ev; [|by split]. cbn. split.
  - split; [|done]. intros n p. cbn. intros [[<- <-]|[_ ?]]%lookup_insert_Some; [by apply validated in Ev|by eapply Hp].
  - rewrite dom_insert. set_solver.
Qed.

Lemma is_internal_host_state hostname answer now st :
  (is_internal_host is_internal hostname answer now st).2 = (getaddrinfo is_internal (host_str hostname) None answer now st).1.2.
Proof. unfold is_internal_host. destruct (getaddrinfo _ _ _ _ _ _) as [[[[|i l]|[]] st'] b]; done. Qed.

Lemma require_ok url answers times st :
  pins_ok st → let '(r, st') := require_internal_endpoint is_internal urlparse url answers times st in
  pins_ok st' ∧ dom (_pins st) ⊆ dom (_pins st') ∧
  (r = Ok url → ∃ name, (urlparse url).2 = Some name ∧ name ∈ dom (_pins st')).
Proof.
  intros Hst. unfold require_internal_endpoint. destruct (urlparse url) as [scheme [name|]]; cbn; [|by case_bool_decide].
  case_bool_decide; cbn; [|done]. destruct (String.eqb name ""); [done|].
  pose proof (is_internal_host_state name answers.1 times.1 st) as Es.
  pose proof (lookup_ok (host_str name) None answers.1 times.1 st Hst) as [Hok Hd]. rewrite <-Es in Hok, Hd.
  destruct (is_internal_host is_internal name answers.1 times.1 st) as [[[]|e] st1]; cbn in Hok, Hd; [|done..].
  destruct (pin_internal_host is_internal name answers.2 times.2 st1) as [st2|e] eqn:Ep; [|done].
  apply pin_ok in Ep as (Hok2 & Hs & Hd2); [|done]. split_and!; [done|set_solver|]. intros _. exists name. split; [done|].
  by apply elem_of_dom.
Qed.

Lemma step_ok op st : pins_ok st → pins_ok (step op st) ∧ dom (_pins st) ⊆ dom (_pins (step op st)).
Proof.
  intros Hst. destruct op as [hostname answer now|host port answer now|url answers times]; cbn [step].
  - destruct (pin_internal_host _ _ _ _ _) as [st'|] eqn:E; [|done]. apply pin_ok in E as (? & _ & ?); done.
  - by apply lookup_ok.
  - pose proof (require_ok url answers times st Hst) as H. destruct (require_internal_endpoint _ _ _ _ _ _) as [r st'].
    destruct H as (? & ? & _). done.
Qed.

Lemma run_ok ops st : pins_ok st → pins_ok (run ops st) ∧ dom (_pins st) ⊆ dom (_pins (run ops st)).
Proof.
  unfold run. revert st. induction ops as [|op ops IH]; intros st Hst; [done|]. cbn [foldl].
  destruct (step_ok op st Hst) as [H1 H2]. destruct (IH _ H1) as [H3 H4]. split; [done|]. set_solver.
Qed.

Lemma pinned_lookup name port answer now st :
  pins_ok st → name ∈ dom (_pins st) →
  match (getaddrinfo is_internal (host_str name) port answer now st).1.1 with Ok infos => internal_only infos | Err _ => True end.
Proof.
  intros [Hp Hi] ([infos at_] & E)%elem_of_dom. unfold getaddrinfo.
  rewrite Hi by (intros Hn; by rewrite Hn, lookup_empty in E). unfold _patched_getaddrinfo. rewrite E.
  destruct (qle _ _).
  - destruct (_validate_and_resolve _ answer) as [infos'|] eqn:Ev; [|done]. cbn. by apply reshaped, (validated answer).
  - cbn. apply reshaped, (Hp _ _ E).
Qed.

Lemma lookups_internal name ops st :
  pins_ok st → name ∈ dom (_pins st) →
  Forall (λ r, match r with Ok infos => internal_only infos | Err _ => True end) (lookups name ops st).
Proof.
  revert st. induction ops as [|op ops IH]; intros st Hst Hn; [constructor|]. cbn [lookups].
  destruct (step_ok op st Hst) as [H1 H2]. apply Forall_app. split; [|apply IH; [done|set_solver]].
  destruct op as [| [n| |] port answer now|]; try constructor. destruct (String.eqb_spec n name) as [->|_]; [|constructor].
  constructor; [|constructor]. by apply pinned_lookup.
Qed.

(** A pinned host never leaves the internal network (INV-14).  From the first
    successful validation on, whatever DNS answers and whatever the other threads
    look up, pin or configure, every lookup of that name in the process yields
    internal addresses only, or raises: rebinding the name does not redirect a
    connection. *)
Theorem pinned_hosts_stay_internal before after name :
  name ∈ dom (_pins (run before boot)) →
  Forall (λ r, match r with Ok infos => internal_only infos | Err _ => True end) (lookups name after (run before boot)).
Proof. intros Hn. apply lookups_internal; [by apply run_ok, boot_ok|done]. Qed.

Lemma require_all_pins urls answers times st st' :
  pins_ok st → require_all is_internal urlparse urls answers times st = (None, st') →
  pins_ok st' ∧ ∀ url, url ∈ urls → ∃ name, (urlparse url).2 = Some name ∧ name ∈ dom (_pins st').
Proof.
  enough (H : pins_ok st → require_all is_internal urlparse urls answers times st = (None, st') →
    pins_ok st' ∧ dom (_pins st) ⊆ dom (_pins st') ∧ ∀ url, url ∈ urls → ∃ name, (urlparse url).2 = Some name ∧ name ∈ dom (_pins st'));
    [intros Hst Hr; destruct (H Hst Hr) as (? & _ & ?); done|].
  revert answers times st. induction urls as [|url urls IH]; intros answers times st Hst; cbn.
  { intros [= <-]. split_and!; [done|done|set_solver]. }
  pose proof (require_ok url (answers 0%nat) (times 0%nat) st Hst) as H.
  destruct (require_internal_endpoint _ _ _ _ _ _) as [[u|e] st1] eqn:Er; [|done]. destruct H as (H1 & H2 & H3). intros Hr.
  destruct (IH _ _ _ H1 Hr) as (H4 & H5 & H6). split_and!; [done|set_solver|]. intros url' [->|Hin]%elem_of_cons; [|by apply H6].
  destruct H3 as (name & Hn & Hd); [|exists name; split; [done|set_solver]]. clear -Er.
  unfold require_internal_endpoint in Er. destruct (urlparse url) as [sch [nm|]]; destruct (bool_decide _); cbn in Er; try done.
  destruct (String.eqb nm ""); [done|]. destruct (is_internal_host _ _ _ _ _) as [[[]|] ?]; try done.
  by destruct (pin_internal_host _ _ _ _ _); simplify_eq.
Qed.

(** What a validated configuration fixes.  When the settings of an identity
    provider are accepted, each of their endpoints has a host, and from then on that
    host resolves to internal addresses only. *)
Theorem configured_endpoints_stay_internal settings answers times before st' after url :
  validate_oidc is_internal urlparse answers times settings (run before boot) = (None, st') →
  url ∈ oidc_endpoints settings →
  ∃ name, (urlparse url).2 = Some name ∧
    Forall (λ r, match r with Ok infos => internal_only infos | Err _ => True end) (lookups name after st').
Proof.
  unfold validate_oidc, with_endpoints. intros H Hurl.
  destruct (require_all _ _ _ _ _ _) as [[e|] st1] eqn:Er; simplify_eq. apply require_all_pins in Er as [Hok Hall]; [|by apply run_ok, boot_ok].
  destruct (Hall url Hurl) as (name & Hn & Hd). exists name. split; [done|]. by apply lookups_internal.
Qed.

(** How old an answer can be: validated now, or less than a minute ago. *)
Lemma pinned_answer_is_recent name port answer now st infos pinned at_ :
  _installed st = true → _pins st !! name = Some (pinned, at_) →
  (getaddrinfo is_internal (host_str name) port answer now st).1.1 = Ok infos →
  (infos = _reshape_for_port pinned port ∧ (now - at_ < 60)%Q) ∨
  ∃ fresh, _validate_and_resolve is_internal answer = Ok fresh ∧ infos = _reshape_for_port fresh port.
Proof.
  intros Hi Hp. unfold getaddrinfo. rewrite Hi. unfold _patched_getaddrinfo. rewrite Hp.
  destruct (qle _PIN_TTL_S (fsub now at_)) eqn:E.
  - destruct (_validate_and_resolve _ _) as [fresh|]; [|done]. intros [= <-]. right. eauto.
  - intros [= <-]. left. split; [done|]. apply qle_false in E. apply Qnot_le_lt. intros Hle. unfold fsub, _PIN_TTL_S in E.
    apply (Qlt_not_le _ _ E). rewrite <-(rnd64_int 60) by lia. by apply rnd64_mono.
Qed.
End trace.

Module DnsSamples.
Definition sample_internal (addr : string) : option bool :=
  if String.eqb addr "10.0.0.1" then Some true else if String.eqb addr "8.8.8.8" then Some false else None.
Definition sample_urlparse (url : string) : string * option string :=
  if String.eqb url "ftp://idp" then ("ftp", Some "idp") else ("https", Some "idp").
Definition addr (a : string) : AddrInfo := mkAddrInfo 2 1 6 "" a None [].

Definition pinning : list Op := [op_pin "idp" (Some [addr "10.0.0.1"]) 0].

Lemma pinned_hosts_stay_internal_witness :
  Forall (λ r, match r with Ok infos => internal_only sample_internal infos | Err _ => True end)
    (lookups sample_internal sample_urlparse "idp"
       [op_lookup (host_str "idp") (Some 443) (Some [addr "8.8.8.8"]) 1; op_lookup (host_str "idp") (Some 443) (Some [addr "8.8.8.8"]) 61]
       (run sample_internal sample_urlparse pinning boot)).
Proof. apply (pinned_hosts_stay_internal sample_internal sample_urlparse pinning). by_compute. Defined.

(** The rebound answer is not used before the pin expires, and is refused after. *)
Example rebinding_is_refused :
  map (λ r, match r with Ok infos => Some (map ai_addr infos) | Err _ => None end)
    (lookups sample_internal sample_urlparse "idp"
       [op_lookup (host_str "idp") (Some 443) (Some [addr "8.8.8.8"]) 1; op_lookup (host_str "idp") (Some 443) (Some [addr "8.8.8.8"]) 61]
       (run sample_internal sample_urlparse pinning boot)) = [Some ["10.0.0.1"]; None].
Proof. vm_compute. reflexivity. Qed.

Definition settings : OidcSettings := mkOidcSettings "a" "b" "c" "d".
Definition internal_dns (n : nat) : Answer * Answer := (Some [addr "10.0.0.1"], Some [addr "10.0.0.1"]).
Definition at_start (n : nat) : Q * Q := (0, 0)%Q.

Lemma configured_endpoints_stay_internal_witness :
  ∃ name, (sample_urlparse "c").2 = Some name ∧
    Forall (λ r, match r with Ok infos => internal_only sample_internal infos | Err _ => True end)
      (lookups sample_internal sample_urlparse name [op_lookup (host_str "idp") None (Some [addr "8.8.8.8"]) 10]
         (validate_oidc sample_internal sample_urlparse internal_dns at_start settings boot).2).
Proof.
  eapply (configured_endpoints_stay_internal sample_internal sample_urlparse settings internal_dns at_start []); [vm_compute; reflexivity|by_compute].
Defined.

(** A caller that passes the same name as bytes gets the live answer. *)
Example bytes_name_is_not_pinned :
  let st := run sample_internal sample_urlparse pinning boot in
  (getaddrinfo sample_internal (host_bytes [105; 100; 112]) (Some 443) (Some [addr "8.8.8.8"]) 1 st).1.1 = Ok [addr "8.8.8.8"].
Proof. reflexivity. Qed.
End DnsSamples.
