(* ===== verification/WorkerTick.v ===== *)
(** * The worker's tick: [apps/monolith/worker.py] and the engine tiers

    Which engines the sandbox service builds ([sandbox_engines.py],
    [engine_names.py]), which of them the gate waits for, the sweep that puts stuck
    jobs back on the stream, and the tick and loop that drive every background step.
    The steps themselves are modelled in the files of their components; here they are
    effects on one state that may raise. *)

From S2P Require Import Prelude Float64 Models Unpack Adapter Json GateService Orchestration EngineRunner Timeouts.
From Stdlib Require Import QArith.
Open Scope string_scope.
Open Scope list_scope.
Open Scope Z_scope.

(** ** The sandbox tier *)

Definition SANDBOX_ENGINE_NAMES : list string := ["bandit"; "osv-scanner"; "yara"; "skillspector"; "aig-mcp-scan"].
Definition SANDBOX_ADVISORY_ENGINE_NAMES : list string := SANDBOX_ENGINE_NAMES.
Definition SANDBOX_WAITED_ENGINE_NAMES : list string := SANDBOX_ADVISORY_ENGINE_NAMES.

Definition _RULESET_DIGEST : string := "live-cli-probe".

Definition adapter_of (name version argv0 : string) (capabilities : list EngineCapability) (requires_llm treat_nonzero : bool)
    (timeouts : EngineTimeouts) : Adapter :=
  mkAdapter (mkEngineMetadata name version _RULESET_DIGEST capabilities false requires_llm true) argv0 (for_engine timeouts name)
    treat_nonzero.

(** [vllm]: whether an internal model endpoint is configured.  [interpreter] runs the agent engine. *)
Definition sandbox_engines (interpreter : string) (vllm : bool) (timeouts : EngineTimeouts) : list Adapter :=
  [adapter_of "bandit" "1.9.4" "bandit" [STATIC] false false timeouts;
   adapter_of "osv-scanner" "2.4.0" "osv-scanner" [SCA] false false timeouts;
   adapter_of "yara" "4.5.7" "yara" [STATIC] false true timeouts;
   adapter_of "skillspector" "2.3.9" "skillspector" [STATIC; SEMANTIC_LLM] true false timeouts] ++
  (if vllm then [adapter_of "aig-mcp-scan" "v4.1.15" interpreter [SEMANTIC_LLM] true true timeouts] else []).

Definition name_of (a : Adapter) : string := em_name (ad_metadata a).

Definition sandbox_engine_names (vllm : bool) : gset string :=
  list_to_set (map name_of (sandbox_engines "" vllm (mkEngineTimeouts DEFAULT_ENGINE_TIMEOUT_S BUILTIN_ENGINE_TIMEOUT_S))).

Definition llm_gated_engine_names : gset string := list_to_set SANDBOX_ENGINE_NAMES ∖ sandbox_engine_names false.

Definition _active_sandbox_waited_engines (disabled_engines : gset string) (sandbox_llm_configured : bool) : list string :=
  base.filter (λ name, name ∉ disabled_engines ∧ (sandbox_llm_configured = true ∨ name ∉ llm_gated_engine_names))
    SANDBOX_WAITED_ENGINE_NAMES.

(** ** Lock keys and runtime names: [engine_names.py] *)

Definition ENGINE_NAME_BY_LOCK_KEY : gmap string string :=
  {["aig" := "aig-mcp-scan"; "bandit" := "bandit"; "osv_scanner" := "osv-scanner"; "skillspector" := "skillspector"; "yara" := "yara"]}.

Definition LOCK_KEY_BY_ENGINE_NAME : gmap string string :=
  list_to_map (map (λ kv, (kv.2, kv.1)) (map_to_list ENGINE_NAME_BY_LOCK_KEY)).

(** [None] is [UnknownEngineNameError]. *)
Definition engine_name_for_lock_key (lock_key : string) : option string := ENGINE_NAME_BY_LOCK_KEY !! lock_key.
Definition lock_key_for_engine_name (engine_name : string) : option string := LOCK_KEY_BY_ENGINE_NAME !! engine_name.

(** ** The engines of a tick *)

(** The floor engines, the intel matcher when its snapshot loaded, less what an
    administrator disabled: only an engine outside the floor can be dropped. *)
Definition _floor_engines_with_intel (floor : list string) (intel : option string) : list string :=
  floor ++ match intel with Some name => if bool_decide (name ∈ floor) then [] else [name] | None => [] end.

Definition tick_engines (floor : list string) (intel : option string) (disabled_engines : gset string) : list string :=
  base.filter (λ name, name ∈ floor ∨ name ∉ disabled_engines) (_floor_engines_with_intel floor intel).

(** ** [sweep_queued_jobs_to_airlock] *)

Definition REQUEUE_QUEUED_AFTER_S : Z := 60.
Definition UNRUNNABLE_ENGINE_MARKER : string := "__artifact_missing__".

Section sweep.
Variable policy : GatePolicy.
Variable scan_deadline_s : Z.

(** One job: a message on the scans stream, or a result that dead-letters it. *)
Definition requeue_one (now : Z) (scan_id : string) (job : ScanJob) (w : World) (results : list ResultEntry)
    : World * list ResultEntry * bool :=
  let a_key := artifact_key (j_content_hash job) in
  match blobs w !! a_key with
  | None => (w, results ++ [marker scan_id UNRUNNABLE_ENGINE_MARKER POISON_PILL_STATUS], false)
  | Some _ =>
      let msg := mkScanJobMessage scan_id (j_content_hash job) a_key (now + scan_deadline_s) (sorted_set (required_engines policy)) in
      (mkWorld (orch w) (blobs w) (scans_stream w ++ [msg]) (gate w), results, true)
  end.

Fixpoint requeue_all (now : Z) (rows : list (string * ScanJob)) (w : World) (results : list ResultEntry)
    : World * list ResultEntry * nat :=
  match rows with
  | [] => (w, results, 0%nat)
  | (scan_id, job) :: rest =>
      let '(w, results, queued) := requeue_one now scan_id job w results in
      let '(w, results, swept) := requeue_all now rest w results in
      (w, results, (if queued then S swept else swept))
  end.

Definition stuck_rows (now requeue_after_s : Z) (st : OrchStore) : list (string * ScanJob) :=
  map_to_list (base.filter (λ kv : string * ScanJob, j_state kv.2 = STATE_QUEUED ∧ j_created_at kv.2 < now - requeue_after_s) (jobs st)).

Definition sweep_queued_jobs_to_airlock (now requeue_after_s : Z) (w : World) (results : list ResultEntry)
    : World * list ResultEntry * nat :=
  requeue_all now (stuck_rows now requeue_after_s (orch w)) w results.
End sweep.

(** ** [worker_tick] and [run_worker_loop] *)

Inductive TickStep :=
| tick_reload_policy | tick_sweep_queued | tick_list_disabled | tick_load_engines | tick_run_engines | tick_list_allowlist
| tick_collect | tick_sandbox_sweep | tick_lifecycle | tick_toolchain | tick_audit_drain | tick_audit_gauge | tick_outbox
| tick_reports | tick_retention.

Definition TICK_STEPS : list TickStep :=
  [tick_reload_policy; tick_sweep_queued; tick_list_disabled; tick_load_engines; tick_run_engines; tick_list_allowlist;
   tick_collect; tick_sandbox_sweep; tick_lifecycle; tick_toolchain; tick_audit_drain; tick_audit_gauge; tick_outbox;
   tick_reports; tick_retention].

#[export] Instance TickStep_eq_dec : EqDecision TickStep.
Proof. solve_decision. Defined.

Section tick.
Context {W E : Type}.
(** What a step does to the world; a step that raises may have done part of its work. *)
Variable perform : TickStep → W → W * option E.
(** The two optional session factories. *)
Variables audit_configured relay_configured : bool.

Definition configured (s : TickStep) : bool :=
  match s with tick_audit_drain | tick_audit_gauge => audit_configured | tick_outbox => relay_configured | _ => true end.

(** Only the read of the gauge has a handler of its own. *)
Definition handled (s : TickStep) : bool := bool_decide (s = tick_audit_gauge).

(** The world after the steps, the steps begun, and what was raised. *)
Fixpoint run_steps (steps : list TickStep) (w : W) : W * list TickStep * option E :=
  match steps with
  | [] => (w, [], None)
  | s :: rest =>
      if negb (configured s) then run_steps rest w
      else match perform s w with
           | (w, Some e) =>
               if handled s then let '(w, begun, r) := run_steps rest w in (w, s :: begun, r)
               else (w, [s], Some e)
           | (w, None) => let '(w, begun, r) := run_steps rest w in (w, s :: begun, r)
           end
  end.

Definition worker_tick (w : W) : W * list TickStep * option E := run_steps TICK_STEPS w.

(** [n] turns of the loop: a tick that raises is counted and the loop goes on. *)
Fixpoint run_worker_loop (n : nat) (w : W) : W * list (list TickStep) * nat :=
  match n with
  | O => (w, [], 0%nat)
  | S n' =>
      let '(w, begun, r) := worker_tick w in
      let '(w, trace, failures) := run_worker_loop n' w in
      (w, begun :: trace, (match r with Some _ => S failures | None => failures end))
  end.
End tick.

(** ** Waiting, naming, requeueing *)

(** The gate waits for exactly the engines that can report.  On a deployment with
    or without a model endpoint, an engine is waited for just when the engine-runner
    builds it and no administrator disabled it. *)
Theorem waits_for_engines_that_can_report disabled llm name :
  name ∈ _active_sandbox_waited_engines disabled llm ↔ name ∈ sandbox_engine_names llm ∧ name ∉ disabled.
Proof.
  unfold _active_sandbox_waited_engines. rewrite list_elem_of_filter.
  assert (Hall : ∀ b, sandbox_engine_names b = if b then list_to_set SANDBOX_ENGINE_NAMES else list_to_set (take 4 SANDBOX_ENGINE_NAMES))
    by (intros []; vm_compute; reflexivity).
  assert (Hg : llm_gated_engine_names = {["aig-mcp-scan"]}) by (vm_compute; reflexivity).
  rewrite Hall, Hg. unfold SANDBOX_WAITED_ENGINE_NAMES, SANDBOX_ADVISORY_ENGINE_NAMES, SANDBOX_ENGINE_NAMES.
  destruct llm; cbn [take list_to_set]; set_solver.
Qed.

(** The two namespaces of engine names are in bijection, and every engine the
    sandbox can build has a lock key. *)
Theorem lock_keys_round_trip :
  (∀ key name, engine_name_for_lock_key key = Some name ↔ lock_key_for_engine_name name = Some key) ∧
  (∀ name, name ∈ SANDBOX_ENGINE_NAMES → is_Some (lock_key_for_engine_name name)).
Proof.
  unfold engine_name_for_lock_key, lock_key_for_engine_name. split.
  - assert (Hk : map_Forall (λ key name, LOCK_KEY_BY_ENGINE_NAME !! name = Some key) ENGINE_NAME_BY_LOCK_KEY) by by_compute.
    assert (Hn : map_Forall (λ name key, ENGINE_NAME_BY_LOCK_KEY !! key = Some name) LOCK_KEY_BY_ENGINE_NAME) by by_compute.
    intros key name. split; [apply Hk|apply Hn].
  - apply Forall_forall. by_compute.
Qed.

Section sweep_facts.
Context (policy : GatePolicy) (scan_deadline_s : Z).

Definition has_artifact (w : World) (row : string * ScanJob) : Prop := blobs w !! artifact_key (j_content_hash row.2) ≠ None.

Definition requeued (now : Z) (row : string * ScanJob) : ScanJobMessage :=
  mkScanJobMessage row.1 (j_content_hash row.2) (artifact_key (j_content_hash row.2)) (now + scan_deadline_s)
    (sorted_set (required_engines policy)).

Lemma requeue_all_spec now rows w results :
  let '(w', results', n) := requeue_all policy scan_deadline_s now rows w results in
  w' = mkWorld (orch w) (blobs w) (scans_stream w ++ map (requeued now) (base.filter (has_artifact w) rows)) (gate w) ∧
  results' = results ++ map (λ row, marker row.1 UNRUNNABLE_ENGINE_MARKER POISON_PILL_STATUS)
                            (base.filter (λ row, ¬ has_artifact w row) rows) ∧
  n = length (base.filter (has_artifact w) rows).
Proof.
  revert w results. induction rows as [|[id job] rows IH]; intros w results; cbn [requeue_all].
  { destruct w. cbn. by rewrite !app_nil_r. }
  unfold requeue_one. rewrite !filter_cons.
  destruct (blobs w !! artifact_key (j_content_hash job)) as [b|] eqn:E.
  - assert (Ha : has_artifact w (id, job)) by (unfold has_artifact; cbn; by rewrite E).
    rewrite !(decide_True _ _ Ha), (decide_False (P := ¬ _)) by (intros Hn; by apply Hn).
    specialize (IH (mkWorld (orch w) (blobs w) (scans_stream w ++ [requeued now (id, job)]) (gate w)) results).
    change (mkScanJobMessage id _ _ _ _) with (requeued now (id, job)).
    destruct (requeue_all _ _ _ _ _ _) as [[w' r'] n]. destruct IH as (-> & -> & ->). cbn. by rewrite <-app_assoc.
  - assert (Ha : ¬ has_artifact w (id, job)) by (unfold has_artifact; cbn; rewrite E; naive_solver).
    rewrite !(decide_False _ _ Ha), (decide_True _ _ Ha).
    specialize (IH w (results ++ [marker id UNRUNNABLE_ENGINE_MARKER POISON_PILL_STATUS])).
    destruct (requeue_all _ _ _ _ _ _) as [[w' r'] n]. destruct IH as (-> & -> & ->). cbn. by rewrite <-app_assoc.
Qed.
End sweep_facts.

(** No queued job is forgotten.  A sweep gives every job that has been queued for
    longer than the limit exactly one new message, for the engines of the current
    policy and with the full deadline, or, when its artifact is gone, one result that
    dead-letters it; other jobs, the tables and the blobs are left alone. *)
Theorem queued_jobs_are_requeued policy deadline now limit w results :
  let '(w', results', swept) := sweep_queued_jobs_to_airlock policy deadline now limit w results in
  orch w' = orch w ∧ blobs w' = blobs w ∧ gate w' = gate w ∧
  ∃ runnable unrunnable,
    scans_stream w' = scans_stream w ++ map (requeued policy deadline now) runnable ∧
    results' = results ++ map (λ row, marker row.1 UNRUNNABLE_ENGINE_MARKER POISON_PILL_STATUS) unrunnable ∧
    swept = length runnable ∧ NoDup (runnable ++ unrunnable).*1 ∧
    (∀ id job, (id, job) ∈ runnable ++ unrunnable ↔
       jobs (orch w) !! id = Some job ∧ j_state job = STATE_QUEUED ∧ j_created_at job < now - limit) ∧
    (∀ row, row ∈ runnable → blobs w !! artifact_key (j_content_hash row.2) ≠ None) ∧
    (∀ row, row ∈ unrunnable → blobs w !! artifact_key (j_content_hash row.2) = None).
Proof.
  unfold sweep_queued_jobs_to_airlock. set (rows := stuck_rows now limit (orch w)).
  pose proof (requeue_all_spec policy deadline now rows w results) as H.
  destruct (requeue_all _ _ _ _ _ _) as [[w' r'] n]. destruct H as (-> & -> & ->). cbn.
  split_and!; [done..|]. exists (base.filter (has_artifact w) rows), (base.filter (λ row, ¬ has_artifact w row) rows).
  assert (Hp : base.filter (has_artifact w) rows ++ base.filter (λ row, ¬ has_artifact w row) rows ≡ₚ rows) by apply filter_app_complement.
  split_and!; [done..| | | |].
  - rewrite Hp. apply NoDup_fst_map_to_list.
  - intros id job. rewrite Hp. unfold rows, stuck_rows. rewrite elem_of_map_to_list, map_lookup_filter_Some. done.
  - intros row [Ha _]%list_elem_of_filter. done.
  - intros row [Ha _]%list_elem_of_filter. unfold has_artifact in Ha. destruct (blobs w !! _); [|done]. by destruct Ha.
Qed.

(** ** How a tick ends *)

Lemma worker_tick_steps {W E} (perform : TickStep → W → W * option E) audit relay w :
  worker_tick perform audit relay w = run_steps perform audit relay TICK_STEPS w.
Proof. reflexivity. Qed.

(** Unfolding the list of steps under an abstract [perform] is exponential. *)
#[local] Strategy opaque [TICK_STEPS worker_tick].

Lemma steps_distinct : NoDup TICK_STEPS.
Proof. apply (bool_decide_unpack _). vm_compute. exact I. Qed.

Section tick_facts.
Context {W E : Type} (perform : TickStep → W → W * option E) (audit relay : bool).

Lemma run_steps_prefix steps w w' begun r :
  run_steps perform audit relay steps w = (w', begun, r) →
  ∃ later, base.filter (λ s, configured audit relay s = true) steps = begun ++ later ∧
           match r with None => later = [] | Some _ => ∃ s, last begun = Some s ∧ handled s = false end.
Proof.
  revert w w' begun r. induction steps as [|s steps IH]; intros w w' begun r; cbn [run_steps].
  { intros [= <- <- <-]. by exists []. }
  rewrite filter_cons. destruct (configured audit relay s) eqn:Ec; cbn [negb].
  2:{ rewrite decide_False by done. apply IH. }
  rewrite decide_True by done. destruct (perform s w) as [w1 [e|]] eqn:Ep; [destruct (handled s) eqn:Eh|].
  2:{ intros [= <- <- <-]. eexists. split; [reflexivity|]. by exists s. }
  all: destruct (run_steps perform audit relay steps w1) as [[w2 b2] r2] eqn:E2; intros [= <- <- <-];
    destruct (IH _ _ _ _ E2) as (later & -> & Hr); exists later; (split; [done|]); destruct r2; [|done];
    destruct Hr as (x & Hx & Hh); exists x; (split; [|done]); by destruct b2.
Qed.

(** Nothing after a step that always raises is begun. *)
Lemma run_steps_starve s before after w w' begun r :
  (∀ w, ∃ w' e, perform s w = (w', Some e)) → configured audit relay s = true → handled s = false → s ∉ before →
  run_steps perform audit relay (before ++ s :: after) w = (w', begun, r) →
  ∀ x, x ∈ begun → x ∈ before ∨ x = s.
Proof.
  intros Hf Hc Hh. revert w w' begun r. induction before as [|b before IH]; intros w w' begun r Hs; cbn [app run_steps].
  - rewrite Hc. destruct (Hf w) as (w1 & e & ->). rewrite Hh. intros [= <- <- <-] x ->%list_elem_of_singleton. by right.
  - apply not_elem_of_cons in Hs as [_ Hs]. destruct (configured audit relay b); cbn [negb].
    2:{ intros H x Hx. destruct (IH _ _ _ _ Hs H x Hx); [left; by right|by right]. }
    destruct (perform b w) as [w1 [e|]]; [destruct (handled b)|].
    2:{ intros [= <- <- <-] x ->%list_elem_of_singleton. left. left. }
    all: destruct (run_steps _ _ _ _ w1) as [[w2 b2] r2] eqn:E2; intros [= <- <- <-] x [->|Hx]%elem_of_cons; [left; left|];
      destruct (IH _ _ _ _ Hs E2 x Hx); [left; by right|by right].
Qed.

(** How a tick fails.  The steps of a tick run in their fixed order; the first one
    that raises, the gauge apart, ends the tick, and the loop starts the next tick
    from the beginning.  So the loop never dies, and a step that raises every time
    keeps all steps behind it from ever running. *)
Theorem failing_step_starves_the_rest s before after n w w' trace failures :
  TICK_STEPS = before ++ s :: after →
  (∀ w, ∃ w' e, perform s w = (w', Some e)) → configured audit relay s = true → handled s = false →
  run_worker_loop perform audit relay n w = (w', trace, failures) →
  length trace = n ∧ ∀ begun x, begun ∈ trace → x ∈ begun → x ∈ before ∨ x = s.
Proof.
  intros Hsteps Hf Hc Hh. assert (Hs : s ∉ before).
  { intros Hin. pose proof steps_distinct as Hnd. rewrite Hsteps in Hnd. apply NoDup_app in Hnd as (_ & Hd & _).
    apply (Hd s Hin). left. }
  revert w w' trace failures. induction n as [|n IH]; intros w w' trace failures; cbn [run_worker_loop].
  { intros [= <- <- <-]. split; [done|]. intros begun x Hb. by apply elem_of_nil in Hb. }
  destruct (worker_tick perform audit relay w) as [[w1 b] r] eqn:Et. destruct (run_worker_loop _ _ _ n w1) as [[w2 tr] fl] eqn:El.
  intros [= <- <- <-]. destruct (IH _ _ _ _ El) as [Hl Hall]. split; [cbn; by rewrite Hl|].
  intros begun x [->|Hb]%elem_of_cons; [|by apply Hall]. rewrite worker_tick_steps, Hsteps in Et. by eapply run_steps_starve.
Qed.
End tick_facts.

Module TickSamples.
(** A lifecycle step that always raises. *)
Definition broken (s : TickStep) (w : list TickStep) : list TickStep * option unit :=
  if bool_decide (s = tick_lifecycle) then (w, Some tt) else (w ++ [s], None).

Lemma failing_step_starves_the_rest_witness :
  ∀ begun x, begun ∈ (run_worker_loop broken true true 2 []).1.2 → x ∈ begun → x ∈ take 8 TICK_STEPS ∨ x = tick_lifecycle.
Proof.
  destruct (run_worker_loop broken true true 2 []) as [[w' trace] failures] eqn:E.
  apply (failing_step_starves_the_rest broken true true tick_lifecycle (take 8 TICK_STEPS) (drop 9 TICK_STEPS) 2 [] w' trace failures).
  - reflexivity.
  - intros w. by exists w, tt.
  - reflexivity.
  - reflexivity.
  - exact E.
Defined.

Example two_failed_ticks : (run_worker_loop broken true true 2 []).2 = 2%nat.
Proof. reflexivity. Qed.
End TickSamples.
