(* ===== verification/PolicyWorkflow.v ===== *)
(** * Policy proposals and activation

    [gate/policy_workflow.py] (propose, approve, reject), the admin routes that call
    it, and [worker.py]'s activation: [promote_approved_policy] applies the proposal
    an administrator just approved to the approving process, and
    [reload_policy_if_changed], run by every process on every tick, re-applies the
    newest applied proposal.  A system is the proposal table, the policy each running
    process holds, and the approvals whose promotion is still to come. *)

From S2P Require Import Prelude Float64 Models Json Policy.
From Stdlib Require Import QArith.
Open Scope string_scope.
Open Scope list_scope.
Open Scope Z_scope.

Record PolicyProposalRow := mkPolicyProposalRow {
  pp_proposed_policy_yaml : string;
  pp_changes_hard_gate_rules : bool;
  pp_status : string;
  pp_proposed_by : string;
  pp_approved_by : option string;
  pp_reason : option string;
  pp_created_at : Z;
  pp_decided_at : option Z;
}.

Record PolicyStore := mkPolicyStore {
  proposals : gmap Z PolicyProposalRow;
  policy_intents : list AuditIntent;
}.

Inductive PolicyProposalError :=
| proposal_invalid
| proposal_not_found
| not_pending (status : string)
| approver_is_proposer.

(** The next value of the autoincrement column. *)
Definition next_id (st : PolicyStore) : Z := 1 + foldr Z.max 0 (map_to_list (proposals st)).*1.

Definition decided (status by_ : string) (reason : option string) (now : Z) (r : PolicyProposalRow)
    : PolicyProposalRow :=
  mkPolicyProposalRow (pp_proposed_policy_yaml r) (pp_changes_hard_gate_rules r) status (pp_proposed_by r)
    (Some by_) (match reason with Some _ => reason | None => pp_reason r end) (pp_created_at r) (Some now).

Definition with_status (status : string) (r : PolicyProposalRow) : PolicyProposalRow :=
  mkPolicyProposalRow (pp_proposed_policy_yaml r) (pp_changes_hard_gate_rules r) status (pp_proposed_by r)
    (pp_approved_by r) (pp_reason r) (pp_created_at r) (pp_decided_at r).

Section workflow.
(** [yaml.safe_load]: [None] when it raises. *)
Variable safe_load : string → option yaml.
(** The engines of this deployment ([runtime.engine_metadatas]). *)
Variable available : gset string.

Definition propose_policy_change (proposed_by : string) (current_hard_gate_rules : gset string)
    (proposed_policy_yaml : string) (now : Z) (st : PolicyStore)
    : result PolicyProposalError (Z * PolicyStore) :=
  match safe_load proposed_policy_yaml with
  | Some (YMap raw) =>
      match parse_gate_policy raw with
      | Err _ => Err proposal_invalid
      | Ok proposed_policy =>
          let changes := negb (bool_decide (hard_gate_rules proposed_policy = current_hard_gate_rules)) in
          let status := if changes then "pending" else "approved" in
          let id := next_id st in
          let row := mkPolicyProposalRow proposed_policy_yaml changes status proposed_by
                       (if changes then None else Some proposed_by) None now
                       (if changes then None else Some now) in
          Ok (id, mkPolicyStore (<[id := row]> (proposals st))
                    (mkAuditIntent proposed_by "policy_proposed"
                       (JObj [("proposal_id", JNum id); ("changes_hard_gate_rules", JBool changes);
                              ("status", JStr status)]) :: policy_intents st))
      end
  | _ => Err proposal_invalid
  end.

Definition approval_intent (id : Z) (proposed_by approved_by : string) : AuditIntent :=
  mkAuditIntent approved_by "policy_approved" (JObj [("proposal_id", JNum id); ("proposed_by", JStr proposed_by)]).

Definition rejection_intent (id : Z) (proposed_by rejected_by reason : string) : AuditIntent :=
  mkAuditIntent rejected_by "policy_rejected"
    (JObj [("proposal_id", JNum id); ("proposed_by", JStr proposed_by); ("reason", JStr reason)]).

(** [proposal] is the row as the caller read it, without a lock; the [UPDATE] writes the
    changed columns of the row as it is by then. *)
Definition approve_policy_proposal (id : Z) (proposal : PolicyProposalRow) (approved_by : string) (now : Z) (st : PolicyStore)
    : result PolicyProposalError PolicyStore :=
  _ ← guard_err (String.eqb (pp_status proposal) "pending") (not_pending (pp_status proposal));
  _ ← guard_err (negb (String.eqb approved_by (pp_proposed_by proposal))) approver_is_proposer;
  Ok (mkPolicyStore (alter (decided "approved" approved_by None now) id (proposals st))
        (approval_intent id (pp_proposed_by proposal) approved_by :: policy_intents st)).

Definition reject_policy_proposal (id : Z) (proposal : PolicyProposalRow) (rejected_by reason : string) (now : Z) (st : PolicyStore)
    : result PolicyProposalError PolicyStore :=
  _ ← guard_err (String.eqb (pp_status proposal) "pending") (not_pending (pp_status proposal));
  Ok (mkPolicyStore (alter (decided "rejected" rejected_by (Some reason) now) id (proposals st))
        (rejection_intent id (pp_proposed_by proposal) rejected_by reason :: policy_intents st)).

(** [worker._parse_policy_candidate]: [None] is a refusal (or an uncaught overflow). *)
Definition _parse_policy_candidate (row : PolicyProposalRow) : option GatePolicy :=
  match safe_load (pp_proposed_policy_yaml row) with
  | Some (YMap raw) =>
      match parse_gate_policy raw with
      | Err _ => None
      | Ok candidate =>
          if bool_decide (required_engines candidate = ∅) then None
          else if bool_decide (required_engines candidate ⊆ available) then Some candidate else None
      end
  | _ => None
  end.

(** The transaction of [promote_approved_policy], with the policy it installs; [row] as it
    was read. *)
Definition promote_approved_policy (id : Z) (row : option PolicyProposalRow) (st : PolicyStore) : option (GatePolicy * PolicyStore) :=
  match row with
  | None => None
  | Some row =>
      if String.eqb (pp_status row) "approved" then
        candidate ← _parse_policy_candidate row;
        Some (candidate, mkPolicyStore (alter (with_status "applied") id (proposals st)) (policy_intents st))
      else None
  end.

(** The applied proposal with the highest id. *)
Definition newest_applied (st : PolicyStore) : option PolicyProposalRow :=
  let applied := base.filter (λ kv : Z * PolicyProposalRow, pp_status kv.2 = "applied")
                   (map_to_list (proposals st)) in
  match sort_by (λ a b, b.1 <=? a.1) applied with
  | [] => None
  | kv :: _ => Some kv.2
  end.

Definition reload_policy_if_changed (st : PolicyStore) (current : GatePolicy) : GatePolicy :=
  match newest_applied st with
  | None => current
  | Some row =>
      match _parse_policy_candidate row with
      | None => current
      | Some candidate => if String.eqb (version candidate) (version current) then current else candidate
      end
  end.

(** ** The steps *)

Record PolicySystem := mkPolicySystem {
  po_store : PolicyStore;
  po_running : gmap string GatePolicy;           (* the policy each process holds *)
  po_promoting : list (Z * string);              (* approved by a process, not yet promoted *)
  po_read : list (Z * PolicyProposalRow);        (* rows as sessions have read them *)
}.

(** The policy file a process starts from. *)
Variable bootstrap : GatePolicy.

(** A decision and a promotion are two steps, the read of the row and the write, and
    anything may happen in between. *)
Inductive policy_step : PolicySystem → PolicySystem → Prop :=
| process_starts st run pr rd proc :
    policy_step (mkPolicySystem st run pr rd) (mkPolicySystem st (<[proc := bootstrap]> run) pr rd)
| change_proposed st run pr rd proc current by_ text now id st' :
    run !! proc = Some current →
    propose_policy_change by_ (hard_gate_rules current) text now st = Ok (id, st') →
    policy_step (mkPolicySystem st run pr rd) (mkPolicySystem st' run pr rd)
| row_read st run pr rd id row :
    proposals st !! id = Some row →
    policy_step (mkPolicySystem st run pr rd) (mkPolicySystem st run pr ((id, row) :: rd))
| change_approved st run pr rd proc id seen by_ now st' :
    (id, seen) ∈ rd → approve_policy_proposal id seen by_ now st = Ok st' →
    policy_step (mkPolicySystem st run pr rd) (mkPolicySystem st' run ((id, proc) :: pr) rd)
| change_rejected st run pr rd id seen by_ reason now st' :
    (id, seen) ∈ rd → reject_policy_proposal id seen by_ reason now st = Ok st' →
    policy_step (mkPolicySystem st run pr rd) (mkPolicySystem st' run pr rd)
| change_promoted st run pr1 id proc pr2 rd seen candidate st' :
    (id, seen) ∈ rd → promote_approved_policy id (Some seen) st = Some (candidate, st') →
    policy_step (mkPolicySystem st run (pr1 ++ (id, proc) :: pr2) rd)
      (mkPolicySystem st' (<[proc := candidate]> run) (pr1 ++ pr2) rd)
| promotion_lost st run pr1 id proc pr2 rd :
    policy_step (mkPolicySystem st run (pr1 ++ (id, proc) :: pr2) rd) (mkPolicySystem st run (pr1 ++ pr2) rd)
| process_reloads st run pr rd proc current :
    run !! proc = Some current →
    policy_step (mkPolicySystem st run pr rd)
      (mkPolicySystem st (<[proc := reload_policy_if_changed st current]> run) pr rd).

Definition no_policies : PolicySystem := mkPolicySystem (mkPolicyStore ∅ []) ∅ [] [].
Definition policy_reachable (s : PolicySystem) : Prop := rtc policy_step no_policies s.

(** ** Four eyes *)

(** The audit rows that decide the proposal [id]. *)
Definition decides (id : Z) (i : AuditIntent) : Prop :=
  (ai_action i = "policy_approved" ∨ ai_action i = "policy_rejected") ∧
  match ai_payload i with JObj ((_, JNum k) :: _) => k = id | _ => False end.
#[local] Instance decides_dec id i : Decision (decides id i).
Proof.
  unfold decides. apply and_dec; [apply _|]. destruct (ai_payload i) as [| | | | | |l]; try apply _.
  destruct l as [|[? []] l]; apply _.
Defined.

Definition decisions (id : Z) (st : PolicyStore) : nat := length (base.filter (decides id) (policy_intents st)).

(** The row changes the hard gates, and an audit row says that someone other than its
    proposer approved it. *)
Definition four_eyes (st : PolicyStore) (id : Z) (r : PolicyProposalRow) : Prop :=
  pp_changes_hard_gate_rules r = true ∧
  ∃ a, a ≠ pp_proposed_by r ∧ approval_intent id (pp_proposed_by r) a ∈ policy_intents st.

(** The row is applied, or a second decision has overwritten it. *)
Definition in_force (st : PolicyStore) (p : GatePolicy) : Prop :=
  ∃ id r, proposals st !! id = Some r ∧ four_eyes st id r ∧ _parse_policy_candidate r = Some p ∧
          (pp_status r = "applied" ∨ (2 ≤ decisions id st)%nat).

(** The columns no update touches. *)
Definition same_proposal (r r' : PolicyProposalRow) : Prop :=
  pp_proposed_policy_yaml r = pp_proposed_policy_yaml r' ∧
  pp_changes_hard_gate_rules r = pp_changes_hard_gate_rules r' ∧ pp_proposed_by r = pp_proposed_by r'.

Record policy_ok (s : PolicySystem) : Prop := {
  pk_pending : ∀ id r, proposals (po_store s) !! id = Some r → pp_status r = "pending" →
    pp_changes_hard_gate_rules r = true;
  pk_auto : ∀ id r, proposals (po_store s) !! id = Some r → pp_changes_hard_gate_rules r = false →
    pp_status r = "approved";
  pk_applied : ∀ id r, proposals (po_store s) !! id = Some r → pp_status r = "applied" → four_eyes (po_store s) id r;
  pk_promoting : ∀ id proc, (id, proc) ∈ po_promoting s →
    ∃ r, proposals (po_store s) !! id = Some r ∧ four_eyes (po_store s) id r;
  pk_read : ∀ id seen, (id, seen) ∈ po_read s →
    ∃ r, proposals (po_store s) !! id = Some r ∧ same_proposal seen r ∧
         (pp_status seen = "pending" → pp_changes_hard_gate_rules seen = true);
  pk_running : ∀ proc p, po_running s !! proc = Some p → p = bootstrap ∨ in_force (po_store s) p;
}.

Lemma next_id_fresh st : proposals st !! next_id st = None.
Proof.
  destruct (proposals st !! next_id st) as [r|] eqn:E; [exfalso|done].
  assert (Hin : next_id st ∈ (map_to_list (proposals st)).*1).
  { apply list_elem_of_fmap. exists (next_id st, r). split; [done|]. by apply elem_of_map_to_list. }
  assert (Hle : ∀ l x, x ∈ l → x <= foldr Z.max 0 l).
  { induction l as [|y l IH]; intros x; [by intros ?%elem_of_nil|]. cbn.
    intros [->|Hx]%elem_of_cons; [lia|]. specialize (IH _ Hx). lia. }
  apply Hle in Hin. unfold next_id in Hin. lia.
Qed.

Lemma parse_same r r' : same_proposal r r' → _parse_policy_candidate r = _parse_policy_candidate r'.
Proof. intros (H & _). unfold _parse_policy_candidate. by rewrite H. Qed.

(** A write that keeps the fixed columns, adds audit rows, and takes a row out of
    [applied] only by deciding it. *)
Record grows (st st' : PolicyStore) : Prop := {
  gr_rows : ∀ id r, proposals st !! id = Some r → ∃ r', proposals st' !! id = Some r' ∧ same_proposal r r' ∧
    (pp_status r = "applied" → pp_status r' = "applied" ∨ (S (decisions id st) ≤ decisions id st')%nat);
  gr_intents : ∀ i, i ∈ policy_intents st → i ∈ policy_intents st';
  gr_decisions : ∀ id, (decisions id st ≤ decisions id st')%nat;
}.

Lemma four_eyes_grows st st' id r r' :
  grows st st' → same_proposal r r' → four_eyes st id r → four_eyes st' id r'.
Proof.
  intros [_ Hi _] (_ & Hc & Hb) [H1 (a & H2 & H3)]. split; [congruence|]. exists a. rewrite <- Hb. auto.
Qed.

Lemma four_eyes_decided st id r : four_eyes st id r → (1 ≤ decisions id st)%nat.
Proof.
  intros [_ (a & _ & Hin)]. unfold decisions. destruct (base.filter _ _) eqn:E; [|cbn; lia].
  assert (Hf : approval_intent id (pp_proposed_by r) a ∈ base.filter (decides id) (policy_intents st)).
  { apply list_elem_of_filter. split; [|done]. split; [by left|done]. }
  rewrite E in Hf. by apply elem_of_nil in Hf.
Qed.

Lemma in_force_grows st st' p : grows st st' → in_force st p → in_force st' p.
Proof.
  intros Hg (id & r & Hr & Hf & Hp & Hs). destruct (gr_rows _ _ Hg _ _ Hr) as (r' & Hr' & Hsame & Hap).
  exists id, r'. split_and!; [done|by eapply four_eyes_grows|by rewrite <- (parse_same _ _ Hsame)|].
  pose proof (four_eyes_decided _ _ _ Hf). pose proof (gr_decisions _ _ Hg id).
  destruct Hs as [Hs|Hs]; [destruct (Hap Hs); [by left|right; lia]|right; lia].
Qed.

Lemma grows_refl st : grows st st.
Proof. split; [|done..]. intros id r Hr. exists r. split_and!; try done. by left. Qed.

(** What a write must add to [grows] for the invariant. *)
Lemma ok_grows st run pr rd st' run' pr' rd' :
  policy_ok (mkPolicySystem st run pr rd) → grows st st' →
  (∀ id r, proposals st' !! id = Some r →
     (pp_status r = "pending" → pp_changes_hard_gate_rules r = true) ∧
     (pp_changes_hard_gate_rules r = false → pp_status r = "approved") ∧
     (pp_status r = "applied" → four_eyes st' id r)) →
  (∀ id proc, (id, proc) ∈ pr' → (id, proc) ∈ pr ∨ ∃ r, proposals st' !! id = Some r ∧ four_eyes st' id r) →
  (∀ id seen, (id, seen) ∈ rd' → (id, seen) ∈ rd ∨ proposals st' !! id = Some seen) →
  (∀ proc p, run' !! proc = Some p → run !! proc = Some p ∨ p = bootstrap ∨ in_force st' p) →
  policy_ok (mkPolicySystem st' run' pr' rd').
Proof.
  intros [H1 H2 H3 H4 H5 H6] Hg Hrow Hpr Hrd Hrun. cbn in *. split; cbn.
  - intros id r Hr. by destruct (Hrow _ _ Hr).
  - intros id r Hr. by destruct (Hrow _ _ Hr) as (_ & ? & _).
  - intros id r Hr. by destruct (Hrow _ _ Hr) as (_ & _ & ?).
  - intros id proc [Hin|?]%Hpr; [|done]. destruct (H4 _ _ Hin) as (r & Hr & Hf).
    destruct (gr_rows _ _ Hg _ _ Hr) as (r' & Hr' & Hs & _). exists r'. split; [done|by eapply four_eyes_grows].
  - intros id seen [Hin|Hr]%Hrd.
    + destruct (H5 _ _ Hin) as (r & Hr & Hs & Hp). destruct (gr_rows _ _ Hg _ _ Hr) as (r' & Hr' & Hs' & _).
      exists r'. split_and!; [done| |done]. unfold same_proposal in *. naive_solver congruence.
    + exists seen. split_and!; try done. by destruct (Hrow _ _ Hr).
  - intros proc p [Hp|?]%Hrun; [|done]. destruct (H6 _ _ Hp); [by left|right; by eapply in_force_grows].
Qed.

Lemma propose_grows by_ rules text now st id st' :
  propose_policy_change by_ rules text now st = Ok (id, st') →
  grows st st' ∧ proposals st !! id = None ∧ ∃ r, proposals st' = <[id := r]> (proposals st) ∧ pp_status r ≠ "applied" ∧
    (pp_status r = "pending" → pp_changes_hard_gate_rules r = true) ∧
    (pp_changes_hard_gate_rules r = false → pp_status r = "approved").
Proof.
  intros H. unfold propose_policy_change in H. destruct (safe_load text) as [[]|]; try done.
  destruct (parse_gate_policy l) as [p|]; [|done]. set (ch := negb _) in H. injection H as <- <-. split; [|split; [apply next_id_fresh|]].
  - split; cbn [proposals policy_intents].
    + intros k r Hr. exists r. rewrite lookup_insert_ne; [split_and!; [done|done|by left]|].
      intros <-. by rewrite next_id_fresh in Hr.
    + intros i Hi. by right.
    + intros k. unfold decisions. cbn [policy_intents]. rewrite filter_cons_False by (intros [[?|?] _]; done). lia.
  - eexists. split; [done|]. by destruct ch.
Qed.

(** Updating the row [id] in place. *)
Lemma alter_grows st id (f : PolicyProposalRow → PolicyProposalRow) (i : option AuditIntent) :
  (∀ r, same_proposal r (f r)) →
  (match i with Some i => decides id i | None => ∀ r, pp_status (f r) = "applied" end) →
  grows st (mkPolicyStore (alter f id (proposals st)) (option_list i ++ policy_intents st)).
Proof.
  intros Hsame Hi.
  assert (Hd : ∀ k, decisions k (mkPolicyStore (alter f id (proposals st)) (option_list i ++ policy_intents st)) =
    ((if decide (k = id) then length (option_list i) else 0) + decisions k st)%nat).
  { intros k. unfold decisions. cbn [policy_intents]. destruct i as [i|]; [change (option_list (Some i) ++ policy_intents st) with (i :: policy_intents st)|by destruct (decide (k = id))].
    rewrite filter_cons. destruct (decide (decides k i)) as [Hk|Hk], (decide (k = id)) as [->|Hne]; try done.
    unfold decides in Hi, Hk. destruct Hi as [_ Hi], Hk as [_ Hk].
    destruct (ai_payload i) as [| | | | | |l]; try done. destruct l as [|[? []] l]; naive_solver. }
  split; cbn [proposals policy_intents].
  - intros k r Hr. destruct (decide (k = id)) as [->|Hne].
    + exists (f r). rewrite lookup_alter_eq, Hr. split_and!; [done|done|]. intros _. rewrite Hd, decide_True by done.
      destruct i; [right; cbn; lia|left; apply Hi].
    + exists r. rewrite lookup_alter_ne by done. split_and!; [done|done|by left].
  - intros j Hj. apply elem_of_app. by right.
  - intros k. rewrite Hd. lia.
Qed.

Lemma alter_rows (f : PolicyProposalRow → PolicyProposalRow) id (m : gmap Z PolicyProposalRow) k r :
  alter f id m !! k = Some r → (k ≠ id ∧ m !! k = Some r) ∨ (k = id ∧ ∃ r0, m !! k = Some r0 ∧ r = f r0).
Proof.
  destruct (decide (k = id)) as [->|Hne]; [rewrite lookup_alter_eq|rewrite lookup_alter_ne by done]; [|by left].
  intros (r0 & Hr0 & ->)%fmap_Some. right. eauto.
Qed.

(** A decision taken on the row as it was read. *)
Lemma decide_ok st run pr rd id seen f i pr' :
  policy_ok (mkPolicySystem st run pr rd) → (id, seen) ∈ rd → pp_status seen = "pending" →
  (∀ r, same_proposal r (f r)) → (∀ r, pp_status (f r) ≠ "pending" ∧ pp_status (f r) ≠ "applied") → decides id i →
  (∀ k proc, (k, proc) ∈ pr' → (k, proc) ∈ pr ∨
     (k = id ∧ ∃ a, a ≠ pp_proposed_by seen ∧ i = approval_intent id (pp_proposed_by seen) a)) →
  policy_ok (mkPolicySystem (mkPolicyStore (alter f id (proposals st)) (i :: policy_intents st)) run pr' rd).
Proof.
  intros Hok Hin Hp Hsame Hst Hi Hpr. destruct (pk_read _ Hok _ _ Hin) as (r & Hr & (Hy & Hc & Hb) & Hpc). cbn in Hr.
  specialize (Hpc Hp). pose proof (alter_grows st id f (Some i) Hsame Hi) as Hg. cbn in Hg.
  eapply ok_grows; [exact Hok|exact Hg| | |by left|by left].
  - intros k x [[Hne Hx]|(-> & r0 & Hx & ->)]%alter_rows.
    + split_and!; [by eapply (pk_pending _ Hok)|by eapply (pk_auto _ Hok)|].
      intros Ha. eapply four_eyes_grows; [exact Hg|done|by eapply (pk_applied _ Hok)].
    + assert (r0 = r) as -> by congruence. destruct (Hst r) as [Hn1 Hn2], (Hsame r) as (_ & Hc' & _).
      split_and!; [done|congruence|done].
  - intros k proc [?|(-> & a & Ha & ->)]%Hpr; [by left|right]. exists (f r). cbn. rewrite lookup_alter_eq, Hr. split; [done|].
    destruct (Hsame r) as (_ & Hc' & Hb'). split; [congruence|]. exists a. rewrite <- Hb', <- Hb. split; [done|by left].
Qed.

Lemma promote_ok st run pr1 id proc pr2 rd seen candidate st' :
  policy_ok (mkPolicySystem st run (pr1 ++ (id, proc) :: pr2) rd) → (id, seen) ∈ rd →
  promote_approved_policy id (Some seen) st = Some (candidate, st') →
  policy_ok (mkPolicySystem st' (<[proc := candidate]> run) (pr1 ++ pr2) rd).
Proof.
  intros Hok Hin H. unfold promote_approved_policy in H.
  destruct (String.eqb (pp_status seen) "approved") eqn:Es; [|done].
  destruct (_parse_policy_candidate seen) as [c|] eqn:Ec; [|done]. injection H as -> <-.
  destruct (pk_read _ Hok _ _ Hin) as (r & Hr & Hs & _). cbn in Hr.
  destruct (pk_promoting _ Hok id proc) as (r0 & Hr0 & Hfe); [cbn; rewrite elem_of_app, elem_of_cons; by right; left|]. cbn in Hr0, Hfe.
  assert (r0 = r) as -> by congruence.
  assert (Hsame : ∀ x, same_proposal x (with_status "applied" x)) by done.
  pose proof (alter_grows st id (with_status "applied") None Hsame (λ _, eq_refl)) as Hg. cbn in Hg.
  assert (Hfe' : four_eyes (mkPolicyStore (alter (with_status "applied") id (proposals st)) (policy_intents st)) id
                   (with_status "applied" r)) by (eapply four_eyes_grows; [exact Hg|apply (Hsame r)|exact Hfe]).
  eapply ok_grows; [exact Hok|exact Hg| |intros k x Hx; left; rewrite elem_of_app, elem_of_cons; apply elem_of_app in Hx; tauto|by left|].
  - intros k x [[Hne Hx]|(-> & r0 & Hx & ->)]%alter_rows.
    + split_and!; [by eapply (pk_pending _ Hok)|by eapply (pk_auto _ Hok)|].
      intros Ha. eapply four_eyes_grows; [exact Hg|done|by eapply (pk_applied _ Hok)].
    + assert (r0 = r) as -> by congruence. split_and!; [done| |done]. destruct Hfe as [Hc _]. cbn. congruence.
  - intros q p [[<- <-]|[_ Hp]]%lookup_insert_Some; [|by left]. right. right.
    exists id, (with_status "applied" r). cbn. rewrite lookup_alter_eq, Hr. split_and!; [done|done| |by left].
    by rewrite <- (parse_same _ _ (Hsame r)), <- (parse_same _ _ Hs).
Qed.

Lemma newest_applied_in st row :
  newest_applied st = Some row → ∃ id, proposals st !! id = Some row ∧ pp_status row = "applied".
Proof.
  unfold newest_applied. destruct (sort_by _ _) as [|kv l] eqn:E; [done|]. injection 1 as <-.
  assert (Hin : kv ∈ base.filter (λ kv : Z * PolicyProposalRow, pp_status kv.2 = "applied")
                  (map_to_list (proposals st))).
  { eapply elem_of_sort_by. rewrite E. left. }
  apply list_elem_of_filter in Hin as [Hs Hin]. destruct kv as [k r]. exists k.
  split; [by apply elem_of_map_to_list|done].
Qed.

Lemma reload_ok st run pr rd current p :
  policy_ok (mkPolicySystem st run pr rd) → reload_policy_if_changed st current = p → p = current ∨ in_force st p.
Proof.
  intros Hok. unfold reload_policy_if_changed. destruct (newest_applied st) as [row|] eqn:E; [|by left].
  apply newest_applied_in in E as (id & Hid & Hs).
  destruct (_parse_policy_candidate row) as [c|] eqn:Ec; [|by left].
  destruct (String.eqb _ _); [by left|]. intros <-. right. exists id, row. split_and!; [done| |done|by left].
  by eapply (pk_applied _ Hok).
Qed.

Lemma policy_step_ok s s' : policy_step s s' → policy_ok s → policy_ok s'.
Proof.
  assert (Hrows : ∀ st run pr rd, policy_ok (mkPolicySystem st run pr rd) → ∀ id r, proposals st !! id = Some r →
     (pp_status r = "pending" → pp_changes_hard_gate_rules r = true) ∧
     (pp_changes_hard_gate_rules r = false → pp_status r = "approved") ∧ (pp_status r = "applied" → four_eyes st id r)).
  { intros st run pr rd Hok id r Hr. split_and!; [by eapply (pk_pending _ Hok)|by eapply (pk_auto _ Hok)|by eapply (pk_applied _ Hok)]. }
  destruct 1 as [st run pr rd proc|st run pr rd proc current by_ text now id st' Hrun H|st run pr rd id row Hrow
    |st run pr rd proc id seen by_ now st' Hin H|st run pr rd id seen by_ reason now st' Hin H
    |st run pr1 id proc pr2 rd seen candidate st' Hin H|st run pr1 id proc pr2 rd|st run pr rd proc current Hrun]; intros Hok.
  - eapply ok_grows; [exact Hok|apply grows_refl|by eapply Hrows|by left|by left|].
    intros q p [[<- <-]|[_ Hp]]%lookup_insert_Some; [right; by left|by left].
  - apply propose_grows in H as (Hg & _ & r & E & Hs & Hp & Ha).
    eapply ok_grows; [exact Hok|exact Hg| |by left|by left|by left]. rewrite E.
    intros k x [[<- <-]|[_ Hx]]%lookup_insert_Some; [done|]. destruct (Hrows _ _ _ _ Hok _ _ Hx) as (? & ? & Hf).
    split_and!; [done..|]. intros Hx'. eapply four_eyes_grows; [exact Hg|done|by apply Hf].
  - eapply ok_grows; [exact Hok|apply grows_refl|by eapply Hrows|by left| |by left].
    intros k x [[= -> ->]|Hin]%elem_of_cons; [by right|by left].
  - unfold approve_policy_proposal in H. ok_inv. bool_prop. str_prop.
    eapply decide_ok; [exact Hok|exact Hin|done|done|done|by split; [left|]|].
    intros k q [[= -> ->]|Hk]%elem_of_cons; [right|by left]. split; [done|]. by exists by_.
  - unfold reject_policy_proposal in H. ok_inv. str_prop.
    eapply decide_ok; [exact Hok|exact Hin|done|done|done|by split; [right|]|by left].
  - by eapply promote_ok.
  - eapply ok_grows; [exact Hok|apply grows_refl|by eapply Hrows| |by left|by left]. intros k q Hk. left. rewrite elem_of_app, elem_of_cons. apply elem_of_app in Hk. tauto.
  - eapply ok_grows; [exact Hok|apply grows_refl|by eapply Hrows|by left|by left|].
    intros q p [[<- Hp]|[_ Hp]]%lookup_insert_Some; [|by left].
    eapply reload_ok in Hp as [->|Hf]; [|by right; right|exact Hok]. destruct (pk_running _ Hok _ _ Hrun); by right; eauto.
Qed.

Lemma policy_reachable_ok s : policy_reachable s → policy_ok s.
Proof.
  apply (rtc_ind_r policy_ok).
  - split; cbn; intros *; rewrite ?lookup_empty; try done; by intros ?%elem_of_nil.
  - intros s1 s2 _ Hs. by apply policy_step_ok.
Qed.

(** C11: No policy runs without two people.  In every reachable state, also when decisions
    and promotions of a proposal overlap between their read and their write, the policy of
    each process is the bootstrap file's or that of a stored proposal that changes the
    hard-gate rules, for which the audit table has an approval by someone other than its
    proposer, and whose text parses to exactly this policy, with at least one required
    engine and only engines this deployment has.  The proposal is stored as applied, unless
    the audit table shows a second decision of it (which overwrote the first). *)
Theorem running_policy_has_four_eyes s proc p :
  policy_reachable s → po_running s !! proc = Some p →
  p = bootstrap ∨
  ∃ id r approver, proposals (po_store s) !! id = Some r ∧ pp_changes_hard_gate_rules r = true ∧
    approver ≠ pp_proposed_by r ∧
    mkAuditIntent approver "policy_approved" (JObj [("proposal_id", JNum id); ("proposed_by", JStr (pp_proposed_by r))])
      ∈ policy_intents (po_store s) ∧
    _parse_policy_candidate r = Some p ∧ required_engines p ≠ ∅ ∧ required_engines p ⊆ available ∧
    (pp_status r = "applied" ∨ (2 ≤ decisions id (po_store s))%nat).
Proof.
  intros Hs Hp. pose proof (policy_reachable_ok _ Hs) as Hok.
  destruct (pk_running _ Hok _ _ Hp) as [->|(id & r & Hr & [Hch (a & Ha & Hi)] & Hc & Hst)]; [by left|]. right.
  exists id, r, a. assert (H : required_engines p ≠ ∅ ∧ required_engines p ⊆ available); [|naive_solver].
  unfold _parse_policy_candidate in Hc; destruct (safe_load _) as [[]|]; try done;
    destruct (parse_gate_policy _) as [q|]; try done; do 2 (case_bool_decide; try done); by simplify_eq.
Qed.

(** A proposal that leaves the hard gates alone never takes effect.  It is recorded
    as approved at once, and from then on nothing changes it: approving and rejecting
    refuse it because it never was pending, and promotion only follows an approval. *)
Theorem auto_approved_is_never_applied s s' id r :
  policy_reachable s → proposals (po_store s) !! id = Some r → pp_changes_hard_gate_rules r = false →
  rtc policy_step s s' → proposals (po_store s') !! id = Some r ∧ pp_status r = "approved".
Proof.
  intros Hs Hr Hc Hss. revert Hs Hr. induction Hss as [s|s1 s2 s3 H12 _ IH]; intros Hs Hr.
  { split; [done|]. by eapply (pk_auto _ (policy_reachable_ok _ Hs)). }
  pose proof (policy_reachable_ok _ Hs) as Hok. apply IH; [by eapply rtc_r|]. clear IH Hs.
  assert (Hseen : ∀ seen, (id, seen) ∈ po_read s1 → pp_status seen ≠ "pending").
  { intros seen Hin Hp. destruct (pk_read _ Hok _ _ Hin) as (x & Hx & (_ & E & _) & H). specialize (H Hp). congruence. }
  assert (Hnp : ∀ proc, (id, proc) ∉ po_promoting s1).
  { intros proc Hin. destruct (pk_promoting _ Hok _ _ Hin) as (x & Hx & [E _]). congruence. }
  destruct H12 as [st run pr rd proc|st run pr rd proc current by_ text now id' st' Hrun H|st run pr rd id' row Hrow
    |st run pr rd proc id' seen by_ now st' Hin H|st run pr rd id' seen by_ reason now st' Hin H
    |st run pr1 id' proc pr2 rd seen candidate st' Hin H|st run pr1 id' proc pr2 rd|st run pr rd proc current Hrun]; cbn in *; try done.
  - apply propose_grows in H as (_ & Hn & x & E & _). rewrite E, lookup_insert_ne; [done|]. congruence.
  - unfold approve_policy_proposal in H. ok_inv. str_prop. cbn. rewrite lookup_alter_ne; [done|]. intros ->. by eapply Hseen.
  - unfold reject_policy_proposal in H. ok_inv. str_prop. cbn. rewrite lookup_alter_ne; [done|]. intros ->. by eapply Hseen.
  - unfold promote_approved_policy in H. destruct (String.eqb _ _); [|done]. destruct (_parse_policy_candidate seen); [|done].
    injection H as _ <-. cbn. rewrite lookup_alter_ne; [done|]. intros ->. apply (Hnp proc). rewrite elem_of_app, elem_of_cons. by right; left.
Qed.
End workflow.

(** ** Samples and the order of approvals *)

Module WorkflowSamples.

Definition policy_with (ver : string) (hard : gset string) : GatePolicy :=
  mkGatePolicy ver {["floor"]} hard (6#10) CRITICAL HIGH [(PUBLIC, HIGH)] HIGH BLOCK
    CategoryWeights_default.
Definition boot : GatePolicy := policy_with "v1" {["hard"]}.
Definition policy_a : GatePolicy := policy_with "vA" {["hard"; "a"]}.
Definition policy_b : GatePolicy := policy_with "vB" {["hard"; "b"]}.
Definition policy_t : GatePolicy := policy_with "vT" {["hard"]}.

(** One-letter texts stand for the files of these policies. *)
Definition load (text : string) : option yaml :=
  if String.eqb text "A" then Some (YMap (policy_yaml policy_a))
  else if String.eqb text "B" then Some (YMap (policy_yaml policy_b))
  else if String.eqb text "T" then Some (YMap (policy_yaml policy_t)) else None.
Definition engines : gset string := {["floor"]}.

Definition propose (text : string) (now : Z) (st : PolicyStore) : PolicyStore :=
  match propose_policy_change load "alice" (hard_gate_rules boot) text now st with
  | Ok (_, st') => st' | Err _ => st end.
Definition row (id : Z) (st : PolicyStore) : PolicyProposalRow :=
  default (mkPolicyProposalRow "" false "" "" None None 0 None) (proposals st !! id).
Definition approve (id : Z) (now : Z) (st : PolicyStore) : PolicyStore :=
  match approve_policy_proposal id (row id st) "bob" now st with Ok st' => st' | Err _ => st end.
Definition promote (id : Z) (st : PolicyStore) : PolicyStore :=
  match promote_approved_policy load engines id (proposals st !! id) st with Some (_, st') => st' | None => st end.

Definition st0 : PolicyStore := mkPolicyStore ∅ [].
Definition st1 : PolicyStore := propose "A" 1 st0.
Definition st2 : PolicyStore := propose "B" 2 st1.
Definition st3 : PolicyStore := approve 2 3 st2.
Definition st4 : PolicyStore := promote 2 st3.
Definition st5 : PolicyStore := approve 1 5 st4.
Definition st6 : PolicyStore := promote 1 st5.
Definition run0 : gmap string GatePolicy := {["api" := boot]}.
Definition run4 : gmap string GatePolicy := <["api" := policy_b]> run0.
Definition run6 : gmap string GatePolicy := <["api" := policy_a]> run4.

Local Abbreviation stepped := (policy_step load engines boot).

Lemma booted : stepped no_policies (mkPolicySystem st0 run0 [] []).
Proof. exact (process_starts load engines boot st0 ∅ [] [] "api"). Qed.

Definition rd1 : list (Z * PolicyProposalRow) := [(2, row 2 st2)].
Definition rd2 := (2, row 2 st3) :: rd1.
Definition rd3 := (1, row 1 st4) :: rd2.
Definition rd4 := (1, row 1 st5) :: rd3.

(** alice proposes A and then B; bob approves B, then A. *)
Lemma both_approved_reachable : policy_reachable load engines boot (mkPolicySystem st6 run6 [] rd4).
Proof.
  assert (H1 : propose_policy_change load "alice" (hard_gate_rules boot) "A" 1 st0 = Ok (1, st1)) by (vm_compute; reflexivity).
  assert (H2 : propose_policy_change load "alice" (hard_gate_rules boot) "B" 2 st1 = Ok (2, st2)) by (vm_compute; reflexivity).
  assert (H3 : approve_policy_proposal 2 (row 2 st2) "bob" 3 st2 = Ok st3) by (vm_compute; reflexivity).
  assert (H4 : promote_approved_policy load engines 2 (Some (row 2 st3)) st3 = Some (policy_b, st4)) by (vm_compute; reflexivity).
  assert (H5 : approve_policy_proposal 1 (row 1 st4) "bob" 5 st4 = Ok st5) by (vm_compute; reflexivity).
  assert (H6 : promote_approved_policy load engines 1 (Some (row 1 st5)) st5 = Some (policy_a, st6)) by (vm_compute; reflexivity).
  assert (Hr : run0 !! "api" = Some boot) by reflexivity.
  eapply rtc_r; [|exact (change_promoted load engines boot st5 run4 [] 1 "api" [] rd4 _ policy_a st6 (list_elem_of_here _ _) H6)].
  eapply rtc_r; [|exact (row_read load engines boot st5 run4 [(1, "api")] rd3 1 (row 1 st5) eq_refl)].
  eapply rtc_r; [|exact (change_approved load engines boot st4 run4 [] rd3 "api" 1 _ "bob" 5 st5 (list_elem_of_here _ _) H5)].
  eapply rtc_r; [|exact (row_read load engines boot st4 run4 [] rd2 1 (row 1 st4) eq_refl)].
  eapply rtc_r; [|exact (change_promoted load engines boot st3 run0 [] 2 "api" [] rd2 _ policy_b st4 (list_elem_of_here _ _) H4)].
  eapply rtc_r; [|exact (row_read load engines boot st3 run0 [(2, "api")] rd1 2 (row 2 st3) eq_refl)].
  eapply rtc_r; [|exact (change_approved load engines boot st2 run0 [] rd1 "api" 2 _ "bob" 3 st3 (list_elem_of_here _ _) H3)].
  eapply rtc_r; [|exact (row_read load engines boot st2 run0 [] [] 2 (row 2 st2) eq_refl)].
  eapply rtc_r; [|exact (change_proposed load engines boot st1 run0 [] [] "api" boot "alice" "B" 2 2 st2 Hr H2)].
  eapply rtc_r; [|exact (change_proposed load engines boot st0 run0 [] [] "api" boot "alice" "A" 1 1 st1 Hr H1)].
  apply rtc_once, booted.
Qed.

Lemma running_policy_has_four_eyes_witness :
  ∃ id r, proposals st6 !! id = Some r ∧ _parse_policy_candidate load engines r = Some policy_a ∧
          (pp_status r = "applied" ∨ (2 ≤ decisions id st6)%nat).
Proof.
  destruct (running_policy_has_four_eyes load engines boot (mkPolicySystem st6 run6 [] rd4) "api" policy_a
              both_approved_reachable eq_refl) as [H|(id & r & a & H1 & _ & _ & _ & H2 & _ & _ & H3)].
  - apply (f_equal version) in H. discriminate H.
  - exact (ex_intro _ id (ex_intro _ r (conj H1 (conj H2 H3)))).
Defined.

(** alice opens her own proposal to reject it; before her write, bob approves it and it is
    applied.  Her rejection goes through: the process runs a policy whose proposal is stored
    as rejected, by its proposer, and a restart does not find it. *)
Definition overruled : PolicyStore :=
  match reject_policy_proposal 1 (row 1 st1) "alice" "withdrawn" 9 (promote 1 (approve 1 2 st1)) with Ok st => st | Err _ => st1 end.

Theorem late_rejection_disowns_the_running_policy :
  ∃ s, policy_reachable load engines boot s ∧ po_running s !! "api" = Some policy_a ∧
    (pp_status <$> proposals (po_store s) !! 1) = Some "rejected" ∧
    (pp_approved_by <$> proposals (po_store s) !! 1) = Some (Some "alice") ∧
    reload_policy_if_changed load engines (po_store s) boot = boot.
Proof.
  set (sa := approve 1 2 st1). set (sb := promote 1 sa).
  assert (H1 : propose_policy_change load "alice" (hard_gate_rules boot) "A" 1 st0 = Ok (1, st1)) by (vm_compute; reflexivity).
  assert (H2 : approve_policy_proposal 1 (row 1 st1) "bob" 2 st1 = Ok sa) by (vm_compute; reflexivity).
  assert (H3 : promote_approved_policy load engines 1 (Some (row 1 sa)) sa = Some (policy_a, sb)) by (vm_compute; reflexivity).
  assert (H4 : reject_policy_proposal 1 (row 1 st1) "alice" "withdrawn" 9 sb = Ok overruled) by (vm_compute; reflexivity).
  set (rd := [(1, row 1 sa); (1, row 1 st1)]).
  exists (mkPolicySystem overruled (<["api" := policy_a]> run0) [] rd). split.
  - eapply rtc_r; [|exact (change_rejected load engines boot sb _ [] rd 1 _ "alice" "withdrawn" 9 overruled
                             (list_elem_of_further _ _ _ (list_elem_of_here _ _)) H4)].
    eapply rtc_r; [|exact (change_promoted load engines boot sa run0 [] 1 "api" [] rd _ policy_a sb (list_elem_of_here _ _) H3)].
    eapply rtc_r; [|exact (row_read load engines boot sa run0 [(1, "api")] [(1, row 1 st1)] 1 (row 1 sa) eq_refl)].
    eapply rtc_r; [|exact (change_approved load engines boot st1 run0 [] _ "api" 1 _ "bob" 2 sa (list_elem_of_here _ _) H2)].
    eapply rtc_r; [|exact (row_read load engines boot st1 run0 [] [] 1 (row 1 st1) eq_refl)].
    eapply rtc_r; [|exact (change_proposed load engines boot st0 run0 [] [] "api" boot "alice" "A" 1 1 st1 eq_refl H1)].
    apply rtc_once, booted.
  - vm_compute. tauto.
Qed.

Definition tuned : PolicyStore := propose "T" 1 st0.

Lemma auto_approved_is_never_applied_witness :
  (pp_status <$> proposals tuned !! 1) = Some "approved" ∧ approve 1 2 tuned = tuned.
Proof.
  assert (H : propose_policy_change load "alice" (hard_gate_rules boot) "T" 1 st0 = Ok (1, tuned)) by (vm_compute; reflexivity).
  assert (Hr : policy_reachable load engines boot (mkPolicySystem tuned run0 [] [])).
  { eapply rtc_r; [apply rtc_once, booted|].
    exact (change_proposed load engines boot st0 run0 [] [] "api" boot "alice" "T" 1 1 tuned eq_refl H). }
  destruct (proposals tuned !! 1) as [r|] eqn:E; [|by vm_compute in E].
  destruct (auto_approved_is_never_applied load engines boot (mkPolicySystem tuned run0 [] [])
              (mkPolicySystem tuned run0 [] []) 1 r Hr E) as [_ Hs];
    [vm_compute in E; injection E as <-; reflexivity|apply rtc_refl|].
  split; [exact (f_equal Some Hs)|]. vm_compute. reflexivity.
Defined.

(** Activation follows the proposals' ids, not the order of approval.  Two hard-gate
    changes are proposed; the second is approved and applied, then the first is
    approved and applied.  The process runs the policy just approved only until its
    next tick: [reload_policy_if_changed] takes the applied proposal with the highest
    id and puts the earlier approval back in force. *)
Theorem later_approval_is_reverted :
  ∃ s1 s2, policy_reachable load engines boot s1 ∧ policy_step load engines boot s1 s2 ∧
    (version <$> po_running s1 !! "api") = Some "vA" ∧
    (version <$> po_running s2 !! "api") = Some "vB" ∧
    (pp_decided_at <$> proposals (po_store s1) !! 1) = Some (Some 5) ∧
    (pp_decided_at <$> proposals (po_store s1) !! 2) = Some (Some 3).
Proof.
  exists (mkPolicySystem st6 run6 [] rd4),
    (mkPolicySystem st6 (<["api" := reload_policy_if_changed load engines st6 policy_a]> run6) [] rd4).
  split; [apply both_approved_reachable|]. split; [exact (process_reloads load engines boot st6 run6 [] rd4 "api" policy_a eq_refl)|].
  vm_compute. tauto.
Qed.
End WorkflowSamples.
