(* ===== verification/Pipeline.v ===== *)
(** * The pipeline under interleaving

    Collector ticks, dead-letter paths, sweeps and submissions run concurrently: each
    database transaction is atomic, anything may happen between two of them, and a
    process may die in between.  A [System] is the world plus the continuations
    still to run; its steps are the transactions of [Orchestration.v].  At the end, the
    same system with people in it: reviewers who turn a recorded REVIEW into PASS or
    BLOCK ([Reviews.v]) while everything else goes on. *)

From S2P Require Import Prelude Float64 Models Scoring Gate Json Canonical PolicyDigest Inventory GateService Readback Orchestration Reviews.
From Stdlib Require Import QArith.
Open Scope string_scope.
Open Scope list_scope.
Open Scope Z_scope.

(** What a running call still has to do. *)
Inductive Pending :=
| after_score (scan_id : string) (sc : Scored)
| after_gate (scan_id : string)
| after_claim (scan_id content_hash : string) (tier : option string) (reason : string)
| after_dead (scan_id : string).

Definition pending_id (p : Pending) : string :=
  match p with
  | after_score id _ | after_gate id | after_claim id _ _ _ | after_dead id => id
  end.

Record System := mkSystem { world : World; pending : list Pending }.

Definition set_blobs (b : gmap string blob) (w : World) : World :=
  mkWorld (orch w) b (scans_stream w) (gate w).

Section system.
Context (exp64 : Q → Q) (sign_verdict : json → Z → string) (claim_jti : string → string).
Context (nfc : points → points) (sha256 : list Z → string) (repr_str : string → string)
  (repr_float : Q → string).
Context (pack_tar : list Entry → blob) (skill_name_of : list Entry → option string).
Context (model_validate_json : blob → option EngineResultDTO).
Context (error_text : UntrustedFindingsError → string) (py_repr : string → string).

Local Abbreviation submit := (submit_scan nfc sha256 repr_str repr_float pack_tar skill_name_of).
Local Abbreviation score := (score_txn model_validate_json error_text py_repr).
Local Abbreviation gate_tx := (gate_txn exp64 sign_verdict claim_jti).

(** One transaction of the pipeline itself, or the death of the process that owed the next one.  Policies
    change at run time, so every step may use another one.  What people do to the gate's
    tables meanwhile is added by [live_step] below. *)
Inductive step : System → System → Prop :=
| step_submit files submitter ms policy t src rt dl new_id now w w' id P :
    jobs (orch w) !! new_id = None →
    submit files submitter ms policy t src rt dl new_id now w = Ok (id, w') →
    step (mkSystem w P) (mkSystem w' P)
| step_blobs b w P : step (mkSystem w P) (mkSystem (set_blobs b w) P)
| step_running id w P :
    step (mkSystem w P) (mkSystem (set_orch (_mark_running_if_queued id (orch w)) w) P)
| step_wait id req policy add waited force now st w P :
    score (blobs w) id req policy add waited force now (orch w) = Ok (None, st) →
    step (mkSystem w P) (mkSystem (set_orch st w) P)
| step_score id req policy add waited force now sc st w P :
    score (blobs w) id req policy add waited force now (orch w) = Ok (Some sc, st) →
    step (mkSystem w P) (mkSystem (set_orch st w) (after_score id sc :: P))
| step_claim id h t reason w P :
    dead_letter_claim id (orch w) = Some (h, t) →
    step (mkSystem w P) (mkSystem w (after_claim id h t reason :: P))
| step_gate_scored id sc policy dt al op now clock g w P1 P2 :
    GatePolicy_ok policy →
    gate_tx id (sc_result sc) policy (sc_tier sc) dt al op (sc_extra_reasons sc) now clock (gate w) = Ok g →
    step (mkSystem w (P1 ++ after_score id sc :: P2)) (mkSystem (set_gate g w) (P1 ++ after_gate id :: P2))
| step_gate_dead id h t reason policy dt op now clock g w P1 P2 :
    GatePolicy_ok policy →
    gate_tx id (forced_block_scan_result h reason) policy t dt [] op [] now clock (gate w) = Ok g →
    step (mkSystem w (P1 ++ after_claim id h t reason :: P2))
         (mkSystem (set_gate g w) (P1 ++ after_dead id :: P2))
| step_decided id w P1 P2 :
    step (mkSystem w (P1 ++ after_gate id :: P2))
         (mkSystem (set_orch (mark_decided id (orch w)) w) (P1 ++ P2))
| step_failed id w P1 P2 :
    step (mkSystem w (P1 ++ after_dead id :: P2))
         (mkSystem (set_orch (dead_letter_finish id (orch w)) w) (P1 ++ P2))
| step_crash p w P1 P2 : step (mkSystem w (P1 ++ p :: P2)) (mkSystem w (P1 ++ P2)).

Definition empty_world : World := mkWorld (mkOrchStore ∅ ∅ ∅ ∅) ∅ [] (mkGateStore ∅ ∅ [] []).

Definition reachable (s : System) : Prop := rtc step (mkSystem empty_world []) s.

(** ** Invariants *)

Section invariants.
(** The scans whose verdict a reviewer has turned into PASS. *)
Context (reviewed : string → Prop).

(** What holds of one scan, given its job, its result row and its verdict. *)
Record scan_ok (approved : Prop) (j : option ScanJob) (r : option ScanResultRow) (v : option VerdictRow) : Prop := {
  so_state : ∀ jb, j = Some jb → j_state jb ∈ SCAN_STATES;
  so_result : r ≠ None ↔ ∃ jb, j = Some jb ∧ j_state jb ∈ [STATE_SCORED; STATE_DECIDED];
  so_result_hash : ∀ rw jb, r = Some rw → j = Some jb → sr_row_content_hash rw = j_content_hash jb;
  so_verdict_job : ∀ vr, v = Some vr → ∃ jb, j = Some jb ∧ v_content_hash vr = j_content_hash jb;
  so_pass : ∀ vr, v = Some vr → v_verdict vr = "PASS" → ∃ rw, r = Some rw ∧ (sr_row_required_ok rw = true ∨ approved);
  so_final : ∀ jb, j = Some jb → j_state jb ∈ [STATE_DECIDED; STATE_FAILED] → v ≠ None;
}.

(** What a pending continuation may rely on. *)
Definition pending_ok (w : World) (p : Pending) : Prop :=
  match p with
  | after_score id sc => results (orch w) !! id = Some (result_row (sc_result sc))
  | after_gate id | after_dead id => verdicts (gate w) !! id ≠ None
  | after_claim id h _ _ => ∃ jb, jobs (orch w) !! id = Some jb ∧ j_content_hash jb = h
  end.

Record system_ok (s : System) : Prop := {
  sy_scan : ∀ id, scan_ok (reviewed id) (jobs (orch (world s)) !! id) (results (orch (world s)) !! id)
                    (verdicts (gate (world s)) !! id);
  sy_pending : ∀ p, p ∈ pending s → pending_ok (world s) p;
  sy_single_flight : ∀ id id' j j', jobs (orch (world s)) !! id = Some j →
    jobs (orch (world s)) !! id' = Some j' → j_cache_key j = j_cache_key j' → id = id';
}.

(** ** What each transaction does *)

Lemma gate_tx_inv id sr policy t dt al op ex now clock g g' :
  gate_tx id sr policy t dt al op ex now clock g = Ok g' →
  GatePolicy_ok policy →
  verdicts g !! id = None ∧
  ∃ row, verdicts g' = <[id := row]> (verdicts g) ∧ v_content_hash row = sr_content_hash sr ∧
         (v_verdict row = "PASS" → sr_required_ok sr = true).
Proof.
  intros (tier & _ & H)%bind_Ok (_ & _ & _ & _ & _ & Hfc & _).
  destruct (decide_and_record _ _ _ _ _ _ _ _ _ _ _ _ _) as [[vr g'']|] eqn:E; [|done].
  injection H as <-.
  apply decide_and_record_inv in E as (-> & Hn & row & o & i & _ & Hh & Hv & _ & _ & _ & _ & _ & _ & _ & _ & _ & _ & ->).
  split; [done|]. exists row. split_and!; [done..|]. rewrite Hv. intros Hp.
  destruct (sr_required_ok sr) eqn:Er; [done|]. exfalso.
  destruct (gate_decide_fail_closed sr policy tier al now 0 None exp64 Er) as (Hf & _).
  rewrite Hf in Hp. by destruct (fail_closed_verdict policy).
Qed.

Lemma update_state_lookup id from to st id' :
  jobs (update_state id from to st) !! id' =
  if decide (id' = id)
  then (λ j, if bool_decide (j_state j ∈ from) then with_state to j else j) <$> jobs st !! id
  else jobs st !! id'.
Proof.
  unfold update_state, set_jobs. simpl. destruct (decide (id' = id)) as [->|Hn].
  - apply lookup_alter_eq.
  - by rewrite lookup_alter_ne.
Qed.

(** The scoring transaction: it may only note the start of the wait, or it scores an
    unscored scan and stores its row. *)
Lemma score_wait_inv b id req policy add waited force now st st' :
  score b id req policy add waited force now st = Ok (None, st') →
  st' = st ∨ ∃ job, jobs st !! id = Some job ∧ st' = set_jobs (insert id (with_wait_started now job)) st.
Proof.
  unfold score_txn. destruct (jobs st !! id) as [job|] eqn:Ej; [|intros [= <-]; by left].
  destruct (negb _); [intros [= <-]; by left|]. destruct (negb _); [intros [= <-]; by left|].
  destruct (_ && _); [intros [= <-]; right; by exists job|].
  destruct (load_and_aggregate _ _ _ _ _ _ _ _ _ _) as [ag|]; [|done].
  intros (u & _ & H)%bind_Ok. done.
Qed.

Lemma score_inv b id req policy add waited force now st sc st' :
  score b id req policy add waited force now st = Ok (Some sc, st') →
  ∃ job, jobs st !! id = Some job ∧ j_state job ∈ _UNSCORED_STATES ∧ results st !! id = None ∧
    sr_content_hash (sc_result sc) = j_content_hash job ∧
    jobs st' = <[id := with_state STATE_SCORED job]> (jobs st) ∧
    results st' = <[id := result_row (sc_result sc)]> (results st).
Proof.
  unfold score_txn. destruct (jobs st !! id) as [job|] eqn:Ej; [|done].
  destruct (bool_decide_reflect (j_state job ∈ _UNSCORED_STATES)) as [Hs|]; simpl; [|done].
  destruct (negb _); [done|]. destruct (_ && _); [done|].
  destruct (load_and_aggregate _ _ _ _ _ _ _ _ _ _) as [ag|] eqn:E; [|done].
  intros (u & Hr%guard_err_Ok & H)%bind_Ok. apply bool_decide_eq_true in Hr.
  apply load_and_aggregate_hash in E. injection H as <- <-. exists job. by split_and!.
Qed.

Lemma submit_inv files submitter ms policy t src rt dl new_id now w id w' :
  submit files submitter ms policy t src rt dl new_id now w = Ok (id, w') →
  gate w' = gate w ∧ results (orch w') = results (orch w) ∧
  (jobs (orch w') = jobs (orch w) ∨
   ∃ job, jobs (orch w') = <[new_id := job]> (jobs (orch w)) ∧ j_state job = STATE_QUEUED ∧
     ∀ id j, jobs (orch w) !! id = Some j → j_cache_key j ≠ j_cache_key job).
Proof.
  unfold submit_scan.
  destruct (content_hash _ _ _); [|done]. destruct (toolchain_digest _ _ _ _); [|done].
  destruct (cache_key _ _ _) as [ck|]; [|done].
  assert (Hassoc : ∀ a b c d st, jobs (_associate_submitter a b c d st) = jobs st ∧
                                 results (_associate_submitter a b c d st) = results st).
  { intros. unfold _associate_submitter. by destruct (_ !! _). }
  destruct (job_with_cache_key (orch w) ck) as [ex|] eqn:E; intros [= <- <-]; simpl.
  - rewrite (proj1 (Hassoc _ _ _ _ _)), (proj2 (Hassoc _ _ _ _ _)). auto.
  - rewrite (proj1 (Hassoc _ _ _ _ _)), (proj2 (Hassoc _ _ _ _ _)). split_and!; [done..|]. right.
    eexists. split; [reflexivity|]. split; [done|]. simpl. intros i j Hj Hk.
    unfold job_with_cache_key in E. destruct (find _ _) eqn:Ef; [done|].
    apply elem_of_map_to_list in Hj. eapply find_none in Ef; [|by apply list_elem_of_In].
    simpl in Ef. by rewrite Hk, String.eqb_refl in Ef.
Qed.

(** ** Preservation *)

Lemma unscored_not_final s : s ∈ _UNSCORED_STATES →
  s ∈ SCAN_STATES ∧ (s ∉ [STATE_SCORED; STATE_DECIDED]) ∧ (s ∉ [STATE_DECIDED; STATE_FAILED]).
Proof.
  unfold _UNSCORED_STATES. rewrite !elem_of_cons, elem_of_nil.
  intros [->|[->|[]]]; split_and!; by_compute.
Qed.

(** A job row may become another one of the same content if it stays on its side of
    scoring and is only finished once there is a verdict. *)
Definition job_step (v : option VerdictRow) (a b : ScanJob) : Prop :=
  j_content_hash b = j_content_hash a ∧ j_cache_key b = j_cache_key a ∧ j_state b ∈ SCAN_STATES ∧
  (j_state b ∈ [STATE_SCORED; STATE_DECIDED] ↔ j_state a ∈ [STATE_SCORED; STATE_DECIDED]) ∧
  (j_state b ∈ [STATE_DECIDED; STATE_FAILED] → v ≠ None).

Lemma scan_ok_job_step R a b r v : job_step v a b → scan_ok R (Some a) r v → scan_ok R (Some b) r v.
Proof.
  intros (Hh & _ & Hs & Hsd & Hfin) [Hst Hr Hrh Hvj Hp Hf]. split.
  - by intros jb [= <-].
  - rewrite Hr. split; intros (jb & [= <-] & Hin); eexists; (split; [done|]); by apply Hsd.
  - intros rw jb Hrw [= <-]. rewrite Hh. by eapply Hrh.
  - intros vr Hv. destruct (Hvj vr Hv) as (jb & [= <-] & E). exists b. by rewrite Hh.
  - done.
  - by intros jb [= <-].
Qed.

Lemma job_step_refl R a r v : scan_ok R (Some a) r v → job_step v a a.
Proof. intros H. split_and!; [done..|by eapply so_state|done|by eapply so_final]. Qed.

(** Steps that only replace a job row. *)
Lemma system_ok_job w w' P id a b :
  system_ok (mkSystem w P) → jobs (orch w) !! id = Some a →
  job_step (verdicts (gate w) !! id) a b →
  jobs (orch w') = <[id := b]> (jobs (orch w)) → results (orch w') = results (orch w) →
  gate w' = gate w → system_ok (mkSystem w' P).
Proof.
  intros [Hsc Hpe Hsf] Ha Hab Hj Hr Hg. simpl in *. split; simpl.
  - intros i. rewrite Hj, Hr, Hg. destruct (decide (i = id)) as [->|Hn].
    + rewrite lookup_insert_eq. eapply scan_ok_job_step; [done|]. rewrite <-Ha. apply Hsc.
    + rewrite lookup_insert_ne by done. apply Hsc.
  - intros p Hp%Hpe. destruct p as [i sc|i|i h t re|i]; simpl in *; rewrite ?Hr, ?Hg; try done.
    destruct Hp as (jb & Hjb & E). rewrite Hj. destruct (decide (i = id)) as [->|Hn].
    + rewrite lookup_insert_eq. exists b. split; [done|]. destruct Hab as (-> & _). congruence.
    + rewrite lookup_insert_ne by done. eauto.
  - intros i i' j j'. rewrite Hj. destruct Hab as (_ & Hk & _).
    destruct (decide (i = id)) as [->|Hn], (decide (i' = id)) as [->|Hn'];
      rewrite ?lookup_insert_eq, ?(lookup_insert_ne _ _ i), ?(lookup_insert_ne _ _ i') by done;
      try done; intros Hi Hi' E; simplify_eq.
    + eapply Hsf; [exact Ha|exact Hi'|congruence].
    + eapply Hsf; [exact Hi|exact Ha|congruence].
    + by eapply Hsf.
Qed.

Lemma system_ok_update id from to w P :
  system_ok (mkSystem w P) →
  (∀ j, jobs (orch w) !! id = Some j → j_state j ∈ from →
        job_step (verdicts (gate w) !! id) j (with_state to j)) →
  system_ok (mkSystem (set_orch (update_state id from to (orch w)) w) P).
Proof.
  intros Hok Hs. destruct (jobs (orch w) !! id) as [j|] eqn:Ej.
  - eapply (system_ok_job w _ P id j (if bool_decide (j_state j ∈ from) then with_state to j else j));
      [done|done| |..]; try done.
    + case_bool_decide; [by apply Hs|]. pose proof (sy_scan _ Hok id) as Hso. simpl in Hso.
      rewrite Ej in Hso. by eapply job_step_refl.
    + change (jobs (orch (set_orch ?o w))) with (jobs o). apply map_eq. intros i.
      rewrite update_state_lookup.
      destruct (decide (i = id)) as [->|Hn]; [by rewrite lookup_insert_eq, Ej|].
      by rewrite lookup_insert_ne.
  - assert (E : jobs (update_state id from to (orch w)) = jobs (orch w)).
    { apply map_eq. intros i. rewrite update_state_lookup.
      destruct (decide (i = id)) as [->|Hn]; by rewrite ?Ej. }
    destruct Hok as [H1 H2 H3]. split; cbn [world pending orch gate set_orch]; rewrite ?E; try done.
    intros p Hp%H2. destruct p; cbn [pending_ok world orch gate set_orch] in *; by rewrite ?E.
Qed.

Lemma system_ok_pending w P P' : system_ok (mkSystem w P) → P' ⊆ P → system_ok (mkSystem w P').
Proof. intros [H1 H2 H3] Hs. split; [done| |done]. intros p Hp. apply H2, Hs, Hp. Qed.

(** The scoring transaction. *)
Lemma system_ok_score id job sc st w P :
  system_ok (mkSystem w P) →
  jobs (orch w) !! id = Some job → j_state job ∈ _UNSCORED_STATES → results (orch w) !! id = None →
  sr_content_hash (sc_result sc) = j_content_hash job →
  jobs st = <[id := with_state STATE_SCORED job]> (jobs (orch w)) →
  results st = <[id := result_row (sc_result sc)]> (results (orch w)) →
  system_ok (mkSystem (set_orch st w) (after_score id sc :: P)).
Proof.
  intros [Hsc Hpe Hsf] Hj Hu Hr Hh Hjs Hrs. simpl in *. split; simpl.
  - intros i. rewrite Hjs, Hrs. destruct (decide (i = id)) as [->|Hn];
      rewrite ?lookup_insert_eq, ?lookup_insert_ne by done; [|apply Hsc].
    pose proof (Hsc id) as [_ _ _ Hvj Hp _]. rewrite Hj in *. split.
    + intros jb [= <-]. by_compute.
    + split; [|done]. intros _. eexists. split; [done|]. simpl. by_compute.
    + by intros rw jb [= <-] [= <-].
    + intros vr Hv. destruct (Hvj vr Hv) as (jb & [= <-] & E). eauto.
    + intros vr Hv Hpass. destruct (Hp vr Hv Hpass) as (rw & Erw & _). congruence.
    + intros jb [= <-] Hin. simpl in Hin. exfalso.
      rewrite !elem_of_cons, elem_of_nil in Hin. intuition discriminate.
  - intros p [->|Hp]%elem_of_cons; simpl; [by rewrite Hrs, lookup_insert_eq|].
    apply Hpe in Hp. destruct p as [i sc'|i|i h t re|i]; simpl in *; try done.
    + rewrite Hrs. destruct (decide (i = id)) as [->|Hn]; [congruence|by rewrite lookup_insert_ne].
    + destruct Hp as (jb & Hjb & E). rewrite Hjs. destruct (decide (i = id)) as [->|Hn].
      * rewrite lookup_insert_eq. eexists. split; [done|]. simpl. congruence.
      * rewrite lookup_insert_ne by done. eauto.
  - intros i i' j j'. rewrite Hjs.
    destruct (decide (i = id)) as [->|Hn], (decide (i' = id)) as [->|Hn'];
      rewrite ?lookup_insert_eq, ?(lookup_insert_ne _ _ i), ?(lookup_insert_ne _ _ i') by done;
      try done; intros Hi Hi' E; simplify_eq; simpl in E; by eapply Hsf.
Qed.

(** A verdict is added for a scan that had none. *)
Lemma system_ok_gate id row g w P P' :
  system_ok (mkSystem w P) → verdicts (gate w) !! id = None →
  verdicts g = <[id := row]> (verdicts (gate w)) →
  (∃ jb, jobs (orch w) !! id = Some jb ∧ v_content_hash row = j_content_hash jb) →
  (v_verdict row = "PASS" → ∃ rw, results (orch w) !! id = Some rw ∧ (sr_row_required_ok rw = true ∨ reviewed id)) →
  (∀ p, p ∈ P' → p ∈ P ∨ p = after_gate id ∨ p = after_dead id) →
  system_ok (mkSystem (set_gate g w) P').
Proof.
  intros [Hsc Hpe Hsf] Hn Hg Hj Hpass HP'. simpl in *. split; simpl; [| |done].
  - intros i. rewrite Hg. destruct (decide (i = id)) as [->|Hne];
      rewrite ?lookup_insert_eq, ?lookup_insert_ne by done; [|apply Hsc].
    pose proof (Hsc id) as [Hst Hr Hrh _ _ _]. split; try done.
    + by intros vr [= <-].
    + by intros vr [= <-].
  - intros p Hp. destruct (HP' p Hp) as [Hin|[->| ->]]; simpl; [|by rewrite Hg, lookup_insert_eq..].
    apply Hpe in Hin. destruct p as [i sc|i|i h t re|i]; simpl in *; try done;
      rewrite Hg; destruct (decide (i = id)) as [->|Hne];
      by rewrite ?lookup_insert_eq, ?lookup_insert_ne.
Qed.

Lemma system_ok_submit new_id job w w' P :
  system_ok (mkSystem w P) → jobs (orch w) !! new_id = None →
  gate w' = gate w → results (orch w') = results (orch w) →
  jobs (orch w') = <[new_id := job]> (jobs (orch w)) → j_state job = STATE_QUEUED →
  (∀ id j, jobs (orch w) !! id = Some j → j_cache_key j ≠ j_cache_key job) →
  system_ok (mkSystem w' P).
Proof.
  intros [Hsc Hpe Hsf] Hn Hg Hr Hj Hq Hk. simpl in *. split; simpl.
  - intros i. rewrite Hg, Hr, Hj. destruct (decide (i = new_id)) as [->|Hne];
      rewrite ?lookup_insert_eq, ?lookup_insert_ne by done; [|apply Hsc].
    pose proof (Hsc new_id) as [_ Hrr _ Hvj Hp _]. rewrite Hn in *.
    assert (Er : results (orch w) !! new_id = None).
    { destruct (results (orch w) !! new_id); [|done]. by destruct (proj1 Hrr) as (? & ? & _). }
    assert (Ev : verdicts (gate w) !! new_id = None).
    { destruct (verdicts (gate w) !! new_id) as [v|]; [|done]. by destruct (Hvj v) as (? & ? & _). }
    rewrite Er, Ev. split; try done.
    + intros jb [= <-]. rewrite Hq. by_compute.
    + split; [done|]. intros (jb & [= <-] & Hin). rewrite Hq in Hin.
      rewrite !elem_of_cons, elem_of_nil in Hin. intuition discriminate.
    + intros jb [= <-] Hin. rewrite Hq in Hin.
      rewrite !elem_of_cons, elem_of_nil in Hin. intuition discriminate.
  - intros p Hp%Hpe. destruct p as [i sc|i|i h t re|i]; simpl in *; rewrite ?Hr, ?Hg; try done.
    destruct Hp as (jb & Hjb & E). exists jb. split; [|done]. rewrite Hj, lookup_insert_ne; [done|].
    intros ->. congruence.
  - intros i i' j j'. rewrite Hj.
    destruct (decide (i = new_id)) as [->|Hne], (decide (i' = new_id)) as [->|Hne'];
      rewrite ?lookup_insert_eq, ?(lookup_insert_ne _ _ i), ?(lookup_insert_ne _ _ i') by done;
      try done; intros Hi Hi' E; simplify_eq.
    + by destruct (Hk _ _ Hi').
    + by destruct (Hk _ _ Hi).
    + by eapply Hsf.
Qed.

Lemma elem_mid {A} (x : A) l1 l2 : x ∈ l1 ++ x :: l2.
Proof. apply elem_of_app. right. left. Qed.

Lemma elem_sub {A} (x y : A) l1 l2 : x ∈ l1 ++ l2 → x ∈ l1 ++ y :: l2.
Proof. rewrite !elem_of_app, elem_of_cons. tauto. Qed.

Lemma elem_swap {A} (x y z : A) l1 l2 : x ∈ l1 ++ y :: l2 → x ∈ l1 ++ z :: l2 ∨ x = y.
Proof. rewrite !elem_of_app, !elem_of_cons. tauto. Qed.

(** The gate transaction of a scored scan, and of a dead-lettered one. *)
Lemma system_ok_gate_scored id sc po dt al op now clock g w P1 P2 :
  GatePolicy_ok po →
  gate_tx id (sc_result sc) po (sc_tier sc) dt al op (sc_extra_reasons sc) now clock (gate w) = Ok g →
  system_ok (mkSystem w (P1 ++ after_score id sc :: P2)) →
  system_ok (mkSystem (set_gate g w) (P1 ++ after_gate id :: P2)).
Proof.
  intros Hpo Hg Hok.
  destruct (gate_tx_inv _ _ _ _ _ _ _ _ _ _ _ _ Hg Hpo) as (Hn & row & Ev & Eh & Hp).
  pose proof (sy_pending _ Hok (after_score id sc) (elem_mid _ _ _)) as Hpe. simpl in Hpe.
  eapply (system_ok_gate id row); [exact Hok|done|done| | |].
  - pose proof (sy_scan _ Hok id) as [_ Hr Hrh _ _ _]. simpl in *. rewrite Hpe in *.
    destruct (proj1 Hr) as (jb & Hjb & _); [done|]. exists jb. split; [done|].
    rewrite Eh. by rewrite <-(Hrh _ jb eq_refl Hjb).
  - intros E%Hp. exists (result_row (sc_result sc)). by split; [|left].
  - intros p [Hin| ->]%(elem_swap _ _ (after_score id sc)); auto.
Qed.

Lemma system_ok_gate_dead id h t re po dt op now clock g w P1 P2 :
  GatePolicy_ok po →
  gate_tx id (forced_block_scan_result h re) po t dt [] op [] now clock (gate w) = Ok g →
  system_ok (mkSystem w (P1 ++ after_claim id h t re :: P2)) →
  system_ok (mkSystem (set_gate g w) (P1 ++ after_dead id :: P2)).
Proof.
  intros Hpo Hg Hok.
  destruct (gate_tx_inv _ _ _ _ _ _ _ _ _ _ _ _ Hg Hpo) as (Hn & row & Ev & Eh & Hp).
  destruct (sy_pending _ Hok (after_claim id h t re) (elem_mid _ _ _)) as (jb & Hjb & E).
  eapply (system_ok_gate id row); [exact Hok|done|done| | |].
  - exists jb. split; [done|]. by rewrite Eh, E.
  - intros E'%Hp. done.
  - intros p [Hin| ->]%(elem_swap _ _ (after_claim id h t re)); auto.
Qed.

(** The closing transaction of a scan that has its verdict: a move to a final state
    that keeps the result row's condition. *)
Lemma system_ok_finish id from to q w P1 P2 :
  system_ok (mkSystem w (P1 ++ q :: P2)) → verdicts (gate w) !! id ≠ None → to ∈ SCAN_STATES →
  (∀ s, s ∈ from → s ∈ [STATE_SCORED; STATE_DECIDED] ↔ to ∈ [STATE_SCORED; STATE_DECIDED]) →
  system_ok (mkSystem (set_orch (update_state id from to (orch w)) w) (P1 ++ P2)).
Proof.
  intros Hok Hv Hto Hs. apply system_ok_update.
  - eapply system_ok_pending; [exact Hok|]. intros p. apply elem_sub.
  - intros j Hj Hin. split_and!; [done..| |done]. simpl. symmetry. by apply Hs.
Qed.

Lemma system_ok_step s s' : step s s' → system_ok s → system_ok s'.
Proof.
  intros Hstep Hok. destruct Hstep as
    [files sb ms po t src rt dl ni now w w' id P Hf Hs|b w P|id w P|id rq po ad wa fo now st w P Hs
    |id rq po ad wa fo now sc st w P Hs|id h t re w P Hc|id sc po dt al op now clock g w P1 P2 Hpo Hg
    |id h t re po dt op now clock g w P1 P2 Hpo Hg|id w P1 P2|id w P1 P2|p w P1 P2].
  - destruct (submit_inv _ _ _ _ _ _ _ _ _ _ _ _ _ Hs) as (Eg & Er & [Ej|(job & Ej & Hq & Hk)]).
    + destruct Hok as [H1 H2 H3]. simpl in *. split; simpl; rewrite ?Eg, ?Er, ?Ej; try done.
      intros p Hp%H2. by destruct p; simpl in *; rewrite ?Eg, ?Er, ?Ej.
    + by eapply system_ok_submit.
  - destruct Hok as [H1 H2 H3]. by split.
  - apply system_ok_update; [done|]. intros j Hj Hin. unfold job_step. simpl.
    rewrite elem_of_cons, elem_of_nil in Hin. destruct Hin as [E|[]]. rewrite E.
    split_and!; [done..|by_compute| |]; rewrite !elem_of_cons, !elem_of_nil; intuition discriminate.
  - destruct (score_wait_inv _ _ _ _ _ _ _ _ _ _ Hs) as [->|(job & Hj & ->)]; [by destruct w|].
    eapply system_ok_job; [exact Hok|exact Hj| |done..].
    pose proof (sy_scan _ Hok id) as Hso. simpl in Hso. rewrite Hj in Hso.
    exact (job_step_refl _ job _ _ Hso).
  - destruct (score_inv _ _ _ _ _ _ _ _ _ _ _ Hs) as (job & Hj & Hu & Hr & Hh & Ejs & Ers).
    by eapply system_ok_score.
  - destruct Hok as [H1 H2 H3]. split; try done. intros p [->|Hp]%elem_of_cons; [|by apply H2].
    unfold dead_letter_claim in Hc. simpl. destruct (jobs (orch w) !! id) as [j|]; [|done].
    case_bool_decide; simplify_eq. eauto.
  - by eapply system_ok_gate_scored.
  - by eapply system_ok_gate_dead.
  - eapply system_ok_finish; [exact Hok| |by_compute|].
    + apply (sy_pending _ Hok (after_gate id)), elem_mid.
    + by intros s ->%list_elem_of_singleton; split; intros _; by_compute.
  - eapply system_ok_finish; [exact Hok| |by_compute|].
    + apply (sy_pending _ Hok (after_dead id)), elem_mid.
    + intros s (_ & Hno & _)%unscored_not_final. split; [done|].
      rewrite !elem_of_cons, !elem_of_nil. intuition discriminate.
  - eapply system_ok_pending; [exact Hok|]. intros q. apply elem_sub.
Qed.

Lemma system_ok_reachable s : reachable s → system_ok s.
Proof.
  assert (Hi : system_ok (mkSystem empty_world [])).
  { split; simpl.
    - intros id. rewrite !lookup_empty. split; try done. split; [done|]. by intros (? & ? & _).
    - by intros p ?%elem_of_nil.
    - by intros ???? ?%lookup_empty_Some. }
  intros H. unfold reachable in H. revert Hi. generalize (mkSystem empty_world []) H. clear H.
  intros s0 H. induction H as [|s0 s1 s2 Hstep _ IH]; [done|]. intros Hi. apply IH.
  by eapply system_ok_step.
Qed.
End invariants.

(** ** The ticks are sequences of steps *)

Lemma step_score_gate id req policy dt al op add waited force now clock w w' r P :
  GatePolicy_ok policy →
  _try_score_and_decide exp64 sign_verdict claim_jti model_validate_json error_text py_repr id req
    policy dt al op add waited force now clock w = (w', r) →
  rtc step (mkSystem w P) (mkSystem w' P).
Proof.
  intros Hpo. unfold _try_score_and_decide.
  destruct (score _ _ _ _ _ _ _ _ _) as [[[sc|] st]|] eqn:Es; [|intros [= <- <-]|by intros [= <- <-]].
  2: { apply rtc_once. by eapply step_wait. }
  destruct (gate_tx _ _ _ _ _ _ _ _ _ _ _) as [g|] eqn:Eg; intros [= <- <-].
  - eapply rtc_l; [by eapply step_score|].
    eapply rtc_l; [by apply (step_gate_scored id sc policy dt al op now clock g _ [] P)|].
    apply rtc_once. exact (step_decided id (set_gate g (set_orch st w)) [] P).
  - eapply rtc_l; [by eapply step_score|]. apply rtc_once.
    exact (step_crash (after_score id sc) (set_orch st w) [] P).
Qed.

Lemma step_dead_letter id policy dt op reason now clock w b w' P :
  GatePolicy_ok policy →
  _dead_letter_and_decide exp64 sign_verdict claim_jti id policy dt op reason now clock w = Ok (b, w') →
  rtc step (mkSystem w P) (mkSystem w' P).
Proof.
  intros Hpo. unfold _dead_letter_and_decide.
  destruct (dead_letter_claim id (orch w)) as [[h t]|] eqn:Ec; [|by intros [= <- <-]].
  intros (g & Hg & [= <- <-])%bind_Ok.
  eapply rtc_l; [by apply (step_claim id h t reason)|].
  eapply rtc_l; [by apply (step_gate_dead id h t reason policy dt op now clock g _ [] P)|].
  apply rtc_once. exact (step_failed id (set_gate g w) [] P).
Qed.

Section ticks.
Context (policy : GatePolicy) (dt : TrustTier) (al : list AllowlistEntry) (op : string).
Context (add waited : list string) (Hpo : GatePolicy_ok policy).

Local Abbreviation collect_one := (collect_scan exp64 sign_verdict claim_jti model_validate_json
  error_text py_repr policy dt al op add waited).
Local Abbreviation collect_all := (collect_scans exp64 sign_verdict claim_jti model_validate_json
  error_text py_repr policy dt al op add waited).

Lemma step_collect_scan id ms now clock w w' r P :
  collect_one id ms now clock w = (w', r) → rtc step (mkSystem w P) (mkSystem w' P).
Proof.
  unfold collect_scan.
  assert (Hdead : ∀ reason, (match _dead_letter_and_decide exp64 sign_verdict claim_jti id policy dt op
      reason now clock w with Ok (b, w1) => (w1, Ok b) | Err e => (w, Err e) end) = (w', r) →
      rtc step (mkSystem w P) (mkSystem w' P)).
  { intros reason. destruct (_dead_letter_and_decide _ _ _ _ _ _ _ _ _ _ _) as [[b w1]|] eqn:E;
      intros [= <- <-]; [by eapply step_dead_letter|done]. }
  destruct (negb _); [apply Hdead|]. destruct (existsb _ _); [apply Hdead|].
  intros H. eapply rtc_l; [apply (step_running id)|]. by eapply step_score_gate.
Qed.

Lemma step_collect_scans ids ms now clock w w' n f P :
  collect_all ids ms now clock w = (w', n, f) → rtc step (mkSystem w P) (mkSystem w' P).
Proof.
  revert w w' n f. induction ids as [|id ids IH]; intros w w' n f; simpl; [by intros [= <- _ _]|].
  destruct (collect_one _ _ _ _ _) as [w1 r] eqn:E1.
  destruct (collect_all ids ms now clock w1) as [[w2 d] fl] eqn:E2. intros H.
  etrans; [by eapply step_collect_scan|]. destruct r as [[]|]; simplify_eq; by eapply IH.
Qed.

Lemma step_force_scans ids now clock w w' n P :
  force_scans exp64 sign_verdict claim_jti model_validate_json error_text py_repr policy dt al op add
    waited ids now clock w = (w', n) → rtc step (mkSystem w P) (mkSystem w' P).
Proof.
  revert w w' n. induction ids as [|id ids IH]; intros w w' n; simpl; [by intros [= <- _]|].
  destruct (_try_score_and_decide _ _ _ _ _ _ _ _ _ _ _ _ _ _ _ _ _ _) as [w1 r] eqn:E1.
  destruct (force_scans _ _ _ _ _ _ _ _ _ _ _ _ ids now clock w1) as [w2 d] eqn:E2. intros H.
  etrans; [by eapply step_score_gate|]. destruct r as [[]|]; simplify_eq; by eapply IH.
Qed.

(** A whole collector tick, and a whole sandbox-wait sweep, is a sequence of the
    atomic steps of the concurrent system, whatever other calls are in flight and
    whichever scans fail on the way: the interleaving theorems apply to the code
    that runs, and an exception inside a tick is the step that loses that call. *)
Theorem ticks_refine_steps ms wait_s now clock w P :
  rtc step (mkSystem w P)
    (mkSystem (run_result_collector_tick exp64 sign_verdict claim_jti model_validate_json error_text
                 py_repr policy dt al op add waited ms now clock w).1.1 P) ∧
  rtc step (mkSystem w P)
    (mkSystem (sweep_sandbox_wait_timeouts exp64 sign_verdict claim_jti model_validate_json error_text
                 py_repr policy dt al op add waited wait_s now clock w).1 P).
Proof.
  split.
  - unfold run_result_collector_tick.
    destruct (collect_all (scan_order ms) ms now clock w) as [[w' n] f] eqn:E. simpl.
    by eapply step_collect_scans.
  - unfold sweep_sandbox_wait_timeouts.
    destruct (force_scans _ _ _ _ _ _ _ _ _ _ _ _ _ _ _ _) as [w' n] eqn:E. simpl.
    by eapply step_force_scans.
Qed.
End ticks.

(** ** Theorems *)

(** C3: INV-1 and single flight, under every interleaving of submissions, collector
    ticks, dead-letters, sweeps, policy reloads and crashes (with reviewers at work
    too, see [live_ok_reachable]).  A scan is in one of the
    five states; its result row exists exactly when it is scored or decided and is
    about the submitted content; a verdict is about the submitted content; a PASS is
    only ever recorded for a scan whose recorded result has all required engines
    ok; a decided or failed scan has a verdict; and no two scans share a cache key. *)
Theorem pipeline_invariant s id :
  reachable s →
  let o := orch (world s) in
  let g := gate (world s) in
  (∀ j, jobs o !! id = Some j → j_state j ∈ SCAN_STATES) ∧
  (results o !! id ≠ None ↔ ∃ j, jobs o !! id = Some j ∧ j_state j ∈ [STATE_SCORED; STATE_DECIDED]) ∧
  (∀ r j, results o !! id = Some r → jobs o !! id = Some j → sr_row_content_hash r = j_content_hash j) ∧
  (∀ v, verdicts g !! id = Some v →
     ∃ j, jobs o !! id = Some j ∧ v_content_hash v = j_content_hash j) ∧
  (∀ v, verdicts g !! id = Some v → v_verdict v = "PASS" →
     ∃ r, results o !! id = Some r ∧ sr_row_required_ok r = true) ∧
  (∀ j, jobs o !! id = Some j → j_state j ∈ [STATE_DECIDED; STATE_FAILED] → verdicts g !! id ≠ None) ∧
  (∀ id' j j', jobs o !! id = Some j → jobs o !! id' = Some j' → j_cache_key j = j_cache_key j' → id = id').
Proof.
  intros [Hsc _ Hsf]%(system_ok_reachable (λ _, False)). destruct (Hsc id) as [H1 H2 H3 H4 H5 H6].
  split_and!; try done; [intros v Hv Hp; destruct (H5 v Hv Hp) as (r & Hr & [?|[]]); eauto|]. intros id' j j' Hj Hj' Hk. by eapply Hsf.
Qed.

Lemma step_verdict s s' id v :
  step s s' → verdicts (gate (world s)) !! id = Some v → verdicts (gate (world s')) !! id = Some v.
Proof.
  intros Hstep Hv. destruct Hstep as
    [files sb ms po t src rt dl ni now w w' i P Hf Hs| | | | | |i sc po dt al op now clock g w P1 P2 Hpo Hg
    |i h t re po dt op now clock g w P1 P2 Hpo Hg| | |]; simpl in *; try done.
  - destruct (submit_inv _ _ _ _ _ _ _ _ _ _ _ _ _ Hs) as (-> & _). done.
  - destruct (gate_tx_inv _ _ _ _ _ _ _ _ _ _ _ _ Hg Hpo) as (Hn & row & -> & _).
    rewrite lookup_insert_ne; [done|]. intros ->. congruence.
  - destruct (gate_tx_inv _ _ _ _ _ _ _ _ _ _ _ _ Hg Hpo) as (Hn & row & -> & _).
    rewrite lookup_insert_ne; [done|]. intros ->. congruence.
Qed.

(** The pipeline never rewrites a verdict: once recorded, no tick, race or crash
    changes it (only a human review does, see [Reviews.v]). *)
Theorem verdicts_are_final s s' id v :
  rtc step s s' → verdicts (gate (world s)) !! id = Some v → verdicts (gate (world s')) !! id = Some v.
Proof. induction 1 as [|s0 s1 s2 Hs _ IH]; [done|]. intros Hv. apply IH. by eapply step_verdict. Qed.

(** The scan is scored and no call that would decide it is in flight. *)
Definition stuck (id : string) (s : System) : Prop :=
  (∃ j, jobs (orch (world s)) !! id = Some j ∧ j_state j = STATE_SCORED) ∧
  (∀ p, p ∈ pending s → pending_id p ≠ id).

Lemma scored_not_unscored : STATE_SCORED ∉ _UNSCORED_STATES.
Proof. by_compute. Qed.

(** Closing another scan's transaction changes nothing for this one. *)
Lemma stuck_finish id i from to q w P1 P2 :
  pending_id q = i → stuck id (mkSystem w (P1 ++ q :: P2)) →
  stuck id (mkSystem (set_orch (update_state i from to (orch w)) w) (P1 ++ P2)).
Proof.
  intros Hq [(j & Hj & Hst) Hp]. simpl in Hj, Hp.
  assert (Hne : id ≠ i) by (intros ->; by apply (Hp q (elem_mid _ _ _))).
  split; [|intros p Hin; by apply Hp, elem_sub]. exists j. split; [|done].
  change (jobs (orch (world (mkSystem (set_orch ?o w) ?P)))) with (jobs o).
  rewrite update_state_lookup. by rewrite decide_False.
Qed.

Lemma stuck_swap id q q' g w P1 P2 :
  pending_id q' = pending_id q → stuck id (mkSystem w (P1 ++ q :: P2)) →
  stuck id (mkSystem (set_gate g w) (P1 ++ q' :: P2)).
Proof.
  intros Hq [Hj Hp]. split; [exact Hj|]. intros p [Hin| ->]%(elem_swap _ _ q); simpl in Hp; [by apply Hp|].
  rewrite Hq. apply Hp, elem_mid.
Qed.

Lemma stuck_step id s s' : step s s' → stuck id s → stuck id s'.
Proof.
  intros Hstep [(j & Hj & Hst) Hp]. destruct Hstep as
    [files sb ms po t src rt dl ni now w w' i P Hf Hs|b w P|i w P|i rq po ad wa fo now st w P Hs
    |i rq po ad wa fo now sc st w P Hs|i h t re w P Hc|i sc po dt al op now clock g w P1 P2 Hpo Hg
    |i h t re po dt op now clock g w P1 P2 Hpo Hg|i w P1 P2|i w P1 P2|p w P1 P2]; simpl in Hj, Hp.
  - destruct (submit_inv _ _ _ _ _ _ _ _ _ _ _ _ _ Hs) as (_ & _ & [Ej|(job & Ej & _)]);
      (split; [|done]); exists j; simpl; rewrite Ej; [done|].
    rewrite lookup_insert_ne; [done|]. intros ->. congruence.
  - by split; [exists j|].
  - split; [|done]. exists j. split; [|done].
    change (jobs (orch (world (mkSystem (set_orch ?o w) P)))) with (jobs o).
    unfold _mark_running_if_queued. rewrite update_state_lookup. destruct (decide (id = i)) as [<-|]; [|done].
    rewrite Hj. simpl. rewrite bool_decide_false; [done|]. rewrite Hst. by_compute.
  - destruct (score_wait_inv _ _ _ _ _ _ _ _ _ _ Hs) as [->|(job & Hjob & ->)];
      (split; [|done]); simpl; [by exists j|].
    destruct (decide (i = id)) as [->|]; [|by rewrite lookup_insert_ne by done; exists j].
    rewrite lookup_insert_eq. eexists. split; [done|]. simpl. congruence.
  - destruct (score_inv _ _ _ _ _ _ _ _ _ _ _ Hs) as (job & Hjob & Hu & _ & _ & Ejs & _).
    assert (Hne : i ≠ id).
    { intros ->. rewrite Hj in Hjob. injection Hjob as <-. rewrite Hst in Hu.
      by apply scored_not_unscored. }
    split.
    + exists j. split; [|done]. simpl. by rewrite Ejs, lookup_insert_ne.
    + intros q [->|Hq]%elem_of_cons; [done|by apply Hp].
  - split; [by exists j|]. intros q [->|Hq]%elem_of_cons; [|by apply Hp]. simpl. intros ->.
    unfold dead_letter_claim in Hc. rewrite Hj in Hc. case_bool_decide as Hu; [|done].
    rewrite Hst in Hu. by apply scored_not_unscored.
  - by eapply (stuck_swap id (after_score i sc)); [|split; [exists j|]].
  - by eapply (stuck_swap id (after_claim i h t re)); [|split; [exists j|]].
  - by eapply (stuck_finish id i _ _ (after_gate i)); [|split; [exists j|]].
  - by eapply (stuck_finish id i _ _ (after_dead i)); [|split; [exists j|]].
  - split; [by exists j|]. intros q Hq. by apply Hp, elem_sub.
Qed.

(** The pipeline has no way back from a lost decision: once a scan is [scored] and
    the call that scored it is gone (its process died, or its gate transaction
    failed), no collector tick, redelivered message, dead-letter or sweep ever moves
    it again: it stays [scored], and it keeps whatever verdict it has, so a scan
    without one never gets one. *)
Theorem scored_scan_is_never_resumed s s' id :
  rtc step s s' → stuck id s →
  stuck id s' ∧ verdicts (gate (world s')) !! id = verdicts (gate (world s)) !! id.
Proof.
  induction 1 as [|s0 s1 s2 Hs _ IH]; [done|]. intros Hst.
  pose proof (stuck_step _ _ _ Hs Hst) as Hst1. destruct (IH Hst1) as [Hst2 ->]. split; [done|].
  destruct Hst as [_ Hp]. destruct Hs as
    [files sb ms po t src rt dl ni now w w' i P Hf Hs| | | | | |i sc po dt al op now clock g w P1 P2 Hpo Hg
    |i h t re po dt op now clock g w P1 P2 Hpo Hg| | |]; simpl in *; try done.
  - by destruct (submit_inv _ _ _ _ _ _ _ _ _ _ _ _ _ Hs) as (-> & _).
  - destruct (gate_tx_inv _ _ _ _ _ _ _ _ _ _ _ _ Hg Hpo) as (_ & row & -> & _).
    rewrite lookup_insert_ne; [done|]. apply (Hp (after_score i sc)), elem_mid.
  - destruct (gate_tx_inv _ _ _ _ _ _ _ _ _ _ _ _ Hg Hpo) as (_ & row & -> & _).
    rewrite lookup_insert_ne; [done|]. apply (Hp (after_claim i h t re)), elem_mid.
Qed.

(** ** With reviewers at work *)

Section live.
Context (validate_finding : json → option FindingDTO) `{coll : Collation}.

(** The pipeline, and the reviews that have been read and not yet committed. *)
Record Live := mkLive { pipeline : System; plans : list ReviewPlan }.

(** A step of the pipeline; a reviewer's request, up to its flush, and its commit,
    with anything in between; and whatever changes the gate's other tables (waivers,
    the relay), which leaves the verdicts alone. *)
Inductive live_step : Live → Live → Prop :=
| live_pipeline s s' ps : step s s' → live_step (mkLive s ps) (mkLive s' ps)
| live_review_reads w P ps inv id decision reviewer reason policy clock plan :
    review_plan exp64 sign_verdict claim_jti validate_finding (orch w) inv id decision reviewer reason policy clock
      (gate w) = Ok plan →
    live_step (mkLive (mkSystem w P) ps) (mkLive (mkSystem w P) (plan :: ps))
| live_review_writes w P ps1 plan ps2 g :
    review_commit plan (gate w) = Ok g →
    live_step (mkLive (mkSystem w P) (ps1 ++ plan :: ps2)) (mkLive (mkSystem (set_gate g w) P) (ps1 ++ ps2))
| live_tables w P ps g :
    verdicts g = verdicts (gate w) → gate_intents (gate w) ⊆ gate_intents g →
    live_step (mkLive (mkSystem w P) ps) (mkLive (mkSystem (set_gate g w) P) ps).

Definition live_reachable (l : Live) : Prop := rtc live_step (mkLive (mkSystem empty_world []) []) l.

(** A reviewer's approval of the scan is among the audit intents. *)
Definition approved_by (g : GateStore) (id reviewer : string) : Prop :=
  ∃ reason, approval id reviewer reason ∈ gate_intents g.
Definition approved (g : GateStore) (id : string) : Prop := ∃ reviewer, approved_by g id reviewer.

Definition plan_ok (w : World) (plan : ReviewPlan) : Prop :=
  let id := v_scan_id (rp_row plan) in
  (∃ row, verdicts (gate w) !! id = Some row ∧ v_content_hash (rp_row plan) = v_content_hash row) ∧
  results (orch w) !! id ≠ None ∧
  (v_verdict (rp_row plan) = "PASS" → ∃ reviewer reason, rp_intent plan = approval id reviewer reason).

Definition live_ok (l : Live) : Prop :=
  system_ok (approved (gate (world (pipeline l)))) (pipeline l) ∧
  ∀ plan, plan ∈ plans l → plan_ok (world (pipeline l)) plan.

Lemma approved_mono g g' id : gate_intents g ⊆ gate_intents g' → approved g id → approved g' id.
Proof. intros Hg (r & re & Hin). exists r, re. by apply Hg. Qed.

Lemma scan_ok_mono (R R' : Prop) j r v : (R → R') → scan_ok R j r v → scan_ok R' j r v.
Proof.
  intros HR [H1 H2 H3 H4 H5 H6]. split; try done. intros vr Hv Hp. destruct (H5 vr Hv Hp) as (rw & ? & [?|?]); eauto.
Qed.

Lemma system_ok_mono (R R' : string → Prop) s : (∀ id, R id → R' id) → system_ok R s → system_ok R' s.
Proof. intros HR [H1 H2 H3]. split; try done. intros id. eapply scan_ok_mono; [apply HR|apply H1]. Qed.

Lemma gate_tx_intents id sr policy t dt al op ex now clock g g' :
  gate_tx id sr policy t dt al op ex now clock g = Ok g' → gate_intents g ⊆ gate_intents g'.
Proof.
  intros (tier & _ & H)%bind_Ok. destruct (decide_and_record _ _ _ _ _ _ _ _ _ _ _ _ _) as [[vr g'']|] eqn:E; [|done].
  injection H as <-. apply decide_and_record_writes in E as (row & o & i & _ & _ & _ & _ & ->). cbn. set_solver.
Qed.

Lemma step_intents s s' : step s s' → gate_intents (gate (world s)) ⊆ gate_intents (gate (world s')).
Proof.
  intros Hstep. destruct Hstep as
    [files sb ms po t src rt dl ni now w w' i P Hf Hs| | | | | |i sc po dt al op now clock g w P1 P2 Hpo Hg
    |i h t re po dt op now clock g w P1 P2 Hpo Hg| | |]; simpl in *; try done.
  - by destruct (submit_inv _ _ _ _ _ _ _ _ _ _ _ _ _ Hs) as (-> & _).
  - by eapply gate_tx_intents.
  - by eapply gate_tx_intents.
Qed.

Lemma step_result s s' id : step s s' → results (orch (world s)) !! id ≠ None → results (orch (world s')) !! id ≠ None.
Proof.
  intros Hstep Hr. destruct Hstep as
    [files sb ms po t src rt dl ni now w w' i P Hf Hs| | |i rq po ad wa fo now st w P Hs
    |i rq po ad wa fo now sc st w P Hs| | | | | |]; simpl in *; try done.
  - by destruct (submit_inv _ _ _ _ _ _ _ _ _ _ _ _ _ Hs) as (_ & -> & _).
  - by destruct (score_wait_inv _ _ _ _ _ _ _ _ _ _ Hs) as [->|(job & Hj & ->)].
  - destruct (score_inv _ _ _ _ _ _ _ _ _ _ _ Hs) as (job & _ & _ & _ & _ & _ & ->).
    destruct (decide (i = id)) as [->|]; [by rewrite lookup_insert_eq|by rewrite lookup_insert_ne].
Qed.

Lemma plan_ok_mono w w' plan :
  (∀ id row, verdicts (gate w) !! id = Some row →
     ∃ row', verdicts (gate w') !! id = Some row' ∧ v_content_hash row' = v_content_hash row) →
  (∀ id, results (orch w) !! id ≠ None → results (orch w') !! id ≠ None) → plan_ok w plan → plan_ok w' plan.
Proof.
  intros Hv Hr ((row & Hrow & Hh) & Hres & Hi). split_and!; [|by apply Hr|done].
  destruct (Hv _ _ Hrow) as (row' & Hrow' & E). exists row'. split; [done|]. congruence.
Qed.

(** A committed review replaces the row of a scan that has a result. *)
Lemma live_ok_write w P ps plan :
  live_ok (mkLive (mkSystem w P) ps) → plan_ok w plan →
  live_ok (mkLive (mkSystem (set_gate (write_row (rp_event plan) (rp_intent plan) (rp_row plan) (gate w)) w) P) ps).
Proof.
  intros [[Hsc Hpe Hsf] Hpl] ((row & Hrow & Hh) & Hres & Hi). simpl in *. set (id := v_scan_id (rp_row plan)) in *.
  assert (Hmono : ∀ i, approved (gate w) i → approved (write_row (rp_event plan) (rp_intent plan) (rp_row plan) (gate w)) i).
  { intros i. apply approved_mono. cbn. set_solver. }
  split; [split; simpl|].
  - intros i. fold id. destruct (decide (i = id)) as [->|Hne].
    2: { rewrite lookup_insert_ne by done. eapply scan_ok_mono; [apply Hmono|apply Hsc]. }
    rewrite lookup_insert_eq. destruct (Hsc id) as [H1 H2 H3 H4 _ _]. split; try done.
    + intros vr [= <-]. destruct (H4 row Hrow) as (jb & Hjb & E). exists jb. split; [done|]. congruence.
    + intros vr [= <-] (reviewer & reason & Hint)%Hi. destruct (results (orch w) !! id) as [rw|]; [|done].
      exists rw. split; [done|]. right. exists reviewer, reason. rewrite <-Hint. cbn. left.
  - intros p Hp%Hpe. fold id.
    destruct p as [i sc|i|i h t re|i]; simpl in *; try done; destruct (decide (i = id)) as [->|Hne];
      by rewrite ?lookup_insert_eq, ?lookup_insert_ne.
  - done.
  - intros plan' Hin%Hpl. simpl. apply (plan_ok_mono w); [|done|exact Hin]. simpl. fold id.
    intros i r Hr. destruct (decide (i = id)) as [->|Hne]; [|rewrite lookup_insert_ne by done; eauto].
    rewrite lookup_insert_eq. eexists. split; [done|]. congruence.
Qed.

Lemma live_ok_step l l' : live_step l l' → live_ok l → live_ok l'.
Proof.
  intros Hstep. destruct Hstep as [s s' ps Hs|w P ps inv id dec rv re po clock plan Hp|w P ps1 plan ps2 g Hc|w P ps g Hv Hg];
    intros Hlive; pose proof Hlive as [Hok Hpl]; simpl in *.
  - split; simpl.
    + eapply system_ok_mono; [intros id; apply approved_mono; by apply step_intents|]. by eapply system_ok_step.
    + intros plan Hin%Hpl. eapply plan_ok_mono; [|intros id; by apply step_result|done].
      intros id row Hr. exists row. split; [by eapply step_verdict|done].
  - split; simpl; [done|]. intros plan' [->|Hin]%elem_of_cons; [|by apply Hpl].
    pose proof (review_plan_approves _ _ _ _ _ _ _ _ _ _ _ _ _ _ Hp) as Ha.
    apply review_plan_inv in Hp as (job & row & res & fs & v & _ & _ & _ & _ & Hrow & _ & _ & Hres & _ & Hid & Hch & _).
    unfold plan_ok. rewrite Hid, Hres. split_and!; [eauto|done|]. intros Hv. eauto.
  - apply review_commit_inv in Hc as [_ ->]. apply live_ok_write; [|apply Hpl, elem_mid].
    split; [done|]. intros q Hq. by apply Hpl, elem_sub.
  - split; simpl.
    + destruct Hok as [H1 H2 H3]. split; simpl; [| |done].
      * intros id. rewrite Hv. eapply scan_ok_mono; [by apply approved_mono|apply H1].
      * intros p Hp%H2. destruct p; simpl in *; by rewrite ?Hv.
    + intros plan Hin%Hpl. apply (plan_ok_mono w); [|done|done]. simpl. rewrite Hv. eauto.
Qed.

Lemma live_ok_reachable l : live_reachable l → live_ok l.
Proof.
  apply (rtc_ind_r live_ok); [|intros l1 l2 _; by apply live_ok_step].
  split; [apply system_ok_reachable, rtc_refl|]. by intros plan ?%elem_of_nil.
Qed.

(** Without reviewers it is the pipeline. *)
Lemma reachable_live s : reachable s → live_reachable (mkLive s []).
Proof.
  unfold reachable, live_reachable. generalize (mkSystem empty_world []). induction 1 as [|s1 s2 s3 Hs _ IH]; [done|].
  eapply rtc_l; [by apply live_pipeline|done].
Qed.
End live.
End system.

(** ** Witnesses *)

Module PipelineSamples.
Import Gate.Samples ReadbackSamples CanonicalSamples DigestSamples.

Definition sign (payload : json) (clock : Z) : string := "jws".
Definition jti (jws : string) : string := jws.
Definition pack (files : list Entry) : blob := [].
Definition no_name (files : list Entry) : option string := None.
Definition hash (b : list Z) : string := "h".

Local Abbreviation sample_step := (step exp_step sign jti ascii_nfc hash quote fraction pack no_name validate
  no_text no_repr).
Local Abbreviation sample_reachable := (reachable exp_step sign jti ascii_nfc hash quote fraction pack no_name
  validate no_text no_repr).

Lemma need_floor_ok : GatePolicy_ok need_floor.
Proof. split_and!; try done. by intros t s ?%elem_of_nil. Qed.

Definition submitted : World :=
  match submit_scan ascii_nfc hash quote fraction pack no_name [f1] "alice" [] need_floor INTERNAL CONSOLE
          INTERNAL 300 "s" 0 empty_world with
  | Ok (_, w) => w
  | Err _ => empty_world
  end.

(** The floor engine's blob arrives. *)
Definition scanned_world : World := set_blobs {["findings/s/floor.json" := [1]]} submitted.

Definition scored_pair : World * list Pending :=
  match score_txn validate no_text no_repr (blobs scanned_world) "s" ["floor"] need_floor [] [] false 0
          (orch scanned_world) with
  | Ok (Some sc, st) => (set_orch st scanned_world, [after_score "s" sc])
  | _ => (scanned_world, [])
  end.

(** The message the floor engine's worker leaves on the results stream. *)
Definition floor_reported : ResultMessage :=
  mkResultMessage "m" "s" "findings/s/floor.json" "floor" "ok" (Some 12) 1.

Definition ticked : World :=
  (run_result_collector_tick exp_step sign jti validate no_text no_repr need_floor INTERNAL [] "op" [] []
     [floor_reported] 0 0 scanned_world).1.1.

Definition state_of (w : World) : option string := j_state <$> jobs (orch w) !! "s".
Definition verdict_of (w : World) : option string := v_verdict <$> verdicts (gate w) !! "s".

Example sample_run :
  state_of submitted = Some "queued" ∧ state_of scored_pair.1 = Some "scored" ∧
  verdict_of scored_pair.1 = None ∧ state_of ticked = Some "decided" ∧ verdict_of ticked = Some "PASS".
Proof. vm_compute. tauto. Qed.

Lemma reach_scanned : sample_reachable (mkSystem scanned_world []).
Proof.
  eapply rtc_l; [|apply rtc_once, step_blobs].
  eapply (step_submit _ _ _ _ _ _ _ _ _ _ _ _ [f1] "alice" [] need_floor INTERNAL CONSOLE INTERNAL 300 "s" 0);
    vm_compute; reflexivity.
Qed.

Lemma ticks_refine_steps_witness : sample_reachable (mkSystem ticked []).
Proof.
  unfold reachable; etrans; [apply reach_scanned|].
  apply (ticks_refine_steps exp_step sign jti ascii_nfc hash quote fraction pack no_name validate no_text no_repr
           need_floor INTERNAL [] "op" [] [] need_floor_ok [floor_reported] 0 0 0
           scanned_world []).
Defined.

Lemma reach_ticked : sample_reachable (mkSystem ticked []).
Proof.
  unfold reachable; etrans; [apply reach_scanned|].
  eapply (step_collect_scans _ _ _ _ _ _ _ _ _ _ _ _ need_floor INTERNAL [] "op" [] [] need_floor_ok
            ["s"] [floor_reported] 0 0).
  vm_compute. reflexivity.
Qed.

Lemma pipeline_invariant_witness :
  ∃ r, results (orch ticked) !! "s" = Some r ∧ sr_row_required_ok r = true.
Proof.
  destruct (pipeline_invariant exp_step sign jti ascii_nfc hash quote fraction pack no_name validate no_text
              no_repr (mkSystem ticked []) "s" reach_ticked) as (_ & _ & _ & _ & Hpass & _).
  destruct (verdicts (gate ticked) !! "s") as [v|] eqn:E; [|by vm_compute in E].
  apply (Hpass v E). vm_compute in E. by injection E as <-.
Defined.

Lemma verdicts_are_final_witness : verdict_of (set_blobs ∅ ticked) = Some "PASS".
Proof.
  destruct (verdicts (gate ticked) !! "s") as [v|] eqn:E; [|by vm_compute in E].
  unfold verdict_of.
  pose proof (verdicts_are_final exp_step sign jti ascii_nfc hash quote fraction pack no_name validate no_text
    no_repr (mkSystem ticked []) (mkSystem (set_blobs ∅ ticked) []) "s" v
    (rtc_once _ _ (step_blobs _ _ _ _ _ _ _ _ _ _ _ _ ∅ ticked [])) E) as Hf.
  cbn [world] in Hf. rewrite Hf. vm_compute in E. by injection E as <-.
Defined.

(** The process that scored the scan dies before its gate transaction: reachable,
    and final. *)
Lemma scored_scan_is_never_resumed_witness :
  sample_reachable (mkSystem scored_pair.1 []) ∧
  ∀ s, rtc sample_step (mkSystem scored_pair.1 []) s →
       ∃ j, jobs (orch (world s)) !! "s" = Some j ∧ j_state j = "scored" ∧
            verdicts (gate (world s)) !! "s" = None.
Proof.
  split.
  - unfold reachable; etrans; [apply reach_scanned|]. eapply rtc_l.
    + apply (step_score _ _ _ _ _ _ _ _ _ _ _ _ "s" ["floor"] need_floor [] [] false 0).
      vm_compute. reflexivity.
    + apply rtc_once. apply (step_crash _ _ _ _ _ _ _ _ _ _ _ _ _ scored_pair.1 [] []).
  - intros s Hs.
    assert (Hstuck : stuck "s" (mkSystem scored_pair.1 [])).
    { split; [|by intros p ?%elem_of_nil].
      destruct (jobs (orch scored_pair.1) !! "s") as [j|] eqn:E; [|by vm_compute in E].
      exists j. split; [done|]. vm_compute in E. by injection E as <-. }
    destruct (scored_scan_is_never_resumed exp_step sign jti ascii_nfc hash quote fraction pack no_name validate
                no_text no_repr _ s "s" Hs Hstuck) as [[(j & Hj & Hst) _] Hv].
    exists j. split; [done|]. split; [done|]. rewrite Hv. vm_compute. reflexivity.
Defined.
End PipelineSamples.
