(* ===== verification/Market.v ===== *)
(** * The marketplace's view

    [apps/monolith/modules/marketplace_api/]: [views.py] projects a scan onto the
    external contract, [router.py]'s [get_marketplace_skill] answers "is this skill
    safe" for its newest version.  It reads inventory, orchestration and gate; the
    last section composes it with the pipeline.  [isoformat] is a parameter. *)

From S2P Require Import Prelude Models Gate Json PyText Canonical PolicyDigest Lifecycle Inventory GateService Readback Orchestration EngineHealth Policy Reviews Pipeline.
From Stdlib Require Import QArith.
Open Scope string_scope.
Open Scope list_scope.
Open Scope Z_scope.

(** ** [views.py] *)

Definition _STATUS_PROJECTION : list (string * string) :=
  [("queued", "PENDING"); ("running", "RUNNING"); ("scored", "RUNNING"); ("decided", "COMPLETED");
   ("failed", "COMPLETED")].

Definition POLL_AFTER_MS : list (string * Z) := [("PENDING", 5000); ("RUNNING", 15000); ("COMPLETED", 0)].

Definition dict_get {V} (d : list (string * V)) (key : string) : option V :=
  snd <$> find (λ kv, String.eqb kv.1 key) d.

(** [None] is the [ValueError] on an unmapped state. *)
Definition project_status (internal_state : string) : option string := dict_get _STATUS_PROJECTION internal_state.

Definition SAFE_VERDICT : string := "PASS".
Definition STATUS_COMPLETED : string := "COMPLETED".
Definition UNSAFE_NOT_YET_SCANNED : string := "not_yet_scanned".
Definition UNSAFE_SCAN_INCOMPLETE : string := "scan_incomplete".
Definition UNSAFE_HARD_GATE : string := "hard_gate".
Definition UNSAFE_PENDING_REVIEW : string := "pending_review".
Definition UNSAFE_CONTENT_FINDINGS : string := "content_findings".
Definition UNSAFE_REASONS : list string :=
  [UNSAFE_NOT_YET_SCANNED; UNSAFE_SCAN_INCOMPLETE; UNSAFE_HARD_GATE; UNSAFE_PENDING_REVIEW; UNSAFE_CONTENT_FINDINGS].

Definition classify_safety (status : string) (verdict : option string) (fail_closed : bool)
    (hard_gate_hits : list string) : bool * option string :=
  if String.eqb status STATUS_COMPLETED && bool_decide (verdict = Some SAFE_VERDICT) then (true, None)
  else match verdict with
  | None => (false, Some UNSAFE_NOT_YET_SCANNED)
  | Some v =>
      if fail_closed then (false, Some UNSAFE_SCAN_INCOMPLETE)
      else if negb (bool_decide (hard_gate_hits = [])) then (false, Some UNSAFE_HARD_GATE)
      else if String.eqb v "REVIEW" then (false, Some UNSAFE_PENDING_REVIEW)
      else if String.eqb v SAFE_VERDICT then (false, Some UNSAFE_NOT_YET_SCANNED)
      else (false, Some UNSAFE_CONTENT_FINDINGS)
  end.

Definition EXTERNAL_TOP_LEVEL_FIELDS : list string :=
  ["skill_id"; "content_hash"; "status"; "poll_after_ms"; "is_safe"; "unsafe_reason"; "hard_gate_hits";
   "score"; "policy_version"; "decided_at"; "verdict_jws"; "judged_at_tier"; "requested_tier";
   "tier_direction"; "tier_direction_basis"; "engines_expected"; "engines_reported";
   "engines_not_applicable"; "evidence_complete"; "engine_coverage_basis"; "summary"; "findings"].

Definition EXTERNAL_FINDING_FIELDS : list string :=
  ["rule_id"; "test_item_id"; "category"; "title"; "severity"; "confidence"; "source_engine";
   "source_capability"; "trifecta_signals"; "file_path"; "start_line"; "evidence_redacted"].

Definition _SEVERITY_BUCKET (n : Z) : option string :=
  if n =? 1 then Some "low" else if n =? 2 then Some "medium" else if n =? 3 then Some "high"
  else if n =? 4 then Some "critical" else None.

(** [raw.get(field)]; [None] is the [AttributeError] of a finding that is no dict. *)
Definition dict_field (raw : json) (field : string) : option json :=
  match raw with JObj _ => Some (default JNull (json_get field raw)) | _ => None end.

Definition _project_finding (raw : json) : option json :=
  fields ← mapM (λ f, v ← dict_field raw f; Some (f, v)) EXTERNAL_FINDING_FIELDS;
  Some (JObj fields).

(** [int(value)]. *)
Definition py_int_of (v : json) : option Z :=
  match v with
  | JNum n => Some n
  | JBool b => Some (if b then 1 else 0)
  | JFloat q => Some (Z.quot (Qnum q) (Zpos (Qden q)))
  | JStr s => py_int (String.list_ascii_of_string s)
  | _ => None
  end.

(** [int(finding.get("severity", 0))]. *)
Definition finding_severity (finding : json) : option Z :=
  match finding with
  | JObj _ => py_int_of (default (JNum 0) (json_get "severity" finding))
  | _ => None
  end.

Definition count_severity (severities : list Z) (bucket : string) : Z :=
  Z.of_nat (length (base.filter (λ n, _SEVERITY_BUCKET n = Some bucket) severities)).

Definition _summarize (findings : list json) (truncated : bool) (findings_total : option Z) : option json :=
  severities ← mapM finding_severity findings;
  let total := match findings_total with Some n => n | None => Z.of_nat (length findings) end in
  Some (JObj [("total", JNum total); ("critical", JNum (count_severity severities "critical"));
              ("high", JNum (count_severity severities "high"));
              ("medium", JNum (count_severity severities "medium"));
              ("low", JNum (count_severity severities "low")); ("truncated", JBool truncated)]).

(** [orchestration.service.get_scan_result_view]. *)
Record ScanResultView := mkScanResultView {
  rv_findings : list json;
  rv_findings_capped : bool;
  rv_findings_total : option Z;
  rv_hard_gate_hits : list string;
}.

Definition get_scan_result_view (st : OrchStore) (scan_id : string) : option ScanResultView :=
  (λ r, mkScanResultView (sr_row_findings r) (sr_row_findings_capped r) (sr_row_findings_total r)
          (sr_row_hard_gate_hits r)) <$> results st !! scan_id.

Definition JOptZ (o : option Z) : json := match o with Some n => JNum n | None => JNull end.
Definition JOptB (o : option bool) : json := match o with Some b => JBool b | None => JNull end.

Section market.
Variable isoformat : Z → string.

(** [None] is an exception. *)
Definition project_skill_verdict (skill_id : string) (content_hash internal_state : option string)
    (verdict_row : option VerdictView) (result_row : option ScanResultView)
    (judged_at_tier requested_tier tier_direction tier_direction_basis : option string)
    (coverage : option ScanEngineCoverage) : option json :=
  status ← match internal_state with None => Some "PENDING" | Some s => project_status s end;
  let raw_findings := from_option rv_findings [] result_row in
  let fail_closed := from_option vv_fail_closed false verdict_row in
  let hard_gate_hits := from_option rv_hard_gate_hits [] result_row in
  let '(is_safe, unsafe_reason) :=
    classify_safety status (vv_verdict <$> verdict_row) fail_closed hard_gate_hits in
  poll_after_ms ← dict_get POLL_AFTER_MS status;
  summary ← _summarize raw_findings (from_option rv_findings_capped false result_row)
              (result_row ≫= rv_findings_total);
  findings ← mapM _project_finding raw_findings;
  Some (JObj
    [("skill_id", JStr skill_id);
     ("content_hash", JOpt content_hash);
     ("status", JStr status);
     ("poll_after_ms", JNum poll_after_ms);
     ("is_safe", JBool is_safe);
     ("unsafe_reason", JOpt unsafe_reason);
     ("hard_gate_hits", JList (map JStr hard_gate_hits));
     ("score", JOptZ (vv_score <$> verdict_row));
     ("policy_version", JOpt (vv_policy_version <$> verdict_row));
     ("decided_at", JOpt ((λ v, isoformat (vv_issued_at v)) <$> verdict_row));
     ("verdict_jws", JOpt (vv_jws_signature <$> verdict_row));
     ("judged_at_tier", JOpt judged_at_tier);
     ("requested_tier", JOpt requested_tier);
     ("tier_direction", JOpt tier_direction);
     ("tier_direction_basis", JOpt tier_direction_basis);
     ("engines_expected", JNum (from_option (λ c, Z.of_nat (cov_expected c)) 0 coverage));
     ("engines_reported", JNum (from_option (λ c, Z.of_nat (cov_reported c)) 0 coverage));
     ("engines_not_applicable", JNum (from_option (λ c, Z.of_nat (cov_not_applicable c)) 0 coverage));
     ("evidence_complete", JOptB (coverage ≫= complete));
     ("engine_coverage_basis",
       match coverage with
       | Some c => if cov_observed c then JStr COVERAGE_BASIS_CURRENT_CONFIG else JNull
       | None => JNull
       end);
     ("summary", summary);
     ("findings", JList findings)]).

(** ** [router.py] *)

Definition _READ_SCOPE : string := "scan:read".

Record MarketplaceFetchLogRow := mkFetchLog {
  fl_skill_id : string;
  fl_scan_id : option string;
  fl_content_hash_shown : option string;
  fl_service_account : string;
  fl_fetched_at : Z;
  fl_status_shown : option string;
  fl_verdict_shown : option string;
  fl_is_safe_shown : bool;
  fl_unsafe_reason_shown : option string;
}.

(** The fetch log and the cross-scope counter. *)
Record MarketState := mkMarketState {
  fetch_log : list MarketplaceFetchLogRow;
  cross_scope_attempts : nat;
}.

(** What the route reads of [ScanRuntime]; [audit_writes] says whether the fetch audit
    is configured and, if it is, whether its write succeeds. *)
Record MarketRuntime := mkMarketRuntime {
  mr_policy : GatePolicy;
  mr_inventory_configured : bool;
  mr_disabled : gset string;
  mr_llm_unconfigured : gset string;
  audit_writes : option bool;
}.

Record Caller := mkCaller { caller_subject : string; caller_scopes : list string }.

Inductive MarketReply :=
| answered (body : json)
| refused_with (status_code : Z) (detail : string)
| crashed.

Definition json_str (o : option json) : option string := match o with Some (JStr s) => Some s | _ => None end.
Definition json_true (o : option json) : bool := match o with Some (JBool b) => b | _ => false end.

Definition _record_fetch (rt : MarketRuntime) (skill_id : string) (scan_id : option string)
    (service_account : string) (projected : json) (verdict_shown : option string) (now : Z) (ms : MarketState)
    : MarketState :=
  match audit_writes rt with
  | Some true =>
      mkMarketState
        (fetch_log ms ++
         [mkFetchLog skill_id scan_id (json_str (json_get "content_hash" projected)) service_account now
            (json_str (json_get "status" projected)) verdict_shown
            (json_true (json_get "is_safe" projected)) (json_str (json_get "unsafe_reason" projected))])
        (cross_scope_attempts ms)
  | _ => ms
  end.

(** One candidate answer: its projection, the scan behind it, the verdict shown. *)
Definition Answer : Type := json * option string * option string.

Definition requested_tier_of (o : OrchStore) (scan_id subject : string) : option string :=
  let entries := from_option fst [] (submitter_attribution o [scan_id] !! scan_id) in
  head (omap (λ e : string * option string * option string,
                if String.eqb e.1.1 subject then e.2 else None) entries).

Definition answer_for_scan (rt : MarketRuntime) (skill_id subject content_hash : string) (scan : ScanIdentity)
    (o : OrchStore) (g : GateStore) : option Answer :=
  let requested_tier := requested_tier_of o (si_scan_id scan) subject in
  let structurally_absent := structurally_absent_engine_names (mr_disabled rt) (mr_llm_unconfigured rt) in
  let verdict_row := get_verdict_view g (si_scan_id scan) in
  let divergence := tier_divergence (mr_policy rt) requested_tier (si_trust_tier scan)
                      (vv_policy_version <$> verdict_row) in
  projected ← project_skill_verdict skill_id (Some content_hash) (Some (si_state scan)) verdict_row
                (get_scan_result_view o (si_scan_id scan)) (si_trust_tier scan) requested_tier
                (direction divergence) (basis divergence)
                (Some (load_scan_engine_coverage o (si_scan_id scan) structurally_absent));
  Some (projected, Some (si_scan_id scan), vv_verdict <$> verdict_row).

Definition answers_for_content (rt : MarketRuntime) (skill_id subject content_hash : string) (o : OrchStore)
    (g : GateStore) : option (list Answer) :=
  match latest_scan_identities_for_content o content_hash with
  | [] =>
      projected ← project_skill_verdict skill_id (Some content_hash) None None None None None None None None;
      Some [(projected, None, None)]
  | scans => mapM (λ scan, answer_for_scan rt skill_id subject content_hash scan o g) scans
  end.

Definition answer_is_safe (a : Answer) : bool := json_true (json_get "is_safe" a.1.1).

(** [min(answers, key=is_safe)]: the first unsafe one, or the first. *)
Definition least_safe (answers : list Answer) : option Answer :=
  match find (λ a, negb (answer_is_safe a)) answers with Some a => Some a | None => head answers end.

Definition get_marketplace_skill (rt : MarketRuntime) (caller : Caller) (skill_id : string) (now : Z)
    (inv : Store) (o : OrchStore) (g : GateStore) (ms : MarketState) : MarketReply * MarketState :=
  if negb (bool_decide (_READ_SCOPE ∈ caller_scopes caller))
  then (refused_with 403 "this service account is not granted the 'scan:read' scope", ms) else
  let skill_id := Lifecycle.strip skill_id in
  if negb (mr_inventory_configured rt) then (refused_with 503 "inventory module is not configured", ms) else
  match get_registered_skill inv skill_id with
  | None => (refused_with 404 "skill not found", ms)
  | Some registered =>
      match authorize_skill_read (rs_owner registered) (caller_subject caller) with
      | Err _ => (refused_with 404 "skill not found",
                  mkMarketState (fetch_log ms) (S (cross_scope_attempts ms)))
      | Ok _ =>
          let respond (a : option Answer) :=
            match a with
            | None => (crashed, ms)
            | Some (projected, scan_id, verdict_shown) =>
                (answered projected,
                 _record_fetch rt skill_id scan_id (caller_subject caller) projected verdict_shown now ms)
            end in
          match latest_skill_version_hashes inv skill_id with
          | [] => respond (projected ← project_skill_verdict skill_id None None None None None None None None None;
                           Some (projected, None, None))
          | candidate_hashes =>
              respond (answers ← mapM (λ h, answers_for_content rt skill_id (caller_subject caller) h o g)
                                   candidate_hashes;
                       least_safe (concat answers))
          end
      end
  end.
End market.

(** ** The projection *)

Lemma classify_safety_spec status verdict fail_closed hits :
  let '(safe, reason) := classify_safety status verdict fail_closed hits in
  (safe = true ↔ status = "COMPLETED" ∧ verdict = Some "PASS") ∧
  (reason = None ↔ safe = true) ∧ (∀ r, reason = Some r → r ∈ UNSAFE_REASONS) ∧
  (verdict = None → reason = Some UNSAFE_NOT_YET_SCANNED).
Proof.
  unfold classify_safety, STATUS_COMPLETED, SAFE_VERDICT.
  destruct (String.eqb_spec status "COMPLETED") as [->|Hs], (decide (verdict = Some "PASS")) as [Hv|Hv];
    rewrite ?bool_decide_true, ?bool_decide_false by done; cbn [andb].
  1: by split_and!; [| |intros|intros E; rewrite E in Hv].
  all: destruct verdict as [v|]; repeat case_match; split_and!; try naive_solver.
  all: intros r Hr; simplify_eq; by_compute.
Qed.

Section projection.
Context (isoformat : Z → string).

(** What an answer is made of. *)
Lemma project_inv sid ch st v r j q td tb cov body :
  project_skill_verdict isoformat sid ch st v r j q td tb cov = Some body →
  ∃ fields status findings, body = JObj fields ∧ fields.*1 = EXTERNAL_TOP_LEVEL_FIELDS ∧
    match st with None => Some "PENDING" | Some s => project_status s end = Some status ∧
    json_get "is_safe" body = Some (JBool (classify_safety status (vv_verdict <$> v)
      (from_option vv_fail_closed false v) (from_option rv_hard_gate_hits [] r)).1) ∧
    json_get "findings" body = Some (JList findings) ∧
    mapM _project_finding (from_option rv_findings [] r) = Some findings.
Proof.
  unfold project_skill_verdict. intros H.
  apply bind_Some in H as (status & Hst & H).
  destruct (classify_safety _ _ _ _) as [safe reason] eqn:Hc.
  apply bind_Some in H as (poll & _ & H). apply bind_Some in H as (summary & _ & H).
  apply bind_Some in H as (findings & Hf & H). injection H as <-.
  eexists _, status, findings. rewrite Hc. split_and!; done.
Qed.

Lemma project_finding_fields raw f :
  _project_finding raw = Some f → ∃ fields, f = JObj fields ∧ fields.*1 = EXTERNAL_FINDING_FIELDS.
Proof.
  unfold _project_finding. intros (fields & Hm & [= <-])%bind_Some. exists fields. split; [done|].
  revert Hm. generalize EXTERNAL_FINDING_FIELDS as names. intros names. revert fields.
  induction names as [|n names IH]; intros fields Hm.
  - by injection Hm as <-.
  - apply mapM_Some in Hm. inversion Hm as [|? [k v] ? rest Hn Hrest]; subst. apply mapM_Some in Hrest.
    apply bind_Some in Hn as (v' & _ & [= <- <-]). cbn. by rewrite (IH rest).
Qed.

Lemma no_snippet_hash ff : ff.*1 = EXTERNAL_FINDING_FIELDS → json_get "snippet_hash" (JObj ff) = None.
Proof.
  intros E. cbn. destruct (find _ ff) as [[k v]|] eqn:Ef; [|done]. apply find_some in Ef as [Hin%list_elem_of_In Hk].
  apply String.eqb_eq in Hk. cbn in Hk. subst k.
  assert (Hn : "snippet_hash" ∈ EXTERNAL_FINDING_FIELDS) by (rewrite <-E; apply list_elem_of_fmap; by eexists (_, _)).
  assert (Hno : "snippet_hash" ∉ EXTERNAL_FINDING_FIELDS) by by_compute. done.
Qed.

(** ** The route *)

Lemma answer_for_scan_safe rt sid subject h scan o g a :
  answer_for_scan isoformat rt sid subject h scan o g = Some a →
  answer_is_safe a = true ↔ project_status (si_state scan) = Some "COMPLETED" ∧
    v_verdict <$> verdicts g !! si_scan_id scan = Some "PASS".
Proof.
  unfold answer_for_scan. intros (projected & Hp & [= <-])%bind_Some.
  destruct (project_inv _ _ _ _ _ _ _ _ _ _ _ Hp) as (fields & status & findings & _ & _ & Hst & Hs & _).
  unfold answer_is_safe. cbn [fst]. rewrite Hs. cbn [json_true].
  pose proof (classify_safety_spec status (vv_verdict <$> get_verdict_view g (si_scan_id scan))
    (from_option vv_fail_closed false (get_verdict_view g (si_scan_id scan)))
    (from_option rv_hard_gate_hits [] (get_scan_result_view o (si_scan_id scan)))) as Hc.
  destruct (classify_safety _ _ _ _) as [safe reason]. destruct Hc as (Hsafe & _). cbn [fst]. rewrite Hsafe, Hst.
  assert (vv_verdict <$> get_verdict_view g (si_scan_id scan) = v_verdict <$> verdicts g !! si_scan_id scan) as ->.
  { unfold get_verdict_view. by destruct (verdicts g !! si_scan_id scan). }
  naive_solver.
Qed.

(** A version the marketplace may publish: it was scanned, and every newest scan of it
    is finished with a PASS. *)
Definition cleared (o : OrchStore) (g : GateStore) (h : string) : Prop :=
  latest_scan_identities_for_content o h ≠ [] ∧
  ∀ scan, scan ∈ latest_scan_identities_for_content o h →
    project_status (si_state scan) = Some "COMPLETED" ∧
    v_verdict <$> verdicts g !! si_scan_id scan = Some "PASS".

Lemma answers_for_content_safe rt sid subject h o g answers :
  answers_for_content isoformat rt sid subject h o g = Some answers →
  answers ≠ [] ∧ (forallb answer_is_safe answers = true ↔ cleared o g h).
Proof.
  unfold answers_for_content, cleared. destruct (latest_scan_identities_for_content o h) as [|s0 scans] eqn:E.
  - intros (projected & Hp & [= <-])%bind_Some. split; [done|].
    destruct (project_inv _ _ _ _ _ _ _ _ _ _ _ Hp) as (? & status & ? & _ & _ & Hst & Hs & _).
    injection Hst as <-. cbn [forallb answer_is_safe fst]. unfold answer_is_safe. cbn [fst]. rewrite Hs. cbn. naive_solver.
  - set (l := s0 :: scans). assert (Hne : l ≠ []) by done. clearbody l. clear s0 scans E.
    intros Hm%mapM_Some. split; [intros ->; by inversion Hm; subst|].
    rewrite forallb_true, <-(Forall2_transport _ (λ scan, project_status (si_state scan) = Some "COMPLETED" ∧
      v_verdict <$> verdicts g !! si_scan_id scan = Some "PASS") (λ a, answer_is_safe a = true) _ _ Hm).
    + naive_solver.
    + intros scan a Ha. symmetry. by eapply answer_for_scan_safe.
Qed.

Lemma least_safe_spec answers a :
  least_safe answers = Some a → answer_is_safe a = forallb answer_is_safe answers.
Proof.
  unfold least_safe. destruct (find _ answers) as [x|] eqn:E.
  - intros [= <-]. apply find_some in E as [Hin%list_elem_of_In Hx%negb_true_iff]. rewrite Hx. symmetry.
    apply forallb_false. eauto.
  - intros H. assert (Hall : forallb answer_is_safe answers = true).
    { apply forallb_true. intros x Hx%list_elem_of_In. pose proof (find_none _ _ E _ Hx) as Hn. cbn in Hn.
      by apply negb_false_iff in Hn. }
    rewrite Hall. rewrite forallb_true in Hall. apply Hall. destruct answers; [done|]. injection H as ->. left.
Qed.

Lemma forallb_concat {A} (p : A → bool) (ll : list (list A)) :
  forallb p (concat ll) = forallb (forallb p) ll.
Proof. induction ll as [|l ll IH]; [done|]. cbn. by rewrite forallb_app, IH. Qed.

Lemma all_answers_safe rt sid subject hashes o g ll :
  mapM (λ h, answers_for_content isoformat rt sid subject h o g) hashes = Some ll →
  forallb answer_is_safe (concat ll) = true ↔ ∀ h, h ∈ hashes → cleared o g h.
Proof.
  intros Hm%mapM_Some. rewrite forallb_concat, forallb_true. symmetry.
  apply (Forall2_transport _ _ _ _ _ Hm). intros h answers Ha. symmetry. by eapply answers_for_content_safe.
Qed.

Lemma pending_is_unsafe sid ch body :
  project_skill_verdict isoformat sid ch None None None None None None None None = Some body →
  json_get "is_safe" body = Some (JBool false).
Proof.
  intros Hp. destruct (project_inv _ _ _ _ _ _ _ _ _ _ _ Hp) as (? & status & ? & _ & _ & Hst & Hs & _).
  injection Hst as <-. exact Hs.
Qed.

(** The answer before it is logged. *)
Lemma market_answer rt caller sid now inv o g ms body ms' :
  get_marketplace_skill isoformat rt caller sid now inv o g ms = (answered body, ms') →
  let id := Lifecycle.strip sid in
  let hashes := latest_skill_version_hashes inv id in
  (∃ k, skills inv !! id = Some k ∧ sk_owner k = Some (caller_subject caller)) ∧
  ((hashes = [] ∧ project_skill_verdict isoformat id None None None None None None None None None = Some body) ∨
   (hashes ≠ [] ∧ ∃ ll a, mapM (λ h, answers_for_content isoformat rt id (caller_subject caller) h o g) hashes = Some ll ∧
      least_safe (concat ll) = Some a ∧ body = a.1.1)).
Proof.
  unfold get_marketplace_skill.
  destruct (negb (bool_decide _)); [done|]. destruct (negb (mr_inventory_configured rt)); [done|].
  unfold get_registered_skill. destruct (skills inv !! Lifecycle.strip sid) as [k|] eqn:Hk; [|done].
  cbn [fmap option_fmap option_map rs_owner]. destruct (authorize_skill_read _ _) as [[]|] eqn:Ha; [|done].
  assert (Hown : sk_owner k = Some (caller_subject caller)).
  { unfold authorize_skill_read in Ha. destruct (sk_owner k); [|done]. apply guard_err_Ok, String.eqb_eq in Ha. by subst. }
  intros H. split; [eauto|]. clear Ha Hown Hk. revert H.
  destruct (latest_skill_version_hashes inv (Lifecycle.strip sid)) as [|h0 hs].
  - destruct (project_skill_verdict _ _ _ _ _ _ _ _ _ _ _) as [p|] eqn:Hp; [|done]. cbn. intros [= <- _]. by left.
  - destruct (mapM _ (h0 :: hs)) as [ll|] eqn:Hm; [|done]. cbn [mbind option_bind].
    destruct (least_safe (concat ll)) as [[[p scan] v]|] eqn:Hl; [|done]. intros [= <- _].
    right. split; [done|]. exists ll, (p, scan, v). by split_and!.
Qed.

Lemma answer_fields rt sid subject hashes o g ll a :
  mapM (λ h, answers_for_content isoformat rt sid subject h o g) hashes = Some ll →
  least_safe (concat ll) = Some a →
  ∃ h st v r j q td tb cov, project_skill_verdict isoformat sid (Some h) st v r j q td tb cov = Some a.1.1.
Proof.
  intros Hm%mapM_Some Hl.
  assert (Hin : a ∈ concat ll).
  { unfold least_safe in Hl. destruct (find _ _) as [x|] eqn:E.
    - injection Hl as ->. apply find_some in E as [E _]. by apply list_elem_of_In.
    - destruct (concat ll); [done|]. injection Hl as ->. left. }
  apply list_elem_of_In, in_concat in Hin as (answers & Ha%list_elem_of_In & Hin%list_elem_of_In).
  apply list_elem_of_lookup in Ha as [i Ha]. destruct (Forall2_lookup_r _ _ _ _ _ Hm Ha) as (h & _ & Hc).
  exists h. unfold answers_for_content in Hc. destruct (latest_scan_identities_for_content o h) as [|s0 scans].
  - apply bind_Some in Hc as (p & Hp & [= <-]). apply list_elem_of_singleton in Hin as ->. eauto 15.
  - apply mapM_Some in Hc. apply list_elem_of_lookup in Hin as [k Hin].
    destruct (Forall2_lookup_r _ _ _ _ _ Hc Hin) as (scan & _ & Hs).
    unfold answer_for_scan in Hs. apply bind_Some in Hs as (p & Hp & [= <-]). eauto 15.
Qed.

Lemma market_safe_spec rt caller sid now inv o g ms body ms' :
  get_marketplace_skill isoformat rt caller sid now inv o g ms = (answered body, ms') →
  (∃ k, skills inv !! Lifecycle.strip sid = Some k ∧ sk_owner k = Some (caller_subject caller)) ∧
  (json_get "is_safe" body = Some (JBool true) ↔
   latest_skill_version_hashes inv (Lifecycle.strip sid) ≠ [] ∧
   ∀ h, h ∈ latest_skill_version_hashes inv (Lifecycle.strip sid) → cleared o g h).
Proof.
  intros [Hown H]%market_answer. split; [done|]. destruct H as [[Hnil Hp]|(Hne & ll & a & Hm & Hl & ->)].
  - rewrite (pending_is_unsafe _ _ _ Hp), Hnil. naive_solver.
  - rewrite <-(all_answers_safe _ _ _ _ _ _ _ Hm), <-(least_safe_spec _ _ Hl).
    destruct (answer_fields _ _ _ _ _ _ _ _ Hm Hl) as (h & st & v & r & j & q & td & tb & cov & Hp).
    destruct (project_inv _ _ _ _ _ _ _ _ _ _ _ Hp) as (? & status & ? & _ & _ & _ & Hs & _).
    unfold answer_is_safe. rewrite Hs. cbn [json_true].
    split; [intros [= E]; by split|intros [_ E]; by rewrite E].
Qed.

(** When the marketplace asks about a skill and gets an answer, the caller is the
    skill's recorded owner, and the answer is safe exactly when the skill has a
    version on record and every version tied for newest was scanned and every newest
    scan of it is finished with a PASS on record.  A tie is never broken in the
    publisher's favour. *)
Theorem market_safe_iff rt caller sid now inv o g ms body ms' :
  get_marketplace_skill isoformat rt caller sid now inv o g ms = (answered body, ms') →
  (∃ k, skills inv !! Lifecycle.strip sid = Some k ∧ sk_owner k = Some (caller_subject caller)) ∧
  (json_get "is_safe" body = Some (JBool true) ↔
   latest_skill_version_hashes inv (Lifecycle.strip sid) ≠ [] ∧
   ∀ h, h ∈ latest_skill_version_hashes inv (Lifecycle.strip sid) → cleared o g h).
Proof. apply market_safe_spec. Qed.

(** C24: Whatever is stored, an answer has exactly the fields of the external contract,
    and each of its findings exactly those of the finding contract: nothing internal,
    such as a finding's snippet hash, can reach the marketplace. *)
Theorem market_answer_is_whitelisted rt caller sid now inv o g ms body ms' :
  get_marketplace_skill isoformat rt caller sid now inv o g ms = (answered body, ms') →
  ∃ fields findings, body = JObj fields ∧ fields.*1 = EXTERNAL_TOP_LEVEL_FIELDS ∧
    json_get "findings" body = Some (JList findings) ∧
    ∀ f, f ∈ findings → (∃ ff, f = JObj ff ∧ ff.*1 = EXTERNAL_FINDING_FIELDS) ∧ json_get "snippet_hash" f = None.
Proof.
  intros [_ H]%market_answer.
  assert (Hp : ∃ sid' h st v r j q td tb cov, project_skill_verdict isoformat sid' h st v r j q td tb cov = Some body).
  { destruct H as [[_ Hp]|(_ & ll & a & Hm & Hl & ->)]; [eauto 15|].
    destruct (answer_fields _ _ _ _ _ _ _ _ Hm Hl) as (h & st & v & r & j & q & td & tb & cov & Hp). eauto 15. }
  destruct Hp as (sid' & h & st & v & r & j & q & td & tb & cov & Hp).
  destruct (project_inv _ _ _ _ _ _ _ _ _ _ _ Hp) as (fields & _ & findings & -> & Hf & _ & _ & Hfs & Hm).
  exists fields, findings. split_and!; [done..|]. intros f Hin. apply mapM_Some in Hm.
  apply list_elem_of_lookup in Hin as [i Hin]. destruct (Forall2_lookup_r _ _ _ _ _ Hm Hin) as (raw & _ & Hraw).
  destruct (project_finding_fields _ _ Hraw) as (ff & -> & Hff). split; [eauto|]. by apply no_snippet_hash.
Qed.
End projection.

(** ** With the pipeline behind it *)

Section composed.
Context (isoformat : Z → string).
Context (exp64 : Q → Q) (sign_verdict : json → Z → string) (claim_jti : string → string).
Context (nfc : points → points) (sha256 : list Z → string) (repr_str : string → string)
  (repr_float : Q → string).
Context (pack_tar : list Entry → blob) (skill_name_of : list Entry → option string).
Context (model_validate_json : blob → option EngineResultDTO).
Context (error_text : UntrustedFindingsError → string) (py_repr : string → string).

Local Abbreviation sys_step := (step exp64 sign_verdict claim_jti nfc sha256 repr_str repr_float pack_tar skill_name_of
  model_validate_json error_text py_repr).
Context (validate_finding : json → option FindingDTO) `{coll : Collation}.
Local Abbreviation sys_reachable := (live_reachable exp64 sign_verdict claim_jti nfc sha256 repr_str repr_float pack_tar
  skill_name_of model_validate_json error_text py_repr validate_finding).

(** Every result and health row is one the scoring transaction wrote. *)
Definition rows_written (o : OrchStore) : Prop :=
  (∀ id r, results o !! id = Some r → ∃ sr, r = result_row sr) ∧
  (∀ key r, health o !! key = Some r → row_ok r).

Lemma load_health_ok blobs sid e :
  let h := (load_answered model_validate_json error_text py_repr blobs sid e).2 in
  eh_report_state h = REPORTED ↔ eh_engine_status h ≠ None.
Proof.
  destruct (load_cases model_validate_json error_text py_repr blobs sid e)
    as [(res & d & Ht & ->)|(Hn & reason & state & Hs & ->)]; cbn; [naive_solver|]. naive_solver.
Qed.

Lemma aggregated_health_ok b sid ch names p mc mf ag :
  load_and_aggregate model_validate_json error_text py_repr b sid ch names p mc mf = Ok ag →
  Forall (λ h, eh_report_state h = REPORTED ↔ eh_engine_status h ≠ None) (ag_engine_health ag).
Proof.
  unfold load_and_aggregate. intros (sr & _ & [= <-])%bind_Ok. cbn [ag_engine_health].
  rewrite Forall_forall. intros h (x & -> & (n & -> & _)%list_elem_of_fmap)%list_elem_of_fmap. apply load_health_ok.
Qed.

Lemma health_rows_ok (sid : string) (now : Z) (hs : list EngineHealthRecord) (m : gmap (string * string) ScanEngineHealthRow) :
  Forall (λ h, eh_report_state h = REPORTED ↔ eh_engine_status h ≠ None) hs →
  (∀ key r, m !! key = Some r → row_ok r) →
  ∀ key r, foldr (λ h m, <[(sid, eh_engine_name h) := health_row h now]> m) m hs !! key = Some r → row_ok r.
Proof.
  intros Hall Hm. induction Hall as [|h hs Hh _ IH]; cbn [foldr]; [done|]. intros key r.
  rewrite lookup_insert_Some. intros [[_ <-]|[_ ?]]; [|by eapply IH]. by exists h, now.
Qed.

Lemma score_rows b id req policy add waited force now st r st' :
  score_txn model_validate_json error_text py_repr b id req policy add waited force now st = Ok (r, st') →
  rows_written st → rows_written st'.
Proof.
  unfold score_txn. destruct (jobs st !! id) as [job|]; [|by intros [= _ <-]].
  destruct (negb _); [by intros [= _ <-]|]. destruct (negb _); [by intros [= _ <-]|].
  destruct (_ && _); [by intros [= _ <-]|].
  destruct (load_and_aggregate _ _ _ _ _ _ _ _ _ _) as [ag|] eqn:E; [|done].
  intros (u & _ & [= _ <-])%bind_Ok [Hr Hh]. split; cbn [results health].
  - intros i r'. rewrite lookup_insert_Some. intros [[_ <-]|[_ ?]]; eauto.
  - apply health_rows_ok; [|done]. by eapply aggregated_health_ok.
Qed.

Lemma submit_rows files submitter ms policy t src rt dl new_id now w id w' :
  submit_scan nfc sha256 repr_str repr_float pack_tar skill_name_of files submitter ms policy t src rt dl new_id now w
    = Ok (id, w') → rows_written (orch w) → rows_written (orch w').
Proof.
  unfold submit_scan.
  destruct (content_hash _ _ _); [|done]. destruct (toolchain_digest _ _ _ _); [|done].
  destruct (cache_key _ _ _) as [ck|]; [|done].
  assert (Ha : ∀ a b c d st, rows_written st → rows_written (_associate_submitter a b c d st)).
  { intros * Hst. unfold _associate_submitter. by destruct (_ !! _). }
  destruct (job_with_cache_key (orch w) ck); intros [= _ <-] H; by apply Ha.
Qed.

Lemma rows_written_step s s' : sys_step s s' → rows_written (orch (world s)) → rows_written (orch (world s')).
Proof.
  intros Hstep IH. destruct Hstep; cbn in *; try done.
  - by eapply submit_rows.
  - by eapply score_rows.
  - by eapply score_rows.
Qed.

Lemma rows_written_reachable s : sys_reachable s → rows_written (orch (world (pipeline s))).
Proof.
  apply (rtc_ind_r (λ s, rows_written (orch (world (pipeline s))))).
  - split; cbn; intros *; by rewrite lookup_empty.
  - intros s1 s2 _ Hstep IH. destruct Hstep; cbn in *; try done. by eapply rows_written_step.
Qed.

(** In such states no projection raises. *)
Lemma summarize_written sr b n : ∃ summary, _summarize (map serialize_finding (sr_findings sr)) b n = Some summary.
Proof.
  unfold _summarize.
  assert (mapM finding_severity (map serialize_finding (sr_findings sr)) = Some (map (λ f, sev_val (severity f)) (sr_findings sr))) as ->;
    [|cbn; eauto].
  induction (sr_findings sr) as [|f l IH]; [done|]. cbn [map mapM]. by rewrite IH.
Qed.

Lemma project_findings_written sr : ∃ fs, mapM _project_finding (map serialize_finding (sr_findings sr)) = Some fs.
Proof. induction (sr_findings sr) as [|f l [fs IH]]; [by exists []|]. cbn [map mapM]. rewrite IH. cbn. eauto. Qed.

Lemma project_total sid ch st v id o j q td tb cov :
  rows_written o → (∀ s, st = Some s → s ∈ SCAN_STATES) →
  ∃ body, project_skill_verdict isoformat sid ch st v (get_scan_result_view o id) j q td tb cov = Some body.
Proof.
  intros [Hr _] Hst. unfold project_skill_verdict.
  assert (Hs : ∃ status p, match st with None => Some "PENDING" | Some s => project_status s end = Some status ∧
    dict_get POLL_AFTER_MS status = Some p).
  { destruct st as [s|]; [|by eexists _, _]. specialize (Hst s eq_refl).
    unfold SCAN_STATES in Hst. rewrite !elem_of_cons, elem_of_nil in Hst.
    destruct Hst as [->|[->|[->|[->|[->|[]]]]]]; by eexists _, _. }
  destruct Hs as (status & p & -> & Hp). cbn [mbind option_bind]. destruct (classify_safety _ _ _ _) as [safe reason].
  rewrite Hp. cbn [mbind option_bind]. unfold get_scan_result_view. destruct (results o !! id) as [r|] eqn:Er.
  - destruct (Hr _ _ Er) as [sr ->]. cbn [fmap option_fmap option_map from_option rv_findings rv_findings_capped
      rv_findings_total mbind option_bind result_row sr_row_findings sr_row_findings_capped sr_row_findings_total].
    edestruct summarize_written as [summary ->]. cbn [mbind option_bind].
    destruct (project_findings_written sr) as [fs ->]. cbn. eauto.
  - cbn. eauto.
Qed.

Lemma answers_total rt sid subject h s :
  sys_reachable s →
  ∃ answers, answers_for_content isoformat rt sid subject h (orch (world (pipeline s))) (gate (world (pipeline s))) = Some answers.
Proof.
  intros Hreach. pose proof (rows_written_reachable s Hreach) as Hrows.
  pose proof (live_ok_reachable _ _ _ _ _ _ _ _ _ _ _ _ _ _ Hreach) as [[Hscan _ _] _].
  unfold answers_for_content. set (o := orch (world (pipeline s))) in *.
  assert (Hids : ∀ scan, scan ∈ latest_scan_identities_for_content o h → si_state scan ∈ SCAN_STATES).
  { unfold latest_scan_identities_for_content. intros scan ([id j] & -> & Hin)%list_elem_of_fmap.
    apply elem_of_sort_by, list_elem_of_filter in Hin as [_ [_ Hin]%list_elem_of_filter].
    apply elem_of_map_to_list in Hin. by apply (so_state _ _ _ _ (Hscan id)). }
  destruct (latest_scan_identities_for_content o h) as [|s0 scans].
  - cbn. eauto.
  - apply mapM_is_Some. apply Forall_forall. intros scan Hin. unfold compose, answer_for_scan. cbn zeta.
    edestruct (project_total sid (Some h) (Some (si_state scan))) as [body ->]; [done|by intros ? [= <-]; apply Hids|].
    by eexists.
Qed.

(** The owner always gets an answer.  In every state the pipeline can reach,
    whatever was submitted, scanned, dead-lettered or interrupted, a poll by a service
    account with the read scope for a skill it owns is answered, also when the fetch
    audit cannot be written; no other caller is, and for those an unknown skill and
    somebody else's are the same 404. *)
Theorem market_answers_the_owner rt caller sid now inv s ms :
  sys_reachable s → _READ_SCOPE ∈ caller_scopes caller → mr_inventory_configured rt = true →
  let reply := (get_marketplace_skill isoformat rt caller sid now inv (orch (world (pipeline s))) (gate (world (pipeline s))) ms).1 in
  if bool_decide (sk_owner <$> skills inv !! Lifecycle.strip sid = Some (Some (caller_subject caller)))
  then ∃ body, reply = answered body
  else reply = refused_with 404 "skill not found".
Proof.
  intros Hreach Hscope Hinv reply. subst reply. unfold get_marketplace_skill.
  rewrite (bool_decide_true (_READ_SCOPE ∈ _)) by done. rewrite Hinv. cbn [negb].
  unfold get_registered_skill. destruct (skills inv !! Lifecycle.strip sid) as [k|]; cbn [fmap option_fmap option_map rs_owner].
  2: { by rewrite bool_decide_false. }
  unfold authorize_skill_read. destruct (sk_owner k) as [owner|]; [|by rewrite bool_decide_false].
  destruct (String.eqb_spec owner (caller_subject caller)) as [->|Hne]; cbn [guard_err].
  2: { rewrite bool_decide_false; [done|]. by intros [= ?]. }
  rewrite bool_decide_true by done.
  destruct (latest_skill_version_hashes inv (Lifecycle.strip sid)) as [|h0 hs].
  - cbn. eauto.
  - assert (Hm : ∃ ll, mapM (λ h, answers_for_content isoformat rt (Lifecycle.strip sid) (caller_subject caller) h
      (orch (world (pipeline s))) (gate (world (pipeline s)))) (h0 :: hs) = Some ll).
    { apply mapM_is_Some, Forall_forall. intros h _. by apply answers_total. }
    destruct Hm as [ll Hm]. rewrite Hm. cbn [mbind option_bind].
    assert (Hl : ∃ a, least_safe (concat ll) = Some a).
    { apply mapM_Some in Hm. inversion Hm as [|? a0 ? ll' Ha _]; subst.
      apply answers_for_content_safe in Ha as [Hne _]. unfold least_safe. destruct (find _ _); [eauto|].
      destruct a0; [done|]. cbn. eauto. }
    destruct Hl as [[[p scan] v] ->]. cbn. eauto.
Qed.

(** C23: "Safe" on the marketplace means scanned.  When the marketplace is told that a
    skill is safe, in any state the pipeline can reach with reviewers at work alongside
    it, each newest scan of each version tied for newest has a verdict PASS and a
    recorded result, both about the very content asked about; and either every engine
    the policy required was ok in that result, or a reviewer approved the scan, the
    approval being among the audit intents under the reviewer's name. *)
Theorem market_safe_means_scanned rt caller sid now inv s ms body ms' h id :
  sys_reachable s →
  get_marketplace_skill isoformat rt caller sid now inv (orch (world (pipeline s))) (gate (world (pipeline s))) ms = (answered body, ms') →
  json_get "is_safe" body = Some (JBool true) →
  h ∈ latest_skill_version_hashes inv (Lifecycle.strip sid) →
  id ∈ si_scan_id <$> latest_scan_identities_for_content (orch (world (pipeline s))) h →
  ∃ v r, verdicts (gate (world (pipeline s))) !! id = Some v ∧ v_verdict v = "PASS" ∧ v_content_hash v = h ∧
         results (orch (world (pipeline s))) !! id = Some r ∧ sr_row_content_hash r = h ∧
         (sr_row_required_ok r = true ∨ ∃ reviewer, approved_by (gate (world (pipeline s))) id reviewer).
Proof.
  intros Hreach [_ Hsafe]%market_safe_spec Hs Hh Hid. apply Hsafe in Hs as [_ Hc]. destruct (Hc h Hh) as [_ Hall].
  apply list_elem_of_fmap in Hid as (scan & -> & Hin). destruct (Hall scan Hin) as [_ Hv].
  apply fmap_Some in Hv as (v & Hv & Hp).
  pose proof (live_ok_reachable _ _ _ _ _ _ _ _ _ _ _ _ _ _ Hreach) as [[Hok _ _] _].
  destruct (Hok (si_scan_id scan)) as [_ _ Hrh Hvj Hpass _].
  destruct (Hpass v Hv (eq_sym Hp)) as (r & Hr & Hreq). destruct (Hvj v Hv) as (j & Hj & Hvh).
  assert (Hjh : j_content_hash j = h).
  { unfold latest_scan_identities_for_content in Hin. apply list_elem_of_fmap in Hin as ([id' j'] & -> & Hin).
    apply elem_of_sort_by, list_elem_of_filter in Hin as [_ [Hh' Hin]%list_elem_of_filter].
    apply elem_of_map_to_list in Hin. cbn in *. congruence. }
  exists v, r. pose proof (Hrh r j Hr Hj). split_and!; congruence || done.
Qed.

(** The health window is bounded and accounts for itself.  In every reachable state
    and for every request, the report covers at most the clamped number of scans (at
    most 200), and for each engine the five counts add up to the scans it was observed
    in, which are between one and the scans of the window; its last row is its own. *)
Theorem health_window_is_exact s n :
  sys_reachable s →
  let report := load_recent_engine_health n (orch (world (pipeline s))) in
  ew_requested_scans (hrep_window report) = Z.max 1 (Z.min n 200) ∧
  Z.of_nat (ew_observed_scans (hrep_window report)) <= Z.max 1 (Z.min n 200) ∧
  ∀ e, e ∈ hrep_engines report →
    (1 <= es_observed_scans e <= ew_observed_scans (hrep_window report))%nat ∧
    total (es_counts e) = es_observed_scans e ∧ ob_engine_name (es_last e) = es_engine_name e.
Proof. intros [_ Hh]%rows_written_reachable. by apply window_is_exact. Qed.
End composed.

(** ** Witnesses *)

Module MarketSamples.
Import Gate.Samples ReadbackSamples CanonicalSamples DigestSamples PipelineSamples.

(** A collation that compares byte by byte. *)
#[local] Instance bytewise : Collation := λ s, s.

Definition iso (_ : Z) : string := "2026-07-30T00:00:00".
Definition shelf : Store :=
  mkStore (<["k" := mkSkillRow "marketplace-api" "public" None (Some "market") 0]> ∅)
    (<["h" := mkSkillVersionRow "k" "t" JNull 1]> ∅) ∅ [] [].
Definition runtime : MarketRuntime := mkMarketRuntime need_floor true ∅ ∅ (Some false).
Definition market : Caller := mkCaller "market" ["scan:read"].
Definition nothing_fetched : MarketState := mkMarketState [] 0.

Definition poll_of (caller : Caller) : MarketReply * MarketState :=
  get_marketplace_skill iso runtime caller "k" 5 shelf (orch ticked) (gate ticked) nothing_fetched.
Definition poll_body : json := match (poll_of market).1 with answered b => b | _ => JNull end.

Lemma live_ticked :
  live_reachable exp_step sign jti ascii_nfc hash quote fraction pack no_name validate no_text no_repr validate_fields
    (mkLive (mkSystem ticked []) []).
Proof. apply reachable_live, reach_ticked. Qed.

Lemma poll_answered : poll_of market = (answered poll_body, nothing_fetched).
Proof. vm_compute. reflexivity. Qed.

Lemma h_cleared : cleared (orch ticked) (gate ticked) "h".
Proof.
  split; [by vm_compute|]. intros scan Hin.
  assert (Hs : latest_scan_identities_for_content (orch ticked) "h" = [mkScanIdentity "s" "decided" (Some "internal")])
    by (vm_compute; reflexivity).
  rewrite Hs in Hin. apply list_elem_of_singleton in Hin as ->. split; vm_compute; reflexivity.
Qed.

Lemma market_safe_iff_witness : json_get "is_safe" poll_body = Some (JBool true).
Proof.
  destruct (market_safe_iff iso runtime market "k" 5 shelf (orch ticked) (gate ticked) nothing_fetched poll_body
    nothing_fetched poll_answered) as [_ H].
  apply H. assert (Hh : latest_skill_version_hashes shelf (Lifecycle.strip "k") = ["h"]) by (vm_compute; reflexivity).
  rewrite Hh. split; [done|]. intros h ->%list_elem_of_singleton. exact h_cleared.
Defined.

Lemma market_answer_is_whitelisted_witness :
  ∃ fields, poll_body = JObj fields ∧ fields.*1 = EXTERNAL_TOP_LEVEL_FIELDS.
Proof.
  destruct (market_answer_is_whitelisted iso runtime market "k" 5 shelf (orch ticked) (gate ticked) nothing_fetched
    poll_body nothing_fetched poll_answered) as (fields & _ & H & Hf & _).
  exists fields. split; [exact H|exact Hf].
Defined.

Lemma market_answers_the_owner_witness :
  (∃ body, (poll_of market).1 = answered body) ∧
  (poll_of (mkCaller "eve" ["scan:read"])).1 = refused_with 404 "skill not found".
Proof.
  split.
  - exact (market_answers_the_owner iso exp_step sign jti ascii_nfc hash quote fraction pack no_name validate no_text
      no_repr validate_fields runtime market "k" 5 shelf (mkLive (mkSystem ticked []) []) nothing_fetched live_ticked
      (bool_decide_unpack (_READ_SCOPE ∈ caller_scopes market) I) eq_refl).
  - exact (market_answers_the_owner iso exp_step sign jti ascii_nfc hash quote fraction pack no_name validate no_text
      no_repr validate_fields runtime (mkCaller "eve" ["scan:read"]) "k" 5 shelf (mkLive (mkSystem ticked []) []) nothing_fetched live_ticked
      (bool_decide_unpack (_READ_SCOPE ∈ ["scan:read"]) I) eq_refl).
Defined.

Lemma market_safe_means_scanned_witness :
  ∃ r, results (orch ticked) !! "s" = Some r ∧
    (sr_row_required_ok r = true ∨ ∃ reviewer, approved_by (gate ticked) "s" reviewer).
Proof.
  destruct (market_safe_means_scanned iso exp_step sign jti ascii_nfc hash quote fraction pack no_name validate
    no_text no_repr validate_fields runtime market "k" 5 shelf (mkLive (mkSystem ticked []) []) nothing_fetched poll_body nothing_fetched "h" "s"
    live_ticked poll_answered) as (v & r & _ & _ & _ & Hr & _ & Hok).
  - vm_compute. reflexivity.
  - by_compute.
  - by_compute.
  - exists r. split; [exact Hr|exact Hok].
Defined.

Lemma health_window_is_exact_witness :
  Z.of_nat (ew_observed_scans (hrep_window (load_recent_engine_health 9000 (orch ticked)))) <= 200.
Proof.
  destruct (health_window_is_exact exp_step sign jti ascii_nfc hash quote fraction pack no_name validate no_text
    no_repr validate_fields (mkLive (mkSystem ticked []) []) 9000 live_ticked) as (_ & H & _).
  exact H.
Defined.
End MarketSamples.
