(* ===== verification/ScanViews.v ===== *)
(** * Reading scans

    [apps/monolith/modules/gateway/router.py]: [get_scan], [get_scan_sarif] and
    [list_scans] — who may read which scan, and what they read — with the SARIF document
    of [libs/common/sarif.py] and [reporting/service.py]'s [export_sarif_for_scans].
    The handlers run behind [require_human_role] (Access.v); a caller is the subject and
    the roles of the session that guard lets through.  A SELECT with an ORDER BY returns
    rows that tie in no fixed order: [list_scans] takes the order in which the server
    happened to read the table.  An offset past the server's 64-bit range is not
    modelled. *)

From S2P Require Import Prelude Models Json Access Inventory GateService Readback Orchestration EngineHealth Reviews Policy WorkerTick Market.
From Stdlib Require Import QArith.
Open Scope string_scope.
Open Scope list_scope.
Open Scope Z_scope.

(** ** [libs/common/sarif.py] *)

Definition _SARIF_SCHEMA_URI : string :=
  "https://raw.githubusercontent.com/oasis-tcs/sarif-spec/master/Schemata/sarif-schema-2.1.0.json".
Definition _SARIF_VERSION : string := "2.1.0".

(** A [bool] is an [int]. *)
Definition _severity_to_level (severity : json) : string :=
  let level n := if (n =? 4) || (n =? 3) then "error" else if n =? 2 then "warning"
                 else if (n =? 1) || (n =? 0) then "note" else "error" in
  match severity with
  | JNum n => level n
  | JBool b => level (if b then 1 else 0)
  | _ => "error"
  end.

(** [d.get(key)] and [d.get(key, other)]. *)
Definition get_or (key : string) (other : json) (d : json) : json := default other (json_get key d).

(** [None] is an exception: the finding is no dict, or has no rule id. *)
Definition _finding_to_sarif_result (finding : json) : option json :=
  rule_id ← json_get "rule_id" finding;
  let evidence := get_or "evidence_redacted" JNull finding in
  let text := if truthy (plain evidence) then evidence else get_or "title" (JStr "") finding in
  let file_path := get_or "file_path" JNull finding in
  let start_line := get_or "start_line" JNull finding in
  let region := match start_line with JNull => [] | _ => [("region", JObj [("startLine", start_line)])] end in
  let locations :=
    if truthy (plain file_path)
    then [("locations", JList [JObj [("physicalLocation",
            JObj ([("artifactLocation", JObj [("uri", file_path)])] ++ region))]])]
    else [] in
  let snippet_hash := get_or "snippet_hash" JNull finding in
  let fingerprints :=
    if truthy (plain snippet_hash) then [("partialFingerprints", JObj [("snippetHash/v1", snippet_hash)])] else [] in
  Some (JObj ([("ruleId", rule_id); ("level", JStr (_severity_to_level (get_or "severity" JNull finding)));
               ("message", JObj [("text", text)])] ++ locations ++ fingerprints)).

Definition _finding_to_sarif_rule (finding : json) : option json :=
  rule_id ← json_get "rule_id" finding;
  Some (JObj [("id", rule_id); ("name", get_or "test_item_id" rule_id finding);
              ("shortDescription", JObj [("text", get_or "title" rule_id finding)])]).

(** The members of [seen_rule_ids]: numbers are one type under [==] and [hash]; a list
    or a dict cannot be a member. *)
Inductive RuleKey := key_none | key_num (q : Q) | key_str (s : string).

#[export] Instance RuleKey_eq_dec : EqDecision RuleKey.
Proof. unfold EqDecision, Decision. decide equality; [decide equality; [apply Pos.eq_dec|apply Z.eq_dec]|apply String.eq_dec]. Defined.

Definition rule_key (rule_id : json) : option RuleKey :=
  match rule_id with
  | JNull => Some key_none
  | JBool b => Some (key_num (inject_Z (if b then 1 else 0)))
  | JNum n => Some (key_num (inject_Z n))
  | JFloat q => Some (key_num (Qred q))
  | JStr s => Some (key_str s)
  | JList _ | JObj _ => None
  end.

Fixpoint collect_rules (findings : list json) (seen : list RuleKey) : option (list json) :=
  match findings with
  | [] => Some []
  | finding :: rest =>
      rule_id ← json_get "rule_id" finding;
      key ← rule_key rule_id;
      if bool_decide (key ∈ seen) then collect_rules rest seen
      else rule ← _finding_to_sarif_rule finding;
           rules ← collect_rules rest (key :: seen);
           Some (rule :: rules)
  end.

Definition findings_to_sarif (findings : list json) : option json :=
  rules ← collect_rules findings [];
  results ← mapM _finding_to_sarif_result findings;
  Some (JObj [("$schema", JStr _SARIF_SCHEMA_URI); ("version", JStr _SARIF_VERSION);
              ("runs", JList [JObj [("tool", JObj [("driver", JObj [("name", JStr "skillscan"); ("rules", JList rules)])]);
                                    ("results", JList results)]])]).

(** [export_sarif_for_scans(session, [scan_id])]: the findings of the one row there may be. *)
Definition export_sarif (o : OrchStore) (scan_id : string) : option json :=
  findings_to_sarif (from_option sr_row_findings [] (results o !! scan_id)).

(** ** Engine coverage, for a person *)

Definition _coverage_attribution (entry : EngineCoverageEntry) (disabled llm_unconfigured : gset string)
    : list (string * json) :=
  let attribution :=
    if negb (String.eqb (ce_report_state entry) "not_reported") then None
    else not_reported_attribution (ce_engine_name entry) disabled llm_unconfigured 0 in
  [("not_reported_attribution", JOpt attribution);
   ("not_reported_attribution_basis", JOpt (not_reported_attribution_basis attribution))].

Definition coverage_entry_dict (disabled llm_unconfigured : gset string) (entry : EngineCoverageEntry) : json :=
  JObj ([("name", JStr (ce_engine_name entry)); ("report_state", JStr (ce_report_state entry));
         ("engine_status", JOpt (ce_engine_status entry));
         ("analyze_duration_ms", JOptZ (ce_analyze_duration_ms entry));
         ("coverage", JStr (coverage_value (ce_coverage entry)))] ++
        _coverage_attribution entry disabled llm_unconfigured).

Definition _engine_coverage_to_dict (coverage : ScanEngineCoverage) (disabled llm_unconfigured : gset string) : json :=
  JObj [("expected", JNum (Z.of_nat (cov_expected coverage)));
        ("reported", JNum (Z.of_nat (cov_reported coverage)));
        ("not_applicable", JNum (Z.of_nat (cov_not_applicable coverage)));
        ("complete", JOptB (complete coverage));
        ("basis", if cov_observed coverage then JStr COVERAGE_BASIS_CURRENT_CONFIG else JNull);
        ("engines", JList (map (coverage_entry_dict disabled llm_unconfigured) (cov_entries coverage)))].

(** ** The handlers *)

(** The subject and the roles of a session whose subject is text. *)
Record Viewer := mkViewer { vw_subject : string; vw_roles : gset string }.

Definition viewer_of (sc : SessionContext) : option Viewer :=
  match sc_subject sc with plain (JStr s) => Some (mkViewer s (sc_roles sc)) | _ => None end.

Definition viewer_has (vw : Viewer) (roles : list string) : bool :=
  existsb (λ r, bool_decide (r ∈ vw_roles vw)) roles.

Definition _REVIEWER_ROLES : list string := ["approver"; "admin"; "auditor"].

Record ViewRuntime := mkViewRuntime {
  vr_policy : GatePolicy;
  vr_disabled : gset string;
  vr_sandbox_llm_configured : bool;
  vr_reporting_configured : bool;
}.

Inductive ViewReply := shown (body : json) | scan_not_found | view_error (detail : string) | view_raises.

Section handlers.
Context `{coll : Collation}.

(** The object-level check both per-scan routes make: the scan, or the 404 and whether
    it counts as an attempt across scopes. *)
Definition authorised_scan (o : OrchStore) (vw : Viewer) (scan_id : string) : result bool ScanJob :=
  match jobs o !! scan_id with
  | None => Err false
  | Some job =>
      if negb (is_scan_submitter o scan_id (vw_subject vw)) && negb (viewer_has vw _REVIEWER_ROLES)
      then Err true else Ok job
  end.

(** [{"submitters": ..., "submitter_sources": ..., "source": ...}]; [_EMPTY_ATTRIBUTION]
    when the scan has no rows. *)
Definition attribution_fields (a : option (list (string * option string * option string) * list string))
    : list (string * json) :=
  let '(entries, channels) := default ([], []) a in
  [("submitters", JList (map (λ e, JStr e.1.1) entries));
   ("submitter_sources", JList (map (λ e, JObj [("submitter", JStr e.1.1); ("source", JOpt e.1.2);
                                                ("requested_trust_tier", JOpt e.2)]) entries));
   ("source", JList (map JStr channels))].

Definition provenance_json (p : string * string * string) : json := JList [JStr p.1.1; JStr p.1.2; JStr p.2].

Definition get_scan (rt : ViewRuntime) (vw : Viewer) (scan_id : string) (o : OrchStore) (g : GateStore)
    (attempts : nat) : ViewReply * nat :=
  match authorised_scan o vw scan_id with
  | Err counted => (scan_not_found, if counted then S attempts else attempts)
  | Ok job =>
      let result_row := results o !! scan_id in
      let llm_unconfigured := llm_unconfigured_engine_names llm_gated_engine_names (vr_sandbox_llm_configured rt) in
      let coverage := load_scan_engine_coverage o scan_id
                        (structurally_absent_engine_names (vr_disabled rt) llm_unconfigured) in
      let attribution := submitter_attribution o [scan_id] !! scan_id in
      let requested_by_caller := requested_tier_of o scan_id (vw_subject vw) in
      let verdict_row := verdicts g !! scan_id in
      let divergence := tier_divergence (vr_policy rt) requested_by_caller (j_trust_tier job)
                          (v_policy_version <$> verdict_row) in
      (shown (JObj
        ([("scan_id", JStr scan_id); ("state", JStr (j_state job)); ("submitter", JStr (j_submitter job));
          ("verdict", JOpt (v_verdict <$> verdict_row));
          ("severity", JOptZ (sr_row_severity <$> result_row));
          ("score", JOptZ (v_score <$> verdict_row));
          ("is_safe", JOptB ((λ v, String.eqb (v_verdict v) "PASS") <$> verdict_row));
          ("findings", JList (from_option sr_row_findings [] result_row));
          ("provenance", JList (map provenance_json (from_option sr_row_provenance [] result_row)));
          ("required_ok", JOptB (sr_row_required_ok <$> result_row));
          ("engine_coverage", _engine_coverage_to_dict coverage (vr_disabled rt) llm_unconfigured);
          ("hard_gate_hits", JList (map JStr (from_option sr_row_hard_gate_hits [] result_row)));
          ("reasons", JList (map JStr (from_option v_reasons [] verdict_row)));
          ("sarif_ref", JStr ("/v1/scans/" +:+ scan_id +:+ "/sarif"));
          ("trust_tier", JOpt (match requested_by_caller with Some t => Some t | None => j_trust_tier job end));
          ("judged_at_tier", JOpt (j_trust_tier job));
          ("tier_direction", JOpt (direction divergence));
          ("tier_direction_basis", JOpt (basis divergence))] ++ attribution_fields attribution)), attempts)
  end.

Definition get_scan_sarif (rt : ViewRuntime) (vw : Viewer) (scan_id : string) (o : OrchStore) (attempts : nat)
    : ViewReply * nat :=
  match authorised_scan o vw scan_id with
  | Err counted => (scan_not_found, if counted then S attempts else attempts)
  | Ok _ =>
      if negb (vr_reporting_configured rt) then (view_error "reporting module is not configured", attempts)
      else (match export_sarif o scan_id with Some doc => shown doc | None => view_raises end, attempts)
  end.

(** The WHERE of [list_scans]. *)
Definition listed (o : OrchStore) (vw : Viewer) (state : option string) (kv : string * ScanJob) : bool :=
  (viewer_has vw _REVIEWER_ROLES || is_scan_submitter o kv.1 (vw_subject vw)) &&
  match state with None => true | Some s => String.eqb (j_state kv.2) s end.

Definition newest_scan_first : string * ScanJob → string * ScanJob → bool :=
  λ a b, j_created_at b.2 <=? j_created_at a.2.

(** [read] is [scan_job] in the order the server read it. *)
Definition matching_scans (o : OrchStore) (vw : Viewer) (state : option string) (read : list (string * ScanJob))
    : list (string * ScanJob) :=
  sort_by newest_scan_first (base.filter (λ kv, listed o vw state kv = true) read).

Definition bounded_limit (limit : Z) : Z := Z.max 1 (Z.min limit 200).

Definition page (o : OrchStore) (vw : Viewer) (state : option string) (limit offset : Z) (read : list (string * ScanJob))
    : list (string * ScanJob) :=
  take (Z.to_nat (bounded_limit limit)) (drop (Z.to_nat (Z.max 0 offset)) (matching_scans o vw state read)).

Definition scan_item (inv : option Store) (g : GateStore)
    (attribution : gmap string (list (string * option string * option string) * list string))
    (kv : string * ScanJob) : json :=
  let verdict_row := verdicts g !! kv.1 in
  JObj ([("scan_id", JStr kv.1); ("state", JStr (j_state kv.2)); ("submitter", JStr (j_submitter kv.2));
         ("content_hash", JStr (j_content_hash kv.2));
         ("verdict", JOpt (v_verdict <$> verdict_row)); ("score", JOptZ (v_score <$> verdict_row));
         ("is_safe", JOptB ((λ v, String.eqb (v_verdict v) "PASS") <$> verdict_row));
         ("skill_id", JOpt (inv ≫= λ s, skill_id_for_content s (j_content_hash kv.2)));
         ("skill_name", JOpt (j_skill_name kv.2))] ++ attribution_fields (attribution !! kv.1)).

(** [inv = None] is a deployment without the inventory module. *)
Definition list_scans (vw : Viewer) (state : option string) (limit offset : Z) (read : list (string * ScanJob))
    (inv : option Store) (o : OrchStore) (g : GateStore) : json :=
  let rows := page o vw state limit offset read in
  JObj [("items", JList (map (scan_item inv g (submitter_attribution o rows.*1)) rows))].

(** ** Who reads what *)

(** The scan exists, and the caller submitted it or holds a reviewing role. *)
Definition may_read (o : OrchStore) (vw : Viewer) (scan_id : string) : Prop :=
  jobs o !! scan_id ≠ None ∧
  ((∃ who, submitters o !! (scan_id, who) ≠ None ∧ collate who = collate (vw_subject vw)) ∨ ∃ role, role ∈ _REVIEWER_ROLES ∧ role ∈ vw_roles vw).

#[export] Instance may_read_dec o vw scan_id : Decision (may_read o vw scan_id).
Proof.
  unfold may_read. apply and_dec; [apply _|]. apply or_dec.
  { destruct (is_scan_submitter o scan_id (vw_subject vw)) eqn:E; [left|right]; rewrite <-is_scan_submitter_iff; congruence. }
  destruct (decide (Exists (λ r, r ∈ vw_roles vw) _REVIEWER_ROLES)) as [H|H]; rewrite Exists_exists in H; [left|right]; naive_solver.
Defined.

Lemma viewer_has_spec vw roles : viewer_has vw roles = true ↔ ∃ role, role ∈ roles ∧ role ∈ vw_roles vw.
Proof.
  unfold viewer_has. rewrite existsb_exists. setoid_rewrite bool_decide_eq_true. by setoid_rewrite <-list_elem_of_In.
Qed.

Lemma authorised_spec o vw id :
  match authorised_scan o vw id with
  | Ok job => jobs o !! id = Some job ∧ may_read o vw id
  | Err counted => ¬ may_read o vw id ∧ counted = bool_decide (jobs o !! id ≠ None)
  end.
Proof.
  unfold authorised_scan, may_read. destruct (jobs o !! id) as [job|]; [|by split; [intros [? _]|]].
  pose proof (viewer_has_spec vw _REVIEWER_ROLES) as Hv. pose proof (is_scan_submitter_iff o id (vw_subject vw)) as Hs.
  destruct (viewer_has vw _REVIEWER_ROLES), (is_scan_submitter o id (vw_subject vw)); cbn [negb andb]; naive_solver.
Qed.

Lemma collect_rules_ids fs seen :
  ∃ rules, collect_rules (map serialize_finding fs) (map key_str seen) = Some rules ∧
    ∃ ids, map (json_get "id") rules = map (λ r, Some (JStr r)) ids ∧ NoDup ids ∧
      ∀ r, r ∈ ids ↔ r ∉ seen ∧ ∃ f, f ∈ fs ∧ rule_id f = r.
Proof.
  revert seen. induction fs as [|f fs IH]; intros seen; cbn [map collect_rules].
  { exists []. split; [done|]. exists []. split_and!; [done|constructor|set_solver]. }
  change (json_get "rule_id" (serialize_finding f)) with (Some (JStr (rule_id f))). cbn [mbind option_bind rule_key].
  rewrite (bool_decide_ext (key_str (rule_id f) ∈ map key_str seen) (rule_id f ∈ seen))
    by (rewrite list_elem_of_fmap; split; [intros (? & [= ->] & ?); done|eauto]).
  case_bool_decide as Hs.
  - destruct (IH seen) as (rules & -> & ids & Hm & Hn & Hi). exists rules. split; [done|]. exists ids.
    split_and!; [done..|]. intros r. rewrite Hi. set_solver.
  - destruct (IH (rule_id f :: seen)) as (rules & Hc & ids & Hm & Hn & Hi). cbn [map] in Hc.
    change (_finding_to_sarif_rule (serialize_finding f))
      with (Some (JObj [("id", JStr (rule_id f)); ("name", JStr (test_item_id f));
                        ("shortDescription", JObj [("text", JStr (title f))])])).
    cbn [mbind option_bind]. rewrite Hc. cbn [option_bind]. eexists. split; [reflexivity|].
    exists (rule_id f :: ids). cbn [map]. rewrite Hm. split; [done|]. split; [constructor; [rewrite Hi; set_solver|done]|].
    intros r. rewrite elem_of_cons, Hi. destruct (decide (r = rule_id f)); set_solver.
Qed.

(** What a result says of a finding. *)
Definition sarif_describes (f : Finding) (r : json) : Prop :=
  json_get "ruleId" r = Some (JStr (rule_id f)) ∧
  json_get "level" r = Some (JStr (if 3 <=? sev_val (severity f) then "error"
                                   else if sev_val (severity f) =? 2 then "warning" else "note")) ∧
  json_get "message" r = Some (JObj [("text", JStr (if String.eqb (evidence_redacted f) "" then title f else evidence_redacted f))]) ∧
  (json_get "locations" r ≠ None ↔ ∃ p, file_path f = Some p ∧ p ≠ "") ∧
  json_get "partialFingerprints" r =
    (h ← snippet_hash f; if String.eqb h "" then None else Some (JObj [("snippetHash/v1", JStr h)])).

Lemma sarif_result_of f : ∃ r, _finding_to_sarif_result (serialize_finding f) = Some r ∧ sarif_describes f r.
Proof.
  eexists. split; [reflexivity|]. unfold sarif_describes, get_or. cbn.
  destruct (file_path f) as [p|]; cbn; [destruct (String.eqb_spec p "")|];
    (destruct (snippet_hash f) as [h|]; cbn; [destruct (String.eqb_spec h "")|]); cbn;
    (split; [done|]); (split; [by destruct (severity f)|]); (split; [by destruct (String.eqb_spec (evidence_redacted f) "")|]);
    naive_solver.
Qed.

Lemma sarif_results_of fs : ∃ rs, mapM _finding_to_sarif_result (map serialize_finding fs) = Some rs ∧ Forall2 sarif_describes fs rs.
Proof.
  induction fs as [|f fs (rs & IH & Hf)]; [by exists []|].
  destruct (sarif_result_of f) as (r & Er & Hr). exists (r :: rs). split; [|by constructor].
  cbn [map mapM]. rewrite Er. cbn [mbind option_bind]. by rewrite IH.
Qed.

(** The document of a row that the scoring step wrote, or of none. *)
Lemma export_sarif_total o id :
  (∀ r, results o !! id = Some r → ∃ sr, r = result_row sr) → ∃ doc, export_sarif o id = Some doc.
Proof.
  unfold export_sarif, findings_to_sarif. destruct (results o !! id) as [r|]; [|by eexists].
  intros Hr. destruct (Hr r eq_refl) as [sr ->]. cbn [from_option].
  change (sr_row_findings (result_row sr)) with (map serialize_finding (sr_findings sr)).
  destruct (collect_rules_ids (sr_findings sr) []) as (rules & Hrules & _). cbn [map] in Hrules.
  destruct (sarif_results_of (sr_findings sr)) as (rs & Hrs & _). rewrite Hrules. cbn [mbind option_bind].
  rewrite Hrs. by eexists.
Qed.

(** C33: Who may read a scan.  The detail route answers with a scan exactly when it
    exists and the caller is one of its recorded submitters, as the database compares
    names, or an approver, an admin or an auditor; the SARIF route answers with a document
    exactly when, besides, reporting is configured, and without reporting with an error.
    Every other request gets the same "not found" from both, whether the scan exists or
    not, and only those for a scan that exists are counted as attempts across scopes.
    (The scan's result row, if it has one, is one the scoring step wrote, as in every state
    the pipeline reaches.) *)
Theorem scan_reads_are_scoped rt vw id o g n :
  (∀ r, results o !! id = Some r → ∃ sr, r = result_row sr) →
  let '(detail, n1) := get_scan rt vw id o g n in
  let '(sarif, n2) := get_scan_sarif rt vw id o n in
  (may_read o vw id ↔ ∃ body, detail = shown body) ∧ (¬ may_read o vw id ↔ detail = scan_not_found) ∧
  (may_read o vw id ∧ vr_reporting_configured rt = true ↔ ∃ doc, sarif = shown doc) ∧
  (may_read o vw id ∧ vr_reporting_configured rt = false ↔ ∃ detail, sarif = view_error detail) ∧
  (¬ may_read o vw id ↔ sarif = scan_not_found) ∧
  n1 = n2 ∧ n1 = (if bool_decide (jobs o !! id ≠ None ∧ ¬ may_read o vw id) then S n else n).
Proof.
  intros Hw%export_sarif_total. pose proof (authorised_spec o vw id) as H'. unfold get_scan, get_scan_sarif.
  destruct (authorised_scan o vw id) as [job|counted].
  - destruct H' as [Hj Hr]. rewrite (bool_decide_eq_false_2 (_ ∧ ¬ _)) by naive_solver.
    destruct Hw as [doc ->]. destruct (vr_reporting_configured rt); cbn [negb]; naive_solver.
  - destruct H' as [Hr ->]. do 2 case_bool_decide; naive_solver.
Qed.

(** ** Lists *)

#[export] Instance newest_scan_first_total : TotalPreB newest_scan_first.
Proof. split; unfold newest_scan_first; intros *; bool_prop; lia. Qed.

Lemma elem_of_matching o vw state read id job :
  read ≡ₚ map_to_list (jobs o) →
  (id, job) ∈ matching_scans o vw state read ↔
  jobs o !! id = Some job ∧ may_read o vw id ∧ from_option (λ s, j_state job = s) True state.
Proof.
  intros Hp. unfold matching_scans. rewrite elem_of_sort_by, list_elem_of_filter, Hp, elem_of_map_to_list.
  unfold listed, may_read. cbn [fst snd]. rewrite andb_true_iff, orb_true_iff, viewer_has_spec, is_scan_submitter_iff.
  destruct state as [s|]; cbn [from_option]; [rewrite String.eqb_eq|]; naive_solver.
Qed.

(** The pages of one reading of the table: [m] pages of [L] rows. *)
Definition pages (o : OrchStore) (vw : Viewer) (state : option string) (limit : Z) (read : list (string * ScanJob)) (m : nat)
    : list (string * ScanJob) :=
  mjoin (map (λ k, page o vw state limit (Z.of_nat k * bounded_limit limit) read) (seq 0 m)).

Lemma take_pages {A} (L : nat) (l : list A) m :
  mjoin (map (λ k, take L (drop (k * L) l)) (seq 0 m)) = take (m * L) l.
Proof.
  induction m as [|m IH]; [done|]. rewrite seq_S, map_app. cbn [map plus]. change (map ?f [m]) with [f m].
  rewrite join_app. cbn [mjoin list_join]. rewrite app_nil_r, IH.
  replace (S m * L)%nat with (m * L + L)%nat by lia. by rewrite take_take_drop.
Qed.

Lemma list_elem_of_page {A} (x : A) i j l : x ∈ take i (drop j l) → x ∈ l.
Proof. intros (k & Hk & _)%elem_of_take. rewrite lookup_drop in Hk. by eapply list_elem_of_lookup_2. Qed.

(** Lists.  Whatever order the server reads the table in, a page has at most 200
    scans, all of them scans this caller may read in the state asked for, newest first;
    and the pages of one reading, put together, are all of those scans, each once. *)
Theorem list_pages_are_complete o vw state limit read m :
  read ≡ₚ map_to_list (jobs o) →
  (length (matching_scans o vw state read) <= m * Z.to_nat (bounded_limit limit))%nat →
  (∀ offset, length (page o vw state limit offset read) <= 200)%nat ∧
  (∀ id job, (id, job) ∈ pages o vw state limit read m ↔
     jobs o !! id = Some job ∧ may_read o vw id ∧ from_option (λ s, j_state job = s) True state) ∧
  NoDup (pages o vw state limit read m).*1 ∧
  sortedB newest_scan_first (pages o vw state limit read m).
Proof.
  intros Hp Hm.
  assert (pages o vw state limit read m = matching_scans o vw state read) as ->.
  { trans (take (m * Z.to_nat (bounded_limit limit)) (matching_scans o vw state read)); [|by apply take_ge].
    rewrite <-take_pages. unfold pages, page. f_equal. apply map_ext.
    intros k. rewrite Z.max_r by (unfold bounded_limit; lia). rewrite Z2Nat.inj_mul by (unfold bounded_limit; lia).
    by rewrite Nat2Z.id. }
  split_and!.
  - intros offset. unfold page. rewrite length_take. unfold bounded_limit. lia.
  - intros id job. by apply elem_of_matching.
  - unfold matching_scans. rewrite sort_by_perm. apply (sublist_NoDup _ read.*1).
    + rewrite Hp. apply NoDup_fst_map_to_list.
    + apply fmap_sublist, sublist_filter.
  - apply sort_by_sorted, _.
Qed.

Lemma attribution_lookup o ids id :
  submitter_attribution o ids !! id =
  if bool_decide (id ∈ ids) then match (attribution_of o id).1 with [] => None | _ => Some (attribution_of o id) end else None.
Proof.
  induction ids as [|i ids IH]; [done|]. unfold submitter_attribution. cbn [foldr]. fold (submitter_attribution o ids).
  destruct (decide (i = id)) as [->|Hi].
  - rewrite (bool_decide_eq_true_2 (id ∈ id :: ids)) by (by left).
    destruct (attribution_of o id) as [[|e es] cs]; cbn [fst] in *; [|by rewrite lookup_insert_eq].
    rewrite IH. by case_bool_decide.
  - rewrite (bool_decide_ext (id ∈ i :: ids) (id ∈ ids)) by set_solver.
    destruct (attribution_of o i).1; [done|]. by rewrite lookup_insert_ne.
Qed.

(** What the list shows of a scan and the detail shows too. *)
Definition SHARED_FIELDS : list string :=
  ["scan_id"; "state"; "submitter"; "verdict"; "score"; "is_safe"; "submitters"; "submitter_sources"; "source"].

(** The list and the detail tell one story.  Each item of a page is for a scan whose
    detail the same caller can open, and every field the two share — the verdict, whether
    it is safe, the whole list of submitters with their channels and requested tiers — has
    the same value in both. *)
Theorem list_agrees_with_detail rt vw state limit offset read inv o g n id job :
  read ≡ₚ map_to_list (jobs o) → (id, job) ∈ page o vw state limit offset read →
  ∃ items item body,
    list_scans vw state limit offset read inv o g = JObj [("items", JList items)] ∧ item ∈ items ∧
    json_get "scan_id" item = Some (JStr id) ∧ get_scan rt vw id o g n = (shown body, n) ∧
    Forall (λ f, json_get f item = json_get f body ∧ json_get f item ≠ None) SHARED_FIELDS.
Proof.
  intros Hp Hin. pose proof (list_elem_of_page _ _ _ _ Hin) as H.
  rewrite elem_of_matching in H by done. destruct H as (Hj & Hr & _).
  pose proof (authorised_spec o vw id) as Ha. destruct (authorised_scan o vw id) as [job'|] eqn:E; [|by destruct Ha].
  destruct Ha as [Hj' _]. simplify_eq.
  eexists _, (scan_item inv g (submitter_attribution o (page o vw state limit offset read).*1) (id, job)), _.
  split; [reflexivity|]. split; [by apply list_elem_of_fmap_2|]. split; [done|].
  unfold get_scan. rewrite E. split; [reflexivity|].
  unfold scan_item. rewrite !attribution_lookup.
  rewrite (bool_decide_eq_true_2 (id ∈ _.*1)) by (apply list_elem_of_fmap; by exists (id, job)).
  rewrite (bool_decide_eq_true_2 (id ∈ [id])) by set_solver.
  cbn [fst snd]. generalize (match (attribution_of o id).1 with [] => None | _ => Some (attribution_of o id) end).
  intros a. unfold SHARED_FIELDS, attribution_fields. destruct (default ([], []) a) as [entries channels].
  rewrite !Forall_cons, Forall_nil. done.
Qed.

(** ** The SARIF document *)

(** The SARIF document.  For a scan the caller may read, whose result row the scoring
    step wrote, the document has one result per finding in order — its rule, "error"
    exactly from HIGH up, its redacted text, a location and a fingerprint when the finding
    has them — and each rule that occurs is described exactly once. *)
Theorem sarif_is_faithful rt vw id o n sr :
  may_read o vw id → vr_reporting_configured rt = true → results o !! id = Some (result_row sr) →
  ∃ rules rs ids,
    get_scan_sarif rt vw id o n =
      (shown (JObj [("$schema", JStr _SARIF_SCHEMA_URI); ("version", JStr _SARIF_VERSION);
         ("runs", JList [JObj [("tool", JObj [("driver", JObj [("name", JStr "skillscan"); ("rules", JList rules)])]);
                               ("results", JList rs)]])]), n) ∧
    Forall2 sarif_describes (sr_findings sr) rs ∧
    map (json_get "id") rules = map (λ r, Some (JStr r)) ids ∧ NoDup ids ∧
    (∀ r, r ∈ ids ↔ ∃ f, f ∈ sr_findings sr ∧ rule_id f = r).
Proof.
  intros Hr Hc Hres. pose proof (authorised_spec o vw id) as Ha. unfold get_scan_sarif, export_sarif, findings_to_sarif.
  destruct (authorised_scan o vw id) as [job|]; [|by destruct Ha]. rewrite Hc, Hres. cbn [negb from_option].
  change (sr_row_findings (result_row sr)) with (map serialize_finding (sr_findings sr)).
  destruct (collect_rules_ids (sr_findings sr) []) as (rules & Hrules & ids & Hm & Hn & Hi). cbn [map] in Hrules.
  destruct (sarif_results_of (sr_findings sr)) as (rs & Hrs & Hf).
  exists rules, rs, ids. rewrite Hrules. cbn [mbind option_bind]. rewrite Hrs. cbn [option_bind].
  split_and!; [done..|]. intros r. rewrite Hi. set_solver.
Qed.

End handlers.

(** ** Examples *)

Module ViewSamples.
(** A collation that compares byte by byte. *)
#[local] Instance bytewise : Collation := λ s, s.

Definition job_of (who : string) (at_ : Z) : ScanJob := mkScanJob "h" "t" "c" STATE_DECIDED who at_ None None (Some "internal").
Definition table : OrchStore :=
  mkOrchStore {["s1" := job_of "ann" 5; "s2" := job_of "ann" 5; "s3" := job_of "eve" 7]}
    {[("s1", "ann") := mkScanSubmitterRow (Some "console") (Some "internal");
      ("s1", "bob") := mkScanSubmitterRow (Some "marketplace") None;
      ("s2", "ann") := mkScanSubmitterRow None None; ("s3", "eve") := mkScanSubmitterRow None None]}
    {["s1" := result_row Reviews.ReviewSamples.worrying]} ∅.
Definition gate : GateStore := mkGateStore ∅ ∅ [] [].
Definition runtime : ViewRuntime := mkViewRuntime Gate.Samples.policy ∅ true true.
Definition ann : Viewer := mkViewer "ann" {["submitter"]}.
Definition bob : Viewer := mkViewer "bob" {["submitter"]}.
Definition rows : list (string * ScanJob) := map_to_list (jobs table).

(** A co-submitter reads the scan; a stranger's attempt is counted, a mistyped id is not. *)
Example co_submitter_reads :
  may_read table bob "s1" ∧ get_scan runtime bob "s3" table gate 0 = (scan_not_found, 1%nat) ∧
  get_scan runtime bob "s9" table gate 0 = (scan_not_found, 0%nat).
Proof. split_and!; [by_compute|vm_compute; reflexivity..]. Qed.

(** Two scans with one [created_at]: a first page read in one order and a second in the
    other never show [s2]. *)
Example pages_can_miss_a_scan :
  let first := page table ann None 1 0 rows in
  let second := page table ann None 1 1 (rev rows) in
  rows ≡ₚ rev rows ∧ may_read table ann "s1" ∧ may_read table ann "s2" ∧ first.*1 = second.*1 ∧ length first = 1%nat.
Proof. split; [apply Permutation_rev|]. split_and!; by_compute. Qed.

Lemma list_pages_are_complete_witness :
  NoDup (pages table ann None 1 rows 2).*1 ∧ (length (page table ann None 900 0 rows) <= 200)%nat.
Proof.
  split.
  - apply (list_pages_are_complete table ann None 1 rows 2); [done|apply Nat.leb_le; vm_compute; reflexivity].
  - apply (list_pages_are_complete table ann None 900 rows 2); [done|apply Nat.leb_le; vm_compute; reflexivity].
Defined.

Lemma list_agrees_with_detail_witness :
  ∃ items item body, list_scans ann None 50 0 rows None table gate = JObj [("items", JList items)] ∧ item ∈ items ∧
    json_get "scan_id" item = Some (JStr "s1") ∧ get_scan runtime ann "s1" table gate 0 = (shown body, 0%nat) ∧
    Forall (λ f, json_get f item = json_get f body ∧ json_get f item ≠ None) SHARED_FIELDS.
Proof.
  apply (list_agrees_with_detail runtime ann None 50 0 rows None table gate 0 "s1" (job_of "ann" 5)); [done|].
  assert (page table ann None 50 0 rows !! 1%nat = Some ("s1", job_of "ann" 5) ∨
          page table ann None 50 0 rows !! 0%nat = Some ("s1", job_of "ann" 5)) as [H|H];
    [vm_compute; tauto|by eapply list_elem_of_lookup_2..].
Defined.

Lemma scan_reads_are_scoped_witness :
  (∃ doc, (get_scan_sarif runtime bob "s1" table 0).1 = shown doc) ∧ may_read table bob "s1".
Proof.
  pose proof (scan_reads_are_scoped runtime bob "s1" table gate 0) as H.
  assert (Hw : ∀ r, results table !! "s1" = Some r → ∃ sr, r = result_row sr).
  { intros r Hr. exists Reviews.ReviewSamples.worrying. vm_compute in Hr. injection Hr as <-. vm_compute. reflexivity. }
  specialize (H Hw). assert (Hm : may_read table bob "s1") by by_compute. split; [|exact Hm].
  destruct (get_scan runtime bob "s1" table gate 0), (get_scan_sarif runtime bob "s1" table 0).
  apply H. split; [exact Hm|reflexivity].
Defined.

Lemma sarif_is_faithful_witness :
  ∃ rules rs ids, get_scan_sarif runtime bob "s1" table 0 =
      (shown (JObj [("$schema", JStr _SARIF_SCHEMA_URI); ("version", JStr _SARIF_VERSION);
         ("runs", JList [JObj [("tool", JObj [("driver", JObj [("name", JStr "skillscan"); ("rules", JList rules)])]);
                               ("results", JList rs)]])]), 0%nat) ∧
    Forall2 sarif_describes (sr_findings Reviews.ReviewSamples.worrying) rs ∧
    map (json_get "id") rules = map (λ r, Some (JStr r)) ids ∧ NoDup ids ∧
    (∀ r, r ∈ ids ↔ ∃ f, f ∈ sr_findings Reviews.ReviewSamples.worrying ∧ rule_id f = r).
Proof.
  apply (sarif_is_faithful runtime bob "s1" table 0 Reviews.ReviewSamples.worrying);
    [apply (bool_decide_unpack _); vm_compute; exact I|reflexivity|vm_compute; reflexivity].
Defined.
End ViewSamples.
