(* ===== verification/GateRoutes.v ===== *)
(** * The gate's routes

    [apps/monolith/modules/gate/router.py] (the allowlist: listing, granting and revoking
    waivers) and the queue of [gate/reviews_router.py].  Granting a waiver composes the
    route's role guard, the hard-gate rule against the policy loaded at that moment, and
    [grant_allowlist_entry] (GateService.v); the queue shows, for each pending review,
    whether a decision on it would still take effect (Reviews.v).  [to_datetime] and
    [isoformat] are the standard library's; ids are the [uuid4] drawn. *)

From S2P Require Import Prelude Float64 Models Gate Json Canonical PolicyDigest Lifecycle Access Inventory GateService Readback Orchestration Reviews Market ScanViews.
From Stdlib Require Import QArith.
Open Scope string_scope.
Open Scope list_scope.
Open Scope Z_scope.

(** ** [gate/router.py] *)

Record _GrantAllowlistBody := mkGrantBody {
  gb_scope_type : string;
  gb_scope_value : string;
  gb_rule_id : string;
  gb_expires_at : pyfloat;
  gb_requested_by : string;
  gb_reason : string;
}.

(** [Field(max_length=128)]. *)
Definition MAX_RULE_ID : nat := 128.

Definition _reader_or_writer : list string := ["approver"; "admin"].
Definition _admin_only : list string := ["admin"].

Inductive RouteReply (A : Type) := route_ok (body : A) | route_error (status : Z).
Arguments route_ok {A} body.
Arguments route_error {A} status.

Section routes.
Variable to_datetime : pyfloat → option Q.
Variable isoformat : Q → string.

Definition _row_to_dict (skill_id_by_content_hash : string → option string) (id : string) (row : AllowlistRow) : json :=
  JObj [("id", JStr id); ("scope_type", JStr (al_scope_type row)); ("scope_value", JStr (al_scope_value row));
        ("resolved_skill_id",
          JOpt (if String.eqb (al_scope_type row) "content_hash" then skill_id_by_content_hash (al_scope_value row) else None));
        ("rule_id", JStr (al_rule_id row)); ("expires_at", JStr (isoformat (al_expires_at row)));
        ("approved_by", JStr (al_approved_by row)); ("requested_by", JStr (al_requested_by row));
        ("reason", JOpt (al_reason row))].

(** [finding.get("rule_id") if isinstance(finding, dict)]. *)
Definition recorded_rule (finding : json) : option string :=
  match json_get "rule_id" finding with Some (JStr r) => Some r | _ => None end.

Definition known_rules (o : OrchStore) : gset string :=
  list_to_set (omap recorded_rule (concat (map (λ kv, sr_row_findings kv.2) (map_to_list (results o))))).

Definition _known_rule_ids (policy : GatePolicy) (o : OrchStore) : list json :=
  map (λ r, JObj [("rule_id", JStr r); ("is_hard_gate", JBool (bool_decide (r ∈ hard_gate_rules policy)))])
    (sorted_set (known_rules o)).

(** The candidates, and the lookup from a version's hash to its skill. *)
Definition _known_skills (inv : option Store) : list json * (string → option string) :=
  match inv with
  | None => ([], λ _, None)
  | Some s =>
      (map (λ id, JObj [("skill_id", JStr id); ("content_hashes", JList (map JStr (versions_of s id).*1))])
         (sorted_set (dom (skills s))),
       skill_id_for_content s)
  end.

Definition active_with_ids (st : GateStore) (now : Q) : list (string * AllowlistRow) :=
  base.filter (λ kv, qlt now (al_expires_at kv.2) = true) (map_to_list (allowlist_rows st)).

Definition list_allowlist (vw : Viewer) (policy : GatePolicy) (now : Q) (inv : option Store) (o : OrchStore) (st : GateStore)
    : RouteReply json :=
  if negb (viewer_has vw _reader_or_writer) then route_error 403 else
  let '(known_skills, by_hash) := _known_skills inv in
  route_ok (JObj
    [("entries", JList (map (λ kv, _row_to_dict by_hash kv.1 kv.2) (active_with_ids st now)));
     ("candidates", JObj [("skills", JList known_skills); ("rule_ids", JList (_known_rule_ids policy o))])]).

(** [granted] is [allowlist_entries_total]. *)
Definition create_allowlist_entry (vw : Viewer) (policy : GatePolicy) (body : _GrantAllowlistBody) (id : string)
    (inv : option Store) (st : GateStore) (granted : nat) : RouteReply json * GateStore * nat :=
  if negb (viewer_has vw _reader_or_writer) then (route_error 403, st, granted)
  else if Nat.ltb MAX_RULE_ID (py_len (gb_rule_id body)) then (route_error 422, st, granted)
  else if bool_decide (gb_rule_id body ∈ hard_gate_rules policy) && negb (viewer_has vw ["admin"])
  then (route_error 403, st, granted)
  else match grant_allowlist_entry to_datetime id (gb_scope_type body) (gb_scope_value body) (gb_rule_id body)
               (gb_expires_at body) (vw_subject vw) (gb_requested_by body) (gb_reason body) st with
       | Err (allowlist_invalid _) => (route_error 400, st, granted)
       | Err _ => (route_error 500, st, granted)
       | Ok (row, st') => (route_ok (_row_to_dict (_known_skills inv).2 id row), st', S granted)
       end.

Definition delete_allowlist_entry (vw : Viewer) (id : string) (st : GateStore) : RouteReply json * GateStore :=
  if negb (viewer_has vw _admin_only) then (route_error 403, st) else
  match revoke_allowlist_entry id (vw_subject vw) st with
  | Err _ => (route_error 404, st)
  | Ok st' => (route_ok (JObj [("id", JStr id); ("status", JStr "revoked")]), st')
  end.

(** ** [gate/reviews_router.py] *)

Variable iso_time : Z → string.

Definition _superseded (inv : option Store) (content_hashes : list string) (content_hash : string) : bool :=
  match inv with
  | None => pending_review_is_superseded None content_hash
  | Some s =>
      let skill_ids := sorted_set (list_to_set (omap (skill_id_for_content s) content_hashes)) in
      let positions := latest_lifecycle_positions s skill_ids in
      let position := skill_id ← (if bool_decide (content_hash ∈ content_hashes) then skill_id_for_content s content_hash else None);
                      positions !! skill_id in
      pending_review_is_superseded position content_hash
  end.

Definition review_item (inv : option Store) (o : OrchStore)
    (attribution : gmap string (list (string * option string * option string) * list string))
    (content_hashes : list string) (v : VerdictRow) : json :=
  JObj ([("scan_id", JStr (v_scan_id v)); ("content_hash", JStr (v_content_hash v)); ("verdict", JStr (v_verdict v));
         ("reasons", JList (map JStr (v_reasons v))); ("issued_at", JStr (iso_time (v_issued_at v)));
         ("skill_id", JOpt (inv ≫= λ s, skill_id_for_content s (v_content_hash v)));
         ("submitter", JOpt (j_submitter <$> jobs o !! v_scan_id v));
         ("superseded", JBool (_superseded inv content_hashes (v_content_hash v)))] ++
        attribution_fields (attribution !! v_scan_id v)).

Definition list_reviews (vw : Viewer) (inv : option Store) (o : OrchStore) (st : GateStore) : RouteReply json :=
  if negb (viewer_has vw _reader_or_writer) then route_error 403 else
  let pending := list_pending_reviews st in
  let attribution := submitter_attribution o (map v_scan_id pending) in
  route_ok (JObj [("scans", JList (map (review_item inv o attribution (map v_content_hash pending)) pending))]).

(** ** Granting *)

Inductive AllowlistCall :=
| call_grant (vw : Viewer) (policy : GatePolicy) (body : _GrantAllowlistBody) (id : string) (inv : option Store)
| call_revoke (vw : Viewer) (id : string).

Definition serve_call (st : GateStore) (c : AllowlistCall) : GateStore :=
  match c with
  | call_grant vw policy body id inv => (create_allowlist_entry vw policy body id inv st 0).1.2
  | call_revoke vw id => (delete_allowlist_entry vw id st).2
  end.

Definition serve_calls : list AllowlistCall → GateStore → GateStore := λ calls st, foldl serve_call st calls.

(** The grant behind a row. *)
Definition granted_by (c : AllowlistCall) (id : string) (r : AllowlistRow) : Prop :=
  ∃ vw policy body inv, c = call_grant vw policy body id inv ∧
    (∃ role, role ∈ ["approver"; "admin"] ∧ role ∈ vw_roles vw) ∧
    (al_rule_id r ∈ hard_gate_rules policy → "admin" ∈ vw_roles vw) ∧
    al_approved_by r = vw_subject vw ∧ al_requested_by r = gb_requested_by body ∧ al_approved_by r ≠ al_requested_by r ∧
    al_rule_id r = gb_rule_id body ∧ (py_len (al_rule_id r) <= MAX_RULE_ID)%nat ∧
    to_datetime (gb_expires_at body) = Some (al_expires_at r).

Lemma grant_route vw policy body id inv st k reply st' k' :
  create_allowlist_entry vw policy body id inv st k = (reply, st', k') →
  (st' = st ∧ k' = k) ∨
  (k' = S k ∧ ∃ r, allowlist_rows st' = <[id := r]> (allowlist_rows st) ∧ granted_by (call_grant vw policy body id inv) id r).
Proof.
  unfold create_allowlist_entry.
  destruct (viewer_has vw _reader_or_writer) eqn:Hw; cbn [negb]; [|intros [= <- <- <-]; by left].
  apply viewer_has_spec in Hw. destruct (Nat.ltb_spec MAX_RULE_ID (py_len (gb_rule_id body))); [intros [= <- <- <-]; by left|].
  case_bool_decide as Hh; cbn [andb]; [destruct (viewer_has vw ["admin"]) eqn:Ha; cbn [negb]; [apply viewer_has_spec in Ha|intros [= <- <- <-]; by left]|];
    unfold grant_allowlist_entry;
    (destruct (AllowlistEntry_new _ _ _ _ _ _ _) eqn:En; [|intros [= <- <- <-]; by left]);
    apply AllowlistEntry_new_iff in En as ((_ & _ & Hne & _) & _ & _);
    (destruct (to_datetime (gb_expires_at body)) eqn:Et; [|intros [= <- <- <-]; by left]);
    intros [= <- <- <-]; right; (split; [done|]); eexists; (split; [reflexivity|]); eexists _, _, _, _; cbn;
    (split; [done|]); (split; [done|]); (split; [set_solver|]); split_and!; done.
Qed.

Lemma revoke_route vw id st :
  let st' := (delete_allowlist_entry vw id st).2 in
  verdicts st' = verdicts st ∧ (allowlist_rows st' = allowlist_rows st ∨ allowlist_rows st' = delete id (allowlist_rows st)).
Proof.
  unfold delete_allowlist_entry, revoke_allowlist_entry. destruct (negb _); cbn; [auto|].
  destruct (allowlist_rows st !! id); cbn; auto.
Qed.

Lemma serve_call_verdicts st c : verdicts (serve_call st c) = verdicts st.
Proof.
  destruct c as [vw policy body id inv|vw id]; [|apply revoke_route]. unfold serve_call, create_allowlist_entry, grant_allowlist_entry.
  repeat (case_match; cbn; try done); by simplify_eq.
Qed.

Lemma serve_call_row st c id r :
  allowlist_rows (serve_call st c) !! id = Some r → allowlist_rows st !! id = Some r ∨ granted_by c id r.
Proof.
  destruct c as [vw policy body id' inv|vw id']; cbn [serve_call].
  - destruct (create_allowlist_entry vw policy body id' inv st 0) as [[reply st'] k] eqn:E. cbn.
    apply grant_route in E as [[-> _]|(_ & r' & -> & Hg)]; [by left|].
    intros [[<- <-]|[_ ?]]%lookup_insert_Some; [by right|by left].
  - destruct (revoke_route vw id' st) as (_ & [->| ->]); [by left|]. intros [_ ?]%lookup_delete_Some. by left.
Qed.

(** C34: Waivers.  After any sequence of calls to the allowlist's routes, under whatever
    policy each found loaded, every waiver in the table was granted in a call by an
    approver or an admin, who is recorded as its approver and is not the person who asked
    for it; its rule id fits the column; and if the rule was a hard gate at that moment,
    an admin granted it.  Nothing but the allowlist changes hands on these routes: the
    verdicts are untouched. *)
Theorem waivers_are_granted_by_the_right_people calls st :
  allowlist_rows st = ∅ →
  verdicts (serve_calls calls st) = verdicts st ∧
  ∀ id r, allowlist_rows (serve_calls calls st) !! id = Some r → ∃ c, c ∈ calls ∧ granted_by c id r.
Proof.
  intros H0. unfold serve_calls. split.
  { clear H0. revert st. induction calls as [|c calls IH]; intros st; [done|]. cbn [foldl]. by rewrite IH, serve_call_verdicts. }
  induction calls as [|c calls IH] using rev_ind; intros id r; [cbn [foldl]; by rewrite H0, lookup_empty|]. rewrite foldl_app. cbn [foldl]. intros Hr.
  destruct (serve_call_row _ _ _ _ Hr) as [Hold|?]; [destruct (IH _ _ Hold) as (c' & Hc & ?)|]; [exists c'|exists c]; set_solver.
Qed.

(** ** The queue *)

Lemma first_by_lookup {A V} (key : A → string) (val : A → V) rows k :
  first_by key val rows !! k = val <$> find (λ r, String.eqb (key r) k) rows.
Proof.
  unfold first_by. assert (∀ m : gmap string V, foldl (λ m r, match m !! key r with Some _ => m | None => <[key r := val r]> m end) m rows !! k =
    match m !! k with Some v => Some v | None => val <$> find (λ r, String.eqb (key r) k) rows end) as ->; [|by rewrite lookup_empty].
  induction rows as [|r rows IH]; intros m; cbn [foldl find]; [by destruct (m !! k)|]. rewrite IH.
  destruct (String.eqb_spec (key r) k) as [<-|Hk].
  - destruct (m !! key r) eqn:E; [by rewrite E|by rewrite lookup_insert_eq].
  - destruct (m !! key r); [done|by rewrite lookup_insert_ne].
Qed.

Lemma find_filter {A} (P : A → Prop) `{!∀ x, Decision (P x)} (f : A → bool) l :
  (∀ x, f x = true → P x) → find f (base.filter P l) = find f l.
Proof.
  intros HP. induction l as [|x l IH]; [done|]. destruct (decide (P x)) as [Hx|Hx].
  - rewrite filter_cons_True by done. cbn [find]. by rewrite IH.
  - rewrite filter_cons_False by done. cbn [find]. destruct (f x) eqn:E; [by apply HP in E|done].
Qed.

(** The batched query finds the position the query for one skill finds. *)
Lemma positions_batched s ids k : k ∈ ids → latest_lifecycle_positions s ids !! k = latest_lifecycle_positions s [k] !! k.
Proof.
  intros Hk. unfold latest_lifecycle_positions. rewrite !first_by_lookup, !find_filter; [done|..];
    intros e ->%String.eqb_eq; set_solver.
Qed.

Lemma superseded_position inv hashes h :
  h ∈ hashes →
  _superseded inv hashes h = pending_review_is_superseded (inv ≫= λ s, lifecycle_position_for_content s h) h.
Proof.
  intros Hh. destruct inv as [s|]; [|done]. cbn [mbind option_bind _superseded]. rewrite bool_decide_eq_true_2 by done.
  unfold lifecycle_position_for_content. destruct (skill_id_for_content s h) as [k|] eqn:E; cbn [mbind option_bind]; [|done].
  rewrite positions_batched; [done|]. rewrite elem_of_sorted_set, elem_of_list_to_set, list_elem_of_omap. eauto.
Qed.

Section queue.
Variable exp64 : Q → Q.
Variable sign_verdict : json → Z → string.
Variable claim_jti : string → string.
Variable validate_finding : json → option FindingDTO.
Context `{coll : Collation}.

(** The queue is honest.  In every reachable state of gate's tables, an approver's
    queue has an entry for each scan whose verdict is REVIEW, and that entry is marked
    superseded exactly when a decision on it — by anyone allowed to make one — would be
    refused because the skill has moved on. *)
Theorem queue_flags_are_honest s vw inv o id v :
  gate_reachable exp64 sign_verdict claim_jti validate_finding to_datetime s →
  (∃ role, role ∈ ["approver"; "admin"] ∧ role ∈ vw_roles vw) →
  verdicts (gs_store s) !! id = Some v → v_verdict v = "REVIEW" →
  ∃ items item,
    list_reviews vw inv o (gs_store s) = route_ok (JObj [("scans", JList items)]) ∧ item ∈ items ∧
    length items = length (list_pending_reviews (gs_store s)) ∧
    json_get "scan_id" item = Some (JStr id) ∧
    ∀ decision reviewer reason policy clock job,
      jobs o !! id = Some job → reviewer ≠ j_submitter job → is_scan_submitter o id reviewer = false →
      decision ∈ ["approve"; "reject"] →
      (json_get "superseded" item = Some (JBool true) ↔
       ∃ state, review_plan exp64 sign_verdict claim_jti validate_finding o inv id decision reviewer reason policy
                  clock (gs_store s) = Err (SupersededReview state)).
Proof.
  intros Hs Hw Hv Hreview. apply gate_reachable_ok in Hs. destruct (go_rows _ _ _ Hs _ _ Hv) as [<- _].
  apply viewer_has_spec in Hw. unfold list_reviews.
  change (viewer_has vw _reader_or_writer = true) in Hw. rewrite Hw. cbn [negb].
  assert (v ∈ list_pending_reviews (gs_store s)) as Hin.
  { unfold list_pending_reviews. rewrite list_elem_of_filter. split; [done|]. apply list_elem_of_fmap.
    exists (v_scan_id v, v). split; [done|]. by apply elem_of_map_to_list. }
  eexists _, (review_item inv o _ (map v_content_hash (list_pending_reviews (gs_store s))) v).
  split; [reflexivity|]. split; [by apply list_elem_of_fmap_2|]. split; [by rewrite length_map|]. split; [done|].
  intros decision reviewer reason policy clock job Hj Hr Hsub Hd.
  change (json_get "superseded" (review_item _ _ _ _ v))
    with (Some (JBool (_superseded inv (map v_content_hash (list_pending_reviews (gs_store s))) (v_content_hash v)))).
  rewrite superseded_position by (by apply list_elem_of_fmap_2).
  unfold review_plan. rewrite Hj, Hsub, Hv, Hreview.
  assert (∃ w, _DECISION_TO_VERDICT decision = Some w) as [w ->]
    by (repeat (apply elem_of_cons in Hd as [->|Hd]; [by eexists|]); by apply elem_of_nil in Hd).
  apply String.eqb_neq in Hr. rewrite Hr. cbn.
  destruct (pending_review_is_superseded _ _); [split; [by eexists|done]|].
  split; [by intros [= ?]|]. intros [state H]. by repeat (case_match; simplify_eq).
Qed.
End queue.
End routes.

(** ** Examples *)

Module RouteSamples.
Import Gate.Samples Reviews.ReviewSamples.

Definition no_gate : GateStore := mkGateStore ∅ ∅ [] [].
Definition ann : Viewer := mkViewer "ann" {["approver"]}.
Definition root : Viewer := mkViewer "root" {["admin"]}.
Definition iso (_ : Q) : string := "".
Definition iso_z (_ : Z) : string := "".
Definition ask (rule : string) : _GrantAllowlistBody := mkGrantBody "rule_global" "" rule (Fin 100) "bob" "".

Definition status {A} (r : RouteReply A) : Z := match r with route_ok _ => 201 | route_error n => n end.
Definition grant (vw : Viewer) (body : _GrantAllowlistBody) : RouteReply json * GateStore * nat :=
  create_allowlist_entry exact iso vw policy body "w" None no_gate 0.

(** Who may grant what. *)
Example grants :
  status (grant ann (ask "net")).1.1 = 201 ∧ status (grant ann (ask "hard")).1.1 = 403 ∧
  status (grant root (ask "hard")).1.1 = 201 ∧ status (grant (mkViewer "bob" {["admin"]}) (ask "net")).1.1 = 400 ∧
  status (grant (mkViewer "eve" {["submitter"]}) (ask "net")).1.1 = 403.
Proof. vm_compute. tauto. Qed.

(** An admin's waiver of a hard gate is recorded, and the gate blocks all the same. *)
Example hard_gate_waiver_is_inert :
  let st := (grant root (ask "hard")).1.2 in
  ∃ entries, list_active_allowlist_entries st 5 = Ok entries ∧ length entries = 1%nat ∧
    verdict [engine "floor" OK [finding "hard" LOW (9#10) false ∅ None]] 5000 INTERNAL entries = BLOCK.
Proof. eexists. split; [vm_compute; reflexivity|]. vm_compute. tauto. Qed.

Definition calls : list AllowlistCall := [call_grant ann policy (ask "net") "w" None; call_grant ann policy (ask "hard") "x" None].

Lemma waivers_are_granted_by_the_right_people_witness :
  allowlist_rows (serve_calls exact iso calls no_gate) !! "x" = None ∧
  ∃ r c, allowlist_rows (serve_calls exact iso calls no_gate) !! "w" = Some r ∧ c ∈ calls ∧ granted_by exact c "w" r.
Proof.
  split; [vm_compute; reflexivity|].
  destruct (allowlist_rows (serve_calls exact iso calls no_gate) !! "w") as [r|] eqn:E; [|by vm_compute in E].
  destruct (proj2 (waivers_are_granted_by_the_right_people exact iso calls no_gate eq_refl) "w" r E) as (c & ? & ?).
  by exists r, c.
Defined.

Lemma queue_flags_are_honest_witness :
  ∃ items item, list_reviews iso_z ann None orch0 reviewing = route_ok (JObj [("scans", JList items)]) ∧ item ∈ items ∧
    json_get "scan_id" item = Some (JStr "s").
Proof.
  destruct (verdicts reviewing !! "s") as [v|] eqn:E; [|by vm_compute in E].
  assert (v_verdict v = "REVIEW") as Hv by (vm_compute in E; by simplify_eq).
  assert (∃ role, role ∈ ["approver"; "admin"] ∧ role ∈ vw_roles ann) as Ha.
  { exists "approver". split; [by left|]. apply (bool_decide_unpack _). vm_compute. exact I. }
  destruct (queue_flags_are_honest exact iso_z exp_step sign jti no_findings (mkGateSystem reviewing []) ann None orch0 "s" v
              reviewing_reachable Ha E Hv) as (items & item & H1 & H2 & _ & H3 & _).
  exists items, item. split; [exact H1|]. split; [exact H2|exact H3].
Defined.
End RouteSamples.
