(* ===== verification/Intel.v ===== *)
(** * Threat intelligence

    [apps/monolith/modules/intel/] (the matcher and its routes), [services/intel_sync/sync.py]
    and the verification of [libs/common/signing.py]: indicators arrive in packages that a
    trusted key has signed or from one internal feed, are only ever added to
    [threat_indicator], and the matcher compares what it extracts from a package with a
    snapshot of that table.  The RSA primitive, the feed's answer, SHA-256, [str.lower],
    [str] of a value that is not text, the character database and the database's
    collation are parameters. *)

From S2P Require Import Prelude Float64 Models Scoring Gate GateSafety Canonical Unpack Adapter Json JsonText PyText JsonRead Regex Package Access Keyword Detectors TextDetectors McpConfig PinnedDns Market ScanViews GateRoutes.
From Stdlib Require Import QArith Ascii.
Open Scope string_scope.
Open Scope list_scope.
Open Scope Z_scope.

(** ** The table *)

(** The column's [Enum("domain", "ip", "md5")]. *)
Inductive IocType := domain | ip_type | md5.

#[export] Instance IocType_eq_dec : EqDecision IocType.
Proof. solve_decision. Defined.
#[export] Instance IocType_countable : Countable IocType.
Proof.
  refine (inj_countable' (λ t, match t with domain => 0 | ip_type => 1 | md5 => 2 end%nat)
            (λ n, match n with 0 => domain | 1 => ip_type | _ => md5 end%nat) _). by intros [].
Defined.

Definition ioc_name (t : IocType) : string := match t with domain => "domain" | ip_type => "ip" | md5 => "md5" end.

Definition _VALID_IOC_TYPES : list IocType := [domain; ip_type; md5].

Record ThreatIndicator := mkThreatIndicator {
  ti_type : IocType;
  ti_value : points;
  ti_source : string;
  ti_imported_at : Q;
}.

Abbreviation Iocs := (gset (IocType * points)).

(** ** [matcher.py] *)

Definition _DOMAIN_RE : string := "\b(?:[a-zA-Z0-9](?:[a-zA-Z0-9-]{0,61}[a-zA-Z0-9])?\.)+[a-zA-Z]{2,}\b".
Definition _IPV4_RE : string := "\b(?:(?:25[0-5]|2[0-4]\d|1?\d?\d)\.){3}(?:25[0-5]|2[0-4]\d|1?\d?\d)\b".
Definition _MD5_RE : string := "\b[a-fA-F0-9]{32}\b".

Definition _EXTRACTORS : list (IocType * string) := [(domain, _DOMAIN_RE); (ip_type, _IPV4_RE); (md5, _MD5_RE)].

Definition _TEST_ITEM_ID_BY_IOC_TYPE (t : IocType) : string :=
  match t with
  | domain => "INTEL-02"
  | ip_type => "INTEL-03"
  | md5 => "INTEL-01"
  end.
Definition _TITLE_BY_IOC_TYPE (t : IocType) : string :=
  match t with
  | domain => "命中已知恶意域名情报"
  | ip_type => "命中已知恶意 IP 情报"
  | md5 => "命中已知恶意文件 MD5 情报"
  end.
Definition _RISK_DESCRIPTION_BY_IOC_TYPE (t : IocType) : string :=
  match t with
  | domain => "该 Skill 内容中出现的域名与本地维护的已知恶意域名情报库精确匹配，通常意味着存在与已知 C2（命令与控制）服务器、钓鱼站点或恶意软件分发站点的关联；这是高置信度的威胁情报命中，而非启发式猜测，建议按事件响应流程处理，而不仅仅是常规审查。"
  | ip_type => "该 Skill 内容中出现的 IP 地址与本地维护的已知恶意 IP 情报库精确匹配，通常意味着存在与已知 C2 服务器、扫描/攻击源或恶意基础设施的关联；这是高置信度的威胁情报命中，而非启发式猜测，建议按事件响应流程处理。"
  | md5 => "该 Skill 内容中出现的文件 MD5 哈希与本地维护的已知恶意文件情报库精确匹配，通常意味着 Skill 包内捆绑或引用了已被确认的恶意软件样本；这是高置信度的威胁情报命中，而非启发式猜测，建议按事件响应流程处理。"
  end.

Definition INTEL_ENGINE_NAME : string := "inhouse-intel-matcher".
Definition INTEL_ENGINE_VERSION : string := "1.0.0".
Definition INTEL_ENGINE_CAPABILITIES : list EngineCapability := [STATIC; THREAT_INTEL].

Section intel.
Variable sha256 : bytes → string.
Variables wide_word wide_digit : Z → bool.
Variable py_lower : points → points.

Definition load_known_iocs (rows : list ThreatIndicator) : Iocs :=
  list_to_set (map (λ row, (ti_type row, py_lower (ti_value row))) rows).

Definition intel_metadata (known_ioc_count : nat) : EngineMetadata :=
  mkEngineMetadata INTEL_ENGINE_NAME INTEL_ENGINE_VERSION
    (sha256 (str_bytes ("threat_indicator:" +:+ decimal (Z.of_nat known_ioc_count)))) INTEL_ENGINE_CAPABILITIES false false true.

Definition intel_finding (path : points) (line_no : Z) (t : IocType) (matched : points) : Finding :=
  mkFinding ("intel.ioc_match_" +:+ ioc_name t) (_TEST_ITEM_ID_BY_IOC_TYPE t) NETWORK_INTEL (_TITLE_BY_IOC_TYPE t) CRITICAL
    (rnd64 (9 # 10)) "inhouse-intel-matcher" THREAT_INTEL {[EXTERNAL_EGRESS]} (Some (text_of path)) (Some line_no)
    (Some (sha256 (encode matched))) (_RISK_DESCRIPTION_BY_IOC_TYPE t).

Definition intel_scan (known : Iocs) (files : Files) : list Finding :=
  f ← files; l ← numbered_lines f.2; e ← _EXTRACTORS;
  matched ← finditer wide_word wide_digit (compiled false e.2) l.2;
  if bool_decide ((e.1, py_lower matched) ∈ known) then [intel_finding f.1 l.1 e.1 matched] else [].

(** [IntelMatcher.analyze]; the deadline is not read. *)
Definition intel_analyze (known : Iocs) (files : Files) : EngineResult :=
  mkEngineResult (intel_metadata (size known)) (intel_scan known files) OK MODE_STATIC false None.

(** ** [intel_sync/sync.py] *)

(** [sync_error] is [IntelSyncError]; [uncaught], an exception that no handler names. *)
Inductive SyncFailure := sync_error | value_error | http_error | uncaught.

(** What [json.loads] raised. *)
Inductive LoadsError := json_decode_error | too_many_digits | recursion_error.

Variable recursion_limit : nat.
Variable raised : points → LoadsError.
(** [str(v)] of a value that is not text, and whether a float is zero. *)
Variable str_other : value → points.
Variable float_is_zero : points → bool.

Definition py_str (v : value) : points := match v with v_str s => s | _ => str_other v end.

Definition truthy (v : value) : bool :=
  match v with
  | v_null => false
  | v_bool b => b
  | v_int n => negb (n =? 0)
  | v_float literal => negb (float_is_zero literal)
  | v_str s => negb (bool_decide (s = []))
  | v_list l => match l with [] => false | _ => true end
  | v_dict d => match d with [] => false | _ => true end
  end.

Definition ioc_of_name (s : points) : option IocType := find (λ t, bool_decide (str_bytes (ioc_name t) = s)) _VALID_IOC_TYPES.

(** [ioc_type in _VALID_IOC_TYPES]: a list or a dict cannot be hashed. *)
Definition entry_type (t : option value) : result SyncFailure IocType :=
  match t with
  | Some (v_str s) => match ioc_of_name s with Some t => Ok t | None => Err sync_error end
  | Some (v_list _) | Some (v_dict _) => Err uncaught
  | _ => Err sync_error
  end.

(** [clock i]: the time when the i-th entry is read. *)
Fixpoint _validate_iocs (source : string) (clock : nat → Q) (iocs : list value) : result SyncFailure (list ThreatIndicator) :=
  match iocs with
  | [] => Ok []
  | entry :: iocs =>
      match entry with
      | v_dict fields =>
          t ← entry_type (get "ioc_type" fields);
          match get "ioc_value" fields with
          | Some v =>
              if truthy v then
                rows ← _validate_iocs source (λ i, clock (S i)) iocs;
                Ok (mkThreatIndicator t (py_lower (py_str v)) source (clock 0%nat) :: rows)
              else Err sync_error
          | None => Err sync_error
          end
      | _ => Err uncaught
      end
  end.

(** The key under which the [UNIQUE (ioc_type, ioc_value)] index files a value. *)
Variable collate : points → points.
(** Whether the columns hold the row; otherwise the statement raises. *)
Variable storable : ThreatIndicator → bool.

Definition duplicate (row row' : ThreatIndicator) : bool :=
  bool_decide (ti_type row = ti_type row') && bool_decide (collate (ti_value row) = collate (ti_value row')).

(** [INSERT ... ON DUPLICATE KEY UPDATE ioc_type = VALUES(ioc_type)], a row at a time. *)
Definition upsert (table : list ThreatIndicator) (row : ThreatIndicator) : list ThreatIndicator :=
  if existsb (duplicate row) table then table else table ++ [row].

Definition _apply_rows (rows table : list ThreatIndicator) : result SyncFailure (list ThreatIndicator) :=
  if forallb storable rows then Ok (foldl upsert table rows) else Err uncaught.

Variable is_internal : string → option bool.
Variable urlparse : string → string * option string.

(** The feed's answer: [None] is an [httpx.HTTPError], otherwise its status and the text
    of its body, [None] where that is not decodable. *)
Definition feed_payload (answer : option (Z * option points)) : result SyncFailure value :=
  match answer with
  | None => Err http_error
  | Some (status, body) =>
      if negb ((200 <=? status) && (status <? 300)) then Err http_error else
      match body with
      | None => Err value_error
      | Some text =>
          match json_loads recursion_limit text with
          | Some v => Ok v
          | None => Err (match raised text with
                         | json_decode_error => sync_error | too_many_digits => value_error | recursion_error => uncaught end)
          end
      end
  end.

Definition sync_from_internal_source (endpoint_url : string) (answers : PinnedDns.Answer * PinnedDns.Answer) (times : Q * Q) (pins : PinState)
    (answer : option (Z * option points)) (clock : nat → Q) (table : list ThreatIndicator)
    : result SyncFailure (list ThreatIndicator) * PinState :=
  match require_internal_endpoint is_internal urlparse endpoint_url answers times pins with
  | (Err _, pins) => (Err value_error, pins)
  | (Ok _, pins) =>
      (payload ← feed_payload answer;
       match payload with
       | v_list iocs => rows ← _validate_iocs ("internal:" +:+ endpoint_url) clock iocs; _apply_rows rows table
       | _ => Err sync_error
       end, pins)
  end.

(** *** [common/signing.py] *)

Variable RSAPublicKey : Type.
(** [key.verify(signature, claim, PSS(MGF1(SHA256()), MAX_LENGTH), SHA256())] returns. *)
Variable rsa_verify : RSAPublicKey → bytes → bytes → bool.
(** [json.dumps] of a float, and its text for everything else. *)
Variable dump_float : points → string.

Definition dump_str (s : points) : string := quote +:+ escape_points s +:+ quote.

Fixpoint dumps (v : value) : string :=
  match v with
  | v_null => "null"
  | v_bool b => if b then "true" else "false"
  | v_int n => decimal n
  | v_float literal => dump_float literal
  | v_str s => dump_str s
  | v_list l => "[" +:+ join "," (map dumps l) +:+ "]"
  | v_dict d =>
      "{" +:+ join "," (map snd (sort_by (le_key points_le fst)
                (map (λ kv, (kv.1, dump_str kv.1 +:+ ":" +:+ dumps kv.2)) d))) +:+ "}"
  end.

Definition canonical_claim_bytes (payload : list (points * value)) (exclude_keys : list string) : bytes :=
  str_bytes (dumps (v_dict (base.filter (λ kv, kv.1 ∉ map str_bytes exclude_keys) payload))).

(** [base64.b64decode(text, validate=True)]: text beyond ASCII is refused. *)
Definition b64decode_points (text : points) : option bytes :=
  if forallb (λ c, (0 <=? c) && (c <? 128)) text then b64decode (map (λ c, ascii_of_N (Z.to_N c)) text) else None.

Definition verify_rsa_pss_signature (public_keys : list RSAPublicKey) (claim : bytes) (signature_b64 : points) : bool :=
  match b64decode_points signature_b64 with
  | None => false
  | Some signature => existsb (λ key, rsa_verify key signature claim) public_keys
  end.

Definition import_offline_package (package_bytes : bytes) (trusted_public_keys : list RSAPublicKey) (source_label : string)
    (clock : nat → Q) (table : list ThreatIndicator) : result SyncFailure (list ThreatIndicator) :=
  match trusted_public_keys with
  | [] => Err sync_error
  | _ =>
      match decode_points package_bytes with
      | None => Err sync_error
      | Some text =>
          match json_loads recursion_limit text with
          | None => Err (match raised text with json_decode_error => sync_error | _ => uncaught end)
          | Some (v_dict payload) =>
              match get "iocs" payload, get "signature" payload with
              | Some iocs, Some signature =>
                  if verify_rsa_pss_signature trusted_public_keys
                       (canonical_claim_bytes payload ["signature"; "signature_alg"]) (py_str signature) then
                    match iocs with
                    | v_list iocs => rows ← _validate_iocs source_label clock iocs; _apply_rows rows table
                    | _ => Err sync_error
                    end
                  else Err sync_error
              | _, _ => Err sync_error
              end
          | Some _ => Err sync_error
          end
      end
  end.

(** One row per source: how many indicators, and the latest import. *)
Definition latest (rows : list ThreatIndicator) : Q :=
  match map ti_imported_at rows with [] => 0 | t :: ts => foldl (λ t u, if qlt t u then u else t) t ts end.

Definition summarize_intel_status (table : list ThreatIndicator) : list (string * nat * Q) :=
  map (λ s, let rows := base.filter (λ r, ti_source r = s) table in (s, length rows, latest rows))
    (remove_dups (map ti_source table)).

(** ** [router.py] *)

Record IntelRuntime := mkIntelRuntime {
  intel_configured : bool;
  trusted_intel_public_keys : list RSAPublicKey;
  sync_endpoint_url : option string;
}.

(** [affected]: the driver's row count. *)
Variable affected : list ThreatIndicator → list ThreatIndicator → Z.
Variable isoformat : Q → string.

Definition intel_admin : list string := ["admin"].

Definition get_intel_status (vw : Viewer) (rt : IntelRuntime) (table : list ThreatIndicator) : RouteReply json :=
  if negb (viewer_has vw intel_admin) then route_error 403
  else if negb (intel_configured rt) then route_error 500
  else route_ok (JObj [("sources", JList (map (λ s,
         JObj [("source", JStr s.1.1); ("indicator_count", JNum (Z.of_nat s.1.2)); ("last_imported_at", JStr (isoformat s.2))])
         (summarize_intel_status table)))]).

(** A failure rolls the transaction back. *)
Definition import_intel_package (vw : Viewer) (rt : IntelRuntime) (package_bytes : bytes) (clock : nat → Q)
    (table : list ThreatIndicator) : RouteReply json * list ThreatIndicator :=
  if negb (viewer_has vw intel_admin) then (route_error 403, table)
  else if negb (intel_configured rt) then (route_error 500, table)
  else match import_offline_package package_bytes (trusted_intel_public_keys rt) ("offline_package:" +:+ vw_subject vw) clock table with
       | Ok table' => (route_ok (JObj [("indicators_applied", JNum (affected table table'))]), table')
       | Err sync_error => (route_error 400, table)
       | Err _ => (route_error 500, table)
       end.

Definition sync_intel_from_internal_source (vw : Viewer) (rt : IntelRuntime) (answers : PinnedDns.Answer * PinnedDns.Answer) (times : Q * Q)
    (pins : PinState) (answer : option (Z * option points)) (clock : nat → Q) (table : list ThreatIndicator)
    : RouteReply json * list ThreatIndicator * PinState :=
  if negb (viewer_has vw intel_admin) then (route_error 403, table, pins)
  else if negb (intel_configured rt) then (route_error 500, table, pins)
  else match sync_endpoint_url rt with
       | None | Some "" => (route_error 500, table, pins)
       | Some endpoint_url =>
           match sync_from_internal_source endpoint_url answers times pins answer clock table with
           | (Ok table', pins) =>
               (route_ok (JObj [("indicators_applied", JNum (affected table table')); ("source", JStr endpoint_url)]), table', pins)
           | (Err uncaught, pins) => (route_error 500, table, pins)
           | (Err _, pins) => (route_error 400, table, pins)
           end
       end.
End intel.

(** ** A hash in a package *)

Section hashes.
Context (sha256 : bytes → string) (wide_word wide_digit : Z → bool) (py_lower : points → points).
Local Abbreviation word := (word wide_word).
Local Abbreviation sem := (sem wide_word wide_digit).

Definition hex_items : list item := [i_range 97 102; i_range 65 70; i_range 48 57].
Definition hex_digit (c : Z) : bool := ((97 <=? c) && (c <=? 102)) || ((65 <=? c) && (c <=? 70)) || ((48 <=? c) && (c <=? 57)).

Definition md5_re : re := r_seq r_bound (r_seq (r_rep (r_set false hex_items) 32 (Some 32%nat)) r_bound).

Lemma md5_compiled : compiled false _MD5_RE = md5_re.
Proof. vm_compute. reflexivity. Qed.

(** A hash of thirty-two hexadecimal digits that is a word of the line. *)
Definition stands_in (x line : points) : Prop :=
  length x = 32%nat ∧ Forall (λ c, hex_digit c = true) x ∧
  ∃ pre post, line = pre ++ x ++ post ∧ head_in word (reverse pre) = false ∧ head_in word post = false.

Lemma hex_set c : in_set wide_word wide_digit false hex_items c = hex_digit c.
Proof. unfold in_set, hex_digit. cbn. by rewrite orb_false_r, orb_assoc. Qed.

Lemma hex_word c : hex_digit c = true → word c = true.
Proof.
  unfold hex_digit, Regex.word, is_letter, is_lower, is_upper. rewrite !orb_true_iff, !andb_true_iff, !Z.leb_le. intros H.
  assert ((c <? 128) = true) as -> by (apply Z.ltb_lt; lia). rewrite !orb_true_iff, !andb_true_iff, !Z.leb_le. lia.
Qed.

Lemma md5_sem b w a :
  sem md5_re b w a ↔ length w = 32%nat ∧ Forall (λ c, hex_digit c = true) w ∧
    boundary wide_word b (w ++ a) = true ∧ boundary wide_word (reverse w ++ b) a = true.
Proof.
  unfold md5_re. split.
  - intros (w0 & w1 & -> & [-> Hb] & (w2 & w3 & -> & (Hl & Hh)%sem_exactly & [-> He])). cbn [app] in *. rewrite app_nil_r in *.
    split_and!; [done| |done|done]. eapply Forall_impl; [exact Hh|]. intros c. cbv beta. by rewrite hex_set.
  - intros (Hl & Hh & Hb & He). exists [], w. split; [done|]. split; [by split|]. exists w, []. rewrite app_nil_r. split; [done|].
    split; [|by split]. apply sem_exactly. split; [done|]. eapply Forall_impl; [exact Hh|]. intros c. cbv beta. by rewrite hex_set.
Qed.

Lemma head_hex w a : w ≠ [] → Forall (λ c, hex_digit c = true) w → head_in word (w ++ a) = true.
Proof. destruct w as [|c w]; [done|]. intros _ [Hc _]%Forall_cons. cbn. by apply hex_word. Qed.

Lemma reverse_nil_ne {A} (l : list A) : reverse l ≠ [] ↔ l ≠ [].
Proof. rewrite <-!length_zero_iff_nil, length_reverse. done. Qed.

(** The extractor yields it: no earlier match runs into it. *)
Lemma md5_extracted x line : stands_in x line → x ∈ finditer wide_word wide_digit md5_re line.
Proof.
  intros (Hl & Hh & pre & post & -> & Hpre & Hpost).
  assert (Hx : x ≠ []) by by intros ->.
  assert (Hrx : head_in word (reverse x ++ reverse pre) = true).
  { apply head_hex; [by rewrite reverse_nil_ne|by rewrite Forall_reverse]. }
  apply finditer_complete; [done| | |].
  - apply md5_sem. unfold boundary. rewrite Hpre, Hpost, head_hex by done. by rewrite Hrx.
  - intros w a E (Hlw & _)%md5_sem. apply app_inj_1 in E as [-> _]; [done|lia].
  - intros s t w a -> Ht E (Hlw & Hhw & _)%md5_sem. apply Nat.nlt_ge. intros Hlt.
    assert (∃ w', w = t ++ w') as [w' ->].
    { exists (drop (length t) w). rewrite <-(take_drop (length t) w) at 1. f_equal.
      rewrite <-(take_app_le w a (length t)) by lia. by rewrite E, take_app_length. }
    apply Forall_app in Hhw as [Hht _]. rewrite reverse_app, head_hex in Hpre; [done|by rewrite reverse_nil_ne|by rewrite Forall_reverse].
Qed.

Lemma known_hash_reported known files path data n line x :
  (path, data) ∈ files → (n, line) ∈ numbered_lines data → stands_in x line → (md5, py_lower x) ∈ known →
  intel_finding sha256 path n md5 x ∈ intel_scan sha256 wide_word wide_digit py_lower known files.
Proof.
  intros Hf Hl Hs Hk. unfold intel_scan. apply list_elem_of_bind. exists (path, data). split; [|done].
  apply list_elem_of_bind. exists (n, line). split; [|done]. apply list_elem_of_bind. exists (md5, _MD5_RE).
  split; [|set_solver]. apply list_elem_of_bind. exists x. cbn [fst snd]. rewrite bool_decide_true by done.
  split; [by left|]. rewrite md5_compiled. by apply md5_extracted.
Qed.
End hashes.

(** ** Imports *)

Section imports.
Context (py_lower : points → points).
Context (recursion_limit : nat) (raised : points → LoadsError) (str_other : value → points) (float_is_zero : points → bool).
Context (collate : points → points) (storable : ThreatIndicator → bool).
Context (is_internal : string → option bool) (urlparse : string → string * option string).
Context (RSAPublicKey : Type) (rsa_verify : RSAPublicKey → bytes → bytes → bool) (dump_float : points → string).
Context (affected : list ThreatIndicator → list ThreatIndicator → Z).

Local Abbreviation validate := (_validate_iocs py_lower str_other float_is_zero).
Local Abbreviation apply_rows := (_apply_rows collate storable).
Local Abbreviation upserts := (foldl (upsert collate)).
Local Abbreviation load := (load_known_iocs py_lower).
Local Abbreviation import := (import_offline_package py_lower recursion_limit raised str_other float_is_zero collate storable
  RSAPublicKey rsa_verify dump_float).
Local Abbreviation import_route := (import_intel_package py_lower recursion_limit raised str_other float_is_zero collate storable
  RSAPublicKey rsa_verify dump_float affected).
Local Abbreviation sync_route := (sync_intel_from_internal_source py_lower recursion_limit raised str_other float_is_zero collate
  storable is_internal urlparse RSAPublicKey affected).

(** *** The upsert *)

Definition key (row : ThreatIndicator) : IocType * points := (ti_type row, collate (ti_value row)).

Lemma duplicate_key row row' : duplicate collate row row' = true ↔ key row = key row'.
Proof. unfold duplicate, key. rewrite andb_true_iff, !bool_decide_eq_true. split; [by intros [-> ->]|by intros [= -> ->]]. Qed.

Lemma upsert_spec table row :
  (key row ∈ map key table ∧ upsert collate table row = table) ∨
  ((key row ∉ map key table) ∧ upsert collate table row = table ++ [row]).
Proof.
  unfold upsert. destruct (existsb _ table) eqn:E.
  - left. split; [|done]. apply existsb_exists in E as (r & Hr & Hd). apply duplicate_key in Hd. rewrite Hd.
    apply list_elem_of_In in Hr. by apply list_elem_of_fmap_2.
  - right. split; [|done]. intros (r & Hk & Hr)%list_elem_of_fmap. apply not_true_iff_false in E. apply E.
    apply existsb_exists. exists r. split; [by apply list_elem_of_In|]. by apply duplicate_key.
Qed.

(** Rows are added at the end, none twice; every key of the import is there. *)
Lemma upserts_spec rows table :
  ∃ added, upserts table rows = table ++ added ∧ added ⊆ rows ∧
    (NoDup (map key table) → NoDup (map key (table ++ added))) ∧ ∀ row, row ∈ rows → key row ∈ map key (table ++ added).
Proof.
  revert table. induction rows as [|row rows IH]; intros table; cbn [foldl].
  { exists []. rewrite app_nil_r. split_and!; [done|set_solver|done|by intros ? ?%elem_of_nil]. }
  destruct (upsert_spec table row) as [[Hin ->]|[Hnin ->]].
  - destruct (IH table) as (added & -> & Hsub & Hnd & Hall). exists added. split_and!; [done|set_solver|done|].
    intros r [->|Hr]%elem_of_cons; [|by apply Hall]. rewrite map_app. apply elem_of_app. by left.
  - destruct (IH (table ++ [row])) as (added & -> & Hsub & Hnd & Hall). exists (row :: added). rewrite <-app_assoc in *. cbn [app] in *.
    split_and!; [done|set_solver| |].
    + intros H. apply Hnd. rewrite map_app. apply NoDup_app. split_and!; [done| |cbn; apply NoDup_singleton].
      intros k Hk ->%list_elem_of_singleton. done.
    + intros r [->|Hr]%elem_of_cons; [|by apply Hall]. rewrite map_app. set_solver.
Qed.

Lemma upserts_nodup rows table : NoDup (map key table) → NoDup (map key (upserts table rows)).
Proof. destruct (upserts_spec rows table) as (added & -> & _ & H & _). done. Qed.

(** *** Calls *)

Inductive IntelCall :=
| call_import (vw : Viewer) (rt : IntelRuntime RSAPublicKey) (package : bytes) (clock : nat → Q)
| call_sync (vw : Viewer) (rt : IntelRuntime RSAPublicKey) (answers : PinnedDns.Answer * PinnedDns.Answer) (times : Q * Q)
    (pins : PinState) (answer : option (Z * option points)) (clock : nat → Q).

Definition serve_intel (table : list ThreatIndicator) (c : IntelCall) : list ThreatIndicator :=
  match c with
  | call_import vw rt package clock => (import_route vw rt package clock table).2
  | call_sync vw rt answers times pins answer clock => (sync_route vw rt answers times pins answer clock table).1.2
  end.

Lemma import_Ok package keys label clock table table' :
  import package keys label clock table = Ok table' →
  ∃ text payload signature sig key iocs rows,
    decode_points package = Some text ∧ json_loads recursion_limit text = Some (v_dict payload) ∧
    get "signature" payload = Some signature ∧ b64decode_points (py_str str_other signature) = Some sig ∧
    key ∈ keys ∧ rsa_verify key sig (canonical_claim_bytes dump_float payload ["signature"; "signature_alg"]) = true ∧
    get "iocs" payload = Some (v_list iocs) ∧ validate label clock iocs = Ok rows ∧
    forallb storable rows = true ∧ table' = upserts table rows.
Proof.
  unfold import_offline_package. destruct keys as [|k0 keys]; [done|]. set (ks := k0 :: keys).
  destruct (decode_points package) as [text|]; [|done]. destruct (json_loads _ text) as [v|] eqn:Hj; [|by destruct (raised text)].
  destruct v as [| | | | | |payload]; try done.
  destruct (get "iocs" payload) as [iocs|] eqn:Hi; [|done]. destruct (get "signature" payload) as [signature|] eqn:Hs; [|done].
  unfold verify_rsa_pss_signature. destruct (b64decode_points _) as [sig|] eqn:Hb; [|done].
  destruct (existsb _ ks) eqn:Hv; [|done]. apply existsb_exists in Hv as (key & Hk%list_elem_of_In & Hv).
  destruct iocs as [| | | | |iocs|]; try done. destruct (validate label clock iocs) as [rows|] eqn:Hr; [|done]. cbn.
  unfold _apply_rows. destruct (forallb storable rows) eqn:Hf; [|done]. intros [= <-].
  exists text, payload, signature, sig, key, iocs, rows. by split_and!.
Qed.

Lemma sync_Ok url answers times pins answer clock table table' pins' :
  sync_from_internal_source py_lower recursion_limit raised str_other float_is_zero collate storable is_internal urlparse
    url answers times pins answer clock table = (Ok table', pins') →
  ∃ rows, table' = upserts table rows.
Proof.
  unfold sync_from_internal_source. destruct (require_internal_endpoint _ _ _ _ _ _) as [[ok|] ?]; intros [= H _].
  destruct (feed_payload _ _ answer) as [v|]; [|done]. destruct v as [| | | | |iocs|]; try done. cbn in H.
  destruct (_validate_iocs _ _ _ _ _ _) as [rows|]; [|done]. cbn in H. unfold _apply_rows in H.
  destruct (forallb storable rows); [|done]. injection H as <-. by exists rows.
Qed.

(** Every call upserts some rows, possibly none. *)
Lemma serve_upserts table c : ∃ rows, serve_intel table c = upserts table rows.
Proof.
  assert (Hno : ∃ rows, table = upserts table rows) by by exists [].
  destruct c as [vw rt package clock|vw rt answers times pins answer clock]; cbn [serve_intel].
  - unfold import_intel_package. destruct (negb _); [done|]. destruct (negb _); [done|].
    destruct (import _ _ _ _ _) as [table'|[]] eqn:E; [|done..]. apply import_Ok in E as (? & ? & ? & ? & ? & ? & rows & E). cbn.
    exists rows. by destruct_and! E.
  - unfold sync_intel_from_internal_source. destruct (negb _); [done|]. destruct (negb _); [done|].
    destruct (sync_endpoint_url _ rt) as [[|]|]; [done| |done].
    destruct (sync_from_internal_source _ _ _ _ _ _ _ _ _ _ _ _ _ _ _ _) as [[table'|[]] pins'] eqn:E; [|done..].
    by apply sync_Ok in E.
Qed.

Lemma serve_all_spec calls table :
  ∃ added, foldl serve_intel table calls = table ++ added ∧
    (NoDup (map key table) → NoDup (map key (table ++ added))).
Proof.
  revert table. induction calls as [|c calls IH]; intros table; cbn [foldl]; [exists []; by rewrite app_nil_r|].
  destruct (serve_upserts table c) as [rows ->]. destruct (upserts_spec rows table) as (added & -> & _ & Hnd & _).
  destruct (IH (table ++ added)) as (added' & -> & Hnd'). exists (added ++ added'). rewrite <-app_assoc in *. auto.
Qed.

(** intelligence only accumulates.  Whatever sequence of imports and syncs the routes
    are asked for, by whom and with whatever bytes, no indicator is changed or lost: the
    table is the old one with rows added at its end, and no two rows share a type and a
    value as the index compares them. *)
Theorem indicators_only_accumulate calls table :
  NoDup (map key table) →
  ∃ added, foldl serve_intel table calls = table ++ added ∧ NoDup (map key (table ++ added)) ∧
           load table ⊆ load (foldl serve_intel table calls).
Proof.
  intros Hnd. destruct (serve_all_spec calls table) as (added & E & H). exists added. split_and!; [done|by apply H|].
  rewrite E. unfold load_known_iocs. rewrite map_app, list_to_set_app. set_solver.
Qed.

Context (sha256 : bytes → string).

(** the digest tells snapshots apart (INV-6/7).  The matcher's ruleset digest hashes
    only the number of indicators, and along the life of the table that is enough: if the
    digest before and after any sequence of imports is the same, so is the snapshot that
    the matcher compares with — or two texts with one digest are known. *)
Theorem digest_tracks_indicators calls table :
  let known := load table in
  let known' := load (foldl serve_intel table calls) in
  em_ruleset_digest (intel_metadata sha256 (size known)) = em_ruleset_digest (intel_metadata sha256 (size known')) →
  known = known' ∨ ∃ a b, a ≠ b ∧ sha256 a = sha256 b.
Proof.
  intros known known' Hd. cbn in Hd. destruct (decide (size known = size known')) as [Hsize|Hsize].
  - left. destruct (serve_all_spec calls table) as (added & E & _). apply leibniz_equiv, set_subseteq_size_equiv; [|lia].
    subst known known'. rewrite E. unfold load_known_iocs. rewrite map_app, list_to_set_app. set_solver.
  - right. eexists _, _. split; [|exact Hd]. intros E%str_bytes_inj. apply Hsize.
    apply (inj (String.append _)) in E. apply decimal_inj in E. lia.
Qed.

(** What an entry of a package says: a known type and a value that is not empty. *)
Definition says (entry : value) (t : IocType) (v : points) : Prop :=
  ∃ fields raw, entry = v_dict fields ∧ get "ioc_type" fields = Some (v_str (str_bytes (ioc_name t))) ∧
    get "ioc_value" fields = Some raw ∧ truthy float_is_zero raw = true ∧ v = py_lower (py_str str_other raw).

Lemma entry_type_name t raw : entry_type raw = Ok t → raw = Some (v_str (str_bytes (ioc_name t))).
Proof.
  unfold entry_type. destruct raw as [[| | | |s| |]|]; try done. unfold ioc_of_name.
  destruct (find _ _) as [t'|] eqn:E; [|done]. intros [= ->]. apply find_some in E as [_ E].
  apply bool_decide_eq_true in E. by rewrite E.
Qed.

(** The rows are the entries, one each and in order. *)
Lemma validate_rows label clock iocs rows :
  validate label clock iocs = Ok rows →
  Forall2 (λ entry row, says entry (ti_type row) (ti_value row) ∧ ti_source row = label) iocs rows.
Proof.
  revert clock rows. induction iocs as [|entry iocs IH]; intros clock rows; cbn [_validate_iocs]; [by intros [= <-]|].
  destruct entry as [| | | | | |fs]; try done. intros (t & Ht%entry_type_name & H)%bind_Ok.
  destruct (get "ioc_value" fs) as [w|] eqn:Ew; [|done]. destruct (truthy _ w) eqn:Ew'; [|done].
  apply bind_Ok in H as (rows' & Hr%IH & [= <-]). constructor; [|done]. split; [|done]. by exists fs, w.
Qed.

(** C26: No indicator without a signature (SEC-UPD-010), and none dropped with one.  A
    package changes the table only when an administrator sends it and its signature verifies,
    under one of the trusted keys, over everything in it but the signature fields.  Then the
    package holds a list of entries, each an object with a known type and a value that is not
    empty; every one of them is in the table afterwards, under its type and its lowered
    value as the index compares values; and the table is the old one with rows added at its
    end, each of which is the type and the lowered value of an entry of this package,
    marked with the administrator who sent it.  Any other reply leaves the table as it was: nothing is
    applied in part. *)
Theorem only_vouched_packages_apply vw rt package clock table reply table' :
  import_route vw rt package clock table = (reply, table') →
  match reply with
  | route_ok _ =>
      "admin" ∈ vw_roles vw ∧
      ∃ text payload signature sig k iocs added,
        decode_points package = Some text ∧ json_loads recursion_limit text = Some (v_dict payload) ∧
        get "signature" payload = Some signature ∧ b64decode_points (py_str str_other signature) = Some sig ∧
        k ∈ trusted_intel_public_keys _ rt ∧
        rsa_verify k sig (canonical_claim_bytes dump_float payload ["signature"; "signature_alg"]) = true ∧
        get "iocs" payload = Some (v_list iocs) ∧ table' = table ++ added ∧
        (∀ entry, entry ∈ iocs → ∃ t v row, says entry t v ∧ row ∈ table' ∧
           ti_type row = t ∧ collate (ti_value row) = collate v) ∧
        (∀ row, row ∈ added → ti_source row = "offline_package:" +:+ vw_subject vw ∧
           ∃ entry, entry ∈ iocs ∧ says entry (ti_type row) (ti_value row))
  | route_error _ => table' = table
  end.
Proof.
  unfold import_intel_package. destruct (viewer_has vw intel_admin) eqn:Hvw; [|by intros [= <- <-]]. cbn [negb].
  destruct (intel_configured _ rt); [|by intros [= <- <-]]. cbn [negb].
  destruct (import _ _ _ _ _) as [t|[]] eqn:E; intros [= <- <-]; [|done..].
  apply import_Ok in E as (text & payload & signature & sig & k & iocs & rows & H1 & H2 & H3 & H4 & H5 & H6 & H7 & Hrows & _ & ->).
  apply viewer_has_spec in Hvw as (role & ->%list_elem_of_singleton & Hrole). split; [done|].
  apply validate_rows in Hrows. destruct (upserts_spec rows table) as (added & E & Hsub & _ & Hall).
  exists text, payload, signature, sig, k, iocs, added. split_and!; try done.
  - intros entry [i Hi]%list_elem_of_lookup. destruct (Forall2_lookup_l _ _ _ _ _ Hrows Hi) as (row & Hr & Hsays & _).
    apply list_elem_of_lookup_2, Hall, list_elem_of_fmap in Hr as (row' & [= Ht Hv] & Hin).
    exists (ti_type row), (ti_value row), row'. rewrite E. by split_and!.
  - intros row [i Hi]%Hsub%list_elem_of_lookup.
    destruct (Forall2_lookup_r _ _ _ _ _ Hrows Hi) as (entry & Hentry & Hsays & Hlabel). split; [done|].
    exists entry. split; [by eapply list_elem_of_lookup_2|done].
Qed.

(** *** From a package to the gate *)

Lemma validate_member label clock iocs rows fields t v :
  validate label clock iocs = Ok rows → v_dict fields ∈ iocs →
  get "ioc_type" fields = Some (v_str (str_bytes (ioc_name t))) → get "ioc_value" fields = Some (v_str v) →
  ∃ row, row ∈ rows ∧ ti_type row = t ∧ ti_value row = py_lower v.
Proof.
  intros Hv Hin Ht Hval. revert clock rows Hv. induction iocs as [|entry iocs IH]; [by apply elem_of_nil in Hin|].
  intros clock rows. cbn [_validate_iocs]. destruct entry as [| | | | | |fs]; try done.
  destruct (entry_type (get "ioc_type" fs)) as [t'|] eqn:Et; [|done]. cbn. destruct (get "ioc_value" fs) as [w|] eqn:Ew; [|done].
  destruct (truthy _ w); [|done]. destruct (validate label _ iocs) as [rows'|] eqn:Er; [|done]. intros [= <-].
  apply elem_of_cons in Hin as [[= <-]|Hin].
  - eexists. split; [by left|]. rewrite Hval in Ew. injection Ew as <-. split; [|done]. cbn. rewrite Ht in Et.
    destruct t; vm_compute in Et; by injection Et.
  - destruct (IH Hin _ _ Er) as (row & Hrow & ? & ?). exists row. split; [by right|done].
Qed.

(** The snapshot of every later table has the entry. *)
Lemma imported_is_known vw rt package clock table body table' calls text payload iocs fields t v :
  import_route vw rt package clock table = (route_ok body, table') →
  decode_points package = Some text → json_loads recursion_limit text = Some (v_dict payload) →
  get "iocs" payload = Some (v_list iocs) → v_dict fields ∈ iocs →
  get "ioc_type" fields = Some (v_str (str_bytes (ioc_name t))) → get "ioc_value" fields = Some (v_str v) →
  (∀ row, row ∈ table' → ti_type row = t → collate (ti_value row) = collate (py_lower v) → ti_value row = py_lower v) →
  (t, py_lower (py_lower v)) ∈ load (foldl serve_intel table' calls).
Proof.
  intros Himp Htext Hjson Hiocs Hin Ht Hv Hcoll. unfold import_intel_package in Himp.
  destruct (negb _); [done|]. destruct (negb _); [done|]. destruct (import _ _ _ _ _) as [t'|[]] eqn:E; simplify_eq.
  apply import_Ok in E as (text' & payload' & _ & _ & _ & iocs' & rows & H1 & H2 & _ & _ & _ & _ & H3 & Hrows & _ & ->).
  simplify_eq. destruct (validate_member _ _ _ _ _ _ _ Hrows Hin Ht Hv) as (row & Hrow & <- & Hval).
  destruct (upserts_spec rows table) as (added & E & _ & _ & Hall). rewrite E in Hcoll |- *.
  apply Hall, list_elem_of_fmap in Hrow as (row' & [= Hk1 Hk2] & Hrow').
  destruct (serve_all_spec calls (table ++ added)) as (more & -> & _).
  unfold load_known_iocs. rewrite map_app, list_to_set_app. apply elem_of_union. left. apply elem_of_list_to_set, list_elem_of_fmap.
  exists row'. split; [|done]. rewrite (Hcoll row') by (done || by rewrite <-Hk2, Hval). by rewrite <-Hk1.
Qed.

Context (wide_word wide_digit : Z → bool).

(** C36: An imported hash stops a package.  Once a package with an MD5 indicator has been
    applied, then after any further imports and syncs, whenever the matcher has run on the
    snapshot of the day and some line of a submitted package contains that hash as a word,
    in whatever case, the verdict is not PASS unless an active waiver names the rule.
    (The index must not have taken another spelling for the hash, and lowering must be
    idempotent on it.) *)
Theorem imported_hash_never_passes vw rt package clock table body table' calls text payload iocs fields v
    exp64 ch rs p t al now mf sid sr files path data n line x :
  import_route vw rt package clock table = (route_ok body, table') →
  decode_points package = Some text → json_loads recursion_limit text = Some (v_dict payload) →
  get "iocs" payload = Some (v_list iocs) → v_dict fields ∈ iocs →
  get "ioc_type" fields = Some (v_str (str_bytes "md5")) → get "ioc_value" fields = Some (v_str v) →
  (∀ row, row ∈ table' → ti_type row = md5 → collate (ti_value row) = collate (py_lower v) → ti_value row = py_lower v) →
  py_lower x = py_lower (py_lower v) →
  intel_analyze sha256 wide_word wide_digit py_lower (load (foldl serve_intel table' calls)) files ∈ rs →
  (path, data) ∈ files → (n, line) ∈ numbered_lines data → stands_in wide_word x line →
  GatePolicy_ok p → Forall Finding_ok (all_findings rs) → aggregate ch rs p 0 mf = Ok sr →
  active_waiver al now ch sid "intel.ioc_match_md5" = false →
  vr_verdict (gate_decide exp64 sr p t al now 0 sid) ≠ PASS.
Proof.
  intros Himp Htext Hjson Hiocs Hin Ht Hv Hcoll Hx Hr Hf Hl Hs Hp Hok Hagg Hw Hpass.
  pose proof (imported_is_known _ _ _ _ _ _ _ calls _ _ _ _ md5 v Himp Htext Hjson Hiocs Hin Ht Hv Hcoll) as Hk. rewrite <-Hx in Hk.
  pose proof (known_hash_reported sha256 _ wide_digit _ _ _ _ _ _ _ _ Hf Hl Hs Hk) as Hfind.
  destruct (passed_finding_below _ _ _ _ _ _ _ _ _ _ (intel_finding sha256 path n md5 x) Hp Hok Hagg Hpass) as [Hb _]; [|done|].
  - apply elem_of_all_findings. eexists. split; [apply elem_of_usable_results; split; [exact Hr|done]|exact Hfind].
  - cbn in Hb. by destruct (block_threshold p t).
Qed.
End imports.

(** ** The status page *)

(** the status page accounts for every indicator.  The counts it shows per source add
    up to the table, and no source is shown twice. *)
Theorem status_accounts_for_all table :
  sum_list (map (λ s, s.1.2) (summarize_intel_status table)) = length table ∧
  NoDup (map (λ s, s.1.1) (summarize_intel_status table)).
Proof.
  unfold summarize_intel_status. rewrite !map_map. cbn [fst snd]. split.
  - apply (counts_add_up ti_source); [apply NoDup_remove_dups|]. intros r Hr. apply elem_of_remove_dups. by apply list_elem_of_fmap_2.
  - rewrite map_id. apply NoDup_remove_dups.
Qed.

(** ** Examples *)

Module IntelSamples.
Import Gate.Samples TextSamples McpSamples.

Definition ascii_lower (s : points) : points := lower s.
Definition text_only (v : value) : points := [].
Definition no_zero (literal : points) : bool := false.
Definition unreadable (text : points) : LoadsError := json_decode_error.
Definition same (s : points) : points := s.
Definition fits (row : ThreatIndicator) : bool := Nat.leb (length (ti_value row)) 255.
(** A key verifies the signatures that repeat its number. *)
Definition verify (key : Z) (signature claim : bytes) : bool := bool_decide (signature = [key]).
Definition dump_literal (literal : points) : string := text_of literal.
Definition count (before after : list ThreatIndicator) : Z := Z.of_nat (length after) - Z.of_nat (length before).
Definition clock0 (i : nat) : Q := 0.
Definition nothing_internal (address : string) : option bool := None.
Definition no_url (url : string) : string * option string := ("", None).

Definition admin : Viewer := mkViewer "root" {["admin"]}.
Definition runtime : IntelRuntime Z := mkIntelRuntime Z true [1; 2] None.

Definition import_with (collate : points → points) (package : string) (table : list ThreatIndicator) :=
  import_intel_package ascii_lower 900 unreadable text_only no_zero collate fits Z verify dump_literal count admin runtime
    (quoted package) clock0 table.
Definition import_it := import_with same.

Definition reply_status (r : RouteReply json) : Z := match r with route_ok _ => 201 | route_error s => s end.

Definition bad_hash : string := "D41D8CD98F00B204E9800998ECF8427E".
Definition hash_package : string :=
  "{'iocs': [{'ioc_type': 'md5', 'ioc_value': '" +:+ bad_hash +:+ "'}], 'signature': 'Ag=='}".

(** Signed by key 2; not signed by either; unsigned; and, signed, with an entry that is
    not an object, which no handler expects. *)
Example replies :
  map (λ p, let r := import_it p [] in (reply_status r.1, length r.2))
    [hash_package; "{'iocs': [], 'signature': 'Aw=='}"; "{'iocs': []}"; "{'iocs': [1], 'signature': 'AQ=='}"] =
  [(201, 1%nat); (400, 0%nat); (400, 0%nat); (500, 0%nat)].
Proof. vm_compute. reflexivity. Qed.

(** Under a collation that ignores accents, as the schema's does, a stored indicator with
    an accent keeps out the one without. *)
Definition unaccented (s : points) : points := (λ c, if c =? 233 then 101 else c) <$> s.
Definition of_domain (d : string) : string :=
  "{'iocs': [{'ioc_type': 'domain', 'ioc_value': '" +:+ d +:+ "'}], 'signature': 'AQ=='}".
Example accent_shadows_an_indicator :
  let table := (import_with unaccented (of_domain "\u00e9vil.com") []).2 in
  let r := import_with unaccented (of_domain "evil.com") table in
  (reply_status r.1, bool_decide ((domain, str_bytes "evil.com") ∈ load_known_iocs ascii_lower r.2)) = (201, false).
Proof. vm_compute. reflexivity. Qed.

(** A known domain is not found under a subdomain or in front of a file's suffix. *)
Definition intel_of (known : Iocs) (ls : list string) : list (string * option Z) :=
  rules_of (intel_scan digest cjk no_digit ascii_lower known [(name, lines ls)]).
Example domains_are_matched_whole :
  let known := {[(domain, str_bytes "evil.com")]} in
  intel_of known ["curl https://EVIL.com/x"; "https://www.evil.com"; "import evil.com.util"] = [("intel.ioc_match_domain", Some 1)].
Proof. vm_compute. reflexivity. Qed.

Definition serve_sample : list ThreatIndicator → IntelCall Z → list ThreatIndicator :=
  serve_intel ascii_lower 900 unreadable text_only no_zero same fits nothing_internal no_url Z verify dump_literal count.

Definition sample_calls : list (IntelCall Z) :=
  [call_import Z admin runtime (quoted hash_package) clock0; call_import Z admin runtime (quoted "{}") clock0].

Lemma indicators_only_accumulate_witness :
  ∃ added, foldl serve_sample [] sample_calls = [] ++ added ∧ NoDup (map (key same) ([] ++ added)).
Proof.
  destruct (indicators_only_accumulate ascii_lower 900 unreadable text_only no_zero same fits nothing_internal no_url Z verify
    dump_literal count sample_calls [] ltac:(constructor)) as (added & H1 & H2 & _).
  exists added. exact (conj H1 H2).
Defined.

Lemma digest_tracks_indicators_witness :
  load_known_iocs ascii_lower [] = load_known_iocs ascii_lower (foldl serve_sample [] [call_import Z admin runtime [] clock0]) ∨
  ∃ a b, a ≠ b ∧ digest a = digest b.
Proof.
  apply (digest_tracks_indicators ascii_lower 900 unreadable text_only no_zero same fits nothing_internal no_url Z verify
    dump_literal count digest [call_import Z admin runtime [] clock0] []). reflexivity.
Defined.

Definition imported : list ThreatIndicator := (import_it hash_package []).2.

Lemma only_vouched_packages_apply_witness :
  ∃ (iocs : list value) added, imported = [] ++ added ∧
    ∀ entry, entry ∈ iocs → ∃ t v, says ascii_lower text_only no_zero entry t v ∧ ∃ row, row ∈ imported ∧ ti_type row = t.
Proof.
  pose proof (only_vouched_packages_apply ascii_lower 900 unreadable text_only no_zero same fits Z verify dump_literal count
    admin runtime (quoted hash_package) clock0 [] (route_ok (JObj [("indicators_applied", JNum 1)])) imported) as H.
  destruct H as (_ & text & payload & signature & sig & k & iocs & added & _ & _ & _ & _ & _ & _ & _ & E & Hall & _).
  { vm_compute. reflexivity. }
  exists iocs, added. split; [exact E|]. intros entry (t & v & row & Hs & Hin & Ht & _)%Hall.
  exists t, v. split; [exact Hs|]. exists row. split; [exact Hin|exact Ht].
Defined.

Definition hash_entry : list (points * value) :=
  [(str_bytes "ioc_type", v_str (str_bytes "md5")); (str_bytes "ioc_value", v_str (str_bytes bad_hash))].
Definition hash_text : points := quoted hash_package.
Definition hash_payload : list (points * value) :=
  [(str_bytes "iocs", v_list [v_dict hash_entry]); (str_bytes "signature", v_str (str_bytes "Ag=="))].
Definition digest64 (b : bytes) : string := "0000000000000000000000000000000000000000000000000000000000000000".
Definition carried : points := str_bytes "d41d8cd98f00b204e9800998ecf8427e".
Definition carrier : Files := [(name, lines ["drop: d41d8cd98f00b204e9800998ecf8427e!"])].
Definition carrier_run : EngineResult :=
  intel_analyze digest64 cjk no_digit ascii_lower (load_known_iocs ascii_lower (foldl serve_sample imported [])) carrier.
Definition carrier_results : list EngineResult := [engine "floor" OK []; carrier_run].
Definition carrier_scan : ScanResult :=
  match aggregate "h" carrier_results policy 0 50 with Ok sr => sr | Err _ => scanned [] 0 end.

Lemma imported_hash_never_passes_witness :
  vr_verdict (gate_decide exp_step carrier_scan policy INTERNAL [] 0 0 None) ≠ PASS.
Proof.
  refine (imported_hash_never_passes ascii_lower 900 unreadable text_only no_zero same fits nothing_internal
    no_url Z verify dump_literal count digest64 cjk no_digit admin runtime (quoted hash_package) clock0 [] (JObj [("indicators_applied", JNum 1)]) imported
    [] hash_text hash_payload [v_dict hash_entry] hash_entry (str_bytes bad_hash)
    exp_step "h" carrier_results policy INTERNAL [] 0 50 None carrier_scan carrier name
    (lines ["drop: d41d8cd98f00b204e9800998ecf8427e!"]) 1 (str_bytes "drop: d41d8cd98f00b204e9800998ecf8427e!") carried
    _ _ _ _ _ _ _ _ _ _ _ _ _ policy_ok _ _ _);
    [vm_compute; reflexivity|vm_compute; reflexivity|vm_compute; reflexivity|reflexivity|by left|reflexivity|reflexivity| |
     vm_compute; reflexivity|right; by left|by left|vm_compute; by left| | |vm_compute; reflexivity|reflexivity].
  - done.
  - split; [reflexivity|]. split; [by repeat constructor|]. exists (str_bytes "drop: "), (str_bytes "!"). by split_and!.
  - change (Forall Finding_ok (all_findings carrier_results)).
    assert (all_findings carrier_results = [intel_finding digest64 name 1 md5 carried]) as -> by (vm_compute; reflexivity).
    constructor; [|constructor]. split_and!; [done|by vm_compute|by vm_compute|done|]. by intros h [= <-].
Defined.
End IntelSamples.
