(* ===== verification/Reports.v ===== *)
(** * Reports: [modules/reporting/service.py] and its routes

    The five templates, all built from the audit ledger (AuditChain.v) or from the fleet's
    configuration, their export as CSV, and the routes of [reporting/router.py].  A time is
    a number of seconds; [isoformat], [date().isoformat()], [str] of a value that is not
    text, the lock file's reading and the rendering of the PDF calls are parameters.  The
    addition of a day to the last day of the calendar, which raises, is not treated. *)

From S2P Require Import Prelude Float64 Json PyText Canonical Access AuditChain GateService Cron WorkerTick Orchestration Market ScanViews GateRoutes.
From Stdlib Require Import QArith Qround Ascii Lqa.
From stdpp Require Import pretty.
Open Scope string_scope.
Open Scope list_scope.
Open Scope Z_scope.

Record Report := mkReport {
  rp_template : string;
  rp_since : option Q;
  rp_until : option Q;
  rp_summary : list (string * json);
  rp_rows : list (list (string * json));
}.

(** [collections.Counter], in order of first appearance. *)
Fixpoint count_in (x : string) (c : list (string * nat)) : list (string * nat) :=
  match c with
  | [] => [(x, 1%nat)]
  | (y, n) :: c => if String.eqb y x then (y, S n) :: c else (y, n) :: count_in x c
  end.
Definition Counter (l : list string) : list (string * nat) := foldl (λ c x, count_in x c) [] l.

Definition counts_json (c : list (string * nat)) : json := JObj (map (λ kv, (kv.1, JNum (Z.of_nat kv.2))) c).

Abbreviation text := (list ascii).

Section reports.
(** [str(v)] of a value that is not text. *)
Variable py_str : json → string.
Variable isoformat : Z → string.
Variable isodate : Z → string.

(** [payload.get(key)], and its [str]. *)
Definition field (key : string) (e : AuditEntry) : json := default JNull (json_get key (ae_payload e)).
Definition str_of (v : json) : string := match v with JStr s => s | JNull => "None" | _ => py_str v end.

(** [since <= chained_at <= until]. *)
Definition in_range (since until : option Q) (e : AuditEntry) : bool :=
  match since with Some s => Qle_bool s (inject_Z (ae_chained_at e)) | None => true end &&
  match until with Some u => Qle_bool (inject_Z (ae_chained_at e)) u | None => true end.

(** The ledger is in [seq] order. *)
Definition _audit_entries (store : AuditStore) (action : string) (since until : option Q) : list AuditEntry :=
  base.filter (λ e, ae_action e = action ∧ in_range since until e = true) (map snd (ledger store)).

Definition build_executive_summary (store : AuditStore) (since until : option Q) : Report :=
  let entries action := _audit_entries store action since until in
  let verdicts := entries "verdict_issued" in
  mkReport "executive_summary" since until
    [("total_verdicts", JNum (Z.of_nat (length verdicts)));
     ("verdict_counts", counts_json (Counter (map (λ e, str_of (field "verdict" e)) verdicts)));
     ("lifecycle_transitions", JNum (Z.of_nat (length (entries "skill_lifecycle_transition"))));
     ("breakglass_activations", JNum (Z.of_nat (length (entries "breakglass_activated"))))]
    (map (λ e, [("scan_id", field "scan_id" e); ("verdict", field "verdict" e); ("policy_version", field "policy_version" e);
                ("occurred_at", JStr (isoformat (ae_chained_at e)))]) verdicts).

(** [rows.sort(key=lambda r: str(r["occurred_at"]))], stable. *)
Definition occurred_at (row : list (string * json)) : string :=
  match json_get "occurred_at" (JObj row) with Some (JStr s) => s | _ => "" end.
Definition by_time (rows : list (list (string * json))) : list (list (string * json)) := sort_by (le_key str_le occurred_at) rows.

Definition decision_row (action_name : string) (e : AuditEntry) : list (string * json) :=
  [("proposal_id", field "proposal_id" e); ("action", JStr action_name); ("operator", JStr (ae_operator e));
   ("occurred_at", JStr (isoformat (ae_chained_at e)))].

Definition build_compliance_status (store : AuditStore) (since until : option Q) : Report :=
  let entries action := _audit_entries store action since until in
  let verdicts := entries "verdict_issued" in
  let proposed := entries "policy_proposed" in
  let approved := entries "policy_approved" in
  let rejected := entries "policy_rejected" in
  mkReport "compliance_status" since until
    [("verdict_counts", counts_json (Counter (map (λ e, str_of (field "verdict" e)) verdicts)));
     ("policy_proposals", JObj [("pending", JNum (Z.of_nat (length proposed) - Z.of_nat (length approved) - Z.of_nat (length rejected)));
                                ("approved", JNum (Z.of_nat (length approved))); ("rejected", JNum (Z.of_nat (length rejected)))]);
     ("engine_changes", JNum (Z.of_nat (length (entries "engine_enabled_changed"))))]
    (by_time (map (decision_row "proposed") proposed ++ map (decision_row "approved") approved ++ map (decision_row "rejected") rejected)).

(** [by_day[day][verdict] += 1]. *)
Definition tally (by_day : gmap string (gmap string nat)) (e : AuditEntry) : gmap string (gmap string nat) :=
  partial_alter (λ o, Some (partial_alter (λ n, Some (S (default 0%nat n))) (str_of (field "verdict" e)) (default ∅ o)))
    (isodate (ae_chained_at e)) by_day.

Definition trend (by_day : gmap string (gmap string nat)) : list (string * string * nat) :=
  day ← sorted_set (dom by_day);
  verdict ← sorted_set (dom (default ∅ (by_day !! day)));
  [(day, verdict, default 0%nat (default ∅ (by_day !! day) !! verdict))].

Definition build_risk_trend (store : AuditStore) (since until : option Q) : Report :=
  let verdicts := _audit_entries store "verdict_issued" since until in
  let by_day := foldl tally ∅ verdicts in
  mkReport "risk_trend" since until
    [("total_verdicts", JNum (Z.of_nat (length verdicts))); ("days_covered", JNum (Z.of_nat (size by_day)))]
    (map (λ r, [("date", JStr r.1.1); ("verdict", JStr r.1.2); ("count", JNum (Z.of_nat r.2))]) (trend by_day)).

Definition exception_row (action_name : string) (e : AuditEntry) : list (string * json) :=
  [("rule_id", field "rule_id" e); ("scope_value", field "scope_value" e); ("action", JStr action_name);
   ("operator", JStr (ae_operator e)); ("occurred_at", JStr (isoformat (ae_chained_at e)))].

Definition build_exception_audit (store : AuditStore) (since until : option Q) : Report :=
  let granted := _audit_entries store "allowlist_granted" since until in
  let revoked := _audit_entries store "allowlist_revoked" since until in
  mkReport "exception_audit" since until
    [("total_granted", JNum (Z.of_nat (length granted))); ("total_revoked", JNum (Z.of_nat (length revoked)))]
    (by_time (map (exception_row "granted") granted ++ map (exception_row "revoked") revoked)).

(** *** Engine coverage *)

(** The lock file: its engines' specifications by key. *)
Abbreviation Lock := (gmap string (list (string * json))).

Definition coverage_row (required disabled : gset string) (lock_key : string) (spec : list (string * json)) : list (string * json) :=
  let flags name s := JBool (bool_decide (name ∈ (s : gset string))) in
  let row name req dis :=
    [("name", JStr name); ("lock_key", JStr lock_key); ("role", default JNull (json_get "role" (JObj spec)));
     ("adapter_status", default (JStr "not_built") (json_get "adapter_status" (JObj spec)));
     ("required", req); ("disabled", dis)] in
  match engine_name_for_lock_key lock_key with
  | Some name => row name (flags name required) (flags name disabled)
  | None => row lock_key JNull JNull
  end.

Definition build_engine_coverage_rows (engines : Lock) (required disabled : gset string) : list (list (string * json)) :=
  map (λ key, coverage_row required disabled key (default [] (engines !! key))) (sorted_set (dom engines)).

(** [engines]: empty when the file is missing or holds no mapping. *)
Definition build_engine_coverage (engines : Lock) (floor disabled : gset string) : Report :=
  let rows := build_engine_coverage_rows engines floor disabled in
  mkReport "engine_coverage" None None
    [("total_engines", JNum (Z.of_nat (size engines))); ("required_floor", JList (map JStr (sorted_set floor)));
     ("currently_disabled", JList (map JStr (sorted_set disabled)));
     ("unmapped_lock_keys", JList (map JStr (base.filter (λ key, engine_name_for_lock_key key = None) (sorted_set (dom engines)))))]
    rows.

(** [None] is [UnknownReportTemplateError]. *)
Definition generate_report (template : string) (store : AuditStore) (engines : Lock) (floor disabled : gset string)
    (since until : option Q) : option Report :=
  if String.eqb template "executive_summary" then Some (build_executive_summary store since until)
  else if String.eqb template "compliance_status" then Some (build_compliance_status store since until)
  else if String.eqb template "risk_trend" then Some (build_risk_trend store since until)
  else if String.eqb template "engine_coverage" then Some (build_engine_coverage engines floor disabled)
  else if String.eqb template "exception_audit" then Some (build_exception_audit store since until)
  else None.

(** ** CSV *)

Definition comma_char : ascii := ",".
Definition quote_char : ascii := ascii_of_nat 34.
Definition cr_char : ascii := ascii_of_nat 13.
Definition lf_char : ascii := ascii_of_nat 10.

(** [csv.QUOTE_MINIMAL] of the default dialect. *)
Definition must_quote (c : ascii) : bool :=
  Ascii.eqb c comma_char || Ascii.eqb c quote_char || Ascii.eqb c cr_char || Ascii.eqb c lf_char.

Fixpoint doubled (s : text) : text :=
  match s with [] => [] | c :: s => if Ascii.eqb c quote_char then c :: c :: doubled s else c :: doubled s end.

Definition write_field (s : text) : text := if existsb must_quote s then quote_char :: doubled s ++ [quote_char] else s.

Fixpoint write_fields (l : list text) : text :=
  match l with [] => [] | [f] => write_field f | f :: l => write_field f ++ comma_char :: write_fields l end.

(** A row of one empty field is quoted. *)
Definition write_row (l : list text) : text :=
  (match l with [[]] => [quote_char; quote_char] | _ => write_fields l end) ++ [cr_char; lf_char].

(** What the writer makes of a value: [None] is empty. *)
Definition cell (v : json) : text :=
  String.list_ascii_of_string (match v with JNull => "" | JStr s => s | _ => py_str v end).

Definition header_of (report : Report) : list string := match rp_rows report with row :: _ => map fst row | [] => [] end.

(** The table that is written: the rows under the keys of the first, or the summary. *)
Definition csv_table (report : Report) : list (list text) :=
  match rp_rows report with
  | [] => map String.list_ascii_of_string ["key"; "value"] :: map (λ kv, [String.list_ascii_of_string kv.1; cell kv.2]) (rp_summary report)
  | rows => map String.list_ascii_of_string (header_of report) ::
            map (λ row, map (λ key, match json_get key (JObj row) with Some v => cell v | None => [] end) (header_of report)) rows
  end.

(** [ValueError] when a row has a key that the first has not. *)
Definition export_csv (report : Report) : option text :=
  if forallb (λ row, forallb (λ kv, bool_decide (kv.1 ∈ header_of report)) row) (rp_rows report)
  then Some (concat (map write_row (csv_table report))) else None.

(** ** PDF *)

Definition _MAX_PDF_ROWS : nat := 500.

(** The calls on the [FPDF] object.  Lines run from the left margin to the next line. *)
Inductive PdfCall :=
  | add_page
  | set_font (style : string) (size : Z)
  | cell_line (height : Z) (text : string)
  | multi_cell_line (height : Z) (text : string)
  | pdf_ln (height : Z).

(** [str] of a date of the range. *)
Variable str_date : Q → string.

Definition joined (texts : list string) : string := String.concat " | " texts.

Definition pdf_title (shown total : nat) : string :=
  "Detail" +:+ if bool_decide (_MAX_PDF_ROWS < total)%nat
               then " (showing " +:+ pretty shown +:+ " of " +:+ pretty total +:+ " rows)" else "".

Definition pdf_detail (rows : list (list (string * json))) : list PdfCall :=
  match rows with
  | [] => []
  | first :: _ =>
      let header := map fst first in
      [set_font "B" 12; cell_line 8 (pdf_title _MAX_PDF_ROWS (length rows)); set_font "" 9; multi_cell_line 5 (joined header)] ++
      map (λ row, multi_cell_line 5 (joined (map (λ k, match json_get k (JObj row) with Some v => str_of v | None => "" end) header)))
          (take _MAX_PDF_ROWS rows)
  end.

Definition pdf_calls (r : Report) : list PdfCall :=
  [add_page; set_font "B" 16; cell_line 10 ("skillscan report: " +:+ rp_template r); set_font "" 10;
   cell_line 8 ("range: " +:+ from_option str_date "all-time" (rp_since r) +:+ " .. " +:+ from_option str_date "now" (rp_until r)); pdf_ln 2;
   set_font "B" 12; cell_line 8 "Summary"; set_font "" 10] ++
  map (λ kv, multi_cell_line 6 (kv.1 +:+ ": " +:+ str_of kv.2)) (rp_summary r) ++ [pdf_ln 2] ++
  pdf_detail (rp_rows r).

(** ** The routes *)

Definition _REPORT_READ_ROLES : list string := ["approver"; "auditor"; "admin"].

Definition DAY : Q := 86400.
Definition midnight (t : Q) : bool := Qeq_bool (inject_Z (Qfloor (t / DAY)) * DAY) t.

(** A bare date means the whole of its day. *)
Definition end_of_day (until : option Q) : option Q :=
  u ← until; Some (if midnight u then u + DAY - (1 # 1000000) else u)%Q.

Variable iso_q : Q → string.
(** [pdf.output()] after the calls. *)
Variable fpdf_output : list PdfCall → string.
Definition export_pdf (r : Report) : string := fpdf_output (pdf_calls r).

Definition _report_to_dict (r : Report) : json :=
  JObj [("template", JStr (rp_template r)); ("since", JOpt (iso_q <$> rp_since r)); ("until", JOpt (iso_q <$> rp_until r));
        ("summary", JObj (rp_summary r)); ("rows", JList (map JObj (rp_rows r)))].

Inductive ReportBody := body_json (j : json) | body_csv (csv : text) | body_pdf (data : string).

Definition get_report (vw : Viewer) (configured : bool) (template export : string) (since until : option Q)
    (store : AuditStore) (engines : Lock) (floor disabled : gset string) : RouteReply ReportBody :=
  if negb (viewer_has vw _REPORT_READ_ROLES) then route_error 403
  else if negb configured then route_error 500
  else match generate_report template store engines floor disabled since (end_of_day until) with
       | None => route_error 400
       | Some report =>
           if String.eqb export "json" then route_ok (body_json (_report_to_dict report))
           else if String.eqb export "csv" then match export_csv report with Some text => route_ok (body_csv text) | None => route_error 500 end
           else if String.eqb export "pdf" then route_ok (body_pdf (export_pdf report))
           else route_error 400
       end.

(** The rows come in the order the database gives them, here the map's. *)
Definition export_sarif_for_scans (o : OrchStore) (ids : list string) : option json :=
  findings_to_sarif (kv ← map_to_list (results o); if bool_decide (kv.1 ∈ ids) then sr_row_findings kv.2 else []).

Definition scan_ids_of (scan_ids : string) : list string :=
  map String.string_of_list_ascii (base.filter (λ s, s ≠ []) (split_char comma_char (String.list_ascii_of_string scan_ids))).

Definition get_report_sarif (vw : Viewer) (configured : bool) (scan_ids : string) (o : OrchStore) : RouteReply json :=
  if negb (viewer_has vw _REPORT_READ_ROLES) then route_error 403
  else if negb configured then route_error 500
  else let ids := scan_ids_of scan_ids in
       if bool_decide (ids = []) then route_error 400
       else match export_sarif_for_scans o ids with Some doc => route_ok doc | None => route_error 500 end.

Definition schedule_admin : list string := ["admin"].

Definition schedule_json (s : ReportScheduleRow) : json :=
  JObj [("id", JNum (rs_id s)); ("template", JStr (rs_template s)); ("cron", JStr (rs_cron s));
        ("targets", JList (map JStr (rs_targets s))); ("created_by", JStr (rs_created_by s)); ("created_at", JStr (isoformat (rs_created_at s)))].

Definition list_report_schedules (vw : Viewer) (configured : bool) (rows : list ReportScheduleRow) : RouteReply json :=
  if negb (viewer_has vw _REPORT_READ_ROLES) then route_error 403
  else if negb configured then route_error 500
  else route_ok (JObj [("schedules", JList (map schedule_json (sort_by (le_key Z.leb rs_id) rows)))]).

Definition create_report_schedule (vw : Viewer) (configured : bool) (template cron : string) (targets : list string)
    (next_id now : Z) (rows : list ReportScheduleRow) : RouteReply json * list ReportScheduleRow :=
  if negb (viewer_has vw schedule_admin) then (route_error 403, rows)
  else if negb configured then (route_error 500, rows)
  else match schedule_report template cron targets (vw_subject vw) next_id now rows with
       | Ok rows' => (route_ok (JObj [("id", JNum next_id); ("template", JStr template); ("cron", JStr cron);
                                      ("targets", JList (map JStr targets)); ("created_by", JStr (vw_subject vw))]), rows')
       | Err _ => (route_error 400, rows)
       end.
End reports.

(** ** Counts *)

Lemma count_in_total x c : sum_list (map snd (count_in x c)) = S (sum_list (map snd c)).
Proof. induction c as [|[y n] c IH]; [done|]. cbn. destruct (String.eqb y x); cbn; [done|]. rewrite IH. unfold id. lia. Qed.

Lemma Counter_total l : sum_list (map snd (Counter l)) = length l.
Proof.
  unfold Counter. assert (∀ c, sum_list (map snd (foldl (λ c x, count_in x c) c l)) = (length l + sum_list (map snd c))%nat) as H.
  { induction l as [|x l IH]; intros c; [done|]. cbn [foldl length]. rewrite IH, count_in_total. lia. }
  rewrite H. cbn. lia.
Qed.

Section trends.
Context (py_str : json → string) (isodate : Z → string).
Local Abbreviation verdict_of := (λ e, str_of py_str (field "verdict" e)).
Local Abbreviation day_of := (λ e, isodate (ae_chained_at e)).
Local Abbreviation tally := (tally py_str isodate).

(** How many entries there are of a day with a verdict. *)
Definition cases (day verdict : string) (es : list AuditEntry) : nat :=
  length (base.filter (λ e, day_of e = day ∧ verdict_of e = verdict) es).

Definition tallied (by_day : gmap string (gmap string nat)) (day verdict : string) : nat :=
  default 0%nat (default ∅ (by_day !! day) !! verdict).

Lemma tallied_tally by_day e day verdict :
  tallied (tally by_day e) day verdict = (tallied by_day day verdict + cases day verdict [e])%nat.
Proof.
  unfold tallied, Reports.tally, cases. rewrite filter_cons. destruct (decide (day_of e = day)) as [<-|Hd].
  - rewrite lookup_partial_alter_eq. cbn [default]. unfold id. destruct (decide (verdict_of e = verdict)) as [<-|Hv].
    + rewrite lookup_partial_alter_eq, decide_True by done. cbn. unfold id. lia.
    + rewrite lookup_partial_alter_ne, decide_False by naive_solver. cbn. lia.
  - rewrite lookup_partial_alter_ne, decide_False by naive_solver. cbn. lia.
Qed.

Lemma tallied_all es day verdict : tallied (foldl tally ∅ es) day verdict = cases day verdict es.
Proof.
  assert (∀ m, tallied (foldl tally m es) day verdict = (tallied m day verdict + cases day verdict es)%nat) as H.
  { induction es as [|e es IH]; intros m; [cbn; lia|]. cbn [foldl]. rewrite IH, tallied_tally. unfold cases. rewrite !filter_cons.
    destruct (decide _); cbn; lia. }
  rewrite H. unfold tallied. by rewrite lookup_empty.
Qed.

Lemma elem_of_trend m day verdict n :
  (day, verdict, n) ∈ trend m ↔ ∃ c, m !! day = Some c ∧ c !! verdict = Some n.
Proof.
  unfold trend. rewrite list_elem_of_bind. setoid_rewrite list_elem_of_bind. setoid_rewrite list_elem_of_singleton.
  setoid_rewrite elem_of_sorted_set. setoid_rewrite elem_of_dom. split.
  - intros (d & (v & [= -> -> ->] & [n0 Hn]) & [c Hc]). rewrite Hc in Hn |- *. cbn in Hn |- *. unfold id in *. exists c. by rewrite Hn.
  - intros (c & Hc & Hn). exists day. split; [|by eexists]. exists verdict. rewrite Hc. cbn. unfold id. rewrite Hn. split; [done|by eexists].
Qed.

Lemma NoDup_sorted_set (x : gset string) : NoDup (sorted_set x).
Proof. unfold sorted_set. rewrite sort_by_perm. apply NoDup_elements. Qed.

Lemma NoDup_trend m : NoDup (map fst (trend m)).
Proof.
  assert (map fst (trend m) = day ← sorted_set (dom m); verdict ← sorted_set (dom (default ∅ (m !! day))); [(day, verdict)]) as ->.
  { unfold trend. rewrite map_bind. apply list_bind_ext; [|done]. intros day. rewrite map_bind. by apply list_bind_ext. }
  apply NoDup_bind; [| |apply NoDup_sorted_set].
  - intros d1 d2 y _ _ H1 H2. apply list_elem_of_bind in H1 as (v1 & ->%list_elem_of_singleton & _).
    by apply list_elem_of_bind in H2 as (v2 & [= -> ->]%list_elem_of_singleton & _).
  - intros d _. apply NoDup_bind; [| |apply NoDup_sorted_set].
    + intros v1 v2 y _ _ ->%list_elem_of_singleton. by intros [= ->]%list_elem_of_singleton.
    + intros v _. apply NoDup_singleton.
Qed.

(** the trend accounts for every verdict.  The rows of the risk trend name each day and
    verdict once, each row counts exactly the ledger entries of that day with that verdict
    in the range, and the counts add up to the total the summary shows. *)
Theorem trend_accounts_for_all store since until :
  let es := _audit_entries store "verdict_issued" since until in
  let rows := trend (foldl tally ∅ es) in
  NoDup (map fst rows) ∧
  (∀ day verdict n, (day, verdict, n) ∈ rows → n = cases day verdict es) ∧
  (∀ e, e ∈ es → ∃ n, (day_of e, verdict_of e, n) ∈ rows) ∧
  sum_list (map snd rows) = length es.
Proof.
  intros es rows. assert (Hrow : ∀ day verdict n, (day, verdict, n) ∈ rows → n = cases day verdict es).
  { intros day verdict n (c & Hc & Hn)%elem_of_trend. rewrite <-tallied_all. unfold tallied. rewrite Hc. cbn. unfold id. by rewrite Hn. }
  assert (Hall : ∀ e, e ∈ es → ∃ n, (day_of e, verdict_of e, n) ∈ rows).
  { intros e He. assert (0 < cases (day_of e) (verdict_of e) es)%nat as Hpos.
    { unfold cases. destruct (base.filter _ es) as [|x l] eqn:E; [|cbn; lia]. exfalso. eapply (filter_nil_not_elem_of _ es e); [exact E|done|done]. }
    rewrite <-tallied_all in Hpos. unfold tallied in Hpos.
    destruct (foldl tally ∅ es !! day_of e) as [c|] eqn:Ec; [|cbn in Hpos; unfold id in Hpos; rewrite lookup_empty in Hpos; cbn in Hpos; lia].
    cbn in Hpos. unfold id in Hpos. destruct (c !! verdict_of e) as [n|] eqn:En; [|cbn in Hpos; lia]. exists n. apply elem_of_trend. by exists c. }
  split_and!; [apply NoDup_trend|done|done|].
  rewrite <-(counts_add_up (λ e, (day_of e, verdict_of e)) es (map fst rows)); [|apply NoDup_trend|].
  - rewrite map_map. f_equal. apply map_ext_in. intros [[day verdict] n] Hin%list_elem_of_In. cbn. rewrite (Hrow _ _ _ Hin).
    unfold cases. f_equal. apply list_filter_iff. intros e. naive_solver.
  - intros e He. destruct (Hall e He) as [n Hn]. by apply (list_elem_of_fmap_2 fst _ _) in Hn.
Qed.
End trends.

(** ** Days *)

(** a bare date covers its day.  With the same midnight as both ends of the range, the
    ledger entries that a report reads are exactly those of that day, the last second
    included and the next midnight not. *)
Theorem bare_date_covers_the_day store action d :
  let day := inject_Z (d * 86400) in
  ∀ e, e ∈ _audit_entries store action (Some day) (end_of_day (Some day)) ↔
       e ∈ map snd (ledger store) ∧ ae_action e = action ∧ d * 86400 <= ae_chained_at e < (d + 1) * 86400.
Proof.
  intros day e. assert (Hm : midnight day = true).
  { unfold midnight, day. apply Qeq_bool_iff.
    assert (inject_Z (d * 86400) / DAY == inject_Z d)%Q as Hd.
    { unfold DAY. rewrite inject_Z_mult. field. }
    rewrite (Qfloor_comp _ _ Hd), Qfloor_Z. unfold DAY. rewrite inject_Z_mult. reflexivity. }
  unfold _audit_entries, end_of_day. cbn [mbind option_bind]. rewrite Hm, list_elem_of_filter. unfold in_range.
  rewrite andb_true_iff, !Qle_bool_iff. unfold day, DAY. rewrite <-Zle_Qle.
  assert ((inject_Z (ae_chained_at e) <= inject_Z (d * 86400) + 86400 - (1 # 1000000))%Q ↔ ae_chained_at e < (d + 1) * 86400) as ->.
  { unfold Qle, Qplus, Qminus, Qopp, inject_Z. cbn. lia. }
  naive_solver.
Qed.

(** ** Reading the export back *)

(** A reader of RFC 4180, as the reference: where it stands in a field, the field and the
    row so far, reversed.  [None] on text that is no CSV. *)
Inductive csv_place := at_start | in_plain | in_quotes | after_quote | after_cr.

Fixpoint read_csv (place : csv_place) (cur : text) (row : list text) (s : text) : option (list (list text)) :=
  match s with
  | [] => match place with at_start => if bool_decide (row = []) then Some [] else None | _ => None end
  | c :: s =>
      let put := match place with
                 | in_quotes => read_csv in_quotes (c :: cur) row s
                 | after_quote => None
                 | _ => read_csv in_plain (c :: cur) row s
                 end in
      match place with
      | after_cr => if Ascii.eqb c lf_char then cons (reverse row) <$> read_csv at_start [] [] s else None
      | in_quotes => if Ascii.eqb c quote_char then read_csv after_quote cur row s else put
      | _ =>
          if Ascii.eqb c comma_char then read_csv at_start [] (reverse cur :: row) s
          else if Ascii.eqb c cr_char then read_csv after_cr [] (reverse cur :: row) s
          else if Ascii.eqb c quote_char then
            match place with
            | at_start => read_csv in_quotes [] row s
            | after_quote => read_csv in_quotes (c :: cur) row s
            | _ => None
            end
          else if Ascii.eqb c lf_char then None else put
      end
  end.

(** A field is read back up to the separator that follows it. *)
Lemma read_quoted f : ∀ cur row rest,
  read_csv in_quotes cur row (doubled f ++ quote_char :: rest) = read_csv after_quote (reverse f ++ cur) row rest.
Proof.
  induction f as [|c f IH]; intros cur row rest; [done|]. rewrite reverse_cons, <-app_assoc. cbn [doubled].
  destruct (Ascii.eqb c quote_char) eqn:Ec; cbn [app read_csv]; rewrite Ec; [|by rewrite IH].
  apply Ascii.eqb_eq in Ec as ->. cbn. by rewrite IH.
Qed.

Lemma read_plain f : ∀ cur row rest, existsb must_quote f = false →
  read_csv in_plain cur row (f ++ rest) = read_csv in_plain (reverse f ++ cur) row rest.
Proof.
  induction f as [|c f IH]; intros cur row rest H; [done|]. cbn [existsb] in H. apply orb_false_iff in H as [Hc H].
  rewrite reverse_cons, <-app_assoc. unfold must_quote in Hc. apply orb_false_iff in Hc as [[[H1 H2]%orb_false_iff H3]%orb_false_iff H4].
  cbn [app read_csv]. rewrite H1, H2, H3, H4. by apply IH.
Qed.

Lemma read_field f row sep rest : sep = comma_char ∨ sep = cr_char →
  read_csv at_start [] row (write_field f ++ sep :: rest) =
  read_csv (if Ascii.eqb sep comma_char then at_start else after_cr) [] (f :: row) rest.
Proof.
  intros Hsep. unfold write_field. destruct (existsb must_quote f) eqn:Ef.
  - cbn [app]. rewrite <-app_assoc. cbn. rewrite read_quoted, app_nil_r. destruct Hsep as [-> | ->]; cbn; by rewrite reverse_involutive.
  - destruct f as [|c f]; [by destruct Hsep as [-> | ->]|]. change (read_csv at_start [] row ((c :: f) ++ sep :: rest) = read_csv (if Ascii.eqb sep comma_char then at_start else after_cr) [] ((c :: f) :: row) rest).
    assert (read_csv at_start [] row ((c :: f) ++ sep :: rest) = read_csv in_plain [] row ((c :: f) ++ sep :: rest)) as ->.
    { cbn [existsb] in Ef. apply orb_false_iff in Ef as [Hc _]. unfold must_quote in Hc.
      apply orb_false_iff in Hc as [[[H1 H2]%orb_false_iff H3]%orb_false_iff H4]. cbn [app read_csv]. by rewrite H1, H2, H3, H4. }
    revert Ef. generalize (c :: f). clear c f. intros f Ef. rewrite read_plain, app_nil_r by done. destruct Hsep as [-> | ->]; cbn; by rewrite reverse_involutive.
Qed.

Lemma read_fields l : ∀ row rest, l ≠ [] →
  read_csv at_start [] row (write_fields l ++ cr_char :: lf_char :: rest) = cons (reverse row ++ l) <$> read_csv at_start [] [] rest.
Proof.
  induction l as [|f l IH]; intros row rest Hl; [done|]. destruct l as [|g l].
  - cbn [write_fields]. rewrite read_field, <-reverse_cons by auto. done.
  - change (write_fields (f :: g :: l)) with (write_field f ++ comma_char :: write_fields (g :: l)). rewrite <-app_assoc.
    cbn [app]. rewrite read_field by auto. cbn [Ascii.eqb]. change (Ascii.eqb comma_char comma_char) with true. cbn iota.
    rewrite IH by done. by rewrite reverse_cons, <-app_assoc.
Qed.

Lemma read_row l rest : l ≠ [] →
  read_csv at_start [] [] (write_row l ++ rest) = cons l <$> read_csv at_start [] [] rest.
Proof.
  intros Hl. unfold write_row. rewrite <-app_assoc. destruct l as [|[|c f] [|g l]]; try done; cbn [app]; by rewrite read_fields.
Qed.

Lemma read_table table : Forall (λ l, l ≠ []) table → read_csv at_start [] [] (concat (map write_row table)) = Some table.
Proof. induction 1 as [|l table Hl _ IH]; [done|]. cbn [map concat]. by rewrite read_row, IH. Qed.

(** The rows of a report share their keys. *)
Definition uniform (hdr : list string) (rows : list (list (string * json))) : Prop :=
  hdr ≠ [] ∧ NoDup hdr ∧ Forall (λ row, map fst row = hdr) rows.

Lemma json_get_cons_eq k v row : json_get k (JObj ((k, v) :: row)) = Some v.
Proof. cbn. by rewrite String.eqb_refl. Qed.

Lemma json_get_cons_ne k k' v row : k ≠ k' → json_get k' (JObj ((k, v) :: row)) = json_get k' (JObj row).
Proof. intros H%String.eqb_neq. cbn. by rewrite H. Qed.

(** A row's cells under its own keys are its values. *)
Lemma cells_of_row {A} (f : json → A) (d : A) row : NoDup (map fst row) →
  map (λ key, match json_get key (JObj row) with Some v => f v | None => d end) (map fst row) = map (f ∘ snd) row.
Proof.
  induction row as [|[k v] row IH]; intros Hnd; [done|]. cbn [map fst] in *. apply NoDup_cons in Hnd as [Hk Hnd].
  rewrite json_get_cons_eq. rewrite <-IH by done. f_equal. apply map_ext_in. intros key Hkey%list_elem_of_In.
  rewrite json_get_cons_ne; [done|]. intros ->. done.
Qed.

Section csv.
Context (py_str : json → string) (isoformat isodate : Z → string).

Lemma uniform_header report hdr : uniform hdr (rp_rows report) → rp_rows report = [] ∨ header_of report = hdr.
Proof. intros (_ & _ & H). unfold header_of. destruct H as [|row rows Hrow _]; auto. Qed.

Lemma uniform_exports report hdr : uniform hdr (rp_rows report) →
  export_csv py_str report = Some (concat (map write_row (csv_table py_str report))).
Proof.
  intros Hu. unfold export_csv. destruct (forallb _ (rp_rows report)) eqn:E; [done|]. exfalso. revert E. apply not_false_iff_true, forallb_forall.
  destruct (uniform_header _ _ Hu) as [-> | Hh]; [done|]. rewrite Hh. destruct Hu as (_ & _ & Hu). rewrite Forall_forall in Hu.
  intros row Hrow%list_elem_of_In. apply forallb_forall. intros kv Hkv. apply bool_decide_eq_true. rewrite <-(Hu row Hrow). apply list_elem_of_In, in_map. done.
Qed.

Lemma uniform_table report hdr : uniform hdr (rp_rows report) → rp_rows report ≠ [] →
  csv_table py_str report =
  map String.list_ascii_of_string hdr :: map (λ row, map (λ kv, cell py_str kv.2) row) (rp_rows report).
Proof.
  intros Hu Hne. destruct (uniform_header _ _ Hu) as [?|Hh]; [done|]. unfold csv_table. rewrite Hh.
  destruct (rp_rows report) as [|r rows] eqn:Er; [done|]. f_equal. destruct Hu as (_ & Hnd & Hu). apply map_ext_in.
  intros row Hrow%list_elem_of_In. rewrite Forall_forall in Hu. rewrite <-(Hu row Hrow) in *. by apply cells_of_row.
Qed.

Lemma uniform_reads_back report hdr : uniform hdr (rp_rows report) →
  read_csv at_start [] [] (concat (map write_row (csv_table py_str report))) = Some (csv_table py_str report).
Proof.
  intros Hu. apply read_table. unfold csv_table. destruct (uniform_header _ _ Hu) as [-> | Hh].
  - constructor; [done|]. apply Forall_forall. intros l (kv & -> & _)%list_elem_of_fmap. done.
  - rewrite Hh. destruct Hu as (Hne & _ & _). destruct (rp_rows report) as [|row rows]; (constructor; [by destruct hdr|]);
      apply Forall_forall; intros l Hl; apply list_elem_of_fmap in Hl as (? & -> & _); [done|]. by destruct hdr.
Qed.

Lemma uniform_map {A} (f : A → list (string * json)) hdr (l : list A) :
  hdr ≠ [] → NoDup hdr → (∀ x, map fst (f x) = hdr) → uniform hdr (map f l).
Proof. intros ?? H. split_and!; [done..|]. apply Forall_forall. intros row (x & -> & _)%list_elem_of_fmap. apply H. Qed.

Lemma uniform_app hdr l k : uniform hdr l → uniform hdr k → uniform hdr (l ++ k).
Proof. intros (? & ? & ?) (_ & _ & ?). split_and!; [done..|]. by apply Forall_app. Qed.

Lemma uniform_by_time hdr l : uniform hdr l → uniform hdr (by_time l).
Proof. intros (? & ? & ?). split_and!; [done..|]. unfold by_time. by rewrite sort_by_perm. Qed.

Local Ltac columns hdr :=
  exists hdr; repeat first [apply uniform_by_time|apply uniform_app];
  (apply uniform_map; [done|apply (bool_decide_unpack _); vm_compute; exact I|try (intros; reflexivity)]).

(** Each template has its columns. *)
Lemma generated_is_uniform template store engines floor disabled since until report :
  generate_report py_str isoformat isodate template store engines floor disabled since until = Some report →
  ∃ hdr, uniform hdr (rp_rows report).
Proof.
  unfold generate_report. intros H. repeat (case_match; simplify_eq; cbn [rp_rows build_executive_summary build_compliance_status build_risk_trend build_engine_coverage build_exception_audit]).
  - columns ["scan_id"; "verdict"; "policy_version"; "occurred_at"].
  - columns ["proposal_id"; "action"; "operator"; "occurred_at"].
  - columns ["date"; "verdict"; "count"].
  - columns ["name"; "lock_key"; "role"; "adapter_status"; "required"; "disabled"]. intros key. unfold coverage_row.
    by destruct (engine_name_for_lock_key key).
  - columns ["rule_id"; "scope_value"; "action"; "operator"; "occurred_at"].
Qed.

(** C37: An exported report reads back.  Every report the templates build is exported as CSV
    without an error, and a reader of the format gets back exactly the table: the columns
    of the template and one row per row of the report with the same cells, or the summary's
    lines when there are no rows, whatever commas, quotes and line ends the values hold. *)
Theorem exported_report_reads_back template store engines floor disabled since until report :
  generate_report py_str isoformat isodate template store engines floor disabled since until = Some report →
  ∃ text, export_csv py_str report = Some text ∧
    read_csv at_start [] [] text = Some
      match rp_rows report with
      | [] => map String.list_ascii_of_string ["key"; "value"] :: map (λ kv, [String.list_ascii_of_string kv.1; cell py_str kv.2]) (rp_summary report)
      | row :: _ => map String.list_ascii_of_string (map fst row) :: map (λ row, map (λ kv, cell py_str kv.2) row) (rp_rows report)
      end.
Proof.
  intros [hdr Hu]%generated_is_uniform. eexists. split; [by eapply uniform_exports|]. rewrite (uniform_reads_back _ _ Hu). f_equal.
  destruct (rp_rows report) as [|row rows] eqn:Er; [unfold csv_table; by rewrite Er|].
  rewrite (uniform_table report hdr), Er; [|by rewrite Er|by rewrite Er]. f_equal. f_equal. destruct Hu as (_ & _ & Hu). by inversion Hu.
Qed.
End csv.

(** ** The waivers in the exception audit *)

(** a granted waiver is reported.  Granting a waiver leaves an audit intent; a ledger
    entry that carries it, in the range of the report, is a row of the exception audit with
    the waived rule, its scope, and the approver as the operator. *)
Theorem granted_waiver_is_reported to_datetime isoformat id sty sv rule ex ap rq re st row st' store since until e i :
  grant_allowlist_entry to_datetime id sty sv rule ex ap rq re st = Ok (row, st') →
  gate_intents st' = i :: gate_intents st →
  e ∈ map snd (ledger store) → in_range since until e = true →
  ae_operator e = ai_operator i → ae_action e = ai_action i → ae_payload e = ai_payload i →
  [("rule_id", JStr (al_rule_id row)); ("scope_value", JStr (al_scope_value row)); ("action", JStr "granted");
   ("operator", JStr (al_approved_by row)); ("occurred_at", JStr (isoformat (ae_chained_at e)))]
  ∈ rp_rows (build_exception_audit isoformat store since until).
Proof.
  unfold grant_allowlist_entry. intros Hg Hi He Hr Hop Hact Hpay. repeat case_match; simplify_eq. cbn in Hi. simplify_eq.
  cbn [rp_rows build_exception_audit]. unfold by_time. rewrite sort_by_perm. apply elem_of_app. left.
  apply list_elem_of_fmap. exists e. split.
  - unfold exception_row, field. rewrite Hop, Hpay. reflexivity.
  - by apply list_elem_of_filter.
Qed.

(** ** No silent cap *)

Lemma pdf_title_capped n : (_MAX_PDF_ROWS < n)%nat → pdf_title _MAX_PDF_ROWS n = "Detail (showing 500 of " +:+ pretty n +:+ " rows)".
Proof. intros H. unfold pdf_title. by rewrite bool_decide_eq_true_2. Qed.

(** the PDF's cap is announced.  Either every row of the report is a line of the PDF, or
    its first 500 are and the heading says how many there were. *)
Theorem pdf_cap_is_announced py_str str_date r :
  let line := λ row, multi_cell_line 5 (joined (map (λ k, match json_get k (JObj row) with Some v => str_of py_str v | None => "" end) (header_of r))) in
  let shown := take _MAX_PDF_ROWS (rp_rows r) in
  (∀ row, row ∈ shown → line row ∈ pdf_calls py_str str_date r) ∧
  (shown = rp_rows r ∨
   cell_line 8 ("Detail (showing 500 of " +:+ pretty (length (rp_rows r)) +:+ " rows)") ∈ pdf_calls py_str str_date r).
Proof.
  intros line shown. unfold pdf_calls, pdf_detail. unfold line, shown, header_of in *. destruct (rp_rows r) as [|first rows]; [split; [intros row Hrow; by rewrite take_nil, elem_of_nil in Hrow|by left]|].
  split.
  - intros row Hrow. do 4 (apply elem_of_app; right). by apply (list_elem_of_fmap_2' _ _ row).
  - destruct (decide (_MAX_PDF_ROWS < length (first :: rows))%nat) as [Hlt|Hge]; [right|left; apply take_ge; lia].
    do 3 (apply elem_of_app; right). apply elem_of_app. left. rewrite <-pdf_title_capped by done. right. left.
Qed.

(** ** Instances *)

Module ReportSamples.
Definition show (v : json) : string := match v with JBool true => "True" | JBool false => "False" | JNum n => pretty n | _ => "{}" end.
Definition shown_time (t : Z) : string := pretty t.
Definition shown_day (t : Z) : string := pretty (t / 86400).

Definition entry (action operator : string) (payload : list (string * json)) (t : Z) : AuditEntry :=
  mkAuditEntry "" "" operator action (JObj payload) t.
Definition book : AuditStore :=
  mkAuditStore
    [(1, entry "verdict_issued" "gate" [("scan_id", JStr "s1"); ("verdict", JStr "PASS"); ("policy_version", JStr "v,1")] 86399);
     (2, entry "policy_proposed" "ann" [("proposal_id", JStr "p1")] 86399);
     (3, entry "verdict_issued" "gate" [("scan_id", JStr "s2"); ("verdict", JStr "BLOCK"); ("policy_version", JStr "v1")] 86400);
     (4, entry "policy_approved" "bob" [("proposal_id", JStr "p1")] 86400)] ∅ 5.

Abbreviation generate := (λ template since until, generate_report show shown_time shown_day template book ∅ ∅ ∅ since until).

(** The executive summary of the sample ledger holds a comma, which is quoted and read back. *)
Lemma exported_report_reads_back_witness :
  ∃ report text, generate "executive_summary" None None = Some report ∧ export_csv show report = Some text ∧
    read_csv at_start [] [] text =
    Some (map (map String.list_ascii_of_string)
      [["scan_id"; "verdict"; "policy_version"; "occurred_at"]; ["s1"; "PASS"; "v,1"; "86399"]; ["s2"; "BLOCK"; "v1"; "86400"]]).
Proof.
  destruct (exported_report_reads_back show shown_time shown_day "executive_summary" book ∅ ∅ ∅ None None _ eq_refl) as (text & H1 & H2).
  eexists _, text. split; [reflexivity|]. split; [exact H1|]. rewrite H2. vm_compute. reflexivity.
Defined.

(** A grant, chained and reported. *)
Definition no_gate : GateStore := mkGateStore ∅ ∅ [] [].
Definition chained : AuditStore :=
  mkAuditStore [(1, entry "allowlist_granted" "bob" [("allowlist_id", JStr "w1"); ("scope_type", JStr "content_hash"); ("scope_value", JStr "*");
                                                    ("rule_id", JStr "r1"); ("requested_by", JStr "ann")] 7)] ∅ 2.

Lemma granted_waiver_is_reported_witness :
  [("rule_id", JStr "r1"); ("scope_value", JStr "*"); ("action", JStr "granted"); ("operator", JStr "bob"); ("occurred_at", JStr "7")]
  ∈ rp_rows (build_exception_audit shown_time chained None None).
Proof.
  apply (granted_waiver_is_reported (λ _, Some 99%Q) shown_time "w1" "content_hash" "*" "r1" (Fin 99%Q) "bob" "ann" "why" no_gate _ _ chained None None
           (entry "allowlist_granted" "bob" [("allowlist_id", JStr "w1"); ("scope_type", JStr "content_hash"); ("scope_value", JStr "*");
                                                    ("rule_id", JStr "r1"); ("requested_by", JStr "ann")] 7) _ eq_refl eq_refl).
  all: try reflexivity. by apply list_elem_of_singleton.
Defined.

(** Two verdicts of two days. *)
Example trend_of_the_book :
  generate "risk_trend" None None =
  Some (mkReport "risk_trend" None None [("total_verdicts", JNum 2); ("days_covered", JNum 2)]
    [[("date", JStr "0"); ("verdict", JStr "PASS"); ("count", JNum 1)]; [("date", JStr "1"); ("verdict", JStr "BLOCK"); ("count", JNum 1)]]).
Proof. vm_compute. reflexivity. Qed.

(** A range that holds an approval and not the proposal it answers counts fewer than none
    pending. *)
Example pending_can_be_negative :
  rp_summary <$> generate "compliance_status" (Some 86400%Q) (end_of_day (Some 86400%Q)) =
  Some [("verdict_counts", JObj [("BLOCK", JNum 1)]);
        ("policy_proposals", JObj [("pending", JNum (-1)); ("approved", JNum 1); ("rejected", JNum 0)]);
        ("engine_changes", JNum 0)].
Proof. vm_compute. reflexivity. Qed.

(** The engine coverage of a lock file with a key that has no runtime name. *)
Example unmapped_key_is_unknown :
  rp_rows (build_engine_coverage {[ "ghost" := [("role", JStr "sast")] ]} ∅ ∅) =
  [[("name", JStr "ghost"); ("lock_key", JStr "ghost"); ("role", JStr "sast"); ("adapter_status", JStr "not_built");
    ("required", JNull); ("disabled", JNull)]].
Proof. vm_compute. reflexivity. Qed.
End ReportSamples.
