(* ===== verification/Submit.v ===== *)
(** * The two submission doors

    [gateway/router.create_scan] (the console) and
    [marketplace_api/router.submit_marketplace_scan], whole: the upload unpacked
    and hashed, the inventory pre-flight, [submit_scan] in its own transaction,
    then the registration and the lifecycle entry in the inventory's transaction.
    A handler is run alone here, so the pre-flight and the writing transaction
    read the same inventory; the interleaved transactions are [Worker]'s. *)

From S2P Require Import Prelude Float64 Models Json Canonical PolicyDigest Lifecycle Unpack Package Inventory Readback GateService Orchestration EngineHealth Worker.
From Stdlib Require Import QArith.
Open Scope string_scope.
Open Scope list_scope.
Open Scope Z_scope.

(** What the handlers read of [ScanRuntime]. *)
Record SubmitRuntime := mkSubmitRuntime {
  sr_policy : GatePolicy;
  sr_default_trust_tier : TrustTier;
  sr_inventory_configured : bool;
  sr_disabled : gset string;
  sr_engine_metadatas : list EngineMetadata;
  sr_scan_deadline_s : Z;
}.

Record Submitter := mkSubmitter {
  su_subject : string;
  su_admin : bool;
  su_tier : TrustTier;
  su_scopes : list string;
}.

(** [202], an [HTTPException], or an exception nothing handles. *)
Inductive SubmitReply :=
| submitted (scan_id : string)
| rejected_with (status_code : Z)
| unhandled.

(** Everything a submission can write. *)
Record Doors := mkDoors {
  dr_world : World;
  dr_inventory : Store;
  dr_cross_scope_attempts : nat;
}.

Definition count_cross_scope (d : Doors) : Doors :=
  mkDoors (dr_world d) (dr_inventory d) (S (dr_cross_scope_attempts d)).

Definition _SUBMIT_SCOPE : string := "scan:submit".

Section submit.
Context `{TarFormat, ZipFormat}.
Variable nfc : points → points.
Variable sha256 : bytes → string.
Variable repr_str : string → string.
Variable repr_float : Q → string.
Variable parse_frontmatter : bytes → option (list (string * json)).

(** [submit_scan] with the packing and the name parser of its own module. *)
Definition submit_scan' : list Entry → string → list EngineMetadata → GatePolicy → TrustTier → SubmissionChannel →
    TrustTier → Z → string → Z → World → result PipelineError (string * World) :=
  submit_scan nfc sha256 repr_str repr_float _pack_tar (_parse_skill_name parse_frontmatter).

(** The refusals checked before anything is written, and the tier the submission
    is judged at. *)
Definition preflight (skill_id c_hash subject : string) (admin : bool) (tier : TrustTier) (inv : Store)
    : result Z TrustTier :=
  tier ← match get_registered_skill inv skill_id with
         | None => Ok tier
         | Some registered =>
             match authorize_skill_write (rs_owner registered) subject admin with
             | Err _ => Err 403
             | Ok _ => Ok (default PUBLIC (tier_of_value (rs_trust_tier registered)))
             end
         end;
  _ ← guard_err (match skill_id_for_content inv c_hash with Some owner => String.eqb owner skill_id | None => true end) 409;
  _ ← lift_err (λ _, 409) (validate_transition (current_state inv skill_id) "submitted");
  Ok tier.

(** The status code of an inventory refusal inside the writing transaction. *)
Definition refusal_code (e : InventoryError) : option Z :=
  match e with
  | ownership _ => Some 403
  | content_registered_to_another_skill _ => Some 409
  | invalid_transition _ => Some 409
  | _ => None
  end.

(** [register_skill_version] and [transition_skill], in one transaction. *)
Definition enter_lifecycle (source skill_id c_hash t_digest : string) (tier : TrustTier) (declared : json)
    (subject : string) (admin : bool) (scan_id : string) (now : Z) (inv : Store) : result InventoryError Store :=
  inv1 ← register_skill_version skill_id source (tier_value tier) c_hash t_digest declared subject admin None now inv;
  transition_skill skill_id "scanning" ("scan " +:+ scan_id +:+ " submitted") subject (Some c_hash) (Some scan_id) now inv1.

(** From [submit_scan] to the reply; [skill] is the skill to register, if any. *)
Definition commit_submission (rt : SubmitRuntime) (who : Submitter) (channel : SubmissionChannel) (source : string)
    (skill : option string) (admin : bool) (tier : TrustTier) (files : list Entry) (c_hash new_id : string) (now : Z)
    (d : Doors) : SubmitReply * Doors :=
  let enabled := filter_enabled_engines (sr_disabled rt) (sr_engine_metadatas rt) in
  match submit_scan' files (su_subject who) enabled (sr_policy rt) tier channel tier (sr_scan_deadline_s rt) new_id now (dr_world d) with
  | Err _ => (unhandled, d)
  | Ok (scan_id, w) =>
      let d' := mkDoors w (dr_inventory d) (dr_cross_scope_attempts d) in
      match skill with
      | None => (submitted scan_id, d')
      | Some skill_id =>
          match toolchain_digest sha256 enabled (cache_policy_version repr_str (λ _, repr_float) sha256 (λ _, false) (sr_policy rt)) "none" with
          | Err _ => (unhandled, d')
          | Ok t_digest =>
              match enter_lifecycle source skill_id c_hash t_digest tier (declared_perms_of parse_frontmatter files)
                      (su_subject who) admin scan_id now (dr_inventory d) with
              | Ok inv => (submitted scan_id, mkDoors w inv (dr_cross_scope_attempts d))
              | Err e =>
                  match refusal_code e with
                  | Some 403 => (rejected_with 403, count_cross_scope d')
                  | Some code => (rejected_with code, d')
                  | None => (unhandled, d')
                  end
              end
          end
      end
  end.

(** [POST /v1/scans]. *)
Definition create_scan (rt : SubmitRuntime) (who : Submitter) (raw : bytes) (skill_id trust_tier : option string)
    (new_id : string) (now : Z) (d : Doors) : SubmitReply * Doors :=
  match match trust_tier with None => Some (sr_default_trust_tier rt) | Some t => tier_of_value t end with
  | None => (rejected_with 400, d)
  | Some tier =>
      match unpack_package_archive raw with
      | Err (Rejected _) => (rejected_with 400, d)
      | Err Raised => (unhandled, d)
      | Ok files =>
          match content_hash nfc sha256 files with
          | Err _ => (unhandled, d)
          | Ok c_hash =>
              match skill_id with
              | None | Some "" =>
                  commit_submission rt who CONSOLE "web-upload" None (su_admin who) tier files c_hash new_id now d
              | Some skill_id =>
                  if negb (sr_inventory_configured rt) then (rejected_with 503, d) else
                  match preflight skill_id c_hash (su_subject who) (su_admin who) tier (dr_inventory d) with
                  | Err 403 => (rejected_with 403, count_cross_scope d)
                  | Err code => (rejected_with code, d)
                  | Ok tier =>
                      commit_submission rt who CONSOLE "web-upload" (Some skill_id) (su_admin who) tier files c_hash new_id now d
                  end
              end
          end
      end
  end.

(** [POST /v1/market/scans], after the rate limit; [tier_supplied] when the form
    or the query string names a tier. *)
Definition submit_marketplace_scan (rt : SubmitRuntime) (who : Submitter) (raw : bytes) (skill_id : string)
    (tier_supplied : bool) (new_id : string) (now : Z) (d : Doors) : SubmitReply * Doors :=
  if negb (bool_decide (_SUBMIT_SCOPE ∈ su_scopes who)) then (rejected_with 403, d) else
  let skill_id := strip skill_id in
  if String.eqb skill_id "" then (rejected_with 400, d) else
  if negb (sr_inventory_configured rt) then (rejected_with 503, d) else
  if tier_supplied then (rejected_with 400, d) else
  match unpack_package_archive raw with
  | Err (Rejected _) => (rejected_with 400, d)
  | Err Raised => (unhandled, d)
  | Ok files =>
      match content_hash nfc sha256 files with
      | Err _ => (unhandled, d)
      | Ok c_hash =>
          match preflight skill_id c_hash (su_subject who) false (su_tier who) (dr_inventory d) with
          | Err 403 => (rejected_with 403, count_cross_scope d)
          | Err code => (rejected_with code, d)
          | Ok tier =>
              commit_submission rt who MARKETPLACE "marketplace-api" (Some skill_id) false tier files c_hash new_id now d
          end
      end
  end.
End submit.

(** ** The pre-flight answers for the transaction *)

Lemma preflight_Ok skill_id c_hash subject admin tier inv tier' :
  preflight skill_id c_hash subject admin tier inv = Ok tier' →
  match skills inv !! skill_id with
  | None => tier' = tier
  | Some s => authorize_skill_write (sk_owner s) subject admin = Ok () ∧
              tier' = default PUBLIC (tier_of_value (sk_trust_tier s))
  end ∧
  (∀ v, versions inv !! c_hash = Some v → sv_skill_id v = skill_id) ∧
  validate_transition (current_state inv skill_id) "submitted" = Ok ().
Proof.
  unfold preflight, get_registered_skill, skill_id_for_content. intros H.
  apply bind_Ok in H as (t & Ht & H). apply bind_Ok in H as (_ & Hc%guard_err_Ok & H).
  apply bind_Ok in H as ([] & Hv%lift_err_Ok & [= <-]). split_and!.
  - destruct (skills inv !! skill_id) as [s|]; simpl in Ht; [|by injection Ht].
    destruct (authorize_skill_write (sk_owner s) subject admin) as [[]|]; [|done]. by injection Ht.
  - intros v Hl. rewrite Hl in Hc. by apply String.eqb_eq in Hc.
  - done.
Qed.

(** The skill's row after a registration: kept, or a new one owned by the caller. *)
Definition registered_row (inv : Store) (skill_id source : string) (tier : TrustTier) (subject : string) (now : Z) : SkillRow :=
  default (mkSkillRow source (tier_value tier) None (Some subject) now) (skills inv !! skill_id).

Lemma register_succeeds skill_id source trust_tier c_hash t_digest declared subject admin tier0 tier now inv :
  preflight skill_id c_hash subject admin tier0 inv = Ok tier →
  ∃ inv1, register_skill_version skill_id source trust_tier c_hash t_digest declared subject admin None now inv = Ok inv1.
Proof.
  intros (Hs & Hv & Ht)%preflight_Ok. unfold register_skill_version.
  assert (E1 : ∃ st1, match skills inv !! skill_id with
    | None => Ok (set_skills (insert skill_id (mkSkillRow source trust_tier None (Some subject) now)) inv)
    | Some s => _ ← lift_err ownership (authorize_skill_write (sk_owner s) subject admin); Ok inv
    end = (Ok st1 : result InventoryError Store)).
  { destruct (skills inv !! skill_id) as [s|]; [|by eexists]. destruct Hs as [-> _]. by eexists. }
  destruct E1 as [st1 E1]. rewrite E1. cbn [mbind result_bind].
  assert (E2 : ∃ st2, match versions inv !! c_hash with
    | Some v => _ ← guard_err (String.eqb (sv_skill_id v) skill_id) (content_registered_to_another_skill (sv_skill_id v)); Ok st1
    | None => Ok (set_versions (insert c_hash (mkSkillVersionRow skill_id t_digest declared now)) st1)
    end = (Ok st2 : result InventoryError Store)).
  { destruct (versions inv !! c_hash) as [v|] eqn:El; [|by eexists]. rewrite (Hv v eq_refl), String.eqb_refl. by eexists. }
  destruct E2 as [st2 E2]. rewrite E2. cbn [mbind result_bind].
  eexists. by apply record_transition_inv.
Qed.

Lemma enter_lifecycle_succeeds source skill_id c_hash t_digest tier tier0 declared subject admin scan_id now inv :
  preflight skill_id c_hash subject admin tier0 inv = Ok tier →
  ∃ inv', enter_lifecycle source skill_id c_hash t_digest tier declared subject admin scan_id now inv = Ok inv' ∧
    skills inv' !! skill_id = Some (registered_row inv skill_id source tier subject now) ∧
    (∃ v, versions inv' !! c_hash = Some v ∧ sv_skill_id v = skill_id) ∧
    ∃ e, head (events_of inv' skill_id) = Some e ∧ ev_to_state e = "scanning" ∧
      ev_content_hash e = Some c_hash ∧ ev_scan_id e = Some scan_id.
Proof.
  intros Hp. unfold enter_lifecycle.
  destruct (register_succeeds skill_id source (tier_value tier) c_hash t_digest declared subject admin tier0 tier now inv Hp)
    as [inv1 H1]. rewrite H1. cbn [mbind result_bind].
  apply register_skill_version_inv in H1 as (sk & vs & e & -> & Hk & _ & _ & Hto & _ & Hsk & Hvs).
  eexists. split.
  { apply transition_skill_inv. exists "submitted". split; [|split; reflexivity].
    unfold current_state. rewrite events_of_record, decide_True by done. simpl. by rewrite Hto. }
  split; [|split].
  - change (skills (record ?a (record ?b ?c))) with (skills c). cbn [skills]. unfold registered_row.
    destruct (skills inv !! skill_id) as [s|] eqn:Es; [by destruct Hsk as [-> _]|]. rewrite Hsk. apply lookup_insert_eq.
  - change (versions (record ?a (record ?b ?c))) with (versions c). cbn [versions].
    destruct (versions inv !! c_hash) as [v|] eqn:Ev; [destruct Hvs as [-> ?]; eauto|]. rewrite Hvs.
    eexists. split; [apply lookup_insert_eq|done].
  - rewrite events_of_record, decide_True by done. eexists. split; [reflexivity|]. done.
Qed.

Section doors.
Context `{TarFormat, ZipFormat}.
Variable nfc : points → points.
Variable sha256 : bytes → string.
Variable repr_str : string → string.
Variable repr_float : Q → string.
Variable parse_frontmatter : bytes → option (list (string * json)).

Abbreviation submit_scan_ := (submit_scan' nfc sha256 repr_str repr_float parse_frontmatter).
Abbreviation commit := (commit_submission nfc sha256 repr_str repr_float parse_frontmatter).
Abbreviation console := (create_scan nfc sha256 repr_str repr_float parse_frontmatter).
Abbreviation market := (submit_marketplace_scan nfc sha256 repr_str repr_float parse_frontmatter).
Abbreviation toolchain rt := (toolchain_digest sha256 (filter_enabled_engines (sr_disabled rt) (sr_engine_metadatas rt))
  (cache_policy_version repr_str (λ _, repr_float) sha256 (λ _, false) (sr_policy rt)) "none").

Context `{coll : Collation}.

Lemma associate_submitter_in scan_id who channel tier o :
  is_scan_submitter (_associate_submitter scan_id who channel tier o) scan_id who = true ∧
  jobs (_associate_submitter scan_id who channel tier o) = jobs o.
Proof.
  rewrite is_scan_submitter_iff. unfold _associate_submitter. destruct (submitters o !! (scan_id, who)) as [r|] eqn:E.
  - split; [|done]. exists who. by rewrite E.
  - split; [|done]. exists who. simpl. by rewrite lookup_insert_eq.
Qed.

(** A scan that was handed out: of this content under this toolchain, the caller
    recorded on it, and, when it is a new one, judged at the resolved tier, with
    its artifact in the store. *)
Record scan_recorded (rt : SubmitRuntime) (subject c_hash : string) (tier : TrustTier) (w : World) (scan_id : string) (w' : World)
    : Prop := {
  sc_submitter : is_scan_submitter (orch w') scan_id subject = true;
  sc_job : ∃ j t ck, jobs (orch w') !! scan_id = Some j ∧ toolchain rt = Ok t ∧ cache_key sha256 c_hash t = Ok ck ∧
    j_cache_key j = ck ∧
    (job_with_cache_key (orch w) ck = None →
       j_content_hash j = c_hash ∧ j_state j = STATE_QUEUED ∧ j_trust_tier j = Some (tier_value tier) ∧
       blobs w' !! artifact_key c_hash ≠ None);
}.

Lemma submit_scan_recorded rt files c_hash subject tier channel new_id now w scan_id w' :
  content_hash nfc sha256 files = Ok c_hash →
  submit_scan_ files subject (filter_enabled_engines (sr_disabled rt) (sr_engine_metadatas rt)) (sr_policy rt) tier channel tier
    (sr_scan_deadline_s rt) new_id now w = Ok (scan_id, w') →
  scan_recorded rt subject c_hash tier w scan_id w' ∧ gate w' = gate w.
Proof.
  intros Hc. unfold submit_scan', submit_scan. rewrite Hc.
  destruct (toolchain rt) as [t|] eqn:Et; [|done]. destruct (cache_key sha256 c_hash t) as [ck|] eqn:Ek; [|done].
  destruct (job_with_cache_key (orch w) ck) as [existing|] eqn:Ej; intros [= <- <-].
  - split; [|done]. split; cbn [orch set_orch]; [apply associate_submitter_in|].
    rewrite (proj2 (associate_submitter_in _ _ _ _ _)).
    pose proof Ej as Ej'. unfold job_with_cache_key in Ej'. destruct (find _ _) as [[k j]|] eqn:Ef; [|done].
    injection Ej' as <-. apply find_some in Ef as [Hin Hk]. apply list_elem_of_In, elem_of_map_to_list in Hin.
    exists j, t, ck. split_and!; [done|done|done|by apply String.eqb_eq|]. congruence.
  - split; [|done]. split; cbn [orch]; [apply associate_submitter_in|].
    rewrite (proj2 (associate_submitter_in _ _ _ _ _)). cbn [jobs set_jobs].
    eexists _, t, ck. split; [apply lookup_insert_eq|]. split_and!; [done..|]. intros _. split_and!; [done..|].
    cbn [blobs]. destruct (blobs w !! artifact_key c_hash) eqn:Eb; [congruence|]. by rewrite lookup_insert_eq.
Qed.

(** After a pre-flight that passed, a submission is recorded whole or not at all. *)
Lemma commit_cases rt who channel source skill admin tier tier0 files c_hash new_id now d :
  content_hash nfc sha256 files = Ok c_hash →
  (∀ k, skill = Some k → preflight k c_hash (su_subject who) admin tier0 (dr_inventory d) = Ok tier) →
  match commit rt who channel source skill admin tier files c_hash new_id now d with
  | (submitted scan_id, d') =>
      scan_recorded rt (su_subject who) c_hash tier (dr_world d) scan_id (dr_world d') ∧
      match skill with
      | None => dr_inventory d' = dr_inventory d
      | Some k =>
          skills (dr_inventory d') !! k = Some (registered_row (dr_inventory d) k source tier (su_subject who) now) ∧
          (∃ v, versions (dr_inventory d') !! c_hash = Some v ∧ sv_skill_id v = k) ∧
          ∃ e, head (events_of (dr_inventory d') k) = Some e ∧ ev_to_state e = "scanning" ∧
            ev_content_hash e = Some c_hash ∧ ev_scan_id e = Some scan_id
      end
  | (_, d') => d' = d
  end.
Proof.
  intros Hc Hp. unfold commit_submission.
  destruct (submit_scan_ _ _ _ _ _ _ _ _ _ _ _) as [[scan_id w]|] eqn:Es; [|done].
  destruct (submit_scan_recorded rt files c_hash _ _ _ _ _ _ _ _ Hc Es) as [Hr _].
  destruct skill as [k|]; [|done].
  destruct (toolchain rt) as [t|] eqn:Et.
  - destruct (enter_lifecycle_succeeds source k c_hash t tier tier0 (declared_perms_of parse_frontmatter files)
      (su_subject who) admin scan_id now (dr_inventory d) (Hp k eq_refl)) as (inv & -> & H1 & H2 & H3). done.
  - destruct Hr as [_ (j & t & ck & _ & Ht & _)]. congruence.
Qed.

(** A refused submission leaves nothing behind.  Through either door, a
    submission that is answered with anything but its scan id, a refusal or an
    unhandled exception, has written no scan, no artifact, no submitter, no stream
    message, no skill, no version and no event: after the pre-flight has passed, the
    inventory transaction that follows the committed scan cannot refuse any more. *)
Theorem refused_submissions_leave_nothing rt who raw new_id now d :
  (∀ skill_id trust_tier,
     match console rt who raw skill_id trust_tier new_id now d with
     | (submitted _, _) => True
     | (_, d') => dr_world d' = dr_world d ∧ dr_inventory d' = dr_inventory d
     end) ∧
  (∀ skill_id tier_supplied,
     match market rt who raw skill_id tier_supplied new_id now d with
     | (submitted _, _) => True
     | (_, d') => dr_world d' = dr_world d ∧ dr_inventory d' = dr_inventory d
     end).
Proof.
  assert (Hcommit : ∀ channel source skill admin tier tier0 files c_hash,
    content_hash nfc sha256 files = Ok c_hash →
    (∀ k, skill = Some k → preflight k c_hash (su_subject who) admin tier0 (dr_inventory d) = Ok tier) →
    match commit rt who channel source skill admin tier files c_hash new_id now d with
    | (submitted _, _) => True
    | (_, d') => dr_world d' = dr_world d ∧ dr_inventory d' = dr_inventory d
    end).
  { intros channel source skill admin tier tier0 files c_hash Hc Hp.
    pose proof (commit_cases rt who channel source skill admin tier tier0 files c_hash new_id now d Hc Hp) as Hcase.
    destruct (commit rt who channel source skill admin tier files c_hash new_id now d) as [[] d']; [done| |]; by subst. }
  assert (Herr : ∀ code, match match code with 403 => (rejected_with 403, count_cross_scope d) | _ => (rejected_with code, d) end with
     | (submitted _, _) => True
     | (_, d') => dr_world d' = dr_world d ∧ dr_inventory d' = dr_inventory d
     end) by (intros code; repeat case_match; simplify_eq; done).
  split; intros skill_id t.
  - unfold create_scan. destruct (match t with None => _ | Some t => _ end) as [tier|]; [|done].
    destruct (unpack_package_archive raw) as [files|[|]]; [|done..].
    destruct (content_hash nfc sha256 files) as [c_hash|] eqn:Hc; [|done].
    destruct skill_id as [[|a s]|]; [by apply (Hcommit _ _ _ _ _ tier)| |by apply (Hcommit _ _ _ _ _ tier)].
    destruct (sr_inventory_configured rt); [|done]. cbn [negb].
    destruct (preflight _ _ _ _ _ _) as [tier'|code] eqn:Ep; [|apply Herr].
    apply (Hcommit _ _ _ _ _ tier); [done|]. by intros k [= <-].
  - unfold submit_marketplace_scan. destruct (bool_decide _); [|done]. cbn [negb].
    destruct (String.eqb _ ""); [done|]. destruct (sr_inventory_configured rt); [|done]. cbn [negb]. destruct t; [done|].
    destruct (unpack_package_archive raw) as [files|[|]]; [|done..].
    destruct (content_hash nfc sha256 files) as [c_hash|] eqn:Hc; [|done].
    destruct (preflight _ _ _ _ _ _) as [tier'|code] eqn:Ep; [|apply Herr].
    apply (Hcommit _ _ _ _ _ (su_tier who)); [done|]. by intros k [= <-].
Qed.

(** A marketplace submission that is accepted can be polled by its submitter, and
    is judged at a tier the submitter did not choose.  The caller holds the submit
    scope and named no tier; the package unpacked and hashed; the caller is recorded
    on the scan, which is of this content under this toolchain; the skill's newest
    event is the entry into [scanning] with this scan and this content; the content
    belongs to the skill; the skill's owner check admits the caller; and a scan newly
    created for it carries the skill's recorded tier (PUBLIC when that is not a
    tier), or for a new skill the tier the caller was granted. *)
Theorem marketplace_submission_is_pollable rt who raw skill_id tier_supplied new_id now d scan_id d' :
  market rt who raw skill_id tier_supplied new_id now d = (submitted scan_id, d') →
  tier_supplied = false ∧ _SUBMIT_SCOPE ∈ su_scopes who ∧
  ∃ files c_hash row, unpack_package_archive raw = Ok files ∧ content_hash nfc sha256 files = Ok c_hash ∧
    scan_recorded rt (su_subject who) c_hash
      match skills (dr_inventory d) !! strip skill_id with
      | None => su_tier who
      | Some s => default PUBLIC (tier_of_value (sk_trust_tier s))
      end (dr_world d) scan_id (dr_world d') ∧
    skills (dr_inventory d') !! strip skill_id = Some row ∧
    authorize_skill_read (sk_owner row) (su_subject who) = Ok () ∧
    (∃ v, versions (dr_inventory d') !! c_hash = Some v ∧ sv_skill_id v = strip skill_id) ∧
    ∃ e, head (events_of (dr_inventory d') (strip skill_id)) = Some e ∧ ev_to_state e = "scanning" ∧
      ev_content_hash e = Some c_hash ∧ ev_scan_id e = Some scan_id.
Proof.
  unfold submit_marketplace_scan. destruct (bool_decide _) eqn:Eb; [|done]. cbn [negb]. bool_prop.
  destruct (String.eqb _ ""); [done|]. destruct (sr_inventory_configured rt); [|done]. cbn [negb].
  destruct tier_supplied; [done|]. destruct (unpack_package_archive raw) as [files|[|]] eqn:Eu; [|done..].
  destruct (content_hash nfc sha256 files) as [c_hash|] eqn:Hc; [|done].
  destruct (preflight _ _ _ _ _ _) as [tier|code] eqn:Ep; [|intros E; exfalso; revert E; repeat case_match; done].
  intros Hm. split; [done|]. split; [done|]. exists files, c_hash.
  pose proof (commit_cases rt who MARKETPLACE "marketplace-api" (Some (strip skill_id)) false tier (su_tier who) files c_hash
    new_id now d Hc ltac:(by intros k [= <-])) as Hcase.
  rewrite Hm in Hcase. destruct Hcase as (Hr & Hs & Hv & He).
  apply preflight_Ok in Ep as (Hsk & _). unfold registered_row in Hs.
  destruct (skills (dr_inventory d) !! strip skill_id) as [s|] eqn:Es.
  - destruct Hsk as [Ha ->]. exists s. by split_and!.
  - subst tier. eexists. split_and!; [done..|exact Hs|simpl; by rewrite String.eqb_refl|done|done].
Qed.
End doors.

Module SubmitSamples.
Import UnpackSamples.

(** A collation that compares byte by byte. *)
#[local] Instance bytewise : Collation := λ s, s.

#[local] Instance door_tar : TarFormat := toy no_gz.
#[local] Instance door_zip : ZipFormat := toy_zip.

Definition hash1 (b : bytes) : string := "h".
Definition text (s : string) : string := s.
Definition text_q (q : Q) : string := "".
Definition no_frontmatter (b : bytes) : option (list (string * json)) := None.

Definition runtime : SubmitRuntime :=
  mkSubmitRuntime ReadbackSamples.need_floor INTERNAL true ∅ [] 300.
Definition shop : Submitter := mkSubmitter "shop" false PARTNER ["scan:submit"; "scan:read"].
Definition fresh : Doors :=
  mkDoors (mkWorld (mkOrchStore ∅ ∅ ∅ ∅) ∅ [] (mkGateStore ∅ ∅ [] [])) (mkStore ∅ ∅ ∅ [] []) 0.

Definition reply : SubmitReply * Doors :=
  submit_marketplace_scan id_nfc hash1 text text_q no_frontmatter runtime shop zip_sample " tool " false "s1" 5 fresh.

Lemma marketplace_submission_is_pollable_witness :
  reply.1 = submitted "s1" ∧
  ∃ row, skills (dr_inventory reply.2) !! "tool" = Some row ∧ authorize_skill_read (sk_owner row) "shop" = Ok ().
Proof.
  assert (E : reply = (submitted "s1", reply.2)) by (vm_compute; reflexivity).
  split; [by rewrite E|].
  destruct (marketplace_submission_is_pollable id_nfc hash1 text text_q no_frontmatter runtime shop zip_sample " tool "
    false "s1" 5 fresh "s1" reply.2 E) as (_ & _ & files & c_hash & row & _ & _ & _ & Hrow & Hread & _).
  exists row. split; [exact Hrow|exact Hread].
Defined.
End SubmitSamples.
