(* ===== verification/Console.v ===== *)
(** * The administrator's console

    The ownership and listing routes of [inventory/router.py] (the worklist of unowned
    skills, its bulk assignment, the recognised-owner hint) and the engine and policy
    routes of [admin/router.py] with the engine listing of [admin/engine_registry.py].
    Times stay numbers: the text [isoformat] gives them is not modelled.  A request
    that the role check refuses does not get here ([Access]).  Each transaction of the
    bulk assignment runs without another between its read and its write, except in
    [ConsoleSamples.racing_assignments]. *)

From S2P Require Import Prelude Models Json Lifecycle Readback Limits Login Accounts Policy PolicyWorkflow.
From S2P Require Import Keyword Detectors TextDetectors McpConfig Intel Orchestration EngineRunner WorkerTick EngineHealth Inventory.
From Stdlib Require Import QArith.
Open Scope string_scope.
Open Scope list_scope.
Open Scope Z_scope.

(** ** Listings of [inventory/router.py] *)

Record InventoryItem := mkInventoryItem {
  it_skill_id : string;
  it_source : string;
  it_trust_tier : string;
  it_state : option string;
  it_owner : option string;
}.

Definition item_of (st : Store) (kv : string * SkillRow) : InventoryItem :=
  mkInventoryItem kv.1 (sk_source kv.2) (sk_trust_tier kv.2) (current_state st kv.1) (sk_owner kv.2).

(** The query has no [ORDER BY]: the order of the items means nothing. *)
Definition list_inventory (st : Store) : list InventoryItem := map (item_of st) (map_to_list (skills st)).

Record InventoryDetail := mkInventoryDetail {
  dt_item : InventoryItem;
  dt_versions : list (string * SkillVersionRow);
  dt_baseline : option BaselineRow;
}.

Definition by_created : (string * SkillVersionRow) → (string * SkillVersionRow) → bool :=
  le_key Z.leb (λ kv, sv_created_at kv.2).

(** [None] is a 404. *)
Definition get_inventory_item (skill_id : string) (st : Store) : option InventoryDetail :=
  skill ← skills st !! skill_id;
  Some (mkInventoryDetail (item_of st (skill_id, skill)) (sort_by by_created (versions_of st skill_id))
          (baselines st !! skill_id)).

Definition _UNOWNED_DEFAULT_LIMIT : Z := 100.
Definition _UNOWNED_MAX_LIMIT : Z := 200.

(** The size of the job and one page of it; [None] is a 422. *)
Definition list_unowned (limit offset : Z) (st : Store) : option (nat * list UnownedSkill) :=
  if (1 <=? limit) && (limit <=? _UNOWNED_MAX_LIMIT) && (0 <=? offset) then
    Some (count_unowned_skills st, list_unowned_skills st (Z.to_nat limit) (Z.to_nat offset))
  else None.

(** ** Assigning owners *)

(** What the hint reads: the inventory, and the local accounts where local login is
    configured.  An inner [None] is a read that raises. *)
Record OwnerSources := mkOwnerSources {
  os_inventory : option Store;
  os_accounts : option (option (list LocalAccount));
}.

(** [None]: the check could not run. *)
Definition _owner_is_recognized (src : OwnerSources) (owner : string) : option bool :=
  match os_inventory src with
  | None => None
  | Some st =>
      if identity_appears_in_inventory st owner then Some true
      else match os_accounts src with
           | None => Some false
           | Some None => None
           | Some (Some accounts) => Some (existsb (λ a, String.eqb (la_username a) owner) accounts)
           end
  end.

Record OwnerReply := mkOwnerReply {
  or_skill_id : string;
  or_owner : string;
  or_previous_owner : option string;
  or_owner_recognized : option bool;
}.

(** The status of each refusal of [set_skill_owner]. *)
Definition owner_status (e : InventoryError) : Z :=
  match e with
  | invalid_owner owner_conflict => 409
  | invalid_owner _ => 400
  | _ => 404
  end.

Definition set_skill_owner_reply (src : OwnerSources) (skill_id owner reason subject : string) (expect_unowned : bool)
    (st : Store) : result Z (OwnerReply * Store) :=
  let owner_recognized := _owner_is_recognized src (strip owner) in
  r ← lift_err owner_status (assign_skill_owner skill_id owner reason subject expect_unowned st);
  Ok (mkOwnerReply skill_id (strip owner) r.1 owner_recognized, r.2).

Definition _MAX_BULK_ASSIGNMENTS : nat := 200.

(** [list(dict.fromkeys(l))]: the first occurrence of each. *)
Fixpoint dict_fromkeys (l : list string) : list string :=
  match l with
  | [] => []
  | x :: l' => x :: base.filter (λ y, y ≠ x) (dict_fromkeys l')
  end.

Record BulkReply := mkBulkReply {
  br_owner : string;
  br_assigned : list string;
  br_failed : list (string * InventoryError);
  br_owner_recognized : option bool;
}.

Inductive BulkError := bulk_body_invalid | bulk_owner_invalid (e : OwnerError).

(** One transaction of the loop. *)
Definition bulk_step (owner reason subject : string) (acc : list string * list (string * InventoryError) * Store)
    (skill_id : string) : list string * list (string * InventoryError) * Store :=
  let '(assigned, failed, st) := acc in
  match assign_skill_owner skill_id owner reason subject true st with
  | Err e => (assigned, failed ++ [(skill_id, e)], st)
  | Ok (_, st') => (assigned ++ [skill_id], failed, st')
  end.

Definition assign_owner_bulk (src : OwnerSources) (owner reason subject : string) (skill_ids : list string) (st : Store)
    : result BulkError (BulkReply * Store) :=
  _ ← guard_err (Nat.leb 1 (length skill_ids) && Nat.leb (length skill_ids) _MAX_BULK_ASSIGNMENTS) bulk_body_invalid;
  _ ← lift_err bulk_owner_invalid (normalize_owner owner);
  let owner_recognized := _owner_is_recognized src (strip owner) in
  let '(assigned, failed, st') := foldl (bulk_step owner reason subject) ([], [], st) (dict_fromkeys skill_ids) in
  Ok (mkBulkReply (strip owner) assigned failed owner_recognized, st').

(** ** What a bulk assignment comes to, written without the loop *)

Definition unowned_in (st : Store) (skill_id : string) : Prop :=
  match skills st !! skill_id with Some s => sk_owner s = None | None => False end.
#[export] Instance unowned_in_dec st skill_id : Decision (unowned_in st skill_id).
Proof. unfold unowned_in. destruct (skills st !! skill_id); apply _. Defined.

Definition why_refused (st : Store) (skill_id : string) : InventoryError :=
  match skills st !! skill_id with None => skill_not_registered | Some _ => invalid_owner owner_conflict end.

Definition with_owner (owner : string) (s : SkillRow) : SkillRow :=
  mkSkillRow (sk_source s) (sk_trust_tier s) (sk_scope s) (Some owner) (sk_created_at s).

Definition owner_intent (subject owner reason skill_id : string) : AuditIntent :=
  mkAuditIntent subject "skill_owner_assigned"
    (JObj [("skill_id", JStr skill_id); ("previous_owner", JOpt None); ("new_owner", JStr owner); ("reason", JStr reason)]).

Lemma elem_of_dict_fromkeys x l : x ∈ dict_fromkeys l ↔ x ∈ l.
Proof.
  induction l as [|y l IH]; [done|]. cbn. rewrite !elem_of_cons, list_elem_of_filter, IH.
  destruct (decide (x = y)); naive_solver.
Qed.

Lemma NoDup_dict_fromkeys l : NoDup (dict_fromkeys l).
Proof.
  induction l as [|y l IH]; [constructor|]. cbn. constructor; [|by apply NoDup_filter].
  rewrite list_elem_of_filter. naive_solver.
Qed.

Lemma unowned_iff st k : unowned_in st k ↔ ∃ s, skills st !! k = Some s ∧ sk_owner s = None.
Proof. unfold unowned_in. destruct (skills st !! k); naive_solver. Qed.

Section bulk.
Context (owner reason subject n : string) (Hn : normalize_owner owner = Ok n).

Lemma assign_unowned skill_id st :
  assign_skill_owner skill_id owner reason subject true st =
  if decide (unowned_in st skill_id) then
    Ok (None, add_intent (owner_intent subject n reason skill_id) (set_skills (alter (with_owner n) skill_id) st))
  else Err (why_refused st skill_id).
Proof.
  assert (Hu := unowned_iff st skill_id). unfold assign_skill_owner, why_refused.
  destruct (skills st !! skill_id) as [s|] eqn:E; [|by rewrite decide_False by naive_solver].
  unfold validate_owner_assignment. rewrite Hn. cbn. destruct (sk_owner s) as [o|] eqn:Eo.
  - rewrite decide_False by naive_solver. rewrite bool_decide_true by done. done.
  - rewrite decide_True by naive_solver. rewrite bool_decide_false by (by intros []). cbn.
    unfold set_skills. do 4 f_equal. apply map_eq. intros k. destruct (decide (k = skill_id)) as [->|Hk].
    + by rewrite lookup_insert_eq, lookup_alter_eq, E.
    + by rewrite lookup_insert_ne, lookup_alter_ne by done.
Qed.

Lemma bulk_loop ids : ∀ assigned failed st st',
  NoDup ids →
  ∀ assigned' failed', foldl (bulk_step owner reason subject) (assigned, failed, st) ids = (assigned', failed', st') →
  let chosen := base.filter (unowned_in st) ids in
  assigned' = assigned ++ chosen ∧
  failed' = failed ++ map (λ i, (i, why_refused st i)) (base.filter (λ i, ¬ unowned_in st i) ids) ∧
  (∀ k, skills st' !! k = (if decide (k ∈ chosen) then with_owner n else id) <$> skills st !! k) ∧
  intents st' = rev (map (owner_intent subject n reason) chosen) ++ intents st ∧
  versions st' = versions st ∧ baselines st' = baselines st ∧ events st' = events st.
Proof.
  induction ids as [|i ids IH]; intros assigned failed st st' Hnd assigned' failed' H; cbn zeta.
  { injection H as <- <- <-. cbn. rewrite !app_nil_r. split_and!; try done. intros k. by destruct (skills st !! k). }
  apply NoDup_cons in Hnd as [Hi Hnd]. cbn [foldl] in H. unfold bulk_step in H at 2. rewrite assign_unowned in H.
  rewrite !filter_cons. destruct (decide (unowned_in st i)) as [Hu|Hu].
  - rewrite (decide_False (P := ¬ _)) by tauto.
    set (st1 := add_intent _ _) in H.
    assert (Hlk : ∀ k, k ≠ i → skills st1 !! k = skills st !! k) by (intros k Hk; cbn; by rewrite lookup_alter_ne).
    assert (Hin : ∀ k, k ∈ ids → k ≠ i) by (intros k Hk ->; done).
    assert (Hsame : ∀ k, k ∈ ids → unowned_in st1 k ↔ unowned_in st k).
    { intros k Hk. unfold unowned_in. by rewrite Hlk by auto. }
    apply IH in H as (-> & -> & Hs & Ht & Hv & Hb & He); [|done].
    assert (E1 : base.filter (unowned_in st1) ids = base.filter (unowned_in st) ids).
    { by apply filter_ext_in. }
    assert (E2 : base.filter (λ k, ¬ unowned_in st1 k) ids = base.filter (λ k, ¬ unowned_in st k) ids).
    { apply filter_ext_in. intros k Hk. by rewrite Hsame. }
    rewrite E1, E2 in *. cbn [map rev]. split_and!.
    + by rewrite <- app_assoc.
    + f_equal. apply map_ext_in. intros k Hk%list_elem_of_In%list_elem_of_filter. unfold why_refused. by rewrite Hlk by naive_solver.
    + intros k. rewrite Hs. destruct (decide (k = i)) as [->|Hk].
      * rewrite decide_False by (rewrite list_elem_of_filter; tauto). rewrite (decide_True (P := i ∈ _)) by set_solver.
        cbn. rewrite lookup_alter_eq. by destruct (skills st !! i).
      * rewrite Hlk by done. erewrite decide_ext; [reflexivity|]. set_solver.
    + rewrite Ht. cbn. by rewrite <- app_assoc.
    + done.
    + done.
    + done.
  - rewrite (decide_True (P := ¬ _)) by done. apply IH in H as (-> & -> & H); [|done].
    split_and!; [done|by rewrite <- app_assoc|apply H..].
Qed.
End bulk.

(** [assign_skill_owner] in its two steps: the row is read without a lock, the check is made
    on what was read, and [UPDATE] writes the owner of whatever the row is by then. *)
Definition assign_on_row (seen : option SkillRow) (skill_id owner reason subject : string) (st : Store) : result InventoryError Store :=
  match seen with
  | None => Err skill_not_registered
  | Some skill =>
      normalized ← lift_err invalid_owner (validate_owner_assignment (sk_owner skill) owner true);
      Ok (add_intent (owner_intent subject normalized reason skill_id) (set_skills (alter (with_owner normalized) skill_id) st))
  end.

(** With nothing in between, the two steps are the assignment. *)
Lemma assign_on_row_undisturbed skill_id owner reason subject n st :
  normalize_owner owner = Ok n →
  assign_on_row (skills st !! skill_id) skill_id owner reason subject st =
  lift_err id (snd <$> assign_skill_owner skill_id owner reason subject true st).
Proof.
  intros Hn. rewrite (assign_unowned owner reason subject n Hn). assert (Hu := unowned_iff st skill_id).
  unfold assign_on_row, why_refused. destruct (skills st !! skill_id) as [s|]; [|by rewrite decide_False by naive_solver].
  unfold validate_owner_assignment. rewrite Hn. cbn. destruct (sk_owner s) as [o|] eqn:Eo.
  - rewrite decide_False by naive_solver. by rewrite bool_decide_true.
  - rewrite decide_True by naive_solver. rewrite bool_decide_false by (by intros []). done.
Qed.

(** C38: A bulk assignment gives the owner exactly the named skills that are registered
    and have no owner, once each and in the order named; every other name is reported with
    its reason.  No owned skill changes hands, no other column or table changes, and each
    assignment leaves one audit row that names the skill and its new owner. *)
Theorem bulk_assignment_takes_only_the_unowned src owner reason subject ids st reply st' :
  assign_owner_bulk src owner reason subject ids st = Ok (reply, st') →
  let named := dict_fromkeys ids in
  let chosen := base.filter (unowned_in st) named in
  br_assigned reply = chosen ∧
  br_failed reply = map (λ i, (i, why_refused st i)) (base.filter (λ i, ¬ unowned_in st i) named) ∧
  (∀ k, skills st' !! k = (if decide (k ∈ chosen) then with_owner (strip owner) else id) <$> skills st !! k) ∧
  intents st' = rev (map (owner_intent subject (strip owner) reason) chosen) ++ intents st ∧
  versions st' = versions st ∧ baselines st' = baselines st ∧ events st' = events st ∧
  NoDup named ∧ (∀ k, k ∈ named ↔ k ∈ ids).
Proof.
  intros H. unfold assign_owner_bulk in H. apply bind_Ok in H as (_ & _ & H).
  apply bind_Ok in H as (n & Hn & H). apply lift_err_Ok in Hn.
  destruct (foldl _ _ _) as [[assigned failed] st1] eqn:E. simplify_eq.
  assert (Hs : strip owner = n) by (unfold normalize_owner in Hn; by ok_inv).
  eapply bulk_loop in E as (E1 & E2 & E3 & E4 & E5 & E6 & E7); [|exact Hn|apply NoDup_dict_fromkeys].
  rewrite Hs. split_and!; try done; [apply NoDup_dict_fromkeys|intros k; apply elem_of_dict_fromkeys].
Qed.

(** ** The engine listing: [engine_registry.py] and [floor.py] *)

Section engines.
Variable sha256 : list Z → string.
(** [str] of a float, in the rule texts the detectors hash. *)
Variable show_float : Q → string.

(** [floor_engines]: the metadata of the engines every scan must have. *)
Definition floor_metadatas : list EngineMetadata :=
  map (λ f, f sha256 show_float)
    [static_keyword_metadata; crypto_metadata; file_type_metadata; pii_metadata; toctou_metadata;
     prompt_zh_metadata; jailbreak_zh_metadata; mcp_metadata; perm_metadata].

Definition floor_engine_names : gset string := list_to_set (map em_name floor_metadatas).

Definition VERSION_UNAVAILABLE_SANDBOXED : string := "sandboxed_image".

Record EngineRow := mkEngineRow {
  er_name : string;
  er_version : option string;
  er_version_unavailable_reason : option string;
  er_required : bool;
  er_enabled : bool;
  er_capabilities : list string;
}.

Definition capability_tags (l : list EngineCapability) : list string := sort_by str_le (map capability_value l).

Definition known_engine_rows (engine_metadatas : list EngineMetadata) (required disabled : gset string) : list EngineRow :=
  let is_required name := bool_decide (name ∈ required) in
  let is_enabled name := bool_decide (name ∉ disabled) in
  map (λ m, mkEngineRow (em_name m) (Some (em_version m)) None (is_required (em_name m)) (is_enabled (em_name m))
              (capability_tags (em_capabilities m))) engine_metadatas ++
  map (λ name, mkEngineRow name None (Some VERSION_UNAVAILABLE_SANDBOXED) false (is_enabled name) ["sandboxed"])
    SANDBOX_ENGINE_NAMES ++
  [mkEngineRow INTEL_ENGINE_NAME (Some INTEL_ENGINE_VERSION) None (is_required INTEL_ENGINE_NAME) (is_enabled INTEL_ENGINE_NAME)
     (capability_tags INTEL_ENGINE_CAPABILITIES)].

Definition known_engine_names (engine_metadatas : list EngineMetadata) : gset string :=
  list_to_set (map er_name (known_engine_rows engine_metadatas ∅ ∅)).

Definition list_engines (engine_metadatas : list EngineMetadata) (disabled : gset string) : list EngineRow :=
  known_engine_rows engine_metadatas floor_engine_names disabled.

(** ** The switch: [PATCH /engines/{name}] *)

(** The Redis set and the gate's audit table. *)
Record SwitchState := mkSwitchState { sw_disabled : gset string; sw_intents : list AuditIntent }.

Inductive SwitchReply := switched | no_such_engine | engine_is_required | audit_write_failed.

Definition switch_intent (name : string) (enabled : bool) (subject : string) : AuditIntent :=
  mkAuditIntent subject "engine_enabled_changed" (JObj [("name", JStr name); ("enabled", JBool enabled)]).

(** [audit_ok]: whether the audit transaction, which follows the write to Redis, commits. *)
Definition set_engine_enabled_endpoint (engine_metadatas : list EngineMetadata) (name : string) (enabled : bool)
    (subject : string) (audit_ok : bool) (st : SwitchState) : SwitchReply * SwitchState :=
  if negb (bool_decide (name ∈ known_engine_names engine_metadatas)) then (no_such_engine, st)
  else match set_engine_enabled name enabled floor_engine_names (sw_disabled st) with
       | None => (engine_is_required, st)
       | Some disabled =>
           if audit_ok then (switched, mkSwitchState disabled (switch_intent name enabled subject :: sw_intents st))
           else (audit_write_failed, mkSwitchState disabled (sw_intents st))
       end.

Record SwitchRequest := mkSwitchRequest { sr_name : string; sr_enabled : bool; sr_subject : string; sr_audit_ok : bool }.

Definition switch_all (engine_metadatas : list EngineMetadata) (l : list SwitchRequest) (st : SwitchState) : SwitchState :=
  foldl (λ st r, (set_engine_enabled_endpoint engine_metadatas (sr_name r) (sr_enabled r) (sr_subject r) (sr_audit_ok r) st).2) st l.

(** What the audit rows say is disabled, oldest last. *)
Fixpoint audited_disabled (l : list AuditIntent) : gset string :=
  match l with
  | [] => ∅
  | i :: older =>
      match ai_payload i with
      | JObj [(_, JStr name); (_, JBool true)] => audited_disabled older ∖ {[name]}
      | JObj [(_, JStr name); (_, JBool false)] => audited_disabled older ∪ {[name]}
      | _ => audited_disabled older
      end
  end.

Lemma known_engine_names_rows metadatas required disabled :
  known_engine_names metadatas = list_to_set (map er_name (known_engine_rows metadatas required disabled)).
Proof. unfold known_engine_names, known_engine_rows. by rewrite !map_app, !map_map. Qed.

Definition shown_for (disabled : gset string) (row : EngineRow) : EngineRow :=
  mkEngineRow (er_name row) (er_version row) (er_version_unavailable_reason row) (er_required row)
    (bool_decide (er_name row ∉ disabled)) (er_capabilities row).

Lemma rows_shown metadatas required disabled :
  known_engine_rows metadatas required disabled = map (shown_for disabled) (known_engine_rows metadatas required ∅).
Proof. unfold known_engine_rows. by rewrite !map_app, !map_map. Qed.

Lemma endpoint_inv metadatas r st :
  let st' := (set_engine_enabled_endpoint metadatas (sr_name r) (sr_enabled r) (sr_subject r) (sr_audit_ok r) st).2 in
  floor_engine_names ## sw_disabled st →
  floor_engine_names ## sw_disabled st' ∧
  (sr_audit_ok r = true → sw_disabled st = audited_disabled (sw_intents st) → sw_disabled st' = audited_disabled (sw_intents st')).
Proof.
  cbn zeta. intros Hf. unfold set_engine_enabled_endpoint. set (F := floor_engine_names) in *. clearbody F. case_bool_decide as Hk; cbn [negb]; [|done].
  unfold set_engine_enabled, is_disableable. destruct (sr_enabled r); cbn [andb negb].
  - destruct (sr_audit_ok r); cbn; [|split; [set_solver|done]]. split; [set_solver|]. intros _ Hd. cbn. by rewrite Hd.
  - case_bool_decide as Hreq; cbn; [done|].
    destruct (sr_audit_ok r); cbn; [|split; [set_solver|done]]. split; [set_solver|]. intros _ Hd. cbn. by rewrite Hd.
Qed.

(** No sequence of switches, whatever becomes of its audit writes, disables an engine of
    the floor: every floor engine is still dispatched; and while the audit writes succeed,
    the disabled engines are exactly those the audit rows, replayed, leave disabled. *)
Theorem switches_never_reach_the_floor metadatas l :
  let st := switch_all metadatas l (mkSwitchState ∅ []) in
  (∀ m, m ∈ floor_metadatas → m ∈ filter_enabled_engines (sw_disabled st) floor_metadatas) ∧
  ((∀ r, r ∈ l → sr_audit_ok r = true) → sw_disabled st = audited_disabled (sw_intents st)).
Proof.
  cbn zeta. assert (H : floor_engine_names ## sw_disabled (switch_all metadatas l (mkSwitchState ∅ [])) ∧
    ((∀ r, r ∈ l → sr_audit_ok r = true) →
     sw_disabled (switch_all metadatas l (mkSwitchState ∅ [])) = audited_disabled (sw_intents (switch_all metadatas l (mkSwitchState ∅ []))))).
  { induction l as [|r l [IH1 IH2]] using rev_ind; [split; [intros x _ Hx; by apply elem_of_empty in Hx|done]|].
    unfold switch_all in *. rewrite !foldl_app. cbn [foldl].
    destruct (endpoint_inv metadatas r _ IH1) as [H1 H2]. split; [exact H1|].
    intros Ha. apply H2; [apply Ha, elem_of_app; right; by left|]. apply IH2. intros r' Hr. apply Ha, elem_of_app. by left. }
  destruct H as [H1 H2]. split; [|exact H2]. intros m Hm. unfold filter_enabled_engines. apply list_elem_of_filter.
  split; [|done]. intros Hd. apply (H1 (em_name m)); [|done].
  apply elem_of_list_to_set, list_elem_of_In, in_map, list_elem_of_In, Hm.
Qed.

(** An engine can be switched exactly when it is listed, a listed engine refuses only to
    be disabled as part of the floor, and the listing shows a switch as it was asked for and
    every other engine as it was. *)
Theorem listed_engines_can_be_switched metadatas name enabled subject audit_ok st :
  let rows st := list_engines metadatas (sw_disabled st) in
  let r := set_engine_enabled_endpoint metadatas name enabled subject audit_ok st in
  (r.1 = no_such_engine ↔ ∀ row, row ∈ rows st → er_name row ≠ name) ∧
  (r.1 = engine_is_required ↔ enabled = false ∧ name ∈ floor_engine_names ∧ name ∈ known_engine_names metadatas) ∧
  (r.1 = switched → ∀ row, row ∈ rows r.2 →
     if decide (er_name row = name) then er_enabled row = enabled else row ∈ rows st).
Proof.
  cbn zeta. unfold list_engines. assert (Hn : name ∈ known_engine_names metadatas ↔
    ∃ row, row ∈ known_engine_rows metadatas floor_engine_names (sw_disabled st) ∧ er_name row = name).
  { rewrite (known_engine_names_rows _ floor_engine_names (sw_disabled st)), elem_of_list_to_set, list_elem_of_In, in_map_iff.
    setoid_rewrite <- list_elem_of_In. naive_solver. }
  unfold set_engine_enabled_endpoint. case_bool_decide as Hk; cbn [negb].
  - unfold set_engine_enabled, is_disableable. destruct (negb enabled && _) eqn:Er; cbn [fst snd].
    + destruct enabled; cbn in Er; [done|]. rewrite negb_involutive in Er. bool_prop. split_and!; [naive_solver|naive_solver|done].
    + split; [destruct audit_ok; naive_solver|]. split.
      { split; [by destruct audit_ok|]. intros (-> & Hf & _). cbn in Er. by rewrite bool_decide_true in Er. }
      destruct audit_ok; cbn [fst snd]; [|done]. intros _ row Hrow. cbn [sw_disabled] in Hrow.
      rewrite rows_shown in Hrow |- *. apply list_elem_of_In, in_map_iff in Hrow as (row0 & <- & Hrow0). cbn [er_name er_enabled shown_for].
      clear Er. destruct (decide (er_name row0 = name)) as [E|E].
      * rewrite E. destruct enabled; [apply bool_decide_true|apply bool_decide_false]; set_solver.
      * apply list_elem_of_In, in_map_iff. exists row0. split; [|done]. unfold shown_for. f_equal.
        apply bool_decide_ext. destruct enabled; set_solver.
  - split_and!; [naive_solver|naive_solver|done].
Qed.

(** ** Engine health: [GET /engines/health] *)

Record HealthRow := mkHealthRow {
  hw_summary : EngineHealthSummary;   (* the route copies its fields one by one *)
  hw_attribution : option string;
  hw_attribution_basis : option string;
}.

Definition _engine_health_to_dict (summary : EngineHealthSummary) (disabled llm_unconfigured : gset string) : HealthRow :=
  let attribution :=
    if String.eqb (ob_report_state (es_last summary)) "not_reported" then
      not_reported_attribution (es_engine_name summary) disabled llm_unconfigured (counts_reported (es_counts summary))
    else None in
  mkHealthRow summary attribution (not_reported_attribution_basis attribution).

Record HealthReply := mkHealthReply {
  hp_window : EngineHealthWindow;
  hp_engines : list HealthRow;
  hp_unregistered_engines : list string;
}.

(** [None] is a 422. *)
Definition get_engine_health (engine_metadatas : list EngineMetadata) (sandbox_llm_configured : bool) (scans : Z)
    (disabled : gset string) (st : OrchStore) : option HealthReply :=
  if (1 <=? scans) && (scans <=? MAX_WINDOW_SCANS) then
    let report := load_recent_engine_health scans st in
    let llm_unconfigured := llm_unconfigured_engine_names llm_gated_engine_names sandbox_llm_configured in
    let known := known_engine_names engine_metadatas in
    Some (mkHealthReply (hrep_window report)
            (map (λ s, _engine_health_to_dict s disabled llm_unconfigured) (hrep_engines report))
            (sort_by str_le (base.filter (λ n, n ∉ known) (map es_engine_name (hrep_engines report)))))
  else None.

(** The health page gives a reason only to an engine whose last scan had no report from it,
    always with the note that it was read from today's configuration; it blames the missing
    model endpoint only when no scan of the window has a report from the engine, and names
    as unregistered exactly the engines seen that cannot be switched. *)
Theorem attributions_yield_to_evidence metadatas llm scans disabled st reply row :
  get_engine_health metadatas llm scans disabled st = Some reply → row ∈ hp_engines reply →
  (hw_attribution row ≠ None → ob_report_state (es_last (hw_summary row)) = "not_reported" ∧
     hw_attribution_basis row = Some ATTRIBUTION_BASIS_CURRENT_CONFIG) ∧
  (hw_attribution row = Some ATTRIBUTION_LLM_ENDPOINT_UNCONFIGURED →
     llm = false ∧ counts_reported (es_counts (hw_summary row)) = 0%nat) ∧
  (hw_attribution row = Some ATTRIBUTION_CURRENTLY_DISABLED → es_engine_name (hw_summary row) ∈ disabled) ∧
  (es_engine_name (hw_summary row) ∈ hp_unregistered_engines reply ↔
     es_engine_name (hw_summary row) ∉ known_engine_names metadatas).
Proof.
  unfold get_engine_health. destruct (_ && _); [|done]. intros H; simplify_eq. cbn [hp_engines hp_unregistered_engines].
  intros Hrow. apply list_elem_of_In, in_map_iff in Hrow as (s & <- & Hs). cbn [hw_summary].
  split; [|split; [|split]].
  - unfold _engine_health_to_dict; cbn [hw_attribution hw_attribution_basis]. destruct (String.eqb_spec (ob_report_state (es_last s)) "not_reported"); [|done].
    intros Ha. split; [done|]. by destruct (not_reported_attribution _ _ _ _).
  - cbn [hw_attribution _engine_health_to_dict]. destruct (String.eqb _ _); [|done]. unfold not_reported_attribution.
    destruct (bool_decide _ && _) eqn:E; [intros _|by destruct (bool_decide (_ ∈ disabled))]. apply andb_true_iff in E as [Hin%bool_decide_eq_true Hz%Nat.eqb_eq].
    destruct llm; [by apply elem_of_empty in Hin|done].
  - cbn [hw_attribution _engine_health_to_dict]. destruct (String.eqb _ _); [|done]. unfold not_reported_attribution.
    destruct (bool_decide _ && _); [done|]. by case_bool_decide.
  - rewrite elem_of_sort_by, list_elem_of_filter. split; [tauto|]. intros H. split; [done|].
    apply list_elem_of_In, in_map, Hs.
Qed.
End engines.

(** ** The policy routes *)

(** [_proposal_to_dict]: all of a row but its text. *)
Record ProposalView := mkProposalView {
  pv_id : Z;
  pv_changes_hard_gate_rules : bool;
  pv_status : string;
  pv_proposed_by : string;
  pv_approved_by : option string;
  pv_reason : option string;
  pv_created_at : Z;
  pv_decided_at : option Z;
}.

Definition _proposal_to_dict (id : Z) (r : PolicyProposalRow) : ProposalView :=
  mkProposalView id (pp_changes_hard_gate_rules r) (pp_status r) (pp_proposed_by r) (pp_approved_by r) (pp_reason r)
    (pp_created_at r) (pp_decided_at r).

Record PolicyView := mkPolicyView {
  av_version : string;
  av_required_engines : list string;
  av_hard_gate_rules : list string;
  av_review_confidence : Q;
  av_block_on_severity : string;
  av_review_on_severity : string;
  av_pending_proposals : list ProposalView;
}.

(** The pending proposals come in no stated order. *)
Definition get_policy (policy : GatePolicy) (st : PolicyStore) : PolicyView :=
  mkPolicyView (version policy) (sorted_set (required_engines policy)) (sorted_set (hard_gate_rules policy))
    (review_confidence policy) (sev_name (block_on_severity policy)) (sev_name (review_on_severity policy))
    (map (λ kv, _proposal_to_dict kv.1 kv.2)
       (base.filter (λ kv : Z * PolicyProposalRow, pp_status kv.2 = "pending") (map_to_list (proposals st)))).

Section policy_routes.
Variable safe_load : string → option yaml.
Variable available : gset string.

(** The row [id] as the route's session still holds it after its commit. *)
Definition view_in (st : PolicyStore) (id : Z) : option ProposalView := _proposal_to_dict id <$> proposals st !! id.

Definition propose_policy (subject policy_yaml : string) (now : Z) (policy : GatePolicy) (st : PolicyStore)
    : result Z (option ProposalView * PolicyStore) :=
  match propose_policy_change safe_load subject (hard_gate_rules policy) policy_yaml now st with
  | Err _ => Err 400
  | Ok (id, st') => Ok (view_in st' id, st')
  end.

(** Without another decision in between: the approval, then the promotion in a transaction of its own; with the policy the process
    holds afterwards and whether the proposal was applied. *)
Definition approve_policy (id : Z) (subject : string) (now : Z) (policy : GatePolicy) (st : PolicyStore)
    : result Z (option ProposalView * bool * GatePolicy * PolicyStore) :=
  match proposals st !! id with
  | None => Err 404
  | Some proposal =>
      match approve_policy_proposal id proposal subject now st with
      | Err _ => Err 403
      | Ok st1 =>
          match promote_approved_policy safe_load available id (proposals st1 !! id) st1 with
          | None => Ok (view_in st1 id, false, policy, st1)
          | Some (candidate, st2) => Ok (view_in st1 id, true, candidate, st2)
          end
      end
  end.

Definition reject_policy (id : Z) (subject reason : string) (now : Z) (st : PolicyStore)
    : result Z (option ProposalView * PolicyStore) :=
  match proposals st !! id with
  | None => Err 404
  | Some proposal =>
      match reject_policy_proposal id proposal subject reason now st with
      | Err _ => Err 400
      | Ok st' => Ok (view_in st' id, st')
      end
  end.

(** Approving through the route, undisturbed: the answer names two different people behind a proposal
    that was pending, and says applied exactly when the row is stored as applied; then the
    process holds the policy of the proposal, restricted to engines it has, and otherwise
    the policy it held. *)
Theorem approval_reply_is_what_happened id subject now policy st view applied policy' st' :
  approve_policy id subject now policy st = Ok (view, applied, policy', st') →
  ∃ row row', proposals st !! id = Some row ∧ proposals st' !! id = Some row' ∧
    pp_status row = "pending" ∧ pp_proposed_by row ≠ subject ∧
    view = Some (mkProposalView id (pp_changes_hard_gate_rules row) "approved" (pp_proposed_by row) (Some subject)
                   (pp_reason row) (pp_created_at row) (Some now)) ∧
    pp_status row' = (if applied then "applied" else "approved") ∧
    (if applied then _parse_policy_candidate safe_load available row = Some policy' ∧
                     required_engines policy' ≠ ∅ ∧ required_engines policy' ⊆ available
     else policy' = policy ∧ _parse_policy_candidate safe_load available row = None).
Proof.
  unfold approve_policy, approve_policy_proposal. destruct (proposals st !! id) as [row|] eqn:Hrow; [|done].
  destruct (String.eqb_spec (pp_status row) "pending") as [Hp|]; [|done].
  destruct (String.eqb_spec subject (pp_proposed_by row)) as [|Hs]; [done|]. cbn -[promote_approved_policy].
  unfold promote_approved_policy, view_in. cbn [proposals]. rewrite !lookup_alter_eq, Hrow. cbn [fmap option_fmap option_map].
  change (String.eqb (pp_status (decided "approved" subject None now row)) "approved") with true. cbv iota.
  change (_parse_policy_candidate safe_load available (decided "approved" subject None now row)) with
    (_parse_policy_candidate safe_load available row). intros H.
  destruct (_parse_policy_candidate safe_load available row) as [c|] eqn:Ec; cbn in H; simplify_eq; exists row; eexists; cbn.
  - rewrite !lookup_alter_eq, Hrow. split_and!; try done; unfold _parse_policy_candidate in Ec;
      destruct (safe_load _) as [[]|]; try done; destruct (parse_gate_policy _); try done; repeat (case_bool_decide; try done); by simplify_eq.
  - rewrite lookup_alter_eq, Hrow. split_and!; done.
Qed.
End policy_routes.

Module ConsoleSamples.
Definition row (owner : option string) : SkillRow := mkSkillRow "web-upload" "internal" None owner 1.
Definition shelf : Store :=
  mkStore {["a" := row None; "b" := row (Some "bob"); "c" := row None]} ∅ ∅ [mkEvent "a" None None None "submitted" "new submission" "eve" 1] [].
Definition sources : OwnerSources := mkOwnerSources (Some shelf) (Some (Some [mkLocalAccount "alice" "h" "submitter"])).

Definition bulk := assign_owner_bulk sources " alice " "leaver" "root" ["c"; "b"; "c"; "x"; "a"] shelf.
Definition bulk_reply : BulkReply :=
  mkBulkReply "alice" ["c"; "a"] [("b", invalid_owner owner_conflict); ("x", skill_not_registered)] (Some true).
Definition bulk_store : Store := match bulk with Ok (_, st) => st | Err _ => shelf end.

Lemma bulk_assignment_takes_only_the_unowned_witness :
  bulk = Ok (bulk_reply, bulk_store) ∧ skills bulk_store !! "b" = Some (row (Some "bob")) ∧
  intents bulk_store = map (owner_intent "root" "alice" "leaver") ["a"; "c"].
Proof.
  assert (H : bulk = Ok (bulk_reply, bulk_store)) by (vm_compute; reflexivity).
  destruct (bulk_assignment_takes_only_the_unowned sources " alice " "leaver" "root" ["c"; "b"; "c"; "x"; "a"] shelf
              bulk_reply bulk_store H) as (_ & _ & Hs & Hi & _).
  split; [exact H|]. split; [rewrite Hs; vm_compute; reflexivity|]. rewrite Hi. vm_compute. reflexivity.
Defined.

Example ownership_refusals :
  assign_owner_bulk sources "alice" "r" "root" [] shelf = Err bulk_body_invalid ∧
  assign_owner_bulk sources " " "r" "root" ["a"] shelf = Err (bulk_owner_invalid owner_empty) ∧
  set_skill_owner_reply sources "b" "eve" "r" "root" true shelf = Err 409 ∧
  fst <$> set_skill_owner_reply sources "b" "eve" "r" "root" false shelf = Ok (mkOwnerReply "b" "eve" (Some "bob") (Some true)) ∧
  set_skill_owner_reply sources "x" "eve" "r" "root" true shelf = Err 404 ∧
  list_unowned 0 0 shelf = None ∧ fst <$> list_unowned 1 1 shelf = Some 2%nat.
Proof. split_and!; vm_compute; reflexivity. Qed.

Example hints :
  map (_owner_is_recognized sources) ["eve"; "bob"; "alice"; "alicia"] = map Some [true; true; true; false] ∧
  _owner_is_recognized (mkOwnerSources (Some shelf) None) "alice" = Some false ∧
  _owner_is_recognized (mkOwnerSources (Some shelf) (Some None)) "alice" = None.
Proof. split_and!; vm_compute; reflexivity. Qed.

(** Two administrators read [a] as unowned; the one who commits second takes it from the
    owner the first gave it to, and both audit rows say it had none. *)
Example racing_assignments :
  let seen := skills shelf !! "a" in
  ∃ st1 st2,
    assign_on_row seen "a" "bob" "r" "root" shelf = Ok st1 ∧
    assign_on_row seen "a" "carol" "r" "admin" st1 = Ok st2 ∧
    (sk_owner <$> skills st1 !! "a") = Some (Some "bob") ∧ (sk_owner <$> skills st2 !! "a") = Some (Some "carol") ∧
    intents st2 = [owner_intent "admin" "carol" "r" "a"; owner_intent "root" "bob" "r" "a"].
Proof. do 2 eexists. split_and!; vm_compute; reflexivity. Qed.

(** A switch whose audit write fails has already taken effect. *)
Example switch_without_audit (sha256 : list Z → string) (show : Q → string) :
  set_engine_enabled_endpoint sha256 show [] "bandit" false "root" false (mkSwitchState ∅ []) =
  (audit_write_failed, mkSwitchState {["bandit"]} []).
Proof. vm_compute. reflexivity. Qed.

Example floor_names (sha256 : list Z → string) (show : Q → string) :
  map em_name (floor_metadatas sha256 show) =
  ["static-keyword"; "inhouse-crypto-weak"; "inhouse-file-type"; "inhouse-pii"; "inhouse-toctou"; "inhouse-prompt-injection-zh";
   "inhouse-jailbreak-inducement-zh"; "inhouse-mcp-config"; "inhouse-skill-permissions"].
Proof. vm_compute. reflexivity. Qed.

Lemma approval_reply_is_what_happened_witness :
  approve_policy WorkflowSamples.load WorkflowSamples.engines 1 "bob" 5 WorkflowSamples.boot WorkflowSamples.st1 =
    Ok (view_in (WorkflowSamples.approve 1 5 WorkflowSamples.st1) 1, true, WorkflowSamples.policy_a, WorkflowSamples.promote 1 (WorkflowSamples.approve 1 5 WorkflowSamples.st1)) ∧
  required_engines WorkflowSamples.policy_a ⊆ WorkflowSamples.engines.
Proof.
  assert (H : approve_policy WorkflowSamples.load WorkflowSamples.engines 1 "bob" 5 WorkflowSamples.boot WorkflowSamples.st1 =
    Ok (view_in (WorkflowSamples.approve 1 5 WorkflowSamples.st1) 1, true, WorkflowSamples.policy_a,
        WorkflowSamples.promote 1 (WorkflowSamples.approve 1 5 WorkflowSamples.st1))) by (vm_compute; reflexivity).
  split; [exact H|].
  destruct (approval_reply_is_what_happened WorkflowSamples.load WorkflowSamples.engines 1 "bob" 5 WorkflowSamples.boot
              WorkflowSamples.st1 _ true _ _ H) as (r & r' & _ & _ & _ & _ & _ & _ & _ & _ & Ha). exact Ha.
Defined.

Definition unheard : ScanEngineHealthRow := mkScanEngineHealthRow "not_reported" None None None None 7.
Definition seen_scans : OrchStore :=
  mkOrchStore ∅ ∅ ∅ {[("s1", "aig-mcp-scan") := unheard; ("s1", "old-engine") := unheard; ("s1", "yara") := unheard]}.

Definition health_page : option HealthReply := get_engine_health [] false 50 {["yara"; "aig-mcp-scan"]} seen_scans.
Definition shown : HealthReply := default (mkHealthReply (mkWindow 0 0 None None) [] []) health_page.
Definition aig_row : HealthRow :=
  mkHealthRow (mkSummary "aig-mcp-scan" 1 (mkCounts 0 0 0 1 0) (_observation ("s1", "aig-mcp-scan") unheard) 0 None)
    (Some ATTRIBUTION_LLM_ENDPOINT_UNCONFIGURED) (Some ATTRIBUTION_BASIS_CURRENT_CONFIG).

Lemma attributions_yield_to_evidence_witness :
  map hw_attribution (hp_engines shown) = [Some "llm_endpoint_unconfigured"; None; Some "currently_disabled"] ∧
  hp_unregistered_engines shown = ["old-engine"] ∧ counts_reported (es_counts (hw_summary aig_row)) = 0%nat.
Proof.
  assert (H : health_page = Some shown) by (vm_compute; reflexivity).
  assert (Hin : aig_row ∈ hp_engines shown) by (apply list_elem_of_In; vm_compute; tauto).
  destruct (attributions_yield_to_evidence [] false 50 {["yara"; "aig-mcp-scan"]} seen_scans shown aig_row H Hin) as (_ & Hl & _).
  split; [vm_compute; reflexivity|]. split; [vm_compute; reflexivity|]. exact (proj2 (Hl eq_refl)).
Defined.
End ConsoleSamples.
